(* ===== verification/_CoqProject ===== *)
-Q . S2P
Prelude.v
DspState.v
HostPort.v
Memory.v
Arith56.v
Ccr.v
Alu.v
Agu.v
ParMove.v
Control.v
Exec.v
Printf.v
Disasm.v
Mfp.v
Ram.v
Blitter.v
Ikbd.v
Mmu.v
Rtc.v
Cpu.v
MulDiv.v
Insn.v
Handlers.v
Wp.v
Typing.v
Safety.v
CcrSpec.v
AluSpec.v
MoveSpec.v
AguSpec.v
MemSpec.v
HostSpec.v
ExecSpec.v
RepSpec.v
FirSpec.v
IntSpec.v
LifeSpec.v
DisasmSpec.v
TraceSpec.v
MfpSpec.v
IkbdSpec.v
BlitSpec.v
MmuSpec.v
MmuRun.v
RtcSpec.v
ShiftSpec.v
ArithSpec.v
MulDivSpec.v
Space.v
SpaceMmu.v
SrSpec.v
ExcSpec.v
ExcRun.v
Faults.v
FaultSpec.v
PageSpec.v
