(* ===== verification/Prelude.v ===== *)
(** * Chips of ARAnyM: models and correctness

    ** The program

    ARAnyM emulates an Atari computer on a host.  This library verifies the parts of it that
    are programs of their own, with state, protocols and algorithms:
    - the Falcon's signal processor DSP56001, in C: src/src/dsp_core.c (memories, registers,
      initialisation, reset, and the host port through which the CPU downloads a program and
      exchanges words with the DSP), src/src/dsp_cpu.c (the instruction interpreter),
      src/src/include/dsp_core.h and dsp_cpu.h, src/src/dsp.cpp (running instructions), and
      src/src/dsp_disasm.c (the disassembler and register trace);
    - the interrupt controller MFP 68901 with the 200 Hz tick: src/src/mfp.cpp,
      invoke200HzInterrupt of src/src/main.cpp, and where the CPU takes its interrupts,
      src/src/uae_cpu/newcpu.cpp;
    - the keyboard controller IKBD on its ACIA: src/src/ikbd.cpp, acia.cpp;
    - the blitter: src/src/blitter.cpp;
    - the clock chip with the settings (NVRAM): src/src/rtc.cpp;
    - the memory management unit of the 68040: src/src/uae_cpu/cpummu.cpp, cpummu.h and the
      accesses to logical memory of memory.h and newcpu.h;
    - the interpreter of the 68040: the handlers that src/src/uae_cpu/gencpu.c generates for the
      integer instructions, and the status register, exceptions, interrupts and arithmetic
      routines of newcpu.cpp, newcpu.h and m68k.h.

    How they interact: the CPU reads and writes the chips' registers through their
    handleRead and handleWrite (an access to them ends a run of the CPU model with a result
    that names it), and the DSP's through
    [dsp_core_read_host] and [dsp_core_write_host], which work on one [struct dsp_core_s]
    with the interpreter.  The keyboard controller moves a line of the MFP when it has a byte;
    the tick raises the MFP's timer C; the MFP raises a flag of the CPU, which then asks it
    for the vector.  The blitter and the table search of the MMU work on physical memory
    (Ram), the CPU's own accesses go through the MMU, whose access errors are C++ exceptions
    that the instruction loop turns into exception 2 of the 68040.

    ** The models

    Every C function is a definition of the same name; machine integers are [Z] with their
    wrap-around written out ([u8], [u16], [u32], [s16]), arrays are finite maps with default
    0 whose accesses check the C bounds, macros of the headers are abbreviations for their
    numbers.  What can go wrong is a value:
    - the DSP is a state monad ([DspState.M]) with results [Ok] and [UB] (an array index out
      of bounds, a call outside a dispatch table, a read of the union member that was not
      written, [1<<31] on an int, an instruction executed while the pointer [dsp_core] of
      dsp_cpu.c is NULL).  The left shifts of negative constants in the A-law table of
      [dsp_core_init] and the negations of INT_MIN in m68k_divl and m68k_mull for narrow hosts
      have the value two's complement machines give them.  The SDL mutex, semaphore and thread calls are recorded in a trace, in thread
      mode only.  The disassembler's monad adds buffer sizes and format strings;
    - the MFP, the keyboard controller and the tick are functions on the class's members, with
      [res] where arithmetic can overflow or divide by zero;
    - the blitter and the MMU have monads in which a bus error (a C++ exception) and an access
      to the registers of a chip are results that carry the state; the monad of the CPU is built
      on the MMU's and adds leaving a handler early and what stops the emulator.

    The DSP:
    - DspState: the state, the monad, array accesses, lock and thread primitives
    - HostPort: dsp_core.c (transfers, host reads and writes, bootstrap, init, reset)
    - Memory: address spaces, peripheral registers, stack
    - Arith56: the seven 56 bit arithmetic routines
    - Ccr: condition code updates and tests
    - Alu: the arithmetic and logic instructions
    - Agu: address register updates and effective addresses
    - ParMove: parallel moves and the limiter
    - Control: bit, loop, jump, MOVEC, MOVEM, MOVEP, DIV, NORM, Tcc instructions
    - Exec: opcode tables, dispatch, PC update, interrupts, one instruction, many
    - Printf, Disasm: formatted output and dsp_disasm.c

    The other chips:
    - Mfp: mfp.cpp, SERVE_VBL_MFP (its MFP part), invoke200HzInterrupt
    - Ikbd: ikbd.cpp and acia.cpp, calling Mfp
    - Ram: what is memory, and big-endian bytes, words and longs (memory.h)
    - Blitter: blitter.cpp on Ram
    - Rtc: rtc.cpp, with the host's file, clock and options as arguments
    - Mmu: cpummu.cpp, cpummu.h, logical accesses of memory.h and newcpu.h, on Ram

    The 68040, on Mmu:
    - Cpu: registers, status register, exceptions, interrupts, MOVEC, indexed addresses, bit
      fields (newcpu.cpp, newcpu.h, registers.h, m68k.h, spcflags.h)
    - MulDiv: m68k_divl and m68k_mull, each for hosts with and without 64 bit integers
    - Insn: the parts gencpu.c puts its handlers together from: operands, flags, stores, shifts,
      decimal arithmetic, MOVEM, bit fields.  The generator prints C code; a definition here is
      what the printed code does, with the generator's own state (m68k_pc_offset) a variable
    - Handlers: gen_opcode, a definition per instruction, one round of m68k_do_execute with
      the CATCH of m68k_execute, trace and reset; the table of opcodes is an argument

    ** Reasoning

    - Prelude (this file): C integer operations, their bit and range lemmas
    - Typing: [typed], the ranges of all DSP variables, and [spec]/[safe], a logic for code
      that keeps them; the hint database [dsp_safe] has one lemma per function, and the
      tactic [spec_auto] runs a function with it
    - Wp: [wp], total correctness, with the tactic [wp_steps] for symbolic execution, and
      [frame], the registers a piece of code may change

    ** What the theorems show

    The DSP:
    - Safety (execute_instruction_safe) and LifeSpec (machine_safe): every instruction and
      every sequence of host and DSP actions keeps all variables in range, and of the
      failures of [UB] only three can happen: an access outside the DSP stack, [1<<31] for an
      instruction that names bit 31, and, without the thread, an instruction before the
      first reset, which sets the pointer.
    - Arith56, CcrSpec, AluSpec: the three word routines and the instructions ADD, SUB,
      CMP and MAC compute with 56 bit two's complement numbers; the flags and the sixteen
      conditions mean what they should; multiplication and rounding equal their reference
      definitions.
    - MoveSpec: the limiter saturates.
    - AguSpec: linear, circular and bit-reversed addressing, and that updates terminate.
    - MemSpec: the memory functions refine a store of cells, the stack refines a list.
    - HostSpec: the DSP to host direction refines a queue of two words; the host to DSP
      direction delivers a word per TRDY handshake.
    - ExecSpec: DO loops, subroutines, jumps on bits.
    - RepSpec, FirSpec: REP with any repeated instruction, and the inner loop of a filter
      followed through the whole interpreter: it computes the inner product.
    - IntSpec: choice of the interrupt, fast and long interrupts and their returns.
    - LifeSpec: tables of the data ROM, reset, bootstrap, and the machine as a transition
      system with its invariant.
    - DisasmSpec: every instruction word is printed without overrunning anything.
    - TraceSpec: the registers the disassembler marks for an instruction with parallel moves,
      when it is not at the address disassembled before, are exactly those of a specification,
      and the interpreter changes no others.

    The other chips:
    - MfpSpec: the controller's invariant (no pending interrupt is forgotten), delivery of
      every interrupt in the order of priority to a CPU that serves them, the tick that does
      not drift (and falls behind for a while when the host's real time clock drives it late).
    - IkbdSpec: the ring buffer is a queue and is never left, commands are framed by their
      lengths (up to the first write to the controller's memory), mouse motions of at most 2048
      add up while the Y origin is at the top, and together with the MFP every byte reaches the CPU
      once and in order.
    - BlitSpec: the transfer computes a picture that is defined bit by bit.
    - RtcSpec: what one session writes into the settings the next one reads, and their
      checksum is right after every start.
    - MmuSpec, MmuRun: the table search finds the translation the tables define and leaves it
      as it is; with both levels of caches, mode changes, MOVES and PFLUSH the MMU refines a
      machine with a fixed translation and no caches, up to the first failed access.

    The 68040:
    - ShiftSpec, ArithSpec, MulDivSpec: the shifts equal repeated single steps; addition,
      subtraction and comparison with all flags, chains of ADDX for numbers of any length,
      decimal arithmetic; long division and multiplication, and that the versions for the two
      kinds of host agree.
    - Space: the interface [data_space], what the instructions rely on in memory; SpaceMmu: the
      MMU provides it, also for accesses across pages.
    - SrSpec, ExcSpec, ExcRun: the status register round trip; an exception and its RTE are
      inverse to each other for every vector, and an interrupt in master mode with its two
      frames; the examples run on the MMU's.
    - Faults, FaultSpec, PageSpec: which instructions read everything before they change
      anything and store last, and with ExcSpec that demand paging is invisible to them.

    Several theorems record defects.  Of the DSP: the stack overruns by one entry
    (stack_push_overruns), a host word is lost when two are pending (to_dsp_loses_word),
    HRX and HTX share a cell (htx_clobbers_hrx), vector words that are no JSR make an
    interrupt long (is_jsr_misclassifies), JSSET on a register is inverted
    (jsset_register_inverted), register moves keep the source's width
    (register_move_not_masked), circular buffers above $7fff do not work
    (modulo_high_address), [1<<31] is computed for bit 31 (bit_31_shift), and without the
    thread the pointer of dsp_cpu.c is followed while NULL if the DSP is started without a
    reset (no_reset_null_pointer).  Of the others: data that the controller of the keyboard
    should store run as commands (load_data_executed), a division by zero in the tick (tick_division), a
    transfer that starts again after a bus error (interrupted_blit_restarts), merged mouse
    motions that are lost (reversed_merge_loses), PFLUSH with pages of 8192 bytes (pflush_8k),
    a failed access that spoils another page's line (fault_spoils_line), and
    low_memory_unprotected, protection_spreads, transparent_data_blocks_fetch in MmuRun.  Of
    the 68040: the division that stops the host (divl_correct), the uninitialised variable of
    the narrow division (narrow_hosts_agree), N and Z of short products (mull_correct).

    ** Bounds

    The loops of the C code are structural recursions with the C loop bounds, but for those
    with fuel: the three [while] loops of [dsp_update_rn_modulo] (16 doublings for the
    buffer size, as a modulus is at most 32768, and the modifier itself for the two loops
    that take off whole buffers), the lines of a blit (their number), the packets of a mouse
    motion (the larger motion and one), the restart in [mmu_fill_atc_l1] (one), the
    registers of MOVEM (8 per mask) and the bits of BFFFO (32), which their masks bound, and
    the frames RTE takes off the stack (64; the code has no bound, and the theorems on
    exceptions use at most two).  That
    fuel never runs out is part of the theorems, where running out is a result of its own.
    The translation theorem is for accesses inside a page, stores above the first page,
    tables in memory that the program does not touch and whose shared page descriptors inherit
    the same protection on every path, transparent translation registers that match the same
    addresses for instructions and data, and with pages of 8192 bytes for PFLUSH of all
    entries; its program is any list of operations, up to the first that fails.
    The theorems on exceptions ask for room on the stacks and for a readable vector, and
    those outside master mode, demand paging among them, for the master bit to be clear;
    demand paging is for the entries of [FaultSpec.precise_entry], which leaves out CMPM, MOVEM,
    MOVEP, divisions, long multiplications, bit fields, the instructions that take
    something off the stack, jumps, and those that start exceptions.
    Circular addressing is for buffers in the lower half of the address space.

    ** Not modelled

    Of the DSP: the thread loop [dsp56k_exec_thread], which repeats the instruction step while
    [running] is set; interleavings of the two threads inside a function (the steps here are
    whole calls, as the mutex makes the host port operations); floating point [sin], a
    parameter of [dsp_core_init]; DSP::handleRead and handleWrite, which pass a register
    number on.  Of the MMU: functions that only print, and the fast paths without FULLMMU.
    Of the 68040: the FPU and its instructions, RESET, the calls into the emulator (EmulOp,
    NatFeat, linea68000), m68k_do_specialties beyond the MFP, the opcode table (readcpu.cpp and
    the text it reads; the theorems are for any table), and the JIT, whose output is host
    machine code.  The native features, mostly calls into the host's libraries; the floppy,
    IDE, serial and sound chips and VIDEL; the graphical interface, configuration and start-up.
    These are input and output, generated code or glue around libraries that are not in the
    repository. *)

From stdpp Require Export base numbers list gmap.
From Stdlib Require Import Lia.
#[global] Open Scope Z_scope.

(** ** C integer operations

    Unsigned machine integers are non-negative [Z]; the wrap-around of an
    arithmetic operation is written out with [u8], [u16], [u32], a conversion
    to a signed 16 bit integer with [s16]. *)

Declare Scope c_scope.
Notation "x .& y" := (Z.land x y) (at level 45, left associativity) : c_scope.
Notation "x .| y" := (Z.lor x y) (at level 47, left associativity) : c_scope.
Notation "x .^ y" := (Z.lxor x y) (at level 46, left associativity) : c_scope.
#[global] Open Scope c_scope.

Definition u8 (x : Z) : Z := x mod 256.
Definition u16 (x : Z) : Z := x mod 65536.
Definition u32 (x : Z) : Z := x mod 4294967296.
Definition s16 (x : Z) : Z := (x + 32768) mod 65536 - 32768.

(** The truth value of a C integer, and the integer value of a C comparison. *)
Definition nz (x : Z) : bool := negb (x =? 0).
Definition b2z (b : bool) : Z := if b then 1 else 0.

(** [#define BITMASK(x) ((1<<(x))-1)] *)
Definition BITMASK (x : Z) : Z := (1 ≪ x) - 1.

(** [~x] on a [Uint32] *)
Definition not32 (x : Z) : Z := 4294967295 - x.

(** The value range of a [k] bit unsigned integer. *)
Definition in_u (k x : Z) : Prop := 0 <= x < 2 ^ k.
#[global] Typeclasses Opaque in_u.

(** ** Arrays

    A C array is a finite map from indices to cells; a cell that was never
    written holds 0 (the arrays of the emulator are cleared by [memset]).  The
    bounds of an access are checked by the accessors of the machine. *)

Section arrays.
Context `{Countable K}.

Definition aget (a : gmap K Z) (k : K) : Z := default 0 (a !! k).
Definition aset (a : gmap K Z) (k : K) (v : Z) : gmap K Z := <[k := v]> a.

Lemma aget_aset_eq a k v : aget (aset a k v) k = v.
Proof. unfold aget, aset. by rewrite lookup_insert_eq. Qed.

Lemma aget_aset_ne a k k' v : k ≠ k' → aget (aset a k v) k' = aget a k'.
Proof. intros Hk. unfold aget, aset. by rewrite lookup_insert_ne. Qed.

Lemma aget_aset a k k' v :
  aget (aset a k v) k' = if decide (k = k') then v else aget a k'.
Proof. case_decide; [subst; apply aget_aset_eq | by apply aget_aset_ne]. Qed.

Lemma aget_empty k : aget ∅ k = 0.
Proof. unfold aget. by rewrite lookup_empty. Qed.

(** Every cell of an array satisfies a predicate. *)
Definition acells (P : Z → Prop) (a : gmap K Z) : Prop := ∀ k, P (aget a k).

Lemma acells_aset P a k v : acells P a → P v → acells P (aset a k v).
Proof. intros Ha Hv k'. rewrite aget_aset. case_decide; auto. Qed.

Lemma acells_empty (P : Z → Prop) : P 0 → acells P ∅.
Proof. intros H0 k. by rewrite aget_empty. Qed.
End arrays.

(** ** Masks, shifts and bits as arithmetic *)

Lemma BITMASK_ones k : 0 <= k → BITMASK k = Z.ones k.
Proof. intros. unfold BITMASK, Z.ones. rewrite Z.shiftl_1_l. lia. Qed.

Lemma land_BITMASK x k : 0 <= k → x .& BITMASK k = x mod 2 ^ k.
Proof. intros. by rewrite BITMASK_ones, Z.land_ones. Qed.

Lemma land_ones_const x m k : m = 2 ^ k - 1 → 0 <= k → x .& m = x mod 2 ^ k.
Proof. intros -> ?. rewrite <- land_BITMASK by done. unfold BITMASK. by rewrite Z.shiftl_1_l. Qed.

Lemma shr_div x k : 0 <= k → x ≫ k = x / 2 ^ k.
Proof. apply Z.shiftr_div_pow2. Qed.

Lemma shl_mul x k : 0 <= k → x ≪ k = x * 2 ^ k.
Proof. apply Z.shiftl_mul_pow2. Qed.

(** A mask of the bits [k] to [n-1]. *)
Lemma land_hi x m k n :
  m = 2 ^ n - 2 ^ k → 0 <= k <= n → x .& m = (x / 2 ^ k) mod 2 ^ (n - k) * 2 ^ k.
Proof.
  intros -> Hk.
  assert (2 ^ n - 2 ^ k = Z.ones (n - k) ≪ k) as ->.
  { rewrite shl_mul, Z.ones_equiv by lia. unfold Z.pred.
    rewrite Z.mul_add_distr_r, <- Z.pow_add_r by lia.
    replace (n - k + k) with n by lia. lia. }
  rewrite <- shr_div, <- Z.land_ones, <- shl_mul by lia.
  apply Z.bits_inj'. intros i Hi. rewrite Z.land_spec, !Z.shiftl_spec by done.
  destruct (decide (i < k)).
  - rewrite !(Z.testbit_neg_r _ (i - k)) by lia. apply andb_false_r.
  - rewrite Z.land_spec, Z.shiftr_spec by lia. f_equal. f_equal. lia.
Qed.

(** A disjunction of bits that do not overlap is a sum. *)
Lemma lor_add a b k : 0 <= k → 0 <= b < 2 ^ k → a mod 2 ^ k = 0 → a .| b = a + b.
Proof.
  intros Hk Hb Ha.
  assert (a .& b = 0) as Hd.
  { apply Z.bits_inj'. intros i Hi. rewrite Z.land_spec, Z.bits_0.
    destruct (decide (i < k)).
    - rewrite <- (Z.mod_pow2_bits_low a k) by lia. by rewrite Ha, Z.bits_0.
    - rewrite <- (Z.mod_small b (2 ^ k)) by lia.
      rewrite Z.mod_pow2_bits_high by lia. by rewrite andb_false_r. }
  pose proof (Z.add_lor_land a b). lia.
Qed.

Lemma testbit_mod2 x k : 0 <= k → (x / 2 ^ k) mod 2 = Z.b2z (Z.testbit x k).
Proof. intros. symmetry. by apply Z.testbit_spec'. Qed.

Lemma bit_b2z x k : 0 <= k → (x ≫ k) .& 1 = b2z (Z.testbit x k).
Proof.
  intros. rewrite shr_div by done.
  rewrite (land_ones_const _ 1 1) by lia.
  change (2 ^ 1) with 2. rewrite testbit_mod2 by done. by destruct (Z.testbit _ _).
Qed.

Lemma land_pow2 x k : 0 <= k → x .& (1 ≪ k) = b2z (Z.testbit x k) * 2 ^ k.
Proof.
  intros Hk. rewrite Z.shiftl_1_l. apply Z.bits_inj'. intros i Hi.
  rewrite Z.land_spec. destruct (decide (k = i)) as [->|].
  - rewrite Z.pow2_bits_true, andb_true_r by lia.
    destruct (Z.testbit x i); cbn [b2z]; [|by rewrite Z.mul_0_l, Z.bits_0].
    rewrite Z.mul_1_l, Z.pow2_bits_true by lia. done.
  - rewrite Z.pow2_bits_false, andb_false_r by lia.
    destruct (Z.testbit x k); cbn [b2z]; [|by rewrite Z.mul_0_l, Z.bits_0].
    rewrite Z.mul_1_l, Z.pow2_bits_false by lia. done.
Qed.

Lemma nz_land_bit x k : 0 <= k → nz (x .& (1 ≪ k)) = Z.testbit x k.
Proof.
  intros Hk. rewrite land_pow2 by done. pose proof (Z.pow_pos_nonneg 2 k).
  unfold nz. destruct (Z.testbit x k); cbn [b2z]; [|done].
  destruct (Z.eqb_spec (1 * 2 ^ k) 0); [lia|done].
Qed.

Lemma nz_true x : nz x = true ↔ x ≠ 0.
Proof. unfold nz. rewrite negb_true_iff. apply Z.eqb_neq. Qed.

Lemma nz_false x : nz x = false ↔ x = 0.
Proof. unfold nz. rewrite negb_false_iff. apply Z.eqb_eq. Qed.

(** The top bit of a [k+1] bit value is a comparison. *)
Lemma testbit_top x k : 0 <= k → 0 <= x < 2 ^ (k + 1) → Z.testbit x k = (2 ^ k <=? x).
Proof.
  intros Hk Hx. rewrite Z.pow_add_r in Hx by lia.
  pose proof (Z.testbit_spec' x k Hk) as E.
  destruct (Z.leb_spec (2 ^ k) x).
  - replace (x / 2 ^ k) with 1 in E by (apply (Z.div_unique x (2 ^ k) 1 (x - 2 ^ k)); lia).
    by destruct (Z.testbit x k).
  - rewrite Z.div_small in E by lia. by destruct (Z.testbit x k).
Qed.

(** ** Ranges *)

Create HintDb dsp_bounds discriminated.

Lemma in_u_mono k k' x : in_u k x → 0 <= k <= k' → in_u k' x.
Proof. unfold in_u. intros. pose proof (Z.pow_le_mono_r 2 k k'). lia. Qed.

(** A value is in the range of [k] bits when its bits from [k] up are clear. *)
Lemma in_u_bits k x : 0 <= k → in_u k x ↔ ∀ i, k <= i → Z.testbit x i = false.
Proof.
  intros Hk. unfold in_u. split.
  - intros Hx i Hi. rewrite <- (Z.mod_small x (2 ^ k)) by done.
    by apply Z.mod_pow2_bits_high.
  - intros Hb. assert (x = x mod 2 ^ k) as ->.
    { apply Z.bits_inj'. intros i Hi. destruct (decide (i < k)).
      - by rewrite Z.mod_pow2_bits_low by lia.
      - rewrite Z.mod_pow2_bits_high by lia. apply Hb. lia. }
    apply Z.mod_pos_bound. by apply Z.pow_pos_nonneg.
Qed.

Lemma in_u_land_l k x y : in_u k x → 0 <= k → in_u k (x .& y).
Proof.
  intros Hx Hk. rewrite in_u_bits in * by done. intros i Hi.
  by rewrite Z.land_spec, Hx.
Qed.

Lemma in_u_land_r k x y : in_u k y → 0 <= k → in_u k (x .& y).
Proof. rewrite Z.land_comm. apply in_u_land_l. Qed.

Lemma in_u_lor k x y : in_u k x → in_u k y → 0 <= k → in_u k (x .| y).
Proof.
  intros Hx Hy Hk. rewrite in_u_bits in * by done. intros i Hi.
  by rewrite Z.lor_spec, Hx, Hy.
Qed.

Lemma in_u_lxor k x y : in_u k x → in_u k y → 0 <= k → in_u k (x .^ y).
Proof.
  intros Hx Hy Hk. rewrite in_u_bits in * by done. intros i Hi.
  by rewrite Z.lxor_spec, Hx, Hy.
Qed.

Lemma in_u_shr k x n : in_u k x → 0 <= k → 0 <= n → in_u k (x ≫ n).
Proof.
  intros Hx Hk Hn. rewrite in_u_bits in * by done. intros i Hi.
  rewrite Z.shiftr_spec by lia. apply Hx. lia.
Qed.

Lemma in_u_shl k x n : 0 <= n → in_u (k - n) x → n <= k → in_u k (x ≪ n).
Proof.
  intros Hn Hx Hk. rewrite in_u_bits in * by lia. intros i Hi.
  rewrite Z.shiftl_spec by lia. apply Hx. lia.
Qed.

Lemma in_u_u32 x : in_u 32 (u32 x).
Proof. unfold in_u, u32. change (2 ^ 32) with 4294967296. by apply Z.mod_pos_bound. Qed.

Lemma in_u_u16 x : in_u 16 (u16 x).
Proof. unfold in_u, u16. change (2 ^ 16) with 65536. by apply Z.mod_pos_bound. Qed.

Lemma in_u_u8 x : in_u 8 (u8 x).
Proof. unfold in_u, u8. change (2 ^ 8) with 256. by apply Z.mod_pos_bound. Qed.

Lemma in_u_not32 x : in_u 32 x → in_u 32 (not32 x).
Proof. unfold in_u, not32. change (2 ^ 32) with 4294967296. lia. Qed.

Lemma in_u_b2z k b : 1 <= k → in_u k (b2z b).
Proof.
  intros. unfold in_u. pose proof (Z.pow_le_mono_r 2 1 k). destruct b; cbn [b2z]; lia.
Qed.

Lemma in_u_land_mask k x : 0 <= k → in_u k (x .& BITMASK k).
Proof.
  intros. rewrite land_BITMASK by done. unfold in_u.
  apply Z.mod_pos_bound. by apply Z.pow_pos_nonneg.
Qed.

(** A closed range fact is decided by evaluation. *)
Definition in_ub (k x : Z) : bool := (0 <=? x) && (x <? 2 ^ k).

Lemma in_ub_spec k x : in_ub k x = true → in_u k x.
Proof. unfold in_ub, in_u. intros [??]%andb_prop. lia. Qed.

Lemma u32_small x : 0 <= x < 4294967296 → u32 x = x.
Proof. apply Z.mod_small. Qed.

Lemma u16_small x : 0 <= x < 65536 → u16 x = x.
Proof. apply Z.mod_small. Qed.

Lemma u8_small x : 0 <= x < 256 → u8 x = x.
Proof. apply Z.mod_small. Qed.

Lemma s16_small x : -32768 <= x < 32768 → s16 x = x.
Proof. intros. unfold s16. rewrite Z.mod_small by lia. lia. Qed.

Lemma s16_mod x : s16 x mod 65536 = x mod 65536.
Proof. unfold s16. Z.div_mod_to_equations. lia. Qed.

(** [bounds] proves a range [in_u k x] from the shape of the expression [x]
    and from the ranges in the context. *)
Ltac bounds :=
  lazymatch goal with
  | |- in_u ?k ?x =>
    first
      [ assumption
      | lazymatch x with
        | Z0 => apply in_ub_spec; reflexivity
        | Zpos _ => apply in_ub_spec; reflexivity
        | u32 _ => apply (in_u_mono 32); [apply in_u_u32 | lia]
        | u16 _ => apply (in_u_mono 16); [apply in_u_u16 | lia]
        | u8 _ => apply (in_u_mono 8); [apply in_u_u8 | lia]
        | b2z _ => apply in_u_b2z; lia
        | Z.land ?a (BITMASK ?j) =>
            first [ apply (in_u_mono j); [apply in_u_land_mask; lia | lia]
                  | apply in_u_land_l; [bounds | lia] ]
        | Z.land _ _ =>
            first [ apply in_u_land_r; [bounds | lia] | apply in_u_land_l; [bounds | lia] ]
        | Z.lor _ _ => apply in_u_lor; [bounds | bounds | lia]
        | Z.lxor _ _ => apply in_u_lxor; [bounds | bounds | lia]
        | Z.shiftr _ _ => apply in_u_shr; [bounds | lia | lia]
        | Z.shiftl _ ?n => apply in_u_shl; [lia | bounds | lia]
        | not32 _ => apply (in_u_mono 32); [apply in_u_not32; bounds | lia]
        | (if ?b then _ else _) => destruct b; bounds
        | BITMASK _ => apply in_ub_spec; reflexivity
        end
      | match goal with
        | H : in_u ?j x |- _ => apply (in_u_mono j); [exact H | lia]
        end
      | apply in_ub_spec; reflexivity
      | solve [eauto with dsp_bounds] ]
  end.

