(* ===== verification/DspState.v ===== *)
(** * The state of the DSP emulation and the monad its code runs in

    [dsp_core_t] is [struct dsp_core_s] of src/src/include/dsp_core.h; [state]
    adds the static variables of src/src/dsp_cpu.c and the trace of calls to the
    SDL synchronisation primitives.  The macros of dsp_core.h and dsp_cpu.h are
    notations for the numbers they stand for. *)

From S2P Require Import Prelude.

(** ** Macros of dsp_cpu.h *)

Abbreviation DSP_OMR_DE := 2 (only parsing).

Abbreviation DSP_SR_C := 0 (only parsing).
Abbreviation DSP_SR_V := 1 (only parsing).
Abbreviation DSP_SR_Z := 2 (only parsing).
Abbreviation DSP_SR_N := 3 (only parsing).
Abbreviation DSP_SR_U := 4 (only parsing).
Abbreviation DSP_SR_E := 5 (only parsing).
Abbreviation DSP_SR_L := 6 (only parsing).
Abbreviation DSP_SR_I0 := 8 (only parsing).
Abbreviation DSP_SR_I1 := 9 (only parsing).
Abbreviation DSP_SR_S0 := 10 (only parsing).
Abbreviation DSP_SR_S1 := 11 (only parsing).
Abbreviation DSP_SR_T := 13 (only parsing).
Abbreviation DSP_SR_LF := 15 (only parsing).

Abbreviation DSP_REG_NULL := 0 (only parsing).
Abbreviation DSP_REG_X0 := 4 (only parsing).
Abbreviation DSP_REG_X1 := 5 (only parsing).
Abbreviation DSP_REG_Y0 := 6 (only parsing).
Abbreviation DSP_REG_Y1 := 7 (only parsing).
Abbreviation DSP_REG_A0 := 8 (only parsing).
Abbreviation DSP_REG_B0 := 9 (only parsing).
Abbreviation DSP_REG_A2 := 10 (only parsing).
Abbreviation DSP_REG_B2 := 11 (only parsing).
Abbreviation DSP_REG_A1 := 12 (only parsing).
Abbreviation DSP_REG_B1 := 13 (only parsing).
Abbreviation DSP_REG_A := 14 (only parsing).
Abbreviation DSP_REG_B := 15 (only parsing).
Abbreviation DSP_REG_R0 := 16 (only parsing).
Abbreviation DSP_REG_N0 := 24 (only parsing).
Abbreviation DSP_REG_M0 := 32 (only parsing).
Abbreviation DSP_REG_LCSAVE := 48 (only parsing).
Abbreviation DSP_REG_SR := 57 (only parsing).
Abbreviation DSP_REG_OMR := 58 (only parsing).
Abbreviation DSP_REG_SP := 59 (only parsing).
Abbreviation DSP_REG_SSH := 60 (only parsing).
Abbreviation DSP_REG_SSL := 61 (only parsing).
Abbreviation DSP_REG_LA := 62 (only parsing).
Abbreviation DSP_REG_LC := 63 (only parsing).

Abbreviation DSP_SPACE_X := 0 (only parsing).
Abbreviation DSP_SPACE_Y := 1 (only parsing).
Abbreviation DSP_SPACE_P := 2 (only parsing).

(** ** Macros of dsp_core.h *)

Abbreviation DSP_RAMSIZE := 32768 (only parsing).

Abbreviation CPU_HOST_ICR := 0 (only parsing).
Abbreviation CPU_HOST_CVR := 1 (only parsing).
Abbreviation CPU_HOST_ISR := 2 (only parsing).
Abbreviation CPU_HOST_IVR := 3 (only parsing).
Abbreviation CPU_HOST_TX0 := 4 (only parsing).
Abbreviation CPU_HOST_RXH := 5 (only parsing).
Abbreviation CPU_HOST_RXM := 6 (only parsing).
Abbreviation CPU_HOST_RXL := 7 (only parsing).
Abbreviation CPU_HOST_TXH := 5 (only parsing).
Abbreviation CPU_HOST_TXM := 6 (only parsing).
Abbreviation CPU_HOST_TXL := 7 (only parsing).

Abbreviation CPU_HOST_CVR_HC := 7 (only parsing).
Abbreviation CPU_HOST_ISR_RXDF := 0 (only parsing).
Abbreviation CPU_HOST_ISR_TXDE := 1 (only parsing).
Abbreviation CPU_HOST_ISR_TRDY := 2 (only parsing).
Abbreviation CPU_HOST_ISR_HF2 := 3 (only parsing).
Abbreviation CPU_HOST_ISR_HF3 := 4 (only parsing).

Abbreviation DSP_HOST_HCR := 40 (only parsing).
Abbreviation DSP_HOST_HSR := 41 (only parsing).
Abbreviation DSP_HOST_HRX := 43 (only parsing).
Abbreviation DSP_HOST_HTX := 43 (only parsing).
Abbreviation DSP_SSI_CRB := 45 (only parsing).
Abbreviation DSP_SSI_SR := 46 (only parsing).
Abbreviation DSP_BCR := 62 (only parsing).
Abbreviation DSP_IPR := 63 (only parsing).

Abbreviation DSP_HOST_HCR_HRIE := 0 (only parsing).
Abbreviation DSP_HOST_HCR_HTIE := 1 (only parsing).
Abbreviation DSP_HOST_HCR_HCIE := 2 (only parsing).
Abbreviation DSP_HOST_HSR_HRDF := 0 (only parsing).
Abbreviation DSP_HOST_HSR_HTDE := 1 (only parsing).
Abbreviation DSP_HOST_HSR_HCP := 2 (only parsing).
Abbreviation DSP_HOST_HSR_HF0 := 3 (only parsing).
Abbreviation DSP_HOST_HSR_HF1 := 4 (only parsing).

Abbreviation DSP_SSI_CRB_TIE := 14 (only parsing).
Abbreviation DSP_SSI_CRB_RIE := 15 (only parsing).
Abbreviation DSP_SSI_SR_TUE := 4 (only parsing).
Abbreviation DSP_SSI_SR_ROE := 5 (only parsing).
Abbreviation DSP_SSI_SR_TDF := 6 (only parsing).
Abbreviation DSP_SSI_SR_RDF := 7 (only parsing).

Abbreviation DSP_INTERRUPT_NONE := 0 (only parsing).
Abbreviation DSP_INTERRUPT_FAST := 1 (only parsing).
Abbreviation DSP_INTERRUPT_LONG := 2 (only parsing).

(** ** Data *)

(** [struct dsp_core_s].  The pointers [thread], [semaphore] and [mutex] are
    true when they are not NULL; the four function pointers are the [Thread]
    variants when [use_thread] is not 0 and the [Null] variants otherwise, as
    [dsp_core_init] sets them. *)
Record dsp_core_t := mk_core {
  thread : bool;
  semaphore : bool;
  mutex : bool;
  use_thread : Z;
  running : Z;
  pc : Z;
  registers : gmap Z Z;
  stack : gmap (Z * Z) Z;
  ram : gmap (Z * Z) Z;
  rom : gmap (Z * Z) Z;
  ramint : gmap (Z * Z) Z;
  periph : gmap (Z * Z) Z;
  hostport : gmap Z Z;
  loop_rep : Z;
  swi_inter : Z;
  bootstrap_pos : Z;
  interrupt_state : Z;
  interrupt_instr_fetch : Z;
  interrupt_save_pc : Z
}.

(** [union parmove_dest_u]: [host_pointer] is the address of a register. *)
Inductive parmove_dest_u :=
  | host_pointer (numreg : Z)
  | dsp_address (address : Z).

(** The parallel move buffers of dsp_cpu.c, [tmp_parmove_*]. *)
Record parmove_t := mk_parmove {
  tmp_parmove_src : gmap (Z * Z) Z;
  tmp_parmove_dest : gmap (Z * Z) parmove_dest_u;
  tmp_parmove_start : gmap Z Z;
  tmp_parmove_len : gmap Z Z;
  tmp_parmove_type : gmap Z Z;
  tmp_parmove_space : gmap Z Z
}.

(** Calls to the synchronisation primitives. *)
Inductive event :=
  | EvLock      (* SDL_LockMutex *)
  | EvUnlock    (* SDL_UnlockMutex *)
  | EvPause     (* SDL_SemWait *)
  | EvResume    (* SDL_SemPost when the semaphore is 0 *)
  | EvWaitThread
  | EvCreateThread.

Record state := mk_state {
  core : dsp_core_t;
  cur_inst_len : Z;
  cur_inst : Z;
  parmove : parmove_t;
  pc_on_rep : Z;
  events : list event;
  cpu_core : bool   (* the pointer [dsp_core] of dsp_cpu.c is not NULL *)
}.

(** The undefined behaviour that can happen in the DSP code: an access outside an array, a read
    of the union member that was not written last, a call through a table index
    that is not one of its entries, [1<<31] on an int, and an instruction executed while the
    pointer [dsp_core] of dsp_cpu.c is NULL.  (The constant tables of [dsp_core_init] are
    computed with left shifts of negative ints; they have the value every compiler gives them.)
    [OutOfFuel] is no C behaviour: it is the
    result of a loop of the model that was given too few iterations. *)
Inductive ub :=
  | StackBounds (index : Z)
  | ArrayBounds (index : Z)
  | TableBounds (index : Z)
  | WrongUnionMember
  | ShiftOverflow
  | NullPointer
  | OutOfFuel.

Inductive outcome (A : Type) :=
  | Ok (a : A) (s : state)
  | UB (e : ub).
Arguments Ok {A}.
Arguments UB {A}.

Definition M (A : Type) : Type := state → outcome A.

#[export] Instance M_ret : MRet M := λ A a s, Ok a s.
#[export] Instance M_bind : MBind M := λ A B f m s,
  match m s with Ok a s' => f a s' | UB e => UB e end.

#[export] Instance M_fmap : FMap M := λ A B f m s,
  match m s with Ok a s' => Ok (f a) s' | UB e => UB e end.

Definition gets {A} (f : state → A) : M A := λ s, Ok (f s) s.
Definition modify (f : state → state) : M unit := λ s, Ok tt (f s).
Definition fail {A} (e : ub) : M A := λ _, UB e.
Definition when (b : bool) (m : M unit) : M unit := if b then m else mret tt.

(** [for (i = first; ...; i++)], [n] times, with the loop variables [a]. *)
Fixpoint for_loop {A} (n : nat) (i : Z) (body : Z → A → M A) (a : A) : M A :=
  match n with
  | O => mret a
  | S n => a' ← body i a; for_loop n (i + 1) body a'
  end.

(** An array index must be inside the array. *)
Definition in_array (i n : Z) : bool := (0 <=? i) && (i <? n).
Definition check (i n : Z) : M unit :=
  if in_array i n then mret tt else fail (ArrayBounds i).

(** [1<<n] on an int, for 0 <= n < 32. *)
Definition int_bit (n : Z) : M Z := if n <? 31 then mret (1 ≪ n) else fail ShiftOverflow.

(** A call through a table of functions. *)
Definition call_table {A} (table : list (M A)) (index : Z) : M A :=
  match table !! Z.to_nat index with
  | Some f => if 0 <=? index then f else fail (TableBounds index)
  | None => fail (TableBounds index)
  end.

(** A read of a constant table. *)
Definition table_get {A} (table : list A) (index : Z) : M A :=
  match table !! Z.to_nat index with
  | Some x => if 0 <=? index then mret x else fail (TableBounds index)
  | None => fail (TableBounds index)
  end.

(** ** Assignments to the fields *)

Definition c_thread (v : bool) (c : dsp_core_t) : dsp_core_t :=
  mk_core v c.(semaphore) c.(mutex) c.(use_thread) c.(running) c.(pc) c.(registers) c.(stack)
    c.(ram) c.(rom) c.(ramint) c.(periph) c.(hostport) c.(loop_rep) c.(swi_inter)
    c.(bootstrap_pos) c.(interrupt_state) c.(interrupt_instr_fetch) c.(interrupt_save_pc).

Definition c_semaphore (v : bool) (c : dsp_core_t) : dsp_core_t :=
  mk_core c.(thread) v c.(mutex) c.(use_thread) c.(running) c.(pc) c.(registers) c.(stack)
    c.(ram) c.(rom) c.(ramint) c.(periph) c.(hostport) c.(loop_rep) c.(swi_inter)
    c.(bootstrap_pos) c.(interrupt_state) c.(interrupt_instr_fetch) c.(interrupt_save_pc).

Definition c_mutex (v : bool) (c : dsp_core_t) : dsp_core_t :=
  mk_core c.(thread) c.(semaphore) v c.(use_thread) c.(running) c.(pc) c.(registers) c.(stack)
    c.(ram) c.(rom) c.(ramint) c.(periph) c.(hostport) c.(loop_rep) c.(swi_inter)
    c.(bootstrap_pos) c.(interrupt_state) c.(interrupt_instr_fetch) c.(interrupt_save_pc).

Definition c_use_thread (v : Z) (c : dsp_core_t) : dsp_core_t :=
  mk_core c.(thread) c.(semaphore) c.(mutex) v c.(running) c.(pc) c.(registers) c.(stack)
    c.(ram) c.(rom) c.(ramint) c.(periph) c.(hostport) c.(loop_rep) c.(swi_inter)
    c.(bootstrap_pos) c.(interrupt_state) c.(interrupt_instr_fetch) c.(interrupt_save_pc).

Definition c_running (v : Z) (c : dsp_core_t) : dsp_core_t :=
  mk_core c.(thread) c.(semaphore) c.(mutex) c.(use_thread) v c.(pc) c.(registers) c.(stack)
    c.(ram) c.(rom) c.(ramint) c.(periph) c.(hostport) c.(loop_rep) c.(swi_inter)
    c.(bootstrap_pos) c.(interrupt_state) c.(interrupt_instr_fetch) c.(interrupt_save_pc).

Definition c_pc (v : Z) (c : dsp_core_t) : dsp_core_t :=
  mk_core c.(thread) c.(semaphore) c.(mutex) c.(use_thread) c.(running) v c.(registers)
    c.(stack) c.(ram) c.(rom) c.(ramint) c.(periph) c.(hostport) c.(loop_rep) c.(swi_inter)
    c.(bootstrap_pos) c.(interrupt_state) c.(interrupt_instr_fetch) c.(interrupt_save_pc).

Definition c_registers (v : gmap Z Z) (c : dsp_core_t) : dsp_core_t :=
  mk_core c.(thread) c.(semaphore) c.(mutex) c.(use_thread) c.(running) c.(pc) v c.(stack)
    c.(ram) c.(rom) c.(ramint) c.(periph) c.(hostport) c.(loop_rep) c.(swi_inter)
    c.(bootstrap_pos) c.(interrupt_state) c.(interrupt_instr_fetch) c.(interrupt_save_pc).

Definition c_stack (v : gmap (Z * Z) Z) (c : dsp_core_t) : dsp_core_t :=
  mk_core c.(thread) c.(semaphore) c.(mutex) c.(use_thread) c.(running) c.(pc) c.(registers) v
    c.(ram) c.(rom) c.(ramint) c.(periph) c.(hostport) c.(loop_rep) c.(swi_inter)
    c.(bootstrap_pos) c.(interrupt_state) c.(interrupt_instr_fetch) c.(interrupt_save_pc).

Definition c_ram (v : gmap (Z * Z) Z) (c : dsp_core_t) : dsp_core_t :=
  mk_core c.(thread) c.(semaphore) c.(mutex) c.(use_thread) c.(running) c.(pc) c.(registers)
    c.(stack) v c.(rom) c.(ramint) c.(periph) c.(hostport) c.(loop_rep) c.(swi_inter)
    c.(bootstrap_pos) c.(interrupt_state) c.(interrupt_instr_fetch) c.(interrupt_save_pc).

Definition c_rom (v : gmap (Z * Z) Z) (c : dsp_core_t) : dsp_core_t :=
  mk_core c.(thread) c.(semaphore) c.(mutex) c.(use_thread) c.(running) c.(pc) c.(registers)
    c.(stack) c.(ram) v c.(ramint) c.(periph) c.(hostport) c.(loop_rep) c.(swi_inter)
    c.(bootstrap_pos) c.(interrupt_state) c.(interrupt_instr_fetch) c.(interrupt_save_pc).

Definition c_ramint (v : gmap (Z * Z) Z) (c : dsp_core_t) : dsp_core_t :=
  mk_core c.(thread) c.(semaphore) c.(mutex) c.(use_thread) c.(running) c.(pc) c.(registers)
    c.(stack) c.(ram) c.(rom) v c.(periph) c.(hostport) c.(loop_rep) c.(swi_inter)
    c.(bootstrap_pos) c.(interrupt_state) c.(interrupt_instr_fetch) c.(interrupt_save_pc).

Definition c_periph (v : gmap (Z * Z) Z) (c : dsp_core_t) : dsp_core_t :=
  mk_core c.(thread) c.(semaphore) c.(mutex) c.(use_thread) c.(running) c.(pc) c.(registers)
    c.(stack) c.(ram) c.(rom) c.(ramint) v c.(hostport) c.(loop_rep) c.(swi_inter)
    c.(bootstrap_pos) c.(interrupt_state) c.(interrupt_instr_fetch) c.(interrupt_save_pc).

Definition c_hostport (v : gmap Z Z) (c : dsp_core_t) : dsp_core_t :=
  mk_core c.(thread) c.(semaphore) c.(mutex) c.(use_thread) c.(running) c.(pc) c.(registers)
    c.(stack) c.(ram) c.(rom) c.(ramint) c.(periph) v c.(loop_rep) c.(swi_inter)
    c.(bootstrap_pos) c.(interrupt_state) c.(interrupt_instr_fetch) c.(interrupt_save_pc).

Definition c_loop_rep (v : Z) (c : dsp_core_t) : dsp_core_t :=
  mk_core c.(thread) c.(semaphore) c.(mutex) c.(use_thread) c.(running) c.(pc) c.(registers)
    c.(stack) c.(ram) c.(rom) c.(ramint) c.(periph) c.(hostport) v c.(swi_inter)
    c.(bootstrap_pos) c.(interrupt_state) c.(interrupt_instr_fetch) c.(interrupt_save_pc).

Definition c_swi_inter (v : Z) (c : dsp_core_t) : dsp_core_t :=
  mk_core c.(thread) c.(semaphore) c.(mutex) c.(use_thread) c.(running) c.(pc) c.(registers)
    c.(stack) c.(ram) c.(rom) c.(ramint) c.(periph) c.(hostport) c.(loop_rep) v
    c.(bootstrap_pos) c.(interrupt_state) c.(interrupt_instr_fetch) c.(interrupt_save_pc).

Definition c_bootstrap_pos (v : Z) (c : dsp_core_t) : dsp_core_t :=
  mk_core c.(thread) c.(semaphore) c.(mutex) c.(use_thread) c.(running) c.(pc) c.(registers)
    c.(stack) c.(ram) c.(rom) c.(ramint) c.(periph) c.(hostport) c.(loop_rep) c.(swi_inter) v
    c.(interrupt_state) c.(interrupt_instr_fetch) c.(interrupt_save_pc).

Definition c_interrupt_state (v : Z) (c : dsp_core_t) : dsp_core_t :=
  mk_core c.(thread) c.(semaphore) c.(mutex) c.(use_thread) c.(running) c.(pc) c.(registers)
    c.(stack) c.(ram) c.(rom) c.(ramint) c.(periph) c.(hostport) c.(loop_rep) c.(swi_inter)
    c.(bootstrap_pos) v c.(interrupt_instr_fetch) c.(interrupt_save_pc).

Definition c_interrupt_instr_fetch (v : Z) (c : dsp_core_t) : dsp_core_t :=
  mk_core c.(thread) c.(semaphore) c.(mutex) c.(use_thread) c.(running) c.(pc) c.(registers)
    c.(stack) c.(ram) c.(rom) c.(ramint) c.(periph) c.(hostport) c.(loop_rep) c.(swi_inter)
    c.(bootstrap_pos) c.(interrupt_state) v c.(interrupt_save_pc).

Definition c_interrupt_save_pc (v : Z) (c : dsp_core_t) : dsp_core_t :=
  mk_core c.(thread) c.(semaphore) c.(mutex) c.(use_thread) c.(running) c.(pc) c.(registers)
    c.(stack) c.(ram) c.(rom) c.(ramint) c.(periph) c.(hostport) c.(loop_rep) c.(swi_inter)
    c.(bootstrap_pos) c.(interrupt_state) c.(interrupt_instr_fetch) v.

Definition p_src (v : gmap (Z * Z) Z) (p : parmove_t) : parmove_t :=
  mk_parmove v p.(tmp_parmove_dest) p.(tmp_parmove_start) p.(tmp_parmove_len)
    p.(tmp_parmove_type) p.(tmp_parmove_space).

Definition p_dest (v : gmap (Z * Z) parmove_dest_u) (p : parmove_t) : parmove_t :=
  mk_parmove p.(tmp_parmove_src) v p.(tmp_parmove_start) p.(tmp_parmove_len)
    p.(tmp_parmove_type) p.(tmp_parmove_space).

Definition p_start (v : gmap Z Z) (p : parmove_t) : parmove_t :=
  mk_parmove p.(tmp_parmove_src) p.(tmp_parmove_dest) v p.(tmp_parmove_len) p.(tmp_parmove_type)
    p.(tmp_parmove_space).

Definition p_len (v : gmap Z Z) (p : parmove_t) : parmove_t :=
  mk_parmove p.(tmp_parmove_src) p.(tmp_parmove_dest) p.(tmp_parmove_start) v
    p.(tmp_parmove_type) p.(tmp_parmove_space).

Definition p_type (v : gmap Z Z) (p : parmove_t) : parmove_t :=
  mk_parmove p.(tmp_parmove_src) p.(tmp_parmove_dest) p.(tmp_parmove_start) p.(tmp_parmove_len)
    v p.(tmp_parmove_space).

Definition p_space (v : gmap Z Z) (p : parmove_t) : parmove_t :=
  mk_parmove p.(tmp_parmove_src) p.(tmp_parmove_dest) p.(tmp_parmove_start) p.(tmp_parmove_len)
    p.(tmp_parmove_type) v.

Definition s_core (v : dsp_core_t) (s : state) : state :=
  mk_state v s.(cur_inst_len) s.(cur_inst) s.(parmove) s.(pc_on_rep) s.(events) s.(cpu_core).

Definition s_cur_inst_len (v : Z) (s : state) : state :=
  mk_state s.(core) v s.(cur_inst) s.(parmove) s.(pc_on_rep) s.(events) s.(cpu_core).

Definition s_cur_inst (v : Z) (s : state) : state :=
  mk_state s.(core) s.(cur_inst_len) v s.(parmove) s.(pc_on_rep) s.(events) s.(cpu_core).

Definition s_parmove (v : parmove_t) (s : state) : state :=
  mk_state s.(core) s.(cur_inst_len) s.(cur_inst) v s.(pc_on_rep) s.(events) s.(cpu_core).

Definition s_pc_on_rep (v : Z) (s : state) : state :=
  mk_state s.(core) s.(cur_inst_len) s.(cur_inst) s.(parmove) v s.(events) s.(cpu_core).

Definition s_events (v : list event) (s : state) : state :=
  mk_state s.(core) s.(cur_inst_len) s.(cur_inst) s.(parmove) s.(pc_on_rep) v s.(cpu_core).

Definition s_cpu_core (v : bool) (s : state) : state :=
  mk_state s.(core) s.(cur_inst_len) s.(cur_inst) s.(parmove) s.(pc_on_rep) s.(events) v.

Definition set_core (f : dsp_core_t → dsp_core_t) : M unit := modify (λ s, s_core (f s.(core)) s).
Definition set_pm (f : parmove_t → parmove_t) : M unit := modify (λ s, s_parmove (f s.(parmove)) s).
Definition emit (e : event) : M unit := modify (λ s, s_events (e :: s.(events)) s).

(** ** Array accesses *)

Definition reg (s : state) (n : Z) : Z := aget s.(core).(registers) n.

Definition get_reg (n : Z) : M Z := check n 64;; gets (λ s, reg s n).
Definition set_reg (n v : Z) : M unit :=
  check n 64;; set_core (λ c, c_registers (aset c.(registers) n v) c).
Definition reg_and (n v : Z) : M unit := x ← get_reg n; set_reg n (x .& v).
Definition reg_or (n v : Z) : M unit := x ← get_reg n; set_reg n (x .| v).

Definition get_periph (space i : Z) : M Z :=
  check space 2;; check i 64;; gets (λ s, aget s.(core).(periph) (space, i)).
Definition set_periph (space i v : Z) : M unit :=
  check space 2;; check i 64;; set_core (λ c, c_periph (aset c.(periph) (space, i) v) c).
Definition get_hostport (i : Z) : M Z :=
  check i 8;; gets (λ s, aget s.(core).(hostport) i).
Definition set_hostport (i v : Z) : M unit :=
  check i 8;; set_core (λ c, c_hostport (aset c.(hostport) i (u8 v)) c).

Definition get_ramint (space i : Z) : M Z :=
  check space 3;; check i 512;; gets (λ s, aget s.(core).(ramint) (space, i)).
Definition set_ramint (space i v : Z) : M unit :=
  check space 3;; check i 512;; set_core (λ c, c_ramint (aset c.(ramint) (space, i) v) c).
Definition get_ram (space i : Z) : M Z :=
  check space 3;; check i DSP_RAMSIZE;; gets (λ s, aget s.(core).(ram) (space, i)).
Definition set_ram (space i v : Z) : M unit :=
  check space 3;; check i DSP_RAMSIZE;; set_core (λ c, c_ram (aset c.(ram) (space, i) v) c).
Definition get_rom (space i : Z) : M Z :=
  check space 2;; check i 512;; gets (λ s, aget s.(core).(rom) (space, i)).

Definition set_rom (space i v : Z) : M unit :=
  check space 2;; check i 512;; set_core (λ c, c_rom (aset c.(rom) (space, i) v) c).

(** The rows of [stack] hold 15 entries. *)
Definition check_stack (i : Z) : M unit :=
  if in_array i 15 then mret tt else fail (StackBounds i).
Definition get_stack (row i : Z) : M Z :=
  check row 2;; check_stack i;; gets (λ s, aget s.(core).(stack) (row, i)).
Definition set_stack (row i v : Z) : M unit :=
  check row 2;; check_stack i;;
  set_core (λ c, c_stack (aset c.(stack) (row, i) (u16 v)) c).

(** [tmp_parmove_dest[i][j]] and its neighbours. *)
Definition get_pm_src (i j : Z) : M Z :=
  check i 2;; check j 3;; gets (λ s, aget s.(parmove).(tmp_parmove_src) (i, j)).
Definition set_pm_src (i j v : Z) : M unit :=
  check i 2;; check j 3;; set_pm (λ p, p_src (aset p.(tmp_parmove_src) (i, j) v) p).
Definition set_pm_dest (i j : Z) (d : parmove_dest_u) : M unit :=
  check i 2;; check j 3;; set_pm (λ p, p_dest (<[(i, j) := d]> p.(tmp_parmove_dest)) p).
Definition set_pm_start (i v : Z) : M unit :=
  check i 2;; set_pm (λ p, p_start (aset p.(tmp_parmove_start) i v) p).
Definition set_pm_len (i v : Z) : M unit :=
  check i 2;; set_pm (λ p, p_len (aset p.(tmp_parmove_len) i v) p).
Definition set_pm_type (i v : Z) : M unit :=
  check i 2;; set_pm (λ p, p_type (aset p.(tmp_parmove_type) i v) p).
Definition set_pm_space (i v : Z) : M unit :=
  check i 2;; set_pm (λ p, p_space (aset p.(tmp_parmove_space) i v) p).

(** Scalars. *)
Definition get_pc : M Z := gets (λ s, s.(core).(pc)).
Definition set_pc (v : Z) : M unit := set_core (c_pc (u16 v)).
Definition get_inst : M Z := gets cur_inst.
Definition get_inst_len : M Z := gets cur_inst_len.
Definition set_inst_len (v : Z) : M unit := modify (s_cur_inst_len v).
Definition set_loop_rep (v : Z) : M unit := set_core (c_loop_rep v).
Definition set_interrupt_state (v : Z) : M unit := set_core (c_interrupt_state v).
Definition set_interrupt_instr_fetch (v : Z) : M unit := set_core (c_interrupt_instr_fetch v).
Definition set_interrupt_save_pc (v : Z) : M unit := set_core (c_interrupt_save_pc v).

(** ** Lock/unlock mutex, pause/resume thread (dsp_core.c)

    The [Thread] variants call SDL, the [Null] variants do nothing. *)

Definition in_thread_mode (m : M unit) : M unit :=
  t ← gets (λ s, s.(core).(use_thread)); when (nz t) m.
Definition lockMutex : M unit := in_thread_mode (emit EvLock).
Definition unlockMutex : M unit := in_thread_mode (emit EvUnlock).
Definition pauseThread : M unit := in_thread_mode (emit EvPause).
Definition resumeThread : M unit := in_thread_mode (emit EvResume).

(** ** The initial state

    The core after [memset], with the static variables still 0. *)

Definition zero_core : dsp_core_t :=
  mk_core false false false 0 0 0 ∅ ∅ ∅ ∅ ∅ ∅ ∅ 0 0 0 0 0 0.

Definition zero_parmove : parmove_t := mk_parmove ∅ ∅ ∅ ∅ ∅ ∅.
Definition zero_state : state := mk_state zero_core 0 0 zero_parmove 0 [] false.

(** ** Accesses inside the bounds *)

Lemma in_array_true i n : 0 <= i < n → in_array i n = true.
Proof. intros. unfold in_array. apply andb_true_intro. split; [apply Z.leb_le|apply Z.ltb_lt]; lia. Qed.

Lemma get_reg_run n s : 0 <= n < 64 → get_reg n s = Ok (reg s n) s.
Proof. intros. unfold get_reg, check. by rewrite in_array_true. Qed.

Lemma set_reg_run n v s :
  0 <= n < 64 →
  set_reg n v s = Ok tt (s_core (c_registers (aset s.(core).(registers) n v) s.(core)) s).
Proof. intros. unfold set_reg, check. by rewrite in_array_true. Qed.
