(* ===== verification/HostPort.v ===== *)
(** * Host port and life cycle of the DSP core (src/src/dsp_core.c)

    The host port connects the Atari CPU ([hostport], eight bytes) with the DSP
    ([periph], the registers HCR, HSR, HRX and HTX of X space).  A 24 bit word
    travels from the host through TXH:TXM:TXL to HRX and from the DSP through
    HTX to RXH:RXM:RXL; TXDE/HRDF and HTDE/RXDF are the flags of the two
    directions. *)

From S2P Require Import Prelude DspState.

(** ** CPU<->DSP host interface transfers *)

Definition dsp_core_hostport_update_trdy : M unit :=
  (* Clear/set TRDY bit *)
  isr ← get_hostport CPU_HOST_ISR;
  set_hostport CPU_HOST_ISR (isr .& (0xff - (1 ≪ CPU_HOST_ISR_TRDY)));;
  isr ← get_hostport CPU_HOST_ISR;
  hsr ← get_periph DSP_SPACE_X DSP_HOST_HSR;
  let trdy := (isr ≫ CPU_HOST_ISR_TXDE) .& not32 (hsr ≫ DSP_HOST_HSR_HRDF) in
  set_hostport CPU_HOST_ISR (isr .| ((trdy .& 1) ≪ CPU_HOST_ISR_TRDY)).

(** Host port transfer (dsp->host) *)
Definition dsp_core_dsp2host : M unit :=
  (* RXDF = 1 ==> host hasn't read the last value yet *)
  isr ← get_hostport CPU_HOST_ISR;
  if nz (isr .& (1 ≪ CPU_HOST_ISR_RXDF)) then mret tt else
  (* HTDE = 1 ==> nothing to tranfert from DSP port *)
  hsr ← get_periph DSP_SPACE_X DSP_HOST_HSR;
  if nz (hsr .& (1 ≪ DSP_HOST_HSR_HTDE)) then mret tt else
  htx ← get_periph DSP_SPACE_X DSP_HOST_HTX;
  set_hostport CPU_HOST_RXL htx;;
  set_hostport CPU_HOST_RXM (htx ≫ 8);;
  set_hostport CPU_HOST_RXH (htx ≫ 16);;
  (* Set HTDE bit to say that DSP can write *)
  set_periph DSP_SPACE_X DSP_HOST_HSR (hsr .| (1 ≪ DSP_HOST_HSR_HTDE));;
  (* Set RXDF bit to say that host can read *)
  set_hostport CPU_HOST_ISR (isr .| (1 ≪ CPU_HOST_ISR_RXDF)).

(** Host port transfer (host->dsp) *)
Definition dsp_core_host2dsp : M unit :=
  (* TXDE = 1 ==> nothing to tranfert from host port *)
  isr ← get_hostport CPU_HOST_ISR;
  if nz (isr .& (1 ≪ CPU_HOST_ISR_TXDE)) then mret tt else
  (* HRDF = 1 ==> DSP hasn't read the last value yet *)
  hsr ← get_periph DSP_SPACE_X DSP_HOST_HSR;
  if nz (hsr .& (1 ≪ DSP_HOST_HSR_HRDF)) then mret tt else
  txl ← get_hostport CPU_HOST_TXL;
  txm ← get_hostport CPU_HOST_TXM;
  txh ← get_hostport CPU_HOST_TXH;
  set_periph DSP_SPACE_X DSP_HOST_HRX ((txl .| (txm ≪ 8)) .| (txh ≪ 16));;
  (* Set HRDF bit to say that DSP can read *)
  set_periph DSP_SPACE_X DSP_HOST_HSR (hsr .| (1 ≪ DSP_HOST_HSR_HRDF));;
  (* Set TXDE bit to say that host can write *)
  set_hostport CPU_HOST_ISR (isr .| (1 ≪ CPU_HOST_ISR_TXDE));;
  dsp_core_hostport_update_trdy.

Definition dsp_core_hostport_dspread : M unit :=
  (* Clear HRDF bit to say that DSP has read *)
  hsr ← get_periph DSP_SPACE_X DSP_HOST_HSR;
  set_periph DSP_SPACE_X DSP_HOST_HSR (hsr .& (0xff - (1 ≪ DSP_HOST_HSR_HRDF)));;
  dsp_core_hostport_update_trdy;;
  dsp_core_host2dsp.

Definition dsp_core_hostport_dspwrite : M unit :=
  (* Clear HTDE bit to say that DSP has written *)
  hsr ← get_periph DSP_SPACE_X DSP_HOST_HSR;
  set_periph DSP_SPACE_X DSP_HOST_HSR (hsr .& (0xff - (1 ≪ DSP_HOST_HSR_HTDE)));;
  dsp_core_dsp2host.

Definition dsp_core_hostport_cpuread : M unit :=
  (* Clear RXDF bit to say that CPU has read *)
  isr ← get_hostport CPU_HOST_ISR;
  set_hostport CPU_HOST_ISR (isr .& (0xff - (1 ≪ CPU_HOST_ISR_RXDF)));;
  dsp_core_dsp2host.

Definition dsp_core_hostport_cpuwrite : M unit :=
  (* Clear TXDE to say that CPU has written *)
  isr ← get_hostport CPU_HOST_ISR;
  set_hostport CPU_HOST_ISR (isr .& (0xff - (1 ≪ CPU_HOST_ISR_TXDE)));;
  dsp_core_hostport_update_trdy;;
  dsp_core_host2dsp.

(** ** Read/writes on host port *)

Definition dsp_core_read_host (addr : Z) : M Z :=
  lockMutex;;
  value ← get_hostport addr;
  when (addr =? CPU_HOST_RXL) (
    dsp_core_hostport_cpuread;;
    (* Wake up DSP if it was waiting our read *)
    resumeThread);;
  unlockMutex;;
  mret value.

(** The store of a bootstrap word: the DSP is not running yet, the words written
    by the host fill the internal program memory, and the 512th starts the DSP. *)
Definition write_host_bootstrap : M unit :=
  pos ← gets (λ s, s.(core).(bootstrap_pos));
  txh ← get_hostport CPU_HOST_TXH;
  txm ← get_hostport CPU_HOST_TXM;
  txl ← get_hostport CPU_HOST_TXL;
  set_ramint DSP_SPACE_P pos (((txh ≪ 16) .| (txm ≪ 8)) .| txl);;
  set_core (c_bootstrap_pos (u16 (pos + 1)));;
  when (u16 (pos + 1) =? 0x200) (
    set_core (c_running 1);;
    resumeThread).

Definition dsp_core_write_host (addr value : Z) : M unit :=
  let value := u8 value in
  lockMutex;;
  (if addr =? CPU_HOST_ICR then
    set_hostport CPU_HOST_ICR (value .& 0xfb);;
    (* Set HF1 and HF0 accordingly on the host side *)
    hsr ← get_periph DSP_SPACE_X DSP_HOST_HSR;
    icr ← get_hostport CPU_HOST_ICR;
    set_periph DSP_SPACE_X DSP_HOST_HSR
      ((hsr .& (0xff - ((1 ≪ DSP_HOST_HSR_HF1) .| (1 ≪ DSP_HOST_HSR_HF0))))
       .| (icr .& ((1 ≪ DSP_HOST_HSR_HF1) .| (1 ≪ DSP_HOST_HSR_HF0))))
  else if addr =? CPU_HOST_CVR then
    set_hostport CPU_HOST_CVR (value .& 0x9f);;
    (* if bit 7=1, host command *)
    when (nz (value .& (1 ≪ 7))) (
      hsr ← get_periph DSP_SPACE_X DSP_HOST_HSR;
      set_periph DSP_SPACE_X DSP_HOST_HSR (hsr .| (1 ≪ DSP_HOST_HSR_HCP));;
      (* Wake up DSP if needed *)
      resumeThread)
  else if (addr =? CPU_HOST_ISR) || (addr =? CPU_HOST_TX0) then
    (* Read only *)
    mret tt
  else if (addr =? CPU_HOST_IVR) || (addr =? CPU_HOST_TXH) || (addr =? CPU_HOST_TXM) then
    set_hostport addr value
  else if addr =? CPU_HOST_TXL then
    set_hostport CPU_HOST_TXL value;;
    running ← gets (λ s, s.(core).(running));
    if negb (nz running) then
      write_host_bootstrap
    else
      dsp_core_hostport_cpuwrite;;
      (* Wake up DSP if it was waiting our write *)
      resumeThread
  else mret tt);;
  unlockMutex.

(** ** Init, shutdown, reset *)

(** [sin_fixed i] is [(Sint32) (sin((float) i * M_PI / 128.0) * 8388608.0)], a
    value of the C library and its floating point numbers. *)
Definition init_sin_table (sin_fixed : Z → Z) : M unit :=
  for_loop 256 0 (λ i _,
    let dest := sin_fixed i in
    let dest := if 8388607 <? dest then 8388607
                else if dest <? -8388608 then -8388608 else dest in
    set_rom DSP_SPACE_Y (0x100 + i) (dest .& 0x00ffffff)) tt.

Definition mulaw_base : list Z :=
  [0x7d7c; 0x3e7c; 0x1efc; 0x0f3c; 0x075c; 0x036c; 0x0174; 0x0078].

Definition init_mulaw_table : M unit :=
  for_loop 8 0 (λ i '(position, offset),
    base ← table_get mulaw_base i;
    '(position, _) ← for_loop 16 0 (λ _ '(position, value),
      set_rom DSP_SPACE_X position value;;
      mret (position + 1, u32 (value - offset))) (position, base ≪ 8);
    mret (position, offset ≫ 1)) (0x0100, 0x040000);;
  mret tt.

Definition multiply_base : list Z :=
  [0x1580; 0x0ac0; 0x5600; 0x2b00; 0x1580; 0x0058; 0x0560; 0x02b0].
Definition multiply_col : list Z := [0x10; 0x01; 0x04; 0x02].
Definition multiply_line : list Z := [0x40; 0x04; 0x10; 0x08].
Definition base_values : list Z := [0; -1; 2; 1].

(** Two of the shifts have a negative left operand, [-1*multiply_line[i & 3] << 12] and
    [-1*multiply_col[i & 3] << 12]; the C standard leaves them undefined, the model gives
    them the product with 4096 that compilers for two's complement hosts compute. *)
Definition init_alaw_table : M unit :=
  for_loop 8 0 (λ i pos,
    base ← table_get multiply_base i;
    line ← table_get multiply_line (i .& 3);
    col ← table_get multiply_col (i .& 3);
    let alawbase := base ≪ 8 in
    for_loop 4 0 (λ j pos,
      bj ← table_get base_values j;
      let alawbase1 := alawbase + ((bj * line) ≪ 12) in
      for_loop 4 0 (λ k pos,
        bk ← table_get base_values k;
        let alawbase2 := alawbase1 + ((bk * col) ≪ 12) in
        set_rom DSP_SPACE_X pos (u32 alawbase2);;
        mret (pos + 1)) pos) pos) 0x0180;;
  mret tt.

Definition dsp_core_init (sin_fixed : Z → Z) (use_thread : Z) : M unit :=
  set_core (λ _, zero_core);;
  init_sin_table sin_fixed;;
  init_mulaw_table;;
  init_alaw_table;;
  set_core (c_use_thread use_thread).

Definition dsp_core_shutdown : M unit :=
  set_core (c_running 0);;
  thread ← gets (λ s, s.(core).(thread));
  when thread (
    resumeThread;;
    emit EvWaitThread;;
    set_core (c_thread false));;
  (* Destroy the semaphore *)
  set_core (c_semaphore false);;
  (* Destroy mutex *)
  set_core (c_mutex false).

(** [dsp56k_init_cpu] of dsp_cpu.c. *)
Definition dsp56k_init_cpu : M unit := modify (s_cpu_core true).

(** [sem], [mut] and [thr] say whether SDL_CreateSemaphore, SDL_CreateMutex and
    SDL_CreateNamedThread return an object.  A new thread begins with [dsp56k_init_cpu], before
    it waits for the bootstrap. *)
Definition dsp_core_reset (sem mut thr : bool) : M unit :=
  (* Kill existing thread and semaphore *)
  dsp_core_shutdown;;
  (* Memory *)
  set_core (c_periph ∅);;
  set_core (c_stack ∅);;
  set_core (c_registers ∅);;
  set_core (c_bootstrap_pos 0);;
  (* Registers *)
  set_core (c_pc 0x0000);;
  set_reg DSP_REG_OMR 0x02;;
  for_loop 8 0 (λ i _, set_reg (DSP_REG_M0 + i) 0x00ffff) tt;;
  (* Interruptions *)
  set_interrupt_state DSP_INTERRUPT_NONE;;
  set_interrupt_instr_fetch (u32 (-1));;
  set_interrupt_save_pc (u32 (-1));;
  set_core (c_swi_inter 0);;
  (* host port init, dsp side *)
  set_periph DSP_SPACE_X DSP_HOST_HSR (1 ≪ DSP_HOST_HSR_HTDE);;
  (* host port init, cpu side *)
  set_hostport CPU_HOST_CVR 0x12;;
  set_hostport CPU_HOST_ISR ((1 ≪ CPU_HOST_ISR_TRDY) .| (1 ≪ CPU_HOST_ISR_TXDE));;
  set_hostport CPU_HOST_IVR 0x0f;;
  (* Other hardware registers *)
  set_periph DSP_SPACE_X DSP_IPR 0;;
  set_periph DSP_SPACE_X DSP_BCR 0xffff;;
  (* Misc *)
  set_loop_rep 0;;
  (* Create thread, semaphore, mutex if needed *)
  t ← gets (λ s, s.(core).(use_thread));
  if nz t then
    set_core (c_semaphore sem);;
    set_core (c_mutex mut);;
    thread ← gets (λ s, s.(core).(thread));
    when (negb thread) (
      emit EvCreateThread;;
      set_core (c_thread thr);;
      when thr dsp56k_init_cpu)
  else dsp56k_init_cpu.
