(* ===== verification/Memory.v ===== *)
(** * Memory and stack of the DSP (src/src/dsp_cpu.c, "Read/Write memory
    functions" and "Stack push/pop")

    X, Y and P space share the external RAM of the Falcon: P and Y address it
    directly, X is mapped to its upper half.  The low addresses are internal RAM,
    0x100-0x1ff of X and Y is the data ROM when the DE bit of OMR is set, and
    0xffc0-0xffff of X and Y are the peripheral registers. *)

From S2P Require Import Prelude DspState HostPort.

(** ** Read/Write memory functions *)

Definition read_memory_p (address : Z) : M Z :=
  let address := u16 address in
  (* Internal RAM ? *)
  if address <? 0x200 then
    v ← get_ramint DSP_SPACE_P address; mret (v .& BITMASK 24)
  else
  (* External RAM, mask address to available ram size *)
  v ← get_ram DSP_SPACE_P (address .& (DSP_RAMSIZE - 1)); mret (v .& BITMASK 24).

Definition read_memory (space address : Z) : M Z :=
  let address := u16 address in
  (* Internal RAM ? *)
  if address <? 0x100 then
    v ← get_ramint space address; mret (v .& BITMASK 24)
  else if space =? DSP_SPACE_P then read_memory_p address
  else
  omr ← get_reg DSP_REG_OMR;
  (* Internal ROM ?*)
  if nz (omr .& (1 ≪ DSP_OMR_DE)) && (address <? 0x200) then
    v ← get_rom space address; mret (v .& BITMASK 24)
  (* Peripheral address ? *)
  else if 0xffc0 <=? address then
    lockMutex;;
    when ((space =? DSP_SPACE_X) && (address =? 0xffc0 + DSP_HOST_HRX))
      dsp_core_hostport_dspread;;
    v ← get_periph space (address - 0xffc0);
    unlockMutex;;
    mret (v .& BITMASK 24)
  else
  (* Falcon: External RAM, map X to upper 16K of matching space in Y,P *)
  let address := if space =? DSP_SPACE_X then u16 (address + (DSP_RAMSIZE ≫ 1)) else address in
  (* Falcon: External RAM, finally map X,Y to P *)
  v ← get_ram DSP_SPACE_P (address .& (DSP_RAMSIZE - 1));
  mret (v .& BITMASK 24).

(** The peripheral registers of X space, written under the mutex. *)
Definition write_periph_x (address value : Z) : M unit :=
  lockMutex;;
  (if address - 0xffc0 =? DSP_HOST_HTX then
    set_periph DSP_SPACE_X DSP_HOST_HTX value;;
    dsp_core_hostport_dspwrite
  else if address - 0xffc0 =? DSP_HOST_HCR then
    set_periph DSP_SPACE_X DSP_HOST_HCR value;;
    (* Set HF3 and HF2 accordingly on the host side *)
    isr ← get_hostport CPU_HOST_ISR;
    set_hostport CPU_HOST_ISR
      (isr .& (BITMASK 8 - ((1 ≪ CPU_HOST_ISR_HF3) .| (1 ≪ CPU_HOST_ISR_HF2))));;
    isr ← get_hostport CPU_HOST_ISR;
    hcr ← get_periph DSP_SPACE_X DSP_HOST_HCR;
    set_hostport CPU_HOST_ISR
      (isr .| (hcr .& ((1 ≪ CPU_HOST_ISR_HF3) .| (1 ≪ CPU_HOST_ISR_HF2))))
  else if address - 0xffc0 =? DSP_HOST_HSR then
    (* Read only *)
    mret tt
  else set_periph DSP_SPACE_X (address - 0xffc0) value);;
  unlockMutex.

Definition write_memory_raw (space address value : Z) : M unit :=
  let address := u16 address in
  let value := value .& BITMASK 24 in
  let write_ram address := set_ram DSP_SPACE_P (address .& (DSP_RAMSIZE - 1)) value in
  (* Internal RAM ? *)
  if address <? 0x100 then set_ramint space address value
  else if space =? DSP_SPACE_X then
    omr ← get_reg DSP_REG_OMR;
    (* Internal ROM ?*)
    if nz (omr .& (1 ≪ DSP_OMR_DE)) && (address <? 0x200) then
      (* Can not write to ROM space *)
      mret tt
    (* Peripheral space ? *)
    else if 0xffc0 <=? address then write_periph_x address value
    (* Falcon: External RAM, map X to upper 16K of matching space in Y,P *)
    else write_ram (u16 (address + (DSP_RAMSIZE ≫ 1)))
  else if space =? DSP_SPACE_Y then
    omr ← get_reg DSP_REG_OMR;
    (* Internal ROM ?*)
    if nz (omr .& (1 ≪ DSP_OMR_DE)) && (address <? 0x200) then
      (* Can not write to ROM space *)
      mret tt
    (* Peripheral space ? *)
    else if 0xffc0 <=? address then
      set_periph DSP_SPACE_Y (address - 0xffc0) value
    else write_ram address
  else if (space =? DSP_SPACE_P) && (address <? 0x200) then
    (* Internal RAM ? *)
    set_ramint DSP_SPACE_P address value
  else
  (* Falcon: External RAM, map X,Y to P *)
  write_ram address.

(** [#define write_memory(x,y,z) write_memory_raw(x,y,z)] *)
Abbreviation write_memory := write_memory_raw.

(** ** Stack push/pop *)

Definition dsp_stack_push (curpc cursr : Z) : M unit :=
  sp ← get_reg DSP_REG_SP;
  if sp =? 0x0f then
    (* Stack full, raise interrupt *)
    pauseThread
  else
  set_reg DSP_REG_SP (u32 (sp + 1));;
  ssh ← get_reg DSP_REG_SSH;
  set_reg DSP_REG_SSH (u32 (ssh + 1));;
  ssl ← get_reg DSP_REG_SSL;
  set_reg DSP_REG_SSL (u32 (ssl + 1));;
  set_stack 0 (u32 (ssh + 1)) curpc;;
  set_stack 1 (u32 (ssl + 1)) cursr.

(** The popped pair; [None] when the stack is empty and the variables the
    caller points to keep their values. *)
Definition dsp_stack_pop : M (option (Z * Z)) :=
  sp ← get_reg DSP_REG_SP;
  if sp =? 0x00 then
    (* Stack empty, raise interrupt *)
    pauseThread;; mret None
  else
  ssh ← get_reg DSP_REG_SSH;
  newpc ← get_stack 0 ssh;
  ssl ← get_reg DSP_REG_SSL;
  newsr ← get_stack 1 ssl;
  set_reg DSP_REG_SP (u32 (sp - 1));;
  set_reg DSP_REG_SSH (u32 (ssh - 1));;
  set_reg DSP_REG_SSL (u32 (ssl - 1));;
  mret (Some (newpc, newsr)).
