(* ===== verification/Arith56.v ===== *)
(** * 56 bit arithmetic (src/src/dsp_cpu.c, "56bit arithmetic")

    A 56 bit accumulator is held in three words of an array: word 0 has bits
    55..48, word 1 bits 47..24, word 2 bits 23..0.  The routines return the new
    contents of the array and the condition code bits they compute. *)

From S2P Require Import Prelude DspState.

(** [Uint32 dest[3]] *)
Record accu := Accu { w0 : Z; w1 : Z; w2 : Z }.

(** ** The routines *)

Definition zero_accu : accu := Accu 0 0 0.

(** The carry of the addition and of the subtraction is found by comparing the
    words from the most significant one down. *)
Definition lt56 (a b : accu) : Z :=
  if a.(w0) <? b.(w0) then 1
  else if a.(w0) =? b.(w0) then
    if a.(w1) <? b.(w1) then 1
    else if a.(w1) =? b.(w1) then
      if a.(w2) <? b.(w2) then 1 else 0
    else 0
  else 0.

Definition newsr56 (overflow carry : Z) : Z :=
  ((overflow ≪ DSP_SR_L) .| (overflow ≪ DSP_SR_V)) .| (carry ≪ DSP_SR_C).

(** Substract source from dest: D = D-S *)
Definition dsp_sub56 (source dest : accu) : Z * accu :=
  let d2 := u32 (dest.(w2) - source.(w2)) in
  let d1 := u32 (dest.(w1) - (source.(w1) + ((d2 ≫ 24) .& 1))) in
  let d0 := u32 (dest.(w0) - (source.(w0) + ((d1 ≫ 24) .& 1))) in
  let dest' := Accu (d0 .& BITMASK 8) (d1 .& BITMASK 24) (d2 .& BITMASK 24) in
  let flg_s := (source.(w0) ≫ 7) .& 1 in
  let flg_d := (dest.(w0) ≫ 7) .& 1 in
  let flg_r := (dest'.(w0) ≫ 7) .& 1 in
  (* set overflow *)
  let overflow := (flg_s .^ flg_d) .& (flg_r .^ flg_d) in
  (* set carry : carry (for a sub) = dest < source *)
  let carry := lt56 dest source in
  (newsr56 overflow carry, dest').

(** D=|D| *)
Definition dsp_abs56 (dest : accu) : Z * accu :=
  if nz (dest.(w0) .& (1 ≪ 7)) then dsp_sub56 dest zero_accu else (0, dest).

(** Shift left dest 1 bit: D<<=1 *)
Definition dsp_asl56 (dest : accu) : Z * accu :=
  let carry := (dest.(w0) ≫ 7) .& 1 in
  let d0 := (u32 (dest.(w0) ≪ 1) .| ((dest.(w1) ≫ 23) .& 1)) .& BITMASK 8 in
  let d1 := (u32 (dest.(w1) ≪ 1) .| ((dest.(w2) ≫ 23) .& 1)) .& BITMASK 24 in
  let d2 := u32 (dest.(w2) ≪ 1) .& BITMASK 24 in
  let overflow := b2z (negb (carry =? (d0 ≫ 7) .& 1)) in
  (newsr56 overflow carry, Accu d0 d1 d2).

(** Shift right dest 1 bit: D>>=1 *)
Definition dsp_asr56 (dest : accu) : Z * accu :=
  let carry := dest.(w2) .& 1 in
  let d2 := ((dest.(w2) ≫ 1) .& BITMASK 23) .| ((dest.(w1) .& 1) ≪ 23) in
  let d1 := ((dest.(w1) ≫ 1) .& BITMASK 23) .| ((dest.(w0) .& 1) ≪ 23) in
  let d0 := (dest.(w0) ≫ 1) .& BITMASK 7 in
  let d0 := d0 .| ((d0 .& (1 ≪ 6)) ≪ 1) in
  (carry ≪ DSP_SR_C, Accu d0 d1 d2).

(** Add source to dest: D = D+S *)
Definition dsp_add56 (source dest : accu) : Z * accu :=
  let flg_s := (source.(w0) ≫ 7) .& 1 in
  let flg_d := (dest.(w0) ≫ 7) .& 1 in
  let not_dest := Accu (not32 dest.(w0) .& BITMASK 8) (not32 dest.(w1) .& BITMASK 24)
                       (not32 dest.(w2) .& BITMASK 24) in
  let d2 := u32 (dest.(w2) + source.(w2)) in
  let d1 := u32 (dest.(w1) + (source.(w1) + ((d2 ≫ 24) .& 1))) in
  let d0 := u32 (dest.(w0) + (source.(w0) + ((d1 ≫ 24) .& 1))) in
  let dest' := Accu (d0 .& BITMASK 8) (d1 .& BITMASK 24) (d2 .& BITMASK 24) in
  let flg_r := (dest'.(w0) ≫ 7) .& 1 in
  (* set overflow *)
  let overflow := (flg_s .^ flg_r) .& (flg_d .^ flg_r) in
  (* set carry : carry (for a add) = ~dest < source *)
  let carry := lt56 not_dest source in
  (newsr56 overflow carry, dest').

(** The magnitude of a 24 bit operand of the multiplication. *)
Definition mul_magnitude (source : Z) : Z :=
  if nz (source .& (1 ≪ 23)) then (1 ≪ 24) - (source .& BITMASK 24) else source.

(** The 48 bit product of two magnitudes, from four 12 bit by 12 bit products. *)
Definition mul_product (source1 source2 : Z) : accu :=
  (* bits 0-11 * bits 0-11 *)
  let part0 := u32 ((source1 .& BITMASK 12) * (source2 .& BITMASK 12)) in
  (* bits 12-23 * bits 0-11 *)
  let part1 := u32 (((source1 ≫ 12) .& BITMASK 12) * (source2 .& BITMASK 12)) in
  (* bits 0-11 * bits 12-23 *)
  let part2 := u32 ((source1 .& BITMASK 12) * ((source2 ≫ 12) .& BITMASK 12)) in
  (* bits 12-23 * bits 12-23 *)
  let part3 := u32 (((source1 ≫ 12) .& BITMASK 12) * ((source2 ≫ 12) .& BITMASK 12)) in
  (* Calc dest 2 *)
  let d2 := u32 (u32 (part0 + ((part1 .& BITMASK 12) ≪ 12)) + ((part2 .& BITMASK 12) ≪ 12)) in
  (* Calc dest 1 *)
  let d1 := u32 (u32 (((part1 ≫ 12) .& BITMASK 12) + ((part2 ≫ 12) .& BITMASK 12)) + part3) in
  (* Add carries *)
  let value := (d2 ≫ 24) .& BITMASK 8 in
  let '(d1, d2) := if nz value then (u32 (d1 + value), d2 .& BITMASK 24) else (d1, d2) in
  let value := (d1 ≫ 24) .& BITMASK 8 in
  let '(d0, d1) := if nz value then (value, d1 .& BITMASK 24) else (0, d1) in
  Accu d0 d1 d2.

(** Multiply: D = S1*S2 *)
Definition dsp_mul56 (source1 source2 : Z) : accu :=
  let negresult := xorb (nz (source1 .& (1 ≪ 23))) (nz (source2 .& (1 ≪ 23))) in
  let dest := mul_product (mul_magnitude source1) (mul_magnitude source2) in
  (* Get rid of extra sign bit *)
  let dest := (dsp_asl56 dest).2 in
  if negresult then (dsp_sub56 dest zero_accu).2 else dest.

(** [sr] is the status register, whose bits S0 and S1 are the scaling mode. *)
Definition dsp_rnd56 (sr : Z) (dest : accu) : accu :=
  (* Scaling mode S0 *)
  if nz (sr .& (1 ≪ DSP_SR_S0)) then
    let dest := (dsp_add56 (Accu 0 1 0) dest).2 in
    let d1 := if (dest.(w2) =? 0) && (dest.(w1) .& 1 =? 0)
              then dest.(w1) .& (0xffffff - 0x3) else dest.(w1) in
    Accu dest.(w0) (d1 .& 0xfffffe) 0
  (* Scaling mode S1 *)
  else if nz (sr .& (1 ≪ DSP_SR_S1)) then
    let dest := (dsp_add56 (Accu 0 0 (1 ≪ 22)) dest).2 in
    let d2 := if dest.(w2) .& 0x7fffff =? 0 then 0 else dest.(w2) in
    Accu dest.(w0) dest.(w1) (d2 .& 0x800000)
  (* No Scaling *)
  else
    let dest := (dsp_add56 (Accu 0 0 (1 ≪ 23)) dest).2 in
    let d1 := if dest.(w2) =? 0 then dest.(w1) .& 0xfffffe else dest.(w1) in
    Accu dest.(w0) d1 0.

(** ** The numbers an accumulator stands for *)

Definition uval (a : accu) : Z := a.(w0) * 2 ^ 48 + a.(w1) * 2 ^ 24 + a.(w2).
Definition wf56 (a : accu) : Prop := in_u 8 a.(w0) ∧ in_u 24 a.(w1) ∧ in_u 24 a.(w2).

(** Two's complement reading of a [k] bit value. *)
Definition signed (k x : Z) : Z := if x <? 2 ^ (k - 1) then x else x - 2 ^ k.
Definition sval (a : accu) : Z := signed 56 (uval a).

(** Round half to even at bit [k]. *)
Definition round_half_even (k x : Z) : Z :=
  let q := x / 2 ^ k in
  let r := x mod 2 ^ k in
  if (r <? 2 ^ (k - 1)) || ((r =? 2 ^ (k - 1)) && Z.even q) then q * 2 ^ k
  else (q + 1) * 2 ^ k.

(** Two's complement wrap-around at 56 bits. *)
Definition wrap56 (x : Z) : Z := (x + 2 ^ 55) mod 2 ^ 56 - 2 ^ 55.

(** A value that has no 56 bit representation. *)
Definition overflow56 (x : Z) : bool := negb ((- 2 ^ 55 <=? x) && (x <? 2 ^ 55)).

(** The bit at which [dsp_rnd56] rounds in a scaling mode. *)
Definition rnd_bit (sr : Z) : Z :=
  if Z.testbit sr DSP_SR_S0 then 25 else if Z.testbit sr DSP_SR_S1 then 23 else 24.

(** ** Lemmas *)

(** Powers of two of the proofs, as numbers. *)
Ltac pow2 :=
  change (2 ^ 6) with 64 in *; change (2 ^ 7) with 128 in *; change (2 ^ 8) with 256 in *;
  change (2 ^ 12) with 4096 in *; change (2 ^ 22) with 4194304 in *;
  change (2 ^ 23) with 8388608 in *; change (2 ^ 24) with 16777216 in *;
  change (2 ^ 25) with 33554432 in *; change (2 ^ 47) with 140737488355328 in *;
  change (2 ^ 48) with 281474976710656 in *; change (2 ^ 55) with 36028797018963968 in *;
  change (2 ^ 56) with 72057594037927936 in *; change (2 ^ 1) with 2 in *;
  change (2 ^ 0) with 1 in *.

Lemma uval_range a : wf56 a → 0 <= uval a < 2 ^ 56.
Proof. unfold wf56, in_u, uval. pow2. lia. Qed.

Lemma sign_bit56 a : wf56 a → (a.(w0) ≫ 7) .& 1 = b2z (2 ^ 55 <=? uval a).
Proof.
  intros Hw. rewrite bit_b2z by lia. f_equal.
  unfold wf56, in_u, uval in *. rewrite testbit_top by (pow2; lia). pow2. lia.
Qed.

Lemma sign_test56 a : wf56 a → nz (a.(w0) .& (1 ≪ 7)) = (2 ^ 55 <=? uval a).
Proof.
  intros Hw. rewrite nz_land_bit by lia.
  unfold wf56, in_u, uval in *. rewrite testbit_top by (pow2; lia). pow2. lia.
Qed.

Lemma lt56_uval a b : wf56 a → wf56 b → lt56 a b = b2z (uval a <? uval b).
Proof.
  unfold wf56, in_u, lt56, uval. pow2. intros Ha Hb.
  repeat (case_match; try (exfalso; lia)); unfold b2z;
    destruct (Z.ltb_spec (w0 a * 281474976710656 + w1 a * 16777216 + w2 a)
                (w0 b * 281474976710656 + w1 b * 16777216 + w2 b)); lia.
Qed.

(** The words of a sum and of a difference: the carry between words is bit 24. *)
Lemma add_words s d : wf56 s → wf56 d →
  let r := (dsp_add56 s d).2 in wf56 r ∧ uval r = (uval s + uval d) mod 2 ^ 56.
Proof.
  unfold wf56, in_u, dsp_add56, uval; cbn [w0 w1 w2 snd].
  rewrite !land_BITMASK, !shr_div, !(land_ones_const _ 1 1) by lia. unfold u32. pow2.
  intros Hs Hd. split; [Z.div_mod_to_equations; lia|].
  Z.div_mod_to_equations. lia.
Qed.

Lemma sub_words s d : wf56 s → wf56 d →
  let r := (dsp_sub56 s d).2 in wf56 r ∧ uval r = (uval d - uval s) mod 2 ^ 56.
Proof.
  unfold wf56, in_u, dsp_sub56, uval; cbn [w0 w1 w2 snd].
  rewrite !land_BITMASK, !shr_div, !(land_ones_const _ 1 1) by lia. unfold u32. pow2.
  intros Hs Hd. split; [Z.div_mod_to_equations; lia|].
  Z.div_mod_to_equations. lia.
Qed.

Lemma compl_uval d : wf56 d →
  let n := Accu (not32 d.(w0) .& BITMASK 8) (not32 d.(w1) .& BITMASK 24)
                (not32 d.(w2) .& BITMASK 24) in
  wf56 n ∧ uval n = 2 ^ 56 - 1 - uval d.
Proof.
  unfold wf56, in_u, uval, not32; cbn [w0 w1 w2].
  rewrite !land_BITMASK by lia. pow2. intros Hd.
  split; Z.div_mod_to_equations; lia.
Qed.

Lemma sval_cases a : wf56 a →
  sval a = if 2 ^ 55 <=? uval a then uval a - 2 ^ 56 else uval a.
Proof.
  intros Hw%uval_range. unfold sval, signed. change (56 - 1) with 55. pow2.
  destruct (Z.ltb_spec (uval a) 36028797018963968), (Z.leb_spec 36028797018963968 (uval a)); lia.
Qed.

Lemma xor_b2z a b : b2z a .^ b2z b = b2z (xorb a b).
Proof. by destruct a, b. Qed.
Lemma and_b2z a b : b2z a .& b2z b = b2z (a && b).
Proof. by destruct a, b. Qed.

Lemma add_flags s d : wf56 s → wf56 d →
  (dsp_add56 s d).1 =
    newsr56 (b2z (overflow56 (sval s + sval d))) (b2z (2 ^ 56 <=? uval s + uval d)).
Proof.
  intros Hs Hd. destruct (add_words s d Hs Hd) as [Hr Er].
  destruct (compl_uval d Hd) as [Hn En].
  unfold dsp_add56 in *; cbn [fst snd] in *.
  rewrite sign_bit56, (sign_bit56 d), (sign_bit56 _ Hr), Er by done.
  rewrite lt56_uval, En by done. rewrite !xor_b2z, and_b2z.
  rewrite !sval_cases by done. unfold overflow56.
  pose proof (uval_range s Hs). pose proof (uval_range d Hd).
  clear Hs Hd Hr Er Hn En. generalize dependent (uval s). generalize dependent (uval d).
  pow2. intros x Hx y Hy. f_equal; f_equal; [|lia].
  Z.div_mod_to_equations.
  repeat match goal with |- context [?a <=? ?b] => destruct (Z.leb_spec a b) end;
  repeat match goal with |- context [?a <? ?b] => destruct (Z.ltb_spec a b) end;
  cbn; try done; lia.
Qed.

Lemma sub_flags s d : wf56 s → wf56 d →
  (dsp_sub56 s d).1 =
    newsr56 (b2z (overflow56 (sval d - sval s))) (b2z (uval d <? uval s)).
Proof.
  intros Hs Hd. destruct (sub_words s d Hs Hd) as [Hr Er].
  unfold dsp_sub56 in *; cbn [fst snd] in *.
  rewrite sign_bit56, (sign_bit56 d), (sign_bit56 _ Hr), Er by done.
  rewrite lt56_uval by done. rewrite !xor_b2z, and_b2z.
  rewrite !sval_cases by done. unfold overflow56.
  pose proof (uval_range s Hs). pose proof (uval_range d Hd).
  clear Hs Hd Hr Er. generalize dependent (uval s). generalize dependent (uval d).
  pow2. intros x Hx y Hy. f_equal; f_equal.
  Z.div_mod_to_equations.
  repeat match goal with |- context [?a <=? ?b] => destruct (Z.leb_spec a b) end;
  repeat match goal with |- context [?a <? ?b] => destruct (Z.ltb_spec a b) end;
  cbn; try done; lia.
Qed.

Lemma zero_wf : wf56 zero_accu.
Proof. split; [|split]; by apply in_ub_spec. Qed.

(** The negation, computed as 0 - D. *)
Lemma neg_words d : wf56 d →
  let r := (dsp_sub56 d zero_accu).2 in wf56 r ∧ uval r = (- uval d) mod 2 ^ 56.
Proof.
  intros Hd. destruct (sub_words d zero_accu Hd zero_wf) as [Hr Er]. split; [done|].
  rewrite Er. by change (uval zero_accu) with 0.
Qed.

Lemma abs_words d : wf56 d →
  let r := (dsp_abs56 d).2 in wf56 r ∧ uval r = Z.abs (sval d).
Proof.
  intros Hd. unfold dsp_abs56. rewrite sign_test56, sval_cases by done.
  pose proof (uval_range d Hd).
  destruct (Z.leb_spec (2 ^ 55) (uval d)).
  - destruct (neg_words d Hd) as [Hr Er]. split; [done|]. rewrite Er. pow2.
    Z.div_mod_to_equations. lia.
  - split; [done|]. cbn [snd]. lia.
Qed.

Lemma asl_words d : wf56 d →
  let r := (dsp_asl56 d).2 in wf56 r ∧ uval r = (2 * uval d) mod 2 ^ 56.
Proof.
  intros Hd. unfold dsp_asl56; cbn [snd].
  assert (∀ x y k, in_u k x → 0 <= k <= 24 → (u32 (x ≪ 1) .| ((y ≫ 23) .& 1)) =
      2 * x + (y / 2 ^ 23) mod 2) as Hor.
  { intros x y k Hx Hk. rewrite shl_mul, shr_div, (land_ones_const _ 1 1) by lia.
    assert (0 <= x < 16777216).
    { destruct (in_u_mono k 24 x Hx Hk). pow2. lia. }
    rewrite u32_small by (pow2; lia). pow2.
    rewrite (lor_add _ _ 1); pow2; [lia|lia| |]; Z.div_mod_to_equations; lia. }
  destruct Hd as (H0 & H1 & H2).
  rewrite (Hor _ _ 8), (Hor _ _ 24) by (done || lia). clear Hor.
  unfold wf56, uval, in_u in *; cbn [w0 w1 w2]. rewrite !land_BITMASK, shl_mul by lia.
  unfold u32. pow2. split; [|Z.div_mod_to_equations; lia].
  Z.div_mod_to_equations; lia.
Qed.

Lemma asl_flags d : wf56 d →
  (dsp_asl56 d).1 =
    newsr56 (b2z (overflow56 (2 * sval d))) (b2z (2 ^ 55 <=? uval d)).
Proof.
  intros Hd. destruct (asl_words d Hd) as [Hr Er].
  unfold dsp_asl56 in *; cbn [fst snd] in *.
  pose proof (sign_bit56 _ Hr) as Eb. cbn [w0] in Eb. rewrite Eb, Er, sign_bit56 by done.
  rewrite sval_cases by done. unfold overflow56. pose proof (uval_range d Hd).
  clear Hd Hr Er Eb. generalize dependent (uval d). pow2. intros x Hx. f_equal.
  Z.div_mod_to_equations.
  repeat match goal with |- context [?a <=? ?b] => destruct (Z.leb_spec a b) end;
  repeat match goal with |- context [?a <? ?b] => destruct (Z.ltb_spec a b) end;
  cbn; try done; lia.
Qed.

Lemma asr_words d : wf56 d →
  let r := (dsp_asr56 d).2 in wf56 r ∧ sval r = sval d / 2.
Proof.
  intros Hd. unfold dsp_asr56; cbn [snd].
  assert (∀ x y, in_u 24 x → (x ≫ 1 .& BITMASK 23) .| ((y .& 1) ≪ 23) =
      x / 2 + 8388608 * (y mod 2)) as Hor.
  { intros x y Hx. rewrite land_BITMASK, shl_mul, shr_div, (land_ones_const _ 1 1) by lia.
    unfold in_u in Hx. rewrite Z.lor_comm. pow2.
    rewrite (lor_add _ _ 23); pow2; [|lia| |]; Z.div_mod_to_equations; lia. }
  assert (∀ x, in_u 8 x → (x ≫ 1 .& BITMASK 7) .| ((x ≫ 1 .& BITMASK 7) .& (1 ≪ 6)) ≪ 1 =
     x / 2 + (if 128 <=? x then 128 else 0)) as Hor0.
  { intros x Hx. rewrite land_BITMASK, shr_div, land_pow2 by lia. unfold in_u in Hx. pow2.
    rewrite (Z.mod_small (x / 2)) by (Z.div_mod_to_equations; lia).
    rewrite testbit_top by (pow2; Z.div_mod_to_equations; lia).
    rewrite shl_mul by lia. rewrite Z.lor_comm. pow2.
    destruct (Z.leb_spec 64 (x / 2)), (Z.leb_spec 128 x); cbn [b2z];
      rewrite ?(lor_add _ _ 7); pow2; Z.div_mod_to_equations; try lia. }
  destruct Hd as (H0 & H1 & H2). rewrite !Hor, Hor0 by done. clear Hor Hor0.
  unfold sval, signed, uval, wf56, in_u in *; cbn [w0 w1 w2]. change (56 - 1) with 55. pow2.
  destruct (Z.leb_spec 128 (w0 d)).
  all: split; [Z.div_mod_to_equations; lia|].
  all: repeat match goal with |- context [?a <? ?b] => destruct (Z.ltb_spec a b) end.
  all: Z.div_mod_to_equations; lia.
Qed.

Lemma signed24_cases x : in_u 24 x →
  signed 24 x = if 2 ^ 23 <=? x then x - 2 ^ 24 else x.
Proof.
  unfold in_u, signed. change (24 - 1) with 23. pow2. intros.
  destruct (Z.ltb_spec x 8388608), (Z.leb_spec 8388608 x); lia.
Qed.

Lemma mul_magnitude_abs x : in_u 24 x → mul_magnitude x = Z.abs (signed 24 x).
Proof.
  intros Hx. unfold mul_magnitude. rewrite nz_land_bit, testbit_top, signed24_cases by
    (unfold in_u in Hx; (done || (pow2; lia))).
  rewrite land_BITMASK, shl_mul by lia. unfold in_u in Hx. pow2.
  destruct (Z.leb_spec 8388608 x); [|lia]. rewrite Z.mod_small by lia. lia.
Qed.

Lemma u32_prod12 a b : 0 <= a < 4096 → 0 <= b < 4096 →
  u32 (a * b) = a * b ∧ 0 <= a * b <= 16769025.
Proof. intros. split; [apply u32_small|]; nia. Qed.

(** The product of two magnitudes, put together from four 12 bit products. *)
Lemma mul_parts m n p0 p1 p2 p3 :
  p0 = (m mod 4096) * (n mod 4096) → p1 = (m / 4096) * (n mod 4096) →
  p2 = (m mod 4096) * (n / 4096) → p3 = (m / 4096) * (n / 4096) →
  p3 * 16777216 + (p1 + p2) * 4096 + p0 = m * n.
Proof.
  intros -> -> -> ->.
  rewrite (Z.div_mod m 4096) at 5 by lia. rewrite (Z.div_mod n 4096) at 5 by lia. ring.
Qed.

Lemma mul_product_words m n : 0 <= m <= 2 ^ 23 → 0 <= n <= 2 ^ 23 →
  let r := mul_product m n in wf56 r ∧ uval r = m * n.
Proof.
  intros Hm Hn. unfold mul_product. pow2.
  rewrite !land_BITMASK, !shr_div, !shl_mul by lia. pow2.
  rewrite !(Z.mod_small (m / 4096)), !(Z.mod_small (n / 4096)) by (Z.div_mod_to_equations; lia).
  pose proof (mul_parts m n _ _ _ _ eq_refl eq_refl eq_refl eq_refl) as Hprod.
  assert (0 <= m * n <= 70368744177664) as HP by (clear -Hm Hn; nia).
  destruct (u32_prod12 (m mod 4096) (n mod 4096)) as [-> B0]; [Z.div_mod_to_equations; lia..|].
  destruct (u32_prod12 (m / 4096) (n mod 4096)) as [-> B1]; [Z.div_mod_to_equations; lia..|].
  destruct (u32_prod12 (m mod 4096) (n / 4096)) as [-> B2]; [Z.div_mod_to_equations; lia..|].
  destruct (u32_prod12 (m / 4096) (n / 4096)) as [-> B3]; [Z.div_mod_to_equations; lia..|].
  revert B0 B1 B2 B3 Hprod HP. generalize (m * n).
  generalize (m mod 4096 * (n mod 4096)) (m / 4096 * (n mod 4096))
             (m mod 4096 * (n / 4096)) (m / 4096 * (n / 4096)).
  intros p0 p1 p2 p3 q B0 B1 B2 B3 Hprod HP. clear Hm Hn m n. subst q.
  pose proof (Z.mod_pos_bound p1 4096 ltac:(lia)). pose proof (Z.mod_pos_bound p2 4096 ltac:(lia)).
  pose proof (Z.div_mod p1 4096 ltac:(lia)). pose proof (Z.div_mod p2 4096 ltac:(lia)).
  assert (0 <= p1 / 4096 < 4096) by (Z.div_mod_to_equations; lia).
  assert (0 <= p2 / 4096 < 4096) by (Z.div_mod_to_equations; lia).
  rewrite (Z.mod_small (p1 / 4096)), (Z.mod_small (p2 / 4096)) by lia.
  generalize dependent (p1 mod 4096). generalize dependent (p1 / 4096). intros h1 ? l1 ? ?.
  generalize dependent (p2 mod 4096). generalize dependent (p2 / 4096). intros h2 ? l2 ? ?.
  rewrite (u32_small (p0 + _)), (u32_small (_ + l2 * 4096)), (u32_small (h1 + h2)),
    (u32_small (h1 + h2 + p3)) by lia.
  set (d2 := p0 + l1 * 4096 + l2 * 4096). set (d1 := h1 + h2 + p3).
  assert (0 <= d2 < 67108864) as Hd2 by lia. assert (0 <= d1 < 33554432) as Hd1 by lia.
  assert (d1 * 16777216 + d2 = p3 * 16777216 + (p1 + p2) * 4096 + p0) as E by lia.
  rewrite <- E in *.
  rewrite (Z.mod_small (d2 / 16777216)) by (Z.div_mod_to_equations; lia).
  rewrite u32_small by (Z.div_mod_to_equations; lia).
  unfold nz. clearbody d1 d2. clear -Hd1 Hd2 HP.
  destruct (Z.eqb_spec (d2 / 16777216) 0); cbn [negb];
  match goal with |- context [?a =? 0] => destruct (Z.eqb_spec a 0) end; cbn [negb];
  rewrite ?land_BITMASK, ?shr_div in * by lia;
  unfold wf56, in_u, uval; cbn [w0 w1 w2]; pow2; split; Z.div_mod_to_equations; lia.
Qed.

Lemma sign24_test x : in_u 24 x → nz (x .& (1 ≪ 23)) = (signed 24 x <? 0).
Proof.
  intros Hx. rewrite nz_land_bit, testbit_top, signed24_cases by
    (unfold in_u in Hx; (done || (pow2; lia))).
  unfold in_u in *. pow2. destruct (Z.leb_spec 8388608 x); lia.
Qed.

Lemma signed24_range x : in_u 24 x → - 2 ^ 23 <= signed 24 x < 2 ^ 23.
Proof.
  intros Hx. rewrite signed24_cases by done. unfold in_u in *. pow2.
  destruct (Z.leb_spec 8388608 x); lia.
Qed.

Lemma mul_words x y : in_u 24 x → in_u 24 y →
  let r := dsp_mul56 x y in wf56 r ∧ sval r = 2 * (signed 24 x * signed 24 y).
Proof.
  intros Hx Hy. unfold dsp_mul56. rewrite !mul_magnitude_abs, !sign24_test by done.
  pose proof (signed24_range x Hx) as Bx. pose proof (signed24_range y Hy) as By.
  revert Bx By. generalize (signed 24 x) (signed 24 y). clear x y Hx Hy. intros x y Bx By.
  destruct (mul_product_words (Z.abs x) (Z.abs y)) as [Hp Ep]; [pow2; lia..|].
  destruct (asl_words _ Hp) as [Ha Ea]. cbv zeta in *.
  assert (0 <= Z.abs x * Z.abs y <= 70368744177664) as Hxy by (clear -Bx By; pow2; nia).
  rewrite Ep, Z.mod_small in Ea by (pow2; lia).
  destruct (neg_words _ Ha) as [Hn En]. rewrite Ea in En.
  destruct (xorb (x <? 0) (y <? 0)) eqn:Es; (split; [done|]); rewrite sval_cases by done.
  - rewrite En.
    assert (Z.abs x * Z.abs y = - (x * y)) as -> by
      (clear -Es; destruct (Z.ltb_spec x 0), (Z.ltb_spec y 0); try done; nia). pow2.
    assert (x * y <= 0) by
      (clear -Es; destruct (Z.ltb_spec x 0), (Z.ltb_spec y 0); try done; nia).
    destruct (decide (x * y = 0)) as [->|]; [done|].
    rewrite <- (Z.mod_unique _ _ (-1) (2 * (x * y) + 72057594037927936)) by lia.
    destruct (Z.leb_spec 36028797018963968 (2 * (x * y) + 72057594037927936)); lia.
  - rewrite Ea. assert (Z.abs x * Z.abs y = x * y) as E by
      (clear -Es; destruct (Z.ltb_spec x 0), (Z.ltb_spec y 0); try done; nia). rewrite E in *. pow2.
    destruct (Z.leb_spec 36028797018963968 (2 * (x * y))); lia.
Qed.

Lemma wf_words a b c : in_u 8 a → in_u 24 b → in_u 24 c → wf56 (Accu a b c).
Proof. done. Qed.

Lemma even_mod2 x : Z.even x = (x mod 2 =? 0).
Proof. rewrite Zmod_even. by destruct (Z.even x). Qed.

(** Masks of the rounding modes as arithmetic, then a case analysis on the
    comparisons of the code and of [round_half_even]. *)
Ltac rnd_cases :=
  rewrite ?(land_hi _ 16777214 1 24), ?(land_hi _ (0xffffff - 0x3) 2 24),
    ?(land_hi _ 8388608 23 24), ?(land_ones_const _ 8388607 23), ?(land_ones_const _ 1 1),
    even_mod2 by lia;
  change (24 - 2) with 22; change (24 - 1) with 23; change (25 - 1) with 24;
  change (23 - 1) with 22; change (24 - 23) with 1; change (2 ^ 2) with 4;
  unfold wf56, in_u, uval in *; cbn [w0 w1 w2] in *; pow2;
  repeat match goal with
         | |- context [?a <? ?b] => destruct (Z.ltb_spec a b)
         | |- context [?a =? ?b] => destruct (Z.eqb_spec a b)
         end; cbn [andb orb];
  (split; [|]); Z.div_mod_to_equations; lia.

Lemma rnd_words sr d : wf56 d →
  let r := dsp_rnd56 sr d in
  wf56 r ∧ uval r = round_half_even (rnd_bit sr) (uval d) mod 2 ^ 56.
Proof.
  intros Hd. unfold dsp_rnd56, rnd_bit, round_half_even.
  assert (∀ a b, in_u 24 a → in_u 24 b →
    let r := (dsp_add56 (Accu 0 a b) d).2 in
    wf56 r ∧ uval r = (a * 2 ^ 24 + b + uval d) mod 2 ^ 56) as Hadd.
  { intros a b Ha Hb. apply (add_words (Accu 0 a b) d); [by apply wf_words|done]. }
  rewrite !nz_land_bit by lia.
  destruct (Z.testbit sr 10); [|destruct (Z.testbit sr 11)].
  - destruct (Hadd 1 0) as [Hr Er]; [by apply in_ub_spec..|]. cbv zeta in *.
    revert Er Hr. generalize (dsp_add56 (Accu 0 1 0) d).2. intros r Er Hr. rnd_cases.
  - destruct (Hadd 0 (1 ≪ 22)) as [Hr Er]; [by apply in_ub_spec..|]. cbv zeta in *.
    change (0 * 2 ^ 24 + 1 ≪ 22) with 4194304 in *.
    revert Er Hr. generalize (dsp_add56 (Accu 0 0 (1 ≪ 22)) d).2. intros r Er Hr. rnd_cases.
  - destruct (Hadd 0 (1 ≪ 23)) as [Hr Er]; [by apply in_ub_spec..|]. cbv zeta in *.
    change (0 * 2 ^ 24 + 1 ≪ 23) with 8388608 in *.
    revert Er Hr. generalize (dsp_add56 (Accu 0 0 (1 ≪ 23)) d).2. intros r Er Hr. rnd_cases.
Qed.

(** The numbers of an addition and a subtraction. *)
Lemma wrap_signed x : signed 56 (x mod 2 ^ 56) = wrap56 x.
Proof.
  unfold signed, wrap56. change (56 - 1) with 55. pow2.
  destruct (Z.ltb_spec (x mod 72057594037927936) 36028797018963968); Z.div_mod_to_equations; lia.
Qed.

Lemma uval_sval d : wf56 d → uval d = sval d mod 2 ^ 56.
Proof.
  intros Hd. pose proof (uval_range d Hd). rewrite sval_cases by done. pow2.
  destruct (Z.leb_spec 36028797018963968 (uval d)); Z.div_mod_to_equations; lia.
Qed.

Lemma sval_range d : wf56 d → - 2 ^ 55 <= sval d < 2 ^ 55.
Proof.
  intros Hd. pose proof (uval_range d Hd). rewrite sval_cases by done. pow2.
  destruct (Z.leb_spec 36028797018963968 (uval d)); lia.
Qed.

Lemma sval_negative d : wf56 d → (2 ^ 55 <=? uval d) = (sval d <? 0).
Proof.
  intros Hd. pose proof (uval_range d Hd). rewrite sval_cases by done. pow2.
  destruct (Z.leb_spec 36028797018963968 (uval d)); lia.
Qed.

Lemma sval_parity d : wf56 d → d.(w2) mod 2 = sval d mod 2.
Proof.
  intros Hd. rewrite sval_cases by done. unfold uval, wf56, in_u in *. pow2.
  destruct (_ <=? _); Z.div_mod_to_equations; lia.
Qed.

Lemma add_value56 a d : wf56 a → wf56 d →
  let r := (dsp_add56 a d).2 in wf56 r ∧ sval r = wrap56 (sval d + sval a).
Proof.
  intros Ha Hd. destruct (add_words a d Ha Hd) as [Hr Er]. split; [done|].
  unfold sval at 1. rewrite Er, (uval_sval a), (uval_sval d), <- Zplus_mod, wrap_signed by done.
  f_equal. lia.
Qed.

Lemma sub_value56 a d : wf56 a → wf56 d →
  let r := (dsp_sub56 a d).2 in wf56 r ∧ sval r = wrap56 (sval d - sval a).
Proof.
  intros Ha Hd. destruct (sub_words a d Ha Hd) as [Hr Er]. split; [done|].
  unfold sval at 1. by rewrite Er, (uval_sval a), (uval_sval d), <- Zminus_mod, wrap_signed by done.
Qed.

(** V, C and L from the result of an addition or a subtraction. *)
Lemma testbit_newsr56 o c k :
  0 <= k → Z.testbit (newsr56 (b2z o) (b2z c)) k
           = ((k =? DSP_SR_L) && o) || ((k =? DSP_SR_V) && o) || ((k =? DSP_SR_C) && c).
Proof.
  intros Hk. unfold newsr56. rewrite !Z.lor_spec, !Z.shiftl_spec by done.
  assert (∀ b j, Z.testbit (b2z b) j = (j =? 0) && b) as Hb.
  { intros b j. destruct (Z.eqb_spec j 0) as [->|]; [by destruct b|].
    destruct b; cbn [b2z]; [|apply Z.bits_0]. destruct (decide (j < 0)); [by apply Z.testbit_neg_r|].
    apply Z.bits_above_log2; cbn; lia. }
  rewrite !Hb. repeat (f_equal; [|]). all: f_equal; lia.
Qed.

(** The bits of [newsr56], by the flag. *)
Lemma newsr56_flags o c k : 0 <= k →
  Z.testbit (newsr56 (b2z o) (b2z c)) k =
    if (k =? DSP_SR_V) || (k =? DSP_SR_L) then o else (k =? DSP_SR_C) && c.
Proof.
  intros Hk. rewrite testbit_newsr56 by done.
  destruct (k =? DSP_SR_L) eqn:E6, (k =? DSP_SR_V) eqn:E1, (k =? DSP_SR_C) eqn:E0; try lia; by destruct o.
Qed.

(** ** Properties *)

(** The 56 bit addition returns the two's complement sum wrapped around; V and L
    are set iff the sum does not fit in 56 bits, C iff there is a carry out of bit 55,
    and no other bit is set. *)
Lemma add56_correct (source dest : accu) (Hs : wf56 source) (Hd : wf56 dest) :
  let '(newsr, r) := dsp_add56 source dest in
  let sum := sval dest + sval source in
  wf56 r ∧ sval r = wrap56 sum ∧
  ∀ k, 0 <= k → Z.testbit newsr k =
    if (k =? DSP_SR_V) || (k =? DSP_SR_L) then overflow56 sum
    else (k =? DSP_SR_C) && (2 ^ 56 <=? uval dest + uval source).
Proof.
  destruct (add_value56 source dest Hs Hd) as [Hr Er]. pose proof (add_flags source dest Hs Hd) as Ef.
  destruct (dsp_add56 source dest) as [newsr r]. cbn [fst snd] in *. split; [done|]. split; [done|].
  intros k Hk. by rewrite Ef, newsr56_flags, (Z.add_comm (sval source)), (Z.add_comm (uval source)).
Qed.

(** The largest positive value plus one. *)
Lemma add56_correct_witness :
  let s := Accu 0 0 1 in let d := Accu 0x7f 0xffffff 0xffffff in
  wf56 s ∧ wf56 d ∧ dsp_add56 s d = (0x42, Accu 0x80 0 0)
  ∧ sval (Accu 0x80 0 0) = wrap56 (sval d + sval s).
Proof.
  assert (wf56 (Accu 0 0 1)) as Hs by (split; [|split]; by apply in_ub_spec).
  assert (wf56 (Accu 0x7f 0xffffff 0xffffff)) as Hd by (split; [|split]; by apply in_ub_spec).
  intros s d. split; [exact Hs|]. split; [exact Hd|]. split; [reflexivity|].
  exact (proj1 (proj2 (add56_correct s d Hs Hd))).
Defined.

(** The 56 bit subtraction returns the wrapped two's complement difference D-S; V
    and L are set iff it does not fit in 56 bits, C iff the unsigned subtraction borrows. *)
Lemma sub56_correct (source dest : accu) (Hs : wf56 source) (Hd : wf56 dest) :
  let '(newsr, r) := dsp_sub56 source dest in
  let diff := sval dest - sval source in
  wf56 r ∧ sval r = wrap56 diff ∧
  ∀ k, 0 <= k → Z.testbit newsr k =
    if (k =? DSP_SR_V) || (k =? DSP_SR_L) then overflow56 diff
    else (k =? DSP_SR_C) && (uval dest <? uval source).
Proof.
  destruct (sub_value56 source dest Hs Hd) as [Hr Er]. pose proof (sub_flags source dest Hs Hd) as Ef.
  destruct (dsp_sub56 source dest) as [newsr r]. cbn [fst snd] in *. split; [done|]. split; [done|].
  intros k Hk. by rewrite Ef, newsr56_flags.
Qed.

(** Zero minus one borrows. *)
Lemma sub56_correct_witness :
  let s := Accu 0 0 1 in
  wf56 s ∧ wf56 zero_accu ∧ dsp_sub56 s zero_accu = (1, Accu 0xff 0xffffff 0xffffff)
  ∧ sval (Accu 0xff 0xffffff 0xffffff) = wrap56 (0 - 1).
Proof.
  assert (wf56 (Accu 0 0 1)) as Hs by (split; [|split]; by apply in_ub_spec).
  assert (wf56 zero_accu) as Hd by (split; [|split]; by apply in_ub_spec).
  intros s. split; [exact Hs|]. split; [exact Hd|]. split; [reflexivity|].
  exact (proj1 (proj2 (sub56_correct s zero_accu Hs Hd))).
Defined.

(** C31: the multiplication, put together from four 12 bit products of the magnitudes,
    returns exactly twice the signed product of its 24 bit operands, in every case:
    also -1 times -1 fits in the 56 bits. *)
Theorem mul56_correct (source1 source2 : Z) (H1 : in_u 24 source1) (H2 : in_u 24 source2) :
  let r := dsp_mul56 source1 source2 in
  wf56 r ∧ sval r = 2 * (signed 24 source1 * signed 24 source2).
Proof. by apply mul_words. Qed.

(** -1 times -1 is +1, which needs the extension word. *)
Lemma mul56_correct_witness :
  in_u 24 0x800000 ∧ dsp_mul56 0x800000 0x800000 = Accu 0 0x800000 0
  ∧ sval (Accu 0 0x800000 0) = 2 * (signed 24 0x800000 * signed 24 0x800000).
Proof.
  assert (in_u 24 0x800000) as H by by apply in_ub_spec.
  split; [exact H|]. split; [reflexivity|]. exact (proj2 (mul56_correct 0x800000 0x800000 H H)).
Defined.

(** Rounding is convergent (to the nearest, a tie to the even neighbour) at the bit
    the scaling mode selects: bit 24 without scaling, 25 scaling down, 23 scaling up. *)
Lemma rnd56_correct (sr : Z) (dest : accu) (Hd : wf56 dest) :
  let r := dsp_rnd56 sr dest in
  wf56 r ∧ uval r = round_half_even (rnd_bit sr) (uval dest) mod 2 ^ 56.
Proof. by apply rnd_words. Qed.

(** A tie goes down to an even and up from an odd middle word. *)
Lemma rnd56_correct_witness :
  let d := Accu 0 3 0x800000 in
  wf56 d ∧ dsp_rnd56 0 d = Accu 0 4 0 ∧ uval (Accu 0 4 0) = round_half_even 24 (uval d) mod 2 ^ 56
  ∧ dsp_rnd56 0 (Accu 0 2 0x800000) = Accu 0 2 0.
Proof.
  assert (wf56 (Accu 0 3 0x800000)) as H by (split; [|split]; by apply in_ub_spec).
  intros d. split; [exact H|]. split; [reflexivity|]. split; [exact (proj2 (rnd56_correct 0 d H))|reflexivity].
Defined.

(** The one bit shifts and the absolute value: ASL doubles and wraps around, with V
    and L iff the double does not fit and C the bit shifted out; ASR halves rounding
    down, with C the bit shifted out; ABS is the absolute value. *)
Lemma shift56_correct (dest : accu) (Hd : wf56 dest) :
  (let '(newsr, r) := dsp_asl56 dest in
   wf56 r ∧ sval r = wrap56 (2 * sval dest) ∧
   ∀ k, 0 <= k → Z.testbit newsr k =
     if (k =? DSP_SR_V) || (k =? DSP_SR_L) then overflow56 (2 * sval dest)
     else (k =? DSP_SR_C) && (sval dest <? 0))
  ∧ (let '(newsr, r) := dsp_asr56 dest in wf56 r ∧ sval r = sval dest / 2 ∧ newsr = sval dest mod 2)
  ∧ (let r := (dsp_abs56 dest).2 in wf56 r ∧ uval r = Z.abs (sval dest)).
Proof.
  split; [|split; [|by apply abs_words]].
  - destruct (asl_words dest Hd) as [Hr Er]. pose proof (asl_flags dest Hd) as Ef.
    destruct (dsp_asl56 dest) as [newsr r]. cbn [fst snd] in *. split; [done|]. split.
    + unfold sval at 1. rewrite Er, (uval_sval dest), Z.mul_mod_idemp_r, wrap_signed by done. done.
    + intros k Hk. rewrite Ef, newsr56_flags by done. by rewrite sval_negative.
  - destruct (asr_words dest Hd) as [Hr Er]. split; [done|]. split; [done|].
    cbn [fst]. rewrite Z.shiftl_0_r, (land_ones_const _ 1 1) by lia. by rewrite sval_parity.
Qed.

(** -3 shifted: -6, and -2 with the low bit in C. *)
Lemma shift56_correct_witness :
  let d := Accu 0xff 0xffffff 0xfffffd in
  wf56 d ∧ dsp_asl56 d = (1, Accu 0xff 0xffffff 0xfffffa) ∧ dsp_asr56 d = (1, Accu 0xff 0xffffff 0xfffffe)
  ∧ uval (dsp_abs56 d).2 = 3.
Proof.
  assert (wf56 (Accu 0xff 0xffffff 0xfffffd)) as H by (split; [|split]; by apply in_ub_spec).
  intros d. split; [exact H|]. split; [reflexivity|]. split; [reflexivity|].
  exact (proj2 (proj2 (proj2 (shift56_correct d H)))).
Defined.
