(* ===== verification/Ccr.v ===== *)
(** * Condition codes (src/src/dsp_cpu.c, "Set/clear ccr bits" and "Condition
    code test") *)

From S2P Require Import Prelude DspState Arith56.

(** ** Set/clear ccr bits

    reg0 has bits 55..48, reg1 has bits 47..24, reg2 has bits 23..0 *)

Definition dsp_ccr_extension (reg0 reg1 : Z) : M unit :=
  sr ← get_reg DSP_REG_SR;
  let scaling := (sr ≫ DSP_SR_S0) .& BITMASK 2 in
  let value := reg0 .& 0xff in
  let finish value numbits :=
    let sr_extension :=
      if (value =? 0) || (value =? BITMASK numbits) then 0 else 1 ≪ DSP_SR_E in
    reg_and DSP_REG_SR (BITMASK 16 - (1 ≪ DSP_SR_E));;
    reg_or DSP_REG_SR sr_extension in
  if scaling =? 0 then finish ((value ≪ 1) .| ((reg1 ≫ 23) .& 1)) 9
  else if scaling =? 1 then finish value 8
  else if scaling =? 2 then finish ((value ≪ 2) .| ((reg1 ≫ 22) .& 3)) 10
  else mret tt.

Definition dsp_ccr_unnormalized (reg0 reg1 : Z) : M unit :=
  sr ← get_reg DSP_REG_SR;
  let scaling := (sr ≫ DSP_SR_S0) .& BITMASK 2 in
  let finish value :=
    reg_and DSP_REG_SR (BITMASK 16 - (1 ≪ DSP_SR_U));;
    reg_or DSP_REG_SR (b2z ((value =? 0) || (value =? BITMASK 2)) ≪ DSP_SR_U) in
  if scaling =? 0 then finish ((reg1 ≫ 22) .& 3)
  else if scaling =? 1 then finish ((u32 (reg0 ≪ 1) .& 2) .| ((reg1 ≫ 23) .& 1))
  else if scaling =? 2 then finish ((reg1 ≫ 21) .& 3)
  else mret tt.

Definition dsp_ccr_negative (reg0 : Z) : M unit :=
  reg_and DSP_REG_SR (BITMASK 16 - (1 ≪ DSP_SR_N));;
  reg_or DSP_REG_SR (((reg0 ≫ 7) .& 1) ≪ DSP_SR_N).

Definition dsp_ccr_zero (reg0 reg1 reg2 : Z) : M unit :=
  let zeroed :=
    if nz (reg2 .& BITMASK 24) then 0
    else if nz (reg1 .& BITMASK 24) then 0
    else if nz (reg0 .& BITMASK 8) then 0
    else 1 in
  reg_and DSP_REG_SR (BITMASK 16 - (1 ≪ DSP_SR_Z));;
  reg_or DSP_REG_SR (zeroed ≪ DSP_SR_Z).

(** The four updates, in the order the instructions make them. *)
Definition dsp_ccr_update (dest : accu) : M unit :=
  dsp_ccr_extension dest.(w0) dest.(w1);;
  dsp_ccr_unnormalized dest.(w0) dest.(w1);;
  dsp_ccr_negative dest.(w0);;
  dsp_ccr_zero dest.(w0) dest.(w1) dest.(w2).

(** ** Condition code test *)

Abbreviation DSP_SR_NV := 8 (only parsing).   (* N xor V *)
Abbreviation DSP_SR_ZUE := 9 (only parsing).  (* Z or ((not U) and (not E)) *)
Abbreviation DSP_SR_ZNV := 10 (only parsing). (* Z or (N xor V) *)

Definition CCR_BIT (x y : Z) : Z := (x ≫ y) .& 1.

Definition cc_code_map : list Z :=
  [DSP_SR_C; DSP_SR_NV; DSP_SR_Z; DSP_SR_N; DSP_SR_ZUE; DSP_SR_E; DSP_SR_L; DSP_SR_ZNV].

(** The condition code register with the three derived bits. *)
Definition extended_ccr (sr : Z) : Z :=
  let value := sr .& BITMASK 8 in
  let value := value .| ((CCR_BIT value DSP_SR_N .^ CCR_BIT value DSP_SR_V) ≪ DSP_SR_NV) in
  let value := value .|
    (((CCR_BIT value DSP_SR_Z
       .| (Z.lnot (CCR_BIT value DSP_SR_U) .& Z.lnot (CCR_BIT value DSP_SR_E))) .& 1)
     ≪ DSP_SR_ZUE) in
  value .| ((CCR_BIT value DSP_SR_Z .| CCR_BIT value DSP_SR_NV) ≪ DSP_SR_ZNV).

Definition dsp_calc_cc (cc_code : Z) : M bool :=
  sr ← get_reg DSP_REG_SR;
  bit ← table_get cc_code_map (cc_code .& BITMASK 3);
  mret (CCR_BIT (extended_ccr sr) bit =? (cc_code ≫ 3) .& 1).
