(* ===== verification/Alu.v ===== *)
(** * Arithmetic and logic instructions (src/src/dsp_cpu.c, "Parallel moves
    instructions")

    The instructions that run beside a parallel move: each reads its operands
    from the register file, computes on [accu] values and updates the destination
    accumulator and the condition codes in SR. *)

From S2P Require Import Prelude DspState Arith56 Ccr.

(** ** Operands *)

(** Accumulator [numreg] (0 is A, 1 is B). *)
Definition get_accu (numreg : Z) : M accu :=
  x0 ← get_reg (DSP_REG_A2 + numreg);
  x1 ← get_reg (DSP_REG_A1 + numreg);
  x2 ← get_reg (DSP_REG_A0 + numreg);
  mret (Accu x0 x1 x2).

Definition set_accu (numreg : Z) (dest : accu) : M unit :=
  set_reg (DSP_REG_A2 + numreg) dest.(w0);;
  set_reg (DSP_REG_A1 + numreg) dest.(w1);;
  set_reg (DSP_REG_A0 + numreg) dest.(w2).

Definition sign_word (x : Z) : Z := if nz (x .& (1 ≪ 23)) then 0x0000ff else 0.

(** A 24 bit register, sign extended to 56 bits. *)
Definition get_word (numreg : Z) : M accu :=
  x ← get_reg numreg; mret (Accu (sign_word x) x 0).

(** The 48 bit registers X and Y, sign extended to 56 bits. *)
Definition get_long (hi lo : Z) : M accu :=
  x1 ← get_reg hi; x2 ← get_reg lo; mret (Accu (sign_word x1) x1 x2).

(** The source operand of ADD and SUB. *)
Definition add_source (srcreg destreg : Z) : M (option accu) :=
  if srcreg =? 1 then Some <$> get_accu (destreg .^ 1)
  else if srcreg =? 2 then Some <$> get_long DSP_REG_X1 DSP_REG_X0
  else if srcreg =? 3 then Some <$> get_long DSP_REG_Y1 DSP_REG_Y0
  else if srcreg =? 4 then Some <$> get_word DSP_REG_X0
  else if srcreg =? 5 then Some <$> get_word DSP_REG_Y0
  else if srcreg =? 6 then Some <$> get_word DSP_REG_X1
  else if srcreg =? 7 then Some <$> get_word DSP_REG_Y1
  else mret None.

(** The source operand of CMP, CMPM and TFR. *)
Definition cmp_source (srcreg destreg : Z) : M (option accu) :=
  if srcreg =? 0 then Some <$> get_accu (destreg .^ 1)
  else if srcreg =? 4 then Some <$> get_word DSP_REG_X0
  else if srcreg =? 5 then Some <$> get_word DSP_REG_Y0
  else if srcreg =? 6 then Some <$> get_word DSP_REG_X1
  else if srcreg =? 7 then Some <$> get_word DSP_REG_Y1
  else mret None.

(** [registers[DSP_REG_SR] &= BITMASK(16)-mask; registers[DSP_REG_SR] |= bits] *)
Definition set_sr_bits (mask bits : Z) : M unit :=
  reg_and DSP_REG_SR (BITMASK 16 - mask);; reg_or DSP_REG_SR bits.

Definition mask_VC : Z := (1 ≪ DSP_SR_V) .| (1 ≪ DSP_SR_C).
Definition mask_NZV : Z := ((1 ≪ DSP_SR_N) .| (1 ≪ DSP_SR_Z)) .| (1 ≪ DSP_SR_V).
Definition mask_CNZV : Z :=
  (((1 ≪ DSP_SR_C) .| (1 ≪ DSP_SR_N)) .| (1 ≪ DSP_SR_Z)) .| (1 ≪ DSP_SR_V).

(** Bit 3 of the instruction selects the accumulator. *)
Definition dest_bit (inst : Z) : Z := (inst ≫ 3) .& 1.

(** Store the result, update E, U, N and Z from it, then V, C and L from [newsr]. *)
Definition store_vc (numreg : Z) (dest : accu) (newsr : Z) : M unit :=
  set_accu numreg dest;;
  dsp_ccr_update dest;;
  set_sr_bits mask_VC newsr.

(** ** Instructions *)

Definition dsp_abs : M unit :=
  inst ← get_inst;
  let numreg := dest_bit inst in
  dest ← get_accu numreg;
  let overflowed := b2z ((dest.(w2) =? 0) && (dest.(w1) =? 0) && (dest.(w0) =? 0x80)) in
  let dest := (dsp_abs56 dest).2 in
  set_accu numreg dest;;
  set_sr_bits (1 ≪ DSP_SR_V) ((overflowed ≪ DSP_SR_L) .| (overflowed ≪ DSP_SR_V));;
  dsp_ccr_update dest.

Definition dsp_adc : M unit :=
  inst ← get_inst;
  sr ← get_reg DSP_REG_SR;
  let curcarry := (sr ≫ DSP_SR_C) .& 1 in
  let destreg := dest_bit inst in
  dest ← get_accu destreg;
  source ← (if (inst ≫ 4) .& 1 =? 0 then get_long DSP_REG_X1 DSP_REG_X0
            else get_long DSP_REG_Y1 DSP_REG_Y0);
  let '(newsr, dest) := dsp_add56 source dest in
  let '(newsr, dest) :=
    if nz curcarry then
      let '(newsr2, dest) := dsp_add56 (Accu 0 0 1) dest in (newsr .| newsr2, dest)
    else (newsr, dest) in
  store_vc destreg dest newsr.

Definition dsp_add : M unit :=
  inst ← get_inst;
  let destreg := dest_bit inst in
  dest ← get_accu destreg;
  source ← add_source ((inst ≫ 4) .& BITMASK 3) destreg;
  match source with
  | None => mret tt
  | Some source =>
      let '(newsr, dest) := dsp_add56 source dest in
      store_vc destreg dest newsr
  end.

Definition dsp_addl : M unit :=
  inst ← get_inst;
  let numreg := dest_bit inst in
  dest ← get_accu numreg;
  let '(newsr, dest) := dsp_asl56 dest in
  source ← get_accu (numreg .^ 1);
  let '(newsr2, dest) := dsp_add56 source dest in
  store_vc numreg dest (newsr .| newsr2).

Definition dsp_addr : M unit :=
  inst ← get_inst;
  let numreg := dest_bit inst in
  dest ← get_accu numreg;
  let '(newsr, dest) := dsp_asr56 dest in
  source ← get_accu (numreg .^ 1);
  let '(newsr2, dest) := dsp_add56 source dest in
  store_vc numreg dest (newsr .| newsr2).

(** X0, Y0, X1 or Y1, by two bits of the instruction. *)
Definition logic_source (inst : Z) : Z :=
  let sel := (inst ≫ 4) .& BITMASK 2 in
  if sel =? 1 then DSP_REG_Y0 else if sel =? 2 then DSP_REG_X1
  else if sel =? 3 then DSP_REG_Y1 else DSP_REG_X0.

(** N and Z from a 24 bit result. *)
Definition logic_flags (x : Z) : Z := (((x ≫ 23) .& 1) ≪ DSP_SR_N) .| (b2z (x =? 0) ≪ DSP_SR_Z).

Definition dsp_and : M unit :=
  inst ← get_inst;
  let dstreg := DSP_REG_A1 + dest_bit inst in
  d ← get_reg dstreg; s ← get_reg (logic_source inst);
  let r := (d .& s) .& BITMASK 24 in
  set_reg dstreg r;;
  set_sr_bits mask_NZV (logic_flags r).

Definition dsp_asl : M unit :=
  inst ← get_inst;
  let numreg := dest_bit inst in
  dest ← get_accu numreg;
  let '(newsr, dest) := dsp_asl56 dest in
  set_accu numreg dest;;
  set_sr_bits mask_VC newsr;;
  dsp_ccr_update dest.

Definition dsp_asr : M unit :=
  inst ← get_inst;
  let numreg := dest_bit inst in
  dest ← get_accu numreg;
  let '(newsr, dest) := dsp_asr56 dest in
  set_accu numreg dest;;
  set_sr_bits mask_VC newsr;;
  dsp_ccr_update dest.

Definition dsp_clr : M unit :=
  inst ← get_inst;
  set_accu (dest_bit inst) zero_accu;;
  set_sr_bits (((1 ≪ DSP_SR_E) .| (1 ≪ DSP_SR_N)) .| (1 ≪ DSP_SR_V))
              ((1 ≪ DSP_SR_U) .| (1 ≪ DSP_SR_Z)).

Definition dsp_cmp : M unit :=
  inst ← get_inst;
  let destreg := dest_bit inst in
  dest ← get_accu destreg;
  source ← cmp_source ((inst ≫ 4) .& BITMASK 3) destreg;
  match source with
  | None => mret tt
  | Some source =>
      let '(newsr, dest) := dsp_sub56 source dest in
      dsp_ccr_update dest;;
      set_sr_bits mask_VC newsr
  end.

Definition dsp_cmpm : M unit :=
  inst ← get_inst;
  let destreg := dest_bit inst in
  dest ← get_accu destreg;
  let dest := (dsp_abs56 dest).2 in
  source ← cmp_source ((inst ≫ 4) .& BITMASK 3) destreg;
  match source with
  | None => mret tt
  | Some source =>
      let source := (dsp_abs56 source).2 in
      let '(newsr, dest) := dsp_sub56 source dest in
      dsp_ccr_update dest;;
      set_sr_bits mask_VC newsr
  end.

Definition dsp_eor : M unit :=
  inst ← get_inst;
  let dstreg := DSP_REG_A1 + dest_bit inst in
  d ← get_reg dstreg; s ← get_reg (logic_source inst);
  let r := (d .^ s) .& BITMASK 24 in
  set_reg dstreg r;;
  set_sr_bits mask_NZV (logic_flags r).

Definition dsp_lsl : M unit :=
  inst ← get_inst;
  let numreg := DSP_REG_A1 + dest_bit inst in
  d ← get_reg numreg;
  let newcarry := (d ≫ 23) .& 1 in
  let r := u32 (d ≪ 1) .& BITMASK 24 in
  set_reg numreg r;;
  set_sr_bits mask_CNZV (newcarry .| logic_flags r).

Definition dsp_lsr : M unit :=
  inst ← get_inst;
  let numreg := DSP_REG_A1 + dest_bit inst in
  d ← get_reg numreg;
  let newcarry := d .& 1 in
  let r := d ≫ 1 in
  set_reg numreg r;;
  set_sr_bits mask_CNZV (newcarry .| (b2z (r =? 0) ≪ DSP_SR_Z)).

Definition registers_mpy : list (Z * Z) :=
  [(DSP_REG_X0, DSP_REG_X0); (DSP_REG_Y0, DSP_REG_Y0);
   (DSP_REG_X1, DSP_REG_X0); (DSP_REG_Y1, DSP_REG_Y0);
   (DSP_REG_X0, DSP_REG_Y1); (DSP_REG_Y0, DSP_REG_X0);
   (DSP_REG_X1, DSP_REG_Y0); (DSP_REG_Y1, DSP_REG_X1)].

(** The product of MPY and MAC, negated when bit 2 of the instruction is set. *)
Definition mpy_product (inst : Z) : M accu :=
  '(srcreg1, srcreg2) ← table_get registers_mpy ((inst ≫ 4) .& BITMASK 3);
  s1 ← get_reg srcreg1; s2 ← get_reg srcreg2;
  let source := dsp_mul56 s1 s2 in
  mret (if nz (inst .& (1 ≪ 2)) then (dsp_sub56 source zero_accu).2 else source).

Definition dsp_mac : M unit :=
  inst ← get_inst;
  source ← mpy_product inst;
  let destreg := dest_bit inst in
  dest ← get_accu destreg;
  let '(newsr, dest) := dsp_add56 source dest in
  set_accu destreg dest;;
  dsp_ccr_update dest;;
  set_sr_bits (1 ≪ DSP_SR_V) (newsr .& 0xfe).

Definition dsp_macr : M unit :=
  inst ← get_inst;
  source ← mpy_product inst;
  let destreg := dest_bit inst in
  dest ← get_accu destreg;
  let '(newsr, dest) := dsp_add56 source dest in
  sr ← get_reg DSP_REG_SR;
  let dest := dsp_rnd56 sr dest in
  set_accu destreg dest;;
  dsp_ccr_update dest;;
  set_sr_bits (1 ≪ DSP_SR_V) (newsr .& 0xfe).

(** move instruction inside alu opcodes, taken care of by parallel move dispatcher *)
Definition dsp_move : M unit := mret tt.

Definition dsp_mpy : M unit :=
  inst ← get_inst;
  source ← mpy_product inst;
  let destreg := dest_bit inst in
  set_accu destreg source;;
  dest ← get_accu destreg;
  dsp_ccr_update dest;;
  reg_and DSP_REG_SR (BITMASK 16 - (1 ≪ DSP_SR_V)).

Definition dsp_mpyr : M unit :=
  inst ← get_inst;
  source ← mpy_product inst;
  let destreg := dest_bit inst in
  sr ← get_reg DSP_REG_SR;
  let dest := dsp_rnd56 sr source in
  set_accu destreg dest;;
  dsp_ccr_update dest;;
  reg_and DSP_REG_SR (BITMASK 16 - (1 ≪ DSP_SR_V)).

Definition dsp_neg : M unit :=
  inst ← get_inst;
  let srcreg := dest_bit inst in
  source ← get_accu srcreg;
  let overflowed := b2z ((source.(w2) =? 0) && (source.(w1) =? 0) && (source.(w0) =? 0x80)) in
  let dest := (dsp_sub56 source zero_accu).2 in
  set_accu srcreg dest;;
  set_sr_bits (1 ≪ DSP_SR_V) ((overflowed ≪ DSP_SR_L) .| (overflowed ≪ DSP_SR_V));;
  dsp_ccr_update dest.

Definition dsp_nop : M unit := mret tt.

Definition dsp_not : M unit :=
  inst ← get_inst;
  let dstreg := DSP_REG_A1 + dest_bit inst in
  d ← get_reg dstreg;
  let r := not32 d .& BITMASK 24 in
  set_reg dstreg r;;
  set_sr_bits mask_NZV (logic_flags r).

Definition dsp_or : M unit :=
  inst ← get_inst;
  let dstreg := DSP_REG_A1 + dest_bit inst in
  d ← get_reg dstreg; s ← get_reg (logic_source inst);
  let r := (d .| s) .& BITMASK 24 in
  set_reg dstreg r;;
  set_sr_bits mask_NZV (logic_flags r).

Definition dsp_rnd : M unit :=
  inst ← get_inst;
  let numreg := dest_bit inst in
  dest ← get_accu numreg;
  sr ← get_reg DSP_REG_SR;
  let dest := dsp_rnd56 sr dest in
  set_accu numreg dest;;
  dsp_ccr_update dest.

Definition dsp_rol : M unit :=
  inst ← get_inst;
  let dstreg := DSP_REG_A1 + dest_bit inst in
  d ← get_reg dstreg;
  let newcarry := (d ≫ 23) .& 1 in
  let r := (u32 (d ≪ 1) .| newcarry) .& BITMASK 24 in
  set_reg dstreg r;;
  set_sr_bits mask_CNZV (newcarry .| logic_flags r).

Definition dsp_ror : M unit :=
  inst ← get_inst;
  let dstreg := DSP_REG_A1 + dest_bit inst in
  d ← get_reg dstreg;
  let newcarry := d .& 1 in
  let r := ((d ≫ 1) .| (newcarry ≪ 23)) .& BITMASK 24 in
  set_reg dstreg r;;
  set_sr_bits mask_CNZV (newcarry .| logic_flags r).

Definition dsp_sbc : M unit :=
  inst ← get_inst;
  sr ← get_reg DSP_REG_SR;
  let curcarry := (sr ≫ DSP_SR_C) .& 1 in
  let destreg := dest_bit inst in
  dest ← get_accu destreg;
  source ← (if (inst ≫ 4) .& 1 =? 0 then get_long DSP_REG_X1 DSP_REG_X0
            else get_long DSP_REG_Y1 DSP_REG_Y0);
  let '(newsr, dest) := dsp_sub56 source dest in
  let '(newsr, dest) :=
    if nz curcarry then
      let '(newsr2, dest) := dsp_sub56 (Accu 0 0 1) dest in (newsr .| newsr2, dest)
    else (newsr, dest) in
  store_vc destreg dest newsr.

Definition dsp_sub : M unit :=
  inst ← get_inst;
  let destreg := dest_bit inst in
  dest ← get_accu destreg;
  source ← add_source ((inst ≫ 4) .& BITMASK 3) destreg;
  match source with
  | None => mret tt
  | Some source =>
      let '(newsr, dest) := dsp_sub56 source dest in
      store_vc destreg dest newsr
  end.

Definition dsp_subl : M unit :=
  inst ← get_inst;
  let numreg := dest_bit inst in
  dest ← get_accu numreg;
  let '(newsr, dest) := dsp_asl56 dest in
  source ← get_accu (numreg .^ 1);
  let '(newsr2, dest) := dsp_sub56 source dest in
  store_vc numreg dest (newsr .| newsr2).

Definition dsp_subr : M unit :=
  inst ← get_inst;
  let numreg := dest_bit inst in
  dest ← get_accu numreg;
  let '(newsr, dest) := dsp_asr56 dest in
  source ← get_accu (numreg .^ 1);
  let '(newsr2, dest) := dsp_sub56 source dest in
  store_vc numreg dest (newsr .| newsr2).

Definition dsp_tfr : M unit :=
  inst ← get_inst;
  let destreg := dest_bit inst in
  source ← cmp_source ((inst ≫ 4) .& BITMASK 3) destreg;
  match source with
  | None => mret tt
  | Some source => set_accu destreg source
  end.

Definition dsp_tst : M unit :=
  inst ← get_inst;
  dest ← get_accu (dest_bit inst);
  dsp_ccr_update dest;;
  reg_and DSP_REG_SR (BITMASK 16 - (1 ≪ DSP_SR_V)).
