(* ===== verification/Agu.v ===== *)
(** * Address generation (src/src/dsp_cpu.c, "Effective address calculation") *)

From S2P Require Import Prelude DspState HostPort Memory.

(** ** Bit reversed update *)

(** [for (revbits=0;revbits<16;revbits++) if (value & (1<<revbits)) break;] *)
Fixpoint first_set_bit (fuel : nat) (revbits value : Z) : Z :=
  match fuel with
  | O => revbits
  | S fuel =>
      if nz (value .& (1 ≪ revbits)) then revbits
      else first_set_bit fuel (revbits + 1) value
  end.

(** [for (i=0;i<revbits;i++) if (r_reg & (1<<i)) value |= 1<<(revbits-i-1);] *)
Fixpoint reverse_bits (n : nat) (i revbits r_reg value : Z) : Z :=
  match n with
  | O => value
  | S n =>
      reverse_bits n (i + 1) revbits r_reg
        (if nz (r_reg .& (1 ≪ i)) then value .| (1 ≪ (revbits - i - 1)) else value)
  end.

(** The new contents of Rn, from Nn and Rn. *)
Definition bitreverse_step (n_reg r_reg : Z) : Z :=
  (* Check how many bits to reverse *)
  let revbits := first_set_bit 16 0 n_reg + 1 in
  let keep := u32 (BITMASK 16 - BITMASK revbits) in
  let n := Z.to_nat revbits in
  (* Reverse Rn bits *)
  let value := reverse_bits n 0 revbits r_reg (r_reg .& keep) in
  (* Increment *)
  let value := u32 (value + 1) .& BITMASK revbits in
  (* Reverse Rn bits *)
  let r_reg := (r_reg .& keep) .| value in
  reverse_bits n 0 revbits r_reg (r_reg .& keep).

Definition dsp_update_rn_bitreverse (numreg : Z) : M unit :=
  n_reg ← get_reg (DSP_REG_N0 + numreg);
  r_reg ← get_reg (DSP_REG_R0 + numreg);
  set_reg (DSP_REG_R0 + numreg) (bitreverse_step n_reg r_reg).

(** ** Modulo update *)

(** [while (bufsize < modulo) { bufsize <<= 1; bufmask <<= 1; }] *)
Fixpoint modulo_bufsize (fuel : nat) (modulo bufsize bufmask : Z) : option (Z * Z) :=
  if bufsize <? modulo then
    match fuel with
    | O => None
    | S fuel => modulo_bufsize fuel modulo (u16 (bufsize ≪ 1)) (u16 (bufmask ≪ 1))
    end
  else Some (bufsize, bufmask).

(** [while (modifier>bufsize) { r_reg += bufsize; modifier -= bufsize; }] *)
Fixpoint modulo_down (fuel : nat) (bufsize r_reg modifier : Z) : option (Z * Z) :=
  if bufsize <? modifier then
    match fuel with
    | O => None
    | S fuel => modulo_down fuel bufsize (s16 (r_reg + bufsize)) (s16 (modifier - bufsize))
    end
  else Some (r_reg, modifier).

(** [while (modifier<-bufsize) { r_reg -= bufsize; modifier += bufsize; }] *)
Fixpoint modulo_up (fuel : nat) (bufsize r_reg modifier : Z) : option (Z * Z) :=
  if modifier <? - bufsize then
    match fuel with
    | O => None
    | S fuel => modulo_up fuel bufsize (s16 (r_reg - bufsize)) (s16 (modifier + bufsize))
    end
  else Some (r_reg, modifier).

(** The new contents of Rn, from Mn, Rn and the modifier; [None] when a loop
    needs more iterations than the model gives it. *)
Definition modulo_step (m_reg r_value modifier : Z) : option Z :=
  let orig_modifier := modifier in
  let modulo := u16 (m_reg + 1) in
  '(bufsize, bufmask) ← modulo_bufsize 16 modulo 1 (BITMASK 16);
  let lobound := u16 (r_value .& bufmask) in
  let hibound := u16 (lobound + modulo - 1) in
  let r_reg := s16 r_value in
  '(r_reg, modifier) ←
    (if modulo <? orig_modifier then
       '(r_reg, modifier) ← modulo_down (Z.to_nat modifier) bufsize r_reg modifier;
       modulo_up (Z.to_nat (- modifier)) bufsize r_reg modifier
     else Some (r_reg, modifier));
  let r_reg := s16 (r_reg + modifier) in
  let r_reg :=
    if negb (orig_modifier =? modulo) then
      if hibound <? r_reg then s16 (r_reg - modulo)
      else if r_reg <? lobound then s16 (r_reg + modulo)
      else r_reg
    else r_reg in
  Some (u32 r_reg .& BITMASK 16).

Definition dsp_update_rn_modulo (numreg modifier : Z) : M unit :=
  m_reg ← get_reg (DSP_REG_M0 + numreg);
  r_reg ← get_reg (DSP_REG_R0 + numreg);
  match modulo_step m_reg r_reg modifier with
  | Some r => set_reg (DSP_REG_R0 + numreg) r
  | None => fail OutOfFuel
  end.

(** ** Address register update *)

Definition dsp_update_rn (numreg modifier : Z) : M unit :=
  let modifier := s16 modifier in
  m ← get_reg (DSP_REG_M0 + numreg);
  let m_reg := u16 m in
  if m_reg =? 0 then
    (* Bit reversed carry update *)
    dsp_update_rn_bitreverse numreg
  else if (1 <=? m_reg) && (m_reg <=? 32767) then
    (* Modulo update *)
    dsp_update_rn_modulo numreg modifier
  else if m_reg =? 65535 then
    (* Linear addressing mode *)
    r ← get_reg (DSP_REG_R0 + numreg);
    let value := s16 (s16 r + modifier) in
    set_reg (DSP_REG_R0 + numreg) (u32 value .& BITMASK 16)
  else
    (* Undefined *)
    mret tt.

(** ** Effective address

    The value of [*dst_addr], with 1 when it is an immediate value and 0 when it
    is an address. *)
Definition dsp_calc_ea (ea_mode : Z) : M (Z * Z) :=
  let value := (ea_mode ≫ 3) .& BITMASK 3 in
  let numreg := ea_mode .& BITMASK 3 in
  let r := DSP_REG_R0 + numreg in
  let n := DSP_REG_N0 + numreg in
  if value =? 0 then
    (* (Rx)-Nx *)
    dst ← get_reg r; nx ← get_reg n;
    dsp_update_rn numreg (u32 (- nx));; mret (0, dst)
  else if value =? 1 then
    (* (Rx)+Nx *)
    dst ← get_reg r; nx ← get_reg n;
    dsp_update_rn numreg nx;; mret (0, dst)
  else if value =? 2 then
    (* (Rx)- *)
    dst ← get_reg r; dsp_update_rn numreg (-1);; mret (0, dst)
  else if value =? 3 then
    (* (Rx)+ *)
    dst ← get_reg r; dsp_update_rn numreg 1;; mret (0, dst)
  else if value =? 4 then
    (* (Rx) *)
    dst ← get_reg r; mret (0, dst)
  else if value =? 5 then
    (* (Rx+Nx) *)
    curreg ← get_reg r; nx ← get_reg n;
    dsp_update_rn numreg nx;;
    dst ← get_reg r;
    set_reg r curreg;; mret (0, dst)
  else if value =? 6 then
    (* aa *)
    pc ← get_pc;
    dst ← read_memory_p (pc + 1);
    len ← get_inst_len;
    set_inst_len (u32 (len + 1));;
    mret (if negb (numreg =? 0) then 1 (* immediate value *) else 0, dst)
  else
    (* -(Rx) *)
    dsp_update_rn numreg (-1);;
    dst ← get_reg r; mret (0, dst).

(** ** Loops of the address generation *)

Lemma pow2_range k : 0 <= k <= 16 → 1 <= 2 ^ k <= 65536.
Proof.
  intros. split; [pose proof (Z.pow_pos_nonneg 2 k); lia|].
  change 65536 with (2 ^ 16). apply Z.pow_le_mono_r; lia.
Qed.

(** The buffer size loop finds the first power of two that holds the modulo. *)
Lemma modulo_bufsize_spec fuel modulo k :
  0 <= k → 15 <= k + Z.of_nat fuel → 1 <= modulo <= 32768 → k <= 15 →
  ∃ k', modulo_bufsize fuel modulo (2 ^ k) (65536 - 2 ^ k) = Some (2 ^ k', 65536 - 2 ^ k') ∧
    k <= k' <= 15 ∧ modulo <= 2 ^ k' ∧ (k' = k ∨ 2 ^ (k' - 1) < modulo).
Proof.
  revert k. induction fuel as [|fuel IH]; intros k Hk Hf Hm Hk15; cbn [modulo_bufsize].
  - assert (k = 15) as -> by lia. change (2 ^ 15) with 32768.
    destruct (Z.ltb_spec 32768 modulo); [lia|]. exists 15. change (2 ^ 15) with 32768.
    split; [done|]. split; [lia|]. split; [lia|]. by left.
  - destruct (Z.ltb_spec (2 ^ k) modulo).
    + destruct (decide (k = 15)) as [->|]; [change (2 ^ 15) with 32768 in *; lia|].
      pose proof (pow2_range (k + 1)). rewrite Z.pow_add_r in * by lia. change (2 ^ 1) with 2 in *.
      rewrite !shl_mul by lia. change (2 ^ 1) with 2.
      assert (u16 (2 ^ k * 2) = 2 ^ (k + 1)) as ->
        by (rewrite Z.pow_add_r by lia; apply u16_small;
            pose proof (Z.pow_le_mono_r 2 (k + 1) 15); rewrite Z.pow_add_r in * by lia;
            change (2 ^ 15) with 32768 in *; change (2 ^ 1) with 2 in *; lia).
      assert (u16 ((65536 - 2 ^ k) * 2) = 65536 - 2 ^ (k + 1)) as ->.
      { rewrite Z.pow_add_r by lia. change (2 ^ 1) with 2. unfold u16.
        symmetry. apply (Z.mod_unique _ _ 1); lia. }
      destruct (IH (k + 1)) as (k' & E & ? & ? & Hlt); [lia..|].
      exists k'. split; [done|]. split; [lia|]. split; [done|]. right.
      destruct Hlt as [->|]; [|done]. by replace (k + 1 - 1) with k by lia.
    + exists k. split; [done|]. split; [lia|]. split; [lia|]. by left.
Qed.

Lemma modulo_down_spec fuel bufsize r m :
  1 <= bufsize → -32768 <= m <= 32767 → m <= Z.of_nat fuel →
  ∃ q r' m', modulo_down fuel bufsize r m = Some (r', m') ∧
    m' = m - q * bufsize ∧ 0 <= q ∧ m' <= bufsize ∧ (q = 0 ∨ 0 < m') ∧
    (q = 0 → r' = r) ∧ r' mod 65536 = (r + q * bufsize) mod 65536.
Proof.
  revert r m. induction fuel as [|fuel IH]; intros r m Hb Hm Hf; cbn [modulo_down].
  - destruct (Z.ltb_spec bufsize m); [lia|]. exists 0, r, m.
    rewrite Z.mul_0_l, Z.add_0_r. split; [done|]. lia.
  - destruct (Z.ltb_spec bufsize m).
    + rewrite (s16_small (m - bufsize)) by lia.
      destruct (IH (s16 (r + bufsize)) (m - bufsize)) as (q & r' & m' & E & -> & Hq & ? & ? & ? & Er);
        [lia..|].
      exists (q + 1), r', (m - bufsize - q * bufsize). split; [done|].
      split; [lia|]. split; [lia|]. split; [done|]. split; [lia|]. split; [lia|].
      rewrite Er, <- Z.add_mod_idemp_l, s16_mod, Z.add_mod_idemp_l by lia.
      f_equal. lia.
    + exists 0, r, m. rewrite Z.mul_0_l, Z.add_0_r. split; [done|]. lia.
Qed.

(** The second loop of the modulo update never runs: it is inside the test for
    a modifier above the (positive) modulo. *)
Lemma modulo_up_id fuel bufsize r m : 1 <= bufsize → 0 <= m → modulo_up fuel bufsize r m = Some (r, m).
Proof.
  intros. destruct fuel; cbn [modulo_up]; destruct (Z.ltb_spec m (- bufsize)); (done || lia).
Qed.

Lemma s16_range x : -32768 <= s16 x <= 32767.
Proof. unfold s16. Z.div_mod_to_equations. lia. Qed.

Lemma modulo_range m : 1 <= u16 m <= 32767 → 1 <= u16 (m + 1) <= 32768.
Proof. unfold u16. Z.div_mod_to_equations. lia. Qed.

(** The modulo update always returns, with a 16 bit address. *)
Lemma modulo_step_total m_reg r_value modifier :
  1 <= u16 (m_reg + 1) <= 32768 → -32768 <= modifier <= 32767 →
  ∃ r, modulo_step m_reg r_value modifier = Some r ∧ in_u 16 r.
Proof.
  intros Hm Hmod. unfold modulo_step.
  destruct (modulo_bufsize_spec 16 (u16 (m_reg + 1)) 0) as (k & Ek & Hk & _); [lia..|].
  change (2 ^ 0) with 1 in Ek. change (65536 - 1) with (BITMASK 16) in Ek.
  pose proof (pow2_range k ltac:(lia)). rewrite Ek. cbn [mbind option_bind].
  destruct (Z.ltb_spec (u16 (m_reg + 1)) modifier).
  - destruct (modulo_down_spec (Z.to_nat modifier) (2 ^ k) (s16 r_value) modifier)
      as (q & r' & m' & Ed & -> & Hq & ? & Hpos & ? & ?); [lia..|].
    rewrite Ed. cbn [mbind option_bind]. rewrite modulo_up_id by lia. cbn [mbind option_bind].
    eexists. split; [done|]. bounds.
  - cbn [mbind option_bind]. eexists. split; [done|]. bounds.
Qed.

Lemma reverse_bits_range n : ∀ i revbits r value,
  revbits <= 32 → 0 <= i → Z.of_nat n <= revbits - i →
  in_u 32 value → in_u 32 (reverse_bits n i revbits r value).
Proof.
  induction n as [|n IH]; intros i revbits r value Hb Hi Hn Hv; cbn [reverse_bits]; [done|].
  apply IH; [lia..|]. destruct (nz _); [|done].
  apply in_u_lor; [done| |lia]. apply in_u_shl; [lia| |lia].
  unfold in_u. change (32 - (revbits - i - 1)) with (32 - (revbits - i - 1)).
  pose proof (Z.pow_le_mono_r 2 1 (32 - (revbits - i - 1))). lia.
Qed.

Lemma first_set_bit_range fuel i v :
  0 <= i → i <= first_set_bit fuel i v <= i + Z.of_nat fuel.
Proof.
  revert i. induction fuel as [|fuel IH]; intros i Hi; cbn [first_set_bit]; [lia|].
  destruct (nz _); [lia|]. specialize (IH (i + 1)). lia.
Qed.

Lemma bitreverse_step_range n_reg r_reg : in_u 32 r_reg → in_u 32 (bitreverse_step n_reg r_reg).
Proof.
  intros Hr. unfold bitreverse_step.
  pose proof (first_set_bit_range 16 0 n_reg ltac:(lia)).
  set (revbits := first_set_bit 16 0 n_reg + 1). assert (1 <= revbits <= 17) by lia.
  assert (∀ x y, in_u 32 x → in_u 32 (reverse_bits (Z.to_nat revbits) 0 revbits y x)) as Hrev
    by (intros; apply reverse_bits_range; lia || done).
  apply Hrev, in_u_land_l; [|lia]. apply in_u_lor; [|bounds|lia]. apply in_u_land_l; [done|lia].
Qed.
