(* ===== verification/ParMove.v ===== *)
(** * Parallel moves (src/src/dsp_cpu.c, "Parallel moves instructions dispatcher")

    [dsp_parmove_read] fetches the operands of up to two moves into the
    [tmp_parmove_*] buffers before the arithmetic instruction runs,
    [dsp_parmove_write] stores them afterwards. *)

From S2P Require Import Prelude DspState HostPort Memory Arith56 Ccr Alu Agu.

Definition registers_lmove : list (Z * Z) :=
  [(DSP_REG_A1, DSP_REG_A0); (DSP_REG_B1, DSP_REG_B0);
   (DSP_REG_X1, DSP_REG_X0); (DSP_REG_Y1, DSP_REG_Y0);
   (DSP_REG_A, DSP_REG_A); (DSP_REG_B, DSP_REG_B);
   (DSP_REG_A, DSP_REG_B); (DSP_REG_B, DSP_REG_A)].

Definition registers_mask : list Z :=
  [0; 0; 0; 0; 24; 24; 24; 24; 24; 24; 8; 8; 24; 24; 24; 24;
   16; 16; 16; 16; 16; 16; 16; 16; 16; 16; 16; 16; 16; 16; 16; 16;
   16; 16; 16; 16; 16; 16; 16; 16; 0; 0; 0; 0; 0; 0; 0; 0;
   0; 0; 0; 0; 0; 0; 0; 0; 0; 16; 8; 6; 6; 6; 16; 16].

(** [BITMASK(registers_mask[numreg])] *)
Definition reg_bitmask (numreg : Z) : M Z := k ← table_get registers_mask numreg; mret (BITMASK k).

Definition is_accu (numreg : Z) : bool := (numreg =? DSP_REG_A) || (numreg =? DSP_REG_B).

(** ** Reading an accumulator through the limiter *)

(** Whether accumulator word pair (A2, A1) exceeds 24 bits in a scaling mode. *)
Definition accu24_fits (sr a2 a1 : Z) : bool :=
  let scaling := (sr ≫ DSP_SR_S0) .& BITMASK 2 in
  let value := a2 .& 0xff in
  let '(value, numbits) :=
    if scaling =? 0 then ((value ≪ 1) .| ((a1 ≫ 23) .& 1), 9)
    else if scaling =? 2 then ((value ≪ 2) .| ((a1 ≫ 22) .& 3), 10)
    else (value, 8) in
  (value =? 0) || (value =? BITMASK numbits).

(** [dest] stores through the pointer argument, which may point to SR itself.
    The result is [got_limited] and the value that was stored. *)
Definition dsp_pm_read_accu24 (numreg : Z) (dest : Z → M unit) : M (bool * Z) :=
  sr ← get_reg DSP_REG_SR;
  let numreg := numreg .& 1 in
  a2 ← get_reg (DSP_REG_A2 + numreg);
  a1 ← get_reg (DSP_REG_A1 + numreg);
  if accu24_fits sr a2 a1 then
    (* No limiting *)
    dest a1;; mret (false, a1)
  else if nz (a2 .& (1 ≪ 7)) then
    (* Limited to maximum negative value *)
    dest 0x00800000;;
    reg_or DSP_REG_SR (1 ≪ DSP_SR_L);; mret (true, 0x00800000)
  else
    (* Limited to maximal positive value *)
    dest 0x007fffff;;
    reg_or DSP_REG_SR (1 ≪ DSP_SR_L);; mret (true, 0x007fffff).

(** The pointer argument is a local variable of the caller. *)
Definition no_dest (_ : Z) : M unit := mret tt.

(** ** Setting up a move *)

Definition dsp_pm_writereg (numreg position : Z) : M unit :=
  if is_accu numreg then
    set_pm_dest position 0 (host_pointer (DSP_REG_A2 + numreg .& 1));;
    set_pm_dest position 1 (host_pointer (DSP_REG_A1 + numreg .& 1));;
    set_pm_dest position 2 (host_pointer (DSP_REG_A0 + numreg .& 1));;
    set_pm_start position 0;;
    set_pm_len position 3
  else
    set_pm_dest position 1 (host_pointer numreg);;
    set_pm_start position 1;;
    set_pm_len position 1.

(** A 24 bit value bound for register [numreg], sign extended. *)
Definition pm_source (position numreg value : Z) : M unit :=
  set_pm_src position 0 (sign_word value);;
  m ← reg_bitmask numreg;
  set_pm_src position 1 (value .& m);;
  set_pm_src position 2 0x000000.

(** Write register [numreg] with [value]. *)
Definition pm_to_reg (position numreg value : Z) : M unit :=
  pm_source position numreg value;;
  dsp_pm_writereg numreg position;;
  set_pm_type position 0.

(** Write one word to memory. *)
Definition pm_to_mem (position memspace addr : Z) : M unit :=
  set_pm_dest position 1 (dsp_address addr);;
  set_pm_start position 1;;
  set_pm_len position 1;;
  set_pm_type position 1;;
  set_pm_space position memspace.

(** Read register [numreg], an accumulator through the limiter. *)
Definition pm_from_reg (position numreg : Z) : M unit :=
  if is_accu numreg then
    dsp_pm_read_accu24 numreg (set_pm_src position 1);; mret tt
  else
    v ← get_reg numreg; set_pm_src position 1 v.

(** ** The move types *)

(** 0000 100d 00mm mrrr S,x:ea x0,D -- 0000 100d 10mm mrrr S,y:ea y0,D *)
Definition dsp_pm_0 : M unit :=
  inst ← get_inst;
  let memspace := (inst ≫ 15) .& 1 in
  let numreg := (inst ≫ 16) .& 1 in
  '(_, dummy) ← dsp_calc_ea ((inst ≫ 8) .& BITMASK 6);
  (* [A|B] to [x|y]:ea *)
  dsp_pm_read_accu24 numreg (set_pm_src 0 1);;
  pm_to_mem 0 memspace dummy;;
  (* [x|y]0 to [A|B] *)
  value ← get_reg (DSP_REG_X0 + memspace ≪ 1);
  set_pm_src 1 0 (sign_word value);;
  set_pm_src 1 1 value;;
  set_pm_src 1 2 0x000000;;
  set_pm_dest 1 0 (host_pointer (DSP_REG_A2 + numreg));;
  set_pm_dest 1 1 (host_pointer (DSP_REG_A1 + numreg));;
  set_pm_dest 1 2 (host_pointer (DSP_REG_A0 + numreg));;
  set_pm_start 1 0;;
  set_pm_len 1 3;;
  set_pm_type 1 0.

(** One of four registers by two bits of the instruction. *)
Definition sel4 (sel r0 r1 r2 r3 : Z) : Z :=
  if sel =? 0 then r0 else if sel =? 1 then r1 else if sel =? 2 then r2 else r3.
Definition sel_x (sel : Z) : Z := sel4 sel DSP_REG_X0 DSP_REG_X1 DSP_REG_A DSP_REG_B.
Definition sel_y (sel : Z) : Z := sel4 sel DSP_REG_Y0 DSP_REG_Y1 DSP_REG_A DSP_REG_B.

(** 0001 ffdf w0mm mrrr x:ea,D1 S2,D2 -- 0001 deff w1mm mrrr S1,D1 y:ea,D2 *)
Definition dsp_pm_1 : M unit :=
  inst ← get_inst;
  '(retour, xy_addr) ← dsp_calc_ea ((inst ≫ 8) .& BITMASK 6);
  let memspace := (inst ≫ 14) .& 1 in
  let numreg := if nz memspace then sel_y ((inst ≫ 16) .& BITMASK 2)
                else sel_x ((inst ≫ 18) .& BITMASK 2) in
  (if nz (inst .& (1 ≪ 15)) then
    (* Write D1 *)
    value ← (if nz retour then mret xy_addr else read_memory memspace xy_addr);
    pm_to_reg 0 numreg value
  else
    (* Read S1 *)
    pm_from_reg 0 numreg;;
    pm_to_mem 0 memspace xy_addr);;
  (* S2 *)
  let numreg := if nz memspace then DSP_REG_A + (inst ≫ 19) .& 1
                else DSP_REG_A + (inst ≫ 17) .& 1 in
  dsp_pm_read_accu24 numreg (set_pm_src 1 1);;
  (* D2 *)
  let numreg := if nz memspace then DSP_REG_X0 + (inst ≫ 18) .& 1
                else DSP_REG_Y0 + (inst ≫ 16) .& 1 in
  v ← get_pm_src 1 1;
  m ← reg_bitmask numreg;
  set_pm_src 1 1 (v .& m);;
  set_pm_dest 1 1 (host_pointer numreg);;
  set_pm_start 1 1;;
  set_pm_len 1 1;;
  set_pm_type 1 0.

(** 001d dddd iiii iiii #xx,R *)
Definition dsp_pm_3 : M unit :=
  inst ← get_inst;
  let dest := (inst ≫ 16) .& BITMASK 5 in
  let srcvalue := (inst ≫ 8) .& BITMASK 8 in
  let srcvalue :=
    if (dest =? DSP_REG_X0) || (dest =? DSP_REG_X1) || (dest =? DSP_REG_Y0)
       || (dest =? DSP_REG_Y1) || (dest =? DSP_REG_A) || (dest =? DSP_REG_B)
    then srcvalue ≪ 16 else srcvalue in
  set_pm_src 0 0 (if is_accu dest then sign_word srcvalue else 0x000000);;
  m ← reg_bitmask dest;
  set_pm_src 0 1 (srcvalue .& m);;
  set_pm_src 0 2 0x000000;;
  dsp_pm_writereg dest 0;;
  set_pm_type 0 0.

(** 0010 00ee eeed dddd S,D *)
Definition dsp_pm_2_2 : M unit :=
  inst ← get_inst;
  let srcreg := (inst ≫ 13) .& BITMASK 5 in
  let dstreg := (inst ≫ 8) .& BITMASK 5 in
  set_pm_src 0 2 0x000000;; set_pm_src 0 1 0x000000;; set_pm_src 0 0 0x000000;;
  (if is_accu srcreg then
    (* Accu to register or accu: limited 24 bits *)
    dsp_pm_read_accu24 srcreg (set_pm_src 0 1);;
    v ← get_pm_src 0 1;
    when (nz (v .& (1 ≪ 23))) (set_pm_src 0 0 0x0000ff)
  else
    v ← get_reg srcreg;
    m ← reg_bitmask srcreg;
    set_pm_src 0 1 (v .& m);;
    if is_accu dstreg then
      (* Register to accu: sign extended to 56 bits *)
      when (nz ((v .& m) .& (1 ≪ 23))) (set_pm_src 0 0 0x0000ff)
    else
      (* Register to register: n bits *)
      mret tt);;
  dsp_pm_writereg dstreg 0;;
  set_pm_type 0 0.

Definition dsp_pm_2 : M unit :=
  inst ← get_inst;
  (* 0010 0000 0000 0000 nop *)
  if (inst ≫ 8) .& 0xffff =? 0x2000 then mret tt
  (* 0010 0000 010m mrrr R update *)
  else if (inst ≫ 8) .& 0xffe0 =? 0x2040 then
    dsp_calc_ea ((inst ≫ 8) .& BITMASK 5);; mret tt
  (* 0010 00ee eeed dddd S,D *)
  else if (inst ≫ 8) .& 0xfc00 =? 0x2000 then dsp_pm_2_2
  (* 001d dddd iiii iiii #xx,D *)
  else dsp_pm_3.

(** 0100 l0ll w0aa aaaa l:aa,D S,l:aa -- 0100 l0ll w1mm mrrr l:ea,D S,l:ea *)
Definition dsp_pm_4x (l_addr : Z) : M unit :=
  inst ← get_inst;
  let l_addr := l_addr .& BITMASK 16 in
  let numreg := ((inst ≫ 16) .& BITMASK 2) .| ((inst ≫ 17) .& (1 ≪ 2)) in
  '(reg0, reg1) ← table_get registers_lmove numreg;
  if nz (inst .& (1 ≪ 15)) then
    (* Write D *)
    value ← read_memory DSP_SPACE_X l_addr;
    pm_source 0 reg0 value;;
    value ← read_memory DSP_SPACE_Y l_addr;
    (if reg0 =? reg1 then
      (* Write to 56bit accumulator, setup a single transfer as 56 bit *)
      m ← reg_bitmask reg1; set_pm_src 0 2 (value .& m)
    else
      (* Writes to 24bit registers, setup second 24 bit transfer *)
      pm_source 1 reg1 value);;
    (* Destinations *)
    dsp_pm_writereg reg0 0;;
    set_pm_type 0 0;;
    when (negb (reg0 =? reg1)) (
      (* Two 24 or 56 bits registers *)
      dsp_pm_writereg reg1 1;;
      set_pm_type 1 0)
  else
    (* Read S *)
    (if numreg <? 4 then
      (* Two 24 bits tranfers *)
      v0 ← get_reg reg0; set_pm_src 0 1 v0;;
      v1 ← get_reg reg1; set_pm_src 1 1 v1
    else if numreg <? 6 then
      (* Single accumulator transfer *)
      '(limited, v) ← dsp_pm_read_accu24 reg0 (set_pm_src 0 1);
      if (limited : bool) then
        (* Was limited, set lower part *)
        set_pm_src 1 1 (if nz (v .& (1 ≪ 23)) then 0 else 0xffffff)
      else
        (* Not limited *)
        lo ← get_reg (DSP_REG_A0 + reg0 .& 1); set_pm_src 1 1 lo
    else
      (* Two accumulators tranfers *)
      dsp_pm_read_accu24 reg0 (set_pm_src 0 1);;
      dsp_pm_read_accu24 reg1 (set_pm_src 1 1);; mret tt);;
    (* D1 *)
    pm_to_mem 0 DSP_SPACE_X l_addr;;
    (* D2 *)
    pm_to_mem 1 DSP_SPACE_Y l_addr.

(** 01dd 0ddd w.. .... x:,D S,x: #xxxxxx,D -- 01dd 1ddd w.. .... y:,D S,y: #xxxxxx,D *)
Definition dsp_pm_5 : M unit :=
  inst ← get_inst;
  let value := (inst ≫ 8) .& BITMASK 6 in
  '(retour, xy_addr) ← (if nz (inst .& (1 ≪ 14)) then dsp_calc_ea value else mret (0, value));
  let memspace := (inst ≫ 19) .& 1 in
  let numreg := ((inst ≫ 16) .& BITMASK 3) .| ((inst ≫ 17) .& (BITMASK 2 ≪ 3)) in
  if nz (inst .& (1 ≪ 15)) then
    (* Write D *)
    value ← (if nz retour then mret xy_addr else read_memory memspace xy_addr);
    pm_to_reg 0 numreg value
  else
    (* Read S *)
    pm_from_reg 0 numreg;;
    pm_to_mem 0 memspace xy_addr.

Definition dsp_pm_4 : M unit :=
  inst ← get_inst;
  let value := ((inst ≫ 16) .& BITMASK 3) .| ((inst ≫ 17) .& (BITMASK 2 ≪ 3)) in
  if value ≫ 2 =? 0 then
    let value := (inst ≫ 8) .& BITMASK 6 in
    '(_, l_addr) ← (if nz (inst .& (1 ≪ 14)) then dsp_calc_ea value else mret (0, value));
    dsp_pm_4x l_addr
  else dsp_pm_5.

(** The two effective addresses of an X: Y: move. *)
Definition pm_8_ea (inst : Z) : Z * Z :=
  let ea1 := (inst ≫ 8) .& BITMASK 5 in
  let ea1 := if ea1 ≫ 3 =? 0 then ea1 .| (1 ≪ 5) else ea1 in
  let ea2 := ((inst ≫ 13) .& BITMASK 2) .| ((inst ≫ 17) .& (BITMASK 2 ≪ 3)) in
  let ea2 := if ea1 .& (1 ≪ 2) =? 0 then ea2 .| (1 ≪ 2) else ea2 in
  let ea2 := if ea2 ≫ 3 =? 0 then ea2 .| (1 ≪ 5) else ea2 in
  (ea1, ea2).

(** 1wmm eeff WrrM MRRR x:ea,D1 y:ea,D2 and the three other directions *)
Definition dsp_pm_8 : M unit :=
  inst ← get_inst;
  let '(ea1, ea2) := pm_8_ea inst in
  '(_, dummy1) ← dsp_calc_ea ea1;
  '(_, dummy2) ← dsp_calc_ea ea2;
  let numreg1 := sel_x ((inst ≫ 18) .& BITMASK 2) in
  let numreg2 := sel_y ((inst ≫ 16) .& BITMASK 2) in
  (if nz (inst .& (1 ≪ 15)) then
    (* Write D1 *)
    value ← read_memory DSP_SPACE_X dummy1;
    pm_to_reg 0 numreg1 value
  else
    (* Read S1 *)
    pm_from_reg 0 numreg1;;
    pm_to_mem 0 DSP_SPACE_X dummy1);;
  if nz (inst .& (1 ≪ 22)) then
    (* Write D2 *)
    value ← read_memory DSP_SPACE_Y dummy2;
    pm_to_reg 1 numreg2 value
  else
    (* Read S2 *)
    pm_from_reg 1 numreg2;;
    pm_to_mem 1 DSP_SPACE_Y dummy2.

(** ** Dispatcher *)

Definition opcodes_parmove : list (M unit) :=
  [dsp_pm_0; dsp_pm_1; dsp_pm_2; dsp_pm_3; dsp_pm_4; dsp_pm_5; dsp_pm_5; dsp_pm_5;
   dsp_pm_8; dsp_pm_8; dsp_pm_8; dsp_pm_8; dsp_pm_8; dsp_pm_8; dsp_pm_8; dsp_pm_8].

Definition dsp_parmove_read : M unit :=
  set_pm_len 1 0;; set_pm_len 0 0;;
  inst ← get_inst;
  (* Calculate needed parallel moves *)
  let value := (inst ≫ 20) .& BITMASK 4 in
  (* Do parallel move read *)
  call_table opcodes_parmove value.

(** Store word [j] of move [i]. *)
Definition parmove_write_word (i j : Z) : M unit :=
  check i 2;; check j 3;;
  p ← gets parmove;
  let src := aget p.(tmp_parmove_src) (i, j) in
  match p.(tmp_parmove_dest) !! (i, j), nz (aget p.(tmp_parmove_type) i) with
  | Some (dsp_address addr), true =>
      (* Write to memory *)
      write_memory (aget p.(tmp_parmove_space) i) addr src
  | Some (host_pointer numreg), false =>
      (* Write to register *)
      set_reg numreg src
  | _, _ => fail WrongUnionMember
  end.

Definition parmove_write_move (i : Z) : M unit :=
  len ← gets (λ s, aget s.(parmove).(tmp_parmove_len) i);
  start ← gets (λ s, aget s.(parmove).(tmp_parmove_start) i);
  (* Do parallel move write *)
  for_loop (Z.to_nat len) start (λ j _, parmove_write_word i j) tt.

Definition dsp_parmove_write : M unit := parmove_write_move 0;; parmove_write_move 1.

(** move instruction outside alu opcodes *)
Definition dsp_move_pm : M unit := dsp_parmove_read;; dsp_parmove_write.
