(* ===== verification/Control.v ===== *)
(** * Instructions without parallel moves (src/src/dsp_cpu.c, "Non-parallel moves
    instructions") *)

From S2P Require Import Prelude DspState HostPort Memory Arith56 Ccr Alu Agu ParMove.

Definition dsp_undefined : M unit := set_inst_len 0.

Definition dsp_andi : M unit :=
  inst ← get_inst;
  let value := (inst ≫ 8) .& BITMASK 8 in
  let regnum := inst .& BITMASK 2 in
  (* mr *)
  if regnum =? 0 then reg_and DSP_REG_SR ((value ≪ 8) .| BITMASK 8)
  (* ccr *)
  else if regnum =? 1 then reg_and DSP_REG_SR ((BITMASK 8 ≪ 8) .| value)
  (* omr *)
  else if regnum =? 2 then reg_and DSP_REG_OMR value
  else mret tt.

(** ** Bit manipulation *)

(** The register a bit instruction works on: A1 and B1 stand for A and B. *)
Definition bit_reg (numreg : Z) : Z :=
  if is_accu numreg then DSP_REG_A1 + numreg .& 1 else numreg.

(** The address of the aa, ea and pp forms ([None] for the register form). *)
Definition bit_addr (inst : Z) : M (option Z) :=
  let value := (inst ≫ 8) .& BITMASK 6 in
  let form := (inst ≫ 14) .& BITMASK 2 in
  if form =? 0 then mret (Some value)
  else if form =? 1 then '(_, addr) ← dsp_calc_ea value; mret (Some addr)
  else if form =? 2 then mret (Some (0xffc0 + value))
  else mret None.

(** BCHG, BCLR, BSET and BTST: [update value bit newcarry], with [bit] for [1<<numbit], is the value
    written back, if one is, and [ext newcarry] what the extension register of A or B
    gets when bit 23 changes. *)
Definition bit_instruction (update : option (Z → Z → Z → Z)) (ext : option (Z → Z)) : M unit :=
  inst ← get_inst;
  let memspace := (inst ≫ 6) .& 1 in
  let value := (inst ≫ 8) .& BITMASK 6 in
  let numbit := inst .& BITMASK 5 in
  addr ← bit_addr inst;
  newcarry ←
    match addr with
    | Some addr =>
        v ← read_memory memspace addr;
        let newcarry := (v ≫ numbit) .& 1 in
        match update with
        | Some f => bit ← int_bit numbit; write_memory memspace addr (f v bit newcarry)
        | None => mret tt
        end;;
        mret newcarry
    | None =>
        let srcreg := value in
        let numreg := bit_reg srcreg in
        v ← get_reg numreg;
        let newcarry := (v ≫ numbit) .& 1 in
        match update with
        | Some f => bit ← int_bit numbit; set_reg numreg (f v bit newcarry)
        | None => mret tt
        end;;
        match ext with
        | Some e =>
            when (is_accu srcreg && (numbit =? 23))
              (set_reg (DSP_REG_A2 + srcreg .& 1) (e newcarry))
        | None => mret tt
        end;;
        mret newcarry
    end;
  (* Set carry *)
  set_sr_bits (1 ≪ DSP_SR_C) (newcarry ≪ DSP_SR_C).

Definition dsp_bchg : M unit :=
  bit_instruction
    (Some (λ value bit newcarry,
       if nz newcarry then u32 (value - bit) else u32 (value + bit)))
    (Some (λ newcarry, if nz newcarry then 0x00 else 0xff)).

Definition dsp_bclr : M unit :=
  bit_instruction (Some (λ value bit _, value .& (0xffffffff - bit)))
                  (Some (λ _, 0x00)).

Definition dsp_bset : M unit :=
  bit_instruction (Some (λ value bit _, value .| bit)) (Some (λ _, 0xff)).

Definition dsp_btst : M unit := bit_instruction None None.

(** ** DIV *)

Definition dsp_div : M unit :=
  inst ← get_inst;
  let srcreg := sel4 ((inst ≫ 4) .& BITMASK 2) DSP_REG_X0 DSP_REG_Y0 DSP_REG_X1 DSP_REG_Y1 in
  let destreg := (inst ≫ 3) .& 1 in
  source ← get_word srcreg;
  dest ← get_accu destreg;
  let differ := ((dest.(w0) ≫ 7) .& 1) .^ ((source.(w1) ≫ 23) .& 1) in
  let '(newsr, dest) := dsp_asl56 dest in
  let dest := if nz differ then (dsp_add56 source dest).2 (* D += S *)
              else (dsp_sub56 source dest).2 (* D -= S *) in
  sr ← get_reg DSP_REG_SR;
  let dest := Accu dest.(w0) dest.(w1) (dest.(w2) .| ((sr ≫ DSP_SR_C) .& 1)) in
  set_accu destreg dest;;
  set_sr_bits mask_VC
    ((((1 - (dest.(w0) ≫ 7) .& 1) ≪ DSP_SR_C) .| (newsr .& (1 ≪ DSP_SR_L)))
     .| (newsr .& (1 ≪ DSP_SR_V))).

(** ** DO loops *)

Definition dsp_do_aa : M unit :=
  inst ← get_inst;
  v ← read_memory ((inst ≫ 6) .& 1) ((inst ≫ 8) .& BITMASK 6);
  set_reg DSP_REG_LC (v .& BITMASK 16).

Definition dsp_do_imm : M unit :=
  inst ← get_inst;
  set_reg DSP_REG_LC (((inst ≫ 8) .& BITMASK 8) + ((inst .& BITMASK 4) ≪ 8)).

Definition dsp_do_ea : M unit :=
  inst ← get_inst;
  '(_, addr) ← dsp_calc_ea ((inst ≫ 8) .& BITMASK 6);
  v ← read_memory ((inst ≫ 6) .& 1) addr;
  set_reg DSP_REG_LC (v .& BITMASK 16).

(** The loop count from a register, an accumulator through the limiter. *)
Definition dsp_do_reg : M unit :=
  inst ← get_inst;
  let numreg := (inst ≫ 8) .& BITMASK 6 in
  (if is_accu numreg then
    dsp_pm_read_accu24 numreg (set_reg DSP_REG_LC);; mret tt
  else
    v ← get_reg numreg; set_reg DSP_REG_LC v);;
  reg_and DSP_REG_LC (BITMASK 16).

Definition opcodes_do : list (M unit) :=
  [dsp_do_aa; dsp_do_imm; dsp_do_ea; dsp_do_imm;
   dsp_undefined; dsp_do_imm; dsp_do_reg; dsp_do_imm].

Definition dsp_do : M unit :=
  la ← get_reg DSP_REG_LA; lc ← get_reg DSP_REG_LC;
  dsp_stack_push la lc;;
  pc ← get_pc;
  la ← read_memory_p (pc + 1);
  set_reg DSP_REG_LA (la .& BITMASK 16);;
  len ← get_inst_len;
  set_inst_len (u32 (len + 1));;
  sr ← get_reg DSP_REG_SR;
  dsp_stack_push (pc + u32 (len + 1)) sr;;
  reg_or DSP_REG_SR (1 ≪ DSP_SR_LF);;
  inst ← get_inst;
  let value := (((inst ≫ 14) .& BITMASK 2) ≪ 1) .| ((inst ≫ 7) .& 1) in
  call_table opcodes_do value.

(** Leave a loop: restore SR, then LA and LC, from the stack. *)
Definition dsp_enddo : M unit :=
  top ← dsp_stack_pop;
  match top with
  | Some (newpc, sr) => set_reg DSP_REG_SR sr
  | None => mret tt
  end;;
  top ← dsp_stack_pop;
  match top with
  | Some (la, lc) => set_reg DSP_REG_LA la;; set_reg DSP_REG_LC lc
  | None => mret tt
  end.

Definition dsp_illegal : M unit := mret tt.

(** ** Jumps *)

Definition jump_to (newpc : Z) : M unit := set_pc newpc;; set_inst_len 0.

Definition dsp_jcc : M unit :=
  inst ← get_inst;
  '(newpc, cc_code) ←
    (if (inst ≫ 16) .& BITMASK 8 =? 0x0a then
       '(_, newpc) ← dsp_calc_ea ((inst ≫ 8) .& BITMASK 6);
       mret (newpc, inst .& BITMASK 4)
     else mret (inst .& BITMASK 12, (inst ≫ 12) .& BITMASK 4));
  cc ← dsp_calc_cc cc_code;
  when cc (jump_to newpc).

(** The operand of the JCLR, JSET, JSCLR and JSSET instructions, with the memory
    space and the address it came from; 0xffff0000 marks a register. *)
Definition jump_operand (inst : Z) : M (Z * Z * Z) :=
  let memspace := (inst ≫ 6) .& 1 in
  addr ← bit_addr inst;
  match addr with
  | Some addr => v ← read_memory memspace addr; mret (v, memspace, addr)
  | None => v ← get_reg (bit_reg ((inst ≫ 8) .& BITMASK 6)); mret (v, 0xffff0000, 0xffff0000)
  end.

(** [for (i=newpc; i<pc; i++) if (read_memory_p(i) != 0) { pollingLoop=0; break; }] *)
Fixpoint only_nops (n : nat) (i : Z) : M bool :=
  match n with
  | O => mret true
  | S n => v ← read_memory_p i; if nz v then mret false else only_nops n (i + 1)
  end.

(** Does the jump to [newpc] poll? *)
Definition polling_loop (newpc pc : Z) : M bool :=
  (* Polling loop if jump to same PC as current JCLR instruction *)
  let pollingLoop := newpc =? pc in
  (* or if only NOPs from jump address to current JCLR instruction *)
  pollingLoop ← (if negb pollingLoop && (newpc <? pc)
                 then only_nops (Z.to_nat (pc - newpc)) newpc else mret pollingLoop);
  (* or programs that re-set host port operation *)
  if negb pollingLoop && (newpc + 2 =? pc) then
    v ← read_memory_p newpc;
    if v =? 0x08f4a0 then
      v ← read_memory_p (newpc + 1); mret (v =? 0x000001)
    else mret false
  else mret pollingLoop.

Definition dsp_jclr : M unit :=
  inst ← get_inst;
  let numbit := inst .& BITMASK 5 in
  '(value, memspace, addr) ← jump_operand inst;
  len ← get_inst_len;
  set_inst_len (u32 (len + 1));;
  bit ← int_bit numbit;
  when (value .& bit =? 0) (
    pc ← get_pc;
    newpc ← read_memory_p (pc + 1);
    pollingLoop ← polling_loop newpc pc;
    when pollingLoop (
      (* Are we waiting for host port ? *)
      when ((memspace =? DSP_SPACE_X) && (addr =? 0xffc0 + DSP_HOST_HSR)) (
        (* Wait for host to write *)
        when (numbit =? DSP_HOST_HSR_HRDF) pauseThread;;
        (* Wait for host to read *)
        when (numbit =? DSP_HOST_HSR_HTDE) pauseThread));;
    jump_to newpc).

Definition dsp_jmp : M unit :=
  inst ← get_inst;
  pc ← get_pc;
  newpc ←
    (if (inst ≫ 16) .& BITMASK 8 =? 0x0a then
       '(_, newpc) ← dsp_calc_ea ((inst ≫ 8) .& BITMASK 6); mret newpc
     else if (inst ≫ 16) .& BITMASK 8 =? 0x0c then mret (inst .& BITMASK 12)
     else mret pc);
  set_inst_len 0;;
  (* Infinite loop ? *)
  if newpc =? pc then pauseThread else set_pc newpc.

(** Push the return address and SR, as the subroutine calls do. *)
Definition push_return : M unit :=
  pc ← get_pc; len ← get_inst_len; sr ← get_reg DSP_REG_SR;
  dsp_stack_push (pc + len) sr.

Definition dsp_jscc : M unit :=
  inst ← get_inst;
  '(newpc, cc_code) ←
    (if (inst ≫ 16) .& BITMASK 8 =? 0x0b then
       '(_, newpc) ← dsp_calc_ea ((inst ≫ 8) .& BITMASK 6);
       mret (newpc, inst .& BITMASK 4)
     else mret (inst .& BITMASK 12, (inst ≫ 12) .& BITMASK 4));
  cc ← dsp_calc_cc cc_code;
  when cc (push_return;; jump_to newpc).

(** JSCLR ([sense] false) and JSSET ([sense] true) jump to a subroutine when the
    bit has the value [sense]. *)
Definition jump_sub_on_bit (sense : bool) : M unit :=
  inst ← get_inst;
  let numbit := inst .& BITMASK 5 in
  '(value, _, _) ← jump_operand inst;
  len ← get_inst_len;
  set_inst_len (u32 (len + 1));;
  bit ← int_bit numbit;
  when (Bool.eqb (nz (value .& bit)) sense) (
    push_return;;
    pc ← get_pc;
    newpc ← read_memory_p (pc + 1);
    jump_to newpc).

Definition dsp_jsclr : M unit := jump_sub_on_bit false.

Definition dsp_jset : M unit :=
  inst ← get_inst;
  let numbit := inst .& BITMASK 5 in
  '(value, _, _) ← jump_operand inst;
  len ← get_inst_len;
  set_inst_len (u32 (len + 1));;
  bit ← int_bit numbit;
  when (nz (value .& bit)) (
    pc ← get_pc;
    newpc ← read_memory_p (pc + 1);
    jump_to newpc).

Definition dsp_jsr : M unit :=
  inst ← get_inst;
  newpc ← (if (inst ≫ 12) .& BITMASK 4 =? 0 then mret (inst .& BITMASK 12)
           else '(_, newpc) ← dsp_calc_ea ((inst ≫ 8) .& BITMASK 6); mret newpc);
  st ← gets (λ s, s.(core).(interrupt_state));
  (if negb (st =? DSP_INTERRUPT_LONG) then push_return
   else set_interrupt_state DSP_INTERRUPT_NONE);;
  jump_to newpc.

Definition dsp_jsset : M unit := jump_sub_on_bit true.

(** ** Moves *)

Definition dsp_lua : M unit :=
  inst ← get_inst;
  let srcreg := (inst ≫ 8) .& BITMASK 3 in
  srcsave ← get_reg (DSP_REG_R0 + srcreg);
  dsp_calc_ea ((inst ≫ 8) .& BITMASK 5);;
  srcnew ← get_reg (DSP_REG_R0 + srcreg);
  set_reg (DSP_REG_R0 + srcreg) srcsave;;
  let dstreg := inst .& BITMASK 3 in
  if nz (inst .& (1 ≪ 3)) then set_reg (DSP_REG_N0 + dstreg) srcnew
  else set_reg (DSP_REG_R0 + dstreg) srcnew.

(** [registers[numreg] = value; registers[numreg] &= BITMASK(registers_mask[numreg])] *)
Definition set_reg_masked (numreg value : Z) : M unit :=
  set_reg numreg value;; m ← reg_bitmask numreg; reg_and numreg m.

(** A 24 bit value into accumulator A or B, sign extended. *)
Definition set_accu24 (numreg value : Z) : M unit :=
  set_accu (numreg .& 1) (Accu (sign_word value) (value .& BITMASK 24) 0).

(** Write an accumulator or another register. *)
Definition write_reg (numreg value : Z) : M unit :=
  if is_accu numreg then set_accu24 numreg value else set_reg_masked numreg value.

(** Read an accumulator through the limiter, or another register. *)
Definition read_reg (numreg : Z) : M Z :=
  if is_accu numreg then '(_, v) ← dsp_pm_read_accu24 numreg no_dest; mret v
  else get_reg numreg.

Definition dsp_movec_reg : M unit :=
  inst ← get_inst;
  let numreg2 := (inst ≫ 8) .& BITMASK 6 in
  let numreg1 := inst .& BITMASK 6 in
  if nz (inst .& (1 ≪ 15)) then
    (* Write D1 *)
    (if is_accu numreg2 then dsp_pm_read_accu24 numreg2 (set_reg numreg1);; mret tt
     else v ← get_reg numreg2; set_reg numreg1 v);;
    m ← reg_bitmask numreg1; reg_and numreg1 m
  else
    (* Read S1 *)
    value ← get_reg numreg1;
    write_reg numreg2 value.

Definition dsp_movec_aa : M unit :=
  inst ← get_inst;
  let numreg := inst .& BITMASK 6 in
  let addr := (inst ≫ 8) .& BITMASK 6 in
  let memspace := (inst ≫ 6) .& 1 in
  if nz (inst .& (1 ≪ 15)) then
    (* Write D1 *)
    v ← read_memory memspace addr; set_reg_masked numreg v
  else
    (* Read S1 *)
    v ← get_reg numreg; write_memory memspace addr v.

Definition dsp_movec_imm : M unit :=
  inst ← get_inst;
  set_reg (inst .& BITMASK 6) ((inst ≫ 8) .& BITMASK 8).

Definition dsp_movec_ea : M unit :=
  inst ← get_inst;
  let numreg := inst .& BITMASK 6 in
  let ea_mode := (inst ≫ 8) .& BITMASK 6 in
  let memspace := (inst ≫ 6) .& 1 in
  if nz (inst .& (1 ≪ 15)) then
    (* Write D1 *)
    '(retour, addr) ← dsp_calc_ea ea_mode;
    v ← (if nz retour then mret addr else read_memory memspace addr);
    set_reg_masked numreg v
  else
    (* Read S1 *)
    '(_, addr) ← dsp_calc_ea ea_mode;
    v ← get_reg numreg;
    write_memory memspace addr v.

Definition opcodes_movec : list (M unit) :=
  [dsp_undefined; dsp_undefined; dsp_undefined; dsp_movec_reg;
   dsp_movec_aa; dsp_movec_ea; dsp_movec_imm; dsp_movec_imm].

Definition dsp_movec : M unit :=
  inst ← get_inst;
  let value := ((inst ≫ 14) .& 5) .| ((inst ≫ 6) .& (1 ≪ 1)) in
  call_table opcodes_movec value.

Definition dsp_movem : M unit :=
  inst ← get_inst;
  let numreg := inst .& BITMASK 6 in
  let value := (inst ≫ 8) .& BITMASK 6 in
  addr ← (if nz (inst .& (1 ≪ 14)) then '(_, addr) ← dsp_calc_ea value; mret addr
          else mret value);
  if nz (inst .& (1 ≪ 15)) then
    (* Write D *)
    value ← read_memory_p addr; write_reg numreg value
  else
    (* Read S *)
    value ← read_reg numreg; write_memory DSP_SPACE_P addr value.

Definition dsp_movep_0 : M unit :=
  inst ← get_inst;
  let addr := 0xffc0 + inst .& BITMASK 6 in
  let memspace := (inst ≫ 16) .& 1 in
  let numreg := (inst ≫ 8) .& BITMASK 6 in
  if nz (inst .& (1 ≪ 15)) then
    (* Write pp *)
    value ← read_reg numreg; write_memory memspace addr value
  else
    (* Read pp *)
    value ← read_memory memspace addr; write_reg numreg value.

Definition dsp_movep_1 : M unit :=
  inst ← get_inst;
  let xyaddr := 0xffc0 + inst .& BITMASK 6 in
  '(_, paddr) ← dsp_calc_ea ((inst ≫ 8) .& BITMASK 6);
  let memspace := (inst ≫ 16) .& 1 in
  if nz (inst .& (1 ≪ 15)) then
    (* Write pp *)
    v ← read_memory_p paddr; write_memory memspace xyaddr v
  else
    (* Read pp *)
    v ← read_memory memspace xyaddr; write_memory DSP_SPACE_P paddr v.

Definition dsp_movep_2 : M unit :=
  inst ← get_inst;
  let peraddr := 0xffc0 + inst .& BITMASK 6 in
  let perspace := (inst ≫ 16) .& 1 in
  let ea_mode := (inst ≫ 8) .& BITMASK 6 in
  let easpace := (inst ≫ 6) .& 1 in
  '(retour, addr) ← dsp_calc_ea ea_mode;
  if nz (inst .& (1 ≪ 15)) then
    (* Write pp *)
    v ← (if nz retour then mret addr else read_memory easpace addr);
    write_memory perspace peraddr v
  else
    (* Read pp *)
    v ← read_memory perspace peraddr; write_memory easpace addr v.

Definition opcodes_movep : list (M unit) := [dsp_movep_0; dsp_movep_1; dsp_movep_2; dsp_movep_2].

Definition dsp_movep : M unit :=
  inst ← get_inst;
  call_table opcodes_movep ((inst ≫ 6) .& BITMASK 2).

(** ** NORM, ORI *)

Definition dsp_norm : M unit :=
  inst ← get_inst;
  cursr ← get_reg DSP_REG_SR;
  let cur_e := (cursr ≫ DSP_SR_E) .& 1 in
  (* (not E) and U and (not Z) *)
  let cur_euz := ((not32 cur_e .& ((cursr ≫ DSP_SR_U) .& 1))
                  .& not32 ((cursr ≫ DSP_SR_Z) .& 1)) .& 1 in
  let numreg := (inst ≫ 3) .& 1 in
  dest ← get_accu numreg;
  let rreg := DSP_REG_R0 + (inst ≫ 8) .& BITMASK 3 in
  '(newsr, dest) ←
    (if nz cur_euz then
       r ← get_reg rreg;
       set_reg rreg (u32 (r - 1) .& BITMASK 16);; mret (dsp_asl56 dest)
     else if nz cur_e then
       r ← get_reg rreg;
       set_reg rreg (u32 (r + 1) .& BITMASK 16);; mret (dsp_asr56 dest)
     else mret (0, dest));
  store_vc numreg dest newsr.

Definition dsp_ori : M unit :=
  inst ← get_inst;
  let value := (inst ≫ 8) .& BITMASK 8 in
  let regnum := inst .& BITMASK 2 in
  (* mr *)
  if regnum =? 0 then reg_or DSP_REG_SR (value ≪ 8)
  (* ccr *)
  else if regnum =? 1 then reg_or DSP_REG_SR value
  (* omr *)
  else if regnum =? 2 then reg_or DSP_REG_OMR value
  else mret tt.

(** ** REP *)

Definition dsp_rep_aa : M unit :=
  inst ← get_inst;
  v ← read_memory ((inst ≫ 6) .& 1) ((inst ≫ 8) .& BITMASK 6);
  set_reg DSP_REG_LC v.

Definition dsp_rep_imm : M unit :=
  inst ← get_inst;
  set_reg DSP_REG_LC (((inst ≫ 8) .& BITMASK 8) + ((inst .& BITMASK 4) ≪ 8)).

Definition dsp_rep_ea : M unit :=
  inst ← get_inst;
  '(_, value) ← dsp_calc_ea ((inst ≫ 8) .& BITMASK 6);
  v ← read_memory ((inst ≫ 6) .& 1) value;
  set_reg DSP_REG_LC v.

Definition dsp_rep_reg : M unit :=
  inst ← get_inst;
  let numreg := (inst ≫ 8) .& BITMASK 6 in
  (if is_accu numreg then
    dsp_pm_read_accu24 numreg (set_reg DSP_REG_LC);; mret tt
  else
    v ← get_reg numreg; set_reg DSP_REG_LC v);;
  reg_and DSP_REG_LC (BITMASK 16).

Definition opcodes_rep : list (M unit) :=
  [dsp_rep_aa; dsp_rep_imm; dsp_rep_ea; dsp_rep_imm;
   dsp_undefined; dsp_rep_imm; dsp_rep_reg; dsp_rep_imm].

Definition dsp_rep : M unit :=
  lc ← get_reg DSP_REG_LC;
  set_reg DSP_REG_LCSAVE lc;;
  inst ← get_inst;
  let value := (((inst ≫ 14) .& BITMASK 2) ≪ 1) .| ((inst ≫ 7) .& 1) in
  call_table opcodes_rep value;;
  modify (s_pc_on_rep 1);; (* Not decrement LC at first time *)
  set_loop_rep 1. (* We are now running rep *)

(** ** Returns, stop, wait *)

(** Reset external peripherals *)
Definition dsp_reset : M unit := mret tt.

Definition dsp_rti : M unit :=
  top ← dsp_stack_pop;
  let '(newpc, newsr) := default (0, 0) top in
  set_pc newpc;;
  set_reg DSP_REG_SR newsr;;
  set_inst_len 0.

Definition dsp_rts : M unit :=
  top ← dsp_stack_pop;
  let '(newpc, _) := default (0, 0) top in
  jump_to newpc.

Definition dsp_stop : M unit := pauseThread.

(** Raise interrupt p:0x0006 *)
Definition dsp_swi : M unit := set_core (c_swi_inter 1).

Definition registers_tcc : list (Z * Z) :=
  [(DSP_REG_B, DSP_REG_A); (DSP_REG_A, DSP_REG_B);
   (DSP_REG_NULL, DSP_REG_NULL); (DSP_REG_NULL, DSP_REG_NULL);
   (DSP_REG_NULL, DSP_REG_NULL); (DSP_REG_NULL, DSP_REG_NULL);
   (DSP_REG_NULL, DSP_REG_NULL); (DSP_REG_NULL, DSP_REG_NULL);
   (DSP_REG_X0, DSP_REG_A); (DSP_REG_X0, DSP_REG_B);
   (DSP_REG_Y0, DSP_REG_A); (DSP_REG_Y0, DSP_REG_B);
   (DSP_REG_X1, DSP_REG_A); (DSP_REG_X1, DSP_REG_B);
   (DSP_REG_Y1, DSP_REG_A); (DSP_REG_Y1, DSP_REG_B)].

Definition dsp_tcc : M unit :=
  inst ← get_inst;
  cc ← dsp_calc_cc ((inst ≫ 12) .& BITMASK 4);
  when cc (
    '(regsrc1, regdest1) ← table_get registers_tcc ((inst ≫ 3) .& BITMASK 4);
    (* Read S1 *)
    src ← (if is_accu regsrc1 then get_accu (regsrc1 .& 1) else get_word regsrc1);
    set_pm_src 0 0 src.(w0);; set_pm_src 0 1 src.(w1);; set_pm_src 0 2 src.(w2);;
    (* Write D1 *)
    set_accu (regdest1 .& 1) src;;
    (* S2,D2 transfer *)
    when (nz (inst .& (1 ≪ 16))) (
      v ← get_reg (DSP_REG_R0 + (inst ≫ 8) .& BITMASK 3);
      set_reg (DSP_REG_R0 + inst .& BITMASK 3) v)).

Definition dsp_wait : M unit := pauseThread.
