(* ===== verification/Exec.v ===== *)
(** * Instruction dispatch, program counter and interrupts (src/src/dsp_cpu.c,
    "Emulator kernel", "Update the PC", "Interrupts", "Highbyte opcodes
    dispatchers") and the glue of src/src/dsp.cpp *)

From S2P Require Import Prelude DspState HostPort Memory Arith56 Ccr Alu Agu ParMove Control.

(** ** Opcode tables *)

Definition opcodes_0809 : list (M unit) :=
  [dsp_move_pm; dsp_move_pm; dsp_move_pm; dsp_move_pm;
   dsp_movep; dsp_movep; dsp_movep; dsp_movep;
   dsp_move_pm; dsp_move_pm; dsp_move_pm; dsp_move_pm;
   dsp_movep; dsp_movep; dsp_movep; dsp_movep].

Definition opcodes_0a : list (M unit) :=
  [ (* 00 *) dsp_bclr; dsp_bset; dsp_bclr; dsp_bset; dsp_jclr; dsp_jset; dsp_jclr; dsp_jset;
    (* 01 *) dsp_bclr; dsp_bset; dsp_bclr; dsp_bset; dsp_jclr; dsp_jset; dsp_jclr; dsp_jset;
    (* 10 *) dsp_bclr; dsp_bset; dsp_bclr; dsp_bset; dsp_jclr; dsp_jset; dsp_jclr; dsp_jset;
    (* 11 *) dsp_jclr; dsp_jset; dsp_bclr; dsp_bset; dsp_jmp; dsp_jcc;
             dsp_undefined; dsp_undefined ].

Definition opcodes_0b : list (M unit) :=
  [ (* 00 *) dsp_bchg; dsp_btst; dsp_bchg; dsp_btst; dsp_jsclr; dsp_jsset; dsp_jsclr; dsp_jsset;
    (* 01 *) dsp_bchg; dsp_btst; dsp_bchg; dsp_btst; dsp_jsclr; dsp_jsset; dsp_jsclr; dsp_jsset;
    (* 10 *) dsp_bchg; dsp_btst; dsp_bchg; dsp_btst; dsp_jsclr; dsp_jsset; dsp_jsclr; dsp_jsset;
    (* 11 *) dsp_jsclr; dsp_jsclr; dsp_bchg; dsp_btst; dsp_jsr; dsp_jscc;
             dsp_undefined; dsp_undefined ].

Definition opcodes_alu003f : list (M unit) :=
  [ (* 0x00 - 0x0f *)
    dsp_move; dsp_tfr; dsp_addr; dsp_tst; dsp_undefined; dsp_cmp; dsp_subr; dsp_cmpm;
    dsp_undefined; dsp_tfr; dsp_addr; dsp_tst; dsp_undefined; dsp_cmp; dsp_subr; dsp_cmpm;
    (* 0x10 - 0x1f *)
    dsp_add; dsp_rnd; dsp_addl; dsp_clr; dsp_sub; dsp_undefined; dsp_subl; dsp_not;
    dsp_add; dsp_rnd; dsp_addl; dsp_clr; dsp_sub; dsp_undefined; dsp_subl; dsp_not;
    (* 0x20 - 0x2f *)
    dsp_add; dsp_adc; dsp_asr; dsp_lsr; dsp_sub; dsp_sbc; dsp_abs; dsp_ror;
    dsp_add; dsp_adc; dsp_asr; dsp_lsr; dsp_sub; dsp_sbc; dsp_abs; dsp_ror;
    (* 0x30 - 0x3f *)
    dsp_add; dsp_adc; dsp_asl; dsp_lsl; dsp_sub; dsp_sbc; dsp_neg; dsp_rol;
    dsp_add; dsp_adc; dsp_asl; dsp_lsl; dsp_sub; dsp_sbc; dsp_neg; dsp_rol ].

Definition opcodes_alu407f : list (M unit) :=
  [dsp_add; dsp_tfr; dsp_or; dsp_eor; dsp_sub; dsp_cmp; dsp_and; dsp_cmpm;
   dsp_add; dsp_tfr; dsp_or; dsp_eor; dsp_sub; dsp_cmp; dsp_and; dsp_cmpm].

Definition opcodes_alu80ff : list (M unit) := [dsp_mpy; dsp_mpyr; dsp_mac; dsp_macr].

(** ** Highbyte opcodes dispatchers *)

Definition opcode8h_0 : M unit :=
  inst ← get_inst;
  if inst <=? 0x00008c then
    if inst =? 0x000000 then dsp_nop
    else if inst =? 0x000004 then dsp_rti
    else if inst =? 0x000005 then dsp_illegal
    else if inst =? 0x000006 then dsp_swi
    else if inst =? 0x00000c then dsp_rts
    else if inst =? 0x000084 then dsp_reset
    else if inst =? 0x000086 then dsp_wait
    else if inst =? 0x000087 then dsp_stop
    else if inst =? 0x00008c then dsp_enddo
    else mret tt
  else
    if inst .& 0xf8 =? 0x0000b8 then dsp_andi
    else if inst .& 0xf8 =? 0x0000f8 then dsp_ori
    else mret tt.

Definition opcode8h_1 : M unit :=
  inst ← get_inst;
  if inst .& 0xfff000 =? 0x018000 then dsp_div
  else if inst .& 0xfff000 =? 0x01d000 then dsp_norm
  else mret tt.

Definition opcode8h_4 : M unit :=
  inst ← get_inst;
  if (inst ≫ 5) .& BITMASK 3 =? 0 then dsp_lua
  else if (inst ≫ 5) .& BITMASK 3 =? 5 then dsp_movec
  else mret tt.

Definition opcode8h_6 : M unit :=
  inst ← get_inst;
  if nz (inst .& (1 ≪ 5)) then dsp_rep else dsp_do.

Definition opcode8h_8 : M unit :=
  inst ← get_inst;
  call_table opcodes_0809 ((inst ≫ 12) .& BITMASK 4).

(** The table index of the 0x0a and 0x0b opcodes. *)
Definition bit_opcode (inst : Z) : Z :=
  ((inst ≫ 11) .& (BITMASK 2 ≪ 3)) .| ((inst ≫ 5) .& BITMASK 3).

Definition opcode8h_a : M unit := inst ← get_inst; call_table opcodes_0a (bit_opcode inst).
Definition opcode8h_b : M unit := inst ← get_inst; call_table opcodes_0b (bit_opcode inst).

Definition opcodes8h : list (M unit) :=
  [opcode8h_0; opcode8h_1; dsp_tcc; dsp_tcc; opcode8h_4; dsp_movec; opcode8h_6; dsp_movem;
   opcode8h_8; opcode8h_8; opcode8h_a; opcode8h_b; dsp_jmp; dsp_jsr; dsp_jcc; dsp_jscc].

(** ** Update the PC *)

(** A pending REP. *)
Definition update_pc_rep : M unit :=
  lr ← gets (λ s, s.(core).(loop_rep));
  when (nz lr) (
    por ← gets pc_on_rep;
    if por =? 0 then
      lc ← get_reg DSP_REG_LC;
      let lc := u32 (lc - 1) .& BITMASK 16 in
      set_reg DSP_REG_LC lc;;
      if 0 <? lc then set_inst_len 0 (* Stay on this instruction *)
      else
        set_loop_rep 0;;
        save ← get_reg DSP_REG_LCSAVE;
        set_reg DSP_REG_LC save
    else
      (* Init LC at right value *)
      lc ← get_reg DSP_REG_LC;
      when (lc =? 0) (set_reg DSP_REG_LC 0x010000);;
      modify (s_pc_on_rep 0)).

(** The end of a DO loop, tested with the updated PC. *)
Definition update_pc_do : M unit :=
  sr ← get_reg DSP_REG_SR;
  when (nz (sr .& (1 ≪ DSP_SR_LF))) (
    (* Did we execute the last instruction in loop ? *)
    pc ← get_pc; la ← get_reg DSP_REG_LA;
    when (pc =? u32 (la + 1)) (
      lc ← get_reg DSP_REG_LC;
      let lc := u32 (lc - 1) .& BITMASK 16 in
      set_reg DSP_REG_LC lc;;
      if lc =? 0 then
        (* end of loop *)
        dsp_enddo
      else
        (* Loop one more time *)
        ssh ← get_reg DSP_REG_SSH;
        top ← get_stack 0 ssh;
        set_pc top)).

Definition dsp_postexecute_update_pc : M unit :=
  (* When running a REP, PC must stay on the current instruction *)
  update_pc_rep;;
  (* Normal execution, go to next instruction *)
  len ← get_inst_len;
  when (0 <? len) (pc ← get_pc; set_pc (pc + len));;
  (* When running a DO loop, we test the end of loop with the updated PC,
     pointing to last instruction of the loop *)
  update_pc_do.

(** ** Interrupts *)

(** Host interface interrupts *)
Definition dsp_hi_interrupts : M Z :=
  host_hcr ← get_periph DSP_SPACE_X DSP_HOST_HCR;
  host_hsr ← get_periph DSP_SPACE_X DSP_HOST_HSR;
  ipr ← get_periph DSP_SPACE_X DSP_IPR;
  let ipl_hi := (ipr ≫ 10) .& BITMASK 2 in
  (* Host command, interrupt p:((hostport[CPU_HOST_CVR] & 31)<<1) *)
  if nz (host_hcr .& (1 ≪ DSP_HOST_HCR_HCIE)) && nz (host_hsr .& (1 ≪ DSP_HOST_HSR_HCP)) then
    (* Clear HC and HCP interrupt *)
    lockMutex;;
    set_periph DSP_SPACE_X DSP_HOST_HSR (host_hsr .& (0xff - (1 ≪ DSP_HOST_HSR_HCP)));;
    cvr ← get_hostport CPU_HOST_CVR;
    set_hostport CPU_HOST_CVR (cvr .& (0xff - (1 ≪ CPU_HOST_CVR_HC)));;
    unlockMutex;;
    cvr ← get_hostport CPU_HOST_CVR;
    set_interrupt_instr_fetch (u32 ((cvr .& BITMASK 5) * 2));;
    mret ipl_hi
  (* Host receive, interrupt p:0x0020 *)
  else if nz (host_hcr .& (1 ≪ DSP_HOST_HCR_HRIE)) && nz (host_hsr .& (1 ≪ DSP_HOST_HSR_HRDF)) then
    lockMutex;;
    set_periph DSP_SPACE_X DSP_HOST_HSR (host_hsr .& (0xff - (1 ≪ DSP_HOST_HSR_HRDF)));;
    unlockMutex;;
    set_interrupt_instr_fetch 0x0020;;
    mret ipl_hi
  (* Host transmit, interrupt p:0x0022 *)
  else if nz (host_hcr .& (1 ≪ DSP_HOST_HCR_HTIE)) && (host_hsr .& (1 ≪ DSP_HOST_HSR_HTDE) =? 0) then
    lockMutex;;
    set_periph DSP_SPACE_X DSP_HOST_HSR (host_hsr .& (0xff - (1 ≪ DSP_HOST_HSR_HTDE)));;
    unlockMutex;;
    set_interrupt_instr_fetch 0x0022;;
    mret ipl_hi
  else mret 99.

(** SSI interface interrupts *)
Definition dsp_ssi_interrupts : M Z :=
  ssi_crb ← get_periph DSP_SPACE_X DSP_SSI_CRB;
  ssi_sr ← get_periph DSP_SPACE_X DSP_SSI_SR;
  ipr ← get_periph DSP_SPACE_X DSP_IPR;
  let ipl_ssi := (ipr ≫ 12) .& BITMASK 2 in
  let ssi_sr_rdf_roe_mask := (1 ≪ DSP_SSI_SR_RDF) .| (1 ≪ DSP_SSI_SR_ROE) in
  let ssi_sr_rdf1_roe1 := (1 ≪ DSP_SSI_SR_RDF) .| (1 ≪ DSP_SSI_SR_ROE) in
  let ssi_sr_rdf1_roe0 := (1 ≪ DSP_SSI_SR_RDF) .| (0 ≪ DSP_SSI_SR_ROE) in
  let ssi_sr_tdf_tue_mask := (1 ≪ DSP_SSI_SR_TDF) .| (1 ≪ DSP_SSI_SR_TUE) in
  let ssi_sr_tdf1_tue1 := (1 ≪ DSP_SSI_SR_TDF) .| (1 ≪ DSP_SSI_SR_TUE) in
  let ssi_sr_tdf1_tue0 := (1 ≪ DSP_SSI_SR_TDF) .| (0 ≪ DSP_SSI_SR_TUE) in
  let rie := nz (ssi_crb .& (1 ≪ DSP_SSI_CRB_RIE)) in
  let tie := nz (ssi_crb .& (1 ≪ DSP_SSI_CRB_TIE)) in
  (* SSI RX Data with Exception Interrupt *)
  if rie && (ssi_sr .& ssi_sr_rdf_roe_mask =? ssi_sr_rdf1_roe1) then
    set_periph DSP_SPACE_X DSP_SSI_SR (ssi_sr .& (0xff - (1 ≪ DSP_SSI_SR_ROE)));;
    set_interrupt_instr_fetch 0x000e;; mret ipl_ssi
  (* SSI RX Data Interrupt *)
  else if rie && (ssi_sr .& ssi_sr_rdf_roe_mask =? ssi_sr_rdf1_roe0) then
    set_interrupt_instr_fetch 0x000c;; mret ipl_ssi
  (* SSI TX Data with Exception Interrupt *)
  else if tie && (ssi_sr .& ssi_sr_tdf_tue_mask =? ssi_sr_tdf1_tue1) then
    set_periph DSP_SPACE_X DSP_SSI_SR (ssi_sr .& (0xff - (1 ≪ DSP_SSI_SR_TUE)));;
    set_interrupt_instr_fetch 0x0012;; mret ipl_ssi
  (* SSI TX Data Interrupt *)
  else if tie && (ssi_sr .& ssi_sr_tdf_tue_mask =? ssi_sr_tdf1_tue0) then
    set_interrupt_instr_fetch 0x0010;; mret ipl_ssi
  else mret 99.

(** The level of the interrupt to raise, 99 for none: trace, then SWI, then the
    peripherals in the order of their priority levels, HI before SSI. *)
Definition ipl_to_raise : M Z :=
  sr ← get_reg DSP_REG_SR;
  swi ← gets (λ s, s.(core).(swi_inter));
  (* Trace Interruption ? *)
  if nz (sr .& (1 ≪ DSP_SR_T)) then set_interrupt_instr_fetch 0x0004;; mret 3
  (* SWI Interruption ? *)
  else if swi =? 1 then
    set_core (c_swi_inter 0);; set_interrupt_instr_fetch 0x0006;; mret 3
  (* Level 2 and above interruptions *)
  else
    let ipl := (sr ≫ DSP_SR_I0) .& BITMASK 2 in
    (* If current ipl level=3, peripheral interruptions are masked *)
    if ipl =? 3 then mret 99 else
    ipr ← get_periph DSP_SPACE_X DSP_IPR;
    let ipl_hi := (ipr ≫ 10) .& BITMASK 2 in
    let ipl_ssi := (ipr ≫ 12) .& BITMASK 2 in
    let try (ipl_x : Z) (m : M Z) : M Z := if ipl <=? ipl_x then m else mret 99 in
    if ipl_ssi <=? ipl_hi then
      r ← try ipl_hi dsp_hi_interrupts;
      if r =? 99 then try ipl_ssi dsp_ssi_interrupts else mret r
    else
      r ← try ipl_ssi dsp_ssi_interrupts;
      if r =? 99 then try ipl_hi dsp_hi_interrupts else mret r.

(** Is a vectored instruction taken for a JSR, and the interrupt for a long one? *)
Definition is_jsr (instr : Z) : bool :=
  ((instr ≫ 16) .& BITMASK 8 =? 0xd) || (bit_opcode instr =? 0x1c).

(** Execute the interruption of level [ipl]. *)
Definition raise_interrupt (ipl : Z) : M unit :=
  fetch ← gets (λ s, s.(core).(interrupt_instr_fetch));
  (* Read of the 2 vectored instructions to determine if it's a fast or long interrupt *)
  instr1 ← read_memory_p fetch;
  instr2 ← read_memory_p (fetch + 1);
  pc ← get_pc;
  if negb (is_jsr instr1 || is_jsr instr2) then
    (* Execute a fast interrupt *)
    set_interrupt_state DSP_INTERRUPT_FAST;;
    set_interrupt_save_pc pc;;
    set_pc fetch
  else
    (* Execute a long interrupt *)
    set_interrupt_state DSP_INTERRUPT_LONG;;
    sr ← get_reg DSP_REG_SR;
    dsp_stack_push pc sr;;
    reg_and DSP_REG_SR (BITMASK 16 -
      ((((((1 ≪ DSP_SR_LF) .| (1 ≪ DSP_SR_T)) .| (1 ≪ DSP_SR_S1)) .| (1 ≪ DSP_SR_S0))
        .| (1 ≪ DSP_SR_I0)) .| (1 ≪ DSP_SR_I1)));;
    reg_or DSP_REG_SR (u32 (ipl ≪ DSP_SR_I0));;
    set_pc fetch;;
    set_interrupt_instr_fetch (u32 (-1));;
    set_interrupt_save_pc (u32 (-1)).

(** The end of a fast interrupt. *)
Definition end_fast_interrupt : M unit :=
  pc ← get_pc;
  fetch ← gets (λ s, s.(core).(interrupt_instr_fetch));
  (* Did we execute the 2-inst interrupt of the vector ? *)
  when (u32 (fetch + 2) <=? pc) (
    when (pc =? u32 (fetch + 2)) (
      save ← gets (λ s, s.(core).(interrupt_save_pc)); set_pc save);;
    set_interrupt_instr_fetch (u32 (-1));;
    set_interrupt_state DSP_INTERRUPT_NONE;;
    set_interrupt_save_pc (u32 (-1))).

Definition dsp_postexecute_interrupts : M unit :=
  (* REP is not interruptible *)
  lr ← gets (λ s, s.(core).(loop_rep));
  if nz lr then mret tt else
  (* A fast interrupt can not be interrupted. *)
  st ← gets (λ s, s.(core).(interrupt_state));
  if st =? DSP_INTERRUPT_FAST then end_fast_interrupt else
  ipl ← ipl_to_raise;
  (* Do we have to execute an interruption ? *)
  when (negb (ipl =? 99)) (raise_interrupt ipl).

(** ** Execute one instruction *)

Definition execute_decoded : M unit :=
  inst ← get_inst;
  let value := (inst ≫ 16) .& BITMASK 8 in
  if (value <? 0x10) && negb (inst .& 0xfe4000 =? 0x080000) then
    call_table opcodes8h value
  else
    dsp_parmove_read;;
    inst ← get_inst;
    let value := inst .& BITMASK 8 in
    (if value <? 0x40 then call_table opcodes_alu003f value
     else if value <? 0x80 then call_table opcodes_alu407f (value .& BITMASK 4)
     else call_table opcodes_alu80ff (value .& BITMASK 2));;
    dsp_parmove_write.

Definition dsp56k_execute_instruction : M unit :=
  (* Decode and execute current instruction *)
  pc ← get_pc;
  inst ← read_memory_p pc;
  modify (s_cur_inst inst);;
  set_inst_len 1;;
  execute_decoded;;
  dsp_postexecute_update_pc;;
  (* Interrupts ? *)
  dsp_postexecute_interrupts.

(** The functions of dsp_cpu.c reach the core through the pointer [dsp_core] of that file;
    they are modelled for a pointer that is set.  A call from outside before
    [dsp56k_init_cpu] follows a NULL pointer with its first access. *)
Definition execute_entry : M unit :=
  p ← gets cpu_core;
  if p : bool then dsp56k_execute_instruction else fail NullPointer.

(** [while (dsp_core.running && (num_inst-->0)) dsp56k_execute_instruction();]
    of [DSP::exec_insts] *)
Fixpoint exec_insts (num_inst : nat) : M unit :=
  match num_inst with
  | O => mret tt
  | S num_inst =>
      running ← gets (λ s, s.(core).(running));
      when (nz running) (dsp56k_execute_instruction;; exec_insts num_inst)
  end.
