(* ===== verification/Printf.v ===== *)
(** * Formatted output, as far as the disassembler uses it

    [sprintf] interprets a format string with the conversions [%d], [%s] and [%0wx] on a
    list of arguments; a format that has too few arguments, an argument of the wrong type
    or another conversion has no result.  [sprintf_fits] bounds the length of the result
    from the format and the ranges of the arguments alone, so that a call with a constant
    format is shown not to overrun its buffer by evaluating [fmt_bound]. *)

From S2P Require Import Prelude.
From Stdlib Require Export Ascii String.
From stdpp Require Export strings.
#[global] Open Scope Z_scope.

(** ** Numbers *)

(** The digit of a value below 16. *)
Definition digit (d : Z) : ascii :=
  ascii_of_nat (Z.to_nat (if d <? 10 then 48 + d else 87 + d)).

(** The digits of [v] in base [b] in front of [acc], at least one and at most [fuel]. *)
Fixpoint digits (b : Z) (fuel : nat) (v : Z) (acc : string) : string :=
  match fuel with
  | O => acc
  | S fuel =>
      let acc := String (digit (v mod b)) acc in
      if v / b =? 0 then acc else digits b fuel (v / b) acc
  end.

(** Zeros in front of a string, up to a width. *)
Fixpoint zeros (n : nat) (s : string) : string :=
  match n with O => s | S n => String "0" (zeros n s) end.
Definition pad (w : nat) (s : string) : string := zeros (w - String.length s) s.

(** [%d] and [%0wx] of a 32 bit number; the numbers the program prints are not negative. *)
Definition fmt_d (v : Z) : string := digits 10 10 v "".
Definition fmt_x (w : nat) (v : Z) : string := pad w (digits 16 8 v "").

(** ** Formats *)

Inductive arg :=
  | AInt (v : Z)
  | AStr (s : string).

Fixpoint sprintf (fmt : string) (args : list arg) : option string :=
  match fmt with
  | EmptyString => Some EmptyString
  | String c f =>
      if negb (Ascii.eqb c "%") then String c <$> sprintf f args
      else match f with
      | String k f1 =>
          if Ascii.eqb k "d" then
            match args with AInt v :: args => String.append (fmt_d v) <$> sprintf f1 args | _ => None end
          else if Ascii.eqb k "s" then
            match args with AStr s :: args => String.append s <$> sprintf f1 args | _ => None end
          else if Ascii.eqb k "0" then
            match f1 with
            | String w (String x f2) =>
                if Ascii.eqb x "x" then
                  match args with
                  | AInt v :: args => String.append (fmt_x (nat_of_ascii w - 48) v) <$> sprintf f2 args
                  | _ => None
                  end
                else None
            | _ => None
            end
          else None
      | EmptyString => None
      end
  end.

(** ** The length of the result *)

(** What is known of an argument: a number of [k] bits, a string of at most [k]
    characters. *)
Inductive shape :=
  | Bits (k : nat)
  | Str (k : nat).

Definition fits (a : arg) (k : shape) : Prop :=
  match a, k with
  | AInt v, Bits k => (1 <= k <= 24)%nat ∧ in_u (Z.of_nat k) v
  | AStr s, Str k => (String.length s <= k)%nat
  | _, _ => False
  end.

(** A bound for the result. *)
Fixpoint fmt_bound (fmt : string) (ks : list shape) : option nat :=
  match fmt with
  | EmptyString => Some 0%nat
  | String c f =>
      if negb (Ascii.eqb c "%") then S <$> fmt_bound f ks
      else match f with
      | String k f1 =>
          if Ascii.eqb k "d" then
            match ks with Bits k :: ks => Nat.add (3 * k / 10 + 1) <$> fmt_bound f1 ks | _ => None end
          else if Ascii.eqb k "s" then
            match ks with Str k :: ks => Nat.add k <$> fmt_bound f1 ks | _ => None end
          else if Ascii.eqb k "0" then
            match f1 with
            | String w (String x f2) =>
                if Ascii.eqb x "x" then
                  match ks with
                  | Bits k :: ks => Nat.add (Nat.max (nat_of_ascii w - 48) ((k + 3) / 4)) <$> fmt_bound f2 ks
                  | _ => None
                  end
                else None
            | _ => None
            end
          else None
      | EmptyString => None
      end
  end.

Lemma length_append s1 s2 : String.length (s1 +:+ s2) = (String.length s1 + String.length s2)%nat.
Proof. induction s1 as [|c s1 IH]; [done|]. change (String c s1 +:+ s2) with (String c (s1 +:+ s2)). cbn [String.length]. by rewrite IH. Qed.

Lemma digits_length b fuel k v acc :
  2 <= b → (1 <= k)%nat → 0 <= v < b ^ Z.of_nat k →
  (String.length (digits b fuel v acc) <= k + String.length acc)%nat.
Proof.
  intros Hb. revert k v acc. induction fuel as [|fuel IH]; intros k v acc Hk Hv; cbn [digits]; [lia|].
  destruct (Z.eqb_spec (v / b) 0) as [E|E]; [cbn; lia|].
  destruct k as [|[|k]]; [lia| |].
  - change (Z.of_nat 1) with 1 in Hv. rewrite Z.pow_1_r in Hv. by rewrite (Z.div_small v b) in E by exact Hv.
  - rewrite (IH (S k)); [cbn; lia|lia|]. split; [apply Z.div_pos; lia|].
    apply Z.div_lt_upper_bound; [lia|]. rewrite <- Z.pow_succ_r, <- Nat2Z.inj_succ by lia. apply Hv.
Qed.

Lemma zeros_length n s : String.length (zeros n s) = (n + String.length s)%nat.
Proof. induction n as [|n IH]; cbn; [done|]. by rewrite IH. Qed.

(** A number of [k] bits has at most [3 * k / 10 + 1] decimal and [(k + 3) / 4] hexadecimal digits. *)
Lemma pow2_pow10 k : (k <= 24)%nat → 2 ^ Z.of_nat k <= 10 ^ Z.of_nat (3 * k / 10 + 1).
Proof.
  intros Hk. assert (Forall (λ k, 2 ^ Z.of_nat k <= 10 ^ Z.of_nat (3 * k / 10 + 1)) (seq 0 25)) as HF.
  { cbn [seq]. repeat (constructor; [vm_compute; discriminate|]). constructor. }
  rewrite Forall_forall in HF. apply HF, elem_of_seq. lia.
Qed.

Lemma fmt_d_length k v : (k <= 24)%nat → in_u (Z.of_nat k) v → (String.length (fmt_d v) <= 3 * k / 10 + 1)%nat.
Proof.
  intros Hk [H0 H1]. unfold fmt_d. rewrite (digits_length 10 10 (3 * k / 10 + 1)); [cbn; lia|lia|lia|].
  pose proof (pow2_pow10 k Hk). lia.
Qed.

Lemma fmt_x_length w k v :
  (1 <= k)%nat → in_u (Z.of_nat k) v → (String.length (fmt_x w v) <= Nat.max w ((k + 3) / 4))%nat.
Proof.
  intros Hk [H0 H1]. unfold fmt_x, pad. rewrite zeros_length.
  pose proof (Nat.div_mod_eq (k + 3) 4) as Hd. pose proof (Nat.mod_upper_bound (k + 3) 4) as Hm.
  assert (String.length (digits 16 8 v "") <= (k + 3) / 4)%nat; [|lia].
  rewrite (digits_length 16 8 ((k + 3) / 4)); [cbn; lia|lia|lia|]. split; [done|].
  eapply Z.lt_le_trans; [exact H1|]. change 16 with (2 ^ 4). rewrite <- Z.pow_mul_r by lia.
  apply Z.pow_le_mono_r; lia.
Qed.

(** A call whose arguments have the given shapes has a result, no longer than the bound. *)
Lemma sprintf_fits fmt args ks n :
  Forall2 fits args ks → fmt_bound fmt ks = Some n →
  ∃ s, sprintf fmt args = Some s ∧ (String.length s <= n)%nat.
Proof.
  remember (String.length fmt) as len eqn:Hlen. assert (String.length fmt <= len)%nat as H by lia. clear Hlen.
  revert fmt args ks n H. induction len as [|len IH]; intros [|c f] args ks n Hl HF Hb; cbn in Hl; try lia.
  1,2: injection Hb as <-; by exists "".
  cbn [sprintf fmt_bound] in *. destruct (negb _).
  { apply fmap_Some in Hb as (m & Hm & ->). destruct (IH f args ks m) as (s & -> & Hs); [lia|done|done|].
    exists (String c s). split; [done|]. cbn. lia. }
  destruct f as [|k f1]; [done|]. cbn in Hl.
  repeat match type of Hb with
  | (if ?b then _ else _) = _ => destruct b
  | match ?x with _ => _ end = _ => destruct x
  | None = Some _ => discriminate Hb
  end.
  all: apply Forall2_cons_inv_r in HF as (x & args' & Ha & HF & ->); destruct x; cbn in Ha; try done.
  all: apply fmap_Some in Hb as (m & Hm & ->); cbn in Hl.
  all: match goal with H : fmt_bound ?g ?l = Some _ |- _ => destruct (IH g args' l m) as (s' & -> & Hs); [lia|done|done|] end.
  all: eexists; split; [done|]; rewrite length_append.
  - destruct Ha as [[_ Hk] Hv]. pose proof (fmt_d_length _ v Hk Hv). lia.
  - lia.
  - destruct Ha as [[Hk _] Hv].
    match goal with |- context [fmt_x ?w ?v] => pose proof (fmt_x_length w _ v Hk Hv) end. lia.
Qed.

(** The formats at work. *)
Example sprintf_demo :
  sprintf "Dsp: 0x%04x: bset #%d,%s" [AInt 0x40; AInt 23; AStr "x:(r0)+"] = Some "Dsp: 0x0040: bset #23,x:(r0)+"%string.
Proof. reflexivity. Qed.
