(* ===== verification/Disasm.v ===== *)
(** * The disassembler (src/src/dsp_disasm.c)

    Before an instruction is executed [dsp56k_disasm] prints it and marks the registers it
    is going to change in [registers_changed]; [dsp56k_disasm_reg_compare] prints these
    registers afterwards.  The local character buffers are strings whose length is checked
    against the declared size when they are written; a table or array index outside its
    bounds, a format that does not match its arguments and the use of a buffer that was not
    written are undefined behaviour.  Each [fprintf] is one line of [stderr], without the
    newline that ends every format. *)

From S2P Require Import Prelude DspState Printf.

(** ** Variables *)

Record disasm := mk_disasm {
  dsp_core : dsp_core_t;             (* what the pointer [dsp_core] points to *)
  d_cur_inst : Z;                    (* Current instruction *)
  prev_inst_pc : Z;                  (* Previous instruction *)
  registers_save : gmap Z Z;         (* Register change *)
  registers_changed : gmap Z Z;
  parallelmove_name : string;
  stderr : list string               (* the last line first *)
}.

(** Undefined behaviour of the disassembler. *)
Inductive disasm_ub :=
  | ArrayIndex (i n : Z)             (* array of [n] elements *)
  | BufferOverrun (size len : nat)   (* [len] characters and a 0 in [char buf[size]] *)
  | FormatMismatch
  | Uninitialised.

Inductive dis_result (A : Type) : Type :=
  | DOk (a : A) (d : disasm)
  | DUB (e : disasm_ub).
Arguments DOk {A} a d.
Arguments DUB {A} e.

Definition D (A : Type) : Type := disasm → dis_result A.

#[export] Instance D_ret : MRet D := λ A a d, DOk a d.
#[export] Instance D_bind : MBind D := λ A B f m d,
  match m d with DOk a d' => f a d' | DUB e => DUB e end.

(** ** Primitives *)

Definition d_fail {A} (e : disasm_ub) : D A := λ _, DUB e.
Definition d_gets {A} (f : disasm → A) : D A := λ d, DOk (f d) d.
Definition d_modify (f : disasm → disasm) : D unit := λ d, DOk tt (f d).

Definition d_inst (v : Z) (d : disasm) : disasm :=
  mk_disasm d.(dsp_core) v d.(prev_inst_pc) d.(registers_save) d.(registers_changed) d.(parallelmove_name) d.(stderr).
Definition d_prev (v : Z) (d : disasm) : disasm :=
  mk_disasm d.(dsp_core) d.(d_cur_inst) v d.(registers_save) d.(registers_changed) d.(parallelmove_name) d.(stderr).
Definition d_save (v : gmap Z Z) (d : disasm) : disasm :=
  mk_disasm d.(dsp_core) d.(d_cur_inst) d.(prev_inst_pc) v d.(registers_changed) d.(parallelmove_name) d.(stderr).
Definition d_changed (v : gmap Z Z) (d : disasm) : disasm :=
  mk_disasm d.(dsp_core) d.(d_cur_inst) d.(prev_inst_pc) d.(registers_save) v d.(parallelmove_name) d.(stderr).
Definition d_pmname (v : string) (d : disasm) : disasm :=
  mk_disasm d.(dsp_core) d.(d_cur_inst) d.(prev_inst_pc) d.(registers_save) d.(registers_changed) v d.(stderr).
Definition d_stderr (v : list string) (d : disasm) : disasm :=
  mk_disasm d.(dsp_core) d.(d_cur_inst) d.(prev_inst_pc) d.(registers_save) d.(registers_changed) d.(parallelmove_name) v.

Definition get_cur_inst : D Z := d_gets d_cur_inst.
Definition get_core_pc : D Z := d_gets (λ d, d.(dsp_core).(pc)).

(** [table[i]] *)
Definition d_table {A} (l : list A) (i : Z) : D A :=
  match (if 0 <=? i then l !! Z.to_nat i else None) with
  | Some x => mret x
  | None => d_fail (ArrayIndex i (Z.of_nat (length l)))
  end.
Definition d_call (l : list (D unit)) (i : Z) : D unit := f ← d_table l i; f.

(** [registers_changed[i]=1] *)
Definition mark (i : Z) : D unit :=
  if in_array i 64 then d_modify (λ d, d_changed (aset d.(registers_changed) i 1) d)
  else d_fail (ArrayIndex i 64).

(** A string stored in a buffer of [size] characters ([strcpy]). *)
Definition d_strcpy (size : nat) (s : string) : D string :=
  if (String.length s <? size)%nat then mret s else d_fail (BufferOverrun size (String.length s)).

Definition d_format (fmt : string) (args : list arg) : D string :=
  match sprintf fmt args with Some s => mret s | None => d_fail FormatMismatch end.

(** [sprintf(buf, fmt, ...)] with [char buf[size]], and [fprintf(stderr, fmt, ...)] *)
Definition d_sprintf (size : nat) (fmt : string) (args : list arg) : D string :=
  s ← d_format fmt args; d_strcpy size s.
Definition d_fprintf (fmt : string) (args : list arg) : D unit :=
  s ← d_format fmt args; d_modify (λ d, d_stderr (s :: d.(stderr)) d).

(** [sprintf(parallelmove_name, fmt, ...)] *)
Definition pm_sprintf (fmt : string) (args : list arg) : D unit :=
  s ← d_sprintf 64 fmt args; d_modify (d_pmname s).

(** The value of a buffer. *)
Definition d_buffer (b : option string) : D string :=
  match b with Some s => mret s | None => d_fail Uninitialised end.

(** ** Tables *)

Definition registers_name : list string :=
  [""; ""; ""; "";
   "x0"; "x1"; "y0"; "y1";
   "a0"; "b0"; "a2"; "b2";
   "a1"; "b1"; "a"; "b";
   "r0"; "r1"; "r2"; "r3";
   "r4"; "r5"; "r6"; "r7";
   "n0"; "n1"; "n2"; "n3";
   "n4"; "n5"; "n6"; "n7";
   "m0"; "m1"; "m2"; "m3";
   "m4"; "m5"; "m6"; "m7";
   ""; ""; ""; "";
   ""; ""; ""; "";
   ""; ""; ""; "";
   ""; ""; ""; "";
   ""; "sr"; "omr"; "sp";
   "ssh"; "ssl"; "la"; "lc"]%string.

Definition registers_tcc : list (Z * Z) :=
  [(DSP_REG_B, DSP_REG_A); (DSP_REG_A, DSP_REG_B);
   (DSP_REG_NULL, DSP_REG_NULL); (DSP_REG_NULL, DSP_REG_NULL);
   (DSP_REG_NULL, DSP_REG_NULL); (DSP_REG_NULL, DSP_REG_NULL);
   (DSP_REG_NULL, DSP_REG_NULL); (DSP_REG_NULL, DSP_REG_NULL);
   (DSP_REG_X0, DSP_REG_A); (DSP_REG_X0, DSP_REG_B);
   (DSP_REG_Y0, DSP_REG_A); (DSP_REG_Y0, DSP_REG_B);
   (DSP_REG_X1, DSP_REG_A); (DSP_REG_X1, DSP_REG_B);
   (DSP_REG_Y1, DSP_REG_A); (DSP_REG_Y1, DSP_REG_B)].

Definition registers_lmove : list string := ["a10"; "b10"; "x"; "y"; "a"; "b"; "ab"; "ba"]%string.

Definition disasm_registers_lmove : list (Z * Z) :=
  [(DSP_REG_A1, DSP_REG_A0); (DSP_REG_B1, DSP_REG_B0);
   (DSP_REG_X1, DSP_REG_X0); (DSP_REG_Y1, DSP_REG_Y0);
   (DSP_REG_A, DSP_REG_A); (DSP_REG_B, DSP_REG_B);
   (DSP_REG_A, DSP_REG_B); (DSP_REG_B, DSP_REG_A)].

Definition ea_names : list string :=
  ["(r%d)-n%d"; "(r%d)+n%d"; "(r%d)-"; "(r%d)+"; "(r%d)"; "(r%d+n%d)"; "0x%04x"; "-(r%d)"; "0x%06x"]%string.

Definition cc_name : list string :=
  ["cc"; "ge"; "ne"; "pl"; "nn"; "ec"; "lc"; "gt"; "cs"; "lt"; "eq"; "mi"; "nr"; "es"; "ls"; "le"]%string.

(** [registers_name[i]] *)
Definition reg_name (i : Z) : D string := d_table registers_name i.

(** ** Register change *)

Definition dsp56k_disasm_init (my_dsp_core : dsp_core_t) : D unit :=
  d_modify (λ d, mk_disasm my_dsp_core d.(d_cur_inst) d.(prev_inst_pc) d.(registers_save)
    d.(registers_changed) d.(parallelmove_name) d.(stderr)).

Definition dsp56k_disasm_reg_read : D unit :=
  d_modify (λ d, d_save d.(dsp_core).(registers) d);; d_modify (d_changed ∅).

(** [registers_save[i] & BITMASK(bits)] and [dsp_core->registers[i] & BITMASK(bits)] *)
Definition saved (i bits : Z) : D Z :=
  if in_array i 64 then d_gets (λ d, aget d.(registers_save) i .& BITMASK bits) else d_fail (ArrayIndex i 64).
Definition current (i bits : Z) : D Z :=
  if in_array i 64 then d_gets (λ d, aget d.(dsp_core).(registers) i .& BITMASK bits) else d_fail (ArrayIndex i 64).

(** The body of the loop. *)
Definition reg_compare_one (i : Z) : D unit :=
  let one fmt bits :=
    name ← reg_name i; old ← saved i bits; new ← current i bits;
    d_fprintf fmt [AStr name; AInt old; AInt new] in
  changed ← (if in_array i 64 then d_gets (λ d, aget d.(registers_changed) i) else d_fail (ArrayIndex i 64));
  if negb (nz changed) then mret tt
  (* X0, X1, Y0, Y1, A0, B0 and A1, B1 *)
  else if ((DSP_REG_X0 <=? i) && (i <=? DSP_REG_B0)) || (i =? DSP_REG_A1) || (i =? DSP_REG_B1) then
    one "Dsp: Reg: %s: 0x%06x -> 0x%06x"%string 24
  (* R0-R7, N0-N7, M0-M7, SR, LA, LC *)
  else if ((DSP_REG_R0 <=? i) && (i <=? DSP_REG_M0 + 7)) || (i =? DSP_REG_SR) || (i =? DSP_REG_LA) || (i =? DSP_REG_LC) then
    one "Dsp: Reg: %s: 0x%04x -> 0x%04x"%string 16
  (* A2, B2, OMR, SP, SSH, SSL *)
  else if (i =? DSP_REG_A2) || (i =? DSP_REG_B2) || ((DSP_REG_OMR <=? i) && (i <=? DSP_REG_SSL)) then
    one "Dsp: Reg: %s: 0x%02x -> 0x%02x"%string 8
  else if (i =? DSP_REG_A) || (i =? DSP_REG_B) then
    name ← reg_name i;
    let n := i .& 1 in
    o2 ← saved (DSP_REG_A2 + n) 8; o1 ← saved (DSP_REG_A1 + n) 24; o0 ← saved (DSP_REG_A0 + n) 24;
    n2 ← current (DSP_REG_A2 + n) 8; n1 ← current (DSP_REG_A1 + n) 24; n0 ← current (DSP_REG_A0 + n) 24;
    d_fprintf "Dsp: Reg: %s: 0x%02x:%06x:%06x -> 0x%02x:%06x:%06x"
      [AStr name; AInt o2; AInt o1; AInt o0; AInt n2; AInt n1; AInt n0]
  else mret tt.

(** [for (i=0;i<64;i++)] *)
Fixpoint reg_compare_from (n : nat) (i : Z) : D unit :=
  match n with
  | O => mret tt
  | S n => reg_compare_one i;; reg_compare_from n (i + 1)
  end.

Definition dsp56k_disasm_reg_compare : D unit := reg_compare_from 64 0.

Definition dsp56k_disasm_force_reg_changed (num_dsp_reg : Z) : D unit := mark num_dsp_reg.

(** ** Memory, conditions and effective addresses *)

Definition read_memory (currPc : Z) : D Z :=
  (if currPc <? 0x200 then
     if in_array currPc 512 then d_gets (λ d, aget d.(dsp_core).(ramint) (DSP_SPACE_P, currPc))
     else d_fail (ArrayIndex currPc 512)
   else
     let i := currPc .& (DSP_RAMSIZE - 1) in
     if in_array i DSP_RAMSIZE then d_gets (λ d, aget d.(dsp_core).(ram) (DSP_SPACE_P, i))
     else d_fail (ArrayIndex i DSP_RAMSIZE))
  ≫= λ value, mret (value .& BITMASK 24).

(** [read_memory(dsp_core->pc+1)] *)
Definition next_word : D Z := pc ← get_core_pc; read_memory (pc + 1).

(** [dest] is a buffer of 16 characters in every call. *)
Definition dsp_calc_cc (cc_mode : Z) : D string :=
  name ← d_table cc_name (cc_mode .& BITMASK 4); d_strcpy 16 name.

(** The result, and the string stored in [dest], a buffer of 16 characters in every call. *)
Definition dsp_calc_ea (ea_mode : Z) : D (Z * string) :=
  let value := (ea_mode ≫ 3) .& BITMASK 3 in
  let numreg := ea_mode .& BITMASK 3 in
  let print1 := fmt ← d_table ea_names value; d_sprintf 16 fmt [AInt numreg] in
  let print2 := fmt ← d_table ea_names value; d_sprintf 16 fmt [AInt numreg; AInt numreg] in
  if (value =? 0) || (value =? 1) then
    (* (Rx)-Nx, (Rx)+Nx *)
    dest ← print2; mark (DSP_REG_R0 + numreg);; mret (0, dest)
  else if value =? 5 then
    (* (Rx+Nx) *)
    dest ← print2; mret (0, dest)
  else if (value =? 2) || (value =? 3) || (value =? 7) then
    (* (Rx)-, (Rx)+, -(Rx) *)
    dest ← print1; mark (DSP_REG_R0 + numreg);; mret (0, dest)
  else if value =? 4 then
    (* (Rx) *)
    dest ← print1; mret (0, dest)
  else
    w ← next_word;
    if (ea_mode ≫ 2) .& 1 =? 0 then
      (* Absolute address *)
      fmt ← d_table ea_names value; dest ← d_sprintf 16 fmt [AInt w]; mret (0, dest)
    else
      (* Immediate value *)
      fmt ← d_table ea_names 8; dest ← d_sprintf 16 fmt [AInt w]; mret (1, dest).

(** ** Non-parallel moves instructions *)

Definition dsp_undefined : D unit :=
  pc ← get_core_pc; inst ← get_cur_inst;
  d_fprintf "Dsp: 0x%04x: 0x%06x unknown instruction" [AInt pc; AInt inst].

(** An instruction without operands. *)
Definition print_plain (fmt : string) : D unit := pc ← get_core_pc; d_fprintf fmt [AInt pc].

(** ANDI and ORI *)
Definition print_immediate (fmt : string) : D unit :=
  inst ← get_cur_inst;
  let r := inst .& BITMASK 2 in
  (if r =? 0 then mark DSP_REG_SR
   else if r =? 1 then mark DSP_REG_SR
   else if r =? 2 then mark DSP_REG_OMR
   else mret tt);;
  let regname := if r =? 0 then "mr"%string else if r =? 1 then "ccr"%string else if r =? 2 then "omr"%string else ""%string in
  mark DSP_REG_SR;;
  pc ← get_core_pc;
  d_fprintf fmt [AInt pc; AInt ((inst ≫ 8) .& BITMASK 8); AStr regname].

Definition dsp_andi : D unit := print_immediate "Dsp: 0x%04x: andi #0x%02x,%s".
Definition dsp_ori : D unit := print_immediate "Dsp: 0x%04x: ori #0x%02x,%s".

(** An address in X or Y memory, and an effective address there. *)
Definition space_addr (memspace value : Z) : D string :=
  if nz memspace then d_sprintf 16 "y:0x%04x" [AInt value] else d_sprintf 16 "x:0x%04x" [AInt value].
Definition space_name (memspace : Z) (addr_name : string) : D string :=
  if nz memspace then d_sprintf 16 "y:%s" [AStr addr_name] else d_sprintf 16 "x:%s" [AStr addr_name].

(** The operand of BCHG, BCLR, BSET, BTST ([changes]: the register form is marked) and of
    JCLR, JSET, JSCLR, JSSET. *)
Definition bit_operand (changes : bool) : D string :=
  inst ← get_cur_inst;
  let memspace := (inst ≫ 6) .& 1 in
  let value := (inst ≫ 8) .& BITMASK 6 in
  let form := (inst ≫ 14) .& BITMASK 2 in
  if form =? 0 then space_addr memspace value
  else if form =? 1 then
    '(_, addr_name) ← dsp_calc_ea value; space_name memspace addr_name
  else if form =? 2 then space_addr memspace (value + 0xffc0)
  else
    r ← reg_name value; name ← d_sprintf 16 "%s" [AStr r];
    (if changes then mark value else mret tt);; mret name.

Definition print_bit (fmt : string) : D unit :=
  inst ← get_cur_inst;
  let numbit := inst .& BITMASK 5 in
  name ← bit_operand true;
  mark DSP_REG_SR;;
  pc ← get_core_pc;
  d_fprintf fmt [AInt pc; AInt numbit; AStr name].

Definition dsp_bchg : D unit := print_bit "Dsp: 0x%04x: bchg #%d,%s".
Definition dsp_bclr : D unit := print_bit "Dsp: 0x%04x: bclr #%d,%s".
Definition dsp_bset : D unit := print_bit "Dsp: 0x%04x: bset #%d,%s".
Definition dsp_btst : D unit := print_bit "Dsp: 0x%04x: btst #%d,%s".

Definition print_jump_bit (fmt : string) : D unit :=
  inst ← get_cur_inst;
  let numbit := inst .& BITMASK 5 in
  srcname ← bit_operand false;
  pc ← get_core_pc;
  w ← next_word;
  d_fprintf fmt [AInt pc; AInt numbit; AStr srcname; AInt w].

Definition dsp_jclr : D unit := print_jump_bit "Dsp: 0x%04x: jclr #%d,%s,p:0x%04x".
Definition dsp_jset : D unit := print_jump_bit "Dsp: 0x%04x: jset #%d,%s,p:0x%04x".
Definition dsp_jsclr : D unit := print_jump_bit "Dsp: 0x%04x: jsclr #%d,%s,p:0x%04x".
Definition dsp_jsset : D unit := print_jump_bit "Dsp: 0x%04x: jsset #%d,%s,p:0x%04x".

(** X0, Y0, X1 or Y1 *)
Definition d_sel4 (k : Z) : Z :=
  if k =? 0 then DSP_REG_X0 else if k =? 1 then DSP_REG_Y0 else if k =? 2 then DSP_REG_X1 else DSP_REG_Y1.

Definition dsp_div : D unit :=
  inst ← get_cur_inst;
  let srcreg := d_sel4 ((inst ≫ 4) .& BITMASK 2) in
  let destreg := DSP_REG_A + (inst ≫ 3) .& 1 in
  mark destreg;; mark DSP_REG_SR;;
  pc ← get_core_pc; s ← reg_name srcreg; d ← reg_name destreg;
  d_fprintf "Dsp: 0x%04x: div %s,%s" [AInt pc; AStr s; AStr d].

Definition dsp_do_0 : D unit :=
  inst ← get_cur_inst;
  name ← space_addr (inst .& (1 ≪ 6)) ((inst ≫ 8) .& BITMASK 6);
  pc ← get_core_pc; w ← next_word;
  d_fprintf "Dsp: 0x%04x: do %s,p:0x%04x" [AInt pc; AStr name; AInt w].

Definition dsp_do_2 : D unit :=
  inst ← get_cur_inst;
  pc ← get_core_pc; w ← next_word;
  d_fprintf "Dsp: 0x%04x: do #0x%04x,p:0x%04x"
    [AInt pc; AInt (((inst ≫ 8) .& BITMASK 8) .| ((inst .& BITMASK 4) ≪ 8)); AInt w].

Definition dsp_do_4 : D unit :=
  inst ← get_cur_inst;
  '(_, addr_name) ← dsp_calc_ea ((inst ≫ 8) .& BITMASK 6);
  name ← space_name (inst .& (1 ≪ 6)) addr_name;
  pc ← get_core_pc; w ← next_word;
  d_fprintf "Dsp: 0x%04x: do %s,p:0x%04x" [AInt pc; AStr name; AInt w].

Definition dsp_do_c : D unit :=
  inst ← get_cur_inst;
  pc ← get_core_pc; name ← reg_name ((inst ≫ 8) .& BITMASK 6); w ← next_word;
  d_fprintf "Dsp: 0x%04x: do %s,p:0x%04x" [AInt pc; AStr name; AInt w].

Definition opcodes_do : list (D unit) :=
  [dsp_do_0; dsp_undefined; dsp_do_2; dsp_undefined;
   dsp_do_4; dsp_undefined; dsp_do_2; dsp_undefined;
   dsp_undefined; dsp_undefined; dsp_do_2; dsp_undefined;
   dsp_do_c; dsp_undefined; dsp_do_2; dsp_undefined].

Definition dsp_do : D unit :=
  inst ← get_cur_inst;
  let value := (((inst ≫ 12) .& (BITMASK 2 ≪ 2)) .| ((inst ≫ 6) .& (1 ≪ 1))) .| ((inst ≫ 5) .& 1) in
  d_call opcodes_do value;;
  mark DSP_REG_LA;; mark DSP_REG_LC;; mark DSP_REG_SR.

Definition dsp_enddo : D unit := print_plain "Dsp: 0x%04x: enddo".
Definition dsp_illegal : D unit := print_plain "Dsp: 0x%04x: illegal".

(** JCC and JSCC: [ea_form] and [aa_form] are the opcode bytes of the two cases. *)
Definition print_jump_cc (ea_form aa_form : Z) (fmt : string) : D unit :=
  inst ← get_cur_inst;
  let op := (inst ≫ 16) .& BITMASK 8 in
  '(addr_name, cc_code) ←
    (if op =? ea_form then
       '(_, a) ← dsp_calc_ea ((inst ≫ 8) .& BITMASK 6); mret (Some a, inst .& BITMASK 4)
     else if op =? aa_form then
       a ← d_sprintf 16 "0x%04x" [AInt (inst .& BITMASK 12)]; mret (Some a, (inst ≫ 12) .& BITMASK 4)
     else mret (None, 0));
  cond_name ← dsp_calc_cc cc_code;
  pc ← get_core_pc;
  addr_name ← d_buffer addr_name;
  d_fprintf fmt [AInt pc; AStr cond_name; AStr addr_name].

Definition dsp_jcc : D unit := print_jump_cc 0x0a 0x0e "Dsp: 0x%04x: j%s p:%s".
Definition dsp_jscc : D unit := print_jump_cc 0x0b 0x0f "Dsp: 0x%04x: js%s p:%s".

Definition dsp_jmp : D unit :=
  inst ← get_cur_inst;
  let op := (inst ≫ 16) .& BITMASK 8 in
  dstname ←
    (if op =? 0x0a then '(_, a) ← dsp_calc_ea ((inst ≫ 8) .& BITMASK 6); mret (Some a)
     else if op =? 0x0c then a ← d_sprintf 16 "0x%04x" [AInt (inst .& BITMASK 12)]; mret (Some a)
     else mret None);
  pc ← get_core_pc;
  dstname ← d_buffer dstname;
  d_fprintf "Dsp: 0x%04x: jmp p:%s" [AInt pc; AStr dstname].

Definition dsp_jsr : D unit :=
  inst ← get_cur_inst;
  dstname ←
    (if (inst ≫ 12) .& BITMASK 4 =? 0 then d_sprintf 16 "0x%04x" [AInt (inst .& BITMASK 12)]
     else '(_, a) ← dsp_calc_ea ((inst ≫ 8) .& BITMASK 6); mret a);
  pc ← get_core_pc;
  d_fprintf "Dsp: 0x%04x: jsr p:%s" [AInt pc; AStr dstname].

Definition dsp_lua : D unit :=
  inst ← get_cur_inst;
  '(_, addr_name) ← dsp_calc_ea ((inst ≫ 8) .& BITMASK 5);
  let numreg := inst .& BITMASK 3 in
  mark (DSP_REG_R0 + numreg);;
  pc ← get_core_pc;
  d_fprintf "Dsp: 0x%04x: lua %s,r%d" [AInt pc; AStr addr_name; AInt numreg].

(** ** Moves *)

Definition dsp_movec_7 : D unit :=
  inst ← get_cur_inst;
  let numreg2 := (inst ≫ 8) .& BITMASK 6 in
  let numreg1 := (inst .& BITMASK 5) .| 0x20 in
  pc ← get_core_pc; n1 ← reg_name numreg1; n2 ← reg_name numreg2;
  if nz (inst .& (1 ≪ 15)) then
    (* Write D1 *)
    d_fprintf "Dsp: 0x%04x: movec %s,%s" [AInt pc; AStr n2; AStr n1];; mark numreg1
  else
    (* Read S1 *)
    d_fprintf "Dsp: 0x%04x: movec %s,%s" [AInt pc; AStr n1; AStr n2];; mark numreg2.

(** [spacename] of MOVEC *)
Definition movec_space (inst : Z) : string := if nz (inst .& (1 ≪ 6)) then "y" else "x".

Definition dsp_movec_9 : D unit :=
  inst ← get_cur_inst;
  let numreg := (inst .& BITMASK 5) .| 0x20 in
  let addr := (inst ≫ 8) .& BITMASK 6 in
  let spacename := movec_space inst in
  '(srcname, dstname) ←
    (if nz (inst .& (1 ≪ 15)) then
       (* Write D1 *)
       s ← d_sprintf 16 "%s:0x%04x" [AStr spacename; AInt addr];
       r ← reg_name numreg; d ← d_strcpy 16 r; mret (s, d)
     else
       (* Read S1 *)
       r ← reg_name numreg; s ← d_strcpy 16 r;
       d ← d_sprintf 16 "%s:0x%04x" [AStr spacename; AInt addr]; mret (s, d));
  pc ← get_core_pc;
  d_fprintf "Dsp: 0x%04x: movec %s,%s" [AInt pc; AStr srcname; AStr dstname].

Definition dsp_movec_b : D unit :=
  inst ← get_cur_inst;
  let numreg := (inst .& BITMASK 5) .| 0x20 in
  mark numreg;;
  pc ← get_core_pc; name ← reg_name numreg;
  d_fprintf "Dsp: 0x%04x: movec #0x%02x,%s" [AInt pc; AInt ((inst ≫ 8) .& BITMASK 8); AStr name].

Definition dsp_movec_d : D unit :=
  inst ← get_cur_inst;
  let numreg := (inst .& BITMASK 5) .| 0x20 in
  '(retour, addr_name) ← dsp_calc_ea ((inst ≫ 8) .& BITMASK 6);
  let spacename := movec_space inst in
  '(srcname, dstname) ←
    (if nz (inst .& (1 ≪ 15)) then
       (* Write D1 *)
       s ← (if nz retour then d_sprintf 16 "#%s" [AStr addr_name]
            else d_sprintf 16 "%s:%s" [AStr spacename; AStr addr_name]);
       mark numreg;;
       r ← reg_name numreg; d ← d_strcpy 16 r; mret (s, d)
     else
       (* Read S1 *)
       r ← reg_name numreg; s ← d_strcpy 16 r;
       d ← d_sprintf 16 "%s:%s" [AStr spacename; AStr addr_name]; mret (s, d));
  pc ← get_core_pc;
  d_fprintf "Dsp: 0x%04x: movec %s,%s" [AInt pc; AStr srcname; AStr dstname].

Definition opcodes_movec : list (D unit) :=
  [dsp_undefined; dsp_undefined; dsp_undefined; dsp_undefined;
   dsp_undefined; dsp_undefined; dsp_undefined; dsp_movec_7;
   dsp_undefined; dsp_movec_9; dsp_undefined; dsp_movec_b;
   dsp_undefined; dsp_movec_d; dsp_undefined; dsp_movec_b].

Definition dsp_movec : D unit :=
  inst ← get_cur_inst;
  let value := ((((inst ≫ 13) .& (1 ≪ 3)) .| ((inst ≫ 12) .& (1 ≪ 2))) .| ((inst ≫ 6) .& (1 ≪ 1)))
               .| ((inst ≫ 5) .& 1) in
  d_call opcodes_movec value;; mark DSP_REG_SR.

Definition dsp_movem : D unit :=
  inst ← get_cur_inst;
  addr_name ←
    (if nz (inst .& (1 ≪ 14)) then '(_, a) ← dsp_calc_ea ((inst ≫ 8) .& BITMASK 6); mret a
     else d_sprintf 16 "0x%04x" [AInt ((inst ≫ 8) .& BITMASK 6)]);
  let numreg := inst .& BITMASK 6 in
  '(srcname, dstname) ←
    (if nz (inst .& (1 ≪ 15)) then
       (* Write D *)
       mark numreg;;
       s ← d_sprintf 16 "p:%s" [AStr addr_name];
       r ← reg_name numreg; d ← d_strcpy 16 r; mret (s, d)
     else
       (* Read S *)
       r ← reg_name numreg; s ← d_strcpy 16 r;
       d ← d_sprintf 16 "p:%s" [AStr addr_name]; mret (s, d));
  mark DSP_REG_SR;;
  pc ← get_core_pc;
  d_fprintf "Dsp: 0x%04x: movem %s,%s" [AInt pc; AStr srcname; AStr dstname].

(** The peripheral operand of MOVEP. *)
Definition movep_pp (inst : Z) : D string := space_addr ((inst ≫ 16) .& 1) (0xffc0 + inst .& BITMASK 6).

Definition dsp_movep_0 : D unit :=
  inst ← get_cur_inst;
  let numreg := (inst ≫ 8) .& BITMASK 6 in
  '(srcname, dstname) ←
    (if nz (inst .& (1 ≪ 15)) then
       (* Write pp *)
       r ← reg_name numreg; s ← d_strcpy 16 r; d ← movep_pp inst; mret (s, d)
     else
       (* Read pp *)
       s ← movep_pp inst; mark numreg;;
       r ← reg_name numreg; d ← d_strcpy 16 r; mret (s, d));
  pc ← get_core_pc;
  d_fprintf "Dsp: 0x%04x: movep %s,%s" [AInt pc; AStr srcname; AStr dstname].

Definition dsp_movep_1 : D unit :=
  inst ← get_cur_inst;
  '(_, name) ← dsp_calc_ea ((inst ≫ 8) .& BITMASK 6);
  '(srcname, dstname) ←
    (if nz (inst .& (1 ≪ 15)) then
       (* Write pp *)
       s ← d_sprintf 16 "p:%s" [AStr name]; d ← movep_pp inst; mret (s, d)
     else
       (* Read pp *)
       s ← movep_pp inst; d ← d_sprintf 16 "p:%s" [AStr name]; mret (s, d));
  pc ← get_core_pc;
  d_fprintf "Dsp: 0x%04x: movep %s,%s" [AInt pc; AStr srcname; AStr dstname].

Definition dsp_movep_2 : D unit :=
  inst ← get_cur_inst;
  '(retour, name) ← dsp_calc_ea ((inst ≫ 8) .& BITMASK 6);
  let easpace := (inst ≫ 6) .& 1 in
  '(srcname, dstname) ←
    (if nz (inst .& (1 ≪ 15)) then
       (* Write pp *)
       s ← (if nz retour then d_sprintf 16 "#%s" [AStr name] else space_name easpace name);
       d ← movep_pp inst; mret (s, d)
     else
       (* Read pp *)
       s ← movep_pp inst; d ← space_name easpace name; mret (s, d));
  pc ← get_core_pc;
  d_fprintf "Dsp: 0x%04x: movep %s,%s" [AInt pc; AStr srcname; AStr dstname].

Definition opcodes_movep : list (D unit) := [dsp_movep_0; dsp_movep_1; dsp_movep_2; dsp_movep_2].

Definition dsp_movep : D unit :=
  inst ← get_cur_inst;
  d_call opcodes_movep ((inst ≫ 6) .& BITMASK 2);; mark DSP_REG_SR.

(** ** NORM, REP, Tcc and the instructions without operands *)

Definition dsp_nop : D unit := print_plain "Dsp: 0x%04x: nop".

Definition dsp_norm : D unit :=
  inst ← get_cur_inst;
  let srcreg := DSP_REG_R0 + (inst ≫ 8) .& BITMASK 3 in
  let destreg := DSP_REG_A + (inst ≫ 3) .& 1 in
  mark srcreg;; mark destreg;; mark DSP_REG_SR;;
  pc ← get_core_pc; s ← reg_name srcreg; d ← reg_name destreg;
  d_fprintf "Dsp: 0x%04x: norm %s,%s" [AInt pc; AStr s; AStr d].

Definition dsp_rep_1 : D unit :=
  inst ← get_cur_inst;
  name ← space_addr (inst .& (1 ≪ 6)) ((inst ≫ 8) .& BITMASK 6);
  pc ← get_core_pc;
  d_fprintf "Dsp: 0x%04x: rep %s" [AInt pc; AStr name].

Definition dsp_rep_3 : D unit :=
  inst ← get_cur_inst;
  pc ← get_core_pc;
  d_fprintf "Dsp: 0x%04x: rep #0x%02x" [AInt pc; AInt ((inst ≫ 8) .& BITMASK 8)].

Definition dsp_rep_5 : D unit :=
  inst ← get_cur_inst;
  '(_, addr_name) ← dsp_calc_ea ((inst ≫ 8) .& BITMASK 6);
  name ← space_name (inst .& (1 ≪ 6)) addr_name;
  pc ← get_core_pc;
  d_fprintf "Dsp: 0x%04x: rep %s" [AInt pc; AStr name].

Definition dsp_rep_d : D unit :=
  inst ← get_cur_inst;
  pc ← get_core_pc; name ← reg_name ((inst ≫ 8) .& BITMASK 6);
  d_fprintf "Dsp: 0x%04x: rep %s" [AInt pc; AStr name].

Definition opcodes_rep : list (D unit) :=
  [dsp_undefined; dsp_rep_1; dsp_undefined; dsp_rep_3;
   dsp_undefined; dsp_rep_5; dsp_undefined; dsp_rep_3;
   dsp_undefined; dsp_undefined; dsp_undefined; dsp_rep_3;
   dsp_undefined; dsp_rep_d; dsp_undefined; dsp_rep_3].

Definition dsp_rep : D unit :=
  inst ← get_cur_inst;
  let value := (((inst ≫ 12) .& (BITMASK 2 ≪ 2)) .| ((inst ≫ 6) .& (1 ≪ 1))) .| ((inst ≫ 5) .& 1) in
  d_call opcodes_rep value;; mark DSP_REG_LC;; mark DSP_REG_SR.

Definition dsp_reset : D unit := print_plain "Dsp: 0x%04x: reset".
Definition dsp_rti : D unit := mark DSP_REG_SR;; print_plain "Dsp: 0x%04x: rti".
Definition dsp_rts : D unit := mark DSP_REG_SR;; print_plain "Dsp: 0x%04x: rts".
Definition dsp_stop : D unit := print_plain "Dsp: 0x%04x: stop".
Definition dsp_swi : D unit := print_plain "Dsp: 0x%04x: swi".

Definition dsp_tcc : D unit :=
  inst ← get_cur_inst;
  ccname ← dsp_calc_cc ((inst ≫ 12) .& BITMASK 4);
  '(src1reg, dst1reg) ← d_table registers_tcc ((inst ≫ 3) .& BITMASK 4);
  mark dst1reg;;
  pc ← get_core_pc; s1 ← reg_name src1reg; d1 ← reg_name dst1reg;
  if nz (inst .& (1 ≪ 16)) then
    let src2reg := DSP_REG_R0 + inst .& BITMASK 3 in
    let dst2reg := DSP_REG_R0 + (inst ≫ 8) .& BITMASK 3 in
    mark dst2reg;;
    s2 ← reg_name src2reg; d2 ← reg_name dst2reg;
    d_fprintf "Dsp: 0x%04x: t%s %s,%s %s,%s" [AInt pc; AStr ccname; AStr s1; AStr d1; AStr s2; AStr d2]
  else
    d_fprintf "Dsp: 0x%04x: t%s %s,%s" [AInt pc; AStr ccname; AStr s1; AStr d1].

Definition dsp_wait : D unit := print_plain "Dsp: 0x%04x: wait".

(** ** Parallel moves *)

Definition dsp_pm_0 : D unit :=
  inst ← get_cur_inst;
  let memspace := (inst ≫ 15) .& 1 in
  let numreg1 := DSP_REG_A + (inst ≫ 16) .& 1 in
  '(_, addr_name) ← dsp_calc_ea ((inst ≫ 8) .& BITMASK 6);
  space_name ← d_strcpy 16 (if nz memspace then "y" else "x")%string;
  let numreg2 := if nz memspace then DSP_REG_Y0 else DSP_REG_X0 in
  mark numreg1;;
  n1 ← reg_name numreg1; n2 ← reg_name numreg2;
  pm_sprintf "%s,%s:%s %s,%s" [AStr n1; AStr space_name; AStr addr_name; AStr n2; AStr n1].

(** Y0, Y1, A or B, and X0, X1, A or B *)
Definition d_sel_y (k : Z) : Z :=
  if k =? 0 then DSP_REG_Y0 else if k =? 1 then DSP_REG_Y1 else if k =? 2 then DSP_REG_A else DSP_REG_B.
Definition d_sel_x (k : Z) : Z :=
  if k =? 0 then DSP_REG_X0 else if k =? 1 then DSP_REG_X1 else if k =? 2 then DSP_REG_A else DSP_REG_B.

Definition dsp_pm_1 : D unit :=
  inst ← get_cur_inst;
  let memspace := (inst ≫ 14) .& 1 in
  let write_flag := (inst ≫ 15) .& 1 in
  '(retour, addr_name) ← dsp_calc_ea ((inst ≫ 8) .& BITMASK 6);
  if memspace =? DSP_SPACE_Y then
    let r2 := d_sel_y ((inst ≫ 16) .& BITMASK 2) in
    let s1reg := DSP_REG_A + (inst ≫ 19) .& 1 in
    let d1reg := DSP_REG_X0 + (inst ≫ 18) .& 1 in
    mark d1reg;;
    s1 ← reg_name s1reg; d1 ← reg_name d1reg; n2 ← reg_name r2;
    if nz write_flag then
      (* Write D2 *)
      mark r2;;
      if nz retour then pm_sprintf "%s,%s #%s,%s" [AStr s1; AStr d1; AStr addr_name; AStr n2]
      else pm_sprintf "%s,%s y:%s,%s" [AStr s1; AStr d1; AStr addr_name; AStr n2]
    else
      (* Read S2 *)
      pm_sprintf "%s,%s %s,y:%s" [AStr s1; AStr d1; AStr n2; AStr addr_name]
  else
    let r1 := d_sel_x ((inst ≫ 18) .& BITMASK 2) in
    let s2reg := DSP_REG_A + (inst ≫ 17) .& 1 in
    let d2reg := DSP_REG_Y0 + (inst ≫ 16) .& 1 in
    mark d2reg;;
    n1 ← reg_name r1; s2 ← reg_name s2reg; d2 ← reg_name d2reg;
    if nz write_flag then
      (* Write D1 *)
      mark r1;;
      if nz retour then pm_sprintf "#%s,%s %s,%s" [AStr addr_name; AStr n1; AStr s2; AStr d2]
      else pm_sprintf "x:%s,%s %s,%s" [AStr addr_name; AStr n1; AStr s2; AStr d2]
    else
      (* Read S1 *)
      pm_sprintf "%s,x:%s %s,%s" [AStr n1; AStr addr_name; AStr s2; AStr d2].

Definition dsp_pm_2 : D unit :=
  inst ← get_cur_inst;
  if (inst ≫ 8) .& 0xffff =? 0x2000 then mret tt
  else if (inst ≫ 8) .& 0xffe0 =? 0x2040 then
    '(_, addr_name) ← dsp_calc_ea ((inst ≫ 8) .& BITMASK 5);
    mark (DSP_REG_R0 + (inst ≫ 8) .& BITMASK 3);;
    pm_sprintf "%s,r%d" [AStr addr_name; AInt ((inst ≫ 8) .& BITMASK 3)]
  else if (inst ≫ 8) .& 0xfc00 =? 0x2000 then
    let numreg1 := (inst ≫ 13) .& BITMASK 5 in
    let numreg2 := (inst ≫ 8) .& BITMASK 5 in
    mark numreg2;;
    n1 ← reg_name numreg1; n2 ← reg_name numreg2;
    pm_sprintf "%s,%s" [AStr n1; AStr n2]
  else
    let numreg1 := (inst ≫ 16) .& BITMASK 5 in
    mark numreg1;;
    n1 ← reg_name numreg1;
    pm_sprintf "#0x%02x,%s" [AInt ((inst ≫ 8) .& BITMASK 8); AStr n1].

(** The address of an L:, X: or Y: move. *)
Definition pm_4_addr (inst : Z) : D (Z * string) :=
  let ea_mode := (inst ≫ 8) .& BITMASK 6 in
  if nz (inst .& (1 ≪ 14)) then dsp_calc_ea ea_mode
  else a ← d_sprintf 16 "0x%04x" [AInt ea_mode]; mret (0, a).

Definition dsp_pm_4 : D unit :=
  inst ← get_cur_inst;
  let value := ((inst ≫ 16) .& BITMASK 3) .| ((inst ≫ 17) .& (BITMASK 2 ≪ 3)) in
  if value ≫ 2 =? 0 then
    (* L: memory move *)
    '(retour, addr_name) ← pm_4_addr inst;
    let value := ((inst ≫ 16) .& BITMASK 2) .| ((inst ≫ 17) .& (1 ≪ 2)) in
    if nz (inst .& (1 ≪ 15)) then
      (* Write D *)
      '(r1, r2) ← d_table disasm_registers_lmove value;
      mark r1;; mark r2;;
      name ← d_table registers_lmove value;
      if nz retour then pm_sprintf "#%s,%s" [AStr addr_name; AStr name]
      else pm_sprintf "l:%s,%s" [AStr addr_name; AStr name]
    else
      (* Read S *)
      name ← d_table registers_lmove value;
      pm_sprintf "%s,l:%s" [AStr name; AStr addr_name]
  else
    let memspace := (inst ≫ 19) .& 1 in
    '(retour, addr_name) ← pm_4_addr inst;
    name ← reg_name value;
    if nz memspace then
      (* Y: *)
      if nz (inst .& (1 ≪ 15)) then
        mark value;;
        if nz retour then pm_sprintf "#%s,%s" [AStr addr_name; AStr name]
        else pm_sprintf "y:%s,%s" [AStr addr_name; AStr name]
      else pm_sprintf "%s,y:%s" [AStr name; AStr addr_name]
    else
      (* X: *)
      if nz (inst .& (1 ≪ 15)) then
        mark value;;
        if nz retour then pm_sprintf "#%s,%s" [AStr addr_name; AStr name]
        else pm_sprintf "x:%s,%s" [AStr addr_name; AStr name]
      else pm_sprintf "%s,x:%s" [AStr name; AStr addr_name].

(** The two effective addresses of an X: Y: move. *)
Definition d_pm_8_ea (inst : Z) : Z * Z :=
  let ea_mode1 := (inst ≫ 8) .& BITMASK 5 in
  let ea_mode1 := if ea_mode1 ≫ 3 =? 0 then ea_mode1 .| (1 ≪ 5) else ea_mode1 in
  let ea_mode2 := ((inst ≫ 13) .& BITMASK 2) .| (((inst ≫ 20) .& BITMASK 2) ≪ 3) in
  let ea_mode2 := if ea_mode1 .& (1 ≪ 2) =? 0 then ea_mode2 .| (1 ≪ 2) else ea_mode2 in
  let ea_mode2 := if ea_mode2 ≫ 3 =? 0 then ea_mode2 .| (1 ≪ 5) else ea_mode2 in
  (ea_mode1, ea_mode2).

Definition dsp_pm_8 : D unit :=
  inst ← get_cur_inst;
  let numreg1 := d_sel_x ((inst ≫ 18) .& BITMASK 2) in
  let numreg2 := d_sel_y ((inst ≫ 16) .& BITMASK 2) in
  let '(ea_mode1, ea_mode2) := d_pm_8_ea inst in
  '(_, addr1_name) ← dsp_calc_ea ea_mode1;
  '(_, addr2_name) ← dsp_calc_ea ea_mode2;
  n1 ← reg_name numreg1; n2 ← reg_name numreg2;
  if nz (inst .& (1 ≪ 15)) then
    mark numreg1;;
    if nz (inst .& (1 ≪ 22)) then
      mark numreg2;;
      pm_sprintf "x:%s,%s y:%s,%s" [AStr addr1_name; AStr n1; AStr addr2_name; AStr n2]
    else pm_sprintf "x:%s,%s %s,y:%s" [AStr addr1_name; AStr n1; AStr n2; AStr addr2_name]
  else
    if nz (inst .& (1 ≪ 22)) then
      mark numreg2;;
      pm_sprintf "%s,x:%s y:%s,%s" [AStr n1; AStr addr1_name; AStr addr2_name; AStr n2]
    else pm_sprintf "%s,x:%s %s,y:%s" [AStr n1; AStr addr1_name; AStr n2; AStr addr2_name].

Definition opcodes_parmove : list (D unit) :=
  [dsp_pm_0; dsp_pm_1; dsp_pm_2; dsp_pm_2; dsp_pm_4; dsp_pm_4; dsp_pm_4; dsp_pm_4;
   dsp_pm_8; dsp_pm_8; dsp_pm_8; dsp_pm_8; dsp_pm_8; dsp_pm_8; dsp_pm_8; dsp_pm_8].

Definition dsp_pm : D unit :=
  inst ← get_cur_inst; d_call opcodes_parmove ((inst ≫ 20) .& BITMASK 4).

(** ** Parallel moves ALU instructions *)

(** A or B, from bit 3. *)
Definition d_dest (inst : Z) : Z := DSP_REG_A + (inst ≫ 3) .& 1.

(** ABS, ASL, ASR, CLR, LSL, LSR, NEG, NOT, RND, ROL and ROR *)
Definition print_alu1 (fmt : string) : D unit :=
  inst ← get_cur_inst;
  mark (d_dest inst);; mark DSP_REG_SR;;
  pc ← get_core_pc; name ← reg_name (d_dest inst); pm ← d_gets parallelmove_name;
  d_fprintf fmt [AInt pc; AStr name; AStr pm].

Definition dsp_abs : D unit := print_alu1 "Dsp: 0x%04x: abs %s %s".
Definition dsp_asl : D unit := print_alu1 "Dsp: 0x%04x: asl %s %s".
Definition dsp_asr : D unit := print_alu1 "Dsp: 0x%04x: asr %s %s".
Definition dsp_clr : D unit := print_alu1 "Dsp: 0x%04x: clr %s %s".
Definition dsp_lsl : D unit := print_alu1 "Dsp: 0x%04x: lsl %s %s".
Definition dsp_lsr : D unit := print_alu1 "Dsp: 0x%04x: lsr %s %s".
Definition dsp_neg : D unit := print_alu1 "Dsp: 0x%04x: neg %s %s".
Definition dsp_not : D unit := print_alu1 "Dsp: 0x%04x: not %s %s".
Definition dsp_rnd : D unit := print_alu1 "Dsp: 0x%04x: rnd %s %s".
Definition dsp_rol : D unit := print_alu1 "Dsp: 0x%04x: rol %s %s".
Definition dsp_ror : D unit := print_alu1 "Dsp: 0x%04x: ror %s %s".

(** A source, a destination that is marked when [changes], SR, and the line. *)
Definition print_alu2 (changes : bool) (source : Z → D string) (fmt : string) : D unit :=
  inst ← get_cur_inst;
  srcname ← source inst;
  (if changes then mark (d_dest inst) else mret tt);; mark DSP_REG_SR;;
  pc ← get_core_pc; name ← reg_name (d_dest inst); pm ← d_gets parallelmove_name;
  d_fprintf fmt [AInt pc; AStr srcname; AStr name; AStr pm].

(** ADC and SBC *)
Definition carry_source (inst : Z) : D string := mret (if nz (inst .& (1 ≪ 4)) then "y" else "x")%string.
Definition dsp_adc : D unit := print_alu2 true carry_source "Dsp: 0x%04x: adc %s,%s %s".
Definition dsp_sbc : D unit := print_alu2 true carry_source "Dsp: 0x%04x: sbc %s,%s %s".

(** ADD and SUB *)
Definition d_add_source (inst : Z) : D string :=
  let srcreg := (inst ≫ 4) .& BITMASK 3 in
  let dstreg := (inst ≫ 3) .& 1 in
  if srcreg =? 1 then reg_name (DSP_REG_A + (dstreg .^ 1))
  else if srcreg =? 2 then mret "x"%string
  else if srcreg =? 3 then mret "y"%string
  else if srcreg =? 4 then reg_name DSP_REG_X0
  else if srcreg =? 5 then reg_name DSP_REG_Y0
  else if srcreg =? 6 then reg_name DSP_REG_X1
  else if srcreg =? 7 then reg_name DSP_REG_Y1
  else mret ""%string.
Definition dsp_add : D unit := print_alu2 true d_add_source "Dsp: 0x%04x: add %s,%s %s".
Definition dsp_sub : D unit := print_alu2 true d_add_source "Dsp: 0x%04x: sub %s,%s %s".

(** ADDL, ADDR, SUBL and SUBR *)
Definition other_accu (inst : Z) : D string := reg_name (DSP_REG_A + (((inst ≫ 3) .& 1) .^ 1)).
Definition dsp_addl : D unit := print_alu2 true other_accu "Dsp: 0x%04x: addl %s,%s %s".
Definition dsp_addr : D unit := print_alu2 true other_accu "Dsp: 0x%04x: addr %s,%s %s".
Definition dsp_subl : D unit := print_alu2 true other_accu "Dsp: 0x%04x: subl %s,%s %s".
Definition dsp_subr : D unit := print_alu2 true other_accu "Dsp: 0x%04x: subr %s,%s %s".

(** AND, EOR and OR *)
Definition d_logic_source (inst : Z) : D string := reg_name (d_sel4 ((inst ≫ 4) .& BITMASK 2)).
Definition dsp_and : D unit := print_alu2 true d_logic_source "Dsp: 0x%04x: and %s,%s %s".
Definition dsp_eor : D unit := print_alu2 true d_logic_source "Dsp: 0x%04x: eor %s,%s %s".
Definition dsp_or : D unit := print_alu2 true d_logic_source "Dsp: 0x%04x: or %s,%s %s".

(** CMP and CMPM; a code without a register is taken for a register number. *)
Definition d_cmp_source (inst : Z) : D string :=
  let srcreg := (inst ≫ 4) .& BITMASK 3 in
  let dstreg := (inst ≫ 3) .& 1 in
  reg_name (if srcreg =? 0 then DSP_REG_A + (dstreg .^ 1)
            else if srcreg =? 4 then DSP_REG_X0 else if srcreg =? 5 then DSP_REG_Y0
            else if srcreg =? 6 then DSP_REG_X1 else if srcreg =? 7 then DSP_REG_Y1 else srcreg).
Definition dsp_cmp : D unit := print_alu2 false d_cmp_source "Dsp: 0x%04x: cmp %s,%s %s".
Definition dsp_cmpm : D unit := print_alu2 false d_cmp_source "Dsp: 0x%04x: cmpm %s,%s %s".

(** TFR *)
Definition d_tfr_source (inst : Z) : D string :=
  let srcreg := (inst ≫ 4) .& BITMASK 3 in
  let dstreg := (inst ≫ 3) .& 1 in
  reg_name (if srcreg =? 4 then DSP_REG_X0 else if srcreg =? 5 then DSP_REG_Y0
            else if srcreg =? 6 then DSP_REG_X1 else if srcreg =? 7 then DSP_REG_Y1
            else DSP_REG_A + (dstreg .^ 1)).
Definition dsp_tfr : D unit := print_alu2 true d_tfr_source "Dsp: 0x%04x: tfr %s,%s %s".

Definition dsp_tst : D unit :=
  inst ← get_cur_inst;
  mark DSP_REG_SR;;
  pc ← get_core_pc; name ← reg_name (d_dest inst); pm ← d_gets parallelmove_name;
  d_fprintf "Dsp: 0x%04x: tst %s %s" [AInt pc; AStr name; AStr pm].

(** The two factors of MAC, MACR, MPY and MPYR. *)
Definition d_factors (k : Z) : Z * Z :=
  if k =? 0 then (DSP_REG_X0, DSP_REG_X0)
  else if k =? 1 then (DSP_REG_Y0, DSP_REG_Y0)
  else if k =? 2 then (DSP_REG_X1, DSP_REG_X0)
  else if k =? 3 then (DSP_REG_Y1, DSP_REG_Y0)
  else if k =? 4 then (DSP_REG_X0, DSP_REG_Y1)
  else if k =? 5 then (DSP_REG_Y0, DSP_REG_X0)
  else if k =? 6 then (DSP_REG_X1, DSP_REG_Y0)
  else (DSP_REG_Y1, DSP_REG_X1).

Definition print_mul (fmt : string) : D unit :=
  inst ← get_cur_inst;
  let sign_name := if nz (inst .& (1 ≪ 2)) then "-"%string else ""%string in
  let '(src1reg, src2reg) := d_factors ((inst ≫ 4) .& BITMASK 3) in
  mark (d_dest inst);; mark DSP_REG_SR;;
  pc ← get_core_pc; s1 ← reg_name src1reg; s2 ← reg_name src2reg; name ← reg_name (d_dest inst);
  pm ← d_gets parallelmove_name;
  d_fprintf fmt [AInt pc; AStr sign_name; AStr s1; AStr s2; AStr name; AStr pm].

Definition dsp_mac : D unit := print_mul "Dsp: 0x%04x: mac %s%s,%s,%s %s".
Definition dsp_macr : D unit := print_mul "Dsp: 0x%04x: macr %s%s,%s,%s %s".
Definition dsp_mpy : D unit := print_mul "Dsp: 0x%04x: mpy %s%s,%s,%s %s".
Definition dsp_mpyr : D unit := print_mul "Dsp: 0x%04x: mpyr %s%s,%s,%s %s".

Definition dsp_move : D unit :=
  pc ← get_core_pc; pm ← d_gets parallelmove_name;
  d_fprintf "Dsp: 0x%04x: move %s" [AInt pc; AStr pm].
Definition dsp_move_nopm : D unit :=
  dsp_pm;;
  pc ← get_core_pc; pm ← d_gets parallelmove_name;
  d_fprintf "Dsp: 0x%04x: move %s" [AInt pc; AStr pm].

(** ** Opcode tables *)

Definition opcodes_0809 : list (D unit) :=
  [dsp_move_nopm; dsp_move_nopm; dsp_move_nopm; dsp_move_nopm;
   dsp_movep; dsp_movep; dsp_movep; dsp_movep;
   dsp_move_nopm; dsp_move_nopm; dsp_move_nopm; dsp_move_nopm;
   dsp_movep; dsp_movep; dsp_movep; dsp_movep].

Definition opcodes_0a : list (D unit) :=
  [dsp_bclr; dsp_bset; dsp_bclr; dsp_bset; dsp_jclr; dsp_jset; dsp_jclr; dsp_jset;
   dsp_bclr; dsp_bset; dsp_bclr; dsp_bset; dsp_jclr; dsp_jset; dsp_jclr; dsp_jset;
   dsp_bclr; dsp_bset; dsp_bclr; dsp_bset; dsp_jclr; dsp_jset; dsp_jclr; dsp_jset;
   dsp_jclr; dsp_jset; dsp_bclr; dsp_bset; dsp_jmp; dsp_jcc; dsp_undefined; dsp_undefined].

Definition opcodes_0b : list (D unit) :=
  [dsp_bchg; dsp_btst; dsp_bchg; dsp_btst; dsp_jsclr; dsp_jsset; dsp_jsclr; dsp_jsset;
   dsp_bchg; dsp_btst; dsp_bchg; dsp_btst; dsp_jsclr; dsp_jsset; dsp_jsclr; dsp_jsset;
   dsp_bchg; dsp_btst; dsp_bchg; dsp_btst; dsp_jsclr; dsp_jsset; dsp_jsclr; dsp_jsset;
   dsp_jsclr; dsp_jsclr; dsp_bchg; dsp_btst; dsp_jsr; dsp_jscc; dsp_undefined; dsp_undefined].

Definition opcodes_alu003f : list (D unit) :=
  [ (* 0x00 - 0x0f *)
    dsp_move; dsp_tfr; dsp_addr; dsp_tst; dsp_undefined; dsp_cmp; dsp_subr; dsp_cmpm;
    dsp_undefined; dsp_tfr; dsp_addr; dsp_tst; dsp_undefined; dsp_cmp; dsp_subr; dsp_cmpm;
    (* 0x10 - 0x1f *)
    dsp_add; dsp_rnd; dsp_addl; dsp_clr; dsp_sub; dsp_undefined; dsp_subl; dsp_not;
    dsp_add; dsp_rnd; dsp_addl; dsp_clr; dsp_sub; dsp_undefined; dsp_subl; dsp_not;
    (* 0x20 - 0x2f *)
    dsp_add; dsp_adc; dsp_asr; dsp_lsr; dsp_sub; dsp_sbc; dsp_abs; dsp_ror;
    dsp_add; dsp_adc; dsp_asr; dsp_lsr; dsp_sub; dsp_sbc; dsp_abs; dsp_ror;
    (* 0x30 - 0x3f *)
    dsp_add; dsp_adc; dsp_asl; dsp_lsl; dsp_sub; dsp_sbc; dsp_neg; dsp_rol;
    dsp_add; dsp_adc; dsp_asl; dsp_lsl; dsp_sub; dsp_sbc; dsp_neg; dsp_rol ].

Definition opcodes_alu407f : list (D unit) :=
  [dsp_add; dsp_tfr; dsp_or; dsp_eor; dsp_sub; dsp_cmp; dsp_and; dsp_cmpm;
   dsp_add; dsp_tfr; dsp_or; dsp_eor; dsp_sub; dsp_cmp; dsp_and; dsp_cmpm].

Definition opcodes_alu80ff : list (D unit) := [dsp_mpy; dsp_mpyr; dsp_mac; dsp_macr].

(** ** Highbyte opcodes dispatchers *)

Definition opcode8h_0 : D unit :=
  inst ← get_cur_inst;
  if inst <=? 0x00008c then
    if inst =? 0x000000 then dsp_nop
    else if inst =? 0x000004 then dsp_rti
    else if inst =? 0x000005 then dsp_illegal
    else if inst =? 0x000006 then dsp_swi
    else if inst =? 0x00000c then dsp_rts
    else if inst =? 0x000084 then dsp_reset
    else if inst =? 0x000086 then dsp_wait
    else if inst =? 0x000087 then dsp_stop
    else if inst =? 0x00008c then dsp_enddo
    else mret tt
  else
    if inst .& 0xf8 =? 0x0000b8 then dsp_andi
    else if inst .& 0xf8 =? 0x0000f8 then dsp_ori
    else mret tt.

Definition opcode8h_1 : D unit :=
  inst ← get_cur_inst;
  if inst .& 0xfff8c7 =? 0x018040 then dsp_div
  else if inst .& 0xfff8c7 =? 0x01c805 then dsp_norm
  else mret tt.

Definition opcode8h_4 : D unit :=
  inst ← get_cur_inst;
  let k := (inst ≫ 5) .& BITMASK 3 in
  if k =? 0 then dsp_lua else if k =? 5 then dsp_movec else mret tt.

Definition opcode8h_6 : D unit :=
  inst ← get_cur_inst;
  if nz (inst .& (1 ≪ 5)) then dsp_rep else dsp_do.

Definition opcode8h_8 : D unit :=
  inst ← get_cur_inst; d_call opcodes_0809 ((inst ≫ 12) .& BITMASK 4).

Definition opcode8h_a : D unit :=
  inst ← get_cur_inst;
  d_call opcodes_0a (((inst ≫ 11) .& (BITMASK 2 ≪ 3)) .| ((inst ≫ 5) .& BITMASK 3)).

Definition opcode8h_b : D unit :=
  inst ← get_cur_inst;
  d_call opcodes_0b (((inst ≫ 11) .& (BITMASK 2 ≪ 3)) .| ((inst ≫ 5) .& BITMASK 3)).

Definition opcodes8h : list (D unit) :=
  [opcode8h_0; opcode8h_1; dsp_tcc; dsp_tcc; opcode8h_4; dsp_movec; opcode8h_6; dsp_movem;
   opcode8h_8; opcode8h_8; opcode8h_a; opcode8h_b; dsp_jmp; dsp_jsr; dsp_jcc; dsp_jscc].

(** ** The entry point *)

(** The dispatch of [cur_inst]. *)
Definition disasm_decoded : D unit :=
  inst ← get_cur_inst;
  let value := (inst ≫ 16) .& BITMASK 8 in
  if (value <? 0x10) && negb (inst .& 0xfe4000 =? 0x080000) then
    d_call opcodes8h value
  else
    dsp_pm;;
    let value := inst .& BITMASK 8 in
    if value <? 0x40 then d_call opcodes_alu003f value
    else if value <? 0x80 then d_call opcodes_alu407f (value .& BITMASK 4)
    else d_call opcodes_alu80ff (value .& BITMASK 2).

Definition dsp56k_disasm : D unit :=
  prev ← d_gets prev_inst_pc; pc ← get_core_pc;
  if prev =? pc then mret tt else
  d_modify (d_prev pc);;
  inst ← read_memory pc;
  d_modify (d_inst inst);;
  d_modify (d_pmname "");;
  disasm_decoded.

(** ** Some lines *)

(** The disassembler at address 0x40 with two words of program memory. *)
Definition disasm_demo (w1 w2 : Z) : disasm :=
  mk_disasm (c_pc 0x40 (c_ramint (aset (aset ∅ (DSP_SPACE_P, 0x40) w1) (DSP_SPACE_P, 0x41) w2) zero_core))
    0 0x10000 ∅ ∅ "" [].

(** The printed lines and the registers marked. *)
Definition disasm_run (w1 w2 : Z) : option (list string * list Z) :=
  match dsp56k_disasm (disasm_demo w1 w2) with
  | DOk _ d => Some (d.(stderr), filter (λ r, nz (aget d.(registers_changed) r)) (seqZ 0 64))
  | DUB _ => None
  end.

Example disasm_mac :
  disasm_run 0xf098d2 0 = Some (["Dsp: 0x0040: mac y0,x0,a x:(r0)+,x0 y:(r4)+,y0"%string],
    [DSP_REG_X0; DSP_REG_Y0; DSP_REG_A; DSP_REG_R0; DSP_REG_R0 + 4; DSP_REG_SR]).
Proof. vm_compute. reflexivity. Qed.

Example disasm_jclr :
  disasm_run 0x0aa980 0x000123 = Some (["Dsp: 0x0040: jclr #0,x:0xffe9,p:0x0123"%string], []).
Proof. vm_compute. reflexivity. Qed.

Example disasm_move_immediate :
  disasm_run 0x44f400 0xabcdef = Some (["Dsp: 0x0040: move #0xabcdef,x0"%string], [DSP_REG_X0]).
Proof. vm_compute. reflexivity. Qed.
