(* ===== verification/Mfp.v ===== *)
(** * The interrupt controller (MFP 68901) and the 200 Hz tick

    [src/src/mfp.cpp]: the timers, the registers, the general purpose lines and the
    interrupt logic; the part of [src/src/uae_cpu/newcpu.cpp] that lets the MFP interrupt the
    CPU; [invoke200HzInterrupt] of [src/src/main.cpp], which drives timer C.

    The state has the members of class MFP the code uses (the USART is never accessed) and
    the CPU's [regs.spcflags], which TriggerMFP changes.  A method is a function from state to
    state; the ones with signed arithmetic that can overflow, or with a division, return
    [res]. *)

From S2P Require Import Prelude.

(** ** C arithmetic that can go wrong *)

(** [Unfinished] is no behaviour of the code: it stands for a loop that needs more iterations
    than the model gives it. *)
Inductive trap := IntOverflow | DivByZero | ArrayBounds | Unfinished.
Inductive res (A : Type) := Ret (a : A) | Trap (e : trap).
Arguments Ret {A}. Arguments Trap {A}.

#[global] Instance res_ret : MRet res := λ A a, Ret a.
#[global] Instance res_bind : MBind res := λ A B f r, match r with Ret a => f a | Trap e => Trap e end.

Definition INT_MAX : Z := 2147483647.
Definition to_int (x : Z) : res Z := if (- INT_MAX - 1 <=? x) && (x <=? INT_MAX) then Ret x else Trap IntOverflow.
(** The conversion of an unsigned value to [int]. *)
Definition s32 (x : Z) : Z := (x + 2147483648) mod 4294967296 - 2147483648.

(** ** Timers *)

Record MFP_Timer := mk_timer { control : Z; start_data : Z; current_data : Z; tstate : bool }.

Definition timer_reset : MFP_Timer := mk_timer 0 0 0 false.

Definition isRunning (t : MFP_Timer) : bool := 0 <? t.(control) .& 0x0f.

Definition setControl (value : Z) (t : MFP_Timer) : MFP_Timer :=
  mk_timer (value .& 0x0f) t.(start_data) t.(current_data) (if nz (value .& 0x10) then false else t.(tstate)).

Definition getControl (t : MFP_Timer) : Z := u8 (t.(control) .| (b2z t.(tstate) ≪ 5)).

Definition setData (value : Z) (t : MFP_Timer) : MFP_Timer :=
  mk_timer t.(control) value (if isRunning t then t.(current_data) else value) t.(tstate).

Definition resetCounter (t : MFP_Timer) : MFP_Timer :=
  if isRunning t then mk_timer t.(control) t.(start_data) t.(start_data) true else t.

Definition getData (t : MFP_Timer) : Z * MFP_Timer :=
  let current := if isRunning t && (2 <? t.(current_data)) then t.(current_data) - 1 else t.(current_data) in
  (current, mk_timer t.(control) t.(start_data) current t.(tstate)).

Definition MFP_FREQ : Z := 2457600.

Definition compute_timer_freq (t : MFP_Timer) : Z :=
  let c := t.(control) in
  let freq :=
    if c =? 1 then MFP_FREQ / 4 else if c =? 2 then MFP_FREQ / 10 else if c =? 3 then MFP_FREQ / 16
    else if c =? 4 then MFP_FREQ / 50 else if c =? 5 then MFP_FREQ / 64 else if c =? 6 then MFP_FREQ / 100
    else if c =? 7 then MFP_FREQ / 200 else MFP_FREQ / 64 in
  if nz t.(start_data) then freq / t.(start_data) else freq / 192.

(** ** The MFP *)

Record MFP := mk_mfp {
  input : Z;
  GPIP_data : Z;
  active_edge : Z;
  data_direction : Z;
  irq_enable : Z;
  irq_pending : Z;
  irq_inservice : Z;
  irq_mask : Z;
  tA : MFP_Timer;
  tB : MFP_Timer;
  tC : MFP_Timer;
  tD : MFP_Timer;
  timerCounter : Z;
  vr : Z;
  spcflags : Z }.

Definition set_input (v : Z) (m : MFP) : MFP :=
  mk_mfp v m.(GPIP_data) m.(active_edge) m.(data_direction) m.(irq_enable) m.(irq_pending) m.(irq_inservice) m.(irq_mask) m.(tA) m.(tB) m.(tC) m.(tD) m.(timerCounter) m.(vr) m.(spcflags).
Definition set_gpip (v : Z) (m : MFP) : MFP :=
  mk_mfp m.(input) v m.(active_edge) m.(data_direction) m.(irq_enable) m.(irq_pending) m.(irq_inservice) m.(irq_mask) m.(tA) m.(tB) m.(tC) m.(tD) m.(timerCounter) m.(vr) m.(spcflags).
Definition set_edge (v : Z) (m : MFP) : MFP :=
  mk_mfp m.(input) m.(GPIP_data) v m.(data_direction) m.(irq_enable) m.(irq_pending) m.(irq_inservice) m.(irq_mask) m.(tA) m.(tB) m.(tC) m.(tD) m.(timerCounter) m.(vr) m.(spcflags).
Definition set_direction (v : Z) (m : MFP) : MFP :=
  mk_mfp m.(input) m.(GPIP_data) m.(active_edge) v m.(irq_enable) m.(irq_pending) m.(irq_inservice) m.(irq_mask) m.(tA) m.(tB) m.(tC) m.(tD) m.(timerCounter) m.(vr) m.(spcflags).
Definition set_enable (v : Z) (m : MFP) : MFP :=
  mk_mfp m.(input) m.(GPIP_data) m.(active_edge) m.(data_direction) v m.(irq_pending) m.(irq_inservice) m.(irq_mask) m.(tA) m.(tB) m.(tC) m.(tD) m.(timerCounter) m.(vr) m.(spcflags).
Definition set_pending (v : Z) (m : MFP) : MFP :=
  mk_mfp m.(input) m.(GPIP_data) m.(active_edge) m.(data_direction) m.(irq_enable) v m.(irq_inservice) m.(irq_mask) m.(tA) m.(tB) m.(tC) m.(tD) m.(timerCounter) m.(vr) m.(spcflags).
Definition set_inservice (v : Z) (m : MFP) : MFP :=
  mk_mfp m.(input) m.(GPIP_data) m.(active_edge) m.(data_direction) m.(irq_enable) m.(irq_pending) v m.(irq_mask) m.(tA) m.(tB) m.(tC) m.(tD) m.(timerCounter) m.(vr) m.(spcflags).
Definition set_mask (v : Z) (m : MFP) : MFP :=
  mk_mfp m.(input) m.(GPIP_data) m.(active_edge) m.(data_direction) m.(irq_enable) m.(irq_pending) m.(irq_inservice) v m.(tA) m.(tB) m.(tC) m.(tD) m.(timerCounter) m.(vr) m.(spcflags).
Definition set_A (v : MFP_Timer) (m : MFP) : MFP :=
  mk_mfp m.(input) m.(GPIP_data) m.(active_edge) m.(data_direction) m.(irq_enable) m.(irq_pending) m.(irq_inservice) m.(irq_mask) v m.(tB) m.(tC) m.(tD) m.(timerCounter) m.(vr) m.(spcflags).
Definition set_B (v : MFP_Timer) (m : MFP) : MFP :=
  mk_mfp m.(input) m.(GPIP_data) m.(active_edge) m.(data_direction) m.(irq_enable) m.(irq_pending) m.(irq_inservice) m.(irq_mask) m.(tA) v m.(tC) m.(tD) m.(timerCounter) m.(vr) m.(spcflags).
Definition set_C (v : MFP_Timer) (m : MFP) : MFP :=
  mk_mfp m.(input) m.(GPIP_data) m.(active_edge) m.(data_direction) m.(irq_enable) m.(irq_pending) m.(irq_inservice) m.(irq_mask) m.(tA) m.(tB) v m.(tD) m.(timerCounter) m.(vr) m.(spcflags).
Definition set_D (v : MFP_Timer) (m : MFP) : MFP :=
  mk_mfp m.(input) m.(GPIP_data) m.(active_edge) m.(data_direction) m.(irq_enable) m.(irq_pending) m.(irq_inservice) m.(irq_mask) m.(tA) m.(tB) m.(tC) v m.(timerCounter) m.(vr) m.(spcflags).
Definition set_counter (v : Z) (m : MFP) : MFP :=
  mk_mfp m.(input) m.(GPIP_data) m.(active_edge) m.(data_direction) m.(irq_enable) m.(irq_pending) m.(irq_inservice) m.(irq_mask) m.(tA) m.(tB) m.(tC) m.(tD) v m.(vr) m.(spcflags).
Definition set_vr (v : Z) (m : MFP) : MFP :=
  mk_mfp m.(input) m.(GPIP_data) m.(active_edge) m.(data_direction) m.(irq_enable) m.(irq_pending) m.(irq_inservice) m.(irq_mask) m.(tA) m.(tB) m.(tC) m.(tD) m.(timerCounter) v m.(spcflags).
Definition set_spcflags (v : Z) (m : MFP) : MFP :=
  mk_mfp m.(input) m.(GPIP_data) m.(active_edge) m.(data_direction) m.(irq_enable) m.(irq_pending) m.(irq_inservice) m.(irq_mask) m.(tA) m.(tB) m.(tC) m.(tD) m.(timerCounter) m.(vr) v.

Definition SPCFLAG_MFP : Z := 0x200.
Definition SPCFLAG_VBL : Z := 0x100.
Definition SPCFLAG_STOP : Z := 0x01.
Definition SPCFLAGS_SET (f : Z) (m : MFP) : MFP := set_spcflags (m.(spcflags) .| f) m.
Definition SPCFLAGS_CLEAR (f : Z) (m : MFP) : MFP := set_spcflags (m.(spcflags) .& Z.lnot f) m.
Definition TriggerMFP (enable : bool) (m : MFP) : MFP :=
  if enable then SPCFLAGS_SET SPCFLAG_MFP m else SPCFLAGS_CLEAR SPCFLAG_MFP m.

Definition MFP_VR_VECTOR : Z := 0xf0.
Definition MFP_VR_SEI : Z := 0x08.

Definition mfp_reset (m : MFP) : MFP :=
  mk_mfp 0xff 0xff 0 0 0 0 0 0 timer_reset timer_reset timer_reset timer_reset 0 0x0100 m.(spcflags).

(** A request for an interrupt. *)
Definition IRQ (int_level count : Z) (m : MFP) : res MFP :=
  let i := 1 ≪ int_level in
  let m := if int_level =? 5 then set_C (resetCounter m.(tC)) m else m in
  if m.(irq_enable) .& i =? 0 then Ret m
  else
    m ← (if int_level =? 5 then n ← to_int (m.(timerCounter) + count); Ret (set_counter n m) else Ret m);
    if nz (m.(irq_pending) .& i) then Ret m
    else
      let m := set_pending (u16 (m.(irq_pending) .| i)) m in
      if m.(irq_mask) .& i =? 0 then Ret m
      else if i <? m.(irq_inservice) then Ret m
      else Ret (TriggerMFP true m).

Definition map_gpip_to_ier : list Z := [0; 1; 2; 3; 6; 7; 14; 15].

(** [for(j = 0, i = 1 ; j < 8 ; j++, i <<= 1)] over the lines, with the interrupt of each. *)
Definition for_lines (body : Z → Z → MFP → res MFP) (m : MFP) : res MFP :=
  foldl (λ r '(j, l), m ← r; body (1 ≪ j) l m) (Ret m) (zip (seqZ 0 8) map_gpip_to_ier).

Definition set_active_edge (value : Z) (m : MFP) : res MFP :=
  m ← for_lines (λ i l m,
        if negb (m.(active_edge) .& i =? value .& i) && negb (nz (m.(data_direction) .& i))
           && negb (m.(active_edge) .& i =? m.(input) .& i)
        then IRQ l 1 m else Ret m) m;
  Ret (set_edge value m).

Definition setGPIPbit (mask value : Z) (m : MFP) : res MFP :=
  let mask := mask .& 0xff in
  let oldGPIP := m.(GPIP_data) in
  let m := set_input (u8 (m.(input) .& Z.lnot mask)) m in
  let m := set_input (u8 (m.(input) .| (value .& mask))) m in
  let mask := mask .& Z.lnot m.(data_direction) in
  let m := set_gpip (u8 (m.(GPIP_data) .& Z.lnot mask)) m in
  let m := set_gpip (u8 (m.(GPIP_data) .| (value .& mask))) m in
  let m := set_gpip (m.(GPIP_data) .& 0xff) m in
  for_lines (λ i l m,
    if oldGPIP .& i =? m.(GPIP_data) .& i then Ret m
    else if nz (m.(active_edge) .& i) then if nz (oldGPIP .& i) then Ret m else IRQ l 1 m
    else if nz (m.(GPIP_data) .& i) then Ret m else IRQ l 1 m) m.

(** ** Registers *)

Definition MFP_HW : Z := 0xfffa00.
Definition MFP_SIZE : Z := 0x30.

(** [busy] is what the parallel port's getBusy returns. *)
Definition mfp_handleRead (busy addr : Z) (m : MFP) : Z * MFP :=
  let addr := u32 (addr - MFP_HW) in
  if MFP_SIZE <? addr then (0, m) else
  if addr =? 0x01 then (u8 ((m.(GPIP_data) .& Z.lnot 0x21) .| busy), m) else
  if addr =? 0x03 then (m.(active_edge), m) else
  if addr =? 0x05 then (m.(data_direction), m) else
  if addr =? 0x07 then (u8 (m.(irq_enable) ≫ 8), m) else
  if addr =? 0x09 then (u8 m.(irq_enable), m) else
  if addr =? 0x0b then (0x20, m) else
  if addr =? 0x0d then (u8 m.(irq_pending), m) else
  if addr =? 0x0f then (u8 (m.(irq_inservice) ≫ 8), m) else
  if addr =? 0x11 then (u8 m.(irq_inservice), m) else
  if addr =? 0x13 then (u8 (m.(irq_mask) ≫ 8), m) else
  if addr =? 0x15 then (u8 m.(irq_mask), m) else
  if addr =? 0x17 then (u8 m.(vr), m) else
  if addr =? 0x19 then (getControl m.(tA), m) else
  if addr =? 0x1b then (getControl m.(tB), m) else
  if addr =? 0x1d then (u8 ((getControl m.(tC) ≪ 4) .| getControl m.(tD)), m) else
  if addr =? 0x1f then let '(v, t) := getData m.(tA) in (v, set_A t m) else
  if addr =? 0x21 then let '(v, t) := getData m.(tB) in (v, set_B t m) else
  if addr =? 0x23 then let '(v, t) := getData m.(tC) in (v, set_C t m) else
  if addr =? 0x25 then let '(v, t) := getData m.(tD) in (v, set_D t m) else
  if addr =? 0x2d then (0x80, m) else
  (0, m).

Definition mfp_handleWrite (addr value : Z) (m : MFP) : res MFP :=
  let addr := u32 (addr - MFP_HW) in
  if MFP_SIZE <? addr then Ret m else
  if addr =? 0x01 then
    let m := set_gpip (u8 (m.(GPIP_data) .& Z.lnot m.(data_direction))) m in
    Ret (set_gpip (u8 (m.(GPIP_data) .| (value .& m.(data_direction)))) m) else
  if addr =? 0x03 then set_active_edge value m else
  if addr =? 0x05 then
    let m := set_direction value m in
    let m := set_gpip (m.(GPIP_data) .& m.(data_direction)) m in
    Ret (set_gpip (u8 (m.(GPIP_data) .| (m.(input) .& Z.lnot m.(data_direction)))) m) else
  if addr =? 0x07 then
    let m := set_enable (u16 ((m.(irq_enable) .& 0x00ff) .| (value ≪ 8))) m in
    Ret (set_pending (m.(irq_pending) .& m.(irq_enable)) m) else
  if addr =? 0x09 then
    let m := set_enable (u16 ((m.(irq_enable) .& 0xff00) .| value)) m in
    Ret (set_pending (m.(irq_pending) .& m.(irq_enable)) m) else
  if addr =? 0x0b then
    let m := set_pending (u16 (m.(irq_pending) .& ((value ≪ 8) .| 0xff))) m in
    Ret (if m.(irq_pending) .& m.(irq_mask) =? 0 then TriggerMFP false m else m) else
  if addr =? 0x0d then
    let m := set_pending (u16 (m.(irq_pending) .& (0xff00 .| value))) m in
    Ret (if m.(irq_pending) .& m.(irq_mask) =? 0 then TriggerMFP false m else m) else
  if addr =? 0x0f then
    let m := set_inservice (u16 (m.(irq_inservice) .& ((value ≪ 8) .| 0xff))) m in
    Ret (if nz (m.(irq_pending) .& m.(irq_mask)) then TriggerMFP true m else m) else
  if addr =? 0x11 then
    let m := set_inservice (u16 (m.(irq_inservice) .& (0xff00 .| value))) m in
    Ret (if nz (m.(irq_pending) .& m.(irq_mask)) then TriggerMFP true m else m) else
  if addr =? 0x13 then
    let m := set_mask (u16 ((m.(irq_mask) .& 0x00ff) .| (value ≪ 8))) m in
    Ret (TriggerMFP (nz (m.(irq_pending) .& m.(irq_mask))) m) else
  if addr =? 0x15 then
    let m := set_mask (u16 ((m.(irq_mask) .& 0xff00) .| value)) m in
    Ret (TriggerMFP (nz (m.(irq_pending) .& m.(irq_mask))) m) else
  if addr =? 0x17 then
    let m := set_vr value m in
    Ret (if nz (m.(vr) .& MFP_VR_SEI) then m
         else let m := set_inservice 0 m in TriggerMFP (nz (m.(irq_pending) .& m.(irq_mask))) m) else
  if addr =? 0x19 then Ret (set_A (setControl value m.(tA)) m) else
  if addr =? 0x1b then Ret (set_B (setControl value m.(tB)) m) else
  if addr =? 0x1d then
    let m := set_C (setControl (value ≫ 4) m.(tC)) m in
    Ret (set_D (setControl (value .& 0x0f) m.(tD)) m) else
  if addr =? 0x1f then Ret (set_A (setData value m.(tA)) m) else
  if addr =? 0x21 then Ret (set_B (setData value m.(tB)) m) else
  if addr =? 0x23 then Ret (set_C (setData value m.(tC)) m) else
  if addr =? 0x25 then Ret (set_D (setData value m.(tD)) m) else
  Ret m.

(** ** Interrupting the CPU *)

(** [for(j = 15, i = 0x8000 ; i ; j--, i>>=1) if(irq_pending & i & irq_mask) break]: [n] is
    the number of levels left, [None] the end of the loop with [i = 0]. *)
Fixpoint find_level (n : nat) (x : Z) : option Z :=
  match n with
  | O => None
  | S k => if nz (x .& (1 ≪ Z.of_nat k)) then Some (Z.of_nat k) else find_level k x
  end.

(** The vector number, or 0. *)
Definition doInterrupt (m : MFP) : res (Z * MFP) :=
  match find_level 16 (m.(irq_pending) .& m.(irq_mask)) with
  | None => Ret (0, TriggerMFP false m)
  | Some j =>
    let i := 1 ≪ j in
    if i <=? m.(irq_inservice) then Ret (0, TriggerMFP false m)
    else
      let vector := (m.(vr) .& MFP_VR_VECTOR) + j in
      '(done, m) ← (if negb (j =? 5) then Ret (true, m)
                    else n ← to_int (m.(timerCounter) - 1); Ret (n <=? 0, set_counter n m));
      let m := if done : bool then TriggerMFP false (set_pending (u16 (m.(irq_pending) .& Z.lnot i)) m) else m in
      if nz (m.(vr) .& MFP_VR_SEI) then Ret (vector, set_inservice (u16 (m.(irq_inservice) .| i)) m)
      else Ret (vector, if nz (m.(irq_pending) .& m.(irq_mask)) then TriggerMFP true m else m)
  end.

(** The MFP part of SERVE_VBL_MFP, with the CPU's interrupt mask: the vector the CPU takes,
    if any, the mask then (MFPInterrupt sets it to 6), and the state.  [resetStop]: the CPU was
    stopped, and continues. *)
Definition serve_mfp (resetStop : bool) (intmask : Z) (m : MFP) : res (option Z * Z * MFP) :=
  if nz (m.(spcflags) .& SPCFLAG_MFP) then
    if intmask <? 6 then
      '(vector_number, m) ← doInterrupt m;
      if nz vector_number then Ret (Some vector_number, 6, if resetStop then SPCFLAGS_CLEAR SPCFLAG_STOP m else m)
      else Ret (None, intmask, SPCFLAGS_CLEAR SPCFLAG_MFP m)
    else Ret (None, intmask, m)
  else Ret (None, intmask, m).

(** ** The 200 Hz tick *)

Definition timerC_ms_ticks (m : MFP) : res Z :=
  let freq := compute_timer_freq m.(tC) in
  if freq =? 0 then Trap DivByZero else Ret (1000 / freq).

Definition VBL_MS : Z := 20.

(** Calls that leave the MFP: to the SCC, and to the host's event and screen handling. *)
Inductive tick_call := call_SCC_IRQ | call_vbl_irq.

Record ticker := mk_ticker { lastTicks : Z; VBL_counter : Z; tick_mfp : MFP; tick_calls : list tick_call }.

(** [rtc]: the tick comes from the host's real time clock ([using_rtc_timer]);
    [newTicks]: the host's clock in milliseconds. *)
Definition invoke200HzInterrupt (rtc : bool) (newTicks : Z) (k : ticker) : res ticker :=
  ms_ticks ← timerC_ms_ticks k.(tick_mfp);
  let last := if k.(lastTicks) =? 0 then u32 (newTicks - ms_ticks) else k.(lastTicks) in
  if ms_ticks =? 0 then Trap DivByZero else
  let count := s32 (u32 (newTicks - last) / ms_ticks) in
  if count =? 0 then Ret (mk_ticker last k.(VBL_counter) k.(tick_mfp) k.(tick_calls))
  else
    let count := if rtc then 1 else count in
    milliseconds ← to_int (count * ms_ticks);
    m ← IRQ 5 count k.(tick_mfp);
    counter ← to_int (k.(VBL_counter) + milliseconds);
    let calls := k.(tick_calls) ++ [call_SCC_IRQ] in
    if VBL_MS <=? counter then
      Ret (mk_ticker (u32 (last + milliseconds)) (counter - VBL_MS) (SPCFLAGS_SET SPCFLAG_VBL m) (calls ++ [call_vbl_irq]))
    else Ret (mk_ticker (u32 (last + milliseconds)) counter m calls).

(** ** Examples *)

Definition mfp_boot : MFP := mfp_reset (mk_mfp 0 0 0 0 0 0 0 0 timer_reset timer_reset timer_reset timer_reset 0 0 0).

(** Registers as TOS programs them: vector base 0x40 with software end of interrupt, keyboard
    and timer C interrupts enabled. *)
Definition mfp_tos : MFP :=
  set_vr 0x48 (set_mask 0x0060 (set_enable 0x0060 mfp_boot)).

Example keyboard_interrupt :
  (m ← setGPIPbit 0x10 0 mfp_tos; '(v, m) ← doInterrupt m; Ret (v, m.(irq_inservice), m.(spcflags))) = Ret (0x46, 0x40, 0).
Proof. reflexivity. Qed.

Example tick_twice :
  (m ← IRQ 5 2 mfp_tos; '(v1, m) ← doInterrupt m; m ← mfp_handleWrite 0xfffa11 0xdf m; '(v2, m) ← doInterrupt m;
   Ret (v1, v2, m.(irq_pending))) = Ret (0x45, 0x45, 0).
Proof. reflexivity. Qed.
