(* ===== verification/Ram.v ===== *)
(** * The emulated machine's memory

    [src/src/uae_cpu/memory.h]: the areas that are memory and the ones of the chips' registers,
    and big-endian bytes, words and longs.  The build with boundary checks, without PROTECT2K
    (the argument [super] of test_ram_boundary is then unused) and FIXED_VIDEORAM, ARAM_PAGE_CHECK
    and HW_SIGSEGV.  What does not throw is here; the checked accesses are with the components
    that use them, as an access that fails ends them in their own way. *)

From S2P Require Import Prelude.

(** The sizes the emulator is started with. *)
Class ram_config := { FastRAM_SIZE : Z; VideoRAMBase : Z }.

Definition STRAM_END : Z := 0x0e00000.
Definition FastRAM_BEGIN : Z := 0x1000000.
Definition ARANYMVRAMSIZE : Z := 0x00100000.

Definition test_ram_boundary `{ram_config} (addr size : Z) (write : bool) : bool :=
  ((addr <=? FastRAM_BEGIN + FastRAM_SIZE - size)
   && (negb write || (FastRAM_BEGIN <=? addr) || ((8 <=? addr) && (addr <=? STRAM_END - size))))
  || ((VideoRAMBase <=? addr) && (addr <=? VideoRAMBase + ARANYMVRAMSIZE - size)).

(** Addresses from 0xff000000 on are those of the 24 bit address space. *)
Definition phys_addr (addr : Z) : Z := if addr <? 0xff000000 then addr else addr .& 0x00ffffff.
Definition is_hardware (addr : Z) : bool := addr .& 0xfff00000 =? 0x00f00000.

(** Memory is big-endian. *)
Definition do_get_mem_byte (m : gmap Z Z) (addr : Z) : Z := aget m addr.
Definition do_get_mem_word (m : gmap Z Z) (addr : Z) : Z := (aget m addr ≪ 8) .| aget m (addr + 1).
Definition do_get_mem_long (m : gmap Z Z) (addr : Z) : Z := (do_get_mem_word m addr ≪ 16) .| do_get_mem_word m (addr + 2).
Definition do_put_mem_byte (addr b : Z) (m : gmap Z Z) : gmap Z Z := aset m addr (b .& 0xff).
Definition do_put_mem_word (addr w : Z) (m : gmap Z Z) : gmap Z Z := aset (aset m addr (w ≫ 8)) (addr + 1) (w .& 0xff).
Definition do_put_mem_long (addr l : Z) (m : gmap Z Z) : gmap Z Z :=
  do_put_mem_word (addr + 2) (l .& 0xffff) (do_put_mem_word addr (l ≫ 16) m).
