(* ===== verification/Blitter.v ===== *)
(** * The blitter

    [src/src/blitter.cpp]: the registers of the Atari's bit block transfer chip, and the
    transfer itself: source and destination words, halftone patterns, the 16 logic
    operations, skew, end masks.  With it the word accesses of the emulated machine's memory
    ([src/src/uae_cpu/memory.h]) and the splitting of long accesses to registers
    ([src/src/fakeio.cpp]).

    Memory accesses can leave the transfer: with a bus error (a C++ exception or longjmp),
    or into the registers of other chips, which are not part of the model.  The state at
    that point is part of the result, as the registers keep their values.  The backups of the
    two addresses have no value until they are written. *)

From S2P Require Import Prelude Ram.

(** ** State *)

Record blitter := mk_blitter {
  halftone_ram : gmap Z Z;
  end_mask_1 : Z;
  end_mask_2 : Z;
  end_mask_3 : Z;
  NFSR : bool;
  FXSR : bool;
  x_count : Z;
  y_count : Z;
  hop : Z;
  op : Z;
  line_num : Z;
  skewreg : Z;
  halftone_curroffset : Z;
  halftone_direction : Z;
  source_x_inc : Z;
  source_y_inc : Z;
  dest_x_inc : Z;
  dest_y_inc : Z;
  source_addr : Z;
  source_addr_backup : option Z;
  dest_addr : Z;
  dest_addr_backup : option Z;
  blit : bool;
  mem : gmap Z Z }.

Definition b_halftone_ram (v : gmap Z Z) (b : blitter) : blitter :=
  mk_blitter v b.(end_mask_1) b.(end_mask_2) b.(end_mask_3) b.(NFSR) b.(FXSR) b.(x_count) b.(y_count) b.(hop) b.(op)
    b.(line_num) b.(skewreg) b.(halftone_curroffset) b.(halftone_direction) b.(source_x_inc) b.(source_y_inc)
    b.(dest_x_inc) b.(dest_y_inc) b.(source_addr) b.(source_addr_backup) b.(dest_addr) b.(dest_addr_backup) b.(blit)
    b.(mem).
Definition b_end_mask_1 (v : Z) (b : blitter) : blitter :=
  mk_blitter b.(halftone_ram) v b.(end_mask_2) b.(end_mask_3) b.(NFSR) b.(FXSR) b.(x_count) b.(y_count) b.(hop) b.(op)
    b.(line_num) b.(skewreg) b.(halftone_curroffset) b.(halftone_direction) b.(source_x_inc) b.(source_y_inc)
    b.(dest_x_inc) b.(dest_y_inc) b.(source_addr) b.(source_addr_backup) b.(dest_addr) b.(dest_addr_backup) b.(blit)
    b.(mem).
Definition b_end_mask_2 (v : Z) (b : blitter) : blitter :=
  mk_blitter b.(halftone_ram) b.(end_mask_1) v b.(end_mask_3) b.(NFSR) b.(FXSR) b.(x_count) b.(y_count) b.(hop) b.(op)
    b.(line_num) b.(skewreg) b.(halftone_curroffset) b.(halftone_direction) b.(source_x_inc) b.(source_y_inc)
    b.(dest_x_inc) b.(dest_y_inc) b.(source_addr) b.(source_addr_backup) b.(dest_addr) b.(dest_addr_backup) b.(blit)
    b.(mem).
Definition b_end_mask_3 (v : Z) (b : blitter) : blitter :=
  mk_blitter b.(halftone_ram) b.(end_mask_1) b.(end_mask_2) v b.(NFSR) b.(FXSR) b.(x_count) b.(y_count) b.(hop) b.(op)
    b.(line_num) b.(skewreg) b.(halftone_curroffset) b.(halftone_direction) b.(source_x_inc) b.(source_y_inc)
    b.(dest_x_inc) b.(dest_y_inc) b.(source_addr) b.(source_addr_backup) b.(dest_addr) b.(dest_addr_backup) b.(blit)
    b.(mem).
Definition b_NFSR (v : bool) (b : blitter) : blitter :=
  mk_blitter b.(halftone_ram) b.(end_mask_1) b.(end_mask_2) b.(end_mask_3) v b.(FXSR) b.(x_count) b.(y_count) b.(hop)
    b.(op) b.(line_num) b.(skewreg) b.(halftone_curroffset) b.(halftone_direction) b.(source_x_inc) b.(source_y_inc)
    b.(dest_x_inc) b.(dest_y_inc) b.(source_addr) b.(source_addr_backup) b.(dest_addr) b.(dest_addr_backup) b.(blit)
    b.(mem).
Definition b_FXSR (v : bool) (b : blitter) : blitter :=
  mk_blitter b.(halftone_ram) b.(end_mask_1) b.(end_mask_2) b.(end_mask_3) b.(NFSR) v b.(x_count) b.(y_count) b.(hop)
    b.(op) b.(line_num) b.(skewreg) b.(halftone_curroffset) b.(halftone_direction) b.(source_x_inc) b.(source_y_inc)
    b.(dest_x_inc) b.(dest_y_inc) b.(source_addr) b.(source_addr_backup) b.(dest_addr) b.(dest_addr_backup) b.(blit)
    b.(mem).
Definition b_x_count (v : Z) (b : blitter) : blitter :=
  mk_blitter b.(halftone_ram) b.(end_mask_1) b.(end_mask_2) b.(end_mask_3) b.(NFSR) b.(FXSR) v b.(y_count) b.(hop)
    b.(op) b.(line_num) b.(skewreg) b.(halftone_curroffset) b.(halftone_direction) b.(source_x_inc) b.(source_y_inc)
    b.(dest_x_inc) b.(dest_y_inc) b.(source_addr) b.(source_addr_backup) b.(dest_addr) b.(dest_addr_backup) b.(blit)
    b.(mem).
Definition b_y_count (v : Z) (b : blitter) : blitter :=
  mk_blitter b.(halftone_ram) b.(end_mask_1) b.(end_mask_2) b.(end_mask_3) b.(NFSR) b.(FXSR) b.(x_count) v b.(hop)
    b.(op) b.(line_num) b.(skewreg) b.(halftone_curroffset) b.(halftone_direction) b.(source_x_inc) b.(source_y_inc)
    b.(dest_x_inc) b.(dest_y_inc) b.(source_addr) b.(source_addr_backup) b.(dest_addr) b.(dest_addr_backup) b.(blit)
    b.(mem).
Definition b_hop (v : Z) (b : blitter) : blitter :=
  mk_blitter b.(halftone_ram) b.(end_mask_1) b.(end_mask_2) b.(end_mask_3) b.(NFSR) b.(FXSR) b.(x_count) b.(y_count) v
    b.(op) b.(line_num) b.(skewreg) b.(halftone_curroffset) b.(halftone_direction) b.(source_x_inc) b.(source_y_inc)
    b.(dest_x_inc) b.(dest_y_inc) b.(source_addr) b.(source_addr_backup) b.(dest_addr) b.(dest_addr_backup) b.(blit)
    b.(mem).
Definition b_op (v : Z) (b : blitter) : blitter :=
  mk_blitter b.(halftone_ram) b.(end_mask_1) b.(end_mask_2) b.(end_mask_3) b.(NFSR) b.(FXSR) b.(x_count) b.(y_count)
    b.(hop) v b.(line_num) b.(skewreg) b.(halftone_curroffset) b.(halftone_direction) b.(source_x_inc)
    b.(source_y_inc) b.(dest_x_inc) b.(dest_y_inc) b.(source_addr) b.(source_addr_backup) b.(dest_addr)
    b.(dest_addr_backup) b.(blit) b.(mem).
Definition b_line_num (v : Z) (b : blitter) : blitter :=
  mk_blitter b.(halftone_ram) b.(end_mask_1) b.(end_mask_2) b.(end_mask_3) b.(NFSR) b.(FXSR) b.(x_count) b.(y_count)
    b.(hop) b.(op) v b.(skewreg) b.(halftone_curroffset) b.(halftone_direction) b.(source_x_inc) b.(source_y_inc)
    b.(dest_x_inc) b.(dest_y_inc) b.(source_addr) b.(source_addr_backup) b.(dest_addr) b.(dest_addr_backup) b.(blit)
    b.(mem).
Definition b_skewreg (v : Z) (b : blitter) : blitter :=
  mk_blitter b.(halftone_ram) b.(end_mask_1) b.(end_mask_2) b.(end_mask_3) b.(NFSR) b.(FXSR) b.(x_count) b.(y_count)
    b.(hop) b.(op) b.(line_num) v b.(halftone_curroffset) b.(halftone_direction) b.(source_x_inc) b.(source_y_inc)
    b.(dest_x_inc) b.(dest_y_inc) b.(source_addr) b.(source_addr_backup) b.(dest_addr) b.(dest_addr_backup) b.(blit)
    b.(mem).
Definition b_halftone_curroffset (v : Z) (b : blitter) : blitter :=
  mk_blitter b.(halftone_ram) b.(end_mask_1) b.(end_mask_2) b.(end_mask_3) b.(NFSR) b.(FXSR) b.(x_count) b.(y_count)
    b.(hop) b.(op) b.(line_num) b.(skewreg) v b.(halftone_direction) b.(source_x_inc) b.(source_y_inc) b.(dest_x_inc)
    b.(dest_y_inc) b.(source_addr) b.(source_addr_backup) b.(dest_addr) b.(dest_addr_backup) b.(blit) b.(mem).
Definition b_halftone_direction (v : Z) (b : blitter) : blitter :=
  mk_blitter b.(halftone_ram) b.(end_mask_1) b.(end_mask_2) b.(end_mask_3) b.(NFSR) b.(FXSR) b.(x_count) b.(y_count)
    b.(hop) b.(op) b.(line_num) b.(skewreg) b.(halftone_curroffset) v b.(source_x_inc) b.(source_y_inc) b.(dest_x_inc)
    b.(dest_y_inc) b.(source_addr) b.(source_addr_backup) b.(dest_addr) b.(dest_addr_backup) b.(blit) b.(mem).
Definition b_source_x_inc (v : Z) (b : blitter) : blitter :=
  mk_blitter b.(halftone_ram) b.(end_mask_1) b.(end_mask_2) b.(end_mask_3) b.(NFSR) b.(FXSR) b.(x_count) b.(y_count)
    b.(hop) b.(op) b.(line_num) b.(skewreg) b.(halftone_curroffset) b.(halftone_direction) v b.(source_y_inc)
    b.(dest_x_inc) b.(dest_y_inc) b.(source_addr) b.(source_addr_backup) b.(dest_addr) b.(dest_addr_backup) b.(blit)
    b.(mem).
Definition b_source_y_inc (v : Z) (b : blitter) : blitter :=
  mk_blitter b.(halftone_ram) b.(end_mask_1) b.(end_mask_2) b.(end_mask_3) b.(NFSR) b.(FXSR) b.(x_count) b.(y_count)
    b.(hop) b.(op) b.(line_num) b.(skewreg) b.(halftone_curroffset) b.(halftone_direction) b.(source_x_inc) v
    b.(dest_x_inc) b.(dest_y_inc) b.(source_addr) b.(source_addr_backup) b.(dest_addr) b.(dest_addr_backup) b.(blit)
    b.(mem).
Definition b_dest_x_inc (v : Z) (b : blitter) : blitter :=
  mk_blitter b.(halftone_ram) b.(end_mask_1) b.(end_mask_2) b.(end_mask_3) b.(NFSR) b.(FXSR) b.(x_count) b.(y_count)
    b.(hop) b.(op) b.(line_num) b.(skewreg) b.(halftone_curroffset) b.(halftone_direction) b.(source_x_inc)
    b.(source_y_inc) v b.(dest_y_inc) b.(source_addr) b.(source_addr_backup) b.(dest_addr) b.(dest_addr_backup)
    b.(blit) b.(mem).
Definition b_dest_y_inc (v : Z) (b : blitter) : blitter :=
  mk_blitter b.(halftone_ram) b.(end_mask_1) b.(end_mask_2) b.(end_mask_3) b.(NFSR) b.(FXSR) b.(x_count) b.(y_count)
    b.(hop) b.(op) b.(line_num) b.(skewreg) b.(halftone_curroffset) b.(halftone_direction) b.(source_x_inc)
    b.(source_y_inc) b.(dest_x_inc) v b.(source_addr) b.(source_addr_backup) b.(dest_addr) b.(dest_addr_backup)
    b.(blit) b.(mem).
Definition b_source_addr (v : Z) (b : blitter) : blitter :=
  mk_blitter b.(halftone_ram) b.(end_mask_1) b.(end_mask_2) b.(end_mask_3) b.(NFSR) b.(FXSR) b.(x_count) b.(y_count)
    b.(hop) b.(op) b.(line_num) b.(skewreg) b.(halftone_curroffset) b.(halftone_direction) b.(source_x_inc)
    b.(source_y_inc) b.(dest_x_inc) b.(dest_y_inc) v b.(source_addr_backup) b.(dest_addr) b.(dest_addr_backup)
    b.(blit) b.(mem).
Definition b_source_addr_backup (v : option Z) (b : blitter) : blitter :=
  mk_blitter b.(halftone_ram) b.(end_mask_1) b.(end_mask_2) b.(end_mask_3) b.(NFSR) b.(FXSR) b.(x_count) b.(y_count)
    b.(hop) b.(op) b.(line_num) b.(skewreg) b.(halftone_curroffset) b.(halftone_direction) b.(source_x_inc)
    b.(source_y_inc) b.(dest_x_inc) b.(dest_y_inc) b.(source_addr) v b.(dest_addr) b.(dest_addr_backup) b.(blit)
    b.(mem).
Definition b_dest_addr (v : Z) (b : blitter) : blitter :=
  mk_blitter b.(halftone_ram) b.(end_mask_1) b.(end_mask_2) b.(end_mask_3) b.(NFSR) b.(FXSR) b.(x_count) b.(y_count)
    b.(hop) b.(op) b.(line_num) b.(skewreg) b.(halftone_curroffset) b.(halftone_direction) b.(source_x_inc)
    b.(source_y_inc) b.(dest_x_inc) b.(dest_y_inc) b.(source_addr) b.(source_addr_backup) v b.(dest_addr_backup)
    b.(blit) b.(mem).
Definition b_dest_addr_backup (v : option Z) (b : blitter) : blitter :=
  mk_blitter b.(halftone_ram) b.(end_mask_1) b.(end_mask_2) b.(end_mask_3) b.(NFSR) b.(FXSR) b.(x_count) b.(y_count)
    b.(hop) b.(op) b.(line_num) b.(skewreg) b.(halftone_curroffset) b.(halftone_direction) b.(source_x_inc)
    b.(source_y_inc) b.(dest_x_inc) b.(dest_y_inc) b.(source_addr) b.(source_addr_backup) b.(dest_addr) v b.(blit)
    b.(mem).
Definition b_blit (v : bool) (b : blitter) : blitter :=
  mk_blitter b.(halftone_ram) b.(end_mask_1) b.(end_mask_2) b.(end_mask_3) b.(NFSR) b.(FXSR) b.(x_count) b.(y_count)
    b.(hop) b.(op) b.(line_num) b.(skewreg) b.(halftone_curroffset) b.(halftone_direction) b.(source_x_inc)
    b.(source_y_inc) b.(dest_x_inc) b.(dest_y_inc) b.(source_addr) b.(source_addr_backup) b.(dest_addr)
    b.(dest_addr_backup) v b.(mem).
Definition b_mem (v : gmap Z Z) (b : blitter) : blitter :=
  mk_blitter b.(halftone_ram) b.(end_mask_1) b.(end_mask_2) b.(end_mask_3) b.(NFSR) b.(FXSR) b.(x_count) b.(y_count)
    b.(hop) b.(op) b.(line_num) b.(skewreg) b.(halftone_curroffset) b.(halftone_direction) b.(source_x_inc)
    b.(source_y_inc) b.(dest_x_inc) b.(dest_y_inc) b.(source_addr) b.(source_addr_backup) b.(dest_addr)
    b.(dest_addr_backup) b.(blit) v.

(** ** Control *)

Inductive blit_stop :=
  | BusError (addr : Z)            (** THROW(2) *)
  | Hardware (addr : Z)            (** an access to a register of a chip *)
  | OutOfBounds
  | Uninitialised.

Inductive bres (A : Type) := BOk (a : A) (b : blitter) | BStop (e : blit_stop) (b : blitter).
Arguments BOk {A}. Arguments BStop {A}.

Definition B (A : Type) : Type := blitter → bres A.

#[global] Instance B_ret : MRet B := λ A a b, BOk a b.
#[global] Instance B_bind : MBind B := λ A C f m b, match m b with BOk a b => f a b | BStop e b => BStop e b end.

Definition b_stop {A} (e : blit_stop) : B A := λ b, BStop e b.
Definition b_get {A} (f : blitter → A) : B A := λ b, BOk (f b) b.
Definition b_upd (f : blitter → blitter) : B unit := λ b, BOk tt (f b).

(** [for (x = 0; x < n; x++)], the body with the value it carries. *)
Fixpoint b_for {A} (n : nat) (body : A → B A) (a : A) : B A :=
  match n with O => mret a | S n => a ← body a; b_for n body a end.

(** ** Memory *)

Section blitter.
Context `{ram_config}.

Definition check_ram_boundary (addr size : Z) (write : bool) : B unit :=
  if test_ram_boundary addr size write then mret tt else b_stop (BusError addr).

Definition phys_get_word (addr : Z) : B Z :=
  let addr := phys_addr addr in
  if is_hardware addr then b_stop (Hardware addr)
  else check_ram_boundary addr 2 false;; m ← b_get mem; mret (do_get_mem_word m addr).

Definition phys_put_word (addr w : Z) : B unit :=
  let addr := phys_addr addr in
  if is_hardware addr then b_stop (Hardware addr)
  else check_ram_boundary addr 2 true;; b_upd (λ b, b_mem (do_put_mem_word addr w b.(mem)) b).

Definition LM_UW (addr : Z) : B Z := v ← phys_get_word addr; mret (u16 v).

Definition SM_UW (addr value : Z) : B unit :=
  if (addr <=? 0x800) || ((0x0e00000 <=? addr) && (addr <? 0x1000000)) then mret tt
  else phys_put_word addr value.

(** ** The transfer *)

Definition halftone_word : B Z :=
  i ← b_get halftone_curroffset;
  if (0 <=? i) && (i <? 16) then r ← b_get halftone_ram; mret (aget r i) else b_stop OutOfBounds.

Definition add_source (inc : blitter → Z) : B unit := b_upd (λ b, b_source_addr (u32 (b.(source_addr) + inc b)) b).
Definition add_dest (inc : blitter → Z) : B unit := b_upd (λ b, b_dest_addr (u32 (b.(dest_addr) + inc b)) b).

(** [b.SM_UW(b.dest_addr, (dst_data & ~mask) | (_op & mask))] *)
Definition store_masked (f : Z → Z → Z) (mask : blitter → Z) (opd_data dst_data : Z) : B unit :=
  a ← b_get dest_addr; k ← b_get mask;
  SM_UW a (u16 ((dst_data .& Z.lnot k) .| (f opd_data dst_data .& k))).

(** The macro HOP_OPS, with its arguments: the logic operation, the shift of the source
    buffer, the fetch of a source word into it, the operand, the step of the halftone. *)
Section HOP_OPS.
Context (_op : Z → Z → Z) (_do_source_shift : Z → Z) (_get_source_data : Z → B Z)
        (_shifted_hopd_data : Z → Z → B Z) (_do_halftone_inc : B unit).

(** Destination word, operand, store. *)
Definition blit_dest (skew : Z) (mask : blitter → Z) (source_buffer : Z) : B unit :=
  a ← b_get dest_addr;
  dst_data ← LM_UW a;
  opd_data ← _shifted_hopd_data source_buffer skew;
  store_masked _op mask (u16 opd_data) dst_data.

Definition blit_first (skew source_buffer : Z) : B Z :=
  fxsr ← b_get FXSR;
  source_buffer ← (if fxsr : bool then
      s ← _get_source_data (_do_source_shift source_buffer);
      add_source source_x_inc;; mret s
    else mret source_buffer);
  source_buffer ← _get_source_data (_do_source_shift source_buffer);
  blit_dest skew end_mask_1 source_buffer;; mret source_buffer.

Definition blit_middle (skew source_buffer : Z) : B Z :=
  add_source source_x_inc;;
  add_dest dest_x_inc;;
  source_buffer ← _get_source_data (_do_source_shift source_buffer);
  blit_dest skew end_mask_2 source_buffer;; mret source_buffer.

(** [~(0xffff>>skew)] is a negative [int], so the comparison with the mask is false. *)
Definition blit_last (skew source_buffer : Z) : B Z :=
  add_dest dest_x_inc;;
  let source_buffer := _do_source_shift source_buffer in
  nfsr ← b_get NFSR; m3 ← b_get end_mask_3;
  source_buffer ← (if negb nfsr || (m3 <? Z.lnot (0xffff ≫ skew)) then
      add_source source_x_inc;; _get_source_data source_buffer
    else mret source_buffer);
  blit_dest skew end_mask_3 source_buffer;; mret source_buffer.

Definition blit_line (skew source_buffer : Z) : B Z :=
  source_buffer ← blit_first skew source_buffer;
  n ← b_get x_count;
  source_buffer ← b_for (Z.to_nat (n - 2)) (blit_middle skew) source_buffer;
  source_buffer ← (if 2 <=? n then blit_last skew source_buffer else mret source_buffer);
  add_source source_y_inc;;
  add_dest dest_y_inc;;
  _do_halftone_inc;;
  mret source_buffer.

(** [do ... while (--b.y_count > 0)]: [n] bounds the lines. *)
Fixpoint blit_lines (n : nat) (skew source_buffer : Z) : B unit :=
  match n with
  | O => mret tt
  | S n =>
    source_buffer ← blit_line skew source_buffer;
    b_upd (λ b, b_y_count (u16 (b.(y_count) - 1)) b);;
    y ← b_get y_count;
    if 0 <? y then blit_lines n skew source_buffer else mret tt
  end.

Definition HOP_OPS : B unit :=
  skewr ← b_get skewreg;
  let skew := skewr .& 15 in
  h ← b_get hop;
  (if nz (h .& 1) then
     l ← b_get line_num;
     b_upd (b_halftone_curroffset (if nz (l .& 0x20) then skewr .& 15 else l .& 15));;
     yi ← b_get dest_y_inc;
     b_upd (b_halftone_direction (if 0 <=? yi then 1 else -1))
   else mret tt);;
  y ← b_get y_count;
  blit_lines (Z.to_nat (if y =? 0 then 65536 else y)) skew 0.
End HOP_OPS.

(** The 16 logic operations. *)
Definition logic_ops : list (Z → Z → Z) :=
  [ (λ opd dst, 0);
    (λ opd dst, opd .& dst);
    (λ opd dst, opd .& Z.lnot dst);
    (λ opd dst, opd);
    (λ opd dst, Z.lnot opd .& dst);
    (λ opd dst, dst);
    (λ opd dst, opd .^ dst);
    (λ opd dst, opd .| dst);
    (λ opd dst, Z.lnot opd .& Z.lnot dst);
    (λ opd dst, Z.lnot opd .^ dst);
    (λ opd dst, Z.lnot dst);
    (λ opd dst, opd .| Z.lnot dst);
    (λ opd dst, Z.lnot opd);
    (λ opd dst, Z.lnot opd .| dst);
    (λ opd dst, Z.lnot opd .| Z.lnot dst);
    (λ opd dst, 0xffff) ].

Definition shift_N (source_buffer : Z) : Z := source_buffer ≫ 16.
Definition shift_P (source_buffer : Z) : Z := u32 (source_buffer ≪ 16).
Definition no_fetch (source_buffer : Z) : B Z := mret source_buffer.
Definition fetch_N (source_buffer : Z) : B Z :=
  a ← b_get source_addr; w ← LM_UW a; mret (source_buffer .| (w ≪ 16)).
Definition fetch_P (source_buffer : Z) : B Z :=
  a ← b_get source_addr; w ← LM_UW a; mret (source_buffer .| w).

Definition hop_ones (_ _ : Z) : B Z := mret 0xffff.
Definition hop_halftone (_ _ : Z) : B Z := halftone_word.
Definition hop_source (source_buffer skew : Z) : B Z := mret (source_buffer ≫ skew).
Definition hop_both (source_buffer skew : Z) : B Z := h ← halftone_word; mret ((source_buffer ≫ skew) .& h).

Definition no_halftone_inc : B unit := mret tt.
Definition halftone_inc : B unit :=
  b_upd (λ b, b_halftone_curroffset ((b.(halftone_curroffset) + b.(halftone_direction)) .& 15) b).

(** The functions _HOP_0_OP_00_N to _HOP_3_OP_15_P; hop2op3n and hop2op3p are _HOP_2_OP_03
    (BLITTER_MEMMOVE is undefined). *)
Definition do_hop_op_N : list (list (B unit)) :=
  [ (λ f, HOP_OPS f shift_N no_fetch hop_ones no_halftone_inc) <$> logic_ops;
    (λ f, HOP_OPS f shift_N no_fetch hop_halftone halftone_inc) <$> logic_ops;
    (λ f, HOP_OPS f shift_N fetch_N hop_source no_halftone_inc) <$> logic_ops;
    (λ f, HOP_OPS f shift_N fetch_N hop_both halftone_inc) <$> logic_ops ].
Definition do_hop_op_P : list (list (B unit)) :=
  [ (λ f, HOP_OPS f shift_P no_fetch hop_ones no_halftone_inc) <$> logic_ops;
    (λ f, HOP_OPS f shift_P no_fetch hop_halftone halftone_inc) <$> logic_ops;
    (λ f, HOP_OPS f shift_P fetch_P hop_source no_halftone_inc) <$> logic_ops;
    (λ f, HOP_OPS f shift_P fetch_P hop_both halftone_inc) <$> logic_ops ].

Definition b_call (t : list (list (B unit))) (h o : Z) : B unit :=
  match (if (0 <=? h) && (0 <=? o) then t !! Z.to_nat h ≫= λ l, l !! Z.to_nat o else None) with
  | Some f => f
  | None => b_stop OutOfBounds
  end.

(** An address that differs from its backup is replaced by it. *)
Definition restore_addr (addr : blitter → Z) (backup : blitter → option Z) (set : Z → blitter → blitter) : B unit :=
  k ← b_get backup;
  match k with
  | None => b_stop Uninitialised
  | Some k => a ← b_get addr; if a =? k then mret tt else b_upd (set k)
  end.

Definition Do_Blit : B unit :=
  restore_addr source_addr source_addr_backup b_source_addr;;
  restore_addr dest_addr dest_addr_backup b_dest_addr;;
  s ← b_get source_addr; d ← b_get dest_addr;
  if (s <=? 0x800) || ((0x0e80000 <=? s) && (s <? 0x1000000)) then mret tt
  else if (d <=? 0x800) || ((0x0e00000 <=? d) && (d <? 0x1000000)) then mret tt
  else
    i ← b_get source_x_inc; h ← b_get hop; o ← b_get op;
    if i <? 0 then b_call do_hop_op_N h o else b_call do_hop_op_P h o.

(** ** Registers *)

Definition blitter_reset : B unit :=
  b_upd (λ b, mk_blitter b.(halftone_ram) 0 0 0 false false 0 0 0 0 0 0 0 0 0 0 0 0
                0 b.(source_addr_backup) 0 b.(dest_addr_backup) false b.(mem)).

Definition LOAD_B_ff8a3c : B Z := l ← b_get line_num; mret (l .& 0x3f).
Definition STORE_B_ff8a3a (v : Z) : B unit := b_upd (b_hop (v .& 3)).
Definition STORE_B_ff8a3b (v : Z) : B unit := b_upd (b_op (v .& 15)).
Definition STORE_B_ff8a3c (v : Z) : B unit :=
  b_upd (b_line_num (v .& 0x3f));;
  y ← b_get y_count;
  if negb (y =? 0) && nz (v .& 0x80) then b_upd (b_blit true) else mret tt.
Definition STORE_B_ff8a3d (v : Z) : B unit :=
  b_upd (b_NFSR (nz (v .& 0x40)));; b_upd (b_FXSR (nz (v .& 0x80)));; b_upd (b_skewreg (v .& 0xcf)).

(** [if (blit) { Do_Blit(); blit = false; }] *)
Definition start_blit : B unit :=
  go ← b_get blit; if go : bool then Do_Blit;; b_upd (b_blit false) else mret tt.

Definition BLITTER_HW : Z := 0xff8a00.
Definition hw_addr (addr : Z) : Z := u32 (addr - BLITTER_HW).

Definition blitter_handleRead (addr : Z) : B Z :=
  let addr := hw_addr addr in
  if addr =? 0x3a then b_get hop else if addr =? 0x3b then b_get op
  else if addr =? 0x3c then LOAD_B_ff8a3c else if addr =? 0x3d then b_get skewreg
  else mret 0.

Definition blitter_handleReadW (addr : Z) : B Z :=
  let a := hw_addr addr in
  if a <? 0x20 then r ← b_get halftone_ram; mret (aget r (a / 2))
  else if a =? 0x20 then v ← b_get source_x_inc; mret (u16 v)
  else if a =? 0x22 then v ← b_get source_y_inc; mret (u16 v)
  else if a =? 0x28 then b_get end_mask_1
  else if a =? 0x2a then b_get end_mask_2
  else if a =? 0x2c then b_get end_mask_3
  else if a =? 0x2e then v ← b_get dest_x_inc; mret (u16 v)
  else if a =? 0x30 then v ← b_get dest_y_inc; mret (u16 v)
  else if a =? 0x36 then b_get x_count
  else if a =? 0x38 then b_get y_count
  else if (a =? 0x3a) || (a =? 0x3c) then
    h ← blitter_handleRead addr; l ← blitter_handleRead (addr + 1); mret ((h ≪ 8) .| l)
  else mret 0.

Definition blitter_handleReadL (addr : Z) : B Z :=
  let a := hw_addr addr in
  if a <? 0x20 then h ← blitter_handleReadW addr; l ← blitter_handleReadW (addr + 2); mret ((h ≪ 16) .| l)
  else if a =? 0x24 then b_get source_addr
  else if a =? 0x32 then b_get dest_addr
  else mret 0.

Definition blitter_handleWrite (addr value : Z) : B unit :=
  let a := hw_addr addr in
  (if a =? 0x3a then STORE_B_ff8a3a value else if a =? 0x3b then STORE_B_ff8a3b value
   else if a =? 0x3c then STORE_B_ff8a3c value else if a =? 0x3d then STORE_B_ff8a3d value
   else mret tt);;
  start_blit.

Definition blitter_handleWriteW (addr value : Z) : B unit :=
  let a := hw_addr addr in
  if a <? 0x20 then b_upd (λ b, b_halftone_ram (aset b.(halftone_ram) (a / 2) value) b)
  else
    (if a =? 0x20 then b_upd (b_source_x_inc (s16 value))
     else if a =? 0x22 then b_upd (b_source_y_inc (s16 value))
     else if a =? 0x28 then b_upd (b_end_mask_1 value)
     else if a =? 0x2a then b_upd (b_end_mask_2 value)
     else if a =? 0x2c then b_upd (b_end_mask_3 value)
     else if a =? 0x2e then b_upd (b_dest_x_inc (s16 value))
     else if a =? 0x30 then b_upd (b_dest_y_inc (s16 value))
     else if a =? 0x36 then b_upd (b_x_count value)
     else if a =? 0x38 then b_upd (b_y_count value)
     else if a =? 0x3a then STORE_B_ff8a3a (u8 (value ≫ 8));; STORE_B_ff8a3b (u8 value)
     else if a =? 0x3c then STORE_B_ff8a3c (u8 (value ≫ 8));; STORE_B_ff8a3d (u8 value)
     else mret tt);;
    start_blit.

Definition blitter_handleWriteL (addr value : Z) : B unit :=
  let a := hw_addr addr in
  if a =? 0x24 then
    b_upd (b_source_addr (value .& 0xfffffffe));; b_upd (b_source_addr_backup (Some (value .& 0xfffffffe)))
  else if a =? 0x32 then
    b_upd (b_dest_addr (value .& 0xfffffffe));; b_upd (b_dest_addr_backup (Some (value .& 0xfffffffe)))
  else blitter_handleWriteW addr (u16 (value ≫ 16));; blitter_handleWriteW (addr + 2) (u16 value).
End blitter.
