(* ===== verification/Ikbd.v ===== *)
(** * The keyboard controller (IKBD)

    [src/src/ikbd.cpp] on top of [src/src/acia.cpp]: the queue of bytes to the CPU, the
    commands from the CPU, key, mouse and joystick packets, and the interrupt line to the MFP.
    The state has the members the code reads (mousex, mousey and mouseb are only cleared) and
    the MFP it calls.  The buffers are allocated by the constructor and never NULL between
    construction and destruction. *)

From S2P Require Import Prelude Mfp.

Inductive ikbd_packet_t := IKBD_PACKET_UNKNOWN | IKBD_PACKET_KEYBOARD | IKBD_PACKET_MOUSE | IKBD_PACKET_JOYSTICK.

#[global] Instance packet_eq_dec : EqDecision ikbd_packet_t.
Proof. solve_decision. Defined.

Record ikbd := mk_ikbd {
  sr : Z;
  cr : Z;
  rxdr : Z;
  txdr : Z;
  mouse_enabled : bool;
  mouserel_enabled : bool;
  yaxis_reversed : bool;
  joy_enabled : gmap Z Z;
  joy_state : gmap Z Z;
  outbuffer : gmap Z Z;
  outwrite : Z;
  inbuffer : gmap Z Z;
  inwrite : Z;
  inread : Z;
  intype : ikbd_packet_t;
  mfp : MFP }.

Definition k_sr (v : Z) (k : ikbd) : ikbd :=
  mk_ikbd v k.(cr) k.(rxdr) k.(txdr) k.(mouse_enabled) k.(mouserel_enabled) k.(yaxis_reversed) k.(joy_enabled)
    k.(joy_state) k.(outbuffer) k.(outwrite) k.(inbuffer) k.(inwrite) k.(inread) k.(intype) k.(mfp).
Definition k_cr (v : Z) (k : ikbd) : ikbd :=
  mk_ikbd k.(sr) v k.(rxdr) k.(txdr) k.(mouse_enabled) k.(mouserel_enabled) k.(yaxis_reversed) k.(joy_enabled)
    k.(joy_state) k.(outbuffer) k.(outwrite) k.(inbuffer) k.(inwrite) k.(inread) k.(intype) k.(mfp).
Definition k_rxdr (v : Z) (k : ikbd) : ikbd :=
  mk_ikbd k.(sr) k.(cr) v k.(txdr) k.(mouse_enabled) k.(mouserel_enabled) k.(yaxis_reversed) k.(joy_enabled)
    k.(joy_state) k.(outbuffer) k.(outwrite) k.(inbuffer) k.(inwrite) k.(inread) k.(intype) k.(mfp).
Definition k_txdr (v : Z) (k : ikbd) : ikbd :=
  mk_ikbd k.(sr) k.(cr) k.(rxdr) v k.(mouse_enabled) k.(mouserel_enabled) k.(yaxis_reversed) k.(joy_enabled)
    k.(joy_state) k.(outbuffer) k.(outwrite) k.(inbuffer) k.(inwrite) k.(inread) k.(intype) k.(mfp).
Definition k_mouse_enabled (v : bool) (k : ikbd) : ikbd :=
  mk_ikbd k.(sr) k.(cr) k.(rxdr) k.(txdr) v k.(mouserel_enabled) k.(yaxis_reversed) k.(joy_enabled) k.(joy_state)
    k.(outbuffer) k.(outwrite) k.(inbuffer) k.(inwrite) k.(inread) k.(intype) k.(mfp).
Definition k_mouserel_enabled (v : bool) (k : ikbd) : ikbd :=
  mk_ikbd k.(sr) k.(cr) k.(rxdr) k.(txdr) k.(mouse_enabled) v k.(yaxis_reversed) k.(joy_enabled) k.(joy_state)
    k.(outbuffer) k.(outwrite) k.(inbuffer) k.(inwrite) k.(inread) k.(intype) k.(mfp).
Definition k_yaxis_reversed (v : bool) (k : ikbd) : ikbd :=
  mk_ikbd k.(sr) k.(cr) k.(rxdr) k.(txdr) k.(mouse_enabled) k.(mouserel_enabled) v k.(joy_enabled) k.(joy_state)
    k.(outbuffer) k.(outwrite) k.(inbuffer) k.(inwrite) k.(inread) k.(intype) k.(mfp).
Definition k_joy_enabled (v : gmap Z Z) (k : ikbd) : ikbd :=
  mk_ikbd k.(sr) k.(cr) k.(rxdr) k.(txdr) k.(mouse_enabled) k.(mouserel_enabled) k.(yaxis_reversed) v k.(joy_state)
    k.(outbuffer) k.(outwrite) k.(inbuffer) k.(inwrite) k.(inread) k.(intype) k.(mfp).
Definition k_joy_state (v : gmap Z Z) (k : ikbd) : ikbd :=
  mk_ikbd k.(sr) k.(cr) k.(rxdr) k.(txdr) k.(mouse_enabled) k.(mouserel_enabled) k.(yaxis_reversed) k.(joy_enabled) v
    k.(outbuffer) k.(outwrite) k.(inbuffer) k.(inwrite) k.(inread) k.(intype) k.(mfp).
Definition k_outbuffer (v : gmap Z Z) (k : ikbd) : ikbd :=
  mk_ikbd k.(sr) k.(cr) k.(rxdr) k.(txdr) k.(mouse_enabled) k.(mouserel_enabled) k.(yaxis_reversed) k.(joy_enabled)
    k.(joy_state) v k.(outwrite) k.(inbuffer) k.(inwrite) k.(inread) k.(intype) k.(mfp).
Definition k_outwrite (v : Z) (k : ikbd) : ikbd :=
  mk_ikbd k.(sr) k.(cr) k.(rxdr) k.(txdr) k.(mouse_enabled) k.(mouserel_enabled) k.(yaxis_reversed) k.(joy_enabled)
    k.(joy_state) k.(outbuffer) v k.(inbuffer) k.(inwrite) k.(inread) k.(intype) k.(mfp).
Definition k_inbuffer (v : gmap Z Z) (k : ikbd) : ikbd :=
  mk_ikbd k.(sr) k.(cr) k.(rxdr) k.(txdr) k.(mouse_enabled) k.(mouserel_enabled) k.(yaxis_reversed) k.(joy_enabled)
    k.(joy_state) k.(outbuffer) k.(outwrite) v k.(inwrite) k.(inread) k.(intype) k.(mfp).
Definition k_inwrite (v : Z) (k : ikbd) : ikbd :=
  mk_ikbd k.(sr) k.(cr) k.(rxdr) k.(txdr) k.(mouse_enabled) k.(mouserel_enabled) k.(yaxis_reversed) k.(joy_enabled)
    k.(joy_state) k.(outbuffer) k.(outwrite) k.(inbuffer) v k.(inread) k.(intype) k.(mfp).
Definition k_inread (v : Z) (k : ikbd) : ikbd :=
  mk_ikbd k.(sr) k.(cr) k.(rxdr) k.(txdr) k.(mouse_enabled) k.(mouserel_enabled) k.(yaxis_reversed) k.(joy_enabled)
    k.(joy_state) k.(outbuffer) k.(outwrite) k.(inbuffer) k.(inwrite) v k.(intype) k.(mfp).
Definition k_intype (v : ikbd_packet_t) (k : ikbd) : ikbd :=
  mk_ikbd k.(sr) k.(cr) k.(rxdr) k.(txdr) k.(mouse_enabled) k.(mouserel_enabled) k.(yaxis_reversed) k.(joy_enabled)
    k.(joy_state) k.(outbuffer) k.(outwrite) k.(inbuffer) k.(inwrite) k.(inread) v k.(mfp).
Definition k_mfp (v : MFP) (k : ikbd) : ikbd :=
  mk_ikbd k.(sr) k.(cr) k.(rxdr) k.(txdr) k.(mouse_enabled) k.(mouserel_enabled) k.(yaxis_reversed) k.(joy_enabled)
    k.(joy_state) k.(outbuffer) k.(outwrite) k.(inbuffer) k.(inwrite) k.(inread) k.(intype) v.

Definition inbufferlen : Z := 8192.
Definition outbufferlen : Z := 16.
Definition MOUSE_DELTA_MAX : Z := 63.
Definition JOYSTICK_THRESHOLD : Z := 16384.

Definition ACIA_SR_RXFULL : Z := 0.
Definition ACIA_SR_TXEMPTY : Z := 1.
Definition ACIA_SR_INTERRUPT : Z := 7.
Definition ACIA_CR_REC_INTER : Z := 7.

(** Array accesses. *)
Definition in_len (i n : Z) : bool := (0 <=? i) && (i <? n).
Definition k_read (a : gmap Z Z) (n i : Z) : res Z := if in_len i n then Ret (aget a i) else Trap ArrayBounds.
Definition k_write (a : gmap Z Z) (n i v : Z) : res (gmap Z Z) := if in_len i n then Ret (aset a i v) else Trap ArrayBounds.

(** ** The ACIA *)

Definition acia_reset (k : ikbd) : ikbd := k_sr (1 ≪ ACIA_SR_TXEMPTY) (k_txdr 0 (k_rxdr 0 (k_cr 0 k))).

(** ** The interrupt line *)

Definition k_lines (mask value : Z) (k : ikbd) : res ikbd := m ← setGPIPbit mask value k.(mfp); Ret (k_mfp m k).

Definition ThrowInterrupt (k : ikbd) : res ikbd :=
  let '(ier, m) := mfp_handleRead 0 0xfffa09 k.(mfp) in
  let k := k_mfp m k in
  if ier .& 0x40 =? 0 then Ret k
  else if k.(cr) .& (1 ≪ ACIA_CR_REC_INTER) =? 0 then Ret k
  else
    let k := k_sr (k.(sr) .| (1 ≪ ACIA_SR_INTERRUPT)) k in
    k ← k_lines 0x10 0x10 k;
    k_lines 0x10 0 k.

(** ** The queue *)

(** The length of the packet that starts with a byte. *)
Definition packet_len (b : Z) : Z :=
  if b =? 0xf6 then 8 else if b =? 0xf7 then 6
  else if (b =? 0xf8) || (b =? 0xf9) || (b =? 0xfa) || (b =? 0xfb) then 3
  else if b =? 0xfc then 7 else if (b =? 0xfe) || (b =? 0xff) then 2 else 1.

Definition send (value : Z) (k : ikbd) : res ikbd :=
  let value := u8 value in
  a ← k_write k.(inbuffer) inbufferlen k.(inwrite) value;
  let k := k_inbuffer a k in
  let k := k_inwrite ((k.(inwrite) + 1) .& (inbufferlen - 1)) k in
  k ← (if k.(inread) =? k.(inwrite) then
         b ← k_read k.(inbuffer) inbufferlen k.(inread);
         Ret (k_inread ((k.(inread) + packet_len b) .& (inbufferlen - 1)) k)
       else Ret k);
  ThrowInterrupt (k_sr (k.(sr) .| (1 ≪ ACIA_SR_RXFULL)) k).

Definition ReadStatus (k : ikbd) : Z := k.(sr).
Definition WriteControl (value : Z) (k : ikbd) : ikbd := k_cr value k.

Definition ReadData (k : ikbd) : res (Z * ikbd) :=
  if k.(inread) =? k.(inwrite) then Ret (k.(rxdr), k)
  else
    b ← k_read k.(inbuffer) inbufferlen k.(inread);
    let k := k_rxdr b k in
    let k := k_inread ((k.(inread) + 1) .& (inbufferlen - 1)) k in
    if k.(inread) =? k.(inwrite) then
      k ← k_lines 0x10 0x10 k;
      Ret (b, k_sr (k.(sr) .& Z.lnot ((1 ≪ ACIA_SR_INTERRUPT) .| (1 ≪ ACIA_SR_RXFULL))) k)
    else
      k ← ThrowInterrupt (k_sr (k.(sr) .| (1 ≪ ACIA_SR_RXFULL)) k);
      Ret (b, k).

Definition ikbd_reset (k : ikbd) : ikbd :=
  mk_ikbd k.(sr) k.(cr) k.(rxdr) k.(txdr) true true false (aset (aset k.(joy_enabled) 0 0) 1 1) (aset (aset k.(joy_state) 0 0) 1 0)
    k.(outbuffer) 0 k.(inbuffer) 0 0 IKBD_PACKET_UNKNOWN k.(mfp).

(** ** Commands *)

Definition int2bcd (a : Z) : Z := u8 (Z.rem a 10 + (Z.quot a 10 ≪ 4)).

(** What [localtime] or [gmtime] returns. *)
Record tm := { tm_year : Z; tm_mon : Z; tm_mday : Z; tm_hour : Z; tm_min : Z; tm_sec : Z }.

Definition send_all (l : list Z) (k : ikbd) : res ikbd := foldl (λ r v, k ← r; send v k) (Ret k) l.

Definition joystick_packet (numjoy : Z) (k : ikbd) : res ikbd :=
  k ← send (0xfe .| numjoy) (k_intype IKBD_PACKET_JOYSTICK k); send (aget k.(joy_state) numjoy) k.

Definition send_time (t : tm) (k : ikbd) : res ikbd :=
  send_all [0xfc; int2bcd (Z.rem t.(tm_year) 100); int2bcd (t.(tm_mon) + 1); int2bcd t.(tm_mday); int2bcd t.(tm_hour); int2bcd t.(tm_min); int2bcd t.(tm_sec)] k.

Definition command_done (k : ikbd) : res ikbd := Ret (k_outwrite 0 k).

(** [switch (outwrite)], with the first byte [c] of the command. *)
Definition command_1 (now : tm) (c : Z) (k : ikbd) : res ikbd :=
  if c =? 0x08 then command_done (k_joy_enabled (aset k.(joy_enabled) 1 1) (k_mouserel_enabled true (k_mouse_enabled true k)))
  else if c =? 0x0d then command_done k
  else if c =? 0x0f then command_done (k_yaxis_reversed true k)
  else if c =? 0x10 then command_done (k_yaxis_reversed false k)
  else if c =? 0x11 then command_done k
  else if c =? 0x12 then command_done (k_mouse_enabled false k)
  else if (c =? 0x13) || (c =? 0x14) || (c =? 0x15) then command_done k
  else if c =? 0x16 then k ← joystick_packet 1 k; command_done k
  else if c =? 0x18 then command_done k
  else if c =? 0x1a then command_done (k_joy_enabled (aset (aset k.(joy_enabled) 1 0) 0 0) k)
  else if c =? 0x1c then k ← send_time now k; command_done k
  else Ret k.

Definition command_2 (c : Z) (k : ikbd) : res ikbd :=
  if (c =? 0x07) || (c =? 0x17) then command_done k
  else if c =? 0x80 then
    if aget k.(outbuffer) 1 =? 0x01 then send 0xf1 (k_outwrite 0 (ikbd_reset k)) else Ret k
  else Ret k.

Definition command_3 (c : Z) (k : ikbd) : res ikbd :=
  if c =? 0x0a then command_done (k_joy_enabled (aset k.(joy_enabled) 1 1) (k_mouse_enabled true k))
  else if (c =? 0x0b) || (c =? 0x0c) || (c =? 0x20) || (c =? 0x21) then command_done k
  else Ret k.

Definition command_4 (c : Z) (k : ikbd) : res ikbd :=
  if c =? 0x09 then command_done (k_joy_enabled (aset k.(joy_enabled) 1 1) (k_mouserel_enabled false (k_mouse_enabled true k)))
  else Ret k.

Definition WriteData (now : tm) (value : Z) (k : ikbd) : res ikbd :=
  let k := k_txdr value k in
  a ← k_write k.(outbuffer) outbufferlen k.(outwrite) value;
  let k := k_outwrite (k.(outwrite) + 1) (k_outbuffer a k) in
  let c := aget k.(outbuffer) 0 in
  let n := k.(outwrite) in
  if n =? 1 then command_1 now c k
  else if n =? 2 then command_2 c k
  else if n =? 3 then command_3 c k
  else if n =? 4 then command_4 c k
  else if n =? 5 then if c =? 0x0e then command_done k else Ret k
  else if n =? 6 then if (c =? 0x19) || (c =? 0x1b) then command_done k else Ret k
  else command_done k.

(** ** Events of the host *)

Definition SendKey (scancode : Z) (k : ikbd) : res ikbd := send scancode (k_intype IKBD_PACKET_KEYBOARD k).

(** The new packet's motion, and the state: the previous packet is taken back when they are
    merged. *)
Definition MergeMousePacket (relx rely buttons : Z) (k : ikbd) : res (Z * Z * ikbd) :=
  if negb (bool_decide (k.(intype) = IKBD_PACKET_MOUSE)) then Ret (relx, rely, k)
  else if k.(inread) =? k.(inwrite) then Ret (relx, rely, k)
  else
    let len1 := inbufferlen - 1 in
    let mouse_inwrite := (k.(inwrite) - 3) .& len1 in
    if (k.(inread) =? mouse_inwrite) || (k.(inread) =? ((mouse_inwrite + 1) .& len1)) || (k.(inread) =? ((mouse_inwrite + 2) .& len1)) then Ret (relx, rely, k)
    else
      h ← k_read k.(inbuffer) inbufferlen mouse_inwrite;
      if (h <=? 0xf8) && (0xfb <=? h) then Ret (relx, rely, k)
      else if negb (h =? 0xf8 .| (buttons .& 3)) then Ret (relx, rely, k)
      else
        x ← k_read k.(inbuffer) inbufferlen ((mouse_inwrite + 1) .& len1);
        let distx := relx + x in
        if MOUSE_DELTA_MAX <? Z.abs distx then Ret (relx, rely, k)
        else
          y ← k_read k.(inbuffer) inbufferlen ((mouse_inwrite + 2) .& len1);
          let disty := rely + y in
          if MOUSE_DELTA_MAX <? Z.abs disty then Ret (relx, rely, k)
          else Ret (distx, disty, k_inwrite mouse_inwrite k).

(** The part of a motion that goes into one packet. *)
Definition mouse_move (slow : bool) (rel : Z) : Z :=
  if slow then if 0 <? rel then 1 else if rel <? 0 then -1 else 0
  else if MOUSE_DELTA_MAX <? Z.abs rel then if 0 <? rel then MOUSE_DELTA_MAX else - MOUSE_DELTA_MAX else rel.

Definition mouse_packet (movex movey buttons : Z) (k : ikbd) : res ikbd :=
  let k := k_intype IKBD_PACKET_MOUSE k in
  k ← send (0xf8 .| (buttons .& 3)) k;
  k ← send movex k;
  send (if k.(yaxis_reversed) then - movey else movey) k.

(** [do ... while (relx || rely)] *)
Fixpoint mouse_packets (fuel : nat) (relx rely buttons : Z) (slow : bool) (k : ikbd) : res ikbd :=
  match fuel with
  | O => Trap Unfinished
  | S fuel =>
    let movex := mouse_move slow relx in
    let movey := mouse_move slow rely in
    '(px, py, k) ← (if slow then Ret (movex, movey, k) else MergeMousePacket movex movey buttons k);
    k ← mouse_packet px py buttons k;
    if nz (relx - movex) || nz (rely - movey) then mouse_packets fuel (relx - movex) (rely - movey) buttons slow k
    else Ret k
  end.

Definition SendMouseMotion (relx rely buttons : Z) (slow : bool) (k : ikbd) : res ikbd :=
  if negb k.(mouse_enabled) then Ret k
  else if negb slow && ((2048 <? Z.abs relx) || (2048 <? Z.abs rely)) then Ret k
  else mouse_packets (S (Z.to_nat (Z.max (Z.abs relx) (Z.abs rely)))) relx rely buttons slow k.

Definition IKBD_JOY_UP : Z := 0.
Definition IKBD_JOY_DOWN : Z := 1.
Definition IKBD_JOY_LEFT : Z := 2.
Definition IKBD_JOY_RIGHT : Z := 3.
Definition IKBD_JOY_FIRE : Z := 7.

(** [if (joy_state[numjoy] != newjoy_state) ...] *)
Definition joystick_changed (numjoy newjoy_state : Z) (k : ikbd) : res ikbd :=
  if aget k.(joy_state) numjoy =? newjoy_state then Ret k
  else joystick_packet numjoy (k_joy_state (aset k.(joy_state) numjoy newjoy_state) k).

(** The joystick must be one of two, and enabled. *)
Definition with_joystick (numjoy : Z) (f : res ikbd) (k : ikbd) : res ikbd :=
  if in_len numjoy 2 then if nz (aget k.(joy_enabled) numjoy) then f else Ret k else Trap ArrayBounds.

Definition SendJoystickAxis (numjoy numaxis value : Z) (k : ikbd) : res ikbd :=
  let axis s neg pos :=
    let s := s .& Z.lnot ((1 ≪ neg) .| (1 ≪ pos)) in
    let s := if value <? - JOYSTICK_THRESHOLD then s .| (1 ≪ neg) else s in
    if JOYSTICK_THRESHOLD <? value then s .| (1 ≪ pos) else s in
  let s := u8 (aget k.(joy_state) numjoy) in
  with_joystick numjoy
    (joystick_changed numjoy
       (if numaxis =? 0 then axis s IKBD_JOY_LEFT IKBD_JOY_RIGHT
        else if numaxis =? 1 then axis s IKBD_JOY_UP IKBD_JOY_DOWN else s) k) k.

Definition SDL_HAT_UP : Z := 1.
Definition SDL_HAT_RIGHT : Z := 2.
Definition SDL_HAT_DOWN : Z := 4.
Definition SDL_HAT_LEFT : Z := 8.

Definition SendJoystickHat (numjoy value : Z) (k : ikbd) : res ikbd :=
  let s := u8 (aget k.(joy_state) numjoy .& (1 ≪ IKBD_JOY_FIRE)) in
  let s := if nz (value .& SDL_HAT_LEFT) then s .| (1 ≪ IKBD_JOY_LEFT) else s in
  let s := if nz (value .& SDL_HAT_RIGHT) then s .| (1 ≪ IKBD_JOY_RIGHT) else s in
  let s := if nz (value .& SDL_HAT_UP) then s .| (1 ≪ IKBD_JOY_UP) else s in
  let s := if nz (value .& SDL_HAT_DOWN) then s .| (1 ≪ IKBD_JOY_DOWN) else s in
  with_joystick numjoy (joystick_changed numjoy s k) k.

Definition SendJoystickButton (numjoy pressed : Z) (k : ikbd) : res ikbd :=
  let s := u8 (aget k.(joy_state) numjoy) .& Z.lnot (1 ≪ IKBD_JOY_FIRE) in
  with_joystick numjoy (joystick_changed numjoy (u8 (s .| ((pressed .& 1) ≪ IKBD_JOY_FIRE))) k) k.

(** ** Registers *)

Definition IKBD_HW : Z := 0xfffc00.

Definition ikbd_handleRead (addr : Z) (k : ikbd) : res (Z * ikbd) :=
  let a := u32 (addr - IKBD_HW) in
  if a =? 0 then Ret (ReadStatus k, k) else if a =? 2 then ReadData k else Ret (0, k).

Definition ikbd_handleWrite (now : tm) (addr value : Z) (k : ikbd) : res ikbd :=
  let a := u32 (addr - IKBD_HW) in
  if a =? 0 then Ret (if value .& 0x03 =? 0x03 then acia_reset k else WriteControl value k)
  else if a =? 2 then WriteData now value k else Ret k.

(** ** Examples *)

(** After the constructors: ACIA, then IKBD. *)
Definition ikbd_boot (m : MFP) : ikbd :=
  ikbd_reset (mk_ikbd (1 ≪ ACIA_SR_TXEMPTY) 0 0 0 false false false ∅ ∅ ∅ 0 ∅ 0 0 IKBD_PACKET_UNKNOWN m).
(** TOS enables the receive interrupt. *)
Definition ikbd_tos : ikbd := WriteControl 0x96 (ikbd_boot mfp_tos).

Example key_pressed :
  (k ← SendKey 0x1e ikbd_tos; '(v, m) ← doInterrupt k.(mfp); '(c, k) ← ReadData (k_mfp m k); Ret (v, c, k.(sr), k.(mfp).(input)))
  = Ret (0x46, 0x1e, 0x02, 0xff).
Proof. vm_compute. reflexivity. Qed.
