(* ===== verification/Mmu.v ===== *)
(** * The memory management unit of the CPU

    [src/src/uae_cpu/cpummu.cpp], [cpummu.h] and the accesses to logical memory of [memory.h], in
    the build with FULLMMU: transparent translation registers, the search of the translation
    tables with its update of the descriptors, the two levels of address translation cache,
    access errors, PFLUSH and PTEST, and byte, word and long accesses, those across a page
    boundary and those of MOVES included.

    An exception (a C++ exception or longjmp) is a result, [MThrow], that a handler can
    catch.  The registers of the chips are not part of the model: an access to one of them
    ends with [MHardware].  The memory behind the physical addresses of [test_ram_boundary] is
    [ram]; the host's memory beyond it must not be reached ([WildAccess]).  The functions that
    only print and the statistics are left out, and so are the calls that discard decoded
    instructions (flush_internals, flush_icache). *)

From S2P Require Import Prelude Ram.

(** ** State *)

Record mmu_atc_line := mk_line {
  tag : Z;
  tt' : bool;
  valid_data : bool;
  valid_inst : bool;
  global : bool;
  modified : bool;
  write_protect : bool;
  hw : bool;
  bus_fault : bool;
  phys : Z }.

Definition l_tag (v : Z) (l : mmu_atc_line) : mmu_atc_line :=
  mk_line v l.(tt') l.(valid_data) l.(valid_inst) l.(global) l.(modified) l.(write_protect) l.(hw) l.(bus_fault)
    l.(phys).
Definition l_tt' (v : bool) (l : mmu_atc_line) : mmu_atc_line :=
  mk_line l.(tag) v l.(valid_data) l.(valid_inst) l.(global) l.(modified) l.(write_protect) l.(hw) l.(bus_fault)
    l.(phys).
Definition l_valid_data (v : bool) (l : mmu_atc_line) : mmu_atc_line :=
  mk_line l.(tag) l.(tt') v l.(valid_inst) l.(global) l.(modified) l.(write_protect) l.(hw) l.(bus_fault) l.(phys).
Definition l_valid_inst (v : bool) (l : mmu_atc_line) : mmu_atc_line :=
  mk_line l.(tag) l.(tt') l.(valid_data) v l.(global) l.(modified) l.(write_protect) l.(hw) l.(bus_fault) l.(phys).
Definition l_global (v : bool) (l : mmu_atc_line) : mmu_atc_line :=
  mk_line l.(tag) l.(tt') l.(valid_data) l.(valid_inst) v l.(modified) l.(write_protect) l.(hw) l.(bus_fault) l.(phys).
Definition l_modified (v : bool) (l : mmu_atc_line) : mmu_atc_line :=
  mk_line l.(tag) l.(tt') l.(valid_data) l.(valid_inst) l.(global) v l.(write_protect) l.(hw) l.(bus_fault) l.(phys).
Definition l_write_protect (v : bool) (l : mmu_atc_line) : mmu_atc_line :=
  mk_line l.(tag) l.(tt') l.(valid_data) l.(valid_inst) l.(global) l.(modified) v l.(hw) l.(bus_fault) l.(phys).
Definition l_hw (v : bool) (l : mmu_atc_line) : mmu_atc_line :=
  mk_line l.(tag) l.(tt') l.(valid_data) l.(valid_inst) l.(global) l.(modified) l.(write_protect) v l.(bus_fault)
    l.(phys).
Definition l_bus_fault (v : bool) (l : mmu_atc_line) : mmu_atc_line :=
  mk_line l.(tag) l.(tt') l.(valid_data) l.(valid_inst) l.(global) l.(modified) l.(write_protect) l.(hw) v l.(phys).
Definition l_phys (v : Z) (l : mmu_atc_line) : mmu_atc_line :=
  mk_line l.(tag) l.(tt') l.(valid_data) l.(valid_inst) l.(global) l.(modified) l.(write_protect) l.(hw) l.(bus_fault)
    v.

Definition zero_line : mmu_atc_line := mk_line 0 false false false false false false false false 0.

(** The registers of the CPU the MMU uses. *)
Record cpu_regs := mk_regs {
  supervisor : bool;
  sfc : Z;
  dfc : Z;
  urp : Z;
  srp : Z;
  tc : Z;
  mmu_enabled : bool;
  mmu_pagesize_8k : bool;
  dtt0 : Z;
  dtt1 : Z;
  itt0 : Z;
  itt1 : Z;
  mmusr : Z;
  mmu_fault_addr : Z;
  mmu_ssw : Z;
  wb3_data : Z;
  wb3_status : Z }.

Definition r_supervisor (v : bool) (r : cpu_regs) : cpu_regs :=
  mk_regs v r.(sfc) r.(dfc) r.(urp) r.(srp) r.(tc) r.(mmu_enabled) r.(mmu_pagesize_8k) r.(dtt0) r.(dtt1) r.(itt0)
    r.(itt1) r.(mmusr) r.(mmu_fault_addr) r.(mmu_ssw) r.(wb3_data) r.(wb3_status).
Definition r_sfc (v : Z) (r : cpu_regs) : cpu_regs :=
  mk_regs r.(supervisor) v r.(dfc) r.(urp) r.(srp) r.(tc) r.(mmu_enabled) r.(mmu_pagesize_8k) r.(dtt0) r.(dtt1)
    r.(itt0) r.(itt1) r.(mmusr) r.(mmu_fault_addr) r.(mmu_ssw) r.(wb3_data) r.(wb3_status).
Definition r_dfc (v : Z) (r : cpu_regs) : cpu_regs :=
  mk_regs r.(supervisor) r.(sfc) v r.(urp) r.(srp) r.(tc) r.(mmu_enabled) r.(mmu_pagesize_8k) r.(dtt0) r.(dtt1)
    r.(itt0) r.(itt1) r.(mmusr) r.(mmu_fault_addr) r.(mmu_ssw) r.(wb3_data) r.(wb3_status).
Definition r_urp (v : Z) (r : cpu_regs) : cpu_regs :=
  mk_regs r.(supervisor) r.(sfc) r.(dfc) v r.(srp) r.(tc) r.(mmu_enabled) r.(mmu_pagesize_8k) r.(dtt0) r.(dtt1)
    r.(itt0) r.(itt1) r.(mmusr) r.(mmu_fault_addr) r.(mmu_ssw) r.(wb3_data) r.(wb3_status).
Definition r_srp (v : Z) (r : cpu_regs) : cpu_regs :=
  mk_regs r.(supervisor) r.(sfc) r.(dfc) r.(urp) v r.(tc) r.(mmu_enabled) r.(mmu_pagesize_8k) r.(dtt0) r.(dtt1)
    r.(itt0) r.(itt1) r.(mmusr) r.(mmu_fault_addr) r.(mmu_ssw) r.(wb3_data) r.(wb3_status).
Definition r_tc (v : Z) (r : cpu_regs) : cpu_regs :=
  mk_regs r.(supervisor) r.(sfc) r.(dfc) r.(urp) r.(srp) v r.(mmu_enabled) r.(mmu_pagesize_8k) r.(dtt0) r.(dtt1)
    r.(itt0) r.(itt1) r.(mmusr) r.(mmu_fault_addr) r.(mmu_ssw) r.(wb3_data) r.(wb3_status).
Definition r_mmu_enabled (v : bool) (r : cpu_regs) : cpu_regs :=
  mk_regs r.(supervisor) r.(sfc) r.(dfc) r.(urp) r.(srp) r.(tc) v r.(mmu_pagesize_8k) r.(dtt0) r.(dtt1) r.(itt0)
    r.(itt1) r.(mmusr) r.(mmu_fault_addr) r.(mmu_ssw) r.(wb3_data) r.(wb3_status).
Definition r_mmu_pagesize_8k (v : bool) (r : cpu_regs) : cpu_regs :=
  mk_regs r.(supervisor) r.(sfc) r.(dfc) r.(urp) r.(srp) r.(tc) r.(mmu_enabled) v r.(dtt0) r.(dtt1) r.(itt0) r.(itt1)
    r.(mmusr) r.(mmu_fault_addr) r.(mmu_ssw) r.(wb3_data) r.(wb3_status).
Definition r_dtt0 (v : Z) (r : cpu_regs) : cpu_regs :=
  mk_regs r.(supervisor) r.(sfc) r.(dfc) r.(urp) r.(srp) r.(tc) r.(mmu_enabled) r.(mmu_pagesize_8k) v r.(dtt1)
    r.(itt0) r.(itt1) r.(mmusr) r.(mmu_fault_addr) r.(mmu_ssw) r.(wb3_data) r.(wb3_status).
Definition r_dtt1 (v : Z) (r : cpu_regs) : cpu_regs :=
  mk_regs r.(supervisor) r.(sfc) r.(dfc) r.(urp) r.(srp) r.(tc) r.(mmu_enabled) r.(mmu_pagesize_8k) r.(dtt0) v
    r.(itt0) r.(itt1) r.(mmusr) r.(mmu_fault_addr) r.(mmu_ssw) r.(wb3_data) r.(wb3_status).
Definition r_itt0 (v : Z) (r : cpu_regs) : cpu_regs :=
  mk_regs r.(supervisor) r.(sfc) r.(dfc) r.(urp) r.(srp) r.(tc) r.(mmu_enabled) r.(mmu_pagesize_8k) r.(dtt0) r.(dtt1)
    v r.(itt1) r.(mmusr) r.(mmu_fault_addr) r.(mmu_ssw) r.(wb3_data) r.(wb3_status).
Definition r_itt1 (v : Z) (r : cpu_regs) : cpu_regs :=
  mk_regs r.(supervisor) r.(sfc) r.(dfc) r.(urp) r.(srp) r.(tc) r.(mmu_enabled) r.(mmu_pagesize_8k) r.(dtt0) r.(dtt1)
    r.(itt0) v r.(mmusr) r.(mmu_fault_addr) r.(mmu_ssw) r.(wb3_data) r.(wb3_status).
Definition r_mmusr (v : Z) (r : cpu_regs) : cpu_regs :=
  mk_regs r.(supervisor) r.(sfc) r.(dfc) r.(urp) r.(srp) r.(tc) r.(mmu_enabled) r.(mmu_pagesize_8k) r.(dtt0) r.(dtt1)
    r.(itt0) r.(itt1) v r.(mmu_fault_addr) r.(mmu_ssw) r.(wb3_data) r.(wb3_status).
Definition r_mmu_fault_addr (v : Z) (r : cpu_regs) : cpu_regs :=
  mk_regs r.(supervisor) r.(sfc) r.(dfc) r.(urp) r.(srp) r.(tc) r.(mmu_enabled) r.(mmu_pagesize_8k) r.(dtt0) r.(dtt1)
    r.(itt0) r.(itt1) r.(mmusr) v r.(mmu_ssw) r.(wb3_data) r.(wb3_status).
Definition r_mmu_ssw (v : Z) (r : cpu_regs) : cpu_regs :=
  mk_regs r.(supervisor) r.(sfc) r.(dfc) r.(urp) r.(srp) r.(tc) r.(mmu_enabled) r.(mmu_pagesize_8k) r.(dtt0) r.(dtt1)
    r.(itt0) r.(itt1) r.(mmusr) r.(mmu_fault_addr) v r.(wb3_data) r.(wb3_status).
Definition r_wb3_data (v : Z) (r : cpu_regs) : cpu_regs :=
  mk_regs r.(supervisor) r.(sfc) r.(dfc) r.(urp) r.(srp) r.(tc) r.(mmu_enabled) r.(mmu_pagesize_8k) r.(dtt0) r.(dtt1)
    r.(itt0) r.(itt1) r.(mmusr) r.(mmu_fault_addr) r.(mmu_ssw) v r.(wb3_status).
Definition r_wb3_status (v : Z) (r : cpu_regs) : cpu_regs :=
  mk_regs r.(supervisor) r.(sfc) r.(dfc) r.(urp) r.(srp) r.(tc) r.(mmu_enabled) r.(mmu_pagesize_8k) r.(dtt0) r.(dtt1)
    r.(itt0) r.(itt1) r.(mmusr) r.(mmu_fault_addr) r.(mmu_ssw) r.(wb3_data) v.

(** [atc_l1] is indexed by [super][data][write][index], [atc_l2] by [super][index], in one
    dimension as in memory; [current_atc] is the first index. *)
Record mmu := mk_mmu {
  regs : cpu_regs;
  ram : gmap Z Z;
  atc_l1 : gmap Z mmu_atc_line;
  atc_l2 : gmap Z mmu_atc_line;
  current_atc : bool }.

Definition s_regs (v : cpu_regs) (s : mmu) : mmu :=
  mk_mmu v s.(ram) s.(atc_l1) s.(atc_l2) s.(current_atc).
Definition s_ram (v : gmap Z Z) (s : mmu) : mmu :=
  mk_mmu s.(regs) v s.(atc_l1) s.(atc_l2) s.(current_atc).
Definition s_atc_l1 (v : gmap Z mmu_atc_line) (s : mmu) : mmu :=
  mk_mmu s.(regs) s.(ram) v s.(atc_l2) s.(current_atc).
Definition s_atc_l2 (v : gmap Z mmu_atc_line) (s : mmu) : mmu :=
  mk_mmu s.(regs) s.(ram) s.(atc_l1) v s.(current_atc).
Definition s_current_atc (v : bool) (s : mmu) : mmu :=
  mk_mmu s.(regs) s.(ram) s.(atc_l1) s.(atc_l2) v.

Definition lget (a : gmap Z mmu_atc_line) (i : Z) : mmu_atc_line := default zero_line (a !! i).

(** ** Control *)

Inductive wordsizes := sz_byte | sz_word | sz_long.
Definition bytes (sz : wordsizes) : Z := match sz with sz_byte => 1 | sz_word => 2 | sz_long => 4 end.

Inductive hw_access := HWget (sz : wordsizes) (addr : Z) | HWput (sz : wordsizes) (addr value : Z).

Inductive mmu_stop :=
  | ArrayBounds
  | WildAccess (addr : Z)
  | Illegal (opcode : Z)       (** op_illg *)
  | Aborted                    (** abort() *)
  | Unfinished.                (** no behaviour of the code: a loop the model does not follow *)

Inductive mres (A : Type) :=
  | MOk (a : A) (s : mmu)
  | MThrow (s : mmu)           (** THROW(2) *)
  | MHardware (h : hw_access) (s : mmu)
  | MStop (e : mmu_stop).
Arguments MOk {A}. Arguments MThrow {A}. Arguments MHardware {A}. Arguments MStop {A}.

Definition M (A : Type) : Type := mmu → mres A.

#[global] Instance M_ret : MRet M := λ A a s, MOk a s.
#[global] Instance M_bind : MBind M := λ A B f m s,
  match m s with MOk a s => f a s | MThrow s => MThrow s | MHardware h s => MHardware h s | MStop e => MStop e end.

Definition m_get {A} (f : mmu → A) : M A := λ s, MOk (f s) s.
Definition m_reg {A} (f : cpu_regs → A) : M A := λ s, MOk (f s.(regs)) s.
Definition m_upd (f : mmu → mmu) : M unit := λ s, MOk tt (f s).
Definition m_set (f : cpu_regs → cpu_regs) : M unit := λ s, MOk tt (s_regs (f s.(regs)) s).
Definition m_throw {A} : M A := λ s, MThrow s.
Definition m_hardware {A} (h : hw_access) : M A := λ s, MHardware h s.
Definition m_stop {A} (e : mmu_stop) : M A := λ _, MStop e.
(** [TRY { body } CATCH { handler }] *)
Definition m_try {A} (body : M A) (handler : M A) : M A := λ s, match body s with MThrow s => handler s | r => r end.
Definition m_when (b : bool) (m : M unit) : M unit := if b then m else mret tt.

(** ** Physical memory *)

Section mmu.
Context `{ram_config}.

Definition check_ram_boundary (addr size : Z) (write : bool) : M unit :=
  if test_ram_boundary addr size write then mret tt
  else m_set (λ r, r_mmu_ssw (((size .& 3) ≪ 5) .| (if write then 0 else 1 ≪ 8)) (r_mmu_fault_addr addr r));; m_throw.

(** The memory itself, at addresses that have been checked; it must be inside the emulated
    memory.  (Only writes of the emulated machine distinguish ROM from RAM.) *)
Definition real_get (sz : wordsizes) (addr : Z) : M Z :=
  if test_ram_boundary addr (bytes sz) false then
    m ← m_get ram;
    mret (match sz with sz_byte => do_get_mem_byte m addr | sz_word => do_get_mem_word m addr | sz_long => do_get_mem_long m addr end)
  else m_stop (WildAccess addr).

Definition real_put (sz : wordsizes) (addr v : Z) : M unit :=
  if test_ram_boundary addr (bytes sz) false then
    m_upd (λ s, s_ram (match sz with sz_byte => do_put_mem_byte addr v s.(ram) | sz_word => do_put_mem_word addr v s.(ram) | sz_long => do_put_mem_long addr v s.(ram) end) s)
  else m_stop (WildAccess addr).

Definition phys_get_long (addr : Z) : M Z :=
  let addr := phys_addr addr in
  if is_hardware addr then m_hardware (HWget sz_long addr)
  else check_ram_boundary addr 4 false;; real_get sz_long addr.

Definition phys_put_long (addr l : Z) : M unit :=
  let addr := phys_addr addr in
  if is_hardware addr then m_hardware (HWput sz_long addr l)
  else check_ram_boundary addr 4 true;; real_put sz_long addr l.

(** ** Transparent translation *)

Definition MMU_TTR_LOGICAL_BASE : Z := 0xff000000.
Definition MMU_TTR_LOGICAL_MASK : Z := 0x00ff0000.
Definition MMU_TTR_BIT_ENABLED : Z := 1 ≪ 15.
Definition MMU_TTR_BIT_SFIELD_ENABLED : Z := 1 ≪ 14.
Definition MMU_TTR_BIT_SFIELD_SUPER : Z := 1 ≪ 13.
Definition MMU_TTR_BIT_WRITE_PROTECT : Z := 1 ≪ 2.

Inductive ttr_match := TTR_NO_MATCH | TTR_NO_WRITE | TTR_OK_MATCH.

#[global] Instance ttr_match_eq_dec : EqDecision ttr_match.
Proof. solve_decision. Defined.

Definition mmu_make_transparent_region (baseaddr size : Z) (datamode : bool) : M unit :=
  ttr0 ← m_reg (if datamode then dtt0 else itt0);
  ttr1 ← m_reg (if datamode then dtt1 else itt1);
  let v := ((baseaddr .& MMU_TTR_LOGICAL_BASE) .| ((u32 (baseaddr + size - 1) .& MMU_TTR_LOGICAL_BASE) ≫ 8)) .| MMU_TTR_BIT_ENABLED in
  if ttr1 .& MMU_TTR_BIT_ENABLED =? 0 then m_set (if datamode then r_dtt1 v else r_itt1 v)
  else if ttr0 .& MMU_TTR_BIT_ENABLED =? 0 then m_set (if datamode then r_dtt0 v else r_itt0 v)
  else mret tt.

Definition mmu_do_match_ttr (ttr addr : Z) (super : bool) : ttr_match :=
  if nz (ttr .& MMU_TTR_BIT_ENABLED) then
    let msb := u8 (((addr .^ ttr) .& MMU_TTR_LOGICAL_BASE) ≫ 24) in
    let mask := u8 ((ttr .& MMU_TTR_LOGICAL_MASK) ≫ 16) in
    if msb .& Z.lnot mask =? 0 then
      if (ttr .& MMU_TTR_BIT_SFIELD_ENABLED =? 0)
         && xorb (ttr .& MMU_TTR_BIT_SFIELD_SUPER =? 0) (negb super)
      then TTR_NO_MATCH
      else if nz (ttr .& MMU_TTR_BIT_WRITE_PROTECT) then TTR_NO_WRITE else TTR_OK_MATCH
    else TTR_NO_MATCH
  else TTR_NO_MATCH.

Definition mmu_match_ttr (r : cpu_regs) (addr : Z) (super data : bool) : ttr_match :=
  match mmu_do_match_ttr (if data then r.(dtt0) else r.(itt0)) addr super with
  | TTR_NO_MATCH => mmu_do_match_ttr (if data then r.(dtt1) else r.(itt1)) addr super
  | res => res
  end.

(** ** Access errors *)

Definition MMU_SSW_TM : Z := 0x0007.
Definition MMU_SSW_SIZE_B : Z := 0x0020.
Definition MMU_SSW_SIZE_W : Z := 0x0040.
Definition MMU_SSW_SIZE_L : Z := 0x0000.
Definition MMU_SSW_RW : Z := 0x0100.
Definition MMU_SSW_ATC : Z := 0x0400.
Definition MMU_SSW_MA : Z := 0x0800.

Definition mmu_get_fc (super data : bool) : Z := (if super then 4 else 0) .| (if data then 1 else 2).

Definition mmu_bus_error {A} (addr fc : Z) (write : bool) (size : wordsizes) : M A :=
  let ssw := (fc .& MMU_SSW_TM) .| (match size with sz_byte => MMU_SSW_SIZE_B | sz_word => MMU_SSW_SIZE_W | sz_long => MMU_SSW_SIZE_L end) in
  m_set (r_wb3_status (if write then 0x80 .| ssw else 0));;
  let ssw := if write then ssw else ssw .| MMU_SSW_RW in
  m_set (r_mmu_fault_addr addr);;
  m_set (r_mmu_ssw (ssw .| MMU_SSW_ATC));;
  m_throw.

(** ** Table search *)

Definition MMU_DES_WP : Z := 4.
Definition MMU_DES_USED : Z := 8.
Definition MMU_DES_MODIFIED : Z := 16.
Definition MMU_ROOT_PTR_ADDR_MASK : Z := 0xfffffe00.
Definition MMU_PTR_PAGE_ADDR_MASK_8 : Z := 0xffffff80.
Definition MMU_PTR_PAGE_ADDR_MASK_4 : Z := 0xffffff00.
Definition MMU_PAGE_INDIRECT_MASK : Z := 0xfffffffc.

(** Where the three descriptors of an address are. *)
Definition root_index (addr : Z) : Z := (addr ≫ 23) .& 0x1fc.
Definition ptr_index (addr : Z) : Z := (addr ≫ 16) .& 0x1fc.
Definition page_desc_addr (page_8k : bool) (desc addr : Z) : Z :=
  if page_8k then (desc .& MMU_PTR_PAGE_ADDR_MASK_8) .| ((addr ≫ 11) .& 0x7c)
  else (desc .& MMU_PTR_PAGE_ADDR_MASK_4) .| ((addr ≫ 10) .& 0xfc).

(** [if ((desc & MMU_DES_USED) == 0) phys_put_long(desc_addr, desc | MMU_DES_USED)] *)
Definition mark_used (desc_addr desc : Z) : M unit :=
  m_when (desc .& MMU_DES_USED =? 0) (phys_put_long desc_addr (desc .| MMU_DES_USED)).

(** The update of the page descriptor. *)
Definition update_page (desc_addr desc : Z) (write : bool) : M Z :=
  let used := MMU_DES_USED .| MMU_DES_MODIFIED in
  let store d := phys_put_long desc_addr d;; mret d in
  if write then
    if nz (desc .& MMU_DES_WP) then
      if desc .& MMU_DES_USED =? 0 then store (desc .| MMU_DES_USED) else mret desc
    else if negb (desc .& used =? used) then store (desc .| used) else mret desc
  else if desc .& MMU_DES_USED =? 0 then store (desc .| MMU_DES_USED) else mret desc.

Definition mmu_lookup_pagetable (addr : Z) (super write : bool) : M Z :=
  root ← m_reg (if super then srp else urp);
  let desc_addr := (root .& MMU_ROOT_PTR_ADDR_MASK) .| root_index addr in
  desc ← phys_get_long desc_addr;
  if desc .& 2 =? 0 then mret 0 else
  let wp := desc in
  mark_used desc_addr desc;;
  let desc_addr := (desc .& MMU_ROOT_PTR_ADDR_MASK) .| ptr_index addr in
  desc ← phys_get_long desc_addr;
  if desc .& 2 =? 0 then mret 0 else
  let wp := wp .| desc in
  mark_used desc_addr desc;;
  page_8k ← m_reg mmu_pagesize_8k;
  let desc_addr := page_desc_addr page_8k desc addr in
  desc ← phys_get_long desc_addr;
  '(desc_addr, desc) ← (if desc .& 3 =? 2 then
                          let desc_addr := desc .& MMU_PAGE_INDIRECT_MASK in
                          desc ← phys_get_long desc_addr; mret (desc_addr, desc)
                        else mret (desc_addr, desc));
  if desc .& 1 =? 0 then mret desc else
  update_page desc_addr (desc .| (wp .& MMU_DES_WP)) write.

(** ** The translation cache *)

Definition ATC_TAG (addr : Z) : Z := addr ≫ 18.
Definition ATC_L1_SIZE : Z := 256.
Definition ATC_L2_SIZE : Z := 4096.
Definition ATC_L1_INDEX (addr : Z) : Z := (addr ≫ 12) mod ATC_L1_SIZE.
Definition ATC_L2_INDEX (addr : Z) : Z := ((addr ≫ 12) .^ (addr ≫ 20)) mod ATC_L2_SIZE.

(** The arrays in one dimension. *)
Definition l1_base (super : bool) : Z := b2z super * 1024.
Definition l1_slot (super data write : bool) (i : Z) : Z := l1_base super + b2z data * 512 + b2z write * 256 + i.
Definition l2_slot (super : bool) (i : Z) : Z := b2z super * 4096 + i.

Definition upd_l1 (i : Z) (f : mmu_atc_line → mmu_atc_line) : M unit :=
  if (0 <=? i) && (i <? 2048) then m_upd (λ s, s_atc_l1 (<[i := f (lget s.(atc_l1) i)]> s.(atc_l1)) s) else m_stop ArrayBounds.
Definition upd_l2 (i : Z) (f : mmu_atc_line → mmu_atc_line) : M unit :=
  if (0 <=? i) && (i <? 8192) then m_upd (λ s, s_atc_l2 (<[i := f (lget s.(atc_l2) i)]> s.(atc_l2)) s) else m_stop ArrayBounds.
Definition get_l1 (i : Z) : M mmu_atc_line :=
  if (0 <=? i) && (i <? 2048) then m_get (λ s, lget s.(atc_l1) i) else m_stop ArrayBounds.
Definition get_l2 (i : Z) : M mmu_atc_line :=
  if (0 <=? i) && (i <? 8192) then m_get (λ s, lget s.(atc_l2) i) else m_stop ArrayBounds.

Definition MMU_MMUSR_S : Z := 1 ≪ 7.
Definition MMU_MMUSR_G : Z := 1 ≪ 10.
Definition MMU_MMUSR_M : Z := 1 ≪ 4.
Definition MMU_MMUSR_W : Z := 1 ≪ 2.

(** The line for a page that is not resident: what is not set keeps its value. *)
Definition line_fail (l : mmu_atc_line) : mmu_atc_line := l_global false (l_valid_inst false (l_valid_data false l)).

Definition line_desc (page_8k : bool) (addr desc : Z) (l : mmu_atc_line) : mmu_atc_line :=
  let mask := if page_8k then 0xffffe000 else 0xfffff000 in
  mk_line l.(tag) l.(tt') true true (nz (desc .& MMU_MMUSR_G)) (nz (desc .& MMU_MMUSR_M)) (nz (desc .& MMU_MMUSR_W)) l.(hw) l.(bus_fault)
    (u32 ((desc .& mask) - (addr .& mask))).

(** Update the line [i] of the second level for an address. *)
Definition mmu_fill_atc_l2 (addr : Z) (super data write : bool) (i : Z) : M Z :=
  upd_l2 i (λ l, l_bus_fault false (l_hw false (l_tag (ATC_TAG addr) l)));;
  r ← m_reg id;
  let res := mmu_match_ttr r addr super data in
  if negb (bool_decide (res = TTR_NO_MATCH)) then
    let other := bool_decide (mmu_match_ttr r addr super (negb data) = res) in
    upd_l2 i (λ l, mk_line l.(tag) true (data || other) (negb data || other) true true (bool_decide (res = TTR_NO_WRITE)) l.(hw) l.(bus_fault) 0);;
    mret 0
  else
  upd_l2 i (l_tt' false);;
  if negb r.(mmu_enabled) then
    upd_l2 i (λ l, mk_line l.(tag) l.(tt') true true true true false l.(hw) l.(bus_fault) 0);;
    mret 0
  else
  desc ← m_try (d ← mmu_lookup_pagetable addr super write; mret (Some d)) (mret None);
  match desc with
  | None => upd_l2 i line_fail;; mret 0
  | Some desc =>
    if (desc .& 1 =? 0) || (negb super && nz (desc .& MMU_MMUSR_S)) then upd_l2 i line_fail;; mret desc
    else upd_l2 i (line_desc r.(mmu_pagesize_8k) addr desc);; mret desc
  end.

(** [fail: l1->tag = ~l1->tag; return false;] *)
Definition fill_fail (cl : Z) : M bool := upd_l1 cl (λ l, l_tag (u16 (Z.lnot l.(tag))) l);; mret false.

(** The first level line [cl] from the second level line [l]. *)
Definition fill_copy (addr : Z) (super write : bool) (cl : Z) (l : mmu_atc_line) : M bool :=
  upd_l1 cl (λ _, l);;
  let phys_addr := u32 (addr + l.(phys)) in
  if phys_addr .& 0xfff00000 =? 0x00f00000 then upd_l1 cl (l_hw true);; fill_fail cl
  else if phys_addr .& 0xfff00000 =? 0xfff00000 then
    upd_l1 cl (λ l, l_phys (u32 (l.(phys) - 0xff000000)) (l_hw true l));; fill_fail cl
  else if negb (test_ram_boundary phys_addr 1 write) then upd_l1 cl (l_bus_fault true);; fill_fail cl
  else mret true.

(** From the test of the second level line on; [restart] searches the tables again. *)
Fixpoint fill_checks (fuel : nat) (addr : Z) (super data write : bool) (cl : Z) : M bool :=
  match fuel with
  | O => m_stop Unfinished
  | S fuel =>
    let i := l2_slot super (ATC_L2_INDEX addr) in
    l ← get_l2 i;
    if negb (if data then l.(valid_data) else l.(valid_inst)) then fill_fail cl
    else if write && l.(write_protect) then fill_fail cl
    else if write && negb l.(modified) then
      mmu_fill_atc_l2 addr super data write i;; fill_checks fuel addr super data write cl
    else fill_copy addr super write cl l
  end.

Definition mmu_fill_atc_l1 (addr : Z) (super data write : bool) (cl : Z) : M bool :=
  let i := l2_slot super (ATC_L2_INDEX addr) in
  l ← get_l2 i;
  m_when (negb (l.(tag) =? ATC_TAG addr)) (mmu_fill_atc_l2 addr super data write i;; mret tt);;
  fill_checks 2 addr super data write cl.

Definition mmu_translate (addr : Z) (super data write : bool) : M Z :=
  let i := l2_slot super (ATC_L2_INDEX addr) in
  mmu_fill_atc_l2 addr super data write i;;
  l ← get_l2 i;
  if negb (if data then l.(valid_data) else l.(valid_inst)) then m_throw
  else mret (u32 (addr + l.(phys))).

(** ** Accesses *)

(** [redo:] the line says that the access is not to memory. *)
Definition get_redo (sz : wordsizes) (addr : Z) (super data : bool) (size : wordsizes) (cl : Z) : M Z :=
  l ← get_l1 cl;
  if l.(hw) then m_hardware (HWget sz (u32 (l.(phys) + addr)))
  else mmu_bus_error addr (mmu_get_fc super data) false size.

Definition put_redo (sz : wordsizes) (addr v : Z) (super data : bool) (size : wordsizes) (cl : Z) : M unit :=
  l ← get_l1 cl;
  if l.(hw) then m_hardware (HWput sz (u32 (l.(phys) + addr)) v)
  else m_set (r_wb3_data v);; mmu_bus_error addr (mmu_get_fc super data) true size.

(** mmu_get_byte_slow, mmu_get_word_slow, mmu_get_long_slow *)
Definition mmu_get_slow (sz : wordsizes) (addr : Z) (super data : bool) (size : wordsizes) (cl : Z) : M Z :=
  l ← get_l1 cl;
  if l.(tag) =? u16 (Z.lnot (ATC_TAG addr)) then get_redo sz addr super data size cl
  else
    ok ← mmu_fill_atc_l1 addr super data false cl;
    if ok : bool then l ← get_l1 cl; real_get sz (u32 (l.(phys) + addr))
    else get_redo sz addr super data size cl.

Definition mmu_put_slow (sz : wordsizes) (addr v : Z) (super data : bool) (size : wordsizes) (cl : Z) : M unit :=
  l ← get_l1 cl;
  if l.(tag) =? u16 (Z.lnot (ATC_TAG addr)) then put_redo sz addr v super data size cl
  else
    ok ← mmu_fill_atc_l1 addr super data true cl;
    if ok : bool then l ← get_l1 cl; real_put sz (u32 (l.(phys) + addr)) v
    else put_redo sz addr v super data size cl.

(** mmu_user_lookup: the line, and whether it is the address's. *)
Definition mmu_user_lookup (addr : Z) (super data write : bool) : M (Z * bool) :=
  let cl := l1_slot super data write (ATC_L1_INDEX addr) in
  l ← get_l1 cl; mret (cl, l.(tag) =? ATC_TAG addr).

Definition mmu_lookup (addr : Z) (data write : bool) : M (Z * bool) :=
  super ← m_get current_atc; mmu_user_lookup addr super data write.

(** mmu_get_user_byte, mmu_get_user_word, mmu_get_user_long and the corresponding stores *)
Definition mmu_get_user (sz : wordsizes) (addr : Z) (super data : bool) (size : wordsizes) : M Z :=
  '(cl, hit) ← mmu_user_lookup addr super data false;
  if hit : bool then l ← get_l1 cl; real_get sz (u32 (l.(phys) + addr))
  else mmu_get_slow sz addr super data size cl.

Definition mmu_put_user (sz : wordsizes) (addr v : Z) (super data : bool) (size : wordsizes) : M unit :=
  '(cl, hit) ← mmu_user_lookup addr super data true;
  if hit : bool then l ← get_l1 cl; real_put sz (u32 (l.(phys) + addr)) v
  else mmu_put_slow sz addr v super data size cl.

(** mmu_get_byte, mmu_get_word, mmu_get_long and the corresponding stores *)
Definition mmu_get (sz : wordsizes) (addr : Z) (data : bool) (size : wordsizes) : M Z :=
  '(cl, hit) ← mmu_lookup addr data false;
  if hit : bool then l ← get_l1 cl; real_get sz (u32 (l.(phys) + addr))
  else super ← m_reg supervisor; mmu_get_slow sz addr super data size cl.

Definition mmu_put (sz : wordsizes) (addr v : Z) (data : bool) (size : wordsizes) : M unit :=
  '(cl, hit) ← mmu_lookup addr data true;
  if hit : bool then l ← get_l1 cl; real_put sz (u32 (l.(phys) + addr)) v
  else super ← m_reg supervisor; mmu_put_slow sz addr v super data size cl.

(** An access of several parts: the words or bytes that [get] reads, and the error of a later
    part reported at the address of the first one. *)
Definition misaligned {A} (addr : Z) (m : M A) : M A :=
  m_try m (m_set (λ r, r_mmu_ssw (r.(mmu_ssw) .| MMU_SSW_MA) (r_mmu_fault_addr addr r));; m_throw).

(** The same for stores: the error of the first part has its address already. *)
Definition misaligned_put (addr v : Z) (m : M unit) : M unit :=
  m_try m (m_set (r_wb3_data v);;
           a ← m_reg mmu_fault_addr;
           m_when (negb (a =? addr)) (m_set (λ r, r_mmu_ssw (r.(mmu_ssw) .| MMU_SSW_MA) (r_mmu_fault_addr addr r)));;
           m_throw).

Definition get_word_parts (get : wordsizes → Z → M Z) (addr : Z) : M Z :=
  hi ← get sz_byte addr;
  let res := u16 (hi ≪ 8) in
  misaligned addr (lo ← get sz_byte (u32 (addr + 1)); mret (res .| lo)).

Definition get_long_parts (get : wordsizes → Z → M Z) (addr : Z) : M Z :=
  if addr .& 1 =? 0 then
    hi ← get sz_word addr;
    let res := u32 (hi ≪ 16) in
    misaligned addr (lo ← get sz_word (u32 (addr + 2)); mret (res .| lo))
  else
    b ← get sz_byte addr;
    let res := u32 (b ≪ 8) in
    misaligned addr
      (b ← get sz_byte (u32 (addr + 1)); let res := u32 ((res .| b) ≪ 8) in
       b ← get sz_byte (u32 (addr + 2)); let res := u32 ((res .| b) ≪ 8) in
       b ← get sz_byte (u32 (addr + 3)); mret (res .| b)).

Definition put_long_parts (put : wordsizes → Z → Z → M unit) (addr v : Z) : M unit :=
  if addr .& 1 =? 0 then put sz_word addr (u16 (v ≫ 16));; put sz_word (u32 (addr + 2)) (u16 v)
  else
    put sz_byte addr (u8 (v ≫ 24));; put sz_byte (u32 (addr + 1)) (u8 (v ≫ 16));;
    put sz_byte (u32 (addr + 2)) (u8 (v ≫ 8));; put sz_byte (u32 (addr + 3)) (u8 v).

Definition put_word_parts (put : wordsizes → Z → Z → M unit) (addr v : Z) : M unit :=
  put sz_byte addr (u8 (v ≫ 8));; put sz_byte (u32 (addr + 1)) (u8 v).

Definition mmu_get_word_unaligned (addr : Z) (data : bool) : M Z := get_word_parts (λ sz a, mmu_get sz a data sz_word) addr.
Definition mmu_get_long_unaligned (addr : Z) (data : bool) : M Z := get_long_parts (λ sz a, mmu_get sz a data sz_long) addr.
Definition mmu_put_long_unaligned (addr v : Z) (data : bool) : M unit :=
  misaligned_put addr v (put_long_parts (λ sz a v, mmu_put sz a v data sz_long) addr v).
Definition mmu_put_word_unaligned (addr v : Z) (data : bool) : M unit :=
  misaligned_put addr v (put_word_parts (λ sz a v, mmu_put sz a v data sz_word) addr v).

(** Not aligned and across a boundary of 4096 bytes. *)
Definition is_unaligned (addr size : Z) : bool := nz (addr .& (size - 1)) && nz ((addr .^ u32 (addr + size - 1)) .& 0x1000).

Definition get_long (addr : Z) : M Z := if is_unaligned addr 4 then mmu_get_long_unaligned addr true else mmu_get sz_long addr true sz_long.
Definition get_word (addr : Z) : M Z := if is_unaligned addr 2 then mmu_get_word_unaligned addr true else mmu_get sz_word addr true sz_word.
Definition get_byte (addr : Z) : M Z := mmu_get sz_byte addr true sz_byte.
Definition put_long (addr v : Z) : M unit := if is_unaligned addr 4 then mmu_put_long_unaligned addr v true else mmu_put sz_long addr v true sz_long.
Definition put_word (addr v : Z) : M unit := if is_unaligned addr 2 then mmu_put_word_unaligned addr v true else mmu_put sz_word addr v true sz_word.
Definition put_byte (addr v : Z) : M unit := mmu_put sz_byte addr v true sz_byte.

(** Instruction fetches ([newcpu.h]), from the program counter and an offset. *)
Definition get_ibyte (pc o : Z) : M Z := mmu_get sz_byte (u32 (pc + o + 1)) false sz_byte.
Definition get_iword (pc o : Z) : M Z := mmu_get sz_word (u32 (pc + o)) false sz_word.
Definition get_ilong (pc o : Z) : M Z :=
  let addr := u32 (pc + o) in if is_unaligned addr 4 then mmu_get_long_unaligned addr false else mmu_get sz_long addr false sz_long.

(** The address spaces of MOVES. *)
Definition fc_super (fc : Z) : bool := nz (fc .& 4).
Definition fc_data (fc : Z) : bool := negb (fc .& 3 =? 2).

Definition sfc_get_long (addr : Z) : M Z :=
  fc ← m_reg sfc;
  if is_unaligned addr 4 then get_long_parts (λ sz a, mmu_get_user sz a (fc_super fc) (fc_data fc) sz_long) addr
  else mmu_get_user sz_long addr (fc_super fc) (fc_data fc) sz_long.
Definition sfc_get_word (addr : Z) : M Z :=
  fc ← m_reg sfc;
  if is_unaligned addr 2 then get_word_parts (λ sz a, mmu_get_user sz a (fc_super fc) (fc_data fc) sz_word) addr
  else mmu_get_user sz_word addr (fc_super fc) (fc_data fc) sz_word.
Definition sfc_get_byte (addr : Z) : M Z := fc ← m_reg sfc; mmu_get_user sz_byte addr (fc_super fc) (fc_data fc) sz_byte.

Definition dfc_put_long (addr v : Z) : M unit :=
  fc ← m_reg dfc;
  misaligned_put addr v
    (if is_unaligned addr 4 then put_long_parts (λ sz a v, mmu_put_user sz a v (fc_super fc) (fc_data fc) sz_long) addr v
     else mmu_put_user sz_long addr v (fc_super fc) (fc_data fc) sz_long).
Definition dfc_put_word (addr v : Z) : M unit :=
  fc ← m_reg dfc;
  misaligned_put addr v
    (if is_unaligned addr 2 then put_word_parts (λ sz a v, mmu_put_user sz a v (fc_super fc) (fc_data fc) sz_word) addr v
     else mmu_put_user sz_word addr v (fc_super fc) (fc_data fc) sz_word).
Definition dfc_put_byte (addr v : Z) : M unit :=
  fc ← m_reg dfc;
  m_try (mmu_put_user sz_byte addr v (fc_super fc) (fc_data fc) sz_byte) (m_set (r_wb3_data v);; m_throw).

Definition valid_address (addr : Z) (write : bool) (sz : Z) : M bool :=
  m_try (super ← m_reg supervisor; a ← mmu_translate addr super true write; check_ram_boundary a sz write;; mret true) (mret false).

(** ** Flushing *)

(** [if (global || !l->global) l->tag = 0x8000] *)
Definition flush_line (glob : bool) (l : mmu_atc_line) : mmu_atc_line := if glob || negb l.(global) then l_tag 0x8000 l else l.

(** [for (j = 0; j < 4; j++) { l[i] ...; l += ATC_L1_SIZE; }] with the pointer [l]. *)
Definition flush_l1_row (l i : Z) (glob : bool) : M Z :=
  upd_l1 (l + i) (flush_line glob);;
  upd_l1 (l + ATC_L1_SIZE + i) (flush_line glob);;
  upd_l1 (l + 2 * ATC_L1_SIZE + i) (flush_line glob);;
  upd_l1 (l + 3 * ATC_L1_SIZE + i) (flush_line glob);;
  mret (l + 4 * ATC_L1_SIZE).

Definition mmu_flush_atc (addr : Z) (super glob : bool) : M unit :=
  l ← flush_l1_row (l1_base super) (ATC_L1_INDEX addr) glob;
  page_8k ← m_reg mmu_pagesize_8k;
  m_when page_8k (flush_l1_row l (ATC_L1_INDEX addr .^ 1) glob;; mret tt);;
  upd_l2 (l2_slot super (ATC_L2_INDEX addr)) (flush_line glob);;
  m_when page_8k (upd_l2 (l2_slot super (ATC_L2_INDEX addr .^ 1)) (flush_line glob)).

Definition flush_array (n : nat) (glob : bool) (a : gmap Z mmu_atc_line) : gmap Z mmu_atc_line :=
  foldl (λ a i, <[i := flush_line glob (lget a i)]> a) a (seqZ 0 (Z.of_nat n)).

Definition mmu_flush_atc_all (glob : bool) : M unit :=
  m_upd (λ s, s_atc_l1 (flush_array 2048 glob s.(atc_l1)) s);;
  m_upd (λ s, s_atc_l2 (flush_array 8192 glob s.(atc_l2)) s).

Definition mmu_reset : M unit :=
  mmu_flush_atc_all true;;
  m_set (λ r, r_mmusr 0 (r_dtt1 0 (r_dtt0 0 (r_itt1 0 (r_itt0 0 (r_srp 0 (r_urp 0 r))))))).

Definition mmu_set_tc (v : Z) : M unit :=
  old ← m_reg tc;
  if old =? v then mret tt
  else
    m_set (λ r, r_mmu_pagesize_8k (nz (v .& 0x4000)) (r_mmu_enabled (nz (v .& 0x8000)) (r_tc v r)));;
    mmu_flush_atc_all true.

Definition mmu_set_super (super : bool) : M unit := m_upd (s_current_atc super).

(** The supervisor bit of MakeFromSR. *)
Definition set_supervisor (sr : Z) : M unit :=
  let s := nz ((sr ≫ 13) .& 1) in m_set (r_supervisor s);; mmu_set_super s.

Definition mmu_set_ttr (regno v : Z) : M unit :=
  if regno =? 4 then m_set (r_itt0 v) else if regno =? 5 then m_set (r_itt1 v)
  else if regno =? 6 then m_set (r_dtt0 v) else if regno =? 7 then m_set (r_dtt1 v) else m_stop Aborted.

(** m68k_move2c (MOVEC): the cases for the registers of the MMU; those of the CPU's other
    registers (CACR, VBR and the stack pointers) change nothing here. *)
Definition m68k_move2c (regno v : Z) : M unit :=
  if regno =? 0 then m_set (r_sfc (v .& 7)) else if regno =? 1 then m_set (r_dfc (v .& 7))
  else if regno =? 3 then mmu_set_tc (v .& 0xc000)
  else if (regno =? 4) || (regno =? 5) || (regno =? 6) || (regno =? 7) then mmu_set_ttr regno (v .& 0xffffe364)
  else if regno =? 0x805 then m_set (r_mmusr v)
  else if regno =? 0x806 then m_set (r_urp (v .& 0xffffff00))
  else if regno =? 0x807 then m_set (r_srp (v .& 0xffffff00))
  else if (regno =? 2) || ((0x800 <=? regno) && (regno <=? 0x804)) then mret tt
  else m_stop (Illegal 0x4e7b).

(** ** PFLUSH and PTEST *)

Definition MMU_MMUSR_B : Z := 1 ≪ 11.
Definition MMU_MMUSR_T : Z := 1 ≪ 1.
Definition MMU_MMUSR_R : Z := 1.
(** [~0xfff|MMU_MMUSR_G|MMU_MMUSR_Ux|MMU_MMUSR_S|MMU_MMUSR_CM|MMU_MMUSR_M|MMU_MMUSR_W] *)
Definition ptest_mask : Z := 0xfffff000 .| 0x400 .| 0x300 .| 0x80 .| 0x60 .| 0x10 .| 0x4.

(** [areg] are the address registers. *)
Definition mmu_op (areg : Z → Z) (opcode : Z) : M unit :=
  d ← m_reg dfc;
  let super := fc_super d in
  if opcode .& 0xfe0 =? 0x500 then
    let glob := nz (opcode .& 8) in
    if nz (opcode .& 16) then mmu_flush_atc_all glob else mmu_flush_atc (areg (opcode .& 7)) super glob
  else if opcode .& 0xfd8 =? 0x548 then
    let write := opcode .& 32 =? 0 in
    let addr := areg (opcode .& 7) in
    mmu_flush_atc addr super true;;
    m_try
      (let i := l2_slot super (ATC_L2_INDEX addr) in
       let data := fc_data d in
       desc ← mmu_fill_atc_l2 addr super data write i;
       l ← get_l2 i;
       if negb (if data then l.(valid_data) else l.(valid_inst)) then m_set (r_mmusr MMU_MMUSR_B)
       else if l.(tt') then m_set (r_mmusr (MMU_MMUSR_T .| MMU_MMUSR_R))
       else m_set (r_mmusr ((desc .& ptest_mask) .| MMU_MMUSR_R)))
      (m_set (r_mmusr MMU_MMUSR_B))
  else m_stop (Illegal opcode).

End mmu.
