(* ===== verification/Rtc.v ===== *)
(** * The clock chip and its memory (NVRAM)

    [src/src/rtc.cpp]: 64 bytes behind an index and a data register, the first of them the
    clock's, 48 bytes of settings that are kept in a file between sessions, and their
    checksum.  The array [nvram] of the source is part of the state; the host's file, clock
    and options are arguments. *)

From S2P Require Import Prelude.

Definition CKS_RANGE_START : Z := 14.
Definition CKS_RANGE_END : Z := 14 + 47.
Definition CKS_RANGE_LEN : Z := CKS_RANGE_END - CKS_RANGE_START + 1.
Definition CKS_LOC : Z := 14 + 48.
Definition NVRAM_SYSTEM_LANGUAGE : Z := 20.
Definition NVRAM_KEYBOARD_LAYOUT : Z := 21.

(** The bytes the emulator is compiled with. *)
Definition nvram_init : list Z :=
  [48; 255; 21; 255; 23; 255; 1; 25; 3; 33; 42; 14; 112; 128;
   0; 0; 0; 0; 0; 0; 0; 0; 17; 46; 32; 1; 255; 0; 0; 56; 135; 0; 0; 0; 0; 0; 0; 0;
   0; 0; 0; 0; 0; 0; 0; 0; 0; 0; 0; 0; 0; 0; 0; 0; 0; 0; 0; 0; 0; 0; 0; 0; 224; 31].

(** [rtc_uip] is the static variable of getData. *)
Record rtc := mk_rtc { nvram : gmap Z Z; index : Z; rtc_uip : bool }.

Definition t_nvram (m : gmap Z Z) (s : rtc) : rtc := mk_rtc m s.(index) s.(rtc_uip).

(** The options of bx_options that patch uses; -1 is for not set. *)
Record rtc_options := mk_options { monitor : Z; boot_color_depth : Z; cookie_akp : Z }.

(** What localtime or gmtime returns. *)
Record tm := mk_tm { tm_sec : Z; tm_min : Z; tm_hour : Z; tm_mday : Z; tm_mon : Z; tm_year : Z }.

(** [memcpy] to consecutive indices. *)
Fixpoint copy_bytes (i : Z) (l : list Z) (m : gmap Z Z) : gmap Z Z :=
  match l with [] => m | b :: l => copy_bytes (i + 1) l (aset m i b) end.

Definition cks_range : list Z := seqZ CKS_RANGE_START CKS_RANGE_LEN.

Definition setChecksum (s : rtc) : rtc :=
  let sum := foldl (λ sum i, u8 (sum + aget s.(nvram) i)) 0 cks_range in
  t_nvram (aset (aset s.(nvram) CKS_LOC (u8 (Z.lnot sum))) (CKS_LOC + 1) sum) s.

Definition patch_monitor (o : rtc_options) (m : gmap Z Z) : gmap Z Z :=
  if o.(monitor) =? -1 then m
  else if o.(monitor) =? 0 then aset m 29 (aget m 29 .| 0x10) else aset m 29 (aget m 29 .& Z.lnot 0x10).

Definition patch_depth (o : rtc_options) (m : gmap Z Z) : gmap Z Z :=
  if o.(boot_color_depth) =? -1 then m
  else
    let res := if o.(boot_color_depth) =? 1 then 0 else if o.(boot_color_depth) =? 2 then 1 else if o.(boot_color_depth) =? 4 then 2
               else if o.(boot_color_depth) =? 8 then 3 else if o.(boot_color_depth) =? 16 then 4 else aget m 29 .& 0x07 in
    aset m 29 ((aget m 29 .& Z.lnot 0x07) .| res).

Definition patch_country (o : rtc_options) (m : gmap Z Z) : gmap Z Z :=
  if o.(cookie_akp) =? -1 then m
  else aset (aset m NVRAM_SYSTEM_LANGUAGE (o.(cookie_akp) .& 0xff)) NVRAM_KEYBOARD_LAYOUT ((o.(cookie_akp) ≫ 8) .& 0xff).

Definition patch (o : rtc_options) (s : rtc) : rtc :=
  setChecksum (t_nvram (patch_country o (patch_depth o (patch_monitor o s.(nvram)))) s).

Definition rtc_reset (o : rtc_options) (s : rtc) : rtc := let s := patch o s in mk_rtc s.(nvram) 0 s.(rtc_uip).

(** The file, if it can be opened; it is only used when it is long enough. *)
Definition load (file : option (list Z)) (s : rtc) : bool * rtc :=
  match file with
  | Some bytes =>
    if CKS_RANGE_LEN <=? Z.of_nat (length bytes)
    then (true, t_nvram (copy_bytes CKS_RANGE_START (take (Z.to_nat CKS_RANGE_LEN) bytes) s.(nvram)) s)
    else (false, s)
  | None => (false, s)
  end.

(** The result and the new file; [written]: how many bytes fwrite can write, if the file can be
    opened. *)
Definition save (written : option Z) (s : rtc) : bool * option (list Z) :=
  match written with
  | Some n => (n =? CKS_RANGE_LEN, Some (take (Z.to_nat n) (map (aget s.(nvram)) cks_range)))
  | None => (false, None)
  end.

(** The constructor. *)
Definition rtc_boot (o : rtc_options) (file : option (list Z)) (s : rtc) : rtc := rtc_reset o (load file s).2.

(** ** The registers *)

Definition setAddr (value : Z) (s : rtc) : rtc := if value <? 64 then mk_rtc s.(nvram) value s.(rtc_uip) else s.
Definition setData (value : Z) (s : rtc) : rtc := t_nvram (aset s.(nvram) s.(index) value) s.

Definition getData (now : tm) (s : rtc) : Z * rtc :=
  let i := s.(index) in
  if (i =? 0) || (i =? 2) || (i =? 4) || ((7 <=? i) && (i <=? 9)) then
    (u8 (if i =? 0 then now.(tm_sec) else if i =? 2 then now.(tm_min) else if i =? 4 then now.(tm_hour)
         else if i =? 7 then now.(tm_mday) else if i =? 8 then now.(tm_mon) + 1 else now.(tm_year) - 68), s)
  else if i =? 10 then (if s.(rtc_uip) then 0x80 else 0, mk_rtc s.(nvram) i (negb s.(rtc_uip)))
  else (aget s.(nvram) i, s).

(** The chip is at 0xff8960, with a size of 4. *)
Definition rtc_offset : Z := 0xff8960.
Definition rtc_size : Z := 4.

Definition rtc_handleRead (now : tm) (addr : Z) (s : rtc) : Z * rtc :=
  let addr := u32 (addr - rtc_offset) in
  if rtc_size <? addr then (0, s)
  else if addr =? 1 then (s.(index), s) else if addr =? 3 then getData now s else (0, s).

Definition rtc_handleWrite (addr value : Z) (s : rtc) : rtc :=
  let addr := u32 (addr - rtc_offset) in
  if rtc_size <? addr then s
  else if addr =? 1 then setAddr value s else if addr =? 3 then setData value s else s.

Definition getNvramKeyboard (s : rtc) : Z := aget s.(nvram) NVRAM_KEYBOARD_LAYOUT.
