(* ===== verification/Cpu.v ===== *)
(** * The 68040: registers, exceptions and the support code of the instructions

    [src/src/uae_cpu/newcpu.cpp], [newcpu.h], [registers.h], [spcflags.h] and the part of [m68k.h]
    for hosts without flag registers of their own: the status register and the three stack
    pointers, exceptions and interrupts, MOVEC, effective addresses with an index, bit
    fields, long multiplication and division.  The build is the interpreter with FULLMMU,
    without the JIT and without the debugging options.

    The state has the members of [regs] and [regflags] the code uses; those of the MMU and the
    supervisor bit are in [mem].  The flags hold 0 or 1 in the code (every SET_xFLG stores the
    value of a comparison or of one bit), here a [bool].  [pc_offset] is the variable m68k_pc_offset
    of the generator of the instruction handlers (gencpu.c): the part of the instruction the
    emitted code has already read past [pc].

    [CLeave] is the end of a handler before its last statement (a goto to the end label or a
    return); [CThrow] an access error on its way to m68k_execute.  Copies for debugging
    (lastint_regs) and the limiter of exceptions per second are left out. *)

From S2P Require Import Prelude Ram Mmu.

(** ** Machine integers *)

Definition bit_size (sz : wordsizes) : Z := match sz with sz_byte => 8 | sz_word => 16 | sz_long => 32 end.
Definition bit_mask (sz : wordsizes) : Z := match sz with sz_byte => 0xff | sz_word => 0xffff | sz_long => 0xffffffff end.
Definition cmask (sz : wordsizes) : Z := match sz with sz_byte => 0x80 | sz_word => 0x8000 | sz_long => 0x80000000 end.

(** The conversion to a signed type of [n] bits, to uae_s8, uae_s16 or uae_s32 and to the unsigned
    types. *)
Definition signed (n x : Z) : Z := (x + 2 ^ (n - 1)) mod 2 ^ n - 2 ^ (n - 1).
Definition sx (sz : wordsizes) (x : Z) : Z := signed (bit_size sz) x.
Definition zx (sz : wordsizes) (x : Z) : Z := x mod 2 ^ bit_size sz.

(** ** State *)

Record cpu := mk_cpu {
  mem : mmu;
  greg : gmap Z Z;
  usp : Z;
  isp : Z;
  msp : Z;
  sr : Z;
  t1 : bool;
  t0 : bool;
  master : bool;
  stopped : bool;
  intmask : Z;
  pc : Z;
  fault_pc : Z;
  vbr : Z;
  spcflags : Z;
  cacr : Z;
  caar : Z;
  cflg : bool;
  zflg : bool;
  nflg : bool;
  vflg : bool;
  xflg : bool;
  fixup : option (Z * Z);
  last_addr_for_exception_3 : Z;
  last_fault_for_exception_3 : Z;
  last_trace_ad : Z;
  quit_program : Z;
  pc_offset : Z }.

Definition c_mem (v : mmu) (c : cpu) : cpu :=
  mk_cpu v c.(greg) c.(usp) c.(isp) c.(msp) c.(sr) c.(t1) c.(t0) c.(master) c.(stopped) c.(intmask) c.(pc)
    c.(fault_pc) c.(vbr) c.(spcflags) c.(cacr) c.(caar) c.(cflg) c.(zflg) c.(nflg) c.(vflg) c.(xflg) c.(fixup)
    c.(last_addr_for_exception_3) c.(last_fault_for_exception_3) c.(last_trace_ad) c.(quit_program) c.(pc_offset).
Definition c_greg (v : gmap Z Z) (c : cpu) : cpu :=
  mk_cpu c.(mem) v c.(usp) c.(isp) c.(msp) c.(sr) c.(t1) c.(t0) c.(master) c.(stopped) c.(intmask) c.(pc) c.(fault_pc)
    c.(vbr) c.(spcflags) c.(cacr) c.(caar) c.(cflg) c.(zflg) c.(nflg) c.(vflg) c.(xflg) c.(fixup)
    c.(last_addr_for_exception_3) c.(last_fault_for_exception_3) c.(last_trace_ad) c.(quit_program) c.(pc_offset).
Definition c_usp (v : Z) (c : cpu) : cpu :=
  mk_cpu c.(mem) c.(greg) v c.(isp) c.(msp) c.(sr) c.(t1) c.(t0) c.(master) c.(stopped) c.(intmask) c.(pc)
    c.(fault_pc) c.(vbr) c.(spcflags) c.(cacr) c.(caar) c.(cflg) c.(zflg) c.(nflg) c.(vflg) c.(xflg) c.(fixup)
    c.(last_addr_for_exception_3) c.(last_fault_for_exception_3) c.(last_trace_ad) c.(quit_program) c.(pc_offset).
Definition c_isp (v : Z) (c : cpu) : cpu :=
  mk_cpu c.(mem) c.(greg) c.(usp) v c.(msp) c.(sr) c.(t1) c.(t0) c.(master) c.(stopped) c.(intmask) c.(pc)
    c.(fault_pc) c.(vbr) c.(spcflags) c.(cacr) c.(caar) c.(cflg) c.(zflg) c.(nflg) c.(vflg) c.(xflg) c.(fixup)
    c.(last_addr_for_exception_3) c.(last_fault_for_exception_3) c.(last_trace_ad) c.(quit_program) c.(pc_offset).
Definition c_msp (v : Z) (c : cpu) : cpu :=
  mk_cpu c.(mem) c.(greg) c.(usp) c.(isp) v c.(sr) c.(t1) c.(t0) c.(master) c.(stopped) c.(intmask) c.(pc)
    c.(fault_pc) c.(vbr) c.(spcflags) c.(cacr) c.(caar) c.(cflg) c.(zflg) c.(nflg) c.(vflg) c.(xflg) c.(fixup)
    c.(last_addr_for_exception_3) c.(last_fault_for_exception_3) c.(last_trace_ad) c.(quit_program) c.(pc_offset).
Definition c_sr (v : Z) (c : cpu) : cpu :=
  mk_cpu c.(mem) c.(greg) c.(usp) c.(isp) c.(msp) v c.(t1) c.(t0) c.(master) c.(stopped) c.(intmask) c.(pc)
    c.(fault_pc) c.(vbr) c.(spcflags) c.(cacr) c.(caar) c.(cflg) c.(zflg) c.(nflg) c.(vflg) c.(xflg) c.(fixup)
    c.(last_addr_for_exception_3) c.(last_fault_for_exception_3) c.(last_trace_ad) c.(quit_program) c.(pc_offset).
Definition c_t1 (v : bool) (c : cpu) : cpu :=
  mk_cpu c.(mem) c.(greg) c.(usp) c.(isp) c.(msp) c.(sr) v c.(t0) c.(master) c.(stopped) c.(intmask) c.(pc)
    c.(fault_pc) c.(vbr) c.(spcflags) c.(cacr) c.(caar) c.(cflg) c.(zflg) c.(nflg) c.(vflg) c.(xflg) c.(fixup)
    c.(last_addr_for_exception_3) c.(last_fault_for_exception_3) c.(last_trace_ad) c.(quit_program) c.(pc_offset).
Definition c_t0 (v : bool) (c : cpu) : cpu :=
  mk_cpu c.(mem) c.(greg) c.(usp) c.(isp) c.(msp) c.(sr) c.(t1) v c.(master) c.(stopped) c.(intmask) c.(pc)
    c.(fault_pc) c.(vbr) c.(spcflags) c.(cacr) c.(caar) c.(cflg) c.(zflg) c.(nflg) c.(vflg) c.(xflg) c.(fixup)
    c.(last_addr_for_exception_3) c.(last_fault_for_exception_3) c.(last_trace_ad) c.(quit_program) c.(pc_offset).
Definition c_master (v : bool) (c : cpu) : cpu :=
  mk_cpu c.(mem) c.(greg) c.(usp) c.(isp) c.(msp) c.(sr) c.(t1) c.(t0) v c.(stopped) c.(intmask) c.(pc) c.(fault_pc)
    c.(vbr) c.(spcflags) c.(cacr) c.(caar) c.(cflg) c.(zflg) c.(nflg) c.(vflg) c.(xflg) c.(fixup)
    c.(last_addr_for_exception_3) c.(last_fault_for_exception_3) c.(last_trace_ad) c.(quit_program) c.(pc_offset).
Definition c_stopped (v : bool) (c : cpu) : cpu :=
  mk_cpu c.(mem) c.(greg) c.(usp) c.(isp) c.(msp) c.(sr) c.(t1) c.(t0) c.(master) v c.(intmask) c.(pc) c.(fault_pc)
    c.(vbr) c.(spcflags) c.(cacr) c.(caar) c.(cflg) c.(zflg) c.(nflg) c.(vflg) c.(xflg) c.(fixup)
    c.(last_addr_for_exception_3) c.(last_fault_for_exception_3) c.(last_trace_ad) c.(quit_program) c.(pc_offset).
Definition c_intmask (v : Z) (c : cpu) : cpu :=
  mk_cpu c.(mem) c.(greg) c.(usp) c.(isp) c.(msp) c.(sr) c.(t1) c.(t0) c.(master) c.(stopped) v c.(pc) c.(fault_pc)
    c.(vbr) c.(spcflags) c.(cacr) c.(caar) c.(cflg) c.(zflg) c.(nflg) c.(vflg) c.(xflg) c.(fixup)
    c.(last_addr_for_exception_3) c.(last_fault_for_exception_3) c.(last_trace_ad) c.(quit_program) c.(pc_offset).
Definition c_pc (v : Z) (c : cpu) : cpu :=
  mk_cpu c.(mem) c.(greg) c.(usp) c.(isp) c.(msp) c.(sr) c.(t1) c.(t0) c.(master) c.(stopped) c.(intmask) v
    c.(fault_pc) c.(vbr) c.(spcflags) c.(cacr) c.(caar) c.(cflg) c.(zflg) c.(nflg) c.(vflg) c.(xflg) c.(fixup)
    c.(last_addr_for_exception_3) c.(last_fault_for_exception_3) c.(last_trace_ad) c.(quit_program) c.(pc_offset).
Definition c_fault_pc (v : Z) (c : cpu) : cpu :=
  mk_cpu c.(mem) c.(greg) c.(usp) c.(isp) c.(msp) c.(sr) c.(t1) c.(t0) c.(master) c.(stopped) c.(intmask) c.(pc) v
    c.(vbr) c.(spcflags) c.(cacr) c.(caar) c.(cflg) c.(zflg) c.(nflg) c.(vflg) c.(xflg) c.(fixup)
    c.(last_addr_for_exception_3) c.(last_fault_for_exception_3) c.(last_trace_ad) c.(quit_program) c.(pc_offset).
Definition c_vbr (v : Z) (c : cpu) : cpu :=
  mk_cpu c.(mem) c.(greg) c.(usp) c.(isp) c.(msp) c.(sr) c.(t1) c.(t0) c.(master) c.(stopped) c.(intmask) c.(pc)
    c.(fault_pc) v c.(spcflags) c.(cacr) c.(caar) c.(cflg) c.(zflg) c.(nflg) c.(vflg) c.(xflg) c.(fixup)
    c.(last_addr_for_exception_3) c.(last_fault_for_exception_3) c.(last_trace_ad) c.(quit_program) c.(pc_offset).
Definition c_spcflags (v : Z) (c : cpu) : cpu :=
  mk_cpu c.(mem) c.(greg) c.(usp) c.(isp) c.(msp) c.(sr) c.(t1) c.(t0) c.(master) c.(stopped) c.(intmask) c.(pc)
    c.(fault_pc) c.(vbr) v c.(cacr) c.(caar) c.(cflg) c.(zflg) c.(nflg) c.(vflg) c.(xflg) c.(fixup)
    c.(last_addr_for_exception_3) c.(last_fault_for_exception_3) c.(last_trace_ad) c.(quit_program) c.(pc_offset).
Definition c_cacr (v : Z) (c : cpu) : cpu :=
  mk_cpu c.(mem) c.(greg) c.(usp) c.(isp) c.(msp) c.(sr) c.(t1) c.(t0) c.(master) c.(stopped) c.(intmask) c.(pc)
    c.(fault_pc) c.(vbr) c.(spcflags) v c.(caar) c.(cflg) c.(zflg) c.(nflg) c.(vflg) c.(xflg) c.(fixup)
    c.(last_addr_for_exception_3) c.(last_fault_for_exception_3) c.(last_trace_ad) c.(quit_program) c.(pc_offset).
Definition c_caar (v : Z) (c : cpu) : cpu :=
  mk_cpu c.(mem) c.(greg) c.(usp) c.(isp) c.(msp) c.(sr) c.(t1) c.(t0) c.(master) c.(stopped) c.(intmask) c.(pc)
    c.(fault_pc) c.(vbr) c.(spcflags) c.(cacr) v c.(cflg) c.(zflg) c.(nflg) c.(vflg) c.(xflg) c.(fixup)
    c.(last_addr_for_exception_3) c.(last_fault_for_exception_3) c.(last_trace_ad) c.(quit_program) c.(pc_offset).
Definition c_cflg (v : bool) (c : cpu) : cpu :=
  mk_cpu c.(mem) c.(greg) c.(usp) c.(isp) c.(msp) c.(sr) c.(t1) c.(t0) c.(master) c.(stopped) c.(intmask) c.(pc)
    c.(fault_pc) c.(vbr) c.(spcflags) c.(cacr) c.(caar) v c.(zflg) c.(nflg) c.(vflg) c.(xflg) c.(fixup)
    c.(last_addr_for_exception_3) c.(last_fault_for_exception_3) c.(last_trace_ad) c.(quit_program) c.(pc_offset).
Definition c_zflg (v : bool) (c : cpu) : cpu :=
  mk_cpu c.(mem) c.(greg) c.(usp) c.(isp) c.(msp) c.(sr) c.(t1) c.(t0) c.(master) c.(stopped) c.(intmask) c.(pc)
    c.(fault_pc) c.(vbr) c.(spcflags) c.(cacr) c.(caar) c.(cflg) v c.(nflg) c.(vflg) c.(xflg) c.(fixup)
    c.(last_addr_for_exception_3) c.(last_fault_for_exception_3) c.(last_trace_ad) c.(quit_program) c.(pc_offset).
Definition c_nflg (v : bool) (c : cpu) : cpu :=
  mk_cpu c.(mem) c.(greg) c.(usp) c.(isp) c.(msp) c.(sr) c.(t1) c.(t0) c.(master) c.(stopped) c.(intmask) c.(pc)
    c.(fault_pc) c.(vbr) c.(spcflags) c.(cacr) c.(caar) c.(cflg) c.(zflg) v c.(vflg) c.(xflg) c.(fixup)
    c.(last_addr_for_exception_3) c.(last_fault_for_exception_3) c.(last_trace_ad) c.(quit_program) c.(pc_offset).
Definition c_vflg (v : bool) (c : cpu) : cpu :=
  mk_cpu c.(mem) c.(greg) c.(usp) c.(isp) c.(msp) c.(sr) c.(t1) c.(t0) c.(master) c.(stopped) c.(intmask) c.(pc)
    c.(fault_pc) c.(vbr) c.(spcflags) c.(cacr) c.(caar) c.(cflg) c.(zflg) c.(nflg) v c.(xflg) c.(fixup)
    c.(last_addr_for_exception_3) c.(last_fault_for_exception_3) c.(last_trace_ad) c.(quit_program) c.(pc_offset).
Definition c_xflg (v : bool) (c : cpu) : cpu :=
  mk_cpu c.(mem) c.(greg) c.(usp) c.(isp) c.(msp) c.(sr) c.(t1) c.(t0) c.(master) c.(stopped) c.(intmask) c.(pc)
    c.(fault_pc) c.(vbr) c.(spcflags) c.(cacr) c.(caar) c.(cflg) c.(zflg) c.(nflg) c.(vflg) v c.(fixup)
    c.(last_addr_for_exception_3) c.(last_fault_for_exception_3) c.(last_trace_ad) c.(quit_program) c.(pc_offset).
Definition c_fixup (v : option (Z * Z)) (c : cpu) : cpu :=
  mk_cpu c.(mem) c.(greg) c.(usp) c.(isp) c.(msp) c.(sr) c.(t1) c.(t0) c.(master) c.(stopped) c.(intmask) c.(pc)
    c.(fault_pc) c.(vbr) c.(spcflags) c.(cacr) c.(caar) c.(cflg) c.(zflg) c.(nflg) c.(vflg) c.(xflg) v
    c.(last_addr_for_exception_3) c.(last_fault_for_exception_3) c.(last_trace_ad) c.(quit_program) c.(pc_offset).
Definition c_last_addr_for_exception_3 (v : Z) (c : cpu) : cpu :=
  mk_cpu c.(mem) c.(greg) c.(usp) c.(isp) c.(msp) c.(sr) c.(t1) c.(t0) c.(master) c.(stopped) c.(intmask) c.(pc)
    c.(fault_pc) c.(vbr) c.(spcflags) c.(cacr) c.(caar) c.(cflg) c.(zflg) c.(nflg) c.(vflg) c.(xflg) c.(fixup) v
    c.(last_fault_for_exception_3) c.(last_trace_ad) c.(quit_program) c.(pc_offset).
Definition c_last_fault_for_exception_3 (v : Z) (c : cpu) : cpu :=
  mk_cpu c.(mem) c.(greg) c.(usp) c.(isp) c.(msp) c.(sr) c.(t1) c.(t0) c.(master) c.(stopped) c.(intmask) c.(pc)
    c.(fault_pc) c.(vbr) c.(spcflags) c.(cacr) c.(caar) c.(cflg) c.(zflg) c.(nflg) c.(vflg) c.(xflg) c.(fixup)
    c.(last_addr_for_exception_3) v c.(last_trace_ad) c.(quit_program) c.(pc_offset).
Definition c_last_trace_ad (v : Z) (c : cpu) : cpu :=
  mk_cpu c.(mem) c.(greg) c.(usp) c.(isp) c.(msp) c.(sr) c.(t1) c.(t0) c.(master) c.(stopped) c.(intmask) c.(pc)
    c.(fault_pc) c.(vbr) c.(spcflags) c.(cacr) c.(caar) c.(cflg) c.(zflg) c.(nflg) c.(vflg) c.(xflg) c.(fixup)
    c.(last_addr_for_exception_3) c.(last_fault_for_exception_3) v c.(quit_program) c.(pc_offset).
Definition c_quit_program (v : Z) (c : cpu) : cpu :=
  mk_cpu c.(mem) c.(greg) c.(usp) c.(isp) c.(msp) c.(sr) c.(t1) c.(t0) c.(master) c.(stopped) c.(intmask) c.(pc)
    c.(fault_pc) c.(vbr) c.(spcflags) c.(cacr) c.(caar) c.(cflg) c.(zflg) c.(nflg) c.(vflg) c.(xflg) c.(fixup)
    c.(last_addr_for_exception_3) c.(last_fault_for_exception_3) c.(last_trace_ad) v c.(pc_offset).
Definition c_pc_offset (v : Z) (c : cpu) : cpu :=
  mk_cpu c.(mem) c.(greg) c.(usp) c.(isp) c.(msp) c.(sr) c.(t1) c.(t0) c.(master) c.(stopped) c.(intmask) c.(pc)
    c.(fault_pc) c.(vbr) c.(spcflags) c.(cacr) c.(caar) c.(cflg) c.(zflg) c.(nflg) c.(vflg) c.(xflg) c.(fixup)
    c.(last_addr_for_exception_3) c.(last_fault_for_exception_3) c.(last_trace_ad) c.(quit_program) v.

(** ** Control *)

Inductive cpu_stop :=
  | MmuStop (e : mmu_stop)
  | HostTrap                   (** a division the host's CPU refuses *)
  | NotModelled (opcode : Z)   (** FPU instructions, calls into the emulator, RESET *)
  | GeneratorAborts            (** abort() of the generator: no handler is made for such an entry *)
  | NoMoreFuel.                (** no behaviour of the code: a loop the model does not follow *)

Inductive cres (A : Type) :=
  | COk (a : A) (c : cpu)
  | CLeave (c : cpu)
  | CThrow (c : cpu)
  | CHardware (h : hw_access) (c : cpu)
  | CStop (e : cpu_stop).
Arguments COk {A}. Arguments CLeave {A}. Arguments CThrow {A}. Arguments CHardware {A}. Arguments CStop {A}.

Definition C (A : Type) : Type := cpu → cres A.

#[global] Instance C_ret : MRet C := λ A a c, COk a c.
#[global] Instance C_bind : MBind C := λ A B f m c,
  match m c with COk a c => f a c | CLeave c => CLeave c | CThrow c => CThrow c | CHardware h c => CHardware h c | CStop e => CStop e end.

Definition c_get {A} (f : cpu → A) : C A := λ c, COk (f c) c.
Definition c_upd (f : cpu → cpu) : C unit := λ c, COk tt (f c).
Definition c_leave {A} : C A := λ c, CLeave c.
Definition c_stop {A} (e : cpu_stop) : C A := λ _, CStop e.
Definition c_when (b : bool) (m : C unit) : C unit := if b then m else mret tt.
(** [try { body } catch { handler }] *)
Definition c_try {A} (body : C A) (handler : C A) : C A := λ c, match body c with CThrow c => handler c | r => r end.

(** An access to memory. *)
Definition lift {A} (m : M A) : C A := λ c,
  match m c.(mem) with
  | MOk a s => COk a (c_mem s c)
  | MThrow s => CThrow (c_mem s c)
  | MHardware h s => CHardware h (c_mem s c)
  | MStop e => CStop (MmuStop e)
  end.

(** ** Registers *)

Definition supervised (c : cpu) : bool := c.(mem).(regs).(supervisor).

Definition dreg (i : Z) : C Z := c_get (λ c, aget c.(greg) i).
Definition areg (i : Z) : C Z := c_get (λ c, aget c.(greg) (8 + i)).
Definition set_dreg (i v : Z) : C unit := c_upd (λ c, c_greg (aset c.(greg) i (u32 v)) c).
Definition set_areg (i v : Z) : C unit := c_upd (λ c, c_greg (aset c.(greg) (8 + i) (u32 v)) c).

Definition m68k_incpc (o : Z) : C unit := c_upd (λ c, c_pc (u32 (c.(pc) + o)) c).
Definition m68k_setpc (newpc : Z) : C unit := c_upd (λ c, c_fault_pc newpc (c_pc newpc c)).

Definition SET_CFLG (b : bool) : C unit := c_upd (c_cflg b).
Definition SET_ZFLG (b : bool) : C unit := c_upd (c_zflg b).
Definition SET_NFLG (b : bool) : C unit := c_upd (c_nflg b).
Definition SET_VFLG (b : bool) : C unit := c_upd (c_vflg b).
Definition SET_XFLG (b : bool) : C unit := c_upd (c_xflg b).
Definition CLEAR_CZNV : C unit := SET_CFLG false;; SET_ZFLG false;; SET_NFLG false;; SET_VFLG false.
Definition COPY_CARRY : C unit := b ← c_get cflg; SET_XFLG b.

Definition cctrue (cc : Z) (c : cpu) : bool :=
  let C := c.(cflg) in let Z := c.(zflg) in let N := c.(nflg) in let V := c.(vflg) in
  match cc with
  | 0 => true | 1 => false
  | 2 => negb C && negb Z | 3 => C || Z
  | 4 => negb C | 5 => C | 6 => negb Z | 7 => Z
  | 8 => negb V | 9 => V | 10 => negb N | 11 => N
  | 12 => eqb N V | 13 => xorb N V
  | 14 => negb Z && eqb N V | 15 => Z || xorb N V
  | _ => false
  end%Z.

(** ** Special conditions *)

Definition SPCFLAG_STOP : Z := 0x01.
Definition SPCFLAG_BRK : Z := 0x04.
Definition SPCFLAG_TRACE : Z := 0x08.
Definition SPCFLAG_DOTRACE : Z := 0x10.
Definition SPCFLAGS_SET (f : Z) : C unit := c_upd (λ c, c_spcflags (c.(spcflags) .| f) c).
Definition SPCFLAGS_CLEAR (f : Z) : C unit := c_upd (λ c, c_spcflags (c.(spcflags) .& Z.lnot f) c).
Definition SPCFLAGS_TEST (f : Z) (c : cpu) : bool := nz (c.(spcflags) .& f).

Definition m68k_setstopped (stop : bool) : C unit :=
  c_upd (c_stopped stop);;
  tr ← c_get (SPCFLAGS_TEST SPCFLAG_DOTRACE);
  c_when (stop && negb tr) (SPCFLAGS_SET SPCFLAG_STOP).

(** ** The status register *)

(** A7 of the mode, and the three stack pointers. *)
Definition A7 : Z := 15.
Definition sp (c : cpu) : Z := aget c.(greg) A7.

Definition MakeSR_value (c : cpu) : Z :=
  (b2z c.(t1) ≪ 15) .| (b2z c.(t0) ≪ 14) .| (b2z (supervised c) ≪ 13) .| (b2z c.(master) ≪ 12) .| (c.(intmask) ≪ 8)
  .| (b2z c.(xflg) ≪ 4) .| (b2z c.(nflg) ≪ 3) .| (b2z c.(zflg) ≪ 2) .| (b2z c.(vflg) ≪ 1) .| b2z c.(cflg).

Definition MakeSR : C unit := c_upd (λ c, c_sr (u16 (MakeSR_value c)) c).

Definition set_super (s : bool) : C unit := lift (m_set (r_supervisor s);; mmu_set_super s).

(** The exchange of A7 in MakeFromSR, after the new bits have been set. *)
Definition swap_stacks (olds oldm : bool) : C unit :=
  c_upd (λ c,
    let s := supervised c in let m := c.(master) in
    if xorb olds s then
      if olds then
        let c' := if oldm then c_msp (sp c) c else c_isp (sp c) c in
        c_greg (aset c'.(greg) A7 c'.(usp)) c'
      else
        let c' := c_usp (sp c) c in
        c_greg (aset c'.(greg) A7 (if m then c'.(msp) else c'.(isp))) c'
    else if olds && xorb oldm m then
      if oldm then let c' := c_msp (sp c) c in c_greg (aset c'.(greg) A7 c'.(isp)) c'
      else let c' := c_isp (sp c) c in c_greg (aset c'.(greg) A7 c'.(msp)) c'
    else c).

Definition MakeFromSR : C unit :=
  oldm ← c_get master;
  olds ← c_get supervised;
  w ← c_get sr;
  let bit k := nz ((w ≫ k) .& 1) in
  c_upd (c_t1 (bit 15));;
  c_upd (c_t0 (bit 14));;
  set_super (bit 13);;
  c_upd (c_master (bit 12));;
  c_upd (c_intmask ((w ≫ 8) .& 7));;
  SET_XFLG (bit 4);; SET_NFLG (bit 3);; SET_ZFLG (bit 2);; SET_VFLG (bit 1);; SET_CFLG (bit 0);;
  swap_stacks olds oldm;;
  tr ← c_get (λ c, c.(t1) || c.(t0));
  if tr : bool then SPCFLAGS_SET SPCFLAG_TRACE else SPCFLAGS_CLEAR SPCFLAG_TRACE.

(** ** Exceptions *)

Section cpu.
Context `{ram_config}.

Definition exc_push_word (w : Z) : C unit :=
  a ← areg 7; set_areg 7 (a - 2);; a ← areg 7; lift (put_word a w).
Definition exc_push_long (l : Z) : C unit :=
  a ← areg 7; set_areg 7 (a - 4);; a ← areg 7; lift (put_long a l).

Definition exc_make_frame (format sr currpc nr x0 x1 : Z) : C unit :=
  (if format =? 4 then exc_push_long x1;; exc_push_long x0
   else if (format =? 3) || (format =? 2) then exc_push_long x0
   else mret tt);;
  exc_push_word (u16 ((format ≪ 12) + nr * 4));;
  exc_push_long currpc;;
  exc_push_word sr.

(** [if (fixup.flag) { m68k_areg(regs, fixup.reg) = fixup.value; fixup.flag = 0; }] *)
Definition undo_fixup : C unit :=
  f ← c_get fixup;
  match f with Some (r, v) => set_areg r v;; c_upd (c_fixup None) | None => mret tt end.

(** [if (!regs.s) { ... }] *)
Definition enter_supervisor : C unit :=
  s ← c_get supervised;
  c_when (negb s)
    (a ← areg 7; c_upd (c_usp a);;
     top ← c_get (λ c, if c.(master) then c.(msp) else c.(isp));
     set_areg 7 top;;
     set_super true).

(** The frame of an access error, and report_double_bus_error (with Quit680x0 and TriggerNMI) for
    an error while it is written. *)
Definition bus_error_frame : C unit :=
  exc_push_long 0;; exc_push_long 0;; exc_push_long 0;; exc_push_long 0;; exc_push_long 0;; exc_push_long 0;; exc_push_long 0;;
  d ← c_get (λ c, c.(mem).(regs).(wb3_data)); exc_push_long d;;
  a ← c_get (λ c, c.(mem).(regs).(mmu_fault_addr)); exc_push_long a;;
  a ← c_get (λ c, c.(mem).(regs).(mmu_fault_addr)); exc_push_long a;;
  exc_push_word 0;; exc_push_word 0;;
  st ← c_get (λ c, c.(mem).(regs).(wb3_status)); exc_push_word st;;
  lift (m_set (r_wb3_status 0));;
  w ← c_get (λ c, c.(mem).(regs).(mmu_ssw)); exc_push_word w;;
  a ← c_get (λ c, c.(mem).(regs).(mmu_fault_addr)); exc_push_long a;;
  w ← c_get sr; p ← c_get fault_pc;
  exc_make_frame 7 w p 2 0 0.

Definition report_double_bus_error : C unit := c_upd (c_quit_program 1);; SPCFLAGS_SET SPCFLAG_BRK.

(** The frame of each exception; the result says whether the exception is processed further. *)
Definition exc_frame (nr oldpc currpc : Z) : C bool :=
  w ← c_get sr; m ← c_get master;
  if nr =? 2 then
    c_try (bus_error_frame;; mret true) (report_double_bus_error;; mret false)
  else if nr =? 3 then
    a ← c_get last_addr_for_exception_3; f ← c_get last_fault_for_exception_3;
    exc_make_frame 2 w a nr (f .& 0xfffffffe) 0;; mret true
  else if (nr =? 5) || (nr =? 6) || (nr =? 7) || (nr =? 9) then
    exc_make_frame 2 w currpc nr oldpc 0;; mret true
  else if m && (24 <=? nr) && (nr <? 32) then
    exc_make_frame 0 w currpc nr 0 0;;
    c_upd (λ c, c_sr (c.(sr) .| (1 ≪ 13)) c);;
    a ← areg 7; c_upd (c_msp a);;
    i ← c_get isp; set_areg 7 i;;
    w ← c_get sr;
    exc_make_frame 1 w currpc nr 0 0;; mret true
  else
    exc_make_frame 0 w currpc nr 0 0;; mret true.

Definition Exception (nr oldpc : Z) : C unit :=
  currpc ← c_get pc;
  MakeSR;;
  undo_fixup;;
  enter_supervisor;;
  go ← exc_frame nr oldpc currpc;
  c_when go
    (v ← c_get vbr;
     a ← lift (get_long (u32 (v + 4 * nr)));
     m68k_setpc a;;
     c_upd (λ c, c_master false (c_t0 false (c_t1 false c)));;
     SPCFLAGS_CLEAR (SPCFLAG_TRACE .| SPCFLAG_DOTRACE)).

Definition Interrupt (nr : Z) : C unit := Exception (nr + 24) 0;; c_upd (c_intmask nr).
Definition SCCInterrupt (nr : Z) : C unit := Exception nr 0;; c_upd (c_intmask 5).
Definition MFPInterrupt (nr : Z) : C unit := Exception nr 0;; c_upd (c_intmask 6).

(** An opcode without a handler; the calls back into the emulator of line A are left out. *)
Definition op_illg (opcode : Z) : C unit :=
  if opcode .& 0xf000 =? 0xa000 then
    if opcode =? 0xa0ff then c_stop (NotModelled opcode) else Exception 0xa 0
  else if opcode .& 0xf000 =? 0xf000 then Exception 0xb 0
  else Exception 4 0.

(** ** MOVEC *)

(** The registers of the MMU are in [Mmu.m68k_move2c]. *)
Definition move2c (regno v : Z) : C bool :=
  let done m := m;; mret true in
  if regno =? 2 then done (c_upd (c_cacr (v .& 0x80008000)))
  else if regno =? 0x800 then done (c_upd (c_usp v))
  else if regno =? 0x801 then done (c_upd (c_vbr v))
  else if regno =? 0x802 then done (c_upd (c_caar (v .& 0xfc)))
  else if regno =? 0x803 then done (c_upd (c_msp v);; m ← c_get master; c_when m (set_areg 7 v))
  else if regno =? 0x804 then done (c_upd (c_isp v);; m ← c_get master; c_when (negb m) (set_areg 7 v))
  else if ((0 <=? regno) && (regno <=? 7)) || ((0x805 <=? regno) && (regno <=? 0x807)) then done (lift (Mmu.m68k_move2c regno v))
  else op_illg 0x4e7b;; mret false.

(** [None]: no such register. *)
Definition movec_read (regno : Z) (c : cpu) : option Z :=
  let r := c.(mem).(regs) in
  match regno with
  | 0 => Some r.(sfc) | 1 => Some r.(dfc) | 2 => Some c.(cacr) | 3 => Some r.(tc)
  | 4 => Some r.(itt0) | 5 => Some r.(itt1) | 6 => Some r.(dtt0) | 7 => Some r.(dtt1)
  | 0x800 => Some c.(usp) | 0x801 => Some c.(vbr) | 0x802 => Some c.(caar)
  | 0x803 => Some (if c.(master) then sp c else c.(msp))
  | 0x804 => Some (if c.(master) then c.(isp) else sp c)
  | 0x805 => Some r.(mmusr) | 0x806 => Some r.(urp) | 0x807 => Some r.(srp)
  | _ => None
  end%Z.

(** The result is stored in general register [i]. *)
Definition movec2 (regno i : Z) : C bool :=
  v ← c_get (movec_read regno);
  match v with
  | Some v => c_upd (λ c, c_greg (aset c.(greg) i v) c);; mret true
  | None => op_illg 0x4e7a;; mret false
  end.

(** ** Instruction words and effective addresses *)

Definition next_iword : C Z := p ← c_get pc; w ← lift (get_iword p 0); m68k_incpc 2;; mret w.
Definition next_ilong : C Z := p ← c_get pc; w ← lift (get_ilong p 0); m68k_incpc 4;; mret w.

Definition index_value (dp : Z) : C Z :=
  r ← c_get (λ c, aget c.(greg) ((dp ≫ 12) .& 15));
  mret (if dp .& 0x800 =? 0 then sx sz_word r else sx sz_long r).

Definition get_disp_ea_020 (base dp : Z) : C Z :=
  regd ← index_value dp;
  let regd := sx sz_long (regd ≪ ((dp ≫ 9) .& 3)) in
  if nz (dp .& 0x100) then
    let base := if nz (dp .& 0x80) then 0 else base in
    let regd := if nz (dp .& 0x40) then 0 else regd in
    base ← (if dp .& 0x30 =? 0x20 then w ← next_iword; mret (u32 (base + sx sz_word w)) else mret base);
    base ← (if dp .& 0x30 =? 0x30 then l ← next_ilong; mret (u32 (base + l)) else mret base);
    outer ← (if dp .& 0x3 =? 0x2 then w ← next_iword; mret (sx sz_word w) else mret 0);
    outer ← (if dp .& 0x3 =? 0x3 then l ← next_ilong; mret (sx sz_long l) else mret outer);
    let base := if dp .& 0x4 =? 0 then u32 (base + regd) else base in
    base ← (if nz (dp .& 0x3) then lift (get_long base) else mret base);
    let base := if nz (dp .& 0x4) then u32 (base + regd) else base in
    mret (u32 (base + outer))
  else mret (u32 (base + sx sz_byte dp + regd)).

Definition m68k_do_rts : C unit :=
  a ← areg 7; d ← lift (get_long a); m68k_setpc d;; set_areg 7 (a + 4).

Definition m68k_do_bsr (oldpc offset : Z) : C unit :=
  a ← areg 7; lift (put_long (u32 (a - 4)) oldpc);; set_areg 7 (a - 4);; m68k_incpc offset.

Definition m68k_do_jsr (oldpc dest : Z) : C unit :=
  a ← areg 7; lift (put_long (u32 (a - 4)) oldpc);; set_areg 7 (a - 4);; m68k_setpc dest.

(** ** Bit fields in memory *)

(** The field in the most significant bits, and the other bits of the bytes it is in. *)
Definition get_bitfield (src offset width : Z) : C (Z * (Z * Z)) :=
  let offset := offset .& 7 in
  let mask := u32 (0xffffffff ≪ (32 - width)) in
  let n := (offset + width + 7) ≫ 3 in
  if n =? 1 then
    t ← lift (get_byte src);
    mret (u32 (t ≪ (24 + offset)), (t .& not32 (mask ≫ (24 + offset)), 0))
  else if n =? 2 then
    t ← lift (get_word src);
    mret (u32 (t ≪ (16 + offset)), (t .& not32 (mask ≫ (16 + offset)), 0))
  else if n =? 3 then
    t ← lift (get_word src);
    let res := u32 (t ≪ (16 + offset)) in
    let b0 := t .& not32 (mask ≫ (16 + offset)) in
    t ← lift (get_byte (u32 (src + 2)));
    mret (res .| u32 (t ≪ (8 + offset)), (b0, t .& not32 (mask ≫ (8 + offset))))
  else if n =? 4 then
    t ← lift (get_long src);
    mret (u32 (t ≪ offset), (t .& not32 (mask ≫ offset), 0))
  else if n =? 5 then
    t ← lift (get_long src);
    let res := u32 (t ≪ offset) in
    let b0 := t .& not32 (mask ≫ offset) in
    t ← lift (get_byte (u32 (src + 4)));
    mret (res .| (t ≫ (8 - offset)), (b0, t .& not32 (u32 (mask ≪ (8 - offset)))))
  else mret (0, (0, 0)).

Definition put_bitfield (dst : Z) (bdata : Z * Z) (val offset width : Z) : C unit :=
  let offset := (offset .& 7) + width in
  let n := (offset + 7) ≫ 3 in
  if n =? 1 then lift (put_byte dst (u8 (bdata.1 .| u32 (val ≪ (8 - offset)))))
  else if n =? 2 then lift (put_word dst (u16 (bdata.1 .| u32 (val ≪ (16 - offset)))))
  else if n =? 3 then
    lift (put_word dst (u16 (bdata.1 .| (val ≫ (offset - 16)))));;
    lift (put_byte (u32 (dst + 2)) (u8 (bdata.2 .| u32 (val ≪ (24 - offset)))))
  else if n =? 4 then lift (put_long dst (bdata.1 .| u32 (val ≪ (32 - offset))))
  else if n =? 5 then
    lift (put_long dst (bdata.1 .| (val ≫ (offset - 32))));;
    lift (put_byte (u32 (dst + 4)) (u8 (bdata.2 .| u32 (val ≪ (40 - offset)))))
  else mret tt.

End cpu.
