(* ===== verification/MulDiv.v ===== *)
(** * Long multiplication and division of the 68040

    [m68k_divl] and [m68k_mull] of [src/src/uae_cpu/newcpu.cpp], for hosts with 64 bit integers and
    for hosts without, and their helpers [div_unsigned] and [mul_unsigned].  [src] is the value of
    the effective address, [extra] the second word of the instruction: bit 11 says signed, bit
    10 that the dividend or the product has 64 bits, bits 12 to 14 and 0 to 2 name the
    registers.

    The negations of signed ints in the code for narrow hosts ([lo = -lo], [src1 = -src1]) wrap
    around for INT_MIN, as two's complement machines do; the C++ standard leaves that overflow
    undefined. *)

From S2P Require Import Prelude Ram Mmu Cpu.

Definition u64 (x : Z) : Z := x mod 18446744073709551616.

Definition is_signed (extra : Z) : bool := nz (extra .& 0x800).
Definition is_64 (extra : Z) : bool := nz (extra .& 0x400).
(** The register of the quotient or the low part, and that of the remainder or the high part. *)
Definition rq (extra : Z) : Z := (extra ≫ 12) .& 7.
Definition rr (extra : Z) : Z := extra .& 7.

Definition div_overflow : C unit := SET_VFLG true;; SET_NFLG true;; SET_CFLG false.

Definition div_result (extra quot rem : Z) : C unit :=
  SET_VFLG false;; SET_CFLG false;;
  SET_ZFLG (sx sz_long quot =? 0);;
  SET_NFLG (sx sz_long quot <? 0);;
  set_dreg (rr extra) rem;;
  set_dreg (rq extra) quot.

Definition high_bits (x : Z) : Z := u64 x .& 0xffffffff80000000.

Section muldiv.
Context `{ram_config}.

(** ** Hosts with 64 bit integers *)

Definition m68k_divl (src extra oldpc : Z) : C unit :=
  if src =? 0 then Exception 5 oldpc
  else if is_signed extra then
    lo ← dreg (rq extra); hi ← dreg (rr extra);
    let a := sx sz_long lo in
    let a := if is_64 extra then signed 64 ((a .& 0xffffffff) .| (hi ≪ 32)) else a in
    let d := sx sz_long src in
    if (a =? - 2 ^ 63) && (d =? -1) then c_stop HostTrap
    else
      let rem := Z.rem a d in
      let quot := Z.quot a d in
      if negb (high_bits quot =? 0) && negb (high_bits quot =? 0xffffffff80000000) then div_overflow
      else
        let rem := if xorb (sx sz_long rem <? 0) (a <? 0) then - rem else rem in
        div_result extra quot rem
  else
    lo ← dreg (rq extra); hi ← dreg (rr extra);
    let a := if is_64 extra then (lo .& 0xffffffff) .| (hi ≪ 32) else lo in
    let rem := a mod src in
    let quot := a / src in
    if 0xffffffff <? quot then div_overflow else div_result extra quot rem.

Definition m68k_mull (src extra : Z) : C unit :=
  if is_signed extra then
    d ← dreg (rq extra);
    let a := sx sz_long d * sx sz_long src in
    SET_VFLG false;; SET_CFLG false;; SET_ZFLG (a =? 0);; SET_NFLG (a <? 0);;
    (if is_64 extra then set_dreg (rr extra) (a ≫ 32)
     else c_when (negb (high_bits a =? 0) && negb (high_bits a =? 0xffffffff80000000)) (SET_VFLG true));;
    set_dreg (rq extra) a
  else
    d ← dreg (rq extra);
    let a := u64 (d * src) in
    SET_VFLG false;; SET_CFLG false;; SET_ZFLG (a =? 0);; SET_NFLG (signed 64 a <? 0);;
    (if is_64 extra then set_dreg (rr extra) (a ≫ 32)
     else c_when (nz (a .& 0xffffffff00000000)) (SET_VFLG true));;
    set_dreg (rq extra) a.

(** ** Hosts without *)

(** One of the 32 rounds of [div_unsigned], on (src_hi, src_lo, q). *)
Definition div_round (div : Z) (s : Z * Z * Z) : Z * Z * Z :=
  let '(src_hi, src_lo, q) := s in
  let cbit := src_hi .& 0x80000000 in
  let src_hi := u32 (src_hi ≪ 1) in
  let src_hi := if nz (src_lo .& 0x80000000) then u32 (src_hi + 1) else src_hi in
  let src_lo := u32 (src_lo ≪ 1) in
  let q := u32 (q ≪ 1) in
  if nz cbit || (div <=? src_hi) then (u32 (src_hi - div), src_lo, q .| 1) else (src_hi, src_lo, q).

(** [None]: it returns 1 and stores nothing. *)
Definition div_unsigned (src_hi src_lo div : Z) : option (Z * Z) :=
  if div <=? src_hi then None
  else let '(src_hi, _, q) := Nat.iter 32 (div_round div) (src_hi, src_lo, 0) in Some (q, src_hi).

(** [junk] is what the variables [quot] and [rem] hold before a value is stored in them. *)
Definition m68k_divl_32 (junk : Z * Z) (src extra oldpc : Z) : C unit :=
  if src =? 0 then Exception 5 oldpc
  else if is_signed extra then
    lo ← dreg (rq extra); hi ← dreg (rr extra);
    let lo := sx sz_long lo in
    let hi := if is_64 extra then sx sz_long hi else if lo <? 0 then -1 else 0 in
    let save_high := hi in
    let sign := u32 (hi .^ src) in
    let '(hi, lo) :=
      if hi <? 0 then
        let hi := Z.lnot hi in let lo := sx sz_long (- lo) in
        (if lo =? 0 then sx sz_long (hi + 1) else hi, lo)
      else (hi, lo) in
    let src := if sx sz_long src <? 0 then u32 (- src) else src in
    let res := div_unsigned (u32 hi) (u32 lo) src in
    let '(quot, rem) := default junk res in
    if (if negb (bool_decide (is_Some res)) || nz (sign .& 0x80000000) then 0x80000000 <? quot else 0x7fffffff <? quot)
    then div_overflow
    else
      let quot := if nz (sign .& 0x80000000) then u32 (- quot) else quot in
      let rem := if xorb (sx sz_long rem <? 0) (save_high <? 0) then u32 (- rem) else rem in
      div_result extra quot rem
  else
    lo ← dreg (rq extra); hi ← dreg (rr extra);
    let hi := if is_64 extra then hi else 0 in
    match div_unsigned hi lo src with
    | None => div_overflow
    | Some (quot, rem) => div_result extra quot rem
    end.

Definition mul_unsigned (src1 src2 : Z) : Z * Z :=
  let r0 := u32 ((src1 .& 0xffff) * (src2 .& 0xffff)) in
  let r1 := u32 (((src1 ≫ 16) .& 0xffff) * (src2 .& 0xffff)) in
  let r2 := u32 ((src1 .& 0xffff) * ((src2 ≫ 16) .& 0xffff)) in
  let r3 := u32 (((src1 ≫ 16) .& 0xffff) * ((src2 ≫ 16) .& 0xffff)) in
  let lo := u32 (r0 + (u32 (r1 ≪ 16) .& 0xffff0000)) in
  let r3 := if lo <? r0 then u32 (r3 + 1) else r3 in
  let r0 := lo in
  let lo := u32 (r0 + (u32 (r2 ≪ 16) .& 0xffff0000)) in
  let r3 := if lo <? r0 then u32 (r3 + 1) else r3 in
  (u32 (r3 + (((r1 ≫ 16) .& 0xffff) + ((r2 ≫ 16) .& 0xffff))), lo).

Definition m68k_mull_32 (src extra : Z) : C unit :=
  d ← dreg (rq extra);
  if is_signed extra then
    let src1 := sx sz_long src in
    let src2 := sx sz_long d in
    let sign := u32 (src1 .^ src2) in
    let src1 := if src1 <? 0 then sx sz_long (- src1) else src1 in
    let src2 := if src2 <? 0 then sx sz_long (- src2) else src2 in
    let '(dst_hi, dst_lo) := mul_unsigned (u32 src1) (u32 src2) in
    let '(dst_hi, dst_lo) :=
      if nz (sign .& 0x80000000) then
        let dst_hi := not32 dst_hi in
        let dst_lo := u32 (- dst_lo) in
        (if dst_lo =? 0 then u32 (dst_hi + 1) else dst_hi, dst_lo)
      else (dst_hi, dst_lo) in
    SET_VFLG false;; SET_CFLG false;;
    SET_ZFLG ((dst_hi =? 0) && (dst_lo =? 0));;
    SET_NFLG (sx sz_long dst_hi <? 0);;
    (if is_64 extra then set_dreg (rr extra) dst_hi
     else c_when ((nz dst_hi || nz (dst_lo .& 0x80000000))
                  && (negb (dst_hi .& 0xffffffff =? 0xffffffff) || negb (dst_lo .& 0x80000000 =? 0x80000000)))
            (SET_VFLG true));;
    set_dreg (rq extra) dst_lo
  else
    let '(dst_hi, dst_lo) := mul_unsigned src d in
    SET_VFLG false;; SET_CFLG false;;
    SET_ZFLG ((dst_hi =? 0) && (dst_lo =? 0));;
    SET_NFLG (sx sz_long dst_hi <? 0);;
    (if is_64 extra then set_dreg (rr extra) dst_hi else c_when (nz dst_hi) (SET_VFLG true));;
    set_dreg (rq extra) dst_lo.

End muldiv.
