(* ===== verification/Insn.v ===== *)
(** * The instructions of the 68040

    [src/src/uae_cpu/gencpu.c] prints the C++ handler of every entry of the opcode table; here is
    the program text it prints, for the build with FULLMMU (level 68040, no prefetch buffer, no
    address error checks).  A function of the generator that prints a statement is the
    computation of that statement, so that [genamode2], [genastore], [genflags] and the cases of
    [gen_opcode] read as in the source.

    The generator's variable m68k_pc_offset is a constant of the printed text at each of its
    places; it has the same value on every path to a place, so that it can be followed as a part
    of the state.  A jump to the end label leaves the handler without the last update of the
    program counter ([c_leave]). *)

From S2P Require Import Prelude Ram Mmu Cpu MulDiv.

(** ** Entries of the opcode table *)

Inductive amodes :=
  | Dreg | Areg | Aind | Aipi | Apdi | Ad16 | Ad8r
  | absw | absl | PC16 | PC8r | imm | imm0 | imm1 | imm2 | immi | am_unknown | am_illg.

#[global] Instance amodes_eq_dec : EqDecision amodes.
Proof. solve_decision. Defined.

Inductive instrmnem :=
  | i_ILLG
  | i_OR | i_AND | i_EOR | i_ORSR | i_ANDSR | i_EORSR
  | i_SUB | i_SUBA | i_SUBX | i_SBCD
  | i_ADD | i_ADDA | i_ADDX | i_ABCD
  | i_NEG | i_NEGX | i_NBCD | i_CLR | i_NOT | i_TST
  | i_BTST | i_BCHG | i_BCLR | i_BSET
  | i_CMP | i_CMPM | i_CMPA
  | i_MVPRM | i_MVPMR | i_MOVE | i_MOVEA | i_MVSR2 | i_MV2SR
  | i_SWAP | i_EXG | i_EXT | i_MVMEL | i_MVMLE
  | i_TRAP | i_MVR2USP | i_MVUSP2R | i_RESET | i_NOP | i_STOP | i_RTE | i_RTD
  | i_LINK | i_UNLK
  | i_RTS | i_TRAPV | i_RTR
  | i_JSR | i_JMP | i_BSR | i_Bcc
  | i_LEA | i_PEA | i_DBcc | i_Scc
  | i_DIVU | i_DIVS | i_MULU | i_MULS
  | i_ASR | i_ASL | i_LSR | i_LSL | i_ROL | i_ROR | i_ROXL | i_ROXR
  | i_ASRW | i_ASLW | i_LSRW | i_LSLW | i_ROLW | i_RORW | i_ROXLW | i_ROXRW
  | i_CHK | i_CHK2
  | i_MOVEC2 | i_MOVE2C | i_CAS | i_CAS2 | i_DIVL | i_MULL
  | i_BFTST | i_BFEXTU | i_BFCHG | i_BFEXTS | i_BFCLR | i_BFFFO | i_BFSET | i_BFINS
  | i_PACK | i_UNPK | i_TAS | i_BKPT | i_CALLM | i_RTM | i_TRAPcc | i_MOVES
  | i_FPP | i_FDBcc | i_FScc | i_FTRAPcc | i_FBcc | i_FSAVE | i_FRESTORE
  | i_CINVL | i_CINVP | i_CINVA | i_CPUSHL | i_CPUSHP | i_CPUSHA | i_MOVE16
  | i_MMUOP | i_EMULOP_RETURN | i_EMULOP | i_NATFEAT_ID | i_NATFEAT_CALL.

(** The members of struct instr the handlers depend on; [sreg_f] and [dreg_f] are [sreg] and [dreg], and a
    position [None] is -1. *)
Record instr := mk_instr {
  mnemo : instrmnem;
  cc : Z;
  plev : Z;
  size : wordsizes;
  smode : amodes;
  stype : Z;
  dmode : amodes;
  sreg_f : Z;
  dreg_f : Z;
  spos : option Z;
  dpos : option Z }.

Inductive getv_t := GENA_GETV_NO_FETCH | GENA_GETV_FETCH | GENA_GETV_FETCH_ALIGN.
Inductive movem_t := GENA_MOVEM_DO_INC | GENA_MOVEM_NO_INC | GENA_MOVEM_MOVE16.
(** XLATE_PHYS is only passed where the generator prints no access. *)
Inductive xlate_t := XLATE_LOG | XLATE_SFC | XLATE_DFC.

(** What the host computes for a shift of a 32 bit value by 32, which C leaves open. *)
Class host := { shr32 : Z → Z; shl32 : Z → Z }.
Definition host_shr `{host} (x n : Z) : Z := if n <? 32 then x ≫ n else shr32 x.
Definition host_shl `{host} (x n : Z) : Z := if n <? 32 then u32 (x ≪ n) else shl32 x.

Definition areg_byteinc (r : Z) : Z := if r =? 7 then 2 else 1.
Definition imm8_table (i : Z) : Z := if i =? 0 then 8 else i.

(** The tables of init_m68k: the lowest bit of a mask (8 for none), counted from either side, and
    the mask without it. *)
Fixpoint lowest_bit (n : nat) (j i : Z) : Z :=
  match n with O => j | S n => if nz (i .& (1 ≪ j)) then j else lowest_bit n (j + 1) i end.
Definition movem_index1 (i : Z) : Z := lowest_bit 8 0 i.
Definition movem_index2 (i : Z) : Z := 7 - lowest_bit 8 0 i.
Definition movem_next (i : Z) : Z := i .& Z.lnot (1 ≪ lowest_bit 8 0 i).

(** ** Flags *)

Definition flag_logical (sz : wordsizes) (value : Z) : C unit :=
  CLEAR_CZNV;; SET_ZFLG (sx sz value =? 0);; SET_NFLG (sx sz value <? 0).
Definition flag_logical_noclobber (sz : wordsizes) (value : Z) : C unit :=
  SET_ZFLG (sx sz value =? 0);; SET_NFLG (sx sz value <? 0).
Definition flag_zn (sz : wordsizes) (value : Z) : C unit :=
  z ← c_get zflg; SET_ZFLG (z && (sx sz value =? 0));; SET_NFLG (sx sz value <? 0).

(** These declare the variable of the result. *)
Definition flag_add (sz : wordsizes) (src dst : Z) : C Z :=
  let newv := u32 (sx sz dst + sx sz src) in
  let flgs := sx sz src <? 0 in let flgo := sx sz dst <? 0 in let flgn := sx sz newv <? 0 in
  SET_ZFLG (sx sz newv =? 0);;
  SET_VFLG (xorb flgs flgn && xorb flgo flgn);;
  SET_CFLG (zx sz (Z.lnot dst) <? zx sz src);; COPY_CARRY;;
  SET_NFLG flgn;; mret newv.
Definition flag_sub (sz : wordsizes) (src dst : Z) : C Z :=
  let newv := u32 (sx sz dst - sx sz src) in
  let flgs := sx sz src <? 0 in let flgo := sx sz dst <? 0 in let flgn := sx sz newv <? 0 in
  SET_ZFLG (sx sz newv =? 0);;
  SET_VFLG (xorb flgs flgo && xorb flgn flgo);;
  SET_CFLG (zx sz dst <? zx sz src);; COPY_CARRY;;
  SET_NFLG flgn;; mret newv.
Definition flag_cmp (sz : wordsizes) (src dst : Z) : C unit :=
  let newv := u32 (sx sz dst - sx sz src) in
  let flgs := sx sz src <? 0 in let flgo := sx sz dst <? 0 in let flgn := sx sz newv <? 0 in
  SET_ZFLG (sx sz newv =? 0);;
  SET_VFLG (xorb flgs flgo && xorb flgn flgo);;
  SET_CFLG (zx sz dst <? zx sz src);;
  SET_NFLG flgn.

Definition flag_addx (sz : wordsizes) (newv src dst : Z) : C unit :=
  let flgs := sx sz src <? 0 in let flgo := sx sz dst <? 0 in let flgn := sx sz newv <? 0 in
  SET_VFLG (xorb flgs flgn && xorb flgo flgn);;
  SET_CFLG (xorb flgs (xorb flgs flgo && xorb flgo flgn));; COPY_CARRY.
Definition flag_subx (sz : wordsizes) (newv src dst : Z) : C unit :=
  let flgs := sx sz src <? 0 in let flgo := sx sz dst <? 0 in let flgn := sx sz newv <? 0 in
  SET_VFLG (xorb flgs flgo && xorb flgo flgn);;
  SET_CFLG (xorb flgs (xorb flgs flgn && xorb flgo flgn));; COPY_CARRY.

Definition force_range_for_rox (cnt : Z) (sz : wordsizes) : Z :=
  match sz with
  | sz_long => if 33 <=? cnt then cnt - 33 else cnt
  | sz_word =>
    let cnt := if 34 <=? cnt then cnt - 34 else cnt in
    if 17 <=? cnt then cnt - 17 else cnt
  | sz_byte =>
    let cnt := if 36 <=? cnt then cnt - 36 else cnt in
    let cnt := if 18 <=? cnt then cnt - 18 else cnt in
    if 9 <=? cnt then cnt - 9 else cnt
  end.

Section insn.
Context `{ram_config} `{host}.

(** ** Operands *)

Definition gen_nextibyte : C Z :=
  p ← c_get pc; r ← c_get pc_offset; c_upd (c_pc_offset (r + 2));; lift (get_ibyte p r).
Definition gen_nextiword : C Z :=
  p ← c_get pc; r ← c_get pc_offset; c_upd (c_pc_offset (r + 2));; lift (get_iword p r).
Definition gen_nextilong : C Z :=
  p ← c_get pc; r ← c_get pc_offset; c_upd (c_pc_offset (r + 4));; lift (get_ilong p r).

Definition sync_m68k_pc : C unit :=
  o ← c_get pc_offset; c_when (nz o) (m68k_incpc o;; c_upd (c_pc_offset 0)).
Definition gen_set_fault_pc : C unit :=
  sync_m68k_pc;; p ← c_get pc; c_upd (c_fault_pc p);; c_upd (c_pc_offset 0).

(** get_byte, get_word and get_long, with the prefixes of [mem_prefix]. *)
Definition xget (xl : xlate_t) (sz : wordsizes) (a : Z) : C Z :=
  match xl, sz with
  | XLATE_LOG, sz_byte => lift (get_byte a) | XLATE_LOG, sz_word => lift (get_word a) | XLATE_LOG, sz_long => lift (get_long a)
  | XLATE_SFC, sz_byte => lift (sfc_get_byte a) | XLATE_SFC, sz_word => lift (sfc_get_word a) | XLATE_SFC, sz_long => lift (sfc_get_long a)
  | XLATE_DFC, _ => c_stop GeneratorAborts
  end.
Definition xput (xl : xlate_t) (sz : wordsizes) (a v : Z) : C unit :=
  let v := zx sz v in
  match xl, sz with
  | XLATE_LOG, sz_byte => lift (put_byte a v) | XLATE_LOG, sz_word => lift (put_word a v) | XLATE_LOG, sz_long => lift (put_long a v)
  | XLATE_DFC, sz_byte => lift (dfc_put_byte a v) | XLATE_DFC, sz_word => lift (dfc_put_word a v) | XLATE_DFC, sz_long => lift (dfc_put_long a v)
  | XLATE_SFC, _ => c_stop GeneratorAborts
  end.

Definition step_of (r : Z) (sz : wordsizes) : Z := match sz with sz_byte => areg_byteinc r | sz_word => 2 | sz_long => 4 end.

(** The address of an operand in memory, the variable with the suffix "a". *)
Definition amode_addr (mode : amodes) (reg : Z) (sz : wordsizes) (movem : movem_t) : C Z :=
  match mode with
  | Aind | Aipi => areg reg
  | Apdi => a ← areg reg; mret (match movem with GENA_MOVEM_DO_INC => u32 (a - step_of reg sz) | _ => a end)
  | Ad16 => a ← areg reg; w ← gen_nextiword; mret (u32 (a + sx sz_word w))
  | Ad8r => sync_m68k_pc;; a ← areg reg; w ← next_iword; get_disp_ea_020 a w
  | PC16 => p ← c_get pc; o ← c_get pc_offset; w ← gen_nextiword; mret (u32 (u32 (p + o) + sx sz_word w))
  | PC8r => sync_m68k_pc;; p ← c_get pc; w ← next_iword; get_disp_ea_020 p w
  | absw => w ← gen_nextiword; mret (u32 (sx sz_word w))
  | absl => gen_nextilong
  | _ => c_stop GeneratorAborts
  end.

(** The address register of an operand with postincrement or predecrement. *)
Definition amode_update (mode : amodes) (reg : Z) (sz : wordsizes) (a : Z) (fix1 : bool) : C unit :=
  let remember := c_when fix1 (v ← areg reg; c_upd (c_fixup (Some (reg, v)))) in
  match mode with
  | Aipi => remember;; v ← areg reg; set_areg reg (v + step_of reg sz)
  | Apdi => remember;; set_areg reg a
  | _ => mret tt
  end.

(** [genamode2] with [fixup] 0 or 1: the address and the value of an operand. *)
Definition genamode2 (mode : amodes) (reg : Z) (sz : wordsizes) (getv : getv_t) (movem : movem_t) (xl : xlate_t) (fix1 : bool) : C (Z * Z) :=
  match mode with
  | Dreg => v ← dreg reg; mret (0, sx sz v)
  | Areg => v ← areg reg; mret (0, sx sz v)
  | imm =>
    match sz with
    | sz_byte => v ← gen_nextibyte; mret (0, sx sz_byte v)
    | sz_word => v ← gen_nextiword; mret (0, sx sz_word v)
    | sz_long => v ← gen_nextilong; mret (0, sx sz_long v)
    end
  | imm0 => v ← gen_nextibyte; mret (0, sx sz_byte v)
  | imm1 => v ← gen_nextiword; mret (0, sx sz_word v)
  | imm2 => v ← gen_nextilong; mret (0, sx sz_long v)
  | immi => mret (0, reg)
  | _ =>
    a ← amode_addr mode reg sz movem;
    v ← (match getv with GENA_GETV_FETCH => x ← xget xl sz a; mret (sx sz x) | _ => mret 0 end);
    match movem with GENA_MOVEM_DO_INC => amode_update mode reg sz a fix1 | _ => mret tt end;;
    mret (a, v)
  end.

(** [genamode2] with [fixup] 2 *)
Definition fixup_done (mode : amodes) : C unit :=
  match mode with Aipi | Apdi => c_upd (c_fixup None) | _ => mret tt end.

Definition genamode (mode : amodes) (reg : Z) (sz : wordsizes) (getv : getv_t) : C (Z * Z) :=
  genamode2 mode reg sz getv GENA_MOVEM_DO_INC XLATE_LOG false.

(** The value alone. *)
Definition fetch_operand (mode : amodes) (reg : Z) (sz : wordsizes) : C Z :=
  o ← genamode mode reg sz GENA_GETV_FETCH; mret o.2.

Definition genastore (from : Z) (mode : amodes) (reg : Z) (sz : wordsizes) (toa : Z) (xl : xlate_t) : C unit :=
  match mode with
  | Dreg =>
    d ← dreg reg;
    match sz with
    | sz_byte => set_dreg reg ((d .& Z.lnot 0xff) .| (from .& 0xff))
    | sz_word => set_dreg reg ((d .& Z.lnot 0xffff) .| (from .& 0xffff))
    | sz_long => set_dreg reg from
    end
  | Areg =>
    match sz with
    | sz_word => set_areg reg (sx sz_word from)
    | sz_long => set_areg reg from
    | sz_byte => c_stop GeneratorAborts
    end
  | Aind | Aipi | Apdi | Ad16 | Ad8r | absw | absl | PC16 | PC8r => gen_set_fault_pc;; xput xl sz toa from
  | _ => c_stop GeneratorAborts
  end.

(** ** Shifts and rotations: the code between the fetch of the operand and its store *)

(** [source_is_imm1_8], and the test it saves. *)
Definition ASR (imm1_8 : bool) (sz : wordsizes) (data cnt : Z) : C Z :=
  let val := zx sz data in
  let sign := (cmask sz .& val) ≫ (bit_size sz - 1) in
  let cnt := cnt .& 63 in
  CLEAR_CZNV;;
  val ← (if bit_size sz <=? cnt then
           SET_CFLG (nz sign);; COPY_CARRY;; mret (bit_mask sz .& u32 (- sign))
         else if imm1_8 || (0 <? cnt) then
           let val := val ≫ (cnt - 1) in
           SET_CFLG (nz (val .& 1));; COPY_CARRY;;
           let val := val ≫ 1 in
           let val := val .| (u32 (bit_mask sz ≪ (bit_size sz - cnt)) .& u32 (- sign)) in
           mret (val .& bit_mask sz)
         else mret val);
  flag_logical_noclobber sz val;; mret val.

Definition ASL (imm1_8 : bool) (sz : wordsizes) (data cnt : Z) : C Z :=
  let val := zx sz data in
  let cnt := cnt .& 63 in
  CLEAR_CZNV;;
  val ← (if bit_size sz <=? cnt then
           SET_VFLG (nz val);;
           SET_CFLG (if cnt =? bit_size sz then nz (val .& 1) else false);; COPY_CARRY;; mret 0
         else if imm1_8 || (0 <? cnt) then
           let mask := u32 (bit_mask sz ≪ (bit_size sz - 1 - cnt)) .& bit_mask sz in
           SET_VFLG (negb (val .& mask =? mask) && nz (val .& mask));;
           let val := u32 (val ≪ (cnt - 1)) in
           SET_CFLG (nz ((val .& cmask sz) ≫ (bit_size sz - 1)));; COPY_CARRY;;
           let val := u32 (val ≪ 1) in
           mret (val .& bit_mask sz)
         else mret val);
  flag_logical_noclobber sz val;; mret val.

Definition LSR (imm1_8 : bool) (sz : wordsizes) (data cnt : Z) : C Z :=
  let val := zx sz data in
  let cnt := cnt .& 63 in
  CLEAR_CZNV;;
  val ← (if bit_size sz <=? cnt then
           SET_CFLG (nz (b2z (cnt =? bit_size sz) .& (val ≫ (bit_size sz - 1))));; COPY_CARRY;; mret 0
         else if imm1_8 || (0 <? cnt) then
           let val := val ≫ (cnt - 1) in
           SET_CFLG (nz (val .& 1));; COPY_CARRY;; mret (val ≫ 1)
         else mret val);
  flag_logical_noclobber sz val;; mret val.

Definition LSL (imm1_8 : bool) (sz : wordsizes) (data cnt : Z) : C Z :=
  let val := zx sz data in
  let cnt := cnt .& 63 in
  CLEAR_CZNV;;
  val ← (if bit_size sz <=? cnt then
           SET_CFLG (if cnt =? bit_size sz then nz (val .& 1) else false);; COPY_CARRY;; mret 0
         else if imm1_8 || (0 <? cnt) then
           let val := u32 (val ≪ (cnt - 1)) in
           SET_CFLG (nz ((val .& cmask sz) ≫ (bit_size sz - 1)));; COPY_CARRY;;
           let val := u32 (val ≪ 1) in
           mret (val .& bit_mask sz)
         else mret val);
  flag_logical_noclobber sz val;; mret val.

Definition ROL (imm1_8 : bool) (sz : wordsizes) (data cnt : Z) : C Z :=
  let val := zx sz data in
  let cnt := cnt .& 63 in
  CLEAR_CZNV;;
  val ← (if imm1_8 || (0 <? cnt) then
           let cnt := cnt .& (bit_size sz - 1) in
           let loval := host_shr val (bit_size sz - cnt) in
           let val := u32 (val ≪ cnt) in
           let val := (val .| loval) .& bit_mask sz in
           SET_CFLG (nz (val .& 1));; mret val
         else mret val);
  flag_logical_noclobber sz val;; mret val.

Definition ROR (imm1_8 : bool) (sz : wordsizes) (data cnt : Z) : C Z :=
  let val := zx sz data in
  let cnt := cnt .& 63 in
  CLEAR_CZNV;;
  val ← (if imm1_8 || (0 <? cnt) then
           let cnt := cnt .& (bit_size sz - 1) in
           let hival := host_shl val (bit_size sz - cnt) in
           let val := val ≫ cnt in
           let val := (val .| hival) .& bit_mask sz in
           SET_CFLG (nz ((val .& cmask sz) ≫ (bit_size sz - 1)));; mret val
         else mret val);
  flag_logical_noclobber sz val;; mret val.

Definition ROXL (imm1_8 : bool) (sz : wordsizes) (data cnt : Z) : C Z :=
  let val := zx sz data in
  let cnt := cnt .& 63 in
  CLEAR_CZNV;;
  let cnt := if imm1_8 then cnt else force_range_for_rox cnt sz in
  x ← c_get xflg;
  val ← (if imm1_8 || (0 <? cnt) then
           let cnt := cnt - 1 in
           let loval := val ≫ (bit_size sz - 1 - cnt) in
           let carry := loval .& 1 in
           let val := u32 (u32 (u32 (val ≪ 1) .| b2z x) ≪ cnt) .| (loval ≫ 1) in
           SET_XFLG (nz carry);; mret (val .& bit_mask sz)
         else mret val);
  x ← c_get xflg; SET_CFLG x;;
  flag_logical_noclobber sz val;; mret val.

Definition ROXR (imm1_8 : bool) (sz : wordsizes) (data cnt : Z) : C Z :=
  let val := zx sz data in
  let cnt := cnt .& 63 in
  CLEAR_CZNV;;
  let cnt := if imm1_8 then cnt else force_range_for_rox cnt sz in
  x ← c_get xflg;
  val ← (if imm1_8 || (0 <? cnt) then
           let cnt := cnt - 1 in
           let hival := u32 (val ≪ 1) .| b2z x in
           let hival := u32 (hival ≪ (bit_size sz - 1 - cnt)) in
           let val := val ≫ cnt in
           let carry := val .& 1 in
           let val := (val ≫ 1) .| hival in
           SET_XFLG (nz carry);; mret (val .& bit_mask sz)
         else mret val);
  x ← c_get xflg; SET_CFLG x;;
  flag_logical_noclobber sz val;; mret val.

(** The shifts by one of words in memory. *)
Definition ASRW (sz : wordsizes) (data : Z) : C Z :=
  let val := zx sz data in
  let sign := cmask sz .& val in
  let cflg := val .& 1 in
  let val := (val ≫ 1) .| sign in
  flag_logical sz val;; SET_CFLG (nz cflg);; COPY_CARRY;; mret val.

Definition ASLW (sz : wordsizes) (data : Z) : C Z :=
  let val := zx sz data in
  let sign := cmask sz .& val in
  let val := u32 (val ≪ 1) in
  flag_logical sz val;;
  let sign2 := cmask sz .& val in
  SET_CFLG (nz sign);; COPY_CARRY;;
  v ← c_get vflg; SET_VFLG (v || negb (sign2 =? sign));; mret val.

Definition LSRW (sz : wordsizes) (data : Z) : C Z :=
  let val := zx sz data in
  let carry := val .& 1 in
  let val := val ≫ 1 in
  flag_logical sz val;; SET_CFLG (nz carry);; COPY_CARRY;; mret val.

Definition LSLW (sz : wordsizes) (data : Z) : C Z :=
  let val := zx sz data in
  let carry := val .& cmask sz in
  let val := zx sz (val ≪ 1) in
  flag_logical sz val;; SET_CFLG (nz (carry ≫ (bit_size sz - 1)));; COPY_CARRY;; mret val.

Definition ROLW (sz : wordsizes) (data : Z) : C Z :=
  let val := zx sz data in
  let carry := val .& cmask sz in
  let val := zx sz (val ≪ 1) in
  let val := if nz carry then val .| 1 else val in
  flag_logical sz val;; SET_CFLG (nz (carry ≫ (bit_size sz - 1)));; mret val.

Definition RORW (sz : wordsizes) (data : Z) : C Z :=
  let val := zx sz data in
  let carry := val .& 1 in
  let val := val ≫ 1 in
  let val := if nz carry then val .| cmask sz else val in
  flag_logical sz val;; SET_CFLG (nz carry);; mret val.

Definition ROXLW (sz : wordsizes) (data : Z) : C Z :=
  let val := zx sz data in
  let carry := val .& cmask sz in
  let val := zx sz (val ≪ 1) in
  x ← c_get xflg;
  let val := if x : bool then val .| 1 else val in
  flag_logical sz val;; SET_CFLG (nz (carry ≫ (bit_size sz - 1)));; COPY_CARRY;; mret val.

Definition ROXRW (sz : wordsizes) (data : Z) : C Z :=
  let val := zx sz data in
  let carry := val .& 1 in
  let val := val ≫ 1 in
  x ← c_get xflg;
  let val := if x : bool then val .| cmask sz else val in
  flag_logical sz val;; SET_CFLG (nz carry);; COPY_CARRY;; mret val.

(** ** Decimal arithmetic: the code between the fetch of the operands and the store *)

Definition ABCD (src dst : Z) : C Z :=
  x ← c_get xflg;
  let newv_lo := u16 ((src .& 0xf) + (dst .& 0xf) + b2z x) in
  let newv_hi := u16 ((src .& 0xf0) + (dst .& 0xf0)) in
  let tmp_newv := u16 (newv_hi + newv_lo) in
  let newv := if 9 <? newv_lo then u16 (tmp_newv + 6) else tmp_newv in
  let cflg := 0x90 <? (newv .& 0x3f0) in
  let newv := if cflg then u16 (newv + 0x60) else newv in
  SET_CFLG cflg;; COPY_CARRY;;
  flag_zn sz_byte newv;;
  SET_VFLG ((tmp_newv .& 0x80 =? 0) && nz (newv .& 0x80));; mret newv.

Definition SBCD (src dst : Z) : C Z :=
  x ← c_get xflg;
  let newv_lo := u16 ((dst .& 0xf) - (src .& 0xf) - b2z x) in
  let newv_hi := u16 ((dst .& 0xf0) - (src .& 0xf0)) in
  let tmp_newv := u16 (newv_hi + newv_lo) in
  let '(newv, bcd) := if nz (newv_lo .& 0xf0) then (u16 (tmp_newv - 6), 6) else (tmp_newv, 0) in
  let newv := if 0xff <? (((dst .& 0xff) - (src .& 0xff) - b2z x) .& 0x100) then u16 (newv - 0x60) else newv in
  SET_CFLG (0xff <? (((dst .& 0xff) - (src .& 0xff) - bcd - b2z x) .& 0x300));; COPY_CARRY;;
  flag_zn sz_byte newv;;
  SET_VFLG (nz (tmp_newv .& 0x80) && (newv .& 0x80 =? 0));; mret newv.

Definition NBCD (src : Z) : C Z :=
  x ← c_get xflg;
  let newv_lo := u16 (- (src .& 0xf) - b2z x) in
  let newv_hi := u16 (- (src .& 0xf0)) in
  let newv_lo := if 9 <? newv_lo then u16 (newv_lo - 6) else newv_lo in
  let newv := u16 (newv_hi + newv_lo) in
  let cflg := 0x90 <? (newv .& 0x1f0) in
  let newv := if cflg then u16 (newv - 0x60) else newv in
  SET_CFLG cflg;; COPY_CARRY;;
  flag_zn sz_byte newv;; mret newv.

(** ** Several registers *)

(** [while (mask) { reg = get(srca); srca += size; mask = movem_next[mask]; }], [base] 0 for data and 8
    for address registers *)
Fixpoint movem_load (fuel : nat) (sz : wordsizes) (base mask srca : Z) : C Z :=
  if mask =? 0 then mret srca else
  match fuel with
  | O => c_stop NoMoreFuel
  | S fuel =>
    v ← xget XLATE_LOG sz srca;
    c_upd (λ c, c_greg (aset c.(greg) (base + movem_index1 mask) (u32 (sx sz v))) c);;
    movem_load fuel sz base (movem_next mask) (u32 (srca + bytes sz))
  end.

Fixpoint movem_store (fuel : nat) (sz : wordsizes) (base mask srca : Z) : C Z :=
  if mask =? 0 then mret srca else
  match fuel with
  | O => c_stop NoMoreFuel
  | S fuel =>
    v ← c_get (λ c, aget c.(greg) (base + movem_index1 mask));
    xput XLATE_LOG sz srca v;;
    movem_store fuel sz base (movem_next mask) (u32 (srca + bytes sz))
  end.

(** The same downwards. *)
Fixpoint movem_push (fuel : nat) (sz : wordsizes) (base mask srca : Z) : C Z :=
  if mask =? 0 then mret srca else
  match fuel with
  | O => c_stop NoMoreFuel
  | S fuel =>
    let srca := u32 (srca - bytes sz) in
    v ← c_get (λ c, aget c.(greg) (base + movem_index2 mask));
    xput XLATE_LOG sz srca v;;
    movem_push fuel sz base (movem_next mask) srca
  end.

Definition genmovemel (i : instr) (dstreg : Z) : C unit :=
  mask ← gen_nextiword;
  let dmask := mask .& 0xff in let amask := (mask ≫ 8) .& 0xff in
  o ← genamode2 i.(dmode) dstreg i.(size) GENA_GETV_FETCH_ALIGN GENA_MOVEM_NO_INC XLATE_LOG false;
  srca ← movem_load 8 i.(size) 0 dmask o.1;
  srca ← movem_load 8 i.(size) 8 amask srca;
  c_when (bool_decide (i.(dmode) = Aipi)) (set_areg dstreg srca).

Definition genmovemle (i : instr) (dstreg : Z) : C unit :=
  mask ← gen_nextiword;
  o ← genamode2 i.(dmode) dstreg i.(size) GENA_GETV_FETCH_ALIGN GENA_MOVEM_NO_INC XLATE_LOG false;
  sync_m68k_pc;;
  if bool_decide (i.(dmode) = Apdi) then
    let amask := mask .& 0xff in let dmask := (mask ≫ 8) .& 0xff in
    srca ← movem_push 8 i.(size) 8 amask o.1;
    srca ← movem_push 8 i.(size) 0 dmask srca;
    set_areg dstreg srca
  else
    let dmask := mask .& 0xff in let amask := (mask ≫ 8) .& 0xff in
    srca ← movem_store 8 i.(size) 0 dmask o.1;
    movem_store 8 i.(size) 8 amask srca;;
    mret tt.

(** ** Bit fields *)

Definition bf_offset (extra : Z) : C Z :=
  if nz (extra .& 0x800) then v ← dreg ((extra ≫ 6) .& 7); mret (sx sz_long v) else mret ((extra ≫ 6) .& 0x1f).
Definition bf_width (extra : Z) : C Z :=
  v ← (if nz (extra .& 0x20) then dreg (extra .& 7) else mret extra); mret (((v - 1) .& 0x1f) + 1).

(** [while (mask) { if (tmp & mask) break; mask >>= 1; offset++; }] *)
Fixpoint bf_find (fuel : nat) (tmp mask offset : Z) : C Z :=
  if mask =? 0 then mret offset else
  match fuel with
  | O => c_stop NoMoreFuel
  | S fuel => if nz (tmp .& mask) then mret offset else bf_find fuel tmp (mask ≫ 1) (offset + 1)
  end.

Definition bit_field (i : instr) (srcreg dstreg : Z) : C unit :=
  extra ← fetch_operand i.(smode) srcreg i.(size);
  o ← genamode i.(dmode) dstreg sz_long GENA_GETV_FETCH_ALIGN;
  offset ← bf_offset extra;
  width ← bf_width extra;
  let in_reg := bool_decide (i.(dmode) = Dreg) in
  let offset := if in_reg then offset .& 0x1f else offset in
  let dsta := u32 (o.1 + (offset ≫ 3)) in
  '(tmp, bdata) ← (if in_reg then
                     d ← dreg dstreg;
                     let tmp := u32 (d ≪ offset) .| host_shr d (32 - offset) in
                     mret (tmp, (tmp .& u32 ((1 ≪ (32 - width)) - 1), 0))
                   else get_bitfield dsta offset width);
  SET_NFLG (sx sz_long tmp <? 0);;
  let tmp := match i.(mnemo) with i_BFEXTS => u32 (sx sz_long tmp ≫ (32 - width)) | _ => tmp ≫ (32 - width) end in
  SET_ZFLG (tmp =? 0);; SET_VFLG false;; SET_CFLG false;;
  let put tmp :=
    if in_reg then
      let tmp := bdata.1 .| u32 (tmp ≪ (32 - width)) in
      set_dreg dstreg ((tmp ≫ offset) .| host_shl tmp (32 - offset))
    else put_bitfield dsta bdata tmp offset width in
  match i.(mnemo) with
  | i_BFEXTU | i_BFEXTS => set_dreg ((extra ≫ 12) .& 7) tmp
  | i_BFCHG => put (tmp .^ (0xffffffff ≫ (32 - width)))
  | i_BFCLR => put 0
  | i_BFFFO => offset ← bf_find 32 tmp (1 ≪ (width - 1)) offset; set_dreg ((extra ≫ 12) .& 7) offset
  | i_BFSET => put (0xffffffff ≫ (32 - width))
  | i_BFINS =>
    v ← dreg ((extra ≫ 12) .& 7);
    let tmp := v .& (0xffffffff ≫ (32 - width)) in
    SET_NFLG (nz (tmp .& (1 ≪ (width - 1))));; SET_ZFLG (tmp =? 0);;
    put tmp
  | _ => mret tt
  end.

End insn.
