(* ===== verification/Handlers.v ===== *)
(** * The handlers of the instructions, and the instruction loop

    The cases of [gen_opcode] of [src/src/uae_cpu/gencpu.c] (see [Insn]) for the integer
    instructions, the selection of the register numbers by [generate_one_opcode], and [m68k_reset],
    [do_trace] and a round of [m68k_do_execute] with its CATCH in [m68k_execute]
    ([src/src/uae_cpu/newcpu.cpp]).  The opcode table is an argument: the build makes it from
    the file table68k. *)

From S2P Require Import Prelude Ram Mmu Cpu MulDiv Insn.

Section handlers.
Context `{ram_config} `{host}.

(** The entry and the variables [opcode], [srcreg] and [dstreg] of the handler. *)
Context (i : instr) (opcode srcreg dstreg : Z).

Definition isz : wordsizes := i.(size).
Definition src_op : C Z := fetch_operand i.(smode) srcreg isz.
Definition dst_op : C (Z * Z) := genamode i.(dmode) dstreg isz GENA_GETV_FETCH.
Definition src_rw : C (Z * Z) := genamode i.(smode) srcreg isz GENA_GETV_FETCH.
Definition store_dst (v : Z) (o : Z * Z) : C unit := genastore v i.(dmode) dstreg isz o.1 XLATE_LOG.
Definition store_src (v : Z) (o : Z * Z) : C unit := genastore v i.(smode) srcreg isz o.1 XLATE_LOG.
(** Source and destination with the source register restored if the second access fails. *)
Definition src_dst_fixed : C (Z * (Z * Z)) :=
  s ← genamode2 i.(smode) srcreg isz GENA_GETV_FETCH GENA_MOVEM_DO_INC XLATE_LOG true;
  d ← genamode i.(dmode) dstreg isz GENA_GETV_FETCH;
  fixup_done i.(smode);;
  mret (s.2, d).

(** ** Logic and arithmetic *)

Definition op_logic : C unit :=
  src ← src_op; d ← dst_op;
  let src := match i.(mnemo) with i_OR => src .| d.2 | i_AND => src .& d.2 | _ => src .^ d.2 end in
  flag_logical isz src;; store_dst src d.

Definition op_ORSR : C unit :=
  MakeSR;;
  src ← src_op;
  let src := match isz with sz_byte => src .& 0xff | _ => src end in
  c_upd (λ c, c_sr (u16 (match i.(mnemo) with i_EORSR => c.(sr) .^ src | _ => c.(sr) .| src end)) c);;
  MakeFromSR.

Definition op_ANDSR : C unit :=
  MakeSR;;
  src ← src_op;
  let src := match isz with sz_byte => src .| 0xff00 | _ => src end in
  c_upd (λ c, c_sr (u16 (c.(sr) .& src)) c);;
  MakeFromSR.

Definition op_SUB : C unit := src ← src_op; d ← dst_op; newv ← flag_sub isz src d.2; store_dst newv d.
Definition op_ADD : C unit := src ← src_op; d ← dst_op; newv ← flag_add isz src d.2; store_dst newv d.

Definition op_SUBA : C unit :=
  src ← src_op; d ← genamode i.(dmode) dstreg sz_long GENA_GETV_FETCH;
  genastore (u32 (d.2 - src)) i.(dmode) dstreg sz_long d.1 XLATE_LOG.
Definition op_ADDA : C unit :=
  src ← src_op; d ← genamode i.(dmode) dstreg sz_long GENA_GETV_FETCH;
  genastore (u32 (d.2 + src)) i.(dmode) dstreg sz_long d.1 XLATE_LOG.

Definition op_SUBX : C unit :=
  '(src, d) ← src_dst_fixed;
  x ← c_get xflg;
  let newv := u32 (d.2 - src - b2z x) in
  flag_subx isz newv src d.2;; flag_zn isz newv;; store_dst newv d.
Definition op_ADDX : C unit :=
  '(src, d) ← src_dst_fixed;
  x ← c_get xflg;
  let newv := u32 (d.2 + src + b2z x) in
  flag_addx isz newv src d.2;; flag_zn isz newv;; store_dst newv d.

Definition op_SBCD : C unit := '(src, d) ← src_dst_fixed; newv ← SBCD src d.2; store_dst newv d.
Definition op_ABCD : C unit := '(src, d) ← src_dst_fixed; newv ← ABCD src d.2; store_dst newv d.

Definition op_NEG : C unit := s ← src_rw; dst ← flag_sub isz s.2 0; store_src dst s.
Definition op_NEGX : C unit :=
  s ← src_rw; x ← c_get xflg;
  let newv := u32 (0 - s.2 - b2z x) in
  flag_subx isz newv s.2 0;; flag_zn isz newv;; store_src newv s.
Definition op_NBCD : C unit := s ← src_rw; newv ← NBCD s.2; store_src newv s.

Definition op_CLR : C unit :=
  s ← genamode i.(smode) srcreg isz GENA_GETV_FETCH_ALIGN; flag_logical isz 0;; store_src 0 s.
Definition op_NOT : C unit := s ← src_rw; let dst := u32 (Z.lnot s.2) in flag_logical isz dst;; store_src dst s.
Definition op_TST : C unit := src ← src_op; flag_logical isz src.

(** BTST, BCHG, BCLR, BSET *)
Definition op_bit : C unit :=
  src ← src_op; d ← dst_op;
  let src := match isz with sz_byte => src .& 7 | _ => src .& 31 end in
  let dst := d.2 in
  match i.(mnemo) with
  | i_BTST => SET_ZFLG (negb (nz ((dst ≫ src) .& 1)))
  | i_BCHG =>
    let dst := dst .^ (1 ≪ src) in
    SET_ZFLG (nz ((u32 dst .& (1 ≪ src)) ≫ src));; store_dst dst d
  | i_BCLR => SET_ZFLG (negb (nz ((dst ≫ src) .& 1)));; store_dst (dst .& Z.lnot (1 ≪ src)) d
  | _ => SET_ZFLG (negb (nz ((dst ≫ src) .& 1)));; store_dst (dst .| (1 ≪ src)) d
  end.

(** CMP and CMPM *)
Definition op_CMP : C unit := src ← src_op; d ← dst_op; flag_cmp isz src d.2.
Definition op_CMPA : C unit :=
  src ← src_op; d ← genamode i.(dmode) dstreg sz_long GENA_GETV_FETCH; flag_cmp sz_long src d.2.

(** ** Moves *)

Definition op_MVPRM : C unit :=
  src ← src_op;
  a ← areg dstreg; w ← gen_nextiword;
  let memp := u32 (a + sx sz_word w) in
  match isz with
  | sz_word => lift (put_byte memp (u8 (src ≫ 8)));; lift (put_byte (u32 (memp + 2)) (u8 src))
  | _ =>
    lift (put_byte memp (u8 (src ≫ 24)));; lift (put_byte (u32 (memp + 2)) (u8 (src ≫ 16)));;
    lift (put_byte (u32 (memp + 4)) (u8 (src ≫ 8)));; lift (put_byte (u32 (memp + 6)) (u8 src))
  end.

Definition op_MVPMR : C unit :=
  a ← areg srcreg; w ← gen_nextiword;
  let memp := u32 (a + sx sz_word w) in
  d ← genamode i.(dmode) dstreg isz GENA_GETV_FETCH_ALIGN;
  match isz with
  | sz_word =>
    b0 ← lift (get_byte memp); b1 ← lift (get_byte (u32 (memp + 2)));
    store_dst (u16 ((b0 ≪ 8) + b1)) d
  | _ =>
    b0 ← lift (get_byte memp); b1 ← lift (get_byte (u32 (memp + 2)));
    b2 ← lift (get_byte (u32 (memp + 4))); b3 ← lift (get_byte (u32 (memp + 6)));
    store_dst (u32 ((b0 ≪ 24) + (b1 ≪ 16) + (b2 ≪ 8) + b3)) d
  end.

Definition op_MOVE : C unit :=
  s ← genamode2 i.(smode) srcreg isz GENA_GETV_FETCH GENA_MOVEM_DO_INC XLATE_LOG true;
  d ← genamode i.(dmode) dstreg isz GENA_GETV_FETCH_ALIGN;
  fixup_done i.(smode);;
  flag_logical isz s.2;; store_dst s.2 d.

Definition op_MOVEA : C unit :=
  src ← src_op; d ← genamode i.(dmode) dstreg isz GENA_GETV_FETCH_ALIGN;
  let val := u32 (match isz with sz_word => sx sz_word src | _ => src end) in
  genastore val i.(dmode) dstreg sz_long d.1 XLATE_LOG.

Definition op_MVSR2 : C unit :=
  s ← genamode i.(smode) srcreg sz_word GENA_GETV_FETCH_ALIGN;
  MakeSR;; w ← c_get sr;
  genastore (match isz with sz_byte => w .& 0xff | _ => w end) i.(smode) srcreg sz_word s.1 XLATE_LOG.

Definition op_MV2SR : C unit :=
  src ← fetch_operand i.(smode) srcreg sz_word;
  match isz with
  | sz_byte => MakeSR;; c_upd (λ c, c_sr (c.(sr) .& 0xff00) c);; c_upd (λ c, c_sr (c.(sr) .| (src .& 0xff)) c)
  | _ => c_upd (c_sr (u16 src))
  end;;
  MakeFromSR.

Definition op_SWAP : C unit :=
  s ← genamode i.(smode) srcreg sz_long GENA_GETV_FETCH;
  let dst := ((s.2 ≫ 16) .& 0xffff) .| u32 ((s.2 .& 0xffff) ≪ 16) in
  flag_logical sz_long dst;; genastore dst i.(smode) srcreg sz_long s.1 XLATE_LOG.

Definition op_EXG : C unit := s ← src_rw; d ← dst_op; store_src d.2 s;; store_dst s.2 d.

Definition op_EXT : C unit :=
  s ← genamode i.(smode) srcreg sz_long GENA_GETV_FETCH;
  let dst := match isz with
             | sz_byte => u32 (sx sz_byte s.2)
             | sz_word => u16 (sx sz_byte s.2)
             | sz_long => u32 (sx sz_word s.2) end in
  let rsz := match isz with sz_word => sz_word | _ => sz_long end in
  flag_logical rsz dst;; genastore dst i.(smode) srcreg rsz s.1 XLATE_LOG.

Definition op_LEA : C unit :=
  s ← genamode i.(smode) srcreg isz GENA_GETV_NO_FETCH;
  d ← genamode i.(dmode) dstreg isz GENA_GETV_FETCH_ALIGN;
  store_dst s.1 d.

Definition op_PEA : C unit :=
  s ← genamode i.(smode) srcreg isz GENA_GETV_NO_FETCH;
  d ← genamode Apdi 7 sz_long GENA_GETV_FETCH_ALIGN;
  genastore s.1 Apdi 7 sz_long d.1 XLATE_LOG.

Definition op_LINK : C unit :=
  offs ← fetch_operand i.(dmode) dstreg isz;
  old ← genamode Apdi 7 sz_long GENA_GETV_FETCH_ALIGN;
  s ← genamode i.(smode) srcreg sz_long GENA_GETV_FETCH;
  a ← areg 7; genastore a i.(smode) srcreg sz_long s.1 XLATE_LOG;;
  a ← areg 7; set_areg 7 (a + offs);;
  genastore s.2 Apdi 7 sz_long old.1 XLATE_LOG.

Definition op_UNLK : C unit :=
  s ← src_rw;
  set_areg 7 s.2;;
  old ← genamode Aipi 7 sz_long GENA_GETV_FETCH;
  store_src old.2 s.

Definition op_MOVES : C unit :=
  extra ← fetch_operand i.(smode) srcreg isz;
  let r := (extra ≫ 12) .& 7 in
  if nz (extra .& 0x800) then
    src ← c_get (λ c, aget c.(greg) ((extra ≫ 12) .& 15));
    d ← genamode2 i.(dmode) dstreg isz GENA_GETV_FETCH_ALIGN GENA_MOVEM_DO_INC XLATE_DFC false;
    genastore src i.(dmode) dstreg isz d.1 XLATE_DFC
  else
    s ← genamode2 i.(dmode) dstreg isz GENA_GETV_FETCH GENA_MOVEM_DO_INC XLATE_SFC false;
    (if nz (extra .& 0x8000) then set_areg r (sx isz s.2) else genastore s.2 Dreg r isz 0 XLATE_LOG);;
    sync_m68k_pc.

(** The four long words of MOVE16. *)
Definition copy_16 (mems memd : Z) : C unit :=
  let copy k := l ← lift (get_long (u32 (mems + k))); lift (put_long (u32 (memd + k)) l) in
  copy 0;; copy 4;; copy 8;; copy 12.

Definition op_MOVE16 : C unit :=
  if opcode .& 0xfff8 =? 0xf620 then
    a ← areg srcreg; let mems := a .& Z.lnot 15 in
    w ← gen_nextiword; let dstreg := (w ≫ 12) .& 7 in
    a ← areg dstreg; let memd := a .& Z.lnot 15 in
    copy_16 mems memd;;
    c_when (negb (srcreg =? dstreg)) (a ← areg srcreg; set_areg srcreg (a + 16));;
    a ← areg dstreg; set_areg dstreg (a + 16)
  else
    s ← genamode2 i.(smode) srcreg isz GENA_GETV_NO_FETCH GENA_MOVEM_MOVE16 XLATE_LOG false;
    d ← genamode2 i.(dmode) dstreg isz GENA_GETV_NO_FETCH GENA_MOVEM_MOVE16 XLATE_LOG false;
    copy_16 (s.1 .& Z.lnot 15) (d.1 .& Z.lnot 15);;
    if opcode .& 0xfff8 =? 0xf600 then a ← areg srcreg; set_areg srcreg (a + 16)
    else c_when (opcode .& 0xfff8 =? 0xf608) (a ← areg dstreg; set_areg dstreg (a + 16)).

Definition op_PACK : C unit :=
  let packed val := ((val ≫ 4) .& 0xf0) .| (val .& 0xf) in
  match i.(smode) with
  | Dreg =>
    s ← dreg srcreg; w ← gen_nextiword;
    let val := u16 (s + w) in
    d ← dreg dstreg; set_dreg dstreg ((d .& 0xffffff00) .| packed val)
  | _ =>
    a ← areg srcreg; b ← lift (get_byte (u32 (a - areg_byteinc srcreg)));
    b' ← lift (get_byte (u32 (a - 2 * areg_byteinc srcreg))); w ← gen_nextiword;
    let val := u16 ((b .| (b' ≪ 8)) + w) in
    set_areg srcreg (a - 2);;
    a ← areg dstreg; set_areg dstreg (a - areg_byteinc dstreg);;
    gen_set_fault_pc;;
    a ← areg dstreg; lift (put_byte a (packed val))
  end.

Definition op_UNPK : C unit :=
  let spread val := ((val ≪ 4) .& 0xf00) .| (val .& 0xf) in
  match i.(smode) with
  | Dreg =>
    s ← dreg srcreg; w ← gen_nextiword;
    let val := u16 (spread (u16 s) + w) in
    d ← dreg dstreg; set_dreg dstreg ((d .& 0xffff0000) .| (val .& 0xffff))
  | _ =>
    a ← areg srcreg; b ← lift (get_byte (u32 (a - areg_byteinc srcreg)));
    w ← gen_nextiword;
    let val := u16 (spread b + w) in
    set_areg srcreg (a - areg_byteinc srcreg);;
    a ← areg dstreg; set_areg dstreg (a - 2);;
    gen_set_fault_pc;;
    a ← areg dstreg; lift (put_word a val)
  end.

(** ** Shifts *)

Definition op_shift (f : bool → wordsizes → Z → Z → C Z) : C unit :=
  cnt ← src_op; d ← dst_op;
  val ← f (i.(stype) =? 3) isz d.2 cnt;
  store_dst val d.
Definition op_shift_w (f : wordsizes → Z → C Z) : C unit := s ← src_rw; val ← f isz s.2; store_src val s.

(** ** Control *)

Definition op_TRAP : C unit := src ← src_op; gen_set_fault_pc;; Exception (src + 32) 0.

Definition op_STOP : C unit :=
  src ← src_op; c_upd (c_sr (u16 src));; MakeFromSR;; m68k_setstopped true.

(** The loop of RTE; the frames it takes off the stack end with the first one whose format is not 1. *)
Fixpoint rte_loop (fuel : nat) : C (Z * Z) :=
  match fuel with
  | O => c_stop NoMoreFuel
  | S fuel =>
    s ← fetch_operand Aipi 7 sz_word;
    p ← fetch_operand Aipi 7 sz_long;
    format ← fetch_operand Aipi 7 sz_word;
    let newsr := u16 s in let newpc := u32 p in
    let f := format .& 0xf000 in
    let skip n := a ← areg 7; set_areg 7 (a + n);; mret (newsr, newpc) in
    if f =? 0 then mret (newsr, newpc)
    else if f =? 0x1000 then c_upd (c_sr newsr);; MakeFromSR;; rte_loop fuel
    else if f =? 0x2000 then skip 4
    else if f =? 0x7000 then skip 52
    else if f =? 0x8000 then skip 50
    else if f =? 0x9000 then skip 12
    else if f =? 0xa000 then skip 24
    else if f =? 0xb000 then skip 84
    else Exception 14 0;; c_leave
  end.

Definition op_RTE : C unit :=
  '(newsr, newpc) ← rte_loop 64;
  c_upd (c_sr newsr);; MakeFromSR;;
  m68k_setpc newpc;;
  c_upd (c_pc_offset 0).

Definition op_RTD : C unit :=
  offs ← src_op; p ← fetch_operand Aipi 7 sz_long;
  a ← areg 7; set_areg 7 (a + offs);;
  m68k_setpc (u32 p);; c_upd (c_pc_offset 0).

Definition op_RTS : C unit := m68k_do_rts;; c_upd (c_pc_offset 0).

Definition op_TRAPV : C unit :=
  oldpc ← c_get pc; sync_m68k_pc;;
  v ← c_get vflg; c_when v (Exception 7 oldpc;; c_leave).

Definition op_RTR : C unit :=
  MakeSR;;
  s ← genamode2 Aipi 7 sz_word GENA_GETV_FETCH GENA_MOVEM_DO_INC XLATE_LOG true;
  p ← fetch_operand Aipi 7 sz_long;
  fixup_done Aipi;;
  c_upd (λ c, c_sr (c.(sr) .& 0xff00) c);;
  c_upd (λ c, c_sr (c.(sr) .| (s.2 .& 0xff)) c);;
  m68k_setpc (u32 p);;
  MakeFromSR;;
  c_upd (c_pc_offset 0).

Definition op_JSR : C unit :=
  s ← genamode i.(smode) srcreg isz GENA_GETV_NO_FETCH;
  p ← c_get pc; o ← c_get pc_offset;
  m68k_do_jsr (u32 (p + o)) s.1;; c_upd (c_pc_offset 0).
Definition op_JMP : C unit :=
  s ← genamode i.(smode) srcreg isz GENA_GETV_NO_FETCH; m68k_setpc s.1;; c_upd (c_pc_offset 0).
Definition op_BSR : C unit :=
  src ← src_op;
  p ← c_get pc; o ← c_get pc_offset;
  m68k_do_bsr (u32 (p + o)) (src + 2);; c_upd (c_pc_offset 0).
Definition op_Bcc : C unit :=
  src ← src_op; t ← c_get (cctrue i.(cc));
  c_when t (m68k_incpc (src + 2);; c_leave).

Definition op_DBcc : C unit :=
  src ← src_rw; offs ← fetch_operand i.(dmode) dstreg isz;
  t ← c_get (cctrue i.(cc));
  c_when (negb t)
    (store_src (src.2 - 1) src;;
     c_when (nz src.2) (m68k_incpc (offs + 2);; c_leave)).

Definition op_Scc : C unit :=
  s ← genamode i.(smode) srcreg isz GENA_GETV_FETCH_ALIGN;
  t ← c_get (cctrue i.(cc));
  store_src (if t : bool then 0xff else 0) s.

Definition op_TRAPcc : C unit :=
  oldpc ← c_get pc;
  match i.(smode) with am_unknown | am_illg => mret tt | _ => src_op;; mret tt end;;
  sync_m68k_pc;;
  t ← c_get (cctrue i.(cc)); c_when t (Exception 7 oldpc;; c_leave).

(** ** Multiplication and division *)

Definition op_DIVU : C unit :=
  oldpc ← c_get pc;
  src ← fetch_operand i.(smode) srcreg sz_word;
  d ← genamode i.(dmode) dstreg sz_long GENA_GETV_FETCH;
  sync_m68k_pc;;
  if src =? 0 then SET_VFLG false;; Exception 5 oldpc;; c_leave
  else
    let newv := u32 d.2 / u16 src in
    let rem := u32 d.2 mod u16 src in
    if 0xffff <? newv then SET_VFLG true;; SET_NFLG true;; SET_CFLG false
    else
      flag_logical sz_word newv;;
      genastore ((newv .& 0xffff) .| u32 (rem ≪ 16)) i.(dmode) dstreg sz_long d.1 XLATE_LOG.

Definition op_DIVS : C unit :=
  oldpc ← c_get pc;
  src ← fetch_operand i.(smode) srcreg sz_word;
  d ← genamode i.(dmode) dstreg sz_long GENA_GETV_FETCH;
  sync_m68k_pc;;
  if src =? 0 then SET_VFLG false;; Exception 5 oldpc;; c_leave
  else if (d.2 =? - 2 ^ 31) && (src =? -1) then c_stop HostTrap
  else
    let newv := Z.quot d.2 src in
    let rem := u16 (Z.rem d.2 src) in
    let hb := u32 newv .& 0xffff8000 in
    if negb (hb =? 0) && negb (hb =? 0xffff8000) then SET_VFLG true;; SET_NFLG true;; SET_CFLG false
    else
      let rem := if xorb (sx sz_word rem <? 0) (d.2 <? 0) then u16 (- rem) else rem in
      flag_logical sz_word newv;;
      genastore ((newv .& 0xffff) .| u32 (rem ≪ 16)) i.(dmode) dstreg sz_long d.1 XLATE_LOG.

Definition op_MULU : C unit :=
  src ← fetch_operand i.(smode) srcreg sz_word;
  d ← genamode i.(dmode) dstreg sz_word GENA_GETV_FETCH;
  let newv := u32 (u16 d.2 * u16 src) in
  flag_logical sz_long newv;; genastore newv i.(dmode) dstreg sz_long d.1 XLATE_LOG.
Definition op_MULS : C unit :=
  src ← fetch_operand i.(smode) srcreg sz_word;
  d ← genamode i.(dmode) dstreg sz_word GENA_GETV_FETCH;
  let newv := u32 (d.2 * src) in
  flag_logical sz_long newv;; genastore newv i.(dmode) dstreg sz_long d.1 XLATE_LOG.

Definition op_DIVL : C unit :=
  oldpc ← c_get pc;
  extra ← src_op; d ← dst_op;
  sync_m68k_pc;; m68k_divl (u32 d.2) (u16 extra) oldpc.
Definition op_MULL : C unit :=
  extra ← src_op; d ← dst_op; sync_m68k_pc;; m68k_mull (u32 d.2) (u16 extra).

(** ** Bounds, and exchanges with memory *)

Definition op_CHK : C unit :=
  oldpc ← c_get pc;
  src ← src_op; d ← dst_op;
  if d.2 <? 0 then SET_NFLG true;; Exception 6 oldpc;; c_leave
  else c_when (src <? d.2) (SET_NFLG false;; Exception 6 oldpc;; c_leave).

Definition op_CHK2 : C unit :=
  oldpc ← c_get pc;
  extra ← src_op;
  d ← genamode i.(dmode) dstreg isz GENA_GETV_FETCH_ALIGN;
  r ← c_get (λ c, aget c.(greg) ((extra ≫ 12) .& 15));
  lower ← xget XLATE_LOG isz d.1; upper ← xget XLATE_LOG isz (u32 (d.1 + bytes isz));
  let lower := sx isz lower in let upper := sx isz upper in
  let reg := if extra .& 0x8000 =? 0 then sx isz r else sx sz_long r in
  SET_ZFLG ((upper =? reg) || (lower =? reg));;
  SET_CFLG (if lower <=? upper then (reg <? lower) || (upper <? reg) else (upper <? reg) || (reg <? lower));;
  cf ← c_get cflg;
  c_when (nz (extra .& 0x800) && cf) (Exception 6 oldpc;; c_leave).

(** The lower part of a data register. *)
Definition insert_dreg (r : Z) (v : Z) : C unit :=
  d ← dreg r;
  match isz with
  | sz_byte => set_dreg r ((d .& Z.lnot 0xff) .| (v .& 0xff))
  | sz_word => set_dreg r ((d .& Z.lnot 0xffff) .| (v .& 0xffff))
  | sz_long => set_dreg r v
  end.

Definition op_CAS : C unit :=
  src ← src_op; d ← dst_op;
  let ru := (src ≫ 6) .& 7 in let rc := src .& 7 in
  v ← dreg rc;
  flag_cmp isz v d.2;;
  sync_m68k_pc;;
  z ← c_get zflg;
  if z : bool then u ← dreg ru; store_dst u d else insert_dreg rc d.2.

Definition op_CAS2 : C unit :=
  extra ← src_op;
  rn1 ← c_get (λ c, aget c.(greg) ((extra ≫ 28) .& 15));
  rn2 ← c_get (λ c, aget c.(greg) ((extra ≫ 12) .& 15));
  dst1 ← xget XLATE_LOG isz rn1; dst2 ← xget XLATE_LOG isz rn2;
  v ← dreg ((extra ≫ 16) .& 7);
  flag_cmp isz v dst1;;
  z ← c_get zflg;
  c_when z
    (v ← dreg (extra .& 7);
     flag_cmp isz v dst2;;
     z ← c_get zflg;
     c_when z
       (u ← dreg ((extra ≫ 22) .& 7); xput XLATE_LOG isz rn1 u;;
        u ← dreg ((extra ≫ 6) .& 7); xput XLATE_LOG isz rn2 u));;
  z ← c_get zflg;
  c_when (negb z) (insert_dreg ((extra ≫ 6) .& 7) dst2;; insert_dreg ((extra ≫ 22) .& 7) dst1).

Definition op_TAS : C unit :=
  s ← src_rw; flag_logical isz s.2;; store_src (s.2 .| 0x80) s.

(** ** System *)

Definition op_MOVEC2 : C unit :=
  src ← src_op;
  ok ← movec2 (src .& 0xfff) ((src ≫ 12) .& 15);
  c_when (negb ok) c_leave.
Definition op_MOVE2C : C unit :=
  src ← src_op;
  v ← c_get (λ c, aget c.(greg) ((src ≫ 12) .& 15));
  ok ← move2c (src .& 0xfff) v;
  c_when (negb ok) c_leave.

(** An opcode that mmu_op does not know ends with op_illg. *)
Definition call_mmu_op : C unit := λ c,
  let m := mmu_op (λ r, aget c.(greg) (8 + r)) opcode in
  match m c.(mem) with MStop (Illegal o) => op_illg o c | _ => lift m c end.

Definition op_MMUOP : C unit :=
  src_op;; sync_m68k_pc;;
  call_mmu_op.

Definition m68k_emulop_return : C unit := SPCFLAGS_SET SPCFLAG_BRK;; c_upd (c_quit_program 1).

(** ** All instructions *)

Definition privileged : bool :=
  match i.(plev) with 0 => false | 3 => match isz with sz_byte => false | _ => true end | _ => true end%Z.

Definition body : C unit :=
  match i.(mnemo) with
  | i_OR | i_AND | i_EOR => op_logic
  | i_ORSR | i_EORSR => op_ORSR
  | i_ANDSR => op_ANDSR
  | i_SUB => op_SUB | i_SUBA => op_SUBA | i_SUBX => op_SUBX | i_SBCD => op_SBCD
  | i_ADD => op_ADD | i_ADDA => op_ADDA | i_ADDX => op_ADDX | i_ABCD => op_ABCD
  | i_NEG => op_NEG | i_NEGX => op_NEGX | i_NBCD => op_NBCD
  | i_CLR => op_CLR | i_NOT => op_NOT | i_TST => op_TST
  | i_BTST | i_BCHG | i_BCLR | i_BSET => op_bit
  | i_CMP | i_CMPM => op_CMP
  | i_CMPA => op_CMPA
  | i_MVPRM => op_MVPRM | i_MVPMR => op_MVPMR
  | i_MOVE => op_MOVE | i_MOVEA => op_MOVEA | i_MVSR2 => op_MVSR2 | i_MV2SR => op_MV2SR
  | i_SWAP => op_SWAP | i_EXG => op_EXG | i_EXT => op_EXT
  | i_MVMEL => genmovemel i dstreg | i_MVMLE => genmovemle i dstreg
  | i_TRAP => op_TRAP
  | i_MVR2USP => src ← src_op; c_upd (c_usp (u32 src))
  | i_MVUSP2R => s ← genamode i.(smode) srcreg isz GENA_GETV_FETCH_ALIGN; u ← c_get usp; store_src u s
  | i_NOP => mret tt
  | i_STOP => op_STOP | i_RTE => op_RTE | i_RTD => op_RTD
  | i_LINK => op_LINK | i_UNLK => op_UNLK
  | i_RTS => op_RTS | i_TRAPV => op_TRAPV | i_RTR => op_RTR
  | i_JSR => op_JSR | i_JMP => op_JMP | i_BSR => op_BSR | i_Bcc => op_Bcc
  | i_LEA => op_LEA | i_PEA => op_PEA | i_DBcc => op_DBcc | i_Scc => op_Scc
  | i_DIVU => op_DIVU | i_DIVS => op_DIVS | i_MULU => op_MULU | i_MULS => op_MULS
  | i_ASR => op_shift ASR | i_ASL => op_shift ASL | i_LSR => op_shift LSR | i_LSL => op_shift LSL
  | i_ROL => op_shift ROL | i_ROR => op_shift ROR | i_ROXL => op_shift ROXL | i_ROXR => op_shift ROXR
  | i_ASRW => op_shift_w ASRW | i_ASLW => op_shift_w ASLW | i_LSRW => op_shift_w LSRW | i_LSLW => op_shift_w LSLW
  | i_ROLW => op_shift_w ROLW | i_RORW => op_shift_w RORW | i_ROXLW => op_shift_w ROXLW | i_ROXRW => op_shift_w ROXRW
  | i_CHK => op_CHK | i_CHK2 => op_CHK2
  | i_MOVEC2 => op_MOVEC2 | i_MOVE2C => op_MOVE2C
  | i_CAS => op_CAS | i_CAS2 => op_CAS2 | i_DIVL => op_DIVL | i_MULL => op_MULL
  | i_BFTST | i_BFEXTU | i_BFCHG | i_BFEXTS | i_BFCLR | i_BFFFO | i_BFSET | i_BFINS => bit_field i srcreg dstreg
  | i_PACK => op_PACK | i_UNPK => op_UNPK | i_TAS => op_TAS
  | i_BKPT | i_CALLM | i_RTM => sync_m68k_pc;; op_illg opcode
  | i_TRAPcc => op_TRAPcc | i_MOVES => op_MOVES
  | i_CINVL | i_CINVP | i_CINVA | i_CPUSHL | i_CPUSHP | i_CPUSHA => mret tt
  | i_MOVE16 => op_MOVE16 | i_MMUOP => op_MMUOP
  | i_EMULOP_RETURN => m68k_emulop_return;; c_upd (c_pc_offset 0)
  | i_RESET | i_FPP | i_FDBcc | i_FScc | i_FTRAPcc | i_FBcc | i_FSAVE | i_FRESTORE
  | i_EMULOP | i_NATFEAT_ID | i_NATFEAT_CALL => c_stop (NotModelled opcode)
  | i_ILLG => c_stop GeneratorAborts
  end.

Definition gen_opcode : C unit :=
  c_upd (c_pc_offset 2);;
  s ← c_get supervised;
  c_when (privileged && negb s) (Exception 8 0;; c_leave);;
  body;;
  sync_m68k_pc.

(** The handler as a function: a jump to its end is its end. *)
Definition handler : C unit := λ c, match gen_opcode c with CLeave c => COk tt c | r => r end.

End handlers.

(** ** Register numbers *)

Definition smsk (stype : Z) : Z :=
  match stype with 1 => 255 | 2 => 15 | 5 => 63 | 6 => 255 | 7 => 3 | _ => 7 end%Z.

Definition srcreg_of (i : instr) (opcode : Z) : Z :=
  match i.(spos) with
  | None => if 128 <=? i.(sreg_f) then u32 (sx sz_byte i.(sreg_f)) else i.(sreg_f)
  | Some pos =>
    let source := (opcode ≫ pos) .& smsk i.(stype) in
    if i.(stype) =? 3 then imm8_table source
    else if i.(stype) =? 1 then u32 (sx sz_byte source)
    else source
  end.

Definition dstreg_of (i : instr) (opcode : Z) : Z :=
  match i.(dpos) with
  | None => if 128 <=? i.(dreg_f) then u32 (sx sz_byte i.(dreg_f)) else i.(dreg_f)
  | Some pos => (opcode ≫ pos) .& 7
  end.

(** ** The instruction loop *)

Section loop.
Context `{ram_config} `{host}.
(** The opcode table; an opcode without an entry is illegal. *)
Context (table68k : Z → option instr).

(** A round of m68k_do_execute up to the test of the special conditions. *)
Definition execute_one : C unit :=
  p ← c_get pc;
  c_upd (c_fault_pc p);;
  opcode ← lift (get_iword p 0);
  match table68k opcode with
  | Some i => handler i opcode (srcreg_of i opcode) (dstreg_of i opcode)
  | None => op_illg opcode
  end;;
  p ← c_get pc;
  c_upd (c_fault_pc p).

(** The same with the CATCH of m68k_execute: an access error starts its exception. *)
Definition m68k_round : C unit := c_try execute_one (Exception 2 0).

(** What the trace bits ask for before an instruction. *)
Definition changes_flow (opcode : Z) (c : cpu) : bool :=
  (opcode =? 0x4e72) || (opcode =? 0x4e74) || (opcode =? 0x4e75) || (opcode =? 0x4e77) || (opcode =? 0x4e76)
  || (opcode .& 0xffc0 =? 0x4e80) || (opcode .& 0xffc0 =? 0x4ec0) || (opcode .& 0xff00 =? 0x6100)
  || ((opcode .& 0xf000 =? 0x6000) && cctrue ((opcode ≫ 8) .& 0xf) c)
  || ((opcode .& 0xf0f0 =? 0x5050) && negb (cctrue ((opcode ≫ 8) .& 0xf) c)
      && negb (sx sz_word (aget c.(greg) (opcode .& 7)) =? 0)).

Definition trace_now : C unit :=
  p ← c_get pc;
  c_upd (c_last_trace_ad p);; SPCFLAGS_CLEAR SPCFLAG_TRACE;; SPCFLAGS_SET SPCFLAG_DOTRACE.

Definition do_trace : C unit :=
  t0 ← c_get t0; t1 ← c_get t1;
  if t0 : bool then
    p ← c_get pc; m68k_setpc p;;
    opcode ← lift (get_word p);
    f ← c_get (changes_flow opcode);
    c_when f trace_now
  else c_when t1 trace_now.

Definition m68k_reset : C unit :=
  lift (m_set (r_supervisor true));;
  c_upd (λ c, c_t0 false (c_t1 false (c_stopped false (c_master false c))));;
  SET_ZFLG false;; SET_XFLG false;; SET_CFLG false;; SET_VFLG false;; SET_NFLG false;;
  c_upd (c_spcflags 0);;
  c_upd (c_intmask 7);;
  c_upd (c_vbr 0);; lift (m_set (λ r, r_dfc 0 (r_sfc 0 r)));;
  t ← c_get (λ c, c.(mem).(regs).(tc)); lift (mmu_set_tc (t .& Z.lnot 0x8000));;
  a ← lift (phys_get_long 0); set_areg 7 a;;
  p ← lift (phys_get_long 4); m68k_setpc p;;
  lift mmu_reset;;
  lift (mmu_set_super true);;
  c_upd (λ c, c_caar 0 (c_cacr 0 c)).

End loop.

(** ** The registers passed to the native functions *)

(** struct M68kRegisters; [r_g] holds d[0] to d[7] and a[0] to a[7]. *)
Record M68kRegisters := mk_M68k { r_g : gmap Z Z; r_pc : Z; r_sr : Z; r_isp : Z; r_usp : Z; r_msp : Z }.

Definition copy_regs (from to : gmap Z Z) : gmap Z Z :=
  foldl (λ m i, aset m i (aget from i)) to (seqZ 0 16).

Definition save_regs : C M68kRegisters :=
  g ← c_get greg; p ← c_get pc;
  MakeSR;;
  w ← c_get sr; i ← c_get isp; u ← c_get usp; m ← c_get msp;
  let a7 := aget g A7 in
  mret (if w .& 0x2000 =? 0 then mk_M68k (copy_regs g ∅) p w i a7 m
        else if nz (w .& 0x1000) then mk_M68k (copy_regs g ∅) p w i u a7
        else mk_M68k (copy_regs g ∅) p w a7 u m).

Definition restore_regs (r : M68kRegisters) : C unit :=
  c_upd (λ c, c_greg (copy_regs r.(r_g) c.(greg)) c);;
  c_upd (c_isp r.(r_isp));; c_upd (c_usp r.(r_usp));; c_upd (c_msp r.(r_msp));;
  c_upd (c_sr r.(r_sr));;
  MakeFromSR.
