(* ===== verification/Wp.v ===== *)
(** * Total correctness of the emulator's code

    [wp m Q s] says that [m] started in [s] returns, without undefined
    behaviour, in a state and with a result that satisfy [Q]. *)

From S2P Require Import Prelude DspState.

Definition wp {A} (m : M A) (Q : A → state → Prop) (s : state) : Prop :=
  match m s with Ok a s' => Q a s' | UB _ => False end.

(** ** Assignments as functions on states *)

Definition upd_core (f : dsp_core_t → dsp_core_t) (s : state) : state := s_core (f s.(core)) s.
Definition upd_reg (n v : Z) : state → state :=
  upd_core (λ c, c_registers (aset c.(registers) n v) c).
Definition upd_periph (sp i v : Z) : state → state :=
  upd_core (λ c, c_periph (aset c.(periph) (sp, i) v) c).
Definition upd_hostport (i v : Z) : state → state :=
  upd_core (λ c, c_hostport (aset c.(hostport) i v) c).
Definition upd_stack (row i v : Z) : state → state :=
  upd_core (λ c, c_stack (aset c.(stack) (row, i) v) c).

(** Nothing but the registers in [l] differs. *)
Definition frame (l : list Z) (s s' : state) : Prop :=
  (∀ n, n ∉ l → reg s' n = reg s n) ∧ upd_core (c_registers s.(core).(registers)) s' = s.

#[global] Arguments aget : simpl never.
#[global] Arguments aset : simpl never.

(** ** Rules *)

Lemma wp_ret {A} (a : A) (Q : A → state → Prop) s : Q a s → wp (mret a) Q s.
Proof. done. Qed.

Lemma wp_bind {A B} (m : M A) (f : A → M B) Q s :
  wp m (λ a s', wp (f a) Q s') s → wp (m ≫= f) Q s.
Proof. unfold wp, mbind, M_bind. by destruct (m s). Qed.

Lemma wp_fmap {A B} (g : A → B) (m : M A) Q s :
  wp m (λ a s', Q (g a) s') s → wp (g <$> m) Q s.
Proof. unfold wp, fmap, M_fmap. by destruct (m s). Qed.

Lemma wp_mono {A} (m : M A) (Q Q' : A → state → Prop) s :
  wp m Q s → (∀ a s', Q a s' → Q' a s') → wp m Q' s.
Proof. unfold wp. destruct (m s); auto. Qed.

Lemma wp_run {A} (m : M A) Q s : wp m Q s → ∃ a s', m s = Ok a s' ∧ Q a s'.
Proof. unfold wp. destruct (m s); [eauto|done]. Qed.

Lemma wp_exists (m : M unit) (Q : state → Prop) s :
  wp m (λ _ s', Q s') s → ∃ s', m s = Ok tt s' ∧ Q s'.
Proof. unfold wp. destruct (m s) as [[] s'|]; [eauto|done]. Qed.

Lemma wp_eq {A} (m : M A) a s t : wp m (λ a' s', a' = a ∧ s' = t) s → m s = Ok a t.
Proof. unfold wp. destruct (m s); [|done]. by intros [-> ->]. Qed.

Lemma wp_of_run {A} (m : M A) (Q : A → state → Prop) a s s' : m s = Ok a s' → Q a s' → wp m Q s.
Proof. unfold wp. by intros ->. Qed.

Lemma wp_gets {A} (f : state → A) (Q : A → state → Prop) s : Q (f s) s → wp (gets f) Q s.
Proof. done. Qed.

Lemma wp_modify f (Q : unit → state → Prop) s : Q tt (f s) → wp (modify f) Q s.
Proof. done. Qed.

Lemma wp_set_core f (Q : unit → state → Prop) s : Q tt (upd_core f s) → wp (set_core f) Q s.
Proof. done. Qed.

Lemma wp_check i n (Q : unit → state → Prop) s : 0 <= i < n → Q tt s → wp (check i n) Q s.
Proof. intros Hi HQ. unfold wp, check. by rewrite in_array_true. Qed.

Lemma wp_check_stack i (Q : unit → state → Prop) s : 0 <= i < 15 → Q tt s → wp (check_stack i) Q s.
Proof. intros Hi HQ. unfold wp, check_stack. by rewrite in_array_true. Qed.

Lemma wp_int_bit n (Q : Z → state → Prop) s : n < 31 → Q (1 ≪ n) s → wp (int_bit n) Q s.
Proof. intros Hn HQ. unfold wp, int_bit. by rewrite (proj2 (Z.ltb_lt n 31) Hn). Qed.

Lemma wp_table_get {A} (l : list A) i x (Q : A → state → Prop) s :
  0 <= i → l !! Z.to_nat i = Some x → Q x s → wp (table_get l i) Q s.
Proof. intros Hi Hx HQ. unfold wp, table_get. by rewrite Hx, (proj2 (Z.leb_le 0 i) Hi). Qed.

Lemma wp_call_table {A} (l : list (M A)) i m Q s :
  0 <= i → l !! Z.to_nat i = Some m → wp m Q s → wp (call_table l i) Q s.
Proof. intros Hi Hm HQ. unfold wp, call_table. by rewrite Hm, (proj2 (Z.leb_le 0 i) Hi). Qed.

(** Array accesses. *)
Ltac wp_prim := intros; repeat (apply wp_bind, wp_check; [lia|]); assumption.

Lemma wp_get_reg n (Q : Z → state → Prop) s : 0 <= n < 64 → Q (reg s n) s → wp (get_reg n) Q s.
Proof. wp_prim. Qed.
Lemma wp_set_reg n v (Q : unit → state → Prop) s :
  0 <= n < 64 → Q tt (upd_reg n v s) → wp (set_reg n v) Q s.
Proof. wp_prim. Qed.
Lemma wp_get_periph sp i (Q : Z → state → Prop) s :
  0 <= sp < 2 → 0 <= i < 64 → Q (aget s.(core).(periph) (sp, i)) s → wp (get_periph sp i) Q s.
Proof. wp_prim. Qed.
Lemma wp_set_periph sp i v (Q : unit → state → Prop) s :
  0 <= sp < 2 → 0 <= i < 64 → Q tt (upd_periph sp i v s) → wp (set_periph sp i v) Q s.
Proof. wp_prim. Qed.
Lemma wp_get_hostport i (Q : Z → state → Prop) s :
  0 <= i < 8 → Q (aget s.(core).(hostport) i) s → wp (get_hostport i) Q s.
Proof. wp_prim. Qed.
Lemma wp_set_hostport i v (Q : unit → state → Prop) s :
  0 <= i < 8 → Q tt (upd_hostport i (u8 v) s) → wp (set_hostport i v) Q s.
Proof. wp_prim. Qed.
Lemma wp_get_ramint sp i (Q : Z → state → Prop) s :
  0 <= sp < 3 → 0 <= i < 512 → Q (aget s.(core).(ramint) (sp, i)) s → wp (get_ramint sp i) Q s.
Proof. wp_prim. Qed.
Lemma wp_set_ramint sp i v (Q : unit → state → Prop) s :
  0 <= sp < 3 → 0 <= i < 512 →
  Q tt (upd_core (λ c, c_ramint (aset c.(ramint) (sp, i) v) c) s) → wp (set_ramint sp i v) Q s.
Proof. wp_prim. Qed.
Lemma wp_get_ram sp i (Q : Z → state → Prop) s :
  0 <= sp < 3 → 0 <= i < 32768 → Q (aget s.(core).(ram) (sp, i)) s → wp (get_ram sp i) Q s.
Proof. wp_prim. Qed.
Lemma wp_set_ram sp i v (Q : unit → state → Prop) s :
  0 <= sp < 3 → 0 <= i < 32768 →
  Q tt (upd_core (λ c, c_ram (aset c.(ram) (sp, i) v) c) s) → wp (set_ram sp i v) Q s.
Proof. wp_prim. Qed.
Lemma wp_get_rom sp i (Q : Z → state → Prop) s :
  0 <= sp < 2 → 0 <= i < 512 → Q (aget s.(core).(rom) (sp, i)) s → wp (get_rom sp i) Q s.
Proof. wp_prim. Qed.

Lemma wp_get_stack row i (Q : Z → state → Prop) s :
  0 <= row < 2 → 0 <= i < 15 → Q (aget s.(core).(stack) (row, i)) s → wp (get_stack row i) Q s.
Proof. intros. apply wp_bind, wp_check; [lia|]. by apply wp_bind, wp_check_stack. Qed.
Lemma wp_set_stack row i v (Q : unit → state → Prop) s :
  0 <= row < 2 → 0 <= i < 15 → Q tt (upd_stack row i (u16 v) s) → wp (set_stack row i v) Q s.
Proof. intros. apply wp_bind, wp_check; [lia|]. by apply wp_bind, wp_check_stack. Qed.

Lemma wp_reg_and n v (Q : unit → state → Prop) s :
  0 <= n < 64 → Q tt (upd_reg n (reg s n .& v) s) → wp (reg_and n v) Q s.
Proof. intros. apply wp_bind, wp_get_reg; [done|]. by apply wp_set_reg. Qed.
Lemma wp_reg_or n v (Q : unit → state → Prop) s :
  0 <= n < 64 → Q tt (upd_reg n (reg s n .| v) s) → wp (reg_or n v) Q s.
Proof. intros. apply wp_bind, wp_get_reg; [done|]. by apply wp_set_reg. Qed.

Lemma bind_ok {A B} (m : M A) (f : A → M B) a s s' : m s = Ok a s' → (m ≫= f) s = f a s'.
Proof. unfold mbind, M_bind. by intros ->. Qed.

Lemma set_reg_ok n v s : 0 <= n < 64 → set_reg n v s = Ok tt (upd_reg n v s).
Proof. intros. by apply wp_eq, wp_set_reg. Qed.

(** ** The registers after assignments *)

Lemma reg_upd_eq n v s : reg (upd_reg n v s) n = v.
Proof. apply aget_aset_eq. Qed.
Lemma reg_upd_ne n m v s : n ≠ m → reg (upd_reg n v s) m = reg s m.
Proof. apply aget_aset_ne. Qed.

Lemma reg_upd_stack row i v s n : reg (upd_stack row i v s) n = reg s n.
Proof. done. Qed.

Lemma aset_aset `{Countable K} (a : gmap K Z) k v w : aset (aset a k v) k w = aset a k w.
Proof. apply insert_insert_eq. Qed.

Lemma upd_reg_twice n v w s : upd_reg n w (upd_reg n v s) = upd_reg n w s.
Proof. unfold upd_reg, upd_core. cbn. by rewrite aset_aset. Qed.

(** One step over the next operation. *)
Ltac wp_step :=
  cbv beta zeta match;
  lazymatch goal with
  | |- wp (mbind _ _) _ _ => apply wp_bind
  | |- wp (fmap _ _) _ _ => apply wp_fmap
  | |- wp (mret _) _ _ => apply wp_ret
  | |- wp (get_reg _) _ _ => apply wp_get_reg; [lia|]
  | |- wp (set_reg _ _) _ _ => apply wp_set_reg; [lia|]
  | |- wp (reg_and _ _) _ _ => apply wp_reg_and; [lia|]
  | |- wp (reg_or _ _) _ _ => apply wp_reg_or; [lia|]
  | |- wp (get_periph _ _) _ _ => apply wp_get_periph; [lia|lia|]
  | |- wp (set_periph _ _ _) _ _ => apply wp_set_periph; [lia|lia|]
  | |- wp (get_hostport _) _ _ => apply wp_get_hostport; [lia|]
  | |- wp (set_hostport _ _) _ _ => apply wp_set_hostport; [lia|]
  | |- wp (get_ramint _ _) _ _ => apply wp_get_ramint; [lia|lia|]
  | |- wp (set_ramint _ _ _) _ _ => apply wp_set_ramint; [lia|lia|]
  | |- wp (get_ram _ _) _ _ => apply wp_get_ram; [lia|lia|]
  | |- wp (set_ram _ _ _) _ _ => apply wp_set_ram; [lia|lia|]
  | |- wp (get_rom _ _) _ _ => apply wp_get_rom; [lia|lia|]
  | |- wp (get_stack _ _) _ _ => apply wp_get_stack; [lia|lia|]
  | |- wp (set_stack _ _ _) _ _ => apply wp_set_stack; [lia|lia|]
  | |- wp (gets _) _ _ => apply wp_gets
  | |- wp (modify _) _ _ => apply wp_modify
  | |- wp (set_core _) _ _ => apply wp_set_core
  | |- wp get_pc _ _ => apply wp_gets
  | |- wp get_inst _ _ => apply wp_gets
  | |- wp get_inst_len _ _ => apply wp_gets
  | |- wp (set_pc _) _ _ => apply wp_set_core
  | |- wp (set_inst_len _) _ _ => apply wp_modify
  | |- wp (set_loop_rep _) _ _ => apply wp_set_core
  | |- wp (set_interrupt_state _) _ _ => apply wp_set_core
  | |- wp (set_interrupt_instr_fetch _) _ _ => apply wp_set_core
  | |- wp (set_interrupt_save_pc _) _ _ => apply wp_set_core
  end.
Ltac wp_steps := repeat wp_step.

(** A synchronisation call only adds to the trace. *)
Lemma s_events_id s : s_events s.(events) s = s.
Proof. by destruct s. Qed.

Lemma wp_sync e (Q : unit → state → Prop) s :
  (∀ t, Q tt (s_events t s)) → wp (in_thread_mode (emit e)) Q s.
Proof.
  intros HQ. unfold in_thread_mode. do 2 wp_step. unfold when. destruct (nz _).
  - apply wp_modify, HQ.
  - apply wp_ret. rewrite <- s_events_id. apply HQ.
Qed.

(** The value of a register in a state reached by assignments. *)
Ltac reg_simpl :=
  repeat first [ rewrite reg_upd_eq | rewrite reg_upd_stack | rewrite reg_upd_ne by (lia || congruence) ].

(** ** Frames *)

Lemma frame_refl l s : frame l s s.
Proof. split; [done|]. by destruct s as [[]]. Qed.

Lemma frame_upd l n v s s' : n ∈ l → frame l s s' → frame l s (upd_reg n v s').
Proof.
  intros Hn [Hr Hs]. split; [|exact Hs]. intros m Hm. rewrite reg_upd_ne by set_solver. by apply Hr.
Qed.

Ltac frame_tac := repeat (apply frame_upd; [set_solver|]); apply frame_refl.

Lemma frame_mono l l' s s' : l ⊆ l' → frame l s s' → frame l' s s'.
Proof. intros Hl [R E]. split; [|exact E]. intros n Hn. apply R. set_solver. Qed.

Lemma frame_trans l s1 s2 s3 : frame l s1 s2 → frame l s2 s3 → frame l s1 s3.
Proof.
  intros [R1 E1] [R2 E2]. split; [intros n Hn; by rewrite R2, R1|].
  rewrite <- E1 at 2. rewrite <- E2. done.
Qed.

(** A loop whose body is described by a relation between states. *)
Lemma for_loop_walk (body : M unit) (I : nat → state → Prop) :
  (∀ i s, I i s → ∃ s', body s = Ok tt s' ∧ I (S i) s') →
  ∀ n i j s, I i s → ∃ s', for_loop n j (λ _ _, body) tt s = Ok tt s' ∧ I (n + i)%nat s'.
Proof.
  intros Hb n. induction n as [|n IH]; intros i j s Hi; cbn [for_loop]; [by exists s|].
  destruct (Hb i s Hi) as (s1 & E1 & H1). destruct (IH (S i) (j + 1) s1 H1) as (s2 & E2 & H2).
  exists s2. unfold mbind, M_bind. rewrite E1. split; [done|]. by rewrite Nat.add_succ_comm.
Qed.
