(* ===== verification/Typing.v ===== *)
(** * The value ranges of the state, and a logic for code that keeps them

    [typed] says that every variable and every array cell is in the range of its
    C type (or in the smaller range the code keeps it in), and that the bootstrap of a
    DSP that does not run has a place for the next word.  [spec p m Q] says that
    [m], started in a typed state whose parallel move buffers are [p], either ends
    in a typed state, with the thread and the pointer of dsp_cpu.c as they were, and gives a
    result that satisfies [Q], or fails with a [program_error]: it accesses an entry of the DSP
    stack outside its rows or computes [1<<31].  The other failures of [ub] are excluded. *)

From S2P Require Import Prelude DspState.

Record typed (s : state) : Prop := {
  ty_pc : in_u 16 s.(core).(pc);
  ty_registers : acells (in_u 32) s.(core).(registers);
  ty_stack : acells (in_u 16) s.(core).(stack);
  ty_ram : acells (in_u 24) s.(core).(ram);
  ty_rom : acells (in_u 32) s.(core).(rom);
  ty_ramint : acells (in_u 24) s.(core).(ramint);
  ty_periph : acells (in_u 24) s.(core).(periph);
  ty_hostport : acells (in_u 8) s.(core).(hostport);
  ty_loop_rep : in_u 32 s.(core).(loop_rep);
  ty_swi_inter : in_u 32 s.(core).(swi_inter);
  ty_bootstrap_pos : in_u 16 s.(core).(bootstrap_pos);
  ty_bootstrap : nz s.(core).(running) = false → s.(core).(bootstrap_pos) < 512;
  ty_interrupt_state : in_u 16 s.(core).(interrupt_state);
  ty_interrupt_instr_fetch : in_u 32 s.(core).(interrupt_instr_fetch);
  ty_interrupt_save_pc : in_u 32 s.(core).(interrupt_save_pc);
  ty_cur_inst_len : in_u 32 s.(cur_inst_len);
  ty_cur_inst : in_u 24 s.(cur_inst);
  ty_pc_on_rep : in_u 32 s.(pc_on_rep);
  ty_pm_src : acells (in_u 32) s.(parmove).(tmp_parmove_src)
}.

(** What a program of the DSP can make go wrong: an overrun of the DSP stack, and the bit
    number 31 in an instruction that computes [1<<31]. *)
Definition program_error (e : ub) : Prop :=
  match e with StackBounds _ | ShiftOverflow => True | _ => False end.

(** What the running code does not touch: the pointer of dsp_cpu.c, the thread and its mode. *)
Definition kept (s s' : state) : Prop :=
  s'.(cpu_core) = s.(cpu_core) ∧ s'.(core).(thread) = s.(core).(thread) ∧ s'.(core).(use_thread) = s.(core).(use_thread).

#[export] Instance kept_preorder : PreOrder kept.
Proof. split; [by intros s|]. intros a b c (? & ? & ?) (? & ? & ?). split_and!; congruence. Qed.

Definition spec {A} (p : parmove_t) (m : M A) (Q : A → parmove_t → Prop) : Prop :=
  ∀ s, typed s → s.(parmove) = p →
    match m s with
    | Ok a s' => typed s' ∧ Q a s'.(parmove) ∧ kept s s'
    | UB e => program_error e
    end.

(** Code that does not touch the parallel move buffers. *)
Definition safe {A} (m : M A) (P : A → Prop) : Prop :=
  ∀ p, spec p m (λ a p', p' = p ∧ P a).

(** ** Structural rules *)

Section rules.
Context {A B : Type}.
Implicit Types (p : parmove_t) (m : M A) (f : A → M B).

Lemma spec_ret p (a : A) Q : Q a p → spec p (mret a) Q.
Proof. intros HQ s T <-. by split_and!. Qed.

Lemma spec_bind p m f R Q :
  spec p m R → (∀ a p', R a p' → spec p' (f a) Q) → spec p (m ≫= f) Q.
Proof.
  intros Hm Hf s T E. specialize (Hm s T E). unfold mbind, M_bind.
  destruct (m s) as [a s'|e]; [|done]. destruct Hm as (T' & HR & HK).
  specialize (Hf a s'.(parmove) HR s' T' eq_refl). destruct (f a s') as [b s2|e]; [|done].
  destruct Hf as (? & ? & ?). split_and!; try done. by etrans.
Qed.

Lemma spec_bind_safe p m f P Q :
  safe m P → (∀ a, P a → spec p (f a) Q) → spec p (m ≫= f) Q.
Proof. intros Hm Hf. eapply spec_bind; [apply Hm|]. intros a p' [-> HP]. auto. Qed.

Lemma spec_fmap p m (g : A → B) (Q : B → parmove_t → Prop) :
  spec p m (λ a p', Q (g a) p') → spec p (g <$> m) Q.
Proof.
  intros Hm s T E. specialize (Hm s T E). unfold fmap, M_fmap.
  by destruct (m s) as [a s'|e].
Qed.

Lemma spec_assoc {C} p (m : M C) (g : C → M A) f Q :
  spec p (m ≫= (λ x, g x ≫= f)) Q → spec p ((m ≫= g) ≫= f) Q.
Proof.
  intros Hm s T E. specialize (Hm s T E). unfold mbind, M_bind in *.
  by destruct (m s) as [a s'|e].
Qed.

Lemma spec_ret_bind p (a : A) f Q : spec p (f a) Q → spec p (mret a ≫= f) Q.
Proof. done. Qed.

Lemma spec_fmap_bind {C} p (m : M C) (g : C → A) f Q :
  spec p (m ≫= (λ x, f (g x))) Q → spec p ((g <$> m) ≫= f) Q.
Proof.
  intros Hm s T E. specialize (Hm s T E). unfold mbind, M_bind, fmap, M_fmap in *.
  by destruct (m s).
Qed.

Lemma spec_weaken p m (Q Q' : A → parmove_t → Prop) :
  spec p m Q → (∀ a p', Q a p' → Q' a p') → spec p m Q'.
Proof.
  intros Hm HQ s T E. specialize (Hm s T E). destruct (m s) as [a s'|e]; [|done].
  destruct Hm as (? & ? & ?). auto.
Qed.

Lemma spec_safe p m P (Q : A → parmove_t → Prop) :
  safe m P → (∀ a, P a → Q a p) → spec p m Q.
Proof. intros Hm HQ. eapply spec_weaken; [apply Hm|]. intros a p' [-> ?]. auto. Qed.

Lemma safe_weaken m (P P' : A → Prop) : safe m P → (∀ a, P a → P' a) → safe m P'.
Proof. intros Hm HP p. eapply spec_safe; eauto. Qed.

Lemma spec_table (l : list (M A)) i p Q :
  0 <= i < Z.of_nat (length l) → Forall (λ m, spec p m Q) l → spec p (call_table l i) Q.
Proof.
  intros Hi Hl. unfold call_table.
  destruct (lookup_lt_is_Some_2 l (Z.to_nat i)) as [m Hm]; [lia|]. rewrite Hm.
  rewrite (proj2 (Z.leb_le 0 i)) by lia. exact (Forall_lookup_1 _ _ _ _ Hl Hm).
Qed.

Lemma safe_table_get (l : list A) i (P : A → Prop) :
  0 <= i < Z.of_nat (length l) → Forall P l → safe (table_get l i) P.
Proof.
  intros Hi Hl p. unfold table_get.
  destruct (lookup_lt_is_Some_2 l (Z.to_nat i)) as [x Hx]; [lia|]. rewrite Hx.
  rewrite (proj2 (Z.leb_le 0 i)) by lia. apply spec_ret. split; [done|].
  exact (Forall_lookup_1 _ _ _ _ Hl Hx).
Qed.
End rules.

Lemma spec_for {A} (n : nat) (body : Z → A → M A) (I : nat → A → parmove_t → Prop) :
  ∀ p i a, I n a p →
  (∀ k j a p, I (S k) a p → i <= j → j + Z.of_nat k = i + Z.of_nat n - 1 → spec p (body j a) (I k)) →
  spec p (for_loop n i body a) (I O).
Proof.
  induction n as [|n IH]; intros p i a HI Hb; cbn [for_loop].
  - by apply spec_ret.
  - eapply spec_bind; [apply Hb; [done|lia|lia]|]. intros a' p' HI'.
    apply IH; [done|]. intros k j a0 p0 Hk Hi Hj. apply Hb; [done|lia|lia].
Qed.

(** ** Primitive operations *)

Lemma safe_gets {A} (f : state → A) (P : A → Prop) :
  (∀ s, typed s → P (f s)) → safe (gets f) P.
Proof. intros HP p s T E. cbn. split_and!; auto; done. Qed.

Lemma safe_set_core f :
  (∀ s, typed s → typed (s_core (f s.(core)) s)) → (∀ c, (f c).(thread) = c.(thread) ∧ (f c).(use_thread) = c.(use_thread)) →
  safe (set_core f) (λ _, True).
Proof. intros HP HK p s T E. cbn. destruct (HK s.(core)). split_and!; auto; done. Qed.

Lemma safe_check i n : 0 <= i < n → safe (check i n) (λ _, True).
Proof.
  intros Hi p s T E. unfold check, in_array.
  rewrite (proj2 (Z.leb_le 0 i)), (proj2 (Z.ltb_lt i n)) by lia. cbn. by split_and!.
Qed.

(** Past the bounds checks, a primitive reads or writes one field. *)
Ltac safe_prim :=
  intros; try intros ?;
  repeat (eapply spec_bind_safe; [eapply safe_check; lia|intros _ _]);
  first
    [ apply safe_gets; intros ? []; unfold reg;
      first [ assumption
            | match goal with H : acells _ ?a |- _ (aget ?a _) => apply H end ]
    | apply safe_set_core; [intros ? []; constructor; cbn;
      first [ assumption | apply acells_aset; [assumption | bounds] | bounds ] | done] ].

Lemma safe_get_reg n : 0 <= n < 64 → safe (get_reg n) (in_u 32).
Proof. safe_prim. Qed.
Lemma safe_set_reg n v : 0 <= n < 64 → in_u 32 v → safe (set_reg n v) (λ _, True).
Proof. safe_prim. Qed.
Lemma safe_get_periph sp i : 0 <= sp < 2 → 0 <= i < 64 → safe (get_periph sp i) (in_u 24).
Proof. safe_prim. Qed.
Lemma safe_set_periph sp i v :
  0 <= sp < 2 → 0 <= i < 64 → in_u 24 v → safe (set_periph sp i v) (λ _, True).
Proof. safe_prim. Qed.
Lemma safe_get_hostport i : 0 <= i < 8 → safe (get_hostport i) (in_u 8).
Proof. safe_prim. Qed.
Lemma safe_set_hostport i v : 0 <= i < 8 → safe (set_hostport i v) (λ _, True).
Proof. safe_prim. Qed.
Lemma safe_get_ramint sp i : 0 <= sp < 3 → 0 <= i < 512 → safe (get_ramint sp i) (in_u 24).
Proof. safe_prim. Qed.
Lemma safe_set_ramint sp i v :
  0 <= sp < 3 → 0 <= i < 512 → in_u 24 v → safe (set_ramint sp i v) (λ _, True).
Proof. safe_prim. Qed.
Lemma safe_get_ram sp i : 0 <= sp < 3 → 0 <= i < 32768 → safe (get_ram sp i) (in_u 24).
Proof. safe_prim. Qed.
Lemma safe_set_ram sp i v :
  0 <= sp < 3 → 0 <= i < 32768 → in_u 24 v → safe (set_ram sp i v) (λ _, True).
Proof. safe_prim. Qed.
Lemma safe_get_rom sp i : 0 <= sp < 2 → 0 <= i < 512 → safe (get_rom sp i) (in_u 32).
Proof. safe_prim. Qed.
Lemma safe_set_rom sp i v :
  0 <= sp < 2 → 0 <= i < 512 → in_u 32 v → safe (set_rom sp i v) (λ _, True).
Proof. safe_prim. Qed.
Lemma safe_get_pc : safe get_pc (in_u 16).
Proof. safe_prim. Qed.
Lemma safe_set_pc v : safe (set_pc v) (λ _, True).
Proof. safe_prim. Qed.
Lemma safe_get_inst : safe get_inst (in_u 24).
Proof. safe_prim. Qed.
Lemma safe_get_inst_len : safe get_inst_len (in_u 32).
Proof. safe_prim. Qed.
Lemma safe_set_loop_rep v : in_u 32 v → safe (set_loop_rep v) (λ _, True).
Proof. safe_prim. Qed.
Lemma safe_set_interrupt_state v : in_u 16 v → safe (set_interrupt_state v) (λ _, True).
Proof. safe_prim. Qed.
Lemma safe_set_interrupt_instr_fetch v :
  in_u 32 v → safe (set_interrupt_instr_fetch v) (λ _, True).
Proof. safe_prim. Qed.
Lemma safe_set_interrupt_save_pc v : in_u 32 v → safe (set_interrupt_save_pc v) (λ _, True).
Proof. safe_prim. Qed.

Lemma safe_modify f :
  (∀ s, typed s → typed (f s) ∧ (f s).(parmove) = s.(parmove)) → (∀ s, kept s (f s)) → safe (modify f) (λ _, True).
Proof. intros Hf HK p s T E. destruct (Hf s T). cbn. split_and!; [done|congruence|done..|apply HK]. Qed.

Ltac safe_mod :=
  intros; apply safe_modify; [intros ? []; split; [constructor; cbn; first [assumption | bounds] | done] | done].

Lemma safe_set_inst_len v : in_u 32 v → safe (set_inst_len v) (λ _, True).
Proof. safe_mod. Qed.
Lemma safe_set_cur_inst v : in_u 24 v → safe (modify (s_cur_inst v)) (λ _, True).
Proof. safe_mod. Qed.
Lemma safe_set_pc_on_rep v : in_u 32 v → safe (modify (s_pc_on_rep v)) (λ _, True).
Proof. safe_mod. Qed.
Lemma safe_emit e : safe (emit e) (λ _, True).
Proof. safe_mod. Qed.
Lemma safe_set_swi_inter v : in_u 32 v → safe (set_core (c_swi_inter v)) (λ _, True).
Proof. safe_prim. Qed.
Lemma safe_get_loop_rep : safe (gets (λ s, s.(core).(loop_rep))) (in_u 32).
Proof. safe_prim. Qed.
Lemma safe_get_swi_inter : safe (gets (λ s, s.(core).(swi_inter))) (in_u 32).
Proof. safe_prim. Qed.
Lemma safe_get_interrupt_state : safe (gets (λ s, s.(core).(interrupt_state))) (in_u 16).
Proof. safe_prim. Qed.
Lemma safe_get_instr_fetch : safe (gets (λ s, s.(core).(interrupt_instr_fetch))) (in_u 32).
Proof. safe_prim. Qed.
Lemma safe_get_save_pc : safe (gets (λ s, s.(core).(interrupt_save_pc))) (in_u 32).
Proof. safe_prim. Qed.
Lemma safe_get_pc_on_rep : safe (gets pc_on_rep) (in_u 32).
Proof. safe_prim. Qed.

Lemma safe_when b m : safe m (λ _, True) → safe (when b m) (λ _, True).
Proof. intros Hm. destruct b; [done|]. intros p. by apply spec_ret. Qed.

Lemma safe_in_thread_mode m : safe m (λ _, True) → safe (in_thread_mode m) (λ _, True).
Proof.
  intros Hm p. eapply spec_bind_safe; [by apply (safe_gets _ (λ _, True))|].
  intros t _. by apply safe_when.
Qed.

Lemma safe_lockMutex : safe lockMutex (λ _, True).
Proof. apply safe_in_thread_mode, safe_emit. Qed.
Lemma safe_unlockMutex : safe unlockMutex (λ _, True).
Proof. apply safe_in_thread_mode, safe_emit. Qed.
Lemma safe_pauseThread : safe pauseThread (λ _, True).
Proof. apply safe_in_thread_mode, safe_emit. Qed.
Lemma safe_resumeThread : safe resumeThread (λ _, True).
Proof. apply safe_in_thread_mode, safe_emit. Qed.

(** [1<<n] needs a number below 31. *)
Lemma safe_int_bit n : 0 <= n → safe (int_bit n) (in_u 32).
Proof.
  intros Hn p s T E. unfold int_bit. destruct (Z.ltb_spec n 31); cbn; [|done]. split_and!; try done.
  apply in_u_shl; [lia| |lia]. unfold in_u. pose proof (Z.pow_le_mono_r 2 1 (32 - n)). lia.
Qed.

(** The stack is the only array whose index is not bounded by the code. *)
Lemma safe_check_stack i : safe (check_stack i) (λ _, 0 <= i < 15).
Proof.
  intros p s T E. unfold check_stack, in_array.
  destruct (Z.leb_spec 0 i), (Z.ltb_spec i 15); cbn; try done; by split_and!.
Qed.

Lemma safe_get_stack row i : 0 <= row < 2 → safe (get_stack row i) (in_u 16).
Proof.
  intros Hr p. eapply spec_bind_safe; [by apply safe_check|intros _ _].
  eapply spec_bind_safe; [apply safe_check_stack|intros _ _]. revert p. safe_prim.
Qed.

Lemma safe_set_stack row i v : 0 <= row < 2 → safe (set_stack row i v) (λ _, True).
Proof.
  intros Hr p. eapply spec_bind_safe; [by apply safe_check|intros _ _].
  eapply spec_bind_safe; [apply safe_check_stack|intros _ _]. revert p. safe_prim.
Qed.

(** ** Parallel move buffers *)

Lemma spec_set_pm p f (Q : unit → parmove_t → Prop) :
  (∀ s, typed s → s.(parmove) = p → acells (in_u 32) (f p).(tmp_parmove_src)) →
  Q tt (f p) → spec p (set_pm f) Q.
Proof.
  intros Hf HQ s T <-. cbn. split; [|by split_and!]. specialize (Hf s T eq_refl).
  destruct T; constructor; cbn; assumption.
Qed.

Ltac spec_pm_prim :=
  intros; repeat (eapply spec_bind_safe; [eapply safe_check; lia|intros _ _]);
  apply spec_set_pm; [intros s [] <-; cbn; try apply acells_aset; assumption | assumption].

Lemma spec_set_pm_src p i j v (Q : unit → parmove_t → Prop) :
  0 <= i < 2 → 0 <= j < 3 → in_u 32 v →
  Q tt (p_src (aset p.(tmp_parmove_src) (i, j) v) p) → spec p (set_pm_src i j v) Q.
Proof. spec_pm_prim. Qed.
Lemma spec_set_pm_dest p i j d (Q : unit → parmove_t → Prop) :
  0 <= i < 2 → 0 <= j < 3 →
  Q tt (p_dest (<[(i, j) := d]> p.(tmp_parmove_dest)) p) → spec p (set_pm_dest i j d) Q.
Proof. spec_pm_prim. Qed.
Lemma spec_set_pm_start p i v (Q : unit → parmove_t → Prop) :
  0 <= i < 2 → Q tt (p_start (aset p.(tmp_parmove_start) i v) p) → spec p (set_pm_start i v) Q.
Proof. spec_pm_prim. Qed.
Lemma spec_set_pm_len p i v (Q : unit → parmove_t → Prop) :
  0 <= i < 2 → Q tt (p_len (aset p.(tmp_parmove_len) i v) p) → spec p (set_pm_len i v) Q.
Proof. spec_pm_prim. Qed.
Lemma spec_set_pm_type p i v (Q : unit → parmove_t → Prop) :
  0 <= i < 2 → Q tt (p_type (aset p.(tmp_parmove_type) i v) p) → spec p (set_pm_type i v) Q.
Proof. spec_pm_prim. Qed.
Lemma spec_set_pm_space p i v (Q : unit → parmove_t → Prop) :
  0 <= i < 2 → Q tt (p_space (aset p.(tmp_parmove_space) i v) p) → spec p (set_pm_space i v) Q.
Proof. spec_pm_prim. Qed.
Lemma safe_get_pm_src i j : 0 <= i < 2 → 0 <= j < 3 → safe (get_pm_src i j) (in_u 32).
Proof. safe_prim. Qed.

(** ** Automation *)

Lemma land_mask_range x k : 0 <= k → 0 <= x .& BITMASK k < 2 ^ k.
Proof. intros. by apply in_u_land_mask. Qed.

Lemma land_1_range x : 0 <= x .& 1 < 2.
Proof. apply (land_mask_range x 1). lia. Qed.

Lemma lxor_1_range x : 0 <= x < 2 → 0 <= x .^ 1 < 2.
Proof. intros. assert (x = 0 ∨ x = 1) as [->| ->] by lia; done. Qed.

(** [idx] proves the bounds of an index from the masks in it. *)
Ltac idx :=
  repeat match goal with
         | |- context [(?x .& 1) .^ 1] =>
             pose proof (lxor_1_range _ (land_1_range x)); generalize dependent ((x .& 1) .^ 1); intros
         | |- context [?x .& 1] =>
             pose proof (land_1_range x); generalize dependent (x .& 1); intros
         | |- context [?x .& BITMASK ?k] =>
             pose proof (land_mask_range x k ltac:(lia)); generalize dependent (x .& BITMASK k); intros
         end;
  try lia.

Create HintDb dsp_safe discriminated.
#[export] Hint Constants Opaque : dsp_safe.
#[export] Hint Resolve safe_get_reg safe_set_reg safe_get_periph safe_set_periph
  safe_get_hostport safe_set_hostport safe_get_ramint safe_set_ramint safe_get_ram safe_set_ram
  safe_get_rom safe_set_rom safe_get_pc safe_set_pc safe_get_inst safe_get_inst_len
  safe_set_loop_rep safe_set_interrupt_state safe_set_interrupt_instr_fetch
  safe_set_interrupt_save_pc safe_set_inst_len safe_set_cur_inst safe_set_pc_on_rep safe_emit
  safe_set_swi_inter safe_get_loop_rep safe_get_swi_inter safe_get_interrupt_state
  safe_get_instr_fetch safe_get_save_pc safe_get_pc_on_rep safe_lockMutex safe_unlockMutex
  safe_pauseThread safe_resumeThread safe_get_stack safe_set_stack safe_get_pm_src safe_int_bit : dsp_safe.
#[export] Hint Extern 1 (0 <= _) => solve [idx] : dsp_safe.
#[export] Hint Extern 1 (_ <= _ < _) => solve [idx] : dsp_safe.
#[export] Hint Extern 1 (in_u _ _) => solve [bounds] : dsp_safe.

(** Case analysis: a variable is replaced in the context, a term is remembered. *)
Ltac split_on x :=
  lazymatch x with
  | (if ?b then _ else _) => destruct b eqn:?
  | _ => first [ is_var x; destruct x; cbn [fst snd] in * | destruct x eqn:? ]
  end.

(** One step of symbolic execution: the first operation of a sequence is
    reassociated, split on its condition, or stepped over with its lemma. *)
Ltac spec_step :=
  cbv beta zeta match;
  lazymatch goal with
  | |- safe _ _ => intros ?p
  | |- spec _ (mbind _ (mbind _ _)) _ => apply spec_assoc
  | |- spec _ (mbind _ (mret _)) _ => apply spec_ret_bind
  | |- spec _ (mbind _ (fmap _ _)) _ => apply spec_fmap_bind
  | |- spec _ (mbind _ (if ?b then _ else _)) _ => destruct b eqn:?
  | |- spec _ (mbind _ (when ?b _)) _ => unfold when at 1; destruct b eqn:?
  | |- spec _ (mbind _ (match ?x with _ => _ end)) _ => split_on x
  | |- spec _ (mbind _ _) _ =>
      eapply spec_bind_safe; [solve [eauto with dsp_safe] | intros ? ?; cbn beta in *]
  | |- spec _ (mret _) _ => apply spec_ret
  | |- spec _ (fmap _ _) _ => apply spec_fmap
  | |- spec _ (if ?b then _ else _) _ => destruct b eqn:?
  | |- spec _ (when ?b _) _ => unfold when at 1; destruct b eqn:?
  | |- spec _ (match ?x with _ => _ end) _ => split_on x
  | |- spec _ _ _ => eapply spec_safe; [solve [eauto with dsp_safe] | intros ? ?; cbn beta in *]
  end.

(** The end of a path: the buffers are unchanged and the result is in range. *)
Ltac spec_done :=
  cbn [fst snd];
  try solve [ exact I | split; [reflexivity | first [exact I | bounds | lia | solve [idx]]] ].

Ltac spec_auto := repeat spec_step; spec_done.
