(* ===== verification/Safety.v ===== *)
(** * The accesses of the DSP emulator

    One lemma per function: from a typed state it ends in a typed state with a
    result in range, or it accesses the DSP stack outside its rows, or computes [1<<31]
    for an instruction that names bit 31.  No other array access, table call, union read
    or loop of the emulator can go wrong, whatever program the DSP runs. *)

From S2P Require Import Prelude DspState HostPort Memory Arith56 Ccr Alu Agu ParMove Control Exec Typing.

(** ** Host port *)

Lemma safe_update_trdy : safe dsp_core_hostport_update_trdy (λ _, True).
Proof. unfold dsp_core_hostport_update_trdy. spec_auto. Qed.
#[export] Hint Resolve safe_update_trdy : dsp_safe.

Lemma safe_dsp2host : safe dsp_core_dsp2host (λ _, True).
Proof. unfold dsp_core_dsp2host. spec_auto. Qed.
Lemma safe_host2dsp : safe dsp_core_host2dsp (λ _, True).
Proof. unfold dsp_core_host2dsp. spec_auto. Qed.
#[export] Hint Resolve safe_dsp2host safe_host2dsp : dsp_safe.

Lemma safe_dspread : safe dsp_core_hostport_dspread (λ _, True).
Proof. unfold dsp_core_hostport_dspread. spec_auto. Qed.
Lemma safe_dspwrite : safe dsp_core_hostport_dspwrite (λ _, True).
Proof. unfold dsp_core_hostport_dspwrite. spec_auto. Qed.
Lemma safe_cpuread : safe dsp_core_hostport_cpuread (λ _, True).
Proof. unfold dsp_core_hostport_cpuread. spec_auto. Qed.
Lemma safe_cpuwrite : safe dsp_core_hostport_cpuwrite (λ _, True).
Proof. unfold dsp_core_hostport_cpuwrite. spec_auto. Qed.
#[export] Hint Resolve safe_dspread safe_dspwrite safe_cpuread safe_cpuwrite : dsp_safe.

Lemma safe_read_host addr : 0 <= addr < 8 → safe (dsp_core_read_host addr) (in_u 8).
Proof. intros. unfold dsp_core_read_host. spec_auto. Qed.

(** ** Memory and stack *)

Lemma u16_range x : 0 <= u16 x < 65536.
Proof. apply in_u_u16. Qed.

Lemma ram_index x : 0 <= x .& (DSP_RAMSIZE - 1) < 32768.
Proof. apply (land_mask_range x 15). lia. Qed.
#[export] Hint Resolve ram_index : dsp_safe.

(** A comparison in the context, as an inequality for [lia]. *)
Ltac cmp :=
  repeat match goal with
         | H : (_ <? _) = true |- _ => apply Z.ltb_lt in H
         | H : (_ <? _) = false |- _ => apply Z.ltb_ge in H
         | H : (_ <=? _) = true |- _ => apply Z.leb_le in H
         | H : (_ <=? _) = false |- _ => apply Z.leb_gt in H
         | H : (_ =? _) = true |- _ => apply Z.eqb_eq in H
         | H : (_ =? _) = false |- _ => apply Z.eqb_neq in H
         | H : (_ && _) = true |- _ => apply andb_prop in H as [? ?]
         end.
#[export] Hint Extern 2 (_ <= _ < _) => solve [cmp; lia] : dsp_safe.

Lemma safe_read_memory_p address : safe (read_memory_p address) (in_u 24).
Proof. pose proof (u16_range address). unfold read_memory_p. spec_auto. Qed.
#[export] Hint Resolve safe_read_memory_p : dsp_safe.

Lemma safe_read_memory space address : 0 <= space < 3 → safe (read_memory space address) (in_u 24).
Proof. intros. pose proof (u16_range address). unfold read_memory. spec_auto. Qed.

Lemma safe_write_periph_x address value :
  0xffc0 <= address < 65536 → in_u 24 value → safe (write_periph_x address value) (λ _, True).
Proof. intros. unfold write_periph_x. spec_auto. Qed.
#[export] Hint Resolve safe_read_memory safe_write_periph_x : dsp_safe.

Lemma safe_write_memory space address value :
  0 <= space < 3 → safe (write_memory_raw space address value) (λ _, True).
Proof. intros. pose proof (u16_range address). unfold write_memory_raw. spec_auto. Qed.
#[export] Hint Resolve safe_write_memory : dsp_safe.

Lemma safe_stack_push curpc cursr : safe (dsp_stack_push curpc cursr) (λ _, True).
Proof. unfold dsp_stack_push. spec_auto. Qed.

Definition stack_pair (r : option (Z * Z)) : Prop :=
  match r with Some (newpc, newsr) => in_u 16 newpc ∧ in_u 16 newsr | None => True end.

Lemma safe_stack_pop : safe dsp_stack_pop stack_pair.
Proof. unfold dsp_stack_pop. spec_auto. split; [reflexivity | split; assumption]. Qed.
#[export] Hint Resolve safe_stack_push safe_stack_pop : dsp_safe.

(** ** Condition codes *)

Lemma safe_reg_and n v : 0 <= n < 64 → safe (reg_and n v) (λ _, True).
Proof. intros. unfold reg_and. spec_auto. Qed.
Lemma safe_reg_or n v : 0 <= n < 64 → in_u 32 v → safe (reg_or n v) (λ _, True).
Proof. intros. unfold reg_or. spec_auto. Qed.
#[export] Hint Resolve safe_reg_and safe_reg_or : dsp_safe.

Lemma safe_ccr_extension reg0 reg1 : safe (dsp_ccr_extension reg0 reg1) (λ _, True).
Proof. unfold dsp_ccr_extension. spec_auto. Qed.
Lemma safe_ccr_unnormalized reg0 reg1 : safe (dsp_ccr_unnormalized reg0 reg1) (λ _, True).
Proof. unfold dsp_ccr_unnormalized. spec_auto. Qed.
Lemma safe_ccr_negative reg0 : safe (dsp_ccr_negative reg0) (λ _, True).
Proof. unfold dsp_ccr_negative. spec_auto. Qed.
Lemma safe_ccr_zero reg0 reg1 reg2 : safe (dsp_ccr_zero reg0 reg1 reg2) (λ _, True).
Proof. unfold dsp_ccr_zero. spec_auto. Qed.
#[export] Hint Resolve safe_ccr_extension safe_ccr_unnormalized safe_ccr_negative safe_ccr_zero : dsp_safe.

Lemma safe_ccr_update d : safe (dsp_ccr_update d) (λ _, True).
Proof. unfold dsp_ccr_update. spec_auto. Qed.
#[export] Hint Resolve safe_ccr_update : dsp_safe.

Lemma safe_calc_cc cc_code : safe (dsp_calc_cc cc_code) (λ _, True).
Proof.
  unfold dsp_calc_cc. do 2 spec_step. eapply spec_bind_safe.
  { eapply (safe_table_get _ _ (λ _, True)); [cbn; idx | by apply Forall_true]. }
  intros ? _. spec_auto.
Qed.
#[export] Hint Resolve safe_calc_cc : dsp_safe.

(** ** Address generation *)

Lemma safe_update_rn_bitreverse numreg :
  0 <= numreg < 8 → safe (dsp_update_rn_bitreverse numreg) (λ _, True).
Proof.
  intros. unfold dsp_update_rn_bitreverse. do 3 spec_step.
  eapply spec_safe; [apply safe_set_reg; [lia|by apply bitreverse_step_range]|spec_auto].
Qed.

(** The modifier register is read twice: to select the mode, and to get the modulo. *)
Lemma safe_update_rn numreg modifier :
  0 <= numreg < 8 → safe (dsp_update_rn numreg modifier) (λ _, True).
Proof.
  intros Hn p s T E. unfold dsp_update_rn. pose proof (s16_range modifier) as Hs.
  unfold mbind at 1, M_bind at 1. rewrite get_reg_run by lia.
  destruct (_ =? 0); [by apply safe_update_rn_bitreverse|].
  destruct (_ && _) eqn:Hm.
  - unfold dsp_update_rn_modulo, mbind, M_bind. rewrite !get_reg_run by lia.
    cmp. destruct (modulo_step_total (reg s (DSP_REG_M0 + numreg)) (reg s (DSP_REG_R0 + numreg))
      (s16 modifier)) as (r & -> & Hr); [by apply modulo_range|done|].
    apply safe_set_reg; [lia|by apply (in_u_mono 16)|done|done].
  - clear Hm. generalize (u16 (reg s (DSP_REG_M0 + numreg)) =? 65535). intros b.
    revert s T E. change (spec p (if b then
      r ← get_reg (DSP_REG_R0 + numreg);
      set_reg (DSP_REG_R0 + numreg) (u32 (s16 (s16 r + s16 modifier)) .& BITMASK 16)
      else mret tt) (λ _ p', p' = p ∧ True)). spec_auto.
Qed.
#[export] Hint Resolve safe_update_rn : dsp_safe.

Lemma safe_calc_ea ea_mode : safe (dsp_calc_ea ea_mode) (λ r, in_u 32 r.2).
Proof. unfold dsp_calc_ea. spec_auto. Qed.
#[export] Hint Resolve safe_calc_ea : dsp_safe.

(** ** Arithmetic *)

Definition accu32 (a : accu) : Prop := in_u 32 a.(w0) ∧ in_u 32 a.(w1) ∧ in_u 32 a.(w2).
Definition result32 (r : Z * accu) : Prop := in_u 8 r.1 ∧ accu32 r.2.

(** The ranges of a result follow from the masks in it. *)
Ltac words :=
  lazymatch goal with
  | |- result32 _ => refine (conj _ (conj _ (conj _ _)))
  | |- accu32 _ => refine (conj _ (conj _ _))
  end; cbn [w0 w1 w2 fst snd]; bounds.

Lemma lt56_range a b : in_u 1 (lt56 a b).
Proof. unfold lt56. repeat case_match; by apply in_ub_spec. Qed.

Lemma newsr56_range o c : in_u 1 o → in_u 1 c → in_u 8 (newsr56 o c).
Proof. intros. unfold newsr56. bounds. Qed.

Lemma bit_range x k : in_u 1 ((x ≫ k) .& 1).
Proof. apply (land_1_range (x ≫ k)). Qed.
Lemma b2z_range b : in_u 1 (b2z b).
Proof. by apply in_u_b2z. Qed.
#[local] Hint Resolve lt56_range b2z_range bit_range newsr56_range : dsp_bounds.

Lemma xor_bits_range a b c d :
  in_u 1 a → in_u 1 b → in_u 1 c → in_u 1 d → in_u 1 ((a .^ b) .& (c .^ d)).
Proof. intros. bounds. Qed.
#[local] Hint Resolve xor_bits_range : dsp_bounds.

Lemma sub56_range s d : result32 (dsp_sub56 s d).
Proof. unfold dsp_sub56. words. Qed.
Lemma add56_range s d : result32 (dsp_add56 s d).
Proof. unfold dsp_add56. words. Qed.
Lemma asl56_range d : result32 (dsp_asl56 d).
Proof. unfold dsp_asl56. words. Qed.
Lemma asr56_range d : result32 (dsp_asr56 d).
Proof. unfold dsp_asr56. words. Qed.
Lemma abs56_range d : accu32 d → accu32 (dsp_abs56 d).2.
Proof. intros. unfold dsp_abs56. destruct (nz _); [apply sub56_range|done]. Qed.
Lemma mul56_range s1 s2 : accu32 (dsp_mul56 s1 s2).
Proof. unfold dsp_mul56. destruct (xorb _ _); [apply sub56_range|apply asl56_range]. Qed.

Lemma rnd56_range sr d : accu32 (dsp_rnd56 sr d).
Proof.
  unfold dsp_rnd56. pose proof (λ s, proj2 (add56_range s d)) as Ha.
  destruct (nz _); [|destruct (nz _)].
  all: match goal with |- context [dsp_add56 ?s ?d] => destruct (Ha s) as (? & ? & ?) end.
  all: words.
Qed.

(** ** Arithmetic and logic instructions *)

Lemma dest_bit_range inst : 0 <= dest_bit inst < 2.
Proof. apply land_1_range. Qed.
Lemma other_accu_range inst : 0 <= dest_bit inst .^ 1 < 2.
Proof. apply lxor_1_range, dest_bit_range. Qed.
#[export] Hint Resolve dest_bit_range other_accu_range : dsp_safe.

Lemma sign_word_range x : in_u 32 (sign_word x).
Proof. unfold sign_word. bounds. Qed.
#[export] Hint Resolve sign_word_range : dsp_bounds.

Lemma logic_flags_range x : in_u 32 (logic_flags x).
Proof. unfold logic_flags. bounds. Qed.
#[export] Hint Resolve logic_flags_range : dsp_bounds.

Lemma safe_get_accu n : 0 <= n < 2 → safe (get_accu n) accu32.
Proof. intros. unfold get_accu. do 4 spec_step. apply spec_ret. done. Qed.
Lemma safe_set_accu n d : 0 <= n < 2 → accu32 d → safe (set_accu n d) (λ _, True).
Proof. intros ? (? & ? & ?). unfold set_accu. spec_auto. Qed.
Lemma safe_get_word n : 0 <= n < 64 → safe (get_word n) accu32.
Proof. intros. unfold get_word. do 2 spec_step. apply spec_ret. split; [done|]. words. Qed.
Lemma safe_get_long n m : 0 <= n < 64 → 0 <= m < 64 → safe (get_long n m) accu32.
Proof. intros. unfold get_long. do 3 spec_step. apply spec_ret. split; [done|]. words. Qed.
#[export] Hint Resolve safe_get_accu safe_set_accu safe_get_word safe_get_long : dsp_safe.

Lemma safe_set_sr_bits mask bits : in_u 32 bits → safe (set_sr_bits mask bits) (λ _, True).
Proof. intros. unfold set_sr_bits. spec_auto. Qed.
#[export] Hint Resolve safe_set_sr_bits : dsp_safe.

Definition opt_accu32 (o : option accu) : Prop :=
  match o with Some a => accu32 a | None => True end.

Lemma spec_some p (m : M accu) : safe m accu32 → spec p (Some <$> m) (λ o p', p' = p ∧ opt_accu32 o).
Proof. intros Hm. apply spec_fmap, (spec_weaken _ _ _ _ (Hm p)). done. Qed.

Ltac source_tac :=
  repeat match goal with
         | |- safe _ _ => intros ?p
         | |- spec _ (if ?b then _ else _) _ => destruct b
         | |- spec _ (Some <$> _) _ => apply spec_some; eauto with dsp_safe
         | |- spec _ (mret None) _ => by apply spec_ret
         end.

Lemma safe_add_source r d : 0 <= d .^ 1 < 2 → safe (add_source r d) opt_accu32.
Proof. intros. unfold add_source. source_tac. Qed.
Lemma safe_cmp_source r d : 0 <= d .^ 1 < 2 → safe (cmp_source r d) opt_accu32.
Proof. intros. unfold cmp_source. source_tac. Qed.
#[export] Hint Resolve safe_add_source safe_cmp_source : dsp_safe.

#[export] Hint Resolve abs56_range mul56_range rnd56_range : dsp_safe.

(** A call to an arithmetic routine: only the ranges of its results matter. *)
Ltac alu_call lem x :=
  generalize (lem : result32 x); destruct x; intros [? ?]; cbn [fst snd opt_accu32] in *.
Ltac alu_step :=
  lazymatch goal with
  | |- context [match dsp_add56 ?s ?d with _ => _ end] => alu_call (add56_range s d) (dsp_add56 s d)
  | |- context [match dsp_sub56 ?s ?d with _ => _ end] => alu_call (sub56_range s d) (dsp_sub56 s d)
  | |- context [match dsp_asl56 ?d with _ => _ end] => alu_call (asl56_range d) (dsp_asl56 d)
  | |- context [match dsp_asr56 ?d with _ => _ end] => alu_call (asr56_range d) (dsp_asr56 d)
  | |- _ => spec_step; cbn [opt_accu32] in *
  end.
Ltac alu_auto := repeat alu_step; spec_done.

Lemma safe_store_vc n d sr :
  0 <= n < 2 → accu32 d → in_u 8 sr → safe (store_vc n d sr) (λ _, True).
Proof. intros. unfold store_vc. spec_auto. Qed.
#[export] Hint Resolve safe_store_vc : dsp_safe.

Lemma safe_abs : safe dsp_abs (λ _, True).
Proof. unfold dsp_abs. alu_auto. Qed.
Lemma safe_adc : safe dsp_adc (λ _, True).
Proof. unfold dsp_adc. alu_auto. Qed.
Lemma safe_add : safe dsp_add (λ _, True).
Proof. unfold dsp_add. alu_auto. Qed.
Lemma safe_addl : safe dsp_addl (λ _, True).
Proof. unfold dsp_addl. alu_auto. Qed.
Lemma safe_addr : safe dsp_addr (λ _, True).
Proof. unfold dsp_addr. alu_auto. Qed.

Lemma sub56_accu s d : accu32 (dsp_sub56 s d).2.
Proof. apply sub56_range. Qed.
Lemma add56_accu s d : accu32 (dsp_add56 s d).2.
Proof. apply add56_range. Qed.
#[export] Hint Resolve sub56_accu add56_accu : dsp_safe.

Lemma a1_range inst : 0 <= DSP_REG_A1 + dest_bit inst < 64.
Proof. pose proof (dest_bit_range inst). lia. Qed.
#[export] Hint Resolve a1_range : dsp_safe.

Lemma zero_accu_range : accu32 zero_accu.
Proof. words. Qed.
#[export] Hint Resolve zero_accu_range : dsp_safe.

Lemma logic_source_range inst : 0 <= logic_source inst < 64.
Proof. unfold logic_source. repeat case_match; lia. Qed.
#[export] Hint Resolve logic_source_range : dsp_safe.

Lemma safe_mpy_product inst : safe (mpy_product inst) accu32.
Proof.
  unfold mpy_product. spec_step. eapply spec_bind_safe.
  { apply (safe_table_get _ _ (λ r, 0 <= r.1 < 64 ∧ 0 <= r.2 < 64)); [cbn; idx|].
    repeat (constructor; [cbn; lia|]). constructor. }
  intros [r1 r2] [? ?]. cbn [fst snd] in *. repeat spec_step.
  split; [done|]. destruct (nz _); [apply sub56_range|apply mul56_range].
Qed.
#[export] Hint Resolve safe_mpy_product : dsp_safe.

Lemma safe_asl : safe dsp_asl (λ _, True).
Proof. unfold dsp_asl. alu_auto. Qed.
Lemma safe_asr : safe dsp_asr (λ _, True).
Proof. unfold dsp_asr. alu_auto. Qed.
Lemma safe_clr : safe dsp_clr (λ _, True).
Proof. unfold dsp_clr. alu_auto. Qed.
Lemma safe_cmp : safe dsp_cmp (λ _, True).
Proof. unfold dsp_cmp. alu_auto. Qed.
Lemma safe_cmpm : safe dsp_cmpm (λ _, True).
Proof. unfold dsp_cmpm. alu_auto. Qed.
Lemma safe_eor : safe dsp_eor (λ _, True).
Proof. unfold dsp_eor. alu_auto. Qed.
Lemma safe_lsl : safe dsp_lsl (λ _, True).
Proof. unfold dsp_lsl. alu_auto. Qed.
Lemma safe_lsr : safe dsp_lsr (λ _, True).
Proof. unfold dsp_lsr. alu_auto. Qed.
Lemma safe_mac : safe dsp_mac (λ _, True).
Proof. unfold dsp_mac. alu_auto. Qed.
Lemma safe_macr : safe dsp_macr (λ _, True).
Proof. unfold dsp_macr. alu_auto. Qed.
Lemma safe_move : safe dsp_move (λ _, True).
Proof. unfold dsp_move. alu_auto. Qed.
Lemma safe_mpy : safe dsp_mpy (λ _, True).
Proof. unfold dsp_mpy. alu_auto. Qed.
Lemma safe_mpyr : safe dsp_mpyr (λ _, True).
Proof. unfold dsp_mpyr. alu_auto. Qed.
Lemma safe_neg : safe dsp_neg (λ _, True).
Proof. unfold dsp_neg. alu_auto. Qed.
Lemma safe_nop : safe dsp_nop (λ _, True).
Proof. unfold dsp_nop. alu_auto. Qed.
Lemma safe_not : safe dsp_not (λ _, True).
Proof. unfold dsp_not. alu_auto. Qed.
Lemma safe_or : safe dsp_or (λ _, True).
Proof. unfold dsp_or. alu_auto. Qed.
Lemma safe_rnd : safe dsp_rnd (λ _, True).
Proof. unfold dsp_rnd. alu_auto. Qed.
Lemma safe_rol : safe dsp_rol (λ _, True).
Proof. unfold dsp_rol. alu_auto. Qed.
Lemma safe_ror : safe dsp_ror (λ _, True).
Proof. unfold dsp_ror. alu_auto. Qed.
Lemma safe_sbc : safe dsp_sbc (λ _, True).
Proof. unfold dsp_sbc. alu_auto. Qed.
Lemma safe_sub : safe dsp_sub (λ _, True).
Proof. unfold dsp_sub. alu_auto. Qed.
Lemma safe_subl : safe dsp_subl (λ _, True).
Proof. unfold dsp_subl. alu_auto. Qed.
Lemma safe_subr : safe dsp_subr (λ _, True).
Proof. unfold dsp_subr. alu_auto. Qed.
Lemma safe_tfr : safe dsp_tfr (λ _, True).
Proof. unfold dsp_tfr. alu_auto. Qed.
Lemma safe_tst : safe dsp_tst (λ _, True).
Proof. unfold dsp_tst. alu_auto. Qed.
Lemma safe_and : safe dsp_and (λ _, True).
Proof. unfold dsp_and. alu_auto. Qed.
#[export] Hint Resolve safe_abs safe_adc safe_add safe_addl safe_addr safe_asl safe_asr safe_clr safe_cmp safe_cmpm safe_eor safe_lsl safe_lsr safe_mac safe_macr safe_move safe_mpy safe_mpyr safe_neg safe_nop safe_not safe_or safe_rnd safe_rol safe_ror safe_sbc safe_sub safe_subl safe_subr safe_tfr safe_tst safe_and : dsp_safe.

(** ** Parallel moves

    [pm_ok p]: a move that is set up has destinations of the union member its type
    selects, registers of the register file or a memory space that exists. *)

Definition word_ok (p : parmove_t) (i j : Z) : Prop :=
  match p.(tmp_parmove_dest) !! (i, j), nz (aget p.(tmp_parmove_type) i) with
  | Some (host_pointer n), false => 0 <= n < 64
  | Some (dsp_address _), true => 0 <= aget p.(tmp_parmove_space) i < 3
  | _, _ => False
  end.

Definition move_ok (p : parmove_t) (i : Z) : Prop :=
  let start := aget p.(tmp_parmove_start) i in
  let len := aget p.(tmp_parmove_len) i in
  len = 0 ∨ (0 <= start ∧ 0 <= len ∧ start + len <= 3
             ∧ ∀ j, start <= j < start + len → word_ok p i j).

Definition pm_ok (p : parmove_t) : Prop := move_ok p 0 ∧ move_ok p 1.

(** Code that keeps [pm_ok]. *)
Definition keeps {A} (m : M A) (P : A → Prop) : Prop :=
  ∀ p, pm_ok p → spec p m (λ a p', pm_ok p' ∧ P a).

Section keeps.
Context {A B : Type}.

Lemma keeps_safe (m : M A) P : safe m P → keeps m P.
Proof. intros Hm p Hp. eapply spec_safe; [exact Hm|]. done. Qed.

Lemma keeps_bind (m : M A) (f : A → M B) P Q :
  keeps m P → (∀ a, P a → keeps (f a) Q) → keeps (m ≫= f) Q.
Proof.
  intros Hm Hf p Hp. eapply spec_bind; [by apply Hm|]. intros a p' [Hp' Ha]. by apply Hf.
Qed.

Lemma keeps_assoc {C} (m : M C) (g : C → M A) (f : A → M B) P :
  keeps (m ≫= λ x, g x ≫= f) P → keeps ((m ≫= g) ≫= f) P.
Proof. intros Hm p Hp. apply spec_assoc. by apply Hm. Qed.

Lemma keeps_ret (a : A) (P : A → Prop) : P a → keeps (mret a) P.
Proof. intros Ha p Hp. by apply spec_ret. Qed.

Lemma keeps_table (l : list (M A)) i P :
  0 <= i < Z.of_nat (length l) → Forall (λ m, keeps m P) l → keeps (call_table l i) P.
Proof.
  intros Hi Hl p Hp. apply spec_table; [done|].
  eapply Forall_impl; [exact Hl|]. auto.
Qed.
End keeps.

Create HintDb dsp_keeps discriminated.
#[export] Hint Constants Opaque : dsp_keeps.
#[export] Hint Extern 5 (keeps _ _) => apply keeps_safe; solve [eauto with dsp_safe] : dsp_keeps.
#[export] Hint Extern 1 (_ <= _ < _) => solve [eauto with dsp_safe] : dsp_keeps.
#[export] Hint Extern 1 (in_u _ _) => solve [bounds] : dsp_keeps.

Ltac keeps_step :=
  cbv beta zeta match;
  lazymatch goal with
  | |- keeps (mbind _ (mbind _ _)) _ => apply keeps_assoc
  | |- keeps (mbind _ (if ?b then _ else _)) _ => destruct b eqn:?
  | |- keeps (mbind _ (when ?b _)) _ => unfold when at 1; destruct b eqn:?
  | |- keeps (mbind _ (match ?x with _ => _ end)) _ => split_on x
  | |- keeps (mbind _ (mret ?a)) _ => change (keeps (mbind ?f (mret a)) ?P) with (keeps (f a) P)
  | |- keeps (mbind _ _) _ =>
      eapply keeps_bind; [solve [eauto with dsp_keeps] | intros ? ?; cbn beta in *]
  | |- keeps (mret _) _ => apply keeps_ret
  | |- keeps (if ?b then _ else _) _ => destruct b eqn:?
  | |- keeps (when ?b _) _ => unfold when at 1; destruct b eqn:?
  | |- keeps (match ?x with _ => _ end) _ => split_on x
  | |- keeps _ _ => solve [eauto with dsp_keeps]
  end.
Ltac keeps_auto := repeat keeps_step; try exact I.

(** *** Setting up one move *)

Lemma keeps_set_pm_src i j v :
  0 <= i < 2 → 0 <= j < 3 → in_u 32 v → keeps (set_pm_src i j v) (λ _, True).
Proof. intros ??? p Hp. by apply spec_set_pm_src. Qed.
#[export] Hint Resolve keeps_set_pm_src : dsp_keeps.

(** The fields of the buffers after a sequence of assignments. *)
Ltac pm_lookup :=
  cbn [p_dest p_start p_len p_type p_space tmp_parmove_dest tmp_parmove_start tmp_parmove_len
       tmp_parmove_type tmp_parmove_space];
  repeat first [ rewrite aget_aset_eq | rewrite aget_aset_ne by congruence
               | rewrite lookup_insert_eq | rewrite lookup_insert_ne by congruence ].

Ltac pm_words :=
  intros ? ?;
  match goal with
  | H : ?a <= ?j < _ |- word_ok _ _ ?j =>
      first [ assert (j = a) as -> by lia
            | assert (j = 0 ∨ j = 1 ∨ j = 2) as [->|[->| ->]] by lia ]
  end;
  unfold word_ok; pm_lookup; cbn; lia.

(** Assignments to the buffers, one after the other. *)
Ltac pm_seq :=
  repeat lazymatch goal with
         | |- spec _ (mbind _ (mbind _ _)) _ => apply spec_assoc
         | |- spec ?p (mbind _ _) _ =>
             eapply (spec_bind p _ _ (λ _ p', p' = _)); [pm_seq; reflexivity | intros _ ? ->]
         | |- spec _ (set_pm_dest _ _ _) _ => apply spec_set_pm_dest; [lia|lia|]
         | |- spec _ (set_pm_start _ _) _ => apply spec_set_pm_start; [lia|]
         | |- spec _ (set_pm_len _ _) _ => apply spec_set_pm_len; [lia|]
         | |- spec _ (set_pm_type _ _) _ => apply spec_set_pm_type; [lia|]
         | |- spec _ (set_pm_space _ _) _ => apply spec_set_pm_space; [lia|]
         end.

Lemma move_ok_frame p p' i :
  (∀ j, p'.(tmp_parmove_dest) !! (i, j) = p.(tmp_parmove_dest) !! (i, j)) →
  aget p'.(tmp_parmove_start) i = aget p.(tmp_parmove_start) i →
  aget p'.(tmp_parmove_len) i = aget p.(tmp_parmove_len) i →
  aget p'.(tmp_parmove_type) i = aget p.(tmp_parmove_type) i →
  aget p'.(tmp_parmove_space) i = aget p.(tmp_parmove_space) i →
  move_ok p i → move_ok p' i.
Proof.
  intros Ed Es El Et Ep. unfold move_ok, word_ok. rewrite Es, El, Et, Ep.
  intros [?|(? & ? & ? & Hw)]; [by left|right]. do 3 (split; [done|]).
  intros j Hj. rewrite Ed. by apply Hw.
Qed.

(** The move that was set up is well formed, the other one still is. *)
Ltac pm_done :=
  lazymatch goal with H : move_ok ?p ?i |- move_ok _ ?i =>
    first [ solve [ apply (move_ok_frame p); [intros ?| | | | |exact H]; pm_lookup; reflexivity ]
          | right; pm_lookup; split; [lia|]; split; [lia|]; split; [lia|]; pm_words ]
  end.

Lemma keeps_pm_to_mem i space addr :
  i = 0 ∨ i = 1 → 0 <= space < 3 → keeps (pm_to_mem i space addr) (λ _, True).
Proof.
  intros Hi Hs p [H0 H1]. unfold pm_to_mem. destruct Hi as [->| ->]; pm_seq.
  all: split; [split; pm_done|exact I].
Qed.

(** A register as destination, with the type that goes with it. *)
Lemma keeps_writereg i numreg :
  i = 0 ∨ i = 1 → 0 <= numreg < 64 →
  keeps (dsp_pm_writereg numreg i;; set_pm_type i 0) (λ _, True).
Proof.
  intros Hi Hn p [H0 H1]. unfold dsp_pm_writereg. pose proof (land_1_range numreg).
  destruct Hi as [->| ->]; destruct (is_accu numreg); pm_seq.
  all: split; [split; pm_done|exact I].
Qed.

Lemma keeps_writereg_bind {A} i numreg (k : M A) P :
  i = 0 ∨ i = 1 → 0 <= numreg < 64 → keeps k P →
  keeps (dsp_pm_writereg numreg i;; set_pm_type i 0;; k) P.
Proof.
  intros Hi Hn Hk p Hp.
  assert (spec p ((dsp_pm_writereg numreg i;; set_pm_type i 0);; k) (λ a p', pm_ok p' ∧ P a)) as Hs.
  { eapply spec_bind; [by apply keeps_writereg|]. intros _ p' [Hp' _]. by apply Hk. }
  intros s T E. specialize (Hs s T E). unfold mbind, M_bind in *.
  by destruct (dsp_pm_writereg numreg i s).
Qed.

Lemma safe_reg_bitmask n : 0 <= n < 64 → safe (reg_bitmask n) (in_u 32).
Proof.
  intros. unfold reg_bitmask. spec_step. eapply spec_bind_safe.
  { apply (safe_table_get _ _ (λ k, in_u 32 (BITMASK k))); [done|].
    repeat (constructor; [by apply in_ub_spec|]). constructor. }
  intros k Hk. spec_auto.
Qed.
#[export] Hint Resolve safe_reg_bitmask : dsp_safe.

Lemma keeps_read_accu24 numreg dest :
  (∀ v, in_u 32 v → keeps (dest v) (λ _, True)) →
  keeps (dsp_pm_read_accu24 numreg dest) (λ r, in_u 32 r.2).
Proof. intros Hd. unfold dsp_pm_read_accu24. keeps_auto. all: cbn [snd]; bounds. Qed.

#[export] Hint Extern 1 (_ = 0 ∨ _ = 1) => solve [by left | by right] : dsp_keeps.
#[export] Hint Resolve keeps_pm_to_mem keeps_writereg : dsp_keeps.
#[export] Hint Extern 1 (keeps (dsp_pm_read_accu24 _ (set_pm_src _ _)) _) =>
  apply keeps_read_accu24; intros; apply keeps_set_pm_src; [lia|lia|assumption] : dsp_keeps.

Lemma keeps_pm_source i numreg value :
  0 <= i < 2 → 0 <= numreg < 64 → in_u 32 value → keeps (pm_source i numreg value) (λ _, True).
Proof. intros. unfold pm_source. keeps_auto. Qed.
#[export] Hint Resolve keeps_pm_source : dsp_keeps.

Lemma keeps_pm_to_reg i numreg value :
  i = 0 ∨ i = 1 → 0 <= numreg < 64 → in_u 32 value → keeps (pm_to_reg i numreg value) (λ _, True).
Proof.
  intros. unfold pm_to_reg. eapply keeps_bind; [apply keeps_pm_source; [lia|done|done]|].
  intros _ _. by apply keeps_writereg.
Qed.
Lemma keeps_pm_from_reg i numreg :
  i = 0 ∨ i = 1 → 0 <= numreg < 64 → keeps (pm_from_reg i numreg) (λ _, True).
Proof. intros [->| ->] ?; unfold pm_from_reg; keeps_auto. Qed.
#[export] Hint Resolve keeps_pm_to_reg keeps_pm_from_reg : dsp_keeps.

(** *** The move types *)

Lemma shl1_reg b : 0 <= b < 2 → 0 <= DSP_REG_X0 + b ≪ 1 < 64.
Proof. intros. rewrite shl_mul by lia. lia. Qed.

(** The destinations of a move into an accumulator, as [dsp_pm_0] writes them. *)
Lemma keeps_accu_dest n :
  0 <= n < 2 →
  keeps (set_pm_dest 1 0 (host_pointer (DSP_REG_A2 + n));;
         set_pm_dest 1 1 (host_pointer (DSP_REG_A1 + n));;
         set_pm_dest 1 2 (host_pointer (DSP_REG_A0 + n));;
         set_pm_start 1 0;; set_pm_len 1 3;; set_pm_type 1 0) (λ _, True).
Proof. intros Hn p [H0 H1]. pm_seq. split; [split; pm_done|exact I]. Qed.

(** The destination of the second move of [dsp_pm_1]. *)
Lemma keeps_reg_dest n :
  0 <= n < 64 →
  keeps (set_pm_dest 1 1 (host_pointer n);; set_pm_start 1 1;; set_pm_len 1 1;;
         set_pm_type 1 0) (λ _, True).
Proof. intros Hn p [H0 H1]. pm_seq. split; [split; pm_done|exact I]. Qed.
#[export] Hint Resolve shl1_reg land_1_range : dsp_safe.

Lemma keeps_pm_0 : keeps dsp_pm_0 (λ _, True).
Proof.
  unfold dsp_pm_0. do 9 keeps_step. apply keeps_accu_dest, land_1_range.
Qed.

Lemma sel4_range (P : Z → Prop) sel a b c d : P a → P b → P c → P d → P (sel4 sel a b c d).
Proof. intros. unfold sel4. by repeat case_match. Qed.
Lemma sel_x_range sel : 0 <= sel_x sel < 64.
Proof. by apply (sel4_range (λ x, 0 <= x < 64)). Qed.
Lemma sel_y_range sel : 0 <= sel_y sel < 64.
Proof. by apply (sel4_range (λ x, 0 <= x < 64)). Qed.
#[export] Hint Resolve sel_x_range sel_y_range : dsp_safe.
#[export] Hint Extern 2 (_ <= (if ?b then _ else _) < _) =>
  destruct b; solve [eauto with dsp_safe] : dsp_safe.

Lemma keeps_get_pm_src i j : 0 <= i < 2 → 0 <= j < 3 → keeps (get_pm_src i j) (in_u 32).
Proof. intros. by apply keeps_safe, safe_get_pm_src. Qed.

Lemma keeps_pm_1 : keeps dsp_pm_1 (λ _, True).
Proof.
  unfold dsp_pm_1.
  repeat lazymatch goal with
         | |- keeps (mbind _ (set_pm_dest _ _ _)) _ => apply keeps_reg_dest
         | |- keeps _ _ => keeps_step
         end; eauto with dsp_safe.
Qed.

(** A register number put together from two fields. *)
Lemma lor_range a b k : 0 <= k → in_u k a → in_u k b → 0 <= a .| b < 2 ^ k.
Proof. intros. by apply in_u_lor. Qed.

Lemma pm_numreg_range inst :
  0 <= ((inst ≫ 16) .& BITMASK 3) .| ((inst ≫ 17) .& (BITMASK 2 ≪ 3)) < 64.
Proof. apply (lor_range _ _ 6); [lia|bounds|bounds]. Qed.
#[export] Hint Resolve pm_numreg_range : dsp_safe.

Ltac pm_step :=
  cbv beta;
  lazymatch goal with
  | |- keeps (mbind _ (dsp_pm_writereg _ _)) _ =>
      first [ apply keeps_writereg; [by left + by right | solve [eauto with dsp_safe]]
            | apply keeps_writereg_bind; [by left + by right | solve [eauto with dsp_safe] |] ]
  | |- _ => keeps_step
  end.
Ltac pm_auto := repeat pm_step; try exact I.

Lemma keeps_pm_3 : keeps dsp_pm_3 (λ _, True).
Proof. unfold dsp_pm_3. pm_auto. Qed.

Lemma keeps_pm_2_2 : keeps dsp_pm_2_2 (λ _, True).
Proof. unfold dsp_pm_2_2. pm_auto.  Qed.
#[export] Hint Resolve keeps_pm_3 keeps_pm_2_2 : dsp_keeps.

Lemma keeps_pm_2 : keeps dsp_pm_2 (λ _, True).
Proof. unfold dsp_pm_2. pm_auto. Qed.

Lemma keeps_pm_5 : keeps dsp_pm_5 (λ _, True).
Proof. unfold dsp_pm_5. pm_auto. Qed.
#[export] Hint Resolve keeps_pm_5 : dsp_keeps.

Lemma keeps_pm_8 : keeps dsp_pm_8 (λ _, True).
Proof. unfold dsp_pm_8. pm_auto. Qed.

Lemma lmove_index inst : 0 <= ((inst ≫ 16) .& BITMASK 2) .| ((inst ≫ 17) .& (1 ≪ 2)) < 8.
Proof. apply (lor_range _ _ 3); [lia|bounds|bounds]. Qed.

Lemma keeps_pm_4x l_addr : keeps (dsp_pm_4x l_addr) (λ _, True).
Proof.
  unfold dsp_pm_4x. keeps_step. cbv zeta. eapply keeps_bind.
  { apply keeps_safe, (safe_table_get _ _ (λ r, 0 <= r.1 < 64 ∧ 0 <= r.2 < 64));
      [apply lmove_index|]. repeat (constructor; [cbn; lia|]). constructor. }
  intros [reg0 reg1] [? ?]. cbn [fst snd] in *. pm_auto.
Qed.
#[export] Hint Resolve keeps_pm_4x : dsp_keeps.

Lemma keeps_pm_4 : keeps dsp_pm_4 (λ _, True).
Proof. unfold dsp_pm_4. pm_auto. Qed.

(** *** Dispatcher *)

(** The buffers may hold anything before the lengths are cleared. *)
Lemma spec_parmove_read p : spec p dsp_parmove_read (λ _ p', pm_ok p').
Proof.
  unfold dsp_parmove_read. do 2 (eapply (spec_bind _ _ _ (λ _ p', p' = _)); [pm_seq; reflexivity|intros _ ? ->]).
  apply (spec_weaken _ _ (λ _ p', pm_ok p' ∧ True)); [|by intros ? ? []].
  match goal with |- spec ?p _ _ => assert (pm_ok p) as Hp end.
  { split; left; pm_lookup; done. }
  revert Hp. generalize (p_len (aset (tmp_parmove_len (p_len (aset (tmp_parmove_len p) 1 0) p)) 0 0)
    (p_len (aset (tmp_parmove_len p) 1 0) p)). clear p. intros p Hp. revert p Hp.
  change (keeps (inst ← get_inst; call_table opcodes_parmove ((inst ≫ 20) .& BITMASK 4)) (λ _, True)).
  keeps_step. apply keeps_table; [cbn; idx|]. unfold opcodes_parmove.
  auto 20 using keeps_pm_0, keeps_pm_1, keeps_pm_2, keeps_pm_3, keeps_pm_4, keeps_pm_5, keeps_pm_8, Forall_cons_2, Forall_nil_2.
Qed.

Lemma spec_write_word p i j :
  0 <= i < 2 → 0 <= j < 3 → word_ok p i j → in_u 32 (aget p.(tmp_parmove_src) (i, j)) →
  spec p (parmove_write_word i j) (λ _ p', p' = p).
Proof.
  intros Hi Hj Hw Hs. unfold parmove_write_word, word_ok in *.
  eapply spec_bind_safe; [by apply safe_check|intros _ _].
  eapply spec_bind_safe; [by apply safe_check|intros _ _].
  eapply (spec_bind _ _ _ (λ a p', a = p ∧ p' = p)); [intros s T E; by cbn|].
  intros ? ? [-> ->]. cbv zeta. destruct (_ !! _) as [[n|a]|], (nz (aget p.(tmp_parmove_type) i)); try done.
  - eapply spec_safe; [by apply safe_set_reg|done].
  - eapply spec_safe; [by apply safe_write_memory|done].
Qed.

Lemma spec_typed_src p {A} (m : M A) Q :
  (acells (in_u 32) p.(tmp_parmove_src) → spec p m Q) → spec p m Q.
Proof. intros Hm s T E. apply Hm; [|done|done]. rewrite <- E. apply T. Qed.

Lemma spec_write_move p i :
  0 <= i < 2 → move_ok p i → spec p (parmove_write_move i) (λ _ p', p' = p).
Proof.
  intros Hi Hm. apply spec_typed_src. intros Hsrc. unfold parmove_write_move.
  eapply (spec_bind _ _ _ (λ a p', a = aget p.(tmp_parmove_len) i ∧ p' = p)); [intros s T E; cbn; by rewrite E|].
  intros ? ? [-> ->].
  eapply (spec_bind _ _ _ (λ a p', a = aget p.(tmp_parmove_start) i ∧ p' = p)); [intros s T E; cbn; by rewrite E|].
  intros ? ? [-> ->].
  destruct Hm as [->|(Hs & Hl & Hsum & Hw)]; [by apply spec_ret|].
  apply (spec_for _ _ (λ _ _ p', p' = p)); [done|]. intros k j [] ? -> Hge Hj.
  apply spec_write_word; [done|lia| |apply Hsrc]. apply Hw. lia.
Qed.

Lemma spec_parmove_write p : pm_ok p → spec p dsp_parmove_write (λ _ _, True).
Proof.
  intros [H0 H1]. unfold dsp_parmove_write.
  eapply spec_bind; [by apply spec_write_move|]. intros ? ? ->.
  eapply spec_weaken; [by apply spec_write_move|done].
Qed.

Lemma spec_move_pm p : spec p dsp_move_pm (λ _ _, True).
Proof.
  unfold dsp_move_pm. eapply spec_bind; [apply spec_parmove_read|]. intros. by apply spec_parmove_write.
Qed.

(** ** Instructions without parallel moves *)

Lemma safe_read_accu24 numreg dest :
  (∀ v, in_u 32 v → safe (dest v) (λ _, True)) →
  safe (dsp_pm_read_accu24 numreg dest) (λ r, in_u 32 r.2).
Proof.
  intros Hd. unfold dsp_pm_read_accu24.
  repeat first [ eapply spec_bind_safe; [apply Hd; bounds|intros ? _] | spec_step ]; spec_done.
Qed.
#[export] Hint Extern 1 (safe (dsp_pm_read_accu24 _ (set_reg ?n)) _) =>
  apply safe_read_accu24; intros; apply safe_set_reg; [solve [eauto with dsp_safe]|assumption] : dsp_safe.
#[export] Hint Extern 1 (safe (dsp_pm_read_accu24 _ no_dest) _) =>
  apply safe_read_accu24; intros; intros ?; apply spec_ret; split; done : dsp_safe.

(** A register, memory space or peripheral address taken from the instruction. *)
Lemma reg_field_range base x k : 0 <= base → 0 <= k → base + 2 ^ k <= 64 → 0 <= base + x .& BITMASK k < 64.
Proof. intros ? Hk ?. pose proof (land_mask_range x k Hk). lia. Qed.

Lemma bit_reg_range n : 0 <= n < 64 → 0 <= bit_reg n < 64.
Proof. intros. unfold bit_reg. pose proof (land_1_range n). case_match; lia. Qed.
#[export] Hint Resolve bit_reg_range : dsp_safe.

Definition opt32 (o : option Z) : Prop := match o with Some a => in_u 32 a | None => True end.

Lemma safe_bit_addr inst : safe (bit_addr inst) (λ _, True).
Proof. unfold bit_addr. spec_auto. Qed.
#[export] Hint Resolve safe_bit_addr : dsp_safe.

Lemma safe_andi : safe dsp_andi (λ _, True).
Proof. unfold dsp_andi. spec_auto. Qed.
Lemma safe_ori : safe dsp_ori (λ _, True).
Proof. unfold dsp_ori. spec_auto. Qed.
Lemma safe_undefined : safe dsp_undefined (λ _, True).
Proof. unfold dsp_undefined. spec_auto. Qed.

Lemma safe_bit_instruction update ext :
  (∀ f v b c, update = Some f → in_u 32 v → in_u 32 b → in_u 32 (f v b c)) →
  (∀ e c, ext = Some e → in_u 32 (e c)) →
  safe (bit_instruction update ext) (λ _, True).
Proof.
  intros Hu He. unfold bit_instruction. do 2 spec_step.
  pose proof (land_mask_range a 5 ltac:(lia)).
  destruct update as [f|]; [specialize (λ v b c, Hu f v b c eq_refl) as Hf|].
  all: destruct ext as [e|]; [specialize (λ c, He e c eq_refl) as Hx|].
  all: spec_auto.
Qed.

(** The bit functions of BCHG, BCLR and BSET. *)
Ltac bit_tac :=
  apply safe_bit_instruction;
  [ intros ? v b c [= <-] ? ?; cbn beta; bounds
  | intros ? c [= <-]; bounds ].

Lemma safe_bchg : safe dsp_bchg (λ _, True).
Proof. bit_tac. Qed.
Lemma safe_bclr : safe dsp_bclr (λ _, True).
Proof. bit_tac. Qed.
Lemma safe_bset : safe dsp_bset (λ _, True).
Proof. bit_tac. Qed.
Lemma safe_btst : safe dsp_btst (λ _, True).
Proof. by apply safe_bit_instruction. Qed.

Lemma one_minus_bit x k : in_u 32 (1 - (x ≫ k) .& 1).
Proof. pose proof (land_1_range (x ≫ k)). unfold in_u. lia. Qed.
Lemma one_minus_bit_0 x k : in_u 32 ((1 - (x ≫ k) .& 1) ≪ 0).
Proof. rewrite Z.shiftl_0_r. apply one_minus_bit. Qed.
#[local] Hint Resolve one_minus_bit_0 : dsp_bounds.

Lemma accu32_or_w2 a c : accu32 a → in_u 32 c → accu32 (Accu a.(w0) a.(w1) (a.(w2) .| c)).
Proof. intros (? & ? & ?) ?. words. Qed.
Lemma accu32_if (b : bool) x y : accu32 x → accu32 y → accu32 (if b then x else y).
Proof. by destruct b. Qed.
#[local] Hint Resolve accu32_or_w2 accu32_if : dsp_safe.

Lemma safe_div : safe dsp_div (λ _, True).
Proof.
  unfold dsp_div.
  pose proof (λ sel, sel4_range (λ x, 0 <= x < 64) sel DSP_REG_X0 DSP_REG_Y0 DSP_REG_X1 DSP_REG_Y1).
  alu_auto.
Qed.

Lemma do_imm_range inst : in_u 32 (((inst ≫ 8) .& BITMASK 8) + ((inst .& BITMASK 4) ≪ 8)).
Proof.
  pose proof (land_mask_range (inst ≫ 8) 8). pose proof (land_mask_range inst 4).
  rewrite shl_mul by lia. unfold in_u. lia.
Qed.
#[local] Hint Resolve do_imm_range : dsp_bounds.

Lemma safe_do_aa : safe dsp_do_aa (λ _, True).
Proof. unfold dsp_do_aa. spec_auto. Qed.
Lemma safe_do_imm : safe dsp_do_imm (λ _, True).
Proof. unfold dsp_do_imm. spec_auto. Qed.
Lemma safe_do_ea : safe dsp_do_ea (λ _, True).
Proof. unfold dsp_do_ea. spec_auto. Qed.
Lemma safe_do_reg : safe dsp_do_reg (λ _, True).
Proof. unfold dsp_do_reg. spec_auto. Qed.

(** A table of handlers. *)
Lemma safe_call_table (l : list (M unit)) i :
  0 <= i < Z.of_nat (length l) → Forall (λ m, safe m (λ _, True)) l →
  safe (call_table l i) (λ _, True).
Proof. intros Hi Hl p. apply spec_table; [done|]. eapply Forall_impl; [exact Hl|]. auto. Qed.

Lemma do_index inst : 0 <= (((inst ≫ 14) .& BITMASK 2) ≪ 1) .| ((inst ≫ 7) .& 1) < 8.
Proof. apply (lor_range _ _ 3); [lia|bounds|bounds]. Qed.

Ltac table_tac := repeat (constructor; [solve [auto with dsp_safe]|]); constructor.

#[export] Hint Resolve safe_andi safe_ori safe_undefined safe_bchg safe_bclr safe_bset safe_btst safe_div
  safe_do_aa safe_do_imm safe_do_ea safe_do_reg : dsp_safe.

Lemma safe_opcodes_do inst :
  safe (call_table opcodes_do ((((inst ≫ 14) .& BITMASK 2) ≪ 1) .| ((inst ≫ 7) .& 1))) (λ _, True).
Proof. apply safe_call_table; [apply do_index|table_tac]. Qed.
#[local] Hint Resolve safe_opcodes_do : dsp_safe.

Lemma safe_do : safe dsp_do (λ _, True).
Proof. unfold dsp_do. spec_auto. Qed.

(** The values popped from the stack, in range for the registers they go to. *)
Lemma stack_pair_some a b : stack_pair (Some (a, b)) → in_u 16 a ∧ in_u 16 b.
Proof. done. Qed.
Ltac popped := repeat match goal with H : stack_pair (Some (_, _)) |- _ => apply stack_pair_some in H as [? ?] end.

Lemma safe_enddo : safe dsp_enddo (λ _, True).
Proof. unfold dsp_enddo. repeat (spec_step; popped); spec_done. Qed.
Lemma safe_illegal : safe dsp_illegal (λ _, True).
Proof. unfold dsp_illegal. spec_auto. Qed.

Lemma safe_jump_to newpc : safe (jump_to newpc) (λ _, True).
Proof. unfold jump_to. spec_auto. Qed.
#[export] Hint Resolve safe_jump_to : dsp_safe.

Lemma safe_jcc : safe dsp_jcc (λ _, True).
Proof. unfold dsp_jcc. spec_auto. Qed.

Lemma safe_jump_operand inst : safe (jump_operand inst) (λ _, True).
Proof. unfold jump_operand. spec_auto. Qed.
Lemma safe_only_nops n : ∀ i, safe (only_nops n i) (λ _, True).
Proof. induction n as [|n IH]; intros i; cbn [only_nops]; spec_auto. Qed.
#[export] Hint Resolve safe_jump_operand safe_only_nops : dsp_safe.
Lemma safe_polling_loop newpc pc : safe (polling_loop newpc pc) (λ _, True).
Proof. unfold polling_loop. spec_auto. Qed.
#[export] Hint Resolve safe_polling_loop : dsp_safe.

Lemma safe_jclr : safe dsp_jclr (λ _, True).
Proof. unfold dsp_jclr. spec_auto. Qed.
Lemma safe_jmp : safe dsp_jmp (λ _, True).
Proof. unfold dsp_jmp. spec_auto. Qed.
Lemma safe_push_return : safe push_return (λ _, True).
Proof. unfold push_return. spec_auto. Qed.
#[export] Hint Resolve safe_push_return : dsp_safe.
Lemma safe_jscc : safe dsp_jscc (λ _, True).
Proof. unfold dsp_jscc. spec_auto. Qed.
Lemma safe_jsclr : safe dsp_jsclr (λ _, True).
Proof. unfold dsp_jsclr, jump_sub_on_bit. spec_auto. Qed.
Lemma safe_jsset : safe dsp_jsset (λ _, True).
Proof. unfold dsp_jsset, jump_sub_on_bit. spec_auto. Qed.
Lemma safe_jset : safe dsp_jset (λ _, True).
Proof. unfold dsp_jset. spec_auto. Qed.
Lemma safe_jsr : safe dsp_jsr (λ _, True).
Proof. unfold dsp_jsr. spec_auto. Qed.
Lemma safe_lua : safe dsp_lua (λ _, True).
Proof. unfold dsp_lua. spec_auto. Qed.

Lemma safe_set_reg_masked n v : 0 <= n < 64 → in_u 32 v → safe (set_reg_masked n v) (λ _, True).
Proof. intros. unfold set_reg_masked. spec_auto. Qed.
Lemma accu24_range v : accu32 (Accu (sign_word v) (v .& BITMASK 24) 0).
Proof. words. Qed.
#[local] Hint Resolve accu24_range : dsp_safe.
Lemma safe_set_accu24 n v : safe (set_accu24 n v) (λ _, True).
Proof. unfold set_accu24. spec_auto. Qed.
#[export] Hint Resolve safe_set_reg_masked safe_set_accu24 : dsp_safe.
Lemma safe_write_reg n v : 0 <= n < 64 → in_u 32 v → safe (write_reg n v) (λ _, True).
Proof. intros. unfold write_reg. spec_auto. Qed.
Lemma safe_read_reg n : 0 <= n < 64 → safe (read_reg n) (in_u 32).
Proof. intros. unfold read_reg. spec_auto. Qed.
#[export] Hint Resolve safe_write_reg safe_read_reg : dsp_safe.

Lemma safe_movec_reg : safe dsp_movec_reg (λ _, True).
Proof. unfold dsp_movec_reg. spec_auto. Qed.
Lemma safe_movec_aa : safe dsp_movec_aa (λ _, True).
Proof. unfold dsp_movec_aa. spec_auto. Qed.
Lemma safe_movec_imm : safe dsp_movec_imm (λ _, True).
Proof. unfold dsp_movec_imm. spec_auto. Qed.
Lemma safe_movec_ea : safe dsp_movec_ea (λ _, True).
Proof. unfold dsp_movec_ea. spec_auto. Qed.
#[export] Hint Resolve safe_movec_reg safe_movec_aa safe_movec_imm safe_movec_ea : dsp_safe.

Lemma movec_index inst : 0 <= ((inst ≫ 14) .& 5) .| ((inst ≫ 6) .& (1 ≪ 1)) < 8.
Proof. apply (lor_range _ _ 3); [lia|bounds|bounds]. Qed.
Lemma safe_movec : safe dsp_movec (λ _, True).
Proof.
  unfold dsp_movec. do 2 spec_step. apply safe_call_table; [apply movec_index|table_tac].
Qed.

Lemma safe_movem : safe dsp_movem (λ _, True).
Proof. unfold dsp_movem. spec_auto. Qed.
Lemma safe_movep_0 : safe dsp_movep_0 (λ _, True).
Proof. unfold dsp_movep_0. spec_auto. Qed.
Lemma safe_movep_1 : safe dsp_movep_1 (λ _, True).
Proof. unfold dsp_movep_1. spec_auto. Qed.
Lemma safe_movep_2 : safe dsp_movep_2 (λ _, True).
Proof. unfold dsp_movep_2. spec_auto. Qed.
#[export] Hint Resolve safe_movep_0 safe_movep_1 safe_movep_2 : dsp_safe.
Lemma safe_movep : safe dsp_movep (λ _, True).
Proof. unfold dsp_movep. do 2 spec_step. apply safe_call_table; [cbn; idx|table_tac]. Qed.

(** The shift NORM makes, by the condition codes. *)
Lemma safe_norm_shift rreg d (b c : bool) :
  0 <= rreg < 64 → accu32 d →
  safe (if b then r ← get_reg rreg; set_reg rreg (u32 (r - 1) .& BITMASK 16);; mret (dsp_asl56 d)
        else if c then r ← get_reg rreg; set_reg rreg (u32 (r + 1) .& BITMASK 16);; mret (dsp_asr56 d)
        else mret (0, d)) result32.
Proof.
  intros ? Hd. repeat spec_step.
  - split; [done|apply asl56_range].
  - split; [done|apply asr56_range].
  - split; [done|split; [bounds|done]].
Qed.

Lemma safe_norm : safe dsp_norm (λ _, True).
Proof.
  unfold dsp_norm. do 4 spec_step. cbv zeta.
  eapply spec_bind_safe; [apply safe_norm_shift; [eauto with dsp_safe|done]|].
  intros [newsr dest] [? ?]. cbn [fst snd] in *. spec_auto.
Qed.

Lemma safe_rep_aa : safe dsp_rep_aa (λ _, True).
Proof. unfold dsp_rep_aa. spec_auto. Qed.
Lemma safe_rep_imm : safe dsp_rep_imm (λ _, True).
Proof. unfold dsp_rep_imm. spec_auto. Qed.
Lemma safe_rep_ea : safe dsp_rep_ea (λ _, True).
Proof. unfold dsp_rep_ea. spec_auto. Qed.
Lemma safe_rep_reg : safe dsp_rep_reg (λ _, True).
Proof. unfold dsp_rep_reg. spec_auto. Qed.
#[export] Hint Resolve safe_rep_aa safe_rep_imm safe_rep_ea safe_rep_reg : dsp_safe.

Lemma safe_opcodes_rep inst :
  safe (call_table opcodes_rep ((((inst ≫ 14) .& BITMASK 2) ≪ 1) .| ((inst ≫ 7) .& 1))) (λ _, True).
Proof. apply safe_call_table; [apply do_index|table_tac]. Qed.
#[local] Hint Resolve safe_opcodes_rep : dsp_safe.

Lemma safe_rep : safe dsp_rep (λ _, True).
Proof. unfold dsp_rep. spec_auto. Qed.
Lemma safe_reset : safe dsp_reset (λ _, True).
Proof. unfold dsp_reset. spec_auto. Qed.

Lemma default_pair top :
  stack_pair top → in_u 16 (default (0, 0) top).1 ∧ in_u 16 (default (0, 0) top).2.
Proof. destruct top as [[a b]|]; [done|]. intros _. split; by apply in_ub_spec. Qed.

Lemma safe_rti : safe dsp_rti (λ _, True).
Proof.
  unfold dsp_rti. do 2 spec_step. generalize (default_pair a ltac:(done)).
  destruct (default _ _) as [newpc newsr]. intros [? ?]. cbn [fst snd] in *. spec_auto.
Qed.
Lemma safe_rts : safe dsp_rts (λ _, True).
Proof. unfold dsp_rts. spec_auto. Qed.
Lemma safe_stop : safe dsp_stop (λ _, True).
Proof. apply safe_pauseThread. Qed.
Lemma safe_wait : safe dsp_wait (λ _, True).
Proof. apply safe_pauseThread. Qed.
Lemma safe_swi : safe dsp_swi (λ _, True).
Proof. by apply safe_set_swi_inter, in_ub_spec. Qed.

(** The transfer of Tcc goes through the parallel move buffer. *)
Lemma spec_tcc p : spec p dsp_tcc (λ _ _, True).
Proof.
  unfold dsp_tcc. repeat spec_step; [|exact I]. eapply spec_bind_safe.
  { apply (safe_table_get _ _ (λ r, 0 <= r.1 < 64)); [cbn; idx|].
    repeat (constructor; [cbn; lia|]). constructor. }
  intros [r1 r2] ?. cbn [fst snd] in *.
  assert (safe (if is_accu r1 then get_accu (r1 .& 1) else get_word r1) accu32) as Hsrc.
  { destruct (is_accu r1); eauto with dsp_safe. }
  eapply spec_bind_safe; [exact Hsrc|]. intros src Hs. pose proof Hs as (? & ? & ?).
  do 3 (eapply (spec_bind _ _ _ (λ _ _, True)); [by apply spec_set_pm_src|intros _ ? _]).
  spec_auto.
Qed.

(** ** Dispatch, program counter, interrupts *)

#[export] Hint Resolve safe_do safe_enddo safe_illegal safe_jcc safe_jclr safe_jmp safe_jscc safe_jsclr
  safe_jsset safe_jset safe_jsr safe_lua safe_movec safe_movem safe_movep safe_norm safe_rep safe_reset
  safe_rti safe_rts safe_stop safe_wait safe_swi : dsp_safe.

(** An instruction may use the parallel move buffers for itself. *)
Definition handler (m : M unit) : Prop := ∀ p, spec p m (λ _ _, True).

Lemma handler_safe m : safe m (λ _, True) → handler m.
Proof. intros Hm p. by eapply spec_safe. Qed.

Lemma handler_table l i :
  0 <= i < Z.of_nat (length l) → Forall handler l → handler (call_table l i).
Proof. intros Hi Hl p. apply spec_table; [done|]. eapply Forall_impl; [exact Hl|]. auto. Qed.

Ltac handlers :=
  repeat lazymatch goal with
         | |- Forall _ (dsp_tcc :: _) => apply Forall_cons_2; [exact spec_tcc|]
         | |- Forall _ (dsp_move_pm :: _) => apply Forall_cons_2; [exact spec_move_pm|]
         | |- Forall _ (opcode8h_8 :: _) => apply Forall_cons_2; [assumption|]
         | |- Forall _ (_ :: _) =>
             apply Forall_cons_2; [apply handler_safe; solve [auto with dsp_safe]|]
         | |- Forall _ [] => apply Forall_nil_2
         end.

Lemma safe_opcode8h_0 : safe opcode8h_0 (λ _, True).
Proof. unfold opcode8h_0. spec_auto. Qed.
Lemma safe_opcode8h_1 : safe opcode8h_1 (λ _, True).
Proof. unfold opcode8h_1. spec_auto. Qed.
Lemma safe_opcode8h_4 : safe opcode8h_4 (λ _, True).
Proof. unfold opcode8h_4. spec_auto. Qed.
Lemma safe_opcode8h_6 : safe opcode8h_6 (λ _, True).
Proof. unfold opcode8h_6. spec_auto. Qed.

Lemma bit_opcode_range inst : 0 <= bit_opcode inst < 32.
Proof. apply (lor_range _ _ 5); [lia|bounds|bounds]. Qed.

Lemma handler_opcode8h_8 : handler opcode8h_8.
Proof.
  intros p. unfold opcode8h_8. spec_step. apply handler_table; [cbn; idx|unfold opcodes_0809; handlers].
Qed.
Lemma safe_opcode8h_a : safe opcode8h_a (λ _, True).
Proof.
  unfold opcode8h_a. do 2 spec_step. apply safe_call_table; [apply bit_opcode_range|table_tac].
Qed.
Lemma safe_opcode8h_b : safe opcode8h_b (λ _, True).
Proof.
  unfold opcode8h_b. do 2 spec_step. apply safe_call_table; [apply bit_opcode_range|table_tac].
Qed.
#[export] Hint Resolve safe_opcode8h_0 safe_opcode8h_1 safe_opcode8h_4 safe_opcode8h_6 safe_opcode8h_a
  safe_opcode8h_b : dsp_safe.

Lemma handlers_8h : Forall handler opcodes8h.
Proof. pose proof handler_opcode8h_8. unfold opcodes8h. handlers. Qed.

(** The arithmetic instruction of a parallel move. *)
Lemma safe_alu value :
  0 <= value < 256 →
  safe (if value <? 0x40 then call_table opcodes_alu003f value
        else if value <? 0x80 then call_table opcodes_alu407f (value .& BITMASK 4)
        else call_table opcodes_alu80ff (value .& BITMASK 2)) (λ _, True).
Proof.
  intros. destruct (value <? 0x40) eqn:?; [|destruct (value <? 0x80)].
  - apply safe_call_table; [cmp; cbn; lia|table_tac].
  - apply safe_call_table; [cbn; idx|table_tac].
  - apply safe_call_table; [cbn; idx|table_tac].
Qed.

Lemma handler_execute_decoded : handler execute_decoded.
Proof.
  intros p. unfold execute_decoded. do 2 spec_step.
  - cmp. apply handler_table; [|apply handlers_8h].
    pose proof (land_mask_range (a ≫ 16) 8). cbn. lia.
  - eapply spec_bind; [apply spec_parmove_read|]. intros ? p' Hp'. spec_step.
    eapply spec_bind_safe; [apply safe_alu, (land_mask_range _ 8); lia|]. intros ? _.
    by apply spec_parmove_write.
Qed.

Lemma safe_update_pc_rep : safe update_pc_rep (λ _, True).
Proof. unfold update_pc_rep. spec_auto. Qed.
Lemma safe_update_pc_do : safe update_pc_do (λ _, True).
Proof. unfold update_pc_do. spec_auto. Qed.
#[export] Hint Resolve safe_update_pc_rep safe_update_pc_do : dsp_safe.
Lemma safe_update_pc : safe dsp_postexecute_update_pc (λ _, True).
Proof. unfold dsp_postexecute_update_pc. spec_auto. Qed.

Lemma safe_hi_interrupts : safe dsp_hi_interrupts (in_u 8).
Proof. unfold dsp_hi_interrupts. spec_auto. Qed.
Lemma safe_ssi_interrupts : safe dsp_ssi_interrupts (in_u 8).
Proof. unfold dsp_ssi_interrupts. spec_auto. Qed.
#[export] Hint Resolve safe_hi_interrupts safe_ssi_interrupts : dsp_safe.
Lemma safe_ipl_to_raise : safe ipl_to_raise (in_u 8).
Proof. unfold ipl_to_raise. spec_auto. Qed.
Lemma safe_raise_interrupt ipl : in_u 8 ipl → safe (raise_interrupt ipl) (λ _, True).
Proof. intros. unfold raise_interrupt. spec_auto. Qed.
Lemma safe_end_fast_interrupt : safe end_fast_interrupt (λ _, True).
Proof. unfold end_fast_interrupt. spec_auto. Qed.
#[export] Hint Resolve safe_ipl_to_raise safe_raise_interrupt safe_end_fast_interrupt : dsp_safe.
Lemma safe_postexecute_interrupts : safe dsp_postexecute_interrupts (λ _, True).
Proof. unfold dsp_postexecute_interrupts. spec_auto. Qed.
#[export] Hint Resolve safe_update_pc safe_postexecute_interrupts : dsp_safe.

Lemma handler_execute_instruction : handler dsp56k_execute_instruction.
Proof.
  intros p. unfold dsp56k_execute_instruction. do 4 spec_step.
  eapply spec_bind; [apply handler_execute_decoded|]. intros ? ? _. spec_auto.
Qed.

Lemma handler_exec_insts n : handler (exec_insts n).
Proof.
  induction n as [|n IH]; intros p; cbn [exec_insts]; [by apply spec_ret|].
  eapply spec_bind_safe; [by apply (safe_gets _ (λ _, True))|]. intros r _.
  destruct (nz r); [|by apply spec_ret]. cbn [when].
  eapply spec_bind; [apply handler_execute_instruction|]. intros ? ? _. apply IH.
Qed.

(** ** The emulator as a whole *)

Lemma typed_zero_state : typed zero_state.
Proof. constructor; cbn; first [apply acells_empty; by apply in_ub_spec | by apply in_ub_spec | lia]. Qed.

(** The zero state with the instruction word [inst] at p:0. *)
Definition one_inst_state (inst : Z) : state :=
  s_core (c_ramint (aset ∅ (DSP_SPACE_P, 0) inst) zero_core) zero_state.

Lemma typed_one_inst inst : in_u 24 inst → typed (one_inst_state inst).
Proof.
  intros Hi. destruct typed_zero_state. constructor; try assumption.
  apply acells_aset; [by apply acells_empty, in_ub_spec|done].
Qed.

(** C38: whatever 24 bit words the program memory holds, one instruction of the
    emulated DSP (fetch, decode, parallel moves, execution, PC update, interrupts)
    keeps every variable in the range of its C type, or fails in one of the two ways a
    DSP program can make it fail: an access outside the 15 entries of the DSP stack, or
    [1<<31] on an int, which BCHG, BCLR, BSET, JCLR, JSET, JSCLR and JSSET compute when they
    name bit 31.  No other array is accessed out of bounds, no call goes outside a dispatch
    table, no union is read through the wrong member and every loop ends.  (The pointer
    [dsp_core] of dsp_cpu.c is taken to be set; what happens before it is set is part of
    [machine_safe].) *)
Theorem execute_instruction_safe (s : state) (T : typed s) :
  match dsp56k_execute_instruction s with
  | Ok _ s' => typed s'
  | UB e => program_error e
  end.
Proof.
  pose proof (handler_execute_instruction s.(parmove) s T eq_refl) as H.
  destruct (dsp56k_execute_instruction s); [apply H|done].
Qed.

(** JSR p:$42 *)
Lemma execute_instruction_safe_witness :
  typed (one_inst_state 0x0d0042) ∧
  match dsp56k_execute_instruction (one_inst_state 0x0d0042) with
  | Ok _ s' => typed s'
  | UB e => program_error e
  end.
Proof.
  assert (typed (one_inst_state 0x0d0042)) as T by (apply typed_one_inst, in_ub_spec; reflexivity).
  split; [exact T|exact (execute_instruction_safe _ T)].
Defined.
