(* ===== verification/CcrSpec.v ===== *)
(** * What the condition codes mean

    The four condition code updates, as a function from the status register and
    the number an accumulator stands for, and the conditions of Jcc, JScc and
    Tcc in terms of the flags. *)

From S2P Require Import Prelude DspState Arith56 Ccr Wp.

(** [sr] with bit [k] set to [b], and nothing above bit 15. *)
Definition put_bit (k : Z) (b : bool) (sr : Z) : Z :=
  (sr .& (BITMASK 16 - (1 ≪ k))) .| (b2z b ≪ k).

(** The scaling mode, and the bit an accumulator must not exceed in it. *)
Definition scaling (sr : Z) : Z := (sr ≫ DSP_SR_S0) .& BITMASK 2.
Definition sign_pos (sr : Z) : Z :=
  if scaling sr =? 1 then 48 else if scaling sr =? 2 then 46 else 47.

(** E: the value does not fit below the sign position. *)
Definition extended (sr : Z) (d : accu) : bool :=
  negb ((- 2 ^ sign_pos sr <=? sval d) && (sval d <? 2 ^ sign_pos sr)).

(** U: the two bits at the sign position are equal. *)
Definition unnormalized (sr : Z) (d : accu) : bool :=
  Bool.eqb (Z.testbit (uval d) (sign_pos sr)) (Z.testbit (uval d) (sign_pos sr - 1)).

(** The status register after the four updates. *)
Definition ccr_bits (sr : Z) (d : accu) : Z :=
  let sr := if scaling sr =? 3 then sr
            else put_bit DSP_SR_U (unnormalized sr d) (put_bit DSP_SR_E (extended sr d) sr) in
  put_bit DSP_SR_Z (uval d =? 0) (put_bit DSP_SR_N (sval d <? 0) sr).

(** A flag of the status register. *)
Definition flag (sr k : Z) : bool := Z.testbit sr k.
#[global] Arguments flag : simpl never.

(** The condition codes of the DSP56001: CC, GE, NE, PL, NN, EC, LC, GT and their
    opposites CS, LT, EQ, MI, NR, ES, LS, LE. *)
Definition condition (cc sr : Z) : bool :=
  let f := flag sr in
  let holds :=
    if cc .& 7 =? 0 then f DSP_SR_C
    else if cc .& 7 =? 1 then xorb (f DSP_SR_N) (f DSP_SR_V)
    else if cc .& 7 =? 2 then f DSP_SR_Z
    else if cc .& 7 =? 3 then f DSP_SR_N
    else if cc .& 7 =? 4 then f DSP_SR_Z || (negb (f DSP_SR_U) && negb (f DSP_SR_E))
    else if cc .& 7 =? 5 then f DSP_SR_E
    else if cc .& 7 =? 6 then f DSP_SR_L
    else f DSP_SR_Z || xorb (f DSP_SR_N) (f DSP_SR_V) in
  if 8 <=? cc then holds else negb holds.

(** ** Bits of the status register *)

Lemma testbit_put_bit k b sr i :
  0 <= k < 16 → 0 <= i →
  Z.testbit (put_bit k b sr) i = if i =? k then b else Z.testbit sr i && (i <? 16).
Proof.
  intros Hk Hi. unfold put_bit. rewrite Z.lor_spec, Z.land_spec.
  assert (BITMASK 16 - (1 ≪ k) = Z.ldiff (Z.ones 16) (2 ^ k)) as ->.
  { rewrite BITMASK_ones, Z.shiftl_1_l by lia. apply Z.sub_nocarry_ldiff.
    apply Z.bits_inj'. intros j Hj. rewrite Z.ldiff_spec, Z.bits_0.
    destruct (Z.eqb_spec j k) as [->|].
    - rewrite Z.ones_spec_low by lia. by rewrite andb_false_r.
    - by rewrite Z.pow2_bits_false by lia. }
  rewrite Z.ldiff_spec, Z.testbit_ones_nonneg by lia. rewrite Z.shiftl_spec by lia.
  destruct (Z.eqb_spec i k) as [->|].
  - rewrite Z.pow2_bits_true by lia. cbn [negb]. rewrite !andb_false_r, Z.sub_diag. by destruct b.
  - rewrite Z.pow2_bits_false by lia. cbn [negb]. rewrite andb_true_r.
    destruct b; cbn [b2z]; [|by rewrite Z.bits_0, orb_false_r].
    destruct (decide (i < k)); [by rewrite (Z.testbit_neg_r 1), orb_false_r by lia|].
    rewrite (Z.bits_above_log2 1) by (cbn; lia). by rewrite orb_false_r.
Qed.

(** Writing a bit leaves the scaling mode alone unless it is one of its bits. *)
Lemma scaling_put_bit k b sr : 0 <= k < 10 → scaling (put_bit k b sr) = scaling sr.
Proof.
  intros Hk. unfold scaling. rewrite !land_BITMASK by lia. apply Z.bits_inj'. intros i Hi.
  destruct (decide (i < 2)); [|by rewrite !Z.mod_pow2_bits_high by lia].
  rewrite !Z.mod_pow2_bits_low, !Z.shiftr_spec, testbit_put_bit by lia.
  destruct (Z.eqb_spec (i + 10) k); [lia|]. destruct (Z.ltb_spec (i + 10) 16); [|lia].
  apply andb_true_r.
Qed.

Lemma scaling_range sr : 0 <= scaling sr < 4.
Proof. unfold scaling. by apply (in_u_land_mask 2). Qed.

(** ** The updates *)

Lemma wp_put_bit k b bits (Q : unit → state → Prop) s :
  bits = b2z b ≪ k → Q tt (upd_reg DSP_REG_SR (put_bit k b (reg s DSP_REG_SR)) s) →
  wp (reg_and DSP_REG_SR (BITMASK 16 - (1 ≪ k));; reg_or DSP_REG_SR bits) Q s.
Proof. intros -> HQ. wp_steps. reg_simpl. by rewrite upd_reg_twice. Qed.

Lemma lor_field x y k n :
  0 <= k → 0 <= y → in_u n (y ≫ k) → (x ≪ n) .| ((y ≫ k) .& BITMASK n) = x * 2 ^ n + y / 2 ^ k.
Proof.
  intros Hk Hy Hn. assert (0 <= n) by (destruct (decide (0 <= n)); [done|]; unfold in_u in Hn; rewrite Z.pow_neg_r in Hn; lia).
  rewrite shl_mul by done. rewrite land_BITMASK, Z.mod_small by done.
  rewrite (lor_add _ _ n); [by rewrite shr_div by done|done|done|apply Z_mod_mult].
Qed.

(** The top bits of an accumulator, as the code puts them together. *)
Lemma top_bits_9 d : wf56 d → ((d.(w0) .& 0xff) ≪ 1) .| ((d.(w1) ≫ 23) .& 1) = uval d / 2 ^ 47.
Proof.
  intros (H0 & H1 & H2). unfold in_u, uval in *. pow2.
  change 1 with (BITMASK 1) at 2. rewrite lor_field by (unfold in_u; rewrite ?shr_div by lia; pow2; Z.div_mod_to_equations; lia).
  rewrite (land_ones_const _ 255 8), Z.mod_small by (pow2; lia). pow2. Z.div_mod_to_equations. lia.
Qed.
Lemma top_bits_10 d : wf56 d → ((d.(w0) .& 0xff) ≪ 2) .| ((d.(w1) ≫ 22) .& 3) = uval d / 2 ^ 46.
Proof.
  intros (H0 & H1 & H2). unfold in_u, uval in *. change (2 ^ 46) with 70368744177664. pow2.
  change 3 with (BITMASK 2). rewrite lor_field by (unfold in_u; rewrite ?shr_div by lia; change (2 ^ 2) with 4; pow2; Z.div_mod_to_equations; lia).
  rewrite (land_ones_const _ 255 8), Z.mod_small by (pow2; lia). change (2 ^ 2) with 4. pow2. Z.div_mod_to_equations. lia.
Qed.
Lemma top_bits_8 d : wf56 d → d.(w0) .& 0xff = uval d / 2 ^ 48.
Proof.
  intros (H0 & H1 & H2). unfold in_u, uval in *. pow2.
  rewrite (land_ones_const _ 255 8), Z.mod_small by (pow2; lia). Z.div_mod_to_equations. lia.
Qed.

(** A value fits below bit [p] when the bits from [p] up are all equal. *)
Lemma fits_top d p : wf56 d → p = 46 ∨ p = 47 ∨ p = 48 →
  (uval d / 2 ^ p =? 0) || (uval d / 2 ^ p =? 2 ^ (56 - p) - 1)
  = (- 2 ^ p <=? sval d) && (sval d <? 2 ^ p).
Proof.
  intros Hd Hp. pose proof (uval_range d Hd). rewrite sval_cases by done.
  destruct Hp as [->|[->| ->]].
  all: change (56 - 46) with 10; change (56 - 47) with 9; change (56 - 48) with 8;
    change (2 ^ 10) with 1024; change (2 ^ 9) with 512; change (2 ^ 46) with 70368744177664; pow2.
  all: destruct (Z.leb_spec 36028797018963968 (uval d)); Z.div_mod_to_equations; lia.
Qed.

Lemma wp_ccr_extension d (Q : unit → state → Prop) s :
  wf56 d →
  Q tt (if scaling (reg s DSP_REG_SR) =? 3 then s
        else upd_reg DSP_REG_SR
               (put_bit DSP_SR_E (extended (reg s DSP_REG_SR) d) (reg s DSP_REG_SR)) s) →
  wp (dsp_ccr_extension d.(w0) d.(w1)) Q s.
Proof.
  intros Hd HQ. unfold dsp_ccr_extension. do 2 wp_step. cbv zeta. fold (scaling (reg s DSP_REG_SR)).
  revert HQ. unfold extended, sign_pos. pose proof (scaling_range (reg s DSP_REG_SR)).
  destruct (Z.eqb_spec (scaling (reg s DSP_REG_SR)) 0) as [E|].
  { rewrite E. cbn [Z.eqb]. intros HQ. eapply wp_put_bit; [|exact HQ].
    rewrite top_bits_9, <- fits_top by (done || lia). change (BITMASK 9) with (2 ^ (56 - 47) - 1).
    by destruct (_ || _). }
  destruct (Z.eqb_spec (scaling (reg s DSP_REG_SR)) 1) as [E|].
  { rewrite E. cbn [Z.eqb]. intros HQ. eapply wp_put_bit; [|exact HQ].
    rewrite top_bits_8, <- fits_top by (done || lia). change (BITMASK 8) with (2 ^ (56 - 48) - 1).
    by destruct (_ || _). }
  destruct (Z.eqb_spec (scaling (reg s DSP_REG_SR)) 2) as [E|].
  { rewrite E. cbn [Z.eqb]. intros HQ. eapply wp_put_bit; [|exact HQ].
    rewrite top_bits_10, <- fits_top by (done || lia). change (BITMASK 10) with (2 ^ (56 - 46) - 1).
    by destruct (_ || _). }
  destruct (Z.eqb_spec (scaling (reg s DSP_REG_SR)) 3); [done|lia].
Qed.

(** Two neighbouring bits are equal. *)
Lemma two_bits x k : 0 <= k →
  ((x / 2 ^ k) mod 4 =? 0) || ((x / 2 ^ k) mod 4 =? 3) = Bool.eqb (Z.testbit x (k + 1)) (Z.testbit x k).
Proof.
  intros Hk. pose proof (testbit_mod2 x k Hk) as E0. pose proof (testbit_mod2 x (k + 1)) as E1.
  rewrite Z.pow_add_r, <- Z.div_div in E1 by lia. change (2 ^ 1) with 2 in E1.
  specialize (E1 ltac:(lia)). generalize dependent (x / 2 ^ k). intros y E0 E1.
  destruct (Z.testbit x (k + 1)), (Z.testbit x k); cbn [Z.b2z Bool.eqb] in *;
    Z.div_mod_to_equations; lia.
Qed.

Lemma w1_bits d k : wf56 d → 0 <= k <= 22 → (d.(w1) ≫ k) .& 3 = (uval d / 2 ^ (k + 24)) mod 4.
Proof.
  intros (H0 & H1 & H2) Hk. rewrite (land_ones_const _ 3 2), shr_div by lia. change (2 ^ 2) with 4.
  unfold uval. replace (d.(w0) * 2 ^ 48 + d.(w1) * 2 ^ 24 + d.(w2))
    with (d.(w2) + (d.(w0) * 2 ^ 24 + d.(w1)) * 2 ^ 24) by (pow2; lia).
  rewrite (Z.add_comm k 24), (Z.pow_add_r 2 24 k), <- Z.div_div by (try apply Z.pow_pos_nonneg; lia).
  rewrite Z.div_add, (Z.div_small d.(w2)) by (unfold in_u in H2; pow2; lia).
  rewrite Z.add_0_l.
  replace (2 ^ 24) with (2 ^ (22 - k) * 4 * 2 ^ k)
    by (change 4 with (2 ^ 2); rewrite <- !Z.pow_add_r by lia; f_equal; lia).
  rewrite !Z.mul_assoc, Z.add_comm, Z.div_add by (apply Z.pow_nonzero; lia).
  by rewrite Z.mod_add by lia.
Qed.

Lemma w0_w1_bits d : wf56 d →
  (u32 (d.(w0) ≪ 1) .& 2) .| ((d.(w1) ≫ 23) .& 1) = (uval d / 2 ^ 47) mod 4.
Proof.
  intros (H0 & H1 & H2). unfold in_u, uval in *. pow2.
  rewrite shl_mul, u32_small, shr_div by (pow2; lia).
  rewrite (land_hi _ 2 1 2), (land_ones_const _ 1 1) by lia.
  change (2 - 1) with 1. pow2. rewrite (lor_add _ _ 1); pow2; Z.div_mod_to_equations; lia.
Qed.

Lemma wp_ccr_unnormalized d (Q : unit → state → Prop) s :
  wf56 d →
  Q tt (if scaling (reg s DSP_REG_SR) =? 3 then s
        else upd_reg DSP_REG_SR
               (put_bit DSP_SR_U (unnormalized (reg s DSP_REG_SR) d) (reg s DSP_REG_SR)) s) →
  wp (dsp_ccr_unnormalized d.(w0) d.(w1)) Q s.
Proof.
  intros Hd HQ. unfold dsp_ccr_unnormalized. do 2 wp_step. cbv zeta. fold (scaling (reg s DSP_REG_SR)).
  revert HQ. unfold unnormalized, sign_pos. pose proof (scaling_range (reg s DSP_REG_SR)).
  destruct (Z.eqb_spec (scaling (reg s DSP_REG_SR)) 0) as [E|].
  { rewrite E. cbn [Z.eqb]. intros HQ. eapply wp_put_bit; [|exact HQ].
    rewrite w1_bits by (done || lia). change (BITMASK 2) with 3. by rewrite two_bits by lia. }
  destruct (Z.eqb_spec (scaling (reg s DSP_REG_SR)) 1) as [E|].
  { rewrite E. cbn [Z.eqb]. intros HQ. eapply wp_put_bit; [|exact HQ].
    rewrite w0_w1_bits by done. change (BITMASK 2) with 3. by rewrite two_bits by lia. }
  destruct (Z.eqb_spec (scaling (reg s DSP_REG_SR)) 2) as [E|].
  { rewrite E. cbn [Z.eqb]. intros HQ. eapply wp_put_bit; [|exact HQ].
    rewrite w1_bits by (done || lia). change (BITMASK 2) with 3. by rewrite two_bits by lia. }
  destruct (Z.eqb_spec (scaling (reg s DSP_REG_SR)) 3); [done|lia].
Qed.

Lemma wp_ccr_negative d (Q : unit → state → Prop) s :
  wf56 d →
  Q tt (upd_reg DSP_REG_SR (put_bit DSP_SR_N (sval d <? 0) (reg s DSP_REG_SR)) s) →
  wp (dsp_ccr_negative d.(w0)) Q s.
Proof.
  intros Hd HQ. eapply wp_put_bit; [|exact HQ]. rewrite sign_bit56, sval_cases by done.
  pose proof (uval_range d Hd). do 2 f_equal. pow2.
  destruct (Z.leb_spec 36028797018963968 (uval d)); lia.
Qed.

Lemma wp_ccr_zero d (Q : unit → state → Prop) s :
  wf56 d →
  Q tt (upd_reg DSP_REG_SR (put_bit DSP_SR_Z (uval d =? 0) (reg s DSP_REG_SR)) s) →
  wp (dsp_ccr_zero d.(w0) d.(w1) d.(w2)) Q s.
Proof.
  intros Hd HQ. eapply wp_put_bit; [|exact HQ]. f_equal. destruct Hd as (H0 & H1 & H2).
  unfold in_u, uval, nz in *. rewrite !land_BITMASK by lia. rewrite !Z.mod_small by lia. pow2.
  destruct (Z.eqb_spec d.(w2) 0), (Z.eqb_spec d.(w1) 0), (Z.eqb_spec d.(w0) 0); cbn [negb];
    destruct (Z.eqb_spec (d.(w0) * 281474976710656 + d.(w1) * 16777216 + d.(w2)) 0);
    cbn [b2z]; lia.
Qed.

(** The four updates change SR, and set it to [ccr_bits]. *)
Lemma wp_ccr_update d (Q : unit → state → Prop) s :
  wf56 d → Q tt (upd_reg DSP_REG_SR (ccr_bits (reg s DSP_REG_SR) d) s) → wp (dsp_ccr_update d) Q s.
Proof.
  intros Hd HQ. unfold dsp_ccr_update.
  apply wp_bind, wp_ccr_extension; [done|]. apply wp_bind, wp_ccr_unnormalized; [done|].
  apply wp_bind, wp_ccr_negative; [done|]. apply wp_ccr_zero; [done|].
  revert HQ. unfold ccr_bits, unnormalized, extended, sign_pos.
  destruct (scaling (reg s DSP_REG_SR) =? 3) eqn:E3.
  - rewrite E3. reg_simpl. by rewrite upd_reg_twice.
  - reg_simpl. rewrite !scaling_put_bit, E3 by lia. reg_simpl. rewrite ?scaling_put_bit by lia.
    by rewrite !upd_reg_twice.
Qed.

(** ** Conditions *)

Lemma cc_table :
  forallb (λ v, forallb (λ cc,
    Bool.eqb (CCR_BIT (extended_ccr v) (default 0 (cc_code_map !! Z.to_nat (cc .& BITMASK 3)))
              =? (cc ≫ 3) .& 1)
             (condition cc v)) (seqZ 0 16)) (seqZ 0 256) = true.
Proof. vm_compute. reflexivity. Qed.

Lemma flag_low sr k : 0 <= k < 8 → flag (sr .& BITMASK 8) k = flag sr k.
Proof.
  intros. unfold flag. rewrite land_BITMASK by lia. apply Z.mod_pow2_bits_low. lia.
Qed.

Lemma condition_low cc sr : condition cc (sr .& BITMASK 8) = condition cc sr.
Proof. unfold condition. cbv zeta. by rewrite !flag_low by lia. Qed.

Lemma extended_ccr_low sr : extended_ccr (sr .& BITMASK 8) = extended_ccr sr.
Proof. unfold extended_ccr. by rewrite <- Z.land_assoc, Z.land_diag. Qed.

Lemma calc_cc_run cc s :
  0 <= cc < 16 → dsp_calc_cc cc s = Ok (condition cc (reg s DSP_REG_SR)) s.
Proof.
  intros Hcc. pose proof cc_table as Ht. rewrite forallb_forall in Ht.
  specialize (Ht (reg s DSP_REG_SR .& BITMASK 8)). rewrite forallb_forall in Ht.
  assert (Hv := in_u_land_mask 8 (reg s DSP_REG_SR) ltac:(lia)).
  specialize (Ht ltac:(apply list_elem_of_In, elem_of_seqZ; unfold in_u in Hv; lia) cc).
  specialize (Ht ltac:(apply list_elem_of_In, elem_of_seqZ; lia)).
  rewrite condition_low, extended_ccr_low in Ht. apply Bool.eqb_prop in Ht. rewrite <- Ht.
  unfold dsp_calc_cc, mbind, M_bind. rewrite get_reg_run by lia. unfold table_get.
  assert (0 <= cc .& BITMASK 3 < 8) as Hi by (by apply (in_u_land_mask 3)).
  destruct (lookup_lt_is_Some_2 cc_code_map (Z.to_nat (cc .& BITMASK 3))) as [b Hb];
    [cbn; lia|]. rewrite Hb, (proj2 (Z.leb_le 0 _)) by lia. done.
Qed.

(** ** Properties *)

(** After an arithmetic result the condition code update sets Z iff the 56 bit
    result is 0, N iff it is negative, E iff it does not fit in the 48 bits below the
    extension (47 or 49 bits when scaling up or down), U iff the two bits at that
    position are equal; it changes no other bit of SR, no other register and nothing
    else in the machine.  In the reserved scaling mode 3, E and U keep their values. *)
Lemma ccr_update_correct (d : accu) (s : state) (Hd : wf56 d) :
  let sr := reg s DSP_REG_SR in
  ∃ sr', dsp_ccr_update d s = Ok tt (upd_reg DSP_REG_SR sr' s)
    ∧ flag sr' DSP_SR_Z = (sval d =? 0)
    ∧ flag sr' DSP_SR_N = (sval d <? 0)
    ∧ flag sr' DSP_SR_E = (if scaling sr =? 3 then flag sr DSP_SR_E else extended sr d)
    ∧ flag sr' DSP_SR_U = (if scaling sr =? 3 then flag sr DSP_SR_U else unnormalized sr d)
    ∧ (∀ k, 0 <= k < 16 → k ∉ [DSP_SR_Z; DSP_SR_N; DSP_SR_U; DSP_SR_E] → flag sr' k = flag sr k).
Proof.
  intros sr. exists (ccr_bits sr d). split.
  { destruct (wp_run _ _ _ (wp_ccr_update d (λ _ s', s' = upd_reg DSP_REG_SR (ccr_bits sr d) s) s Hd eq_refl))
      as ([] & s' & -> & ->). done. }
  unfold ccr_bits, flag. pose proof (uval_range d Hd). split; [|split; [|split; [|split]]].
  - rewrite testbit_put_bit by lia. change (2 =? 2) with true. cbv iota.
    rewrite sval_cases by done. pow2.
    destruct (Z.leb_spec 36028797018963968 (uval d)); lia.
  - rewrite !testbit_put_bit by lia. exact (andb_true_r _).
  - destruct (_ =? 3); rewrite !testbit_put_bit by lia; cbn; by rewrite ?andb_true_r.
  - destruct (_ =? 3); rewrite !testbit_put_bit by lia; cbn; by rewrite ?andb_true_r.
  - intros k Hk Hn. rewrite !elem_of_cons in Hn.
    destruct (_ =? 3); rewrite !testbit_put_bit by lia.
    all: rewrite ?(proj2 (Z.eqb_neq k _)) by naive_solver.
    all: by rewrite (proj2 (Z.ltb_lt k 16)), ?andb_true_r by lia.
Qed.

Lemma ccr_update_correct_witness :
  let d := Accu 0xff 0x800000 0 in
  let s := upd_reg DSP_REG_SR 0x0300 zero_state in
  wf56 d ∧ ∃ sr', dsp_ccr_update d s = Ok tt (upd_reg DSP_REG_SR sr' s) ∧ flag sr' DSP_SR_N = true
    ∧ flag sr' DSP_SR_E = false.
Proof.
  intros d s. assert (wf56 d) as Hd by (split; [|split]; by apply in_ub_spec).
  split; [exact Hd|]. destruct (ccr_update_correct d s Hd) as (sr' & Hr & _ & Hn & He & _).
  exists sr'. split; [exact Hr|]. split; [rewrite Hn; reflexivity | rewrite He; reflexivity].
Defined.

(** The condition test of Jcc, JScc and Tcc holds exactly when the sixteen
    condition codes of the DSP56001 do, and changes nothing. *)
Lemma calc_cc_correct (cc : Z) (s : state) (Hcc : 0 <= cc < 16) :
  dsp_calc_cc cc s = Ok (condition cc (reg s DSP_REG_SR)) s.
Proof. by apply calc_cc_run. Qed.

(** GE (1) and LT (9), with N set and V clear. *)
Lemma calc_cc_correct_witness :
  let s := upd_reg DSP_REG_SR 0x0008 zero_state in
  dsp_calc_cc 1 s = Ok false s ∧ dsp_calc_cc 9 s = Ok true s.
Proof. intros s. split; [exact (calc_cc_correct 1 s ltac:(lia))|exact (calc_cc_correct 9 s ltac:(lia))]. Defined.
