(* ===== verification/AluSpec.v ===== *)
(** * What the arithmetic instructions compute

    The instructions of Alu.v on the numbers their operands stand for: the
    accumulators are 56 bit two's complement integers, X and Y 48 bit ones, X0, X1,
    Y0 and Y1 24 bit ones aligned with the middle word of an accumulator. *)

From S2P Require Import Prelude DspState Arith56 Ccr Alu Wp CcrSpec.

(** Accumulator [n] of a state (0 is A, 1 is B). *)
Definition accu_of (s : state) (n : Z) : accu :=
  Accu (reg s (DSP_REG_A2 + n)) (reg s (DSP_REG_A1 + n)) (reg s (DSP_REG_A0 + n)).

(** The data registers hold values of their width. *)
Definition data_wf (s : state) : Prop :=
  ∀ n, 0 <= n < 2 →
    wf56 (accu_of s n) ∧ in_u 24 (reg s (DSP_REG_X0 + n)) ∧ in_u 24 (reg s (DSP_REG_Y0 + n)).

(** The operands. *)
Definition word_value (s : state) (r : Z) : Z := signed 24 (reg s r) * 2 ^ 24.
Definition long_value (s : state) (hi lo : Z) : Z := signed 48 (reg s hi * 2 ^ 24 + reg s lo).

Definition add_value (s : state) (code d : Z) : Z :=
  if code =? 1 then sval (accu_of s (1 - d))
  else if code =? 2 then long_value s DSP_REG_X1 DSP_REG_X0
  else if code =? 3 then long_value s DSP_REG_Y1 DSP_REG_Y0
  else if code =? 4 then word_value s DSP_REG_X0
  else if code =? 5 then word_value s DSP_REG_Y0
  else if code =? 6 then word_value s DSP_REG_X1
  else word_value s DSP_REG_Y1.

(** The source field of an instruction. *)
Definition source_code (inst : Z) : Z := (inst ≫ 4) .& BITMASK 3.

(** The source of CMP, CMPM and TFR. *)
Definition cmp_value (s : state) (code d : Z) : Z :=
  if code =? 0 then sval (accu_of s (1 - d))
  else if code =? 4 then word_value s DSP_REG_X0
  else if code =? 5 then word_value s DSP_REG_Y0
  else if code =? 6 then word_value s DSP_REG_X1
  else word_value s DSP_REG_Y1.

(** The product of MPY and MAC: twice the product of two 24 bit registers (the
    product of two fractions), negated when bit 2 of the instruction is set. *)
Definition mpy_value (s : state) (inst : Z) : Z :=
  let '(r1, r2) := default (0, 0) (registers_mpy !! Z.to_nat (source_code inst)) in
  let p := 2 * (signed 24 (reg s r1) * signed 24 (reg s r2)) in
  if Z.testbit inst 2 then - p else p.

(** The flags after a result [r] with overflow [o] and carry [c]. *)
Definition result_flags (s s' : state) (r : accu) (o c : bool) : Prop :=
  let sr := reg s DSP_REG_SR in
  let sr' := reg s' DSP_REG_SR in
  flag sr' DSP_SR_C = c ∧ flag sr' DSP_SR_V = o ∧ flag sr' DSP_SR_L = flag sr DSP_SR_L || o
  ∧ flag sr' DSP_SR_Z = (sval r =? 0) ∧ flag sr' DSP_SR_N = (sval r <? 0)
  ∧ flag sr' DSP_SR_E = (if scaling sr =? 3 then flag sr DSP_SR_E else extended sr r)
  ∧ flag sr' DSP_SR_U = (if scaling sr =? 3 then flag sr DSP_SR_U else unnormalized sr r)
  ∧ ∀ k, 7 <= k < 16 → flag sr' k = flag sr k.

Definition accu_regs (n : Z) : list Z := [DSP_REG_A2 + n; DSP_REG_A1 + n; DSP_REG_A0 + n].

(** ** Operands *)

Lemma wp_get_accu n (Q : accu → state → Prop) s : 0 <= n < 2 → Q (accu_of s n) s → wp (get_accu n) Q s.
Proof. intros. unfold get_accu. by wp_steps. Qed.

Definition upd_accu (n : Z) (d : accu) (s : state) : state :=
  upd_reg (DSP_REG_A0 + n) d.(w2) (upd_reg (DSP_REG_A1 + n) d.(w1) (upd_reg (DSP_REG_A2 + n) d.(w0) s)).

Lemma wp_set_accu n d (Q : unit → state → Prop) s :
  0 <= n < 2 → Q tt (upd_accu n d s) → wp (set_accu n d) Q s.
Proof. intros. unfold set_accu. by wp_steps. Qed.

Lemma accu_of_upd_accu n d s : 0 <= n < 2 → accu_of (upd_accu n d s) n = d.
Proof. intros. unfold accu_of, upd_accu. reg_simpl. by destruct d. Qed.

Lemma accu_of_upd_reg n r v s :
  r ∉ accu_regs n → accu_of (upd_reg r v s) n = accu_of s n.
Proof.
  unfold accu_regs. rewrite !elem_of_cons. intros Hr. unfold accu_of.
  rewrite !reg_upd_ne by naive_solver. done.
Qed.

Lemma reg_upd_accu n d s m : m ∉ accu_regs n → reg (upd_accu n d s) m = reg s m.
Proof.
  unfold accu_regs, upd_accu. rewrite !elem_of_cons. intros Hm. by rewrite !reg_upd_ne by naive_solver.
Qed.

Lemma sign_word_24 x : in_u 24 x → sign_word x = if x <? 2 ^ 23 then 0 else 255.
Proof.
  intros Hx. unfold sign_word. rewrite sign24_test, signed24_cases by done. unfold in_u in Hx. pow2.
  destruct (Z.leb_spec 8388608 x), (Z.ltb_spec x 8388608); lia || (destruct (_ <? 0) eqn:E; lia).
Qed.

(** A register sign extended to 56 bits, with zeros below. *)
Lemma word_accu x : in_u 24 x →
  wf56 (Accu (sign_word x) x 0) ∧ sval (Accu (sign_word x) x 0) = signed 24 x * 2 ^ 24.
Proof.
  intros Hx. assert (wf56 (Accu (sign_word x) x 0)) as Hw.
  { split; [|split; [done|by apply in_ub_spec]]. cbn [w0]. rewrite sign_word_24 by done.
    destruct (_ <? _); by apply in_ub_spec. }
  split; [done|]. rewrite sval_cases by done. unfold uval. cbn [w0 w1 w2].
  rewrite sign_word_24, signed24_cases by done. unfold in_u in Hx. pow2.
  destruct (Z.ltb_spec x 8388608), (Z.leb_spec 8388608 x); try lia.
  all: match goal with |- context [?a <=? ?b] => destruct (Z.leb_spec a b) end; lia.
Qed.

(** A 48 bit register pair sign extended to 56 bits. *)
Lemma long_accu x y : in_u 24 x → in_u 24 y →
  wf56 (Accu (sign_word x) x y) ∧ sval (Accu (sign_word x) x y) = signed 48 (x * 2 ^ 24 + y).
Proof.
  intros Hx Hy. assert (wf56 (Accu (sign_word x) x y)) as Hw.
  { split; [|done]. cbn [w0]. rewrite sign_word_24 by done. destruct (_ <? _); by apply in_ub_spec. }
  split; [done|]. rewrite sval_cases by done. unfold uval, signed. cbn [w0 w1 w2].
  rewrite sign_word_24 by done. unfold in_u in Hx, Hy. change (48 - 1) with 47. pow2.
  destruct (Z.ltb_spec x 8388608).
  all: match goal with |- context [?a <=? ?b] => destruct (Z.leb_spec a b) end.
  all: match goal with |- context [?a <? ?b] => destruct (Z.ltb_spec a b) end; lia.
Qed.

Lemma lxor_1 d : 0 <= d < 2 → d .^ 1 = 1 - d.
Proof. intros. assert (d = 0 ∨ d = 1) as [->| ->] by lia; done. Qed.

Lemma word_source s r (Q : option accu → state → Prop) :
  0 <= r < 64 → in_u 24 (reg s r) →
  (∀ a, wf56 a → sval a = word_value s r → Q (Some a) s) → wp (Some <$> get_word r) Q s.
Proof.
  intros Hr Hw HQ. unfold get_word. wp_steps. destruct (word_accu (reg s r) Hw). by apply HQ.
Qed.

Lemma long_source s hi lo (Q : option accu → state → Prop) :
  0 <= hi < 64 → 0 <= lo < 64 → in_u 24 (reg s hi) → in_u 24 (reg s lo) →
  (∀ a, wf56 a → sval a = long_value s hi lo → Q (Some a) s) → wp (Some <$> get_long hi lo) Q s.
Proof.
  intros Hh Hl Hwh Hwl HQ. unfold get_long. wp_steps.
  destruct (long_accu (reg s hi) (reg s lo) Hwh Hwl). by apply HQ.
Qed.

Lemma accu_source s n (Q : option accu → state → Prop) :
  0 <= n < 2 → wf56 (accu_of s n) →
  (∀ a, wf56 a → sval a = sval (accu_of s n) → Q (Some a) s) → wp (Some <$> get_accu n) Q s.
Proof. intros Hn Hw HQ. apply wp_fmap, wp_get_accu; [done|]. by apply HQ. Qed.

Lemma wp_add_source code d (Q : option accu → state → Prop) s :
  1 <= code < 8 → 0 <= d < 2 → data_wf s →
  (∀ a, wf56 a → sval a = add_value s code d → Q (Some a) s) → wp (add_source code d) Q s.
Proof.
  intros Hc Hd Hw. unfold add_source, add_value. rewrite lxor_1 by done.
  destruct (Hw 0 ltac:(lia)) as (_ & X0 & Y0). destruct (Hw 1 ltac:(lia)) as (_ & X1 & Y1).
  destruct (Hw (1 - d) ltac:(lia)) as (HA & _ & _). cbn in X0, Y0, X1, Y1.
  repeat match goal with |- context [code =? ?n] => destruct (Z.eqb_spec code n) end; try lia.
  all: intros HQ.
  all: first [apply accu_source; [lia|done|exact HQ] | apply long_source; [lia|lia|done|done|exact HQ]
             | apply word_source; [lia|done|exact HQ]].
Qed.

(** ** Results *)

Lemma testbit_sr_mask m sr bits k :
  0 <= m < 2 ^ 16 → 0 <= k < 16 →
  Z.testbit ((sr .& (BITMASK 16 - m)) .| bits) k = (flag sr k && negb (Z.testbit m k)) || Z.testbit bits k.
Proof.
  intros Hm Hk. rewrite Z.lor_spec, Z.land_spec. f_equal. f_equal.
  assert (Z.ldiff m (Z.ones 16) = 0) as Hz.
  { apply Z.bits_inj'. intros j Hj. rewrite Z.ldiff_spec, Z.bits_0.
    destruct (decide (j < 16)); [rewrite Z.ones_spec_low by lia; by rewrite andb_false_r|].
    rewrite <- (Z.mod_small m (2 ^ 16)) by lia. by rewrite Z.mod_pow2_bits_high by lia. }
  rewrite BITMASK_ones, Z.sub_nocarry_ldiff by (done || lia).
  by rewrite Z.ldiff_spec, Z.ones_spec_low by lia.
Qed.

Lemma flag_ccr_bits sr d k :
  wf56 d → 0 <= k < 16 →
  flag (ccr_bits sr d) k =
    if k =? DSP_SR_Z then sval d =? 0 else if k =? DSP_SR_N then sval d <? 0
    else if k =? DSP_SR_U then (if scaling sr =? 3 then flag sr k else unnormalized sr d)
    else if k =? DSP_SR_E then (if scaling sr =? 3 then flag sr k else extended sr d)
    else flag sr k.
Proof.
  intros Hd Hk. unfold ccr_bits, flag.
  assert ((uval d =? 0) = (sval d =? 0)) as ->.
  { pose proof (uval_range d Hd). rewrite sval_cases by done. pow2.
    destruct (Z.leb_spec 36028797018963968 (uval d)); lia. }
  assert ((k <? 16) = true) as Hlt by lia.
  destruct (scaling sr =? 3); rewrite !testbit_put_bit, Hlt, !andb_true_r by lia.
  - by destruct (k =? 2), (k =? 3), (k =? 4), (k =? 5).
  - done.
Qed.

Lemma sr_not_accu n : 0 <= n < 2 → DSP_REG_SR ∉ accu_regs n.
Proof. intros. unfold accu_regs. rewrite !elem_of_cons, elem_of_nil. lia. Qed.

(** The flags of [ccr_bits] with V, C and L put in. *)
Lemma result_flags_intro s s' d o c :
  wf56 d →
  reg s' DSP_REG_SR
  = (ccr_bits (reg s DSP_REG_SR) d .& (BITMASK 16 - mask_VC)) .| newsr56 (b2z o) (b2z c) →
  result_flags s s' d o c.
Proof.
  intros Hd E.
  assert (∀ k, 0 <= k < 16 → flag (reg s' DSP_REG_SR) k =
    (flag (ccr_bits (reg s DSP_REG_SR) d) k && negb (Z.testbit 3 k))
    || (((k =? DSP_SR_L) && o) || ((k =? DSP_SR_V) && o) || ((k =? DSP_SR_C) && c))) as Hf.
  { intros k Hk. unfold flag at 1. rewrite E, testbit_sr_mask, testbit_newsr56 by (done || lia). done. }
  unfold result_flags. cbv zeta.
  split_and!; [..|intros k Hk]; rewrite Hf, flag_ccr_bits by (done || lia).
  all: try (cbn; rewrite ?andb_false_r, ?andb_true_r, ?orb_false_r; done).
  rewrite (Z.bits_above_log2 3) by (cbn; lia).
  rewrite !(proj2 (Z.eqb_neq k _)) by lia. cbn. by rewrite andb_true_r, orb_false_r.
Qed.

Lemma wp_store_vc n d o c (Q : unit → state → Prop) s :
  0 <= n < 2 → wf56 d →
  (∀ s', accu_of s' n = d → result_flags s s' d o c → frame (DSP_REG_SR :: accu_regs n) s s' → Q tt s') →
  wp (store_vc n d (newsr56 (b2z o) (b2z c))) Q s.
Proof.
  intros Hn Hd HQ. pose proof (sr_not_accu n Hn) as Hsr. unfold store_vc, set_sr_bits.
  apply wp_bind, wp_set_accu; [done|]. apply wp_bind, wp_ccr_update; [done|]. wp_steps.
  reg_simpl. rewrite !upd_reg_twice, reg_upd_accu by done. apply HQ.
  - by rewrite accu_of_upd_reg, accu_of_upd_accu by done.
  - apply result_flags_intro; [done|]. by reg_simpl.
  - unfold upd_accu, accu_regs. frame_tac.
Qed.

Lemma data_wf_frame n s s' :
  0 <= n < 2 → data_wf s → frame (DSP_REG_SR :: accu_regs n) s s' → wf56 (accu_of s' n) → data_wf s'.
Proof.
  intros Hn Hw [Hf _] Hd m Hm. destruct (Hw m Hm) as (HA & HX & HY).
  assert (∀ r, 4 <= r < 14 → r ∉ accu_regs n → reg s' r = reg s r) as Hr.
  { intros r Hr Hnot. apply Hf. rewrite not_elem_of_cons. split; [lia|done]. }
  unfold accu_regs in Hr. rewrite !Hr by (rewrite ?elem_of_cons, ?elem_of_nil; lia).
  split; [|done]. destruct (decide (m = n)) as [->|]; [done|].
  unfold accu_of. by rewrite !Hr by (rewrite ?elem_of_cons, ?elem_of_nil; lia).
Qed.

Lemma dest_range inst : 0 <= dest_bit inst < 2.
Proof. unfold dest_bit. by apply (in_u_land_mask 1). Qed.

Lemma code_range inst : 0 <= (inst ≫ 4) .& BITMASK 3 < 8.
Proof. by apply (in_u_land_mask 3). Qed.

(** ADD stores the 56 bit two's complement sum of the destination accumulator
    and the source selected by the instruction, wrapped around; V is set iff the sum
    does not fit in 56 bits, L is set then and kept otherwise, C is the carry out of
    bit 55, and Z, N, E and U describe the stored result.  Only the destination
    accumulator and SR change. *)
Lemma dsp_add_correct (s : state) (Hw : data_wf s) (Hc : source_code s.(cur_inst) ≠ 0) :
  let d := dest_bit s.(cur_inst) in
  let b := add_value s (source_code s.(cur_inst)) d in
  let sum := sval (accu_of s d) + b in
  ∃ s', dsp_add s = Ok tt s'
    ∧ data_wf s' ∧ sval (accu_of s' d) = wrap56 sum
    ∧ result_flags s s' (accu_of s' d) (overflow56 sum) (2 ^ 56 <=? uval (accu_of s d) + b mod 2 ^ 56)
    ∧ frame (DSP_REG_SR :: accu_regs d) s s'.
Proof.
  intros d b sum. pose proof (dest_range s.(cur_inst)) as Hd. fold d in Hd.
  pose proof (code_range s.(cur_inst)) as Hr. fold (source_code s.(cur_inst)) in Hr.
  destruct (Hw d Hd) as (HA & _).
  apply wp_exists.
  unfold dsp_add. do 2 wp_step. cbv zeta. fold d. fold (source_code s.(cur_inst)).
  apply wp_bind, wp_get_accu; [done|]. apply wp_bind, wp_add_source; [lia|done|done|].
  intros a Ha Ea. fold b in Ea. destruct (add_value56 a (accu_of s d) Ha HA) as [Hres Eres].
  pose proof (add_flags a (accu_of s d) Ha HA) as Ef.
  destruct (dsp_add56 a (accu_of s d)) as [newsr r]. cbn [fst snd] in *. rewrite Ef.
  apply wp_store_vc; [done|done|]. intros s' Es' Hf Hfr. rewrite Es'.
  rewrite (uval_sval a Ha), Ea, Z.add_comm, (Z.add_comm (b mod _)) in Hf. rewrite Ea in Eres.
  split; [|done]. eapply data_wf_frame; [exact Hd|exact Hw|exact Hfr|by rewrite Es'].
Qed.

(** SUB stores the wrapped 56 bit difference of the destination accumulator and
    the source; V is set iff the difference does not fit, C iff the unsigned
    subtraction borrows; the other flags as for ADD. *)
Lemma dsp_sub_correct (s : state) (Hw : data_wf s) (Hc : source_code s.(cur_inst) ≠ 0) :
  let d := dest_bit s.(cur_inst) in
  let b := add_value s (source_code s.(cur_inst)) d in
  let diff := sval (accu_of s d) - b in
  ∃ s', dsp_sub s = Ok tt s'
    ∧ data_wf s' ∧ sval (accu_of s' d) = wrap56 diff
    ∧ result_flags s s' (accu_of s' d) (overflow56 diff) (uval (accu_of s d) <? b mod 2 ^ 56)
    ∧ frame (DSP_REG_SR :: accu_regs d) s s'.
Proof.
  intros d b diff. pose proof (dest_range s.(cur_inst)) as Hd. fold d in Hd.
  pose proof (code_range s.(cur_inst)) as Hr. fold (source_code s.(cur_inst)) in Hr.
  destruct (Hw d Hd) as (HA & _). apply wp_exists.
  unfold dsp_sub. do 2 wp_step. cbv zeta. fold d. fold (source_code s.(cur_inst)).
  apply wp_bind, wp_get_accu; [done|]. apply wp_bind, wp_add_source; [lia|done|done|].
  intros a Ha Ea. fold b in Ea. destruct (sub_value56 a (accu_of s d) Ha HA) as [Hres Eres].
  pose proof (sub_flags a (accu_of s d) Ha HA) as Ef.
  destruct (dsp_sub56 a (accu_of s d)) as [newsr r]. cbn [fst snd] in *. rewrite Ef.
  apply wp_store_vc; [done|done|]. intros s' Es' Hf Hfr. rewrite Es'.
  rewrite (uval_sval a Ha), Ea in Hf. rewrite Ea in Eres.
  split; [|done]. eapply data_wf_frame; [exact Hd|exact Hw|exact Hfr|by rewrite Es'].
Qed.

Lemma wp_cmp_source code d (Q : option accu → state → Prop) s :
  code = 0 ∨ 4 <= code < 8 → 0 <= d < 2 → data_wf s →
  (∀ a, wf56 a → sval a = cmp_value s code d → Q (Some a) s) → wp (cmp_source code d) Q s.
Proof.
  intros Hc Hd Hw. unfold cmp_source, cmp_value. rewrite lxor_1 by done.
  destruct (Hw 0 ltac:(lia)) as (_ & X0 & Y0). destruct (Hw 1 ltac:(lia)) as (_ & X1 & Y1).
  destruct (Hw (1 - d) ltac:(lia)) as (HA & _ & _). cbn in X0, Y0, X1, Y1.
  repeat match goal with |- context [code =? ?n] => destruct (Z.eqb_spec code n) end; try lia.
  all: intros HQ.
  all: first [apply accu_source; [lia|done|exact HQ] | apply word_source; [lia|done|exact HQ]].
Qed.

Lemma wp_compare_flags d o c (Q : unit → state → Prop) s :
  wf56 d →
  (∀ s', result_flags s s' d o c → frame [DSP_REG_SR] s s' → Q tt s') →
  wp (dsp_ccr_update d;; set_sr_bits mask_VC (newsr56 (b2z o) (b2z c))) Q s.
Proof.
  intros Hd HQ. unfold set_sr_bits. apply wp_bind, wp_ccr_update; [done|]. wp_steps.
  reg_simpl. rewrite !upd_reg_twice. apply HQ; [|frame_tac].
  apply result_flags_intro; [done|]. by reg_simpl.
Qed.

Ltac xor_cases :=
  split; [|lia]; unfold xorb;
  match goal with |- (if ?x <? 0 then if ?c then _ else _ else _) = _ =>
    destruct (x <? 0) eqn:?, c eqn:? end; lia.

(** The sign of a wrapped difference, corrected by the overflow, orders its operands. *)
Lemma sub_sign_overflow a b :
  - 2 ^ 55 <= a < 2 ^ 55 → - 2 ^ 55 <= b < 2 ^ 55 →
  xorb (wrap56 (a - b) <? 0) (overflow56 (a - b)) = (a <? b) ∧ (wrap56 (a - b) =? 0) = (a =? b).
Proof.
  unfold wrap56, overflow56. pow2. intros Ha Hb.
  assert (a - b < -36028797018963968 ∨ -36028797018963968 <= a - b < 36028797018963968
          ∨ 36028797018963968 <= a - b) as [?|[?|?]] by lia.
  - replace ((a - b + 36028797018963968) mod 72057594037927936) with (a - b + 36028797018963968 + 72057594037927936)
      by (Z.div_mod_to_equations; lia). xor_cases.
  - rewrite Z.mod_small by lia. xor_cases.
  - replace ((a - b + 36028797018963968) mod 72057594037927936) with (a - b + 36028797018963968 - 72057594037927936)
      by (Z.div_mod_to_equations; lia). xor_cases.
Qed.

(** The conditions that compare. *)
Lemma compare_conditions sr (lt eq cs : bool) :
  xorb (flag sr DSP_SR_N) (flag sr DSP_SR_V) = lt → flag sr DSP_SR_Z = eq → flag sr DSP_SR_C = cs →
  condition 1 sr = negb lt ∧ condition 9 sr = lt ∧ condition 7 sr = negb (eq || lt)
  ∧ condition 15 sr = eq || lt ∧ condition 2 sr = negb eq ∧ condition 10 sr = eq
  ∧ condition 0 sr = negb cs ∧ condition 8 sr = cs.
Proof. intros <- <- <-. done. Qed.

(** C28: after CMP the conditions of a conditional jump, call or transfer compare the
    56 bit signed values of the accumulator and the source: GE (1), NE (2), GT (7),
    LT (9), EQ (10) and LE (15) hold exactly when the comparison does, also when the
    subtraction overflows; CC (0) and CS (8) compare the unsigned values.  CMP changes
    nothing but SR. *)
Theorem cmp_branch_correct (s : state) (Hw : data_wf s)
    (Hc : source_code s.(cur_inst) = 0 ∨ 4 <= source_code s.(cur_inst)) :
  let d := dest_bit s.(cur_inst) in
  let a := sval (accu_of s d) in
  let b := cmp_value s (source_code s.(cur_inst)) d in
  ∃ s', dsp_cmp s = Ok tt s' ∧ frame [DSP_REG_SR] s s'
    ∧ dsp_calc_cc 1 s' = Ok (b <=? a) s' ∧ dsp_calc_cc 9 s' = Ok (a <? b) s'
    ∧ dsp_calc_cc 7 s' = Ok (b <? a) s' ∧ dsp_calc_cc 15 s' = Ok (a <=? b) s'
    ∧ dsp_calc_cc 2 s' = Ok (negb (a =? b)) s' ∧ dsp_calc_cc 10 s' = Ok (a =? b) s'
    ∧ dsp_calc_cc 0 s' = Ok (b mod 2 ^ 56 <=? a mod 2 ^ 56) s'
    ∧ dsp_calc_cc 8 s' = Ok (a mod 2 ^ 56 <? b mod 2 ^ 56) s'.
Proof.
  intros d a b. pose proof (dest_range s.(cur_inst)) as Hd. fold d in Hd.
  pose proof (code_range s.(cur_inst)) as Hr. fold (source_code s.(cur_inst)) in Hr.
  destruct (Hw d Hd) as (HA & _). apply wp_exists.
  unfold dsp_cmp. do 2 wp_step. cbv zeta. fold d. fold (source_code s.(cur_inst)).
  apply wp_bind, wp_get_accu; [done|]. apply wp_bind, wp_cmp_source; [lia|done|done|].
  intros x Hx Ex. fold b in Ex. destruct (sub_value56 x (accu_of s d) Hx HA) as [Hres Eres].
  pose proof (sub_flags x (accu_of s d) Hx HA) as Ef.
  destruct (dsp_sub56 x (accu_of s d)) as [newsr r]. cbn [fst snd] in *. rewrite Ef.
  apply wp_compare_flags; [done|]. intros s' (FC & FV & _ & FZ & FN & _) Hfr. split; [done|].
  pose proof (sval_range _ HA) as Ba. pose proof (sval_range _ Hx) as Bb.
  rewrite (uval_sval x Hx), (uval_sval _ HA) in FC.
  rewrite Ex in *. change (sval (accu_of s d)) with a in FC, FV, FZ, FN, Eres, Ba. destruct (sub_sign_overflow a b Ba Bb) as [Elt Eeq].
  rewrite Eres in FZ, FN. rewrite !calc_cc_run by lia.
  destruct (compare_conditions (reg s' DSP_REG_SR) (a <? b) (a =? b) (a mod 2 ^ 56 <? b mod 2 ^ 56))
    as (-> & -> & -> & -> & -> & -> & -> & ->); [congruence..|]. split_and!; f_equal; lia.
Qed.

(** ** Multiplication *)

Lemma mpy_regs inst : ∃ r1 r2, registers_mpy !! Z.to_nat (source_code inst) = Some (r1, r2)
  ∧ 4 <= r1 < 8 ∧ 4 <= r2 < 8.
Proof.
  pose proof (code_range inst) as Hc. fold (source_code inst) in Hc.
  destruct (lookup_lt_is_Some_2 registers_mpy (Z.to_nat (source_code inst))) as [[r1 r2] Hr]; [cbn; lia|].
  exists r1, r2. split; [done|].
  assert (Forall (λ r, 4 <= r.1 < 8 ∧ 4 <= r.2 < 8) registers_mpy) as Hall
    by (repeat (constructor; [cbn; lia|]); constructor).
  exact (Forall_lookup_1 _ _ _ _ Hall Hr).
Qed.

Lemma data_wf_word s r : data_wf s → 4 <= r < 8 → in_u 24 (reg s r).
Proof.
  intros Hw Hr. destruct (Hw 0 ltac:(lia)) as (_ & X0 & Y0). destruct (Hw 1 ltac:(lia)) as (_ & X1 & Y1).
  assert (r = 4 ∨ r = 5 ∨ r = 6 ∨ r = 7) as [->|[->|[->| ->]]] by lia; done.
Qed.

Lemma mul_bound x y : - 2 ^ 23 <= x < 2 ^ 23 → - 2 ^ 23 <= y < 2 ^ 23 →
  - 2 ^ 55 < 2 * (x * y) < 2 ^ 55.
Proof. pow2. intros. assert (-70368744177664 <= x * y <= 70368744177664) by nia. lia. Qed.

Lemma wrap56_small x : - 2 ^ 55 <= x < 2 ^ 55 → wrap56 x = x.
Proof. intros. unfold wrap56. rewrite Z.mod_small; pow2; lia. Qed.

Lemma wp_mpy_product (Q : accu → state → Prop) s inst :
  data_wf s → (∀ a, wf56 a → sval a = mpy_value s inst → Q a s) → wp (mpy_product inst) Q s.
Proof.
  intros Hw HQ. destruct (mpy_regs inst) as (r1 & r2 & Hr & H1 & H2).
  pose proof (code_range inst) as Hc. unfold mpy_product. fold (source_code inst) in *.
  apply wp_bind. eapply wp_table_get; [lia|exact Hr|]. wp_steps.
  pose proof (data_wf_word s r1 Hw H1) as W1. pose proof (data_wf_word s r2 Hw H2) as W2.
  destruct (mul_words (reg s r1) (reg s r2) W1 W2) as [Hm Em]. revert HQ.
  unfold mpy_value. rewrite Hr. cbn [default from_option id]. rewrite nz_land_bit by lia.
  pose proof (mul_bound _ _ (signed24_range _ W1) (signed24_range _ W2)) as Hb.
  destruct (Z.testbit inst 2); intros HQ; apply HQ; [| |done|done].
  - apply sub_value56; [done|apply zero_wf].
  - destruct (sub_value56 _ _ Hm zero_wf) as [_ ->]. rewrite Em.
    change (sval zero_accu) with 0. rewrite wrap56_small by lia. lia.
Qed.

(** MAC keeps the carry. *)
Lemma result_flags_keep_c s s' d o c :
  wf56 d →
  reg s' DSP_REG_SR
  = (ccr_bits (reg s DSP_REG_SR) d .& (BITMASK 16 - (1 ≪ DSP_SR_V)))
    .| (newsr56 (b2z o) (b2z c) .& 0xfe) →
  result_flags s s' d o (flag (reg s DSP_REG_SR) DSP_SR_C).
Proof.
  intros Hd E.
  assert (∀ k, 0 <= k < 16 → flag (reg s' DSP_REG_SR) k =
    (flag (ccr_bits (reg s DSP_REG_SR) d) k && negb (Z.testbit 2 k))
    || ((((k =? DSP_SR_L) && o) || ((k =? DSP_SR_V) && o) || ((k =? DSP_SR_C) && c))
        && Z.testbit 0xfe k)) as Hf.
  { intros k Hk. unfold flag at 1.
    rewrite E, testbit_sr_mask, Z.land_spec, testbit_newsr56 by (done || lia). done. }
  unfold result_flags. cbv zeta.
  split_and!; [..|intros k Hk]; rewrite Hf, flag_ccr_bits by (done || lia).
  all: try (cbn; rewrite ?andb_false_r, ?andb_true_r, ?orb_false_r; done).
  rewrite (Z.bits_above_log2 2) by (cbn; lia).
  rewrite !(proj2 (Z.eqb_neq k _)) by lia. cbn. by rewrite andb_true_r, orb_false_r.
Qed.

(** MAC, in full. *)
Lemma mac_run (s : state) (Hw : data_wf s) :
  let d := dest_bit s.(cur_inst) in
  let sum := sval (accu_of s d) + mpy_value s s.(cur_inst) in
  ∃ s', dsp_mac s = Ok tt s'
    ∧ data_wf s' ∧ sval (accu_of s' d) = wrap56 sum
    ∧ result_flags s s' (accu_of s' d) (overflow56 sum) (flag (reg s DSP_REG_SR) DSP_SR_C)
    ∧ frame (DSP_REG_SR :: accu_regs d) s s'.
Proof.
  intros d sum. pose proof (dest_range s.(cur_inst)) as Hd. fold d in Hd.
  destruct (Hw d Hd) as (HA & _). apply wp_exists. pose proof (sr_not_accu d Hd) as Hsr.
  unfold dsp_mac. do 2 wp_step. apply wp_bind, wp_mpy_product; [done|]. intros a Ha Ea.
  cbv zeta. fold d. apply wp_bind, wp_get_accu; [done|].
  destruct (add_value56 a (accu_of s d) Ha HA) as [Hres Eres].
  pose proof (add_flags a (accu_of s d) Ha HA) as Ef. rewrite Ea, Z.add_comm in Ef. rewrite Ea in Eres.
  destruct (dsp_add56 a (accu_of s d)) as [newsr r]. cbn [fst snd] in *. rewrite Ef.
  apply wp_bind, wp_set_accu; [done|]. apply wp_bind, wp_ccr_update; [done|]. unfold set_sr_bits. wp_steps.
  reg_simpl. rewrite !upd_reg_twice, reg_upd_accu by done.
  match goal with |- data_wf ?x ∧ _ => set (s' := x) end.
  assert (accu_of s' d = r) as Es' by (unfold s'; by rewrite accu_of_upd_reg, accu_of_upd_accu by done).
  assert (frame (DSP_REG_SR :: accu_regs d) s s') as Hfr by (unfold s', upd_accu, accu_regs; frame_tac).
  rewrite Es'. split; [|split; [done|split; [|done]]].
  - eapply data_wf_frame; [exact Hd|exact Hw|exact Hfr|by rewrite Es'].
  - eapply result_flags_keep_c; [done|]. unfold s'. reg_simpl. done.
Qed.

(** C27: MAC adds twice the signed product of two 24 bit registers (the product of
    two fractions), or subtracts it when the instruction says so, to the 56 bit
    accumulator, wrapping around; V and L report the overflow, C is kept. *)
Theorem dsp_mac_correct (s : state) (Hw : data_wf s) :
  let d := dest_bit s.(cur_inst) in
  let sum := sval (accu_of s d) + mpy_value s s.(cur_inst) in
  ∃ s', dsp_mac s = Ok tt s'
    ∧ data_wf s' ∧ sval (accu_of s' d) = wrap56 sum
    ∧ result_flags s s' (accu_of s' d) (overflow56 sum) (flag (reg s DSP_REG_SR) DSP_SR_C)
    ∧ frame (DSP_REG_SR :: accu_regs d) s s'.
Proof. by apply mac_run. Qed.

(** ** Witnesses

    A = $7f:ffffff:000000, B = -1, X0 = 0.5, Y0 = -0.25. *)
Definition demo (inst : Z) : state :=
  s_cur_inst inst
    (upd_accu 0 (Accu 0x7f 0xffffff 0) (upd_accu 1 (Accu 0xff 0xffffff 0xffffff)
      (upd_reg DSP_REG_X0 0x400000 (upd_reg DSP_REG_Y0 0xe00000 zero_state)))).

Lemma demo_wf inst : data_wf (demo inst).
Proof.
  intros n Hn. assert (n = 0 ∨ n = 1) as [->| ->] by lia.
  all: split; [split; [|split]|split]; apply in_ub_spec; vm_compute; reflexivity.
Qed.

(** ADD X0,A overflows. *)
Lemma dsp_add_correct_witness :
  ∃ s', dsp_add (demo 0x200040) = Ok tt s' ∧ sval (accu_of s' 0) = - 0x7fc00001000000
    ∧ flag (reg s' DSP_REG_SR) DSP_SR_V = true.
Proof.
  destruct (dsp_add_correct (demo 0x200040) (demo_wf _)) as (s' & E & _ & Ev & (_ & EV & _) & _).
  { vm_compute. discriminate. }
  exists s'. split; [exact E|]. split; [exact Ev|]. rewrite EV. reflexivity.
Defined.

(** SUB B,A *)
Lemma dsp_sub_correct_witness :
  ∃ s', dsp_sub (demo 0x200014) = Ok tt s' ∧ sval (accu_of s' 0) = 0x7fffffff000001
    ∧ flag (reg s' DSP_REG_SR) DSP_SR_C = true.
Proof.
  destruct (dsp_sub_correct (demo 0x200014) (demo_wf _)) as (s' & E & _ & Ev & (EC & _) & _).
  { vm_compute. discriminate. }
  exists s'. split; [exact E|]. split; [exact Ev|]. rewrite EC. reflexivity.
Defined.

(** CMP Y0,A: A is greater, though as an unsigned number it is smaller. *)
Lemma cmp_branch_correct_witness :
  ∃ s', dsp_cmp (demo 0x200055) = Ok tt s' ∧ dsp_calc_cc 7 s' = Ok true s'
    ∧ dsp_calc_cc 8 s' = Ok true s'.
Proof.
  destruct (cmp_branch_correct (demo 0x200055) (demo_wf _))
    as (s' & E & _ & _ & _ & E7 & _ & _ & _ & _ & E8).
  { right. vm_compute. discriminate. }
  exists s'. split; [exact E|]. split; [exact E7|exact E8].
Defined.

(** MAC Y0,X0,B *)
Lemma dsp_mac_correct_witness :
  ∃ s', dsp_mac (demo 0x2000da) = Ok tt s' ∧ sval (accu_of s' 1) = -1 - 2 ^ 44.
Proof.
  destruct (dsp_mac_correct (demo 0x2000da) (demo_wf _)) as (s' & E & _ & Ev & _).
  exists s'. split; [exact E|exact Ev].
Defined.
