(* ===== verification/MoveSpec.v ===== *)
(** * Reading an accumulator through the limiter

    A move of A or B to a 24 bit destination goes through the limiter: the word it
    gives in each scaling mode, and the saturation it amounts to without scaling. *)

From S2P Require Import Prelude DspState HostPort Memory Arith56 Ccr Alu Agu ParMove Wp CcrSpec AluSpec.

(** The value a 24 bit bus carries for an accumulator. *)
Definition saturate24 (x : Z) : Z := Z.max (- 2 ^ 23) (Z.min (2 ^ 23 - 1) x).

Lemma accu24_fits_spec sr d :
  wf56 d → scaling sr ≠ 3 → accu24_fits sr d.(w0) d.(w1) = negb (extended sr d).
Proof.
  intros Hd Hsc. unfold accu24_fits, extended, sign_pos. fold (scaling sr). rewrite negb_involutive.
  pose proof (scaling_range sr).
  destruct (Z.eqb_spec (scaling sr) 0) as [E|].
  { rewrite E. cbn [Z.eqb]. rewrite top_bits_9, <- fits_top by (done || lia).
    by change (BITMASK 9) with (2 ^ (56 - 47) - 1). }
  destruct (Z.eqb_spec (scaling sr) 2) as [E|].
  { rewrite E. change (2 =? 1) with false. change (2 =? 2) with true. cbv iota.
    rewrite top_bits_10, <- fits_top by (done || lia). by change (BITMASK 10) with (2 ^ (56 - 46) - 1). }
  assert (scaling sr = 1) as E by lia. rewrite E. change (1 =? 1) with true. cbv iota.
  rewrite top_bits_8, <- fits_top by (done || lia). by change (BITMASK 8) with (2 ^ (56 - 48) - 1).
Qed.

(** The limited value and the state after a read. *)
Definition limited_word (sr : Z) (d : accu) : Z :=
  if extended sr d then if sval d <? 0 then 0x800000 else 0x7fffff else d.(w1).
Definition limit_state (limited : bool) (s : state) : state :=
  if limited then upd_reg DSP_REG_SR (reg s DSP_REG_SR .| (1 ≪ DSP_SR_L)) s else s.

Lemma read_accu24_run numreg s :
  let d := accu_of s (numreg .& 1) in
  let sr := reg s DSP_REG_SR in
  wf56 d → scaling sr ≠ 3 →
  dsp_pm_read_accu24 numreg no_dest s
  = Ok (extended sr d, limited_word sr d) (limit_state (extended sr d) s).
Proof.
  intros d sr Hd Hsc. pose proof (in_u_land_mask 1 numreg ltac:(lia)) as Hn.
  change (BITMASK 1) with 1 in Hn. unfold in_u in Hn. pow2. apply wp_eq.
  unfold dsp_pm_read_accu24, no_dest. do 6 wp_step. cbv beta zeta. fold sr.
  pose proof (accu24_fits_spec sr d Hd Hsc) as Hf. cbn [w0 w1 d accu_of] in Hf. rewrite Hf.
  pose proof (sign_test56 d Hd) as Hs. cbn [w0 d accu_of] in Hs. rewrite Hs.
  pose proof (uval_range d Hd) as Hu. unfold limited_word, limit_state. rewrite (sval_cases d Hd).
  destruct (extended sr d); cbn [negb]; [|wp_steps; done].
  destruct (Z.leb_spec (2 ^ 55) (uval d)).
  - wp_steps. split; [|done]. f_equal. destruct (Z.ltb_spec (uval d - 2 ^ 56) 0); [done|lia].
  - wp_steps. split; [|done]. f_equal. destruct (Z.ltb_spec (uval d) 0); [lia|done].
Qed.

Lemma limited_word_saturates sr d :
  wf56 d → scaling sr = 0 → signed 24 (limited_word sr d) = saturate24 (sval d / 2 ^ 24).
Proof.
  intros Hd Hsc. unfold limited_word, extended, sign_pos. rewrite Hsc. change (0 =? 1) with false.
  change (0 =? 2) with false. cbv iota. pose proof (sval_range d Hd) as Hr.
  assert (-2 ^ 47 <= sval d < 2 ^ 47 → signed 24 d.(w1) = sval d / 2 ^ 24) as Hin.
  { rewrite signed24_cases by apply Hd. rewrite sval_cases by done.
    destruct Hd as (H0 & H1 & H2). unfold uval, in_u in *. pow2.
    match goal with |- context [36028797018963968 <=? ?x] => destruct (Z.leb_spec 36028797018963968 x) end.
    all: intros Hb; destruct (Z.leb_spec 8388608 d.(w1)); Z.div_mod_to_equations; lia. }
  unfold saturate24. pow2.
  destruct (Z.leb_spec (Z.opp 140737488355328) (sval d)), (Z.ltb_spec (sval d) 140737488355328);
    cbn [negb andb].
  - rewrite Hin by lia. Z.div_mod_to_equations. lia.
  - destruct (Z.ltb_spec (sval d) 0); [lia|]. change (signed 24 8388607) with 8388607.
    Z.div_mod_to_equations. lia.
  - destruct (Z.ltb_spec (sval d) 0); [|lia]. change (signed 24 8388608) with (- 8388608).
    Z.div_mod_to_equations. lia.
  - lia.
Qed.

(** Reading accumulator A or B as a 24 bit word (moves, MOVEM, MOVEP, MOVEC and
    DO/REP counts) gives its upper part saturated to the 24 bit range when no scaling
    is selected: a value outside [-1, 1) is replaced by the nearest representable
    fraction.  L is set exactly when this happens, and nothing else changes. *)
Lemma read_accu24_saturates (numreg : Z) (s : state)
    (Hd : wf56 (accu_of s (numreg .& 1))) (Hsc : scaling (reg s DSP_REG_SR) = 0) :
  let x := sval (accu_of s (numreg .& 1)) / 2 ^ 24 in
  ∃ limited value s', dsp_pm_read_accu24 numreg no_dest s = Ok (limited, value) s'
    ∧ signed 24 value = saturate24 x
    ∧ limited = negb (saturate24 x =? x)
    ∧ s' = (if limited then upd_reg DSP_REG_SR (reg s DSP_REG_SR .| (1 ≪ DSP_SR_L)) s else s).
Proof.
  intros x. set (d := accu_of s (numreg .& 1)) in *. set (sr := reg s DSP_REG_SR) in *.
  exists (extended sr d), (limited_word sr d), (limit_state (extended sr d) s).
  split; [apply read_accu24_run; [done|fold sr; lia]|].
  split; [by apply limited_word_saturates|]. split; [|done].
  unfold extended, sign_pos, saturate24. rewrite Hsc. change (0 =? 1) with false.
  change (0 =? 2) with false. cbv iota. f_equal. unfold x. pow2. Z.div_mod_to_equations. lia.
Qed.

(** A = $7f:ffffff:000000 is read as the largest fraction. *)
Lemma read_accu24_saturates_witness :
  ∃ s', dsp_pm_read_accu24 DSP_REG_A no_dest (demo 0) = Ok (true, 0x7fffff) s'.
Proof.
  destruct (read_accu24_saturates DSP_REG_A (demo 0)) as (l & v & s' & E & Ev & El & _).
  - apply (demo_wf 0 0). lia.
  - reflexivity.
  - exists s'. rewrite E. f_equal. vm_compute in E. injection E as <- <- _. reflexivity.
Defined.
