(* ===== verification/AguSpec.v ===== *)
(** * What address register updates compute

    Linear updates wrap around at 16 bits, modulo updates stay in a circular
    buffer, bit-reversed updates walk through a block in the order of an FFT. *)

From S2P Require Import Prelude DspState HostPort Memory Agu Wp.

(** Bit reversal of the low [k] bits. *)
Fixpoint brev (k : nat) (x : Z) : Z :=
  match k with
  | O => 0
  | S k => (x mod 2) * 2 ^ Z.of_nat k + brev k (x / 2)
  end.

(** The first address of the block of [2 ^ k] words that holds [r]. *)
Definition block_base (k r : Z) : Z := r - r mod 2 ^ k.

(** The buffer of a modulo register: the smallest block that holds [m] words. *)
Definition block_bits (m : Z) : Z := Z.log2_up m.

(** [n_reg] has its lowest set bit at position [j]. *)
Definition lowest_bit (n_reg j : Z) : Prop :=
  0 <= j < 16 ∧ Z.testbit n_reg j = true ∧ ∀ l, 0 <= l < j → Z.testbit n_reg l = false.

(** ** Bit reversal *)

Lemma brev_range k : ∀ x, 0 <= brev k x < 2 ^ Z.of_nat k.
Proof.
  induction k as [|k IH]; intros x; [done|]. cbn [brev]. specialize (IH (x / 2)).
  rewrite Nat2Z.inj_succ, Z.pow_succ_r by lia.
  pose proof (Z.mod_pos_bound x 2). nia.
Qed.

Lemma testbit_brev k : ∀ x j, 0 <= j →
  Z.testbit (brev k x) j = (j <? Z.of_nat k) && Z.testbit x (Z.of_nat k - 1 - j).
Proof.
  induction k as [|k IH]; intros x j Hj; cbn [brev].
  - rewrite Z.bits_0. destruct (Z.ltb_spec j (Z.of_nat 0)); [lia|done].
  - pose proof (brev_range k (x / 2)) as Hr.
    rewrite <- (lor_add _ _ (Z.of_nat k)) by (lia || apply Z_mod_mult).
    rewrite Z.lor_spec, <- Z.shiftl_mul_pow2, Z.shiftl_spec, IH by lia.
    rewrite Nat2Z.inj_succ.
    destruct (Z.ltb_spec j (Z.of_nat k)), (Z.ltb_spec j (Z.succ (Z.of_nat k))); try lia.
    + rewrite (Z.testbit_neg_r (x mod 2)) by lia. cbn.
      change 2 with (2 ^ 1). rewrite Z.div_pow2_bits by lia. f_equal. lia.
    + assert (j = Z.of_nat k) as -> by lia. cbn. rewrite orb_false_r, Z.sub_diag.
      replace (Z.succ (Z.of_nat k) - 1 - Z.of_nat k) with 0 by lia.
      change 2 with (2 ^ 1). by rewrite Z.mod_pow2_bits_low by lia.
    + cbn. rewrite orb_false_r. rewrite <- (Z.mod_small (x mod 2) (2 ^ 1))
        by (apply Z.mod_pos_bound; lia). apply Z.mod_pow2_bits_high. lia.
Qed.

Lemma brev_mod k x : brev k (x mod 2 ^ Z.of_nat k) = brev k x.
Proof.
  apply Z.bits_inj'. intros j Hj. rewrite !testbit_brev by done.
  destruct (Z.ltb_spec j (Z.of_nat k)); [|done]. cbn.
  rewrite Z.mod_pow2_bits_low by lia. done.
Qed.

(** Bit reversal undoes itself. *)
Lemma brev_brev k x : brev k (brev k x) = x mod 2 ^ Z.of_nat k.
Proof.
  apply Z.bits_inj'. intros j Hj. rewrite testbit_brev by done.
  destruct (Z.ltb_spec j (Z.of_nat k)); cbn.
  - rewrite testbit_brev by lia. destruct (Z.ltb_spec (Z.of_nat k - 1 - j) (Z.of_nat k)); [|lia]. cbn.
    rewrite Z.mod_pow2_bits_low by lia. f_equal. lia.
  - by rewrite Z.mod_pow2_bits_high by lia.
Qed.

(** The reversal loop of the code, on a value whose low bits are clear. *)
Lemma testbit_reverse_bits n : ∀ i revbits r value j,
  0 <= i → i + Z.of_nat n <= revbits → 0 <= j →
  Z.testbit (reverse_bits n i revbits r value) j =
    Z.testbit value j || ((revbits - i - Z.of_nat n <=? j) && (j <? revbits - i) && Z.testbit r (revbits - 1 - j)).
Proof.
  induction n as [|n IH]; intros i revbits r value j Hi Hn Hj; cbn [reverse_bits].
  - destruct (Z.leb_spec (revbits - i - Z.of_nat 0) j), (Z.ltb_spec j (revbits - i)); try lia;
      by rewrite orb_false_r.
  - rewrite IH by lia. rewrite nz_land_bit by done.
    assert (Z.testbit (if Z.testbit r i then value .| (1 ≪ (revbits - i - 1)) else value) j
            = Z.testbit value j || ((j =? revbits - i - 1) && Z.testbit r i)) as ->.
    { destruct (Z.testbit r i); [|by rewrite andb_false_r, orb_false_r].
      rewrite Z.lor_spec, Z.shiftl_1_l, andb_true_r. f_equal.
      rewrite Z.pow2_bits_eqb by lia. lia. }
    rewrite <- orb_assoc. f_equal. rewrite Nat2Z.inj_succ.
    destruct (Z.eqb_spec j (revbits - i - 1)) as [->|].
    + replace (revbits - 1 - (revbits - i - 1)) with i by lia.
      rewrite (proj2 (Z.ltb_lt (revbits - i - 1) (revbits - i))) by lia.
      rewrite (proj2 (Z.ltb_ge (revbits - i - 1) (revbits - (i + 1)))) by lia.
      rewrite (proj2 (Z.leb_le (revbits - i - Z.succ (Z.of_nat n)) (revbits - i - 1))) by lia.
      rewrite andb_false_r. by destruct (Z.testbit r i).
    + replace (j <? revbits - (i + 1)) with (j <? revbits - i) by lia.
      replace (revbits - (i + 1) - Z.of_nat n) with (revbits - i - Z.succ (Z.of_nat n)) by lia. done.
Qed.

Lemma reverse_bits_brev k r b :
  b mod 2 ^ Z.of_nat k = 0 → reverse_bits k 0 (Z.of_nat k) r b = b + brev k r.
Proof.
  intros Hb. rewrite <- (lor_add b (brev k r) (Z.of_nat k)) by (lia || apply brev_range || done).
  apply Z.bits_inj'. intros j Hj.
  rewrite testbit_reverse_bits, Z.lor_spec, testbit_brev by lia. f_equal.
  rewrite (proj2 (Z.leb_le _ j)) by lia. by rewrite Z.sub_0_r.
Qed.

Lemma block_base_mod k r : 0 <= k → block_base k r mod 2 ^ k = 0.
Proof.
  intros. unfold block_base. rewrite Zminus_mod, Zmod_mod, Z.sub_diag. apply Z.mod_0_l.
  by apply Z.pow_nonzero.
Qed.

Lemma block_base_add k b x :
  b mod 2 ^ k = 0 → 0 <= x < 2 ^ k → block_base k (b + x) = b.
Proof.
  intros Hb Hx. unfold block_base. rewrite Zplus_mod, Hb, Z.add_0_l, Zmod_mod, Z.mod_small by done. lia.
Qed.

Lemma land_keep k r : 0 <= k <= 16 → in_u 16 r → r .& u32 (BITMASK 16 - BITMASK k) = block_base k r.
Proof.
  intros Hk Hr. pose proof (pow2_range k Hk).
  assert (u32 (BITMASK 16 - BITMASK k) = 2 ^ 16 - 2 ^ k) as ->.
  { unfold BITMASK. rewrite !Z.shiftl_1_l. change (2 ^ 16) with 65536.
    rewrite u32_small by lia. lia. }
  rewrite (land_hi _ _ k 16) by lia. unfold block_base.
  assert (r / 2 ^ k < 2 ^ (16 - k)).
  { apply Z.div_lt_upper_bound; [lia|]. rewrite <- Z.pow_add_r by lia.
    replace (k + (16 - k)) with 16 by lia. apply Hr. }
  rewrite (Z.mod_small (r / 2 ^ k)) by (split; [apply Z.div_pos; [apply Hr|lia]|done]).
  pose proof (Z.div_mod r (2 ^ k) ltac:(lia)). lia.
Qed.

Lemma block_base_range k r : 0 <= k <= 16 → in_u 16 r → 0 <= block_base k r <= 65536 - 2 ^ k.
Proof.
  intros Hk Hr. pose proof (pow2_range k Hk). destruct Hr as [H0 H1].
  assert (r / 2 ^ k < 2 ^ (16 - k)) as Hq.
  { apply Z.div_lt_upper_bound; [lia|]. rewrite <- Z.pow_add_r by lia.
    by replace (k + (16 - k)) with 16 by lia. }
  assert (2 ^ (16 - k) * 2 ^ k = 65536)
    by (rewrite <- Z.pow_add_r by lia; by replace (16 - k + k) with 16 by lia).
  pose proof (Z.div_pos r (2 ^ k) H0 ltac:(lia)). unfold block_base.
  pose proof (Z.div_mod r (2 ^ k) ltac:(lia)). nia.
Qed.

(** The number of bits to reverse: one more than the position of the lowest set bit. *)
Lemma first_set_bit_pow2 fuel : ∀ i j v,
  0 <= i <= j → j < i + Z.of_nat fuel → (∀ l, i <= l < j → Z.testbit v l = false) →
  Z.testbit v j = true → first_set_bit fuel i v = j.
Proof.
  induction fuel as [|fuel IH]; intros i j v Hi Hj Hlow Hb; [lia|]. cbn [first_set_bit].
  rewrite nz_land_bit by lia. destruct (decide (i = j)) as [->|]; [by rewrite Hb|].
  rewrite Hlow by lia. apply IH; [lia|lia| |done]. intros l Hl. apply Hlow. lia.
Qed.

Lemma bitreverse_step_spec n_reg r j :
  lowest_bit n_reg j → in_u 16 r →
  let k := Z.to_nat (j + 1) in
  bitreverse_step n_reg r = block_base (j + 1) r + brev k (brev k r + 1).
Proof.
  intros (Hj & Hb & Hlow) Hr k. unfold bitreverse_step.
  rewrite (first_set_bit_pow2 16 0 j) by (done || lia). cbv zeta. fold k.
  assert (Z.of_nat k = j + 1) as Ek by (unfold k; lia). rewrite <- Ek.
  pose proof (pow2_range (Z.of_nat k) ltac:(lia)) as Hp.
  pose proof (block_base_mod (Z.of_nat k) r ltac:(lia)) as Hbm.
  pose proof (brev_range k r) as Hbr.
  pose proof (block_base_range (Z.of_nat k) r ltac:(lia) Hr) as Hbb.
  rewrite (land_keep _ r), (reverse_bits_brev k r (block_base _ r)) by (done || lia).
  rewrite u32_small, land_BITMASK by lia.
  assert ((block_base (Z.of_nat k) r + brev k r + 1) mod 2 ^ Z.of_nat k
          = (brev k r + 1) mod 2 ^ Z.of_nat k) as ->.
  { rewrite <- Z.add_assoc, Zplus_mod, Hbm, Z.add_0_l, Zmod_mod. done. }
  set (v := (brev k r + 1) mod 2 ^ Z.of_nat k).
  assert (0 <= v < 2 ^ Z.of_nat k) as Hv by (apply Z.mod_pos_bound; lia).
  rewrite (lor_add _ v (Z.of_nat k)) by (done || lia).
  assert (in_u 16 (block_base (Z.of_nat k) r + v)) as Hr2 by (unfold in_u; change (2 ^ 16) with 65536; lia).
  rewrite land_keep, block_base_add, reverse_bits_brev by (done || lia).
  f_equal. rewrite <- (brev_mod k (block_base _ _ + v)), Zplus_mod, Hbm, Z.add_0_l, Zmod_mod.
  rewrite (Z.mod_small v) by done. unfold v. apply brev_mod.
Qed.

(** ** Modulo updates *)

Lemma log2_bufsize m k : 2 <= m → 0 <= k → m <= 2 ^ k → (k = 0 ∨ 2 ^ (k - 1) < m) → k = block_bits m.
Proof.
  intros Hm Hk Hle Hlt. destruct Hlt as [->|Hlt]; [change (2 ^ 0) with 1 in Hle; lia|].
  unfold block_bits. symmetry. apply Z.log2_up_unique; [|by rewrite <- Z.sub_1_r].
  destruct (decide (k = 0)) as [->|]; [change (2 ^ 0) with 1 in Hle; lia|lia].
Qed.

(** A modulo update inside the lower half of the address space. *)
Lemma modulo_step_spec m_reg r n :
  let m := m_reg + 1 in
  let lo := block_base (block_bits m) r in
  1 <= m_reg <= 32767 → in_u 16 r → r - lo < m → lo + 2 * m <= 32768 → - m <= n < m →
  modulo_step m_reg r n = Some (lo + (r - lo + n) mod m).
Proof.
  intros m lo Hm Hr Hoff Hlo Hn. unfold modulo_step.
  assert (u16 (m_reg + 1) = m) as -> by (apply u16_small; lia).
  destruct (modulo_bufsize_spec 16 m 0) as (k & Ek & Hk & Hle & Hlt); [lia..|].
  change (2 ^ 0) with 1 in Ek. change (65536 - 1) with (BITMASK 16) in Ek. rewrite Ek.
  assert (k = block_bits m) as Ekb by (apply log2_bufsize; [lia..|done|naive_solver]).
  cbn [mbind option_bind].
  assert (r .& (65536 - 2 ^ k) = lo) as ->.
  { unfold lo. rewrite <- Ekb, <- land_keep by (done || lia). f_equal. unfold BITMASK. rewrite !Z.shiftl_1_l. change (2 ^ 16) with 65536.
    pose proof (pow2_range k ltac:(lia)). rewrite u32_small by lia. lia. }
  pose proof (block_base_range k r ltac:(lia) Hr) as Hb. rewrite Ekb in Hb. fold lo in Hb.
  assert (lo <= r) as Hlr.
  { unfold lo, block_base. pose proof (Z.mod_pos_bound r (2 ^ block_bits m)) as Hmp.
    pose proof (pow2_range (block_bits m) ltac:(lia)). lia. }
  rewrite (u16_small lo), (u16_small (lo + m - 1)), (s16_small r) by lia.
  rewrite (proj2 (Z.ltb_ge m n)) by lia. cbn [mbind option_bind].
  rewrite (s16_small (r + n)) by lia. rewrite (proj2 (Z.eqb_neq n m)) by lia. cbn [negb]. f_equal.
  assert (∀ x, 0 <= x < 32768 → u32 x .& BITMASK 16 = x) as Hmask.
  { intros x Hx. rewrite land_BITMASK, u32_small by lia. apply Z.mod_small. change (2 ^ 16) with 65536. lia. }
  destruct (Z.ltb_spec (lo + m - 1) (r + n)).
  { rewrite s16_small, Hmask by lia.
    rewrite <- (Z.mod_unique_pos (r - lo + n) m 1 (r - lo + n - m)) by lia. lia. }
  destruct (Z.ltb_spec (r + n) lo).
  { rewrite s16_small, Hmask by lia.
    rewrite <- (Z.mod_unique_pos (r - lo + n) m (-1) (r - lo + n + m)) by lia. lia. }
  rewrite Hmask, Z.mod_small by lia. lia.
Qed.

(** ** Runs of an address register update *)

Lemma s16_u16 x : s16 x mod 65536 = u16 x.
Proof. apply s16_mod. Qed.

Lemma update_rn_linear numreg n s :
  0 <= numreg < 8 → u16 (reg s (DSP_REG_M0 + numreg)) = 65535 →
  dsp_update_rn numreg n s
  = Ok tt (upd_reg (DSP_REG_R0 + numreg) (u16 (reg s (DSP_REG_R0 + numreg) + n)) s).
Proof.
  intros Hn Hm. apply wp_eq. unfold dsp_update_rn. do 2 wp_step. cbv zeta. rewrite Hm. cbn.
  wp_steps. split; [done|]. f_equal. rewrite land_BITMASK by lia. change (2 ^ 16) with 65536.
  unfold u32, u16. set (r := reg s (DSP_REG_R0 + numreg)).
  rewrite Z.mod_mod_divide by (exists 65536; done).
  rewrite s16_mod, Zplus_mod, !s16_mod, <- Zplus_mod. done.
Qed.

Lemma update_rn_modulo numreg n s :
  let m_reg := reg s (DSP_REG_M0 + numreg) in
  let r := reg s (DSP_REG_R0 + numreg) in
  let m := m_reg + 1 in
  let lo := block_base (block_bits m) r in
  0 <= numreg < 8 → 1 <= m_reg <= 32767 → in_u 16 r → r - lo < m → lo + 2 * m <= 32768 → - m <= n < m →
  dsp_update_rn numreg n s
  = Ok tt (upd_reg (DSP_REG_R0 + numreg) (lo + (r - lo + n) mod m) s).
Proof.
  intros m_reg r m lo Hnr Hm Hr Hoff Hlo Hn. apply wp_eq. unfold dsp_update_rn. do 2 wp_step. cbv zeta.
  fold m_reg. rewrite (u16_small m_reg), (s16_small n) by lia.
  rewrite (proj2 (Z.eqb_neq m_reg 0)), (proj2 (Z.leb_le 1 m_reg)), (proj2 (Z.leb_le m_reg 32767)) by lia.
  cbn [andb]. unfold dsp_update_rn_modulo. wp_steps. fold m_reg r.
  rewrite modulo_step_spec by done. by wp_steps.
Qed.

Lemma update_rn_bitreverse numreg n s j :
  let r := reg s (DSP_REG_R0 + numreg) in
  let k := Z.to_nat (j + 1) in
  0 <= numreg < 8 → u16 (reg s (DSP_REG_M0 + numreg)) = 0 →
  lowest_bit (reg s (DSP_REG_N0 + numreg)) j → in_u 16 r →
  dsp_update_rn numreg n s
  = Ok tt (upd_reg (DSP_REG_R0 + numreg) (block_base (j + 1) r + brev k (brev k r + 1)) s).
Proof.
  intros r k Hnr Hm Hj Hr. apply wp_eq. unfold dsp_update_rn. do 2 wp_step. cbv zeta. rewrite Hm. cbn [Z.eqb].
  unfold dsp_update_rn_bitreverse. wp_steps. by rewrite (bitreverse_step_spec _ _ j).
Qed.

(** In bit-reversed mode (Mn = 0) repeated updates of Rn from the start of a
    block of [2 ^ (j + 1)] words, with [j] the position of the lowest set bit of Nn,
    visit the block in bit-reversed order: after [i] updates Rn is the base plus the
    reversal of [i] in [j + 1] bits.  Only Rn changes. *)
Lemma bitreverse_walk (numreg n j : Z) (i : nat) (s : state)
    (Hn : 0 <= numreg < 8) (Hm : u16 (reg s (DSP_REG_M0 + numreg)) = 0)
    (Hj : lowest_bit (reg s (DSP_REG_N0 + numreg)) j)
    (Hr : in_u 16 (reg s (DSP_REG_R0 + numreg)))
    (Hb : reg s (DSP_REG_R0 + numreg) mod 2 ^ (j + 1) = 0) :
  ∃ s', for_loop i 0 (λ _ _, dsp_update_rn numreg n) tt s = Ok tt s'
    ∧ reg s' (DSP_REG_R0 + numreg) = reg s (DSP_REG_R0 + numreg) + brev (Z.to_nat (j + 1)) (Z.of_nat i)
    ∧ frame [DSP_REG_R0 + numreg] s s'.
Proof.
  set (base := reg s (DSP_REG_R0 + numreg)) in *. set (k := Z.to_nat (j + 1)).
  assert (Z.of_nat k = j + 1) as Ek by (destruct Hj; lia).
  destruct (for_loop_walk (dsp_update_rn numreg n) (λ i s',
    reg s' (DSP_REG_R0 + numreg) = base + brev k (Z.of_nat i) ∧ frame [DSP_REG_R0 + numreg] s s')
    ) with (n := i) (i := O) (j := 0) (s := s) as (s' & E & H).
  - intros l s1 (E1 & Hf). pose proof (brev_range k (Z.of_nat l)) as Hbr. rewrite Ek in Hbr.
    destruct Hf as [Hreg Hs].
    assert (block_base (j + 1) base = base) as Ebase by (unfold block_base; lia).
    pose proof (block_base_range (j + 1) base ltac:(destruct Hj; lia) Hr) as Hbb. rewrite Ebase in Hbb.
    rewrite (update_rn_bitreverse numreg n s1 j).
    + eexists. split; [done|]. split; [|apply frame_upd; [set_solver|by split]].
      reg_simpl. rewrite E1, block_base_add by done. fold k. f_equal.
      rewrite <- (brev_mod k (base + _)), Ek, Zplus_mod, Hb, Z.add_0_l, Zmod_mod, <- Ek, brev_mod, brev_brev.
      rewrite <- brev_mod, Zplus_mod_idemp_l, brev_mod. f_equal. lia.
    + done.
    + rewrite Hreg; [done|]. rewrite elem_of_cons, elem_of_nil. lia.
    + rewrite Hreg; [done|]. rewrite elem_of_cons, elem_of_nil. lia.
    + rewrite E1. unfold in_u. change (2 ^ 16) with 65536. lia.
  - split; [|apply frame_refl]. change (Z.of_nat 0) with 0.
    assert (brev k 0 = 0) as -> by (apply Z.bits_inj'; intros; by rewrite testbit_brev, !Z.bits_0, andb_false_r).
    lia.
  - exists s'. rewrite Nat.add_0_r in H. done.
Qed.

(** C29: in modulo mode with m words (Mn = m - 1), 2 <= m, for a buffer at [lo] that lies,
    with one more length m above it, in the lower half of the address space
    (lo + 2 m <= 32768), and an Rn inside it: repeated updates of Rn by a step n with
    -m <= n < m walk around the circular buffer that starts at the block boundary below Rn;
    after [i] updates Rn is the base plus the offset plus [i] steps, modulo m.  In the upper
    half of the address space the code leaves the buffer ([modulo_high_address]). *)
Theorem modulo_walk (numreg n : Z) (i : nat) (s : state)
    (Hn : 0 <= numreg < 8)
    (Hm : 1 <= reg s (DSP_REG_M0 + numreg) <= 32767)
    (Hr : in_u 16 (reg s (DSP_REG_R0 + numreg))) :
  let r := reg s (DSP_REG_R0 + numreg) in
  let m := reg s (DSP_REG_M0 + numreg) + 1 in
  let lo := block_base (block_bits m) r in
  r - lo < m → lo + 2 * m <= 32768 → - m <= n < m →
  ∃ s', for_loop i 0 (λ _ _, dsp_update_rn numreg n) tt s = Ok tt s'
    ∧ reg s' (DSP_REG_R0 + numreg) = lo + (r - lo + Z.of_nat i * n) mod m
    ∧ frame [DSP_REG_R0 + numreg] s s'.
Proof.
  intros r m lo Hoff Hlo Hnm.
  assert (m <= 2 ^ block_bits m) as Hpm by (apply (Z.log2_up_spec m); lia).
  assert (0 <= block_bits m) as Hk0 by apply Z.log2_up_nonneg.
  assert (lo mod 2 ^ block_bits m = 0) as Hlm by (by apply block_base_mod).
  assert (0 <= r - lo) as Hrl by (unfold lo, block_base; pose proof (Z.mod_pos_bound r (2 ^ block_bits m)); lia).
  assert (0 <= lo) as Hlo0.
  { unfold lo, block_base. pose proof (Z.mod_le r (2 ^ block_bits m) (proj1 Hr)). lia. }
  destruct (for_loop_walk (dsp_update_rn numreg n) (λ i s',
    reg s' (DSP_REG_R0 + numreg) = lo + (r - lo + Z.of_nat i * n) mod m
    ∧ frame [DSP_REG_R0 + numreg] s s')) with (n := i) (i := O) (j := 0) (s := s) as (s' & E & H).
  - intros l s1 (E1 & Hreg & Hs). set (off := (r - lo + Z.of_nat l * n) mod m) in *.
    assert (0 <= off < m) as Hof by (apply Z.mod_pos_bound; lia).
    assert (reg s1 (DSP_REG_M0 + numreg) + 1 = m) as Em.
    { rewrite Hreg; [done|]. rewrite elem_of_cons, elem_of_nil. lia. }
    assert (block_base (block_bits m) (lo + off) = lo) as Eb by (apply block_base_add; [done|lia]).
    rewrite update_rn_modulo; rewrite ?Em, ?E1, ?Eb; [|unfold in_u; change (2 ^ 16) with 65536; lia..].
    eexists. split; [done|]. split; [|apply frame_upd; [set_solver|by split]]. reg_simpl. f_equal.
    replace (lo + off - lo + n) with (off + n) by lia. unfold off. rewrite Zplus_mod_idemp_l. f_equal. lia.
  - split; [|apply frame_refl]. rewrite Z.mul_0_l, Z.add_0_r, Z.mod_small by lia. fold r. lia.
  - exists s'. rewrite Nat.add_0_r in H. done.
Qed.

(** In linear mode (Mn = 0xffff) an update adds the step to Rn modulo 2^16. *)
Lemma linear_update (numreg n : Z) (s : state) (Hn : 0 <= numreg < 8)
    (Hm : u16 (reg s (DSP_REG_M0 + numreg)) = 65535) :
  dsp_update_rn numreg n s
  = Ok tt (upd_reg (DSP_REG_R0 + numreg) ((reg s (DSP_REG_R0 + numreg) + n) mod 2 ^ 16) s).
Proof. by apply update_rn_linear. Qed.

(** ** Witnesses: R0 bit-reversed in a block of 16 words, R1 in a circular buffer of
    5 words, R2 linear. *)

Definition agu_demo : state :=
  upd_reg DSP_REG_N0 8 (upd_reg DSP_REG_R0 0x100
    (upd_reg (DSP_REG_R0 + 1) 0x20 (upd_reg (DSP_REG_M0 + 1) 4
      (upd_reg (DSP_REG_R0 + 2) 0xffff (upd_reg (DSP_REG_M0 + 2) 0xffff zero_state))))).

Lemma bitreverse_walk_witness :
  ∃ s', for_loop 3 0 (λ _ _, dsp_update_rn 0 8) tt agu_demo = Ok tt s'
    ∧ reg s' DSP_REG_R0 = 0x10c.
Proof.
  assert (lowest_bit (reg agu_demo (DSP_REG_N0 + 0)) 3) as Hj.
  { split; [lia|]. split; [reflexivity|]. intros l Hl.
    assert (l = 0 ∨ l = 1 ∨ l = 2) as [->|[->| ->]] by lia; reflexivity. }
  destruct (bitreverse_walk 0 8 3 3 agu_demo) as (s' & E & Er & _);
    [lia|reflexivity|exact Hj|apply in_ub_spec; reflexivity|reflexivity|].
  exists s'. split; [exact E|exact Er].
Defined.

Lemma modulo_walk_witness :
  ∃ s', for_loop 4 0 (λ _ _, dsp_update_rn 1 3) tt agu_demo = Ok tt s'
    ∧ reg s' (DSP_REG_R0 + 1) = 0x22.
Proof.
  destruct (modulo_walk 1 3 4 agu_demo) as (s' & E & Er & _);
    [lia|vm_compute; split; discriminate|apply in_ub_spec; reflexivity|reflexivity
    |vm_compute; discriminate|split; [vm_compute; discriminate|reflexivity]|].
  exists s'. split; [exact E|exact Er].
Defined.

Lemma linear_update_witness :
  dsp_update_rn 2 2 agu_demo = Ok tt (upd_reg (DSP_REG_R0 + 2) 1 agu_demo).
Proof. exact (linear_update 2 2 agu_demo ltac:(lia) eq_refl). Defined.

(** In the upper half of the address space the comparison with the bounds mixes a signed
    16 bit address with unsigned bounds: a step of 1 inside a buffer of 16 words at
    $8000 leaves the buffer. *)
Example modulo_high_address :
  modulo_step 15 0x0010 1 = Some 0x0011 ∧ modulo_step 15 0x8000 1 = Some 0x8011.
Proof. split; vm_compute; reflexivity. Qed.

(** C30: the loops of address generation end.  For every modifier register, address and step, an
    address register update returns, within the number of iterations the definitions allow,
    and changes no other register. *)
Theorem rn_update_terminates (numreg modifier : Z) (s : state) (Hn : 0 <= numreg < 8) :
  ∃ s', dsp_update_rn numreg modifier s = Ok tt s' ∧ frame [DSP_REG_R0 + numreg] s s'.
Proof.
  assert (∀ r, ∃ s', set_reg (DSP_REG_R0 + numreg) r s = Ok tt s' ∧ frame [DSP_REG_R0 + numreg] s s') as Hset.
  { intros r. exists (upd_reg (DSP_REG_R0 + numreg) r s). split; [|frame_tac]. apply wp_eq. by wp_steps. }
  unfold dsp_update_rn. unfold mbind at 1, M_bind at 1. rewrite get_reg_run by lia. cbv beta iota.
  destruct (_ =? 0).
  { unfold dsp_update_rn_bitreverse, mbind, M_bind. rewrite !get_reg_run by lia. apply Hset. }
  destruct (_ && _) eqn:Hm.
  - unfold dsp_update_rn_modulo, mbind, M_bind. rewrite !get_reg_run by lia. apply andb_prop in Hm as [H1%Z.leb_le H2%Z.leb_le].
    destruct (modulo_step_total (reg s (DSP_REG_M0 + numreg)) (reg s (DSP_REG_R0 + numreg)) (s16 modifier)) as (r & -> & _).
    + by apply modulo_range.
    + apply s16_range.
    + apply Hset.
  - destruct (_ =? 65535); [|exists s; split; [done|apply frame_refl]].
    unfold mbind, M_bind. rewrite get_reg_run by lia. apply Hset.
Qed.

Lemma rn_update_terminates_witness :
  ∃ s', dsp_update_rn 2 (-7) agu_demo = Ok tt s' ∧ frame [DSP_REG_R0 + 2] agu_demo s'.
Proof. apply (rn_update_terminates 2 (-7) agu_demo). lia. Defined.
