(* ===== verification/MemSpec.v ===== *)
(** * What the memory and the stack promise

    The three address spaces are views of one set of physical cells: [locate]
    says which cell an address names, and the read and write functions refine a
    store of cells.  The system stack refines a list. *)

From S2P Require Import Prelude DspState HostPort Memory Wp.

(** ** Physical cells *)

Inductive loc :=
  | LInt (space a : Z)   (* internal RAM *)
  | LRom (space a : Z)   (* data ROM *)
  | LRam (a : Z).        (* external RAM, shared by the three spaces *)

#[export] Instance loc_eq_dec : EqDecision loc.
Proof. solve_decision. Defined.

(** The data ROM is mapped when bit DE of OMR is set. *)
Definition rom_enabled (s : state) : bool := Z.testbit (reg s DSP_REG_OMR) DSP_OMR_DE.

(** The cell below the peripheral addresses 0xffc0-0xffff. *)
Definition locate (de : bool) (space a : Z) : loc :=
  if a <? 0x100 then LInt space a
  else if space =? DSP_SPACE_P then
    if a <? 0x200 then LInt DSP_SPACE_P a else LRam (a mod DSP_RAMSIZE)
  else if de && (a <? 0x200) then LRom space a
  else if space =? DSP_SPACE_X then LRam ((a + DSP_RAMSIZE / 2) mod DSP_RAMSIZE)
  else LRam (a mod DSP_RAMSIZE).

Definition peek (s : state) (l : loc) : Z :=
  match l with
  | LInt sp a => aget s.(core).(ramint) (sp, a)
  | LRom sp a => aget s.(core).(rom) (sp, a)
  | LRam a => aget s.(core).(ram) (DSP_SPACE_P, a)
  end.

(** A write; the ROM keeps its contents. *)
Definition poke (l : loc) (v : Z) (s : state) : state :=
  match l with
  | LInt sp a => upd_core (λ c, c_ramint (aset c.(ramint) (sp, a) v) c) s
  | LRom _ _ => s
  | LRam a => upd_core (λ c, c_ram (aset c.(ram) (DSP_SPACE_P, a) v) c) s
  end.

Definition writable (l : loc) : bool := match l with LRom _ _ => false | _ => true end.

(** The stack registers and the two rows of the stack hold the pairs of [l], the top
    first; entry 0 of the rows is not used. *)
Definition stack_rep (s : state) (l : list (Z * Z)) : Prop :=
  reg s DSP_REG_SP = Z.of_nat (length l) ∧ reg s DSP_REG_SSH = Z.of_nat (length l)
  ∧ reg s DSP_REG_SSL = Z.of_nat (length l) ∧ (length l <= 14)%nat
  ∧ ∀ i pc sr, l !! i = Some (pc, sr) →
      aget s.(core).(stack) (0, Z.of_nat (length l) - Z.of_nat i) = pc
      ∧ aget s.(core).(stack) (1, Z.of_nat (length l) - Z.of_nat i) = sr.

(** Nothing but the stack and the registers in [l] differs. *)
Definition stack_frame (l : list Z) (s s' : state) : Prop :=
  (∀ n, n ∉ l → reg s' n = reg s n)
  ∧ upd_core (λ c, c_stack s.(core).(stack) (c_registers s.(core).(registers) c)) s' = s.

(** The state after a call of [pauseThread]. *)
Definition paused (s : state) : state :=
  if nz s.(core).(use_thread) then s_events (EvPause :: s.(events)) s else s.

(** Fourteen nested calls fill the stack. *)
Definition full_stack_state : state :=
  upd_reg DSP_REG_SP 14 (upd_reg DSP_REG_SSH 14 (upd_reg DSP_REG_SSL 14 zero_state)).

(** ** Cells *)

Lemma peek_poke l l' v s :
  peek (poke l v s) l' = if decide (l = l') then if writable l then v else peek s l' else peek s l'.
Proof.
  destruct l, l'; cbn; rewrite ?aget_aset; repeat case_decide; simplify_eq; try done.
Qed.

Lemma poke_rom_enabled l v s : rom_enabled (poke l v s) = rom_enabled s.
Proof. by destruct l. Qed.

Lemma ram_mask x : x .& (DSP_RAMSIZE - 1) = x mod DSP_RAMSIZE.
Proof. by apply (land_ones_const x _ 15). Qed.

Lemma ram_bound x : 0 <= x mod DSP_RAMSIZE < DSP_RAMSIZE.
Proof. by apply Z.mod_pos_bound. Qed.

Lemma x_ram_index a : u16 (a + (DSP_RAMSIZE ≫ 1)) mod DSP_RAMSIZE = (a + DSP_RAMSIZE / 2) mod DSP_RAMSIZE.
Proof. unfold u16. rewrite Z.mod_mod_divide by (by exists 2). done. Qed.

Lemma read_run space a s :
  0 <= space < 3 → 0 <= a < 0xffc0 →
  read_memory space a s = Ok (peek s (locate (rom_enabled s) space a) mod 2 ^ 24) s.
Proof.
  intros Hsp Ha. apply wp_eq. unfold read_memory, read_memory_p, locate, rom_enabled.
  rewrite !(u16_small a) by lia. cbv zeta.
  destruct (Z.ltb_spec a 0x100); [wp_steps; by rewrite land_BITMASK by lia|].
  destruct (Z.eqb_spec space DSP_SPACE_P) as [->|].
  { destruct (Z.ltb_spec a 0x200); [wp_steps; by rewrite land_BITMASK by lia|].
    pose proof (ram_bound a). rewrite ram_mask. wp_steps. by rewrite land_BITMASK by lia. }
  do 2 wp_step. rewrite nz_land_bit by lia.
  destruct (Z.testbit _ _ && _) eqn:Hrom; cbv iota.
  { apply andb_prop in Hrom as [_ ?%Z.ltb_lt]. wp_steps. by rewrite land_BITMASK by lia. }
  rewrite (proj2 (Z.leb_gt 0xffc0 a)) by lia. cbv zeta.
  destruct (Z.eqb_spec space DSP_SPACE_X); rewrite ram_mask, ?x_ram_index.
  all: match goal with |- context [?x mod DSP_RAMSIZE] => pose proof (ram_bound x) end.
  all: wp_steps; by rewrite land_BITMASK by lia.
Qed.

Lemma write_run space a v s :
  0 <= space < 3 → 0 <= a < 0xffc0 →
  write_memory_raw space a v s = Ok tt (poke (locate (rom_enabled s) space a) (v mod 2 ^ 24) s).
Proof.
  intros Hsp Ha. apply wp_eq. unfold write_memory_raw, locate, rom_enabled.
  rewrite (u16_small a), land_BITMASK by lia. cbv zeta.
  destruct (Z.ltb_spec a 0x100); [by wp_steps|].
  assert (space = 0 ∨ space = 1 ∨ space = 2) as [->|[->| ->]] by lia; cbn [Z.eqb Pos.eqb].
  - do 2 wp_step. rewrite nz_land_bit by lia. destruct (Z.testbit _ _ && _); cbv iota; [by wp_steps|].
    rewrite (proj2 (Z.leb_gt 0xffc0 a)) by lia. rewrite ram_mask, x_ram_index.
    pose proof (ram_bound (a + DSP_RAMSIZE / 2)). by wp_steps.
  - do 2 wp_step. rewrite nz_land_bit by lia. destruct (Z.testbit _ _ && _); cbv iota; [by wp_steps|].
    rewrite (proj2 (Z.leb_gt 0xffc0 a)) by lia. rewrite ram_mask. pose proof (ram_bound a). by wp_steps.
  - cbn [andb]. destruct (Z.ltb_spec a 0x200); cbv iota; [by wp_steps|].
    rewrite ram_mask. pose proof (ram_bound a). by wp_steps.
Qed.

(** C18: below the peripheral addresses the memory functions implement a store of 24
    bit cells: a read returns the cell its address names, a write changes that cell
    and no other one (reads through any space at any address see exactly this), the
    data ROM cannot be written, and X, Y and P share the external RAM, X shifted by
    16K. *)
Theorem memory_refines_cells (space a v : Z) (s : state)
    (Hsp : 0 <= space < 3) (Ha : 0 <= a < 0xffc0) :
  let l := locate (rom_enabled s) space a in
  ∃ s', write_memory_raw space a v s = Ok tt s' ∧
    ∀ space' a', 0 <= space' < 3 → 0 <= a' < 0xffc0 →
      let l' := locate (rom_enabled s) space' a' in
      read_memory space' a' s = Ok (peek s l' mod 2 ^ 24) s ∧
      read_memory space' a' s' =
        Ok (if decide (l = l') then if writable l then v mod 2 ^ 24 else peek s l' mod 2 ^ 24
            else peek s l' mod 2 ^ 24) s'.
Proof.
  intros l. exists (poke l (v mod 2 ^ 24) s). split; [by apply write_run|].
  intros space' a' Hsp' Ha' l'. split; [by apply read_run|].
  rewrite read_run, poke_rom_enabled, peek_poke by done. fold l'. f_equal.
  case_decide; [|done]. destruct (writable l); [|done]. apply Zmod_mod.
Qed.

(** Y:$4300 is the same cell as X:$300 and P:$4300. *)
Lemma memory_refines_cells_witness :
  ∃ s', write_memory_raw DSP_SPACE_X 0x300 0x1234567 zero_state = Ok tt s'
    ∧ read_memory DSP_SPACE_Y 0x4300 s' = Ok 0x234567 s'
    ∧ read_memory DSP_SPACE_P 0x4300 s' = Ok 0x234567 s'
    ∧ read_memory DSP_SPACE_Y 0x300 s' = Ok 0 s'.
Proof.
  destruct (memory_refines_cells DSP_SPACE_X 0x300 0x1234567 zero_state) as (s' & E & H); [lia..|].
  exists s'. split; [exact E|]. split; [|split].
  - exact (proj2 (H DSP_SPACE_Y 0x4300 ltac:(lia) ltac:(lia))).
  - exact (proj2 (H DSP_SPACE_P 0x4300 ltac:(lia) ltac:(lia))).
  - exact (proj2 (H DSP_SPACE_Y 0x300 ltac:(lia) ltac:(lia))).
Defined.

(** ** The system stack *)

Lemma wp_pauseThread (Q : unit → state → Prop) s :
  Q tt (if nz s.(core).(use_thread) then s_events (EvPause :: s.(events)) s else s) → wp pauseThread Q s.
Proof.
  intros HQ. unfold pauseThread, in_thread_mode. do 2 wp_step. unfold when.
  by destruct (nz s.(core).(use_thread)).
Qed.

Lemma stack_rep_nil s : stack_rep s [] → reg s DSP_REG_SP = 0.
Proof. by intros (? & _). Qed.

Lemma push_run l pc sr s :
  stack_rep s l → (length l < 14)%nat →
  ∃ s', dsp_stack_push pc sr s = Ok tt s' ∧ stack_rep s' ((u16 pc, u16 sr) :: l)
    ∧ stack_frame [DSP_REG_SP; DSP_REG_SSH; DSP_REG_SSL] s s'.
Proof.
  intros (Esp & Essh & Essl & Hlen & Hcells) Hl. apply wp_exists. unfold dsp_stack_push. do 2 wp_step.
  rewrite Esp, (proj2 (Z.eqb_neq _ 15)) by lia. wp_steps. reg_simpl. rewrite Essh, Essl.
  rewrite !(u32_small (Z.of_nat (length l) + 1)) by lia. wp_steps.
  set (k := Z.of_nat (length l) + 1) in *.
  assert (Z.of_nat (length ((u16 pc, u16 sr) :: l)) = k) as Ek by (cbn [length]; lia).
  split.
  2: { split; [|by destruct s as [[]]]. intros n Hn. rewrite !not_elem_of_cons in Hn.
       rewrite !reg_upd_stack, !reg_upd_ne by naive_solver. done. }
  unfold stack_rep. rewrite Ek. reg_simpl. split; [done|]. split; [done|]. split; [done|]. split; [cbn [length]; lia|].
  intros i pc' sr' Hi. destruct i as [|i]; cbn in Hi.
  - injection Hi as <- <-. rewrite Z.sub_0_r. cbn. by rewrite aget_aset_ne, !aget_aset_eq.
  - pose proof (lookup_lt_Some _ _ _ Hi). destruct (Hcells i pc' sr' Hi) as [E0 E1].
    replace (k - Z.of_nat (S i)) with (Z.of_nat (length l) - Z.of_nat i) by lia.
    cbn. by rewrite !aget_aset_ne by (intros [=]; lia).
Qed.

Lemma pop_run pc sr l s :
  stack_rep s ((pc, sr) :: l) →
  ∃ s', dsp_stack_pop s = Ok (Some (pc, sr)) s' ∧ stack_rep s' l
    ∧ frame [DSP_REG_SP; DSP_REG_SSH; DSP_REG_SSL] s s'.
Proof.
  intros (Esp & Essh & Essl & Hlen & Hcells). cbn [length] in *.
  set (k := Z.of_nat (S (length l))) in *. destruct (Hcells 0%nat pc sr eq_refl) as [E0 E1].
  rewrite Z.sub_0_r in E0, E1.
  eexists. split.
  - apply wp_eq. unfold dsp_stack_pop. do 2 wp_step. rewrite Esp, (proj2 (Z.eqb_neq _ 0)) by lia.
    wp_steps. rewrite Essh. wp_steps. rewrite Essl. wp_steps. cbn [core] in *. rewrite E0, E1. split; reflexivity.
  - split; [|frame_tac]. rewrite !u32_small by lia.
    assert (k - 1 = Z.of_nat (length l)) as -> by lia. unfold stack_rep. reg_simpl.
    split; [done|]. split; [done|]. split; [done|]. split; [lia|].
    intros i pc' sr' Hi. pose proof (lookup_lt_Some _ _ _ Hi).
    destruct (Hcells (S i) pc' sr' Hi) as [F0 F1].
    replace (Z.of_nat (length l) - Z.of_nat i) with (k - Z.of_nat (S i)) by lia. done.
Qed.

(** C26: the system stack refines a list of at most fourteen (PC, SR) pairs: a push
    puts the two 16 bit values in front and changes nothing but the stack, a pop returns and removes the first pair and
    changes no other register, and a pop of the empty stack returns nothing, leaves the
    state alone and pauses the DSP thread. *)
Theorem stack_refines_list (l : list (Z * Z)) (s : state) (Hs : stack_rep s l) :
  (∀ pc sr, (length l < 14)%nat →
     ∃ s', dsp_stack_push pc sr s = Ok tt s' ∧ stack_rep s' ((u16 pc, u16 sr) :: l)
       ∧ stack_frame [DSP_REG_SP; DSP_REG_SSH; DSP_REG_SSL] s s')
  ∧ match l with
    | (pc, sr) :: l' => ∃ s', dsp_stack_pop s = Ok (Some (pc, sr)) s' ∧ stack_rep s' l'
        ∧ frame [DSP_REG_SP; DSP_REG_SSH; DSP_REG_SSL] s s'
    | [] => dsp_stack_pop s = Ok None (paused s)
    end.
Proof.
  split; [intros pc sr Hl; by apply push_run|]. destruct l as [|[pc sr] l]; [|by apply pop_run].
  apply wp_eq. unfold dsp_stack_pop. do 2 wp_step. rewrite (stack_rep_nil s Hs). cbn [Z.eqb].
  apply wp_bind, wp_pauseThread. by wp_steps.
Qed.

Lemma zero_state_stack : stack_rep zero_state [].
Proof. do 3 (split; [reflexivity|]). split; [cbn; lia|]. intros i pc sr. by rewrite lookup_nil. Qed.

Lemma stack_refines_list_witness :
  ∃ s1 s2, dsp_stack_push 0x12345 7 zero_state = Ok tt s1
    ∧ dsp_stack_pop s1 = Ok (Some (0x2345, 7)) s2 ∧ stack_rep s2 [].
Proof.
  destruct (proj1 (stack_refines_list [] zero_state zero_state_stack) 0x12345 7) as (s1 & E1 & H1 & _); [cbn; lia|].
  destruct (proj2 (stack_refines_list _ s1 H1)) as (s2 & E2 & H2 & _).
  exists s1, s2. split; [exact E1|]. split; [exact E2|exact H2].
Defined.

(** The rows of the stack have fifteen entries and entry 0 is never used, but a
    push is refused only when SP is 15: with fourteen pairs on the stack the next push
    (a call, a DO or a long interrupt) writes entry 15, one past the end of the row;
    the check that refuses it comes one entry too late. *)
Lemma stack_push_overruns (l : list (Z * Z)) (pc sr : Z) (s : state)
    (Hs : stack_rep s l) (Hl : length l = 14%nat) :
  dsp_stack_push pc sr s = UB (StackBounds 15).
Proof.
  destruct Hs as (Esp & Essh & Essl & _). rewrite Hl in *.
  change (Z.of_nat 14) with 14 in *. unfold dsp_stack_push.
  erewrite bind_ok by (apply get_reg_run; lia). rewrite Esp. change (14 =? 15) with false. cbv iota.
  repeat first [ erewrite bind_ok by (apply get_reg_run; lia)
               | erewrite bind_ok by (apply set_reg_ok; lia) ].
  reg_simpl. rewrite Essh. reflexivity.
Qed.

Lemma stack_push_overruns_witness :
  stack_rep full_stack_state (replicate 14 (0, 0))
  ∧ dsp_stack_push 1 2 full_stack_state = UB (StackBounds 15).
Proof.
  assert (stack_rep full_stack_state (replicate 14 (0, 0))) as Hs.
  { do 3 (split; [reflexivity|]). split; [cbn; lia|]. intros i pc sr Hi.
    apply lookup_replicate in Hi as [[= -> ->] _]. split; apply aget_empty. }
  split; [exact Hs|]. exact (stack_push_overruns _ 1 2 _ Hs eq_refl).
Defined.
