(* ===== verification/HostSpec.v ===== *)
(** * What the host port promises

    Words go from the DSP to the host through a queue of two places (HTX and the
    RX bytes), and from the host to the DSP through the TX bytes and HRX. *)

From S2P Require Import Prelude DspState HostPort Memory Wp.

(** ** Views of the host port *)

Definition isr (s : state) (k : Z) : bool := Z.testbit (aget s.(core).(hostport) CPU_HOST_ISR) k.
Definition hsr (s : state) (k : Z) : bool := Z.testbit (aget s.(core).(periph) (DSP_SPACE_X, DSP_HOST_HSR)) k.
Definition rx_bytes (s : state) : list Z :=
  (λ i, aget s.(core).(hostport) i) <$> [CPU_HOST_RXH; CPU_HOST_RXM; CPU_HOST_RXL].

(** The three bytes of a word, most significant first. *)
Definition bytes_of (w : Z) : list Z := [u8 (w ≫ 16); u8 (w ≫ 8); u8 w].
Definition word_of (h m l : Z) : Z := h * 2 ^ 16 + m * 2 ^ 8 + l.

(** The words on their way from the DSP to the host, oldest first. *)
Definition to_host (s : state) (q : list Z) : Prop :=
  match q with
  | [] => isr s CPU_HOST_ISR_RXDF = false ∧ hsr s DSP_HOST_HSR_HTDE = true
  | [w] => isr s CPU_HOST_ISR_RXDF = true ∧ hsr s DSP_HOST_HSR_HTDE = true ∧ rx_bytes s = bytes_of w
  | [w; w'] => isr s CPU_HOST_ISR_RXDF = true ∧ hsr s DSP_HOST_HSR_HTDE = false
      ∧ rx_bytes s = bytes_of w ∧ aget s.(core).(periph) (DSP_SPACE_X, DSP_HOST_HTX) = w'
  | _ => False
  end.

(** TRDY tells the host that both places towards the DSP are empty. *)
Definition trdy_ok (s : state) : Prop :=
  isr s CPU_HOST_ISR_TRDY = isr s CPU_HOST_ISR_TXDE && negb (hsr s DSP_HOST_HSR_HRDF).

(** The words on their way from the host to the DSP, oldest first. *)
Definition to_dsp (s : state) (q : list Z) : Prop :=
  trdy_ok s ∧ nz s.(core).(running) = true ∧
  match q with
  | [] => isr s CPU_HOST_ISR_TXDE = true ∧ hsr s DSP_HOST_HSR_HRDF = false
  | [w] => isr s CPU_HOST_ISR_TXDE = true ∧ hsr s DSP_HOST_HSR_HRDF = true
      ∧ aget s.(core).(periph) (DSP_SPACE_X, DSP_HOST_HRX) = w
  | [w; w'] => isr s CPU_HOST_ISR_TXDE = false ∧ hsr s DSP_HOST_HSR_HRDF = true
      ∧ aget s.(core).(periph) (DSP_SPACE_X, DSP_HOST_HRX) = w ∧ rx_bytes s = bytes_of w'
  | _ => False
  end.

(** The host reads a word: RXH, RXM, then RXL. *)
Definition host_read_word : M Z :=
  h ← dsp_core_read_host CPU_HOST_RXH;
  m ← dsp_core_read_host CPU_HOST_RXM;
  l ← dsp_core_read_host CPU_HOST_RXL;
  mret (word_of h m l).

(** The host writes a word: TXH, TXM, then TXL. *)
Definition host_write_word (w : Z) : M unit :=
  dsp_core_write_host CPU_HOST_TXH (w ≫ 16);;
  dsp_core_write_host CPU_HOST_TXM (w ≫ 8);;
  dsp_core_write_host CPU_HOST_TXL w.

(** The DSP reads X:HRX. *)
Definition dsp_read_word : M Z := read_memory DSP_SPACE_X (0xffc0 + DSP_HOST_HRX).

(** The status byte [v] has the bits of [s] but for TRDY. *)
Definition trdy_byte (s : state) (v : Z) : Prop :=
  ∀ k, 0 <= k < 8 → Z.testbit v k =
    if k =? CPU_HOST_ISR_TRDY then isr s CPU_HOST_ISR_TXDE && negb (hsr s DSP_HOST_HSR_HRDF) else isr s k.

(** After a reset the queue is empty; the DSP sends two words. *)
Definition port_demo : state :=
  upd_periph DSP_SPACE_X DSP_HOST_HSR 2 (upd_hostport CPU_HOST_ISR 6 zero_state).

(** ** Bits of the status bytes *)

Lemma bit_set x k j : 0 <= k → 0 <= j → Z.testbit (x .| (1 ≪ k)) j = Z.testbit x j || (j =? k).
Proof.
  intros. rewrite Z.lor_spec, Z.shiftl_1_l, Z.pow2_bits_eqb by done. f_equal. lia.
Qed.

Lemma bit_clear x k j :
  0 <= k < 8 → 0 <= j < 8 → Z.testbit (x .& (0xff - (1 ≪ k))) j = Z.testbit x j && negb (j =? k).
Proof.
  intros Hk Hj. rewrite Z.land_spec. f_equal. change 255 with (Z.ones 8). rewrite Z.shiftl_1_l.
  assert (Z.ldiff (2 ^ k) (Z.ones 8) = 0) as Hz.
  { apply Z.bits_inj'. intros i Hi. rewrite Z.ldiff_spec, Z.bits_0, Z.pow2_bits_eqb by lia.
    destruct (Z.eqb_spec k i) as [->|]; [|done]. rewrite Z.ones_spec_low by lia. done. }
  rewrite Z.sub_nocarry_ldiff, Z.ldiff_spec, Z.ones_spec_low, Z.pow2_bits_eqb by (done || lia).
  cbn. f_equal. lia.
Qed.

Lemma bit_u8 x j : 0 <= j < 8 → Z.testbit (u8 x) j = Z.testbit x j.
Proof. intros. unfold u8. change 256 with (2 ^ 8). apply Z.mod_pow2_bits_low. lia. Qed.

Lemma isr_upd v s k : isr (upd_hostport CPU_HOST_ISR v s) k = Z.testbit v k.
Proof. unfold isr. cbn. by rewrite aget_aset_eq. Qed.
Lemma isr_upd_periph sp i v s k : isr (upd_periph sp i v s) k = isr s k.
Proof. done. Qed.
Lemma isr_upd_other i v s k : i ≠ CPU_HOST_ISR → isr (upd_hostport i v s) k = isr s k.
Proof. intros. unfold isr. cbn. by rewrite aget_aset_ne. Qed.
Lemma hsr_upd v s k : hsr (upd_periph DSP_SPACE_X DSP_HOST_HSR v s) k = Z.testbit v k.
Proof. unfold hsr. cbn. by rewrite aget_aset_eq. Qed.
Lemma hsr_upd_other i v s k : i ≠ DSP_HOST_HSR → hsr (upd_periph DSP_SPACE_X i v s) k = hsr s k.
Proof. intros. unfold hsr. cbn. by rewrite aget_aset_ne by congruence. Qed.
Lemma hsr_upd_host i v s k : hsr (upd_hostport i v s) k = hsr s k.
Proof. done. Qed.
Lemma isr_events e s k : isr (s_events e s) k = isr s k.
Proof. done. Qed.
Lemma hsr_events e s k : hsr (s_events e s) k = hsr s k.
Proof. done. Qed.

(** Reads of a status bit after assignments. *)
Ltac status :=
  repeat first [ rewrite isr_upd | rewrite isr_upd_periph | rewrite isr_upd_other by lia
               | rewrite hsr_upd | rewrite hsr_upd_other by lia | rewrite hsr_upd_host
               | rewrite isr_events | rewrite hsr_events
               | rewrite bit_u8 by lia | rewrite bit_set by lia | rewrite bit_clear by lia ].

(** ** The transfers *)

Lemma upd_hostport_twice i v w s : upd_hostport i w (upd_hostport i v s) = upd_hostport i w s.
Proof. unfold upd_hostport, upd_core. cbn. by rewrite aset_aset. Qed.

Lemma wp_update_trdy (Q : unit → state → Prop) s :
  (∀ v, trdy_byte s v → Q tt (upd_hostport CPU_HOST_ISR v s)) →
  wp dsp_core_hostport_update_trdy Q s.
Proof.
  intros HQ. unfold dsp_core_hostport_update_trdy. wp_steps. rewrite upd_hostport_twice. apply HQ.
  intros k Hk. cbn. rewrite aget_aset_eq, bit_u8, Z.lor_spec, bit_u8, bit_clear by lia.
  fold (isr s k). rewrite Z.shiftl_spec by lia.
  rewrite (land_ones_const _ 1 1) by lia. change (2 ^ 1) with 2.
  destruct (Z.eqb_spec k 2) as [->|]; cbn [negb].
  - rewrite andb_false_r. change (2 - 2) with 0. change 2 with (2 ^ 1).
    rewrite Z.mod_pow2_bits_low, Z.land_spec by lia. change (2 ^ 1) with 2.
    rewrite Z.shiftr_spec, bit_u8, bit_clear by lia. change (0 + 1) with 1. fold (isr s 1).
    unfold not32. rewrite Z.shiftr_0_r, (Z.bit0_odd (_ - _)), Z.odd_sub, <- Z.bit0_odd.
    fold (hsr s 0). change (1 =? 2) with false. cbn. rewrite andb_true_r. by destruct (hsr s 0).
  - rewrite andb_true_r. destruct (decide (k < 2)); [rewrite (Z.testbit_neg_r (_ mod 2)) by lia; by rewrite orb_false_r|].
    rewrite <- (Z.mod_small (_ mod 2) (2 ^ 1)) by (by apply Z.mod_pos_bound).
    rewrite Z.mod_pow2_bits_high by lia. by rewrite orb_false_r.
Qed.

(** The cells of the port after assignments. *)
Ltac host_cells :=
  repeat first [ rewrite aget_aset_eq | rewrite aget_aset_ne by congruence ].

(** A word moves from HTX to the host when its place is free. *)
Lemma wp_dsp2host_empty (Q : unit → state → Prop) s :
  isr s CPU_HOST_ISR_RXDF = false → hsr s DSP_HOST_HSR_HTDE = false →
  (∀ s', to_host s' [aget s.(core).(periph) (DSP_SPACE_X, DSP_HOST_HTX)] → Q tt s') →
  wp dsp_core_dsp2host Q s.
Proof.
  intros Hi Hh HQ. unfold dsp_core_dsp2host. do 2 wp_step. rewrite nz_land_bit by lia.
  fold (isr s CPU_HOST_ISR_RXDF). rewrite Hi. do 2 wp_step. rewrite nz_land_bit by lia.
  fold (hsr s DSP_HOST_HSR_HTDE). rewrite Hh. cbv iota. wp_steps. apply HQ.
  split; [|split].
  - status. apply orb_true_r.
  - status. apply orb_true_r.
  - unfold rx_bytes. cbn. by host_cells.
Qed.

Lemma wp_dsp2host_full (Q : unit → state → Prop) s :
  isr s CPU_HOST_ISR_RXDF = true ∨ hsr s DSP_HOST_HSR_HTDE = true → Q tt s →
  wp dsp_core_dsp2host Q s.
Proof.
  intros H HQ. unfold dsp_core_dsp2host. do 2 wp_step. rewrite nz_land_bit by lia.
  fold (isr s CPU_HOST_ISR_RXDF). destruct (isr s CPU_HOST_ISR_RXDF) eqn:E; [by wp_steps|].
  do 2 wp_step. rewrite nz_land_bit by lia. fold (hsr s DSP_HOST_HSR_HTDE).
  destruct H as [?| ->]; [done|]. by wp_steps.
Qed.

(** A write of HTX fills the cell, clears HTDE and starts the transfer. *)
Lemma wp_dsp_write_word w (Q : unit → state → Prop) s :
  (∀ t, wp dsp_core_dsp2host (λ _ s', ∀ t', Q tt (s_events t' s'))
     (upd_periph DSP_SPACE_X DSP_HOST_HSR
        (aget s.(core).(periph) (DSP_SPACE_X, DSP_HOST_HSR) .& (0xff - (1 ≪ DSP_HOST_HSR_HTDE)))
        (upd_periph DSP_SPACE_X DSP_HOST_HTX (w mod 2 ^ 24) (s_events t s)))) →
  wp (write_memory_raw DSP_SPACE_X (0xffc0 + DSP_HOST_HTX) w) Q s.
Proof.
  intros HQ. unfold write_memory_raw. change (u16 (0xffc0 + DSP_HOST_HTX)) with 0xffeb.
  rewrite land_BITMASK by lia. cbn [Z.ltb Z.compare Pos.compare Pos.compare_cont Z.eqb].
  do 2 wp_step. change (0xffeb <? 0x200) with false. rewrite andb_false_r.
  change (0xffc0 <=? 0xffeb) with true. cbv iota. unfold write_periph_x.
  apply wp_bind, wp_sync. intros t. change (0xffeb - 0xffc0 =? DSP_HOST_HTX) with true. cbv iota.
  unfold dsp_core_hostport_dspwrite. wp_steps. cbn [core periph s_events upd_periph upd_core s_core c_periph].
  rewrite aget_aset_ne by congruence. eapply wp_mono; [apply HQ|]. intros [] s' Hs'. by apply wp_sync.
Qed.

(** The DSP writes HTX. *)
Lemma to_host_write q w (Q : unit → state → Prop) s :
  to_host s q → (length q < 2)%nat → (∀ s', to_host s' (q ++ [w mod 2 ^ 24]) → Q tt s') →
  wp (write_memory_raw DSP_SPACE_X (0xffc0 + DSP_HOST_HTX) w) Q s.
Proof.
  intros Hq Hlen HQ. apply wp_dsp_write_word. intros t.
  set (s1 := upd_periph _ _ _ (upd_periph _ _ _ _)).
  assert (∀ k, isr s1 k = isr s k) as Hi by (intros; unfold s1; by status).
  assert (hsr s1 DSP_HOST_HSR_HTDE = false) as Hh by (unfold s1; status; apply andb_false_r).
  destruct q as [|w1 [|? ?]]; [| |cbn in Hlen; lia].
  - destruct Hq as [Hrx _]. apply wp_dsp2host_empty; [by rewrite Hi|done|]. intros s' Hs' t'.
    apply HQ. unfold s1 in Hs'. cbn in Hs'. by rewrite aget_aset_ne, aget_aset_eq in Hs' by congruence.
  - destruct Hq as (Hrx & _ & Hb). apply wp_dsp2host_full; [left; by rewrite Hi|]. intros t'.
    apply HQ. split; [by rewrite isr_events, Hi|].
    split; [by rewrite hsr_events|]. split; [done|]. unfold s1. cbn. by host_cells.
Qed.

(** The host reads a byte above RXL. *)
Lemma wp_read_host_byte addr (Q : Z → state → Prop) s :
  0 <= addr < 7 → (∀ t, Q (aget s.(core).(hostport) addr) (s_events t s)) →
  wp (dsp_core_read_host addr) Q s.
Proof.
  intros Ha HQ. unfold dsp_core_read_host. apply wp_bind, wp_sync. intros t. do 2 wp_step.
  rewrite (proj2 (Z.eqb_neq addr CPU_HOST_RXL)) by lia. cbn [when]. wp_steps.
  apply wp_sync. intros t'. wp_steps. apply HQ.
Qed.

(** The host reads RXL, which frees the place. *)
Lemma wp_read_host_rxl w q (Q : Z → state → Prop) s :
  to_host s (w :: q) → (∀ s', to_host s' q → Q (aget s.(core).(hostport) CPU_HOST_RXL) s') →
  wp (dsp_core_read_host CPU_HOST_RXL) Q s.
Proof.
  intros Hq HQ. unfold dsp_core_read_host. apply wp_bind, wp_sync. intros t. do 2 wp_step.
  change (CPU_HOST_RXL =? CPU_HOST_RXL) with true. cbn [when]. unfold dsp_core_hostport_cpuread. wp_steps.
  set (s1 := upd_hostport _ _ _).
  assert (isr s1 CPU_HOST_ISR_RXDF = false) as Hi by (unfold s1; status; apply andb_false_r).
  assert (∀ k, hsr s1 k = hsr s k) as Hh by (intros; unfold s1; by status).
  destruct q as [|w1 [|? ?]]; [| |done].
  - destruct Hq as (_ & Hht & _). apply wp_dsp2host_full; [right; by rewrite Hh|].
    apply wp_sync. intros t1. apply wp_bind, wp_sync. intros t2. wp_steps. apply HQ.
    split; [by rewrite !isr_events|by rewrite !hsr_events, Hh].
  - destruct Hq as (_ & Hht & _ & Hw). apply wp_dsp2host_empty; [done|by rewrite Hh|]. intros s' Hs'.
    apply wp_sync. intros t1. apply wp_bind, wp_sync. intros t2. wp_steps. apply HQ.
    unfold s1 in Hs'. cbn [core periph upd_hostport upd_core c_hostport s_core s_events] in Hs'.
    by rewrite Hw in Hs'.
Qed.

(** A word is the sum of its bytes. *)
Lemma word_of_bytes w : word_of (u8 (w ≫ 16)) (u8 (w ≫ 8)) (u8 w) = w mod 2 ^ 24.
Proof.
  unfold word_of, u8. rewrite !shr_div by lia. change (2 ^ 16) with 65536. change (2 ^ 8) with 256.
  change (2 ^ 24) with 16777216. Z.div_mod_to_equations. lia.
Qed.

(** C21: towards the host the port is a queue of two words: a write of HTX by the DSP
    adds its 24 bit word behind the words on their way, in either place; a read of RXH,
    RXM and RXL by the host takes the oldest word out of it, and RXDF and HTDE tell the
    two sides whether there is a word and whether there is room. *)
Theorem to_host_queue (q : list Z) (s : state) (Hq : to_host s q) :
  (∀ w, (length q < 2)%nat →
     ∃ s', write_memory_raw DSP_SPACE_X (0xffc0 + DSP_HOST_HTX) w s = Ok tt s'
       ∧ to_host s' (q ++ [w mod 2 ^ 24]))
  ∧ (∀ w q', q = w :: q' → ∃ s', host_read_word s = Ok (w mod 2 ^ 24) s' ∧ to_host s' q')
  ∧ isr s CPU_HOST_ISR_RXDF = bool_decide (q ≠ [])
  ∧ hsr s DSP_HOST_HSR_HTDE = bool_decide (length q < 2)%nat.
Proof.
  split; [|split].
  - intros w Hlen. apply wp_exists. by apply (to_host_write q).
  - intros w q' ->.
    assert (rx_bytes s = bytes_of w) as Hb by (destruct q' as [|? [|? ?]]; naive_solver).
    injection Hb as Eh Em El. destruct (wp_run host_read_word (λ v s', v = w mod 2 ^ 24 ∧ to_host s' q') s)
      as (v & s' & E & -> & Hs'); [|by exists s'].
    unfold host_read_word. apply wp_bind, wp_read_host_byte; [lia|]. intros t1.
    apply wp_bind, wp_read_host_byte; [lia|]. intros t2.
    apply wp_bind, (wp_read_host_rxl w q'); [by destruct q' as [|? [|? ?]]|]. intros s' Hs'. wp_steps.
    split; [|done]. cbn [core s_events]. rewrite Eh, Em, El. apply word_of_bytes.
  - destruct q as [|w [|w' [|? ?]]]; [..|done]; cbn in Hq |- *; naive_solver.
Qed.

Lemma to_host_queue_witness :
  ∃ s1 s2 s3, write_memory_raw DSP_SPACE_X 0xffeb 0x123456 port_demo = Ok tt s1
    ∧ write_memory_raw DSP_SPACE_X 0xffeb 0xabcdef s1 = Ok tt s2
    ∧ host_read_word s2 = Ok 0x123456 s3 ∧ to_host s3 [0xabcdef].
Proof.
  assert (to_host port_demo []) as H0 by (split; reflexivity).
  destruct (proj1 (to_host_queue [] port_demo H0) 0x123456) as (s1 & E1 & H1); [cbn; lia|].
  destruct (proj1 (to_host_queue _ s1 H1) 0xabcdef) as (s2 & E2 & H2); [cbn; lia|].
  destruct (proj1 (proj2 (to_host_queue _ s2 H2)) _ _ eq_refl) as (s3 & E3 & H3).
  exists s1, s2, s3. split; [exact E1|]. split; [exact E2|]. split; [exact E3|exact H3].
Defined.

(** ** From the host to the DSP *)

Lemma word_of_cells h m l : in_u 8 h → in_u 8 m → in_u 8 l → (l .| (m ≪ 8)) .| (h ≪ 16) = word_of h m l.
Proof.
  intros Hh Hm Hl. unfold in_u, word_of in *. change (2 ^ 8) with 256 in *.
  rewrite !shl_mul by lia. change (2 ^ 16) with 65536. change (2 ^ 8) with 256.
  rewrite (Z.lor_comm l), (lor_add (m * 256) l 8), Z.lor_comm, (lor_add (h * 65536) _ 16); try lia.
  - change (2 ^ 16) with 65536. apply Z_mod_mult.
  - change (2 ^ 8) with 256. apply Z_mod_mult.
Qed.

Lemma trdy_byte_ok s v : trdy_byte s v → trdy_ok (upd_hostport CPU_HOST_ISR v s).
Proof.
  intros Hv. unfold trdy_ok. status. rewrite !Hv by lia. done.
Qed.

(** A word moves from the TX bytes to HRX. *)
Lemma wp_host2dsp_empty w (Q : unit → state → Prop) s :
  isr s CPU_HOST_ISR_TXDE = false → hsr s DSP_HOST_HSR_HRDF = false → rx_bytes s = bytes_of w →
  nz s.(core).(running) = true → (∀ s', to_dsp s' [w mod 2 ^ 24] → Q tt s') →
  wp dsp_core_host2dsp Q s.
Proof.
  intros Hi Hh Hb Hrun HQ. unfold dsp_core_host2dsp. do 2 wp_step. rewrite nz_land_bit by lia.
  fold (isr s CPU_HOST_ISR_TXDE). rewrite Hi. do 2 wp_step. rewrite nz_land_bit by lia.
  fold (hsr s DSP_HOST_HSR_HRDF). rewrite Hh. cbv iota. wp_steps. injection Hb as Eh Em El.
  rewrite Eh, Em, El, word_of_cells, word_of_bytes by apply in_u_u8.
  apply wp_update_trdy. intros v Hv. apply HQ. split; [by apply trdy_byte_ok|]. split; [done|].
  split; [|split].
  - rewrite isr_upd, Hv by lia. status. cbn. apply orb_true_r.
  - status. apply orb_true_r.
  - cbn. by host_cells.
Qed.

Lemma wp_host2dsp_full (Q : unit → state → Prop) s :
  isr s CPU_HOST_ISR_TXDE = true ∨ hsr s DSP_HOST_HSR_HRDF = true → Q tt s →
  wp dsp_core_host2dsp Q s.
Proof.
  intros H HQ. unfold dsp_core_host2dsp. do 2 wp_step. rewrite nz_land_bit by lia.
  fold (isr s CPU_HOST_ISR_TXDE). destruct (isr s CPU_HOST_ISR_TXDE) eqn:E; [by wp_steps|].
  do 2 wp_step. rewrite nz_land_bit by lia. fold (hsr s DSP_HOST_HSR_HRDF).
  destruct H as [?| ->]; [done|]. by wp_steps.
Qed.

(** A byte written above TXL. *)
Lemma wp_write_host_byte addr v (Q : unit → state → Prop) s :
  addr = CPU_HOST_TXH ∨ addr = CPU_HOST_TXM →
  (∀ t t', Q tt (s_events t' (upd_hostport addr (u8 v) (s_events t s)))) →
  wp (dsp_core_write_host addr v) Q s.
Proof.
  intros Ha HQ. unfold dsp_core_write_host. apply wp_bind, wp_sync. intros t.
  destruct Ha as [->| ->].
  all: apply wp_bind; cbn [Z.eqb Pos.eqb orb]; wp_steps; apply wp_sync; intros t'.
  all: unfold u8; rewrite Zmod_mod; apply HQ.
Qed.

(** The bytes of a word depend on its low 24 bits only. *)
Lemma bytes_of_mod w : bytes_of (w mod 2 ^ 24) = bytes_of w.
Proof.
  unfold bytes_of, u8. rewrite !shr_div by lia. change (2 ^ 16) with 65536. change (2 ^ 8) with 256.
  change (2 ^ 24) with 16777216. f_equal; [|f_equal; [|f_equal]]; Z.div_mod_to_equations; lia.
Qed.

(** The host writes a word while a place is free. *)
Lemma to_dsp_write q w (Q : unit → state → Prop) s :
  to_dsp s q → (length q < 2)%nat → (∀ s', to_dsp s' (q ++ [w mod 2 ^ 24]) → Q tt s') →
  wp (host_write_word w) Q s.
Proof.
  intros (Ht & Hrun & Hq) Hlen HQ. unfold host_write_word.
  apply wp_bind, wp_write_host_byte; [by left|]. intros t1 t2.
  apply wp_bind, wp_write_host_byte; [by right|]. intros t3 t4.
  unfold dsp_core_write_host. apply wp_bind, wp_sync. intros t5. apply wp_bind.
  cbn [Z.eqb Pos.eqb orb]. do 4 wp_step. cbn [core running upd_hostport upd_core c_hostport s_core s_events].
  rewrite Hrun. cbn [negb]. unfold dsp_core_hostport_cpuwrite. do 6 wp_step.
  apply wp_update_trdy. intros v Hv. set (s1 := upd_hostport CPU_HOST_ISR v _).
  assert (isr s1 CPU_HOST_ISR_TXDE = false) as Hi.
  { unfold s1. rewrite isr_upd, Hv by lia. cbn [Z.eqb Pos.eqb]. status. apply andb_false_r. }
  assert (hsr s1 DSP_HOST_HSR_HRDF = hsr s DSP_HOST_HSR_HRDF) as Hh by (unfold s1; by status).
  assert (rx_bytes s1 = bytes_of (w mod 2 ^ 24)) as Hb.
  { rewrite bytes_of_mod. unfold s1, rx_bytes, bytes_of. cbn. host_cells. unfold u8. by rewrite !Zmod_mod. }
  destruct q as [|w1 [|? ?]]; [| |cbn in Hlen; lia].
  - destruct Hq as [_ Hhr]. apply (wp_host2dsp_empty (w mod 2 ^ 24)); [done|by rewrite Hh|done|done|].
    intros s' Hs'. rewrite Zmod_mod in Hs'. apply wp_sync. intros t6. apply wp_sync. intros t7. by apply HQ.
  - destruct Hq as (_ & Hhr & Hw). apply wp_host2dsp_full; [right; by rewrite Hh|].
    apply wp_sync. intros t6. apply wp_sync. intros t7. apply HQ.
    split; [by apply trdy_byte_ok|]. split; [done|]. split; [done|]. split; [by status; rewrite Hh|].
    split; [done|exact Hb].
Qed.

(** A read of HRX clears HRDF, lets the next word in, and then reads the cell. *)
Lemma wp_dsp_read_word (Q : Z → state → Prop) s :
  (∀ t v, let s0 := upd_periph DSP_SPACE_X DSP_HOST_HSR
                      (aget s.(core).(periph) (DSP_SPACE_X, DSP_HOST_HSR) .& (0xff - (1 ≪ DSP_HOST_HSR_HRDF)))
                      (s_events t s) in
     trdy_byte s0 v →
     wp dsp_core_host2dsp (λ _ s', ∃ w, aget s'.(core).(periph) (DSP_SPACE_X, DSP_HOST_HRX) = w
       ∧ ∀ t', Q (w mod 2 ^ 24) (s_events t' s')) (upd_hostport CPU_HOST_ISR v s0)) →
  wp dsp_read_word Q s.
Proof.
  intros HQ. unfold dsp_read_word, read_memory. change (u16 (0xffc0 + DSP_HOST_HRX)) with 0xffeb.
  change (0xffeb <? 0x100) with false. change (DSP_SPACE_X =? DSP_SPACE_P) with false. cbv iota.
  do 2 wp_step. change (0xffeb <? 0x200) with false. rewrite andb_false_r.
  change (0xffc0 <=? 0xffeb) with true. cbv iota. apply wp_bind, wp_sync. intros t. apply wp_bind.
  change (0xffeb =? 0xffc0 + DSP_HOST_HRX) with true. change (DSP_SPACE_X =? DSP_SPACE_X) with true.
  cbn [andb when]. unfold dsp_core_hostport_dspread. do 4 wp_step. apply wp_bind, wp_update_trdy. intros v Hv.
  eapply wp_mono; [by apply (HQ t)|]. cbv beta. intros _ s' (w & Hw & Hq). do 2 wp_step.
  apply wp_bind, wp_sync. intros t'. wp_steps. change (0xffeb - 0xffc0) with DSP_HOST_HRX.
  rewrite Hw, land_BITMASK by lia. apply Hq.
Qed.

(** The DSP reads HRX: with one word on its way it takes that word. *)
Lemma to_dsp_read_one w (Q : Z → state → Prop) s :
  to_dsp s [w] → (∀ s', to_dsp s' [] → Q (w mod 2 ^ 24) s') → wp dsp_read_word Q s.
Proof.
  intros (Ht & Hrun & Hi & Hh & Hw) HQ. apply wp_dsp_read_word. cbv zeta. intros t v Hv.
  set (s1 := upd_hostport CPU_HOST_ISR v _).
  assert (isr s1 CPU_HOST_ISR_TXDE = true) as Hi1.
  { unfold s1. rewrite isr_upd, Hv by lia. cbn [Z.eqb Pos.eqb]. by status. }
  apply wp_host2dsp_full; [by left|]. exists w. split; [|intros t'].
  - unfold s1. cbn. host_cells. by rewrite Hw.
  - apply HQ. split; [by apply trdy_byte_ok|]. split; [done|]. split; [done|].
    unfold s1. status. apply andb_false_r.
Qed.

(** With two words on their way it loses the older one and leaves the newer one. *)
Lemma to_dsp_read_two w w' (Q : Z → state → Prop) s :
  to_dsp s [w; w'] → (∀ s', to_dsp s' [w' mod 2 ^ 24] → Q (w' mod 2 ^ 24) s') → wp dsp_read_word Q s.
Proof.
  intros (Ht & Hrun & Hi & Hh & Hw & Hb) HQ. apply wp_dsp_read_word. cbv zeta. intros t v Hv.
  apply (wp_host2dsp_empty w').
  - rewrite isr_upd, Hv by lia. cbn [Z.eqb Pos.eqb]. by status.
  - status. apply andb_false_r.
  - rewrite <- Hb. unfold rx_bytes. cbn. by host_cells.
  - done.
  - intros s' Hs'. exists (w' mod 2 ^ 24). split; [apply Hs'|]. intros t'. rewrite Zmod_mod. by apply HQ.
Qed.



(** TXDE allows the host a second word before the DSP has read the first, and then
    a word is lost: the read of HRX moves the second word into HRX before it reads the
    cell, so it returns the second word, and the next read returns it again. *)
Lemma to_dsp_loses_word (w w' : Z) (s : state) (Hs : to_dsp s []) :
  ∃ s1 s2 s3 s4, host_write_word w s = Ok tt s1 ∧ isr s1 CPU_HOST_ISR_TXDE = true
    ∧ host_write_word w' s1 = Ok tt s2
    ∧ dsp_read_word s2 = Ok (w' mod 2 ^ 24) s3 ∧ hsr s3 DSP_HOST_HSR_HRDF = true
    ∧ dsp_read_word s3 = Ok (w' mod 2 ^ 24) s4 ∧ to_dsp s4 [].
Proof.
  destruct (wp_exists (host_write_word w) (λ s', to_dsp s' [w mod 2 ^ 24]) s) as (s1 & E1 & H1).
  { by apply (to_dsp_write []); [|cbn; lia|]. }
  destruct (wp_exists (host_write_word w') (λ s', to_dsp s' [w mod 2 ^ 24; w' mod 2 ^ 24]) s1) as (s2 & E2 & H2).
  { by eapply to_dsp_write; [done|cbn; lia|]. }
  destruct (wp_run dsp_read_word (λ v s', v = w' mod 2 ^ 24 ∧ to_dsp s' [w' mod 2 ^ 24]) s2) as (v & s3 & E3 & -> & H3).
  { eapply to_dsp_read_two; [done|]. intros s'. by rewrite Zmod_mod. }
  destruct (wp_run dsp_read_word (λ v s', v = w' mod 2 ^ 24 ∧ to_dsp s' []) s3) as (v & s4 & E4 & -> & H4).
  { eapply to_dsp_read_one; [done|]. intros s'. by rewrite Zmod_mod. }
  exists s1, s2, s3, s4. destruct H1 as (_ & _ & ? & _). pose proof H3 as (_ & _ & _ & ? & _). done.
Qed.

Lemma to_dsp_loses_word_witness :
  ∃ s1 s2 s3, host_write_word 0x111111 (upd_core (c_running 1) port_demo) = Ok tt s1
    ∧ host_write_word 0x222222 s1 = Ok tt s2 ∧ dsp_read_word s2 = Ok 0x222222 s3.
Proof.
  destruct (to_dsp_loses_word 0x111111 0x222222 (upd_core (c_running 1) port_demo))
    as (s1 & s2 & s3 & _ & E1 & _ & E2 & E3 & _).
  - by repeat split.
  - exists s1, s2, s3. split; [exact E1|]. split; [exact E2|exact E3].
Defined.

(** Where a transfer to the host leaves the other direction. *)
Lemma wp_dsp2host_other w (Q : unit → state → Prop) s :
  to_dsp s [w] → (∀ s', to_dsp s' [w] → Q tt s') → wp dsp_core_dsp2host Q s.
Proof.
  intros Hs HQ. unfold dsp_core_dsp2host. do 2 wp_step. destruct (nz _); [by apply wp_ret, HQ|].
  do 2 wp_step. destruct (nz _); [by apply wp_ret, HQ|]. wp_steps. apply HQ.
  destruct Hs as (Ht & Hrun & Hi & Hh & Hw). unfold trdy_ok in Ht. split; [|split; [done|split; [|split]]].
  - unfold trdy_ok. status. fold (hsr s DSP_HOST_HSR_HRDF) (isr s CPU_HOST_ISR_TRDY) (isr s CPU_HOST_ISR_TXDE).
    cbn [Z.eqb Pos.eqb]. by rewrite !orb_false_r.
  - status. fold (isr s CPU_HOST_ISR_TXDE). by rewrite Hi.
  - status. fold (hsr s DSP_HOST_HSR_HRDF). by rewrite Hh.
  - cbn. by host_cells.
Qed.

(** A write of HTX replaces the word in HRX. *)
Lemma to_dsp_clobber w v (Q : unit → state → Prop) s :
  to_dsp s [w] → (∀ s', to_dsp s' [v mod 2 ^ 24] → Q tt s') →
  wp (write_memory_raw DSP_SPACE_X (0xffc0 + DSP_HOST_HTX) v) Q s.
Proof.
  intros (Ht & Hrun & Hi & Hh & Hw) HQ. apply wp_dsp_write_word. intros t.
  apply (wp_dsp2host_other (v mod 2 ^ 24)).
  - unfold trdy_ok in Ht. split; [|split; [done|split; [|split]]].
    + unfold trdy_ok. status. fold (hsr s DSP_HOST_HSR_HRDF). cbn [Z.eqb Pos.eqb negb]. by rewrite andb_true_r.
    + by status.
    + status. fold (hsr s DSP_HOST_HSR_HRDF). by rewrite Hh.
    + cbn. by host_cells.
  - intros s' Hs' t'. by apply HQ.
Qed.

(** HRX and HTX are two registers of the DSP at one address, and the emulator keeps
    both in one cell: a word the DSP sends while a word of the host waits in HRX takes
    its place, so the DSP then reads its own word instead of the host's. *)
Lemma htx_clobbers_hrx (w v : Z) (s : state) (Hs : to_dsp s [w]) :
  ∃ s1 s2, write_memory_raw DSP_SPACE_X (0xffc0 + DSP_HOST_HTX) v s = Ok tt s1
    ∧ dsp_read_word s1 = Ok (v mod 2 ^ 24) s2 ∧ to_dsp s2 [].
Proof.
  destruct (wp_exists (write_memory_raw DSP_SPACE_X (0xffc0 + DSP_HOST_HTX) v) (λ s', to_dsp s' [v mod 2 ^ 24]) s) as (s1 & E1 & H1).
  { by apply (to_dsp_clobber w). }
  destruct (wp_run dsp_read_word (λ x s', x = v mod 2 ^ 24 ∧ to_dsp s' []) s1) as (x & s2 & E2 & -> & H2).
  { eapply to_dsp_read_one; [done|]. intros s'. by rewrite Zmod_mod. }
  by exists s1, s2.
Qed.

Lemma htx_clobbers_hrx_witness :
  ∃ s0 s1 s2, host_write_word 0x111111 (upd_core (c_running 1) port_demo) = Ok tt s0
    ∧ write_memory_raw DSP_SPACE_X 0xffeb 0x222222 s0 = Ok tt s1 ∧ dsp_read_word s1 = Ok 0x222222 s2.
Proof.
  destruct (wp_exists (host_write_word 0x111111) (λ s', to_dsp s' [0x111111]) (upd_core (c_running 1) port_demo)) as (s0 & E0 & H0).
  - apply (to_dsp_write []); [by repeat split|cbn; lia|done].
  - destruct (htx_clobbers_hrx 0x111111 0x222222 s0 H0) as (s1 & s2 & E1 & E2 & _).
    exists s0, s1, s2. split; [exact E0|]. split; [exact E1|exact E2].
Defined.
