(* ===== verification/ExecSpec.v ===== *)
(** * What the instruction loop promises

    Properties of the whole path of an instruction: fetch, decode, execution, the
    update of the program counter with its hardware loops, and the interrupts. *)

From S2P Require Import Prelude DspState HostPort Memory Arith56 Ccr Alu Agu ParMove Control Exec Wp CcrSpec AluSpec MemSpec.

(** ** Views of the machine *)

(** No interrupt is pending or enabled: no trace, no SWI, no host port interrupt and no
    SSI interrupt enabled, and no fast interrupt in progress. *)
Definition quiet (s : state) : Prop :=
  let hcr := aget s.(core).(periph) (DSP_SPACE_X, DSP_HOST_HCR) in
  let crb := aget s.(core).(periph) (DSP_SPACE_X, DSP_SSI_CRB) in
  flag (reg s DSP_REG_SR) DSP_SR_T = false ∧ s.(core).(swi_inter) ≠ 1
  ∧ s.(core).(interrupt_state) ≠ DSP_INTERRUPT_FAST
  ∧ Z.testbit hcr DSP_HOST_HCR_HCIE = false ∧ Z.testbit hcr DSP_HOST_HCR_HRIE = false
  ∧ Z.testbit hcr DSP_HOST_HCR_HTIE = false
  ∧ Z.testbit crb DSP_SSI_CRB_RIE = false ∧ Z.testbit crb DSP_SSI_CRB_TIE = false.

(** The word of program memory at an address. *)
Definition p_word (s : state) (a : Z) : Z := peek s (locate false DSP_SPACE_P a) mod 2 ^ 24.

(** Everything but the registers in [l], the program counter, the REP state and the
    variables of the decoder is the same. *)
Definition same_machine (l : list Z) (s s' : state) : Prop :=
  (∀ n, n ∉ l → reg s' n = reg s n)
  ∧ s'.(core).(ram) = s.(core).(ram) ∧ s'.(core).(ramint) = s.(core).(ramint)
  ∧ s'.(core).(rom) = s.(core).(rom) ∧ s'.(core).(periph) = s.(core).(periph)
  ∧ s'.(core).(hostport) = s.(core).(hostport) ∧ s'.(core).(stack) = s.(core).(stack)
  ∧ s'.(core).(running) = s.(core).(running) ∧ s'.(core).(swi_inter) = s.(core).(swi_inter)
  ∧ s'.(core).(interrupt_state) = s.(core).(interrupt_state).

(** The state in which the instruction at [pc] is executed. *)
Definition fetched (s : state) : state :=
  s_cur_inst_len 1 (s_cur_inst (p_word s s.(core).(pc)) s).

(** After the REP instruction itself: a count of 0 stands for 65536. *)
Definition rep_count (lc : Z) : Z := if lc =? 0 then 0x010000 else lc.

(** The last repetition of a loop over P:2..P:5. *)
Definition do_demo (lc : Z) : state :=
  upd_core (c_pc 5) (s_cur_inst_len 1
    (upd_reg DSP_REG_SR 0x8000 (upd_reg DSP_REG_LA 5 (upd_reg DSP_REG_LC lc
      (upd_reg DSP_REG_SP 2 (upd_reg DSP_REG_SSH 2 (upd_reg DSP_REG_SSL 2
        (upd_stack 0 2 2 (upd_stack 1 2 0x300 (upd_stack 0 1 0x40 (upd_stack 1 1 7 zero_state))))))))))).

(** The count of [DO #n]. *)
Definition do_imm_count (inst : Z) : Z := (inst ≫ 8) mod 256 + (inst mod 16) * 256.

(** ** Interrupts that do not happen *)

Lemma hi_interrupts_quiet s : quiet s → dsp_hi_interrupts s = Ok 99 s.
Proof.
  intros (_ & _ & _ & H1 & H2 & H3 & _). apply wp_eq. unfold dsp_hi_interrupts. do 6 wp_step.
  rewrite !nz_land_bit by lia. rewrite H1, H2, H3. cbn [andb]. by wp_steps.
Qed.

Lemma ssi_interrupts_quiet s : quiet s → dsp_ssi_interrupts s = Ok 99 s.
Proof.
  intros (_ & _ & _ & _ & _ & _ & H1 & H2). apply wp_eq. unfold dsp_ssi_interrupts. do 6 wp_step.
  rewrite !nz_land_bit by lia. rewrite H1, H2. cbn [andb]. by wp_steps.
Qed.

Lemma interrupts_quiet s : quiet s → dsp_postexecute_interrupts s = Ok tt s.
Proof.
  intros Hq. pose proof Hq as (Ht & Hswi & Hst & _). apply wp_eq. unfold dsp_postexecute_interrupts.
  do 2 wp_step. destruct (nz _); [by wp_steps|]. do 2 wp_step. rewrite (proj2 (Z.eqb_neq _ _) Hst). cbv iota.
  assert (ipl_to_raise s = Ok 99 s) as Hipl; [|apply wp_bind; by apply (wp_of_run _ _ _ _ _ Hipl)].
  apply wp_eq. unfold ipl_to_raise. do 4 wp_step. rewrite nz_land_bit by lia.
  fold (flag (reg s DSP_REG_SR) DSP_SR_T). rewrite Ht, (proj2 (Z.eqb_neq _ _) Hswi). cbv iota.
  destruct (_ =? 3); [by wp_steps|]. do 2 wp_step.
  pose proof (hi_interrupts_quiet s Hq) as Hhi. pose proof (ssi_interrupts_quiet s Hq) as Hssi.
  destruct (_ <=? _); repeat destruct (_ <=? _).
  all: apply wp_bind; first [apply (wp_of_run _ _ _ _ _ Hhi)|apply (wp_of_run _ _ _ _ _ Hssi)|apply wp_ret].
  all: change (99 =? 99) with true; cbv iota.
  all: first [by apply (wp_of_run _ _ _ _ _ Hhi)|by apply (wp_of_run _ _ _ _ _ Hssi)|done].
Qed.

(** ** Fetch and decode *)

Lemma read_p_run a s : 0 <= a < 65536 → read_memory_p a s = Ok (p_word s a) s.
Proof.
  intros Ha. apply wp_eq. unfold read_memory_p, p_word, locate. rewrite (u16_small a) by lia. cbv zeta.
  change (DSP_SPACE_P =? DSP_SPACE_P) with true. cbv iota.
  destruct (Z.ltb_spec a 0x200).
  - wp_steps. rewrite land_BITMASK by lia. split; [|done].
    by destruct (a <? 0x100).
  - rewrite ram_mask. pose proof (ram_bound a). wp_steps. rewrite land_BITMASK by lia.
    split; [|done]. by rewrite (proj2 (Z.ltb_ge a 0x100)) by lia.
Qed.

Lemma wp_execute_instruction (Q : unit → state → Prop) s :
  0 <= s.(core).(pc) < 65536 →
  wp execute_decoded (λ _ s1, wp dsp_postexecute_update_pc
    (λ _ s2, wp dsp_postexecute_interrupts Q s2) s1) (fetched s) →
  wp dsp56k_execute_instruction Q s.
Proof.
  intros Hpc H. unfold dsp56k_execute_instruction. do 2 wp_step.
  apply wp_bind, (wp_of_run _ _ _ _ _ (read_p_run _ _ Hpc)). do 4 wp_step.
  apply wp_bind. eapply wp_mono; [exact H|]. cbv beta. intros [] s1 H1. by apply wp_bind.
Qed.

Lemma wp_set_pm_len i v (Q : unit → state → Prop) s :
  0 <= i < 2 → Q tt (s_parmove (p_len (aset s.(parmove).(tmp_parmove_len) i v) s.(parmove)) s) →
  wp (set_pm_len i v) Q s.
Proof. intros. unfold set_pm_len. by apply wp_bind, wp_check. Qed.

(** ** The update of the program counter *)

(** A register of a state reached by assignments of any kind. *)
Ltac cells := unfold flag, reg in *; cbn; repeat first [rewrite aget_aset_eq | rewrite aget_aset_ne by congruence].

Lemma wp_update_pc_do_off (Q : unit → state → Prop) s :
  flag (reg s DSP_REG_SR) DSP_SR_LF = false → Q tt s → wp update_pc_do Q s.
Proof.
  intros Hf HQ. unfold update_pc_do. do 2 wp_step. rewrite nz_land_bit by lia.
  fold (flag (reg s DSP_REG_SR) DSP_SR_LF). rewrite Hf. by wp_steps.
Qed.

Lemma wp_update_pc_start (Q : unit → state → Prop) s :
  nz s.(core).(loop_rep) = true → s.(pc_on_rep) = 1 → s.(cur_inst_len) = 1 →
  flag (reg s DSP_REG_SR) DSP_SR_LF = false →
  (∀ s', same_machine [DSP_REG_LC] s s' → reg s' DSP_REG_LC = rep_count (reg s DSP_REG_LC) →
     s'.(core).(pc) = u16 (s.(core).(pc) + 1) → s'.(core).(loop_rep) = s.(core).(loop_rep) →
     s'.(pc_on_rep) = 0 → Q tt s') →
  wp dsp_postexecute_update_pc Q s.
Proof.
  intros Hr Hp Hl Hf HQ. unfold dsp_postexecute_update_pc, update_pc_rep. do 3 wp_step. rewrite Hr.
  cbn [when]. do 2 wp_step. rewrite Hp. change (1 =? 0) with false. cbv iota. do 3 wp_step. unfold rep_count in HQ.
  destruct (reg s DSP_REG_LC =? 0); cbn [when]; wp_steps; cbn [core cur_inst_len pc s_pc_on_rep upd_reg upd_core s_core]; rewrite Hl.
  all: cbn [Z.ltb Z.compare when]; wp_steps; apply wp_update_pc_do_off; [by cells|]; apply HQ; try done; try (by cells).
  split; [|done]. intros n Hn%not_elem_of_cons.
  unfold reg. cbn. rewrite aget_aset_ne; [done|]. intros [= <-]. by destruct Hn.
Qed.

(** The repeated instruction, but for the last time. *)
Lemma wp_update_pc_again k (Q : unit → state → Prop) s :
  nz s.(core).(loop_rep) = true → s.(pc_on_rep) = 0 → reg s DSP_REG_LC = k → 1 < k <= 65536 →
  flag (reg s DSP_REG_SR) DSP_SR_LF = false →
  (∀ s', same_machine [DSP_REG_LC] s s' → reg s' DSP_REG_LC = k - 1 →
     s'.(core).(pc) = s.(core).(pc) → s'.(core).(loop_rep) = s.(core).(loop_rep) →
     s'.(pc_on_rep) = 0 → Q tt s') →
  wp dsp_postexecute_update_pc Q s.
Proof.
  intros Hr Hp Hk Bk Hf HQ. unfold dsp_postexecute_update_pc, update_pc_rep. do 3 wp_step. rewrite Hr.
  cbn [when]. do 2 wp_step. rewrite Hp. change (0 =? 0) with true. cbv iota. do 2 wp_step. rewrite Hk.
  rewrite u32_small, land_BITMASK, Z.mod_small by lia. do 2 wp_step. rewrite (proj2 (Z.ltb_lt 0 (k - 1))) by lia.
  wp_steps. cbn [cur_inst_len s_cur_inst_len Z.ltb Z.compare when]. wp_steps.
  apply wp_update_pc_do_off; [by cells|]. apply HQ; try done; [|by cells].
  split; [|done]. intros n Hn%not_elem_of_cons.
  unfold reg. cbn. rewrite aget_aset_ne; [done|]. intros [= <-]. by destruct Hn.
Qed.

(** The last time: the loop count before REP comes back. *)
Lemma wp_update_pc_last (Q : unit → state → Prop) s :
  nz s.(core).(loop_rep) = true → s.(pc_on_rep) = 0 → reg s DSP_REG_LC = 1 → s.(cur_inst_len) = 1 →
  flag (reg s DSP_REG_SR) DSP_SR_LF = false →
  (∀ s', same_machine [DSP_REG_LC] s s' → reg s' DSP_REG_LC = reg s DSP_REG_LCSAVE →
     s'.(core).(pc) = u16 (s.(core).(pc) + 1) → s'.(core).(loop_rep) = 0 → s'.(pc_on_rep) = 0 → Q tt s') →
  wp dsp_postexecute_update_pc Q s.
Proof.
  intros Hr Hp Hk Hl Hf HQ. unfold dsp_postexecute_update_pc, update_pc_rep. do 3 wp_step. rewrite Hr.
  cbn [when]. do 2 wp_step. rewrite Hp. change (0 =? 0) with true. cbv iota. do 2 wp_step. rewrite Hk.
  change (u32 (1 - 1) .& BITMASK 16) with 0. change (0 <? 0) with false. wp_steps.
  cbn [core cur_inst_len pc upd_reg upd_core s_core]. rewrite Hl. cbn [Z.ltb Z.compare when]. wp_steps.
  apply wp_update_pc_do_off; [by cells|]. apply HQ; try done; [|by cells].
  split; [|done]. intros n Hn%not_elem_of_cons.
  unfold reg. cbn. rewrite !aget_aset_ne; [done|..]; intros [= <-]; by destruct Hn.
Qed.

(** ** What stays the same *)

Lemma same_machine_refl l s : same_machine l s s.
Proof. done. Qed.

Lemma same_machine_trans l s1 s2 s3 : same_machine l s1 s2 → same_machine l s2 s3 → same_machine l s1 s3.
Proof.
  intros (R1 & H1) (R2 & H2). split; [intros n Hn; by rewrite R2, R1|]. naive_solver congruence.
Qed.

Lemma same_machine_mono l l' s s' : l ⊆ l' → same_machine l s s' → same_machine l' s s'.
Proof. intros Hl [R H]. split; [|exact H]. intros n Hn. apply R. set_solver. Qed.

Lemma frame_same_machine l s s' : frame l s s' → same_machine l s s'.
Proof. intros [R E]. split; [exact R|]. destruct s as [[]], s' as [[]]. by injection E as ->. Qed.

Lemma quiet_same l s s' :
  same_machine l s s' → flag (reg s' DSP_REG_SR) DSP_SR_T = flag (reg s DSP_REG_SR) DSP_SR_T →
  quiet s → quiet s'.
Proof. intros (_ & _ & _ & _ & Ep & _ & _ & _ & Es & Ei) Ht. unfold quiet. by rewrite Ht, Ep, Es, Ei. Qed.

Lemma p_word_same l s s' a : same_machine l s s' → p_word s' a = p_word s a.
Proof. intros (_ & Er & Ei & _). unfold p_word, peek. destruct (locate _ _ _) eqn:E; rewrite ?Er, ?Ei; try done.
  unfold locate in E. repeat case_match; simplify_eq; lia || done. Qed.

(** A number of instructions, each described by a relation between states. *)
Lemma exec_insts_walk (I : nat → state → Prop) n :
  (∀ i s, (i < n)%nat → I i s →
     nz s.(core).(running) = true ∧ ∃ s', dsp56k_execute_instruction s = Ok tt s' ∧ I (S i) s') →
  ∀ k i s, (i + k = n)%nat → I i s → ∃ s', exec_insts k s = Ok tt s' ∧ I n s'.
Proof.
  intros Hstep k. induction k as [|k IH]; intros i s Hi Hs; cbn [exec_insts].
  { exists s. split; [done|]. by replace n with i by lia. }
  destruct (Hstep i s) as (Hrun & s1 & E1 & H1); [lia|done|].
  destruct (IH (S i) s1) as (s2 & E2 & H2); [lia|done|]. exists s2. split; [|done].
  erewrite bind_ok by reflexivity. rewrite Hrun. cbn [when]. by erewrite bind_ok by exact E1.
Qed.

(** The variables a register frame keeps. *)
Lemma frame_scalars l s s' : frame l s s' →
  s'.(core).(pc) = s.(core).(pc) ∧ s'.(core).(loop_rep) = s.(core).(loop_rep)
  ∧ s'.(pc_on_rep) = s.(pc_on_rep) ∧ s'.(cur_inst_len) = s.(cur_inst_len) ∧ s'.(parmove) = s.(parmove).
Proof. intros [_ E]. destruct s as [[]], s' as [[]]. by injection E. Qed.

(** ** DO loops *)

(** The stack depends on its rows and its three registers. *)
Lemma stack_rep_ext s s' l :
  s'.(core).(stack) = s.(core).(stack) →
  (∀ r, r ∈ [DSP_REG_SP; DSP_REG_SSH; DSP_REG_SSL] → reg s' r = reg s r) → stack_rep s l → stack_rep s' l.
Proof. intros Es Hr. unfold stack_rep. rewrite Es, !Hr by set_solver. done. Qed.

Lemma wp_enddo start sr la lc l (Q : unit → state → Prop) s :
  stack_rep s ((start, sr) :: (la, lc) :: l) →
  (∀ s', stack_rep s' l → reg s' DSP_REG_SR = sr → reg s' DSP_REG_LA = la → reg s' DSP_REG_LC = lc →
     frame [DSP_REG_SR; DSP_REG_LA; DSP_REG_LC; DSP_REG_SP; DSP_REG_SSH; DSP_REG_SSL] s s' → Q tt s') →
  wp dsp_enddo Q s.
Proof.
  intros Hs HQ. destruct (pop_run _ _ _ _ Hs) as (s1 & E1 & H1 & F1). unfold dsp_enddo.
  apply wp_bind, (wp_of_run _ _ _ _ _ E1). do 2 wp_step.
  assert (stack_rep (upd_reg DSP_REG_SR sr s1) ((la, lc) :: l)) as H1'.
  { eapply stack_rep_ext; [| |exact H1]; [done|]. intros r Hr. apply reg_upd_ne. set_solver. }
  destruct (pop_run _ _ _ _ H1') as (s2 & E2 & H2 & F2). apply wp_bind, (wp_of_run _ _ _ _ _ E2). wp_steps.
  assert (∀ r, r ∉ [DSP_REG_SP; DSP_REG_SSH; DSP_REG_SSL] → reg s2 r = reg (upd_reg DSP_REG_SR sr s1) r) as Hr2 by apply F2.
  apply HQ.
  - eapply stack_rep_ext; [| |exact H2]; [done|]. intros r Hr. rewrite !reg_upd_ne by set_solver. done.
  - reg_simpl. rewrite Hr2 by set_solver. by reg_simpl.
  - by reg_simpl.
  - by reg_simpl.
  - do 2 (apply frame_upd; [set_solver|]).
    apply (frame_trans _ _ (upd_reg DSP_REG_SR sr s1)); [apply frame_upd; [set_solver|]|].
    + eapply frame_mono; [|exact F1]. set_solver.
    + eapply frame_mono; [|exact F2]. set_solver.
Qed.

(** The loop counter is decremented modulo 2^16. *)
Lemma dec16 x : u32 (x - 1) .& BITMASK 16 = (x - 1) mod 2 ^ 16.
Proof. rewrite land_BITMASK by lia. unfold u32. by rewrite Z.mod_mod_divide by (by exists 65536). Qed.

(** C32: at the end of the body of a DO loop the hardware loop goes on: after the
    instruction that ends at LA, outside REP, LC is decremented, and while it is not 0
    PC goes back to the loop start on top of the stack (a count of 0 stands for 65536);
    with the last repetition the loop's two stack entries are removed, SR, LA and LC get
    back the values they had outside the loop, and execution continues at LA + 1.  At any
    other address PC just moves on. *)
Theorem do_loop_end (start sr la lc len : Z) (l : list (Z * Z)) (s : state)
    (Hs : stack_rep s ((start, sr) :: (la, lc) :: l)) (Hstart : in_u 16 start)
    (Hrep : s.(core).(loop_rep) = 0) (Hlen : s.(cur_inst_len) = len) (Hl : 0 < len)
    (Hpc : 0 <= s.(core).(pc) + len < 65536)
    (Hlf : flag (reg s DSP_REG_SR) DSP_SR_LF = true)
    (HLA : in_u 16 (reg s DSP_REG_LA)) (HLC : in_u 16 (reg s DSP_REG_LC)) :
  ∃ s', dsp_postexecute_update_pc s = Ok tt s' ∧
    if s.(core).(pc) + len =? reg s DSP_REG_LA + 1 then
      if reg s DSP_REG_LC =? 1 then
        stack_rep s' l ∧ reg s' DSP_REG_SR = sr ∧ reg s' DSP_REG_LA = la ∧ reg s' DSP_REG_LC = lc
        ∧ s'.(core).(pc) = reg s DSP_REG_LA + 1
        ∧ same_machine [DSP_REG_SR; DSP_REG_LA; DSP_REG_LC; DSP_REG_SP; DSP_REG_SSH; DSP_REG_SSL] s s'
      else
        s' = upd_core (c_pc start) (upd_reg DSP_REG_LC ((reg s DSP_REG_LC - 1) mod 2 ^ 16) s)
    else s' = upd_core (c_pc (s.(core).(pc) + len)) s.
Proof.
  apply wp_exists. unfold dsp_postexecute_update_pc, update_pc_rep. do 3 wp_step. rewrite Hrep. cbn [nz negb Z.eqb when].
  do 3 wp_step. rewrite Hlen, (proj2 (Z.ltb_lt 0 len)) by lia. cbn [when]. do 4 wp_step.
  rewrite u16_small by lia. unfold update_pc_do. do 2 wp_step. rewrite nz_land_bit by lia.
  fold (flag (reg s DSP_REG_SR) DSP_SR_LF). change (reg (upd_core (c_pc (s.(core).(pc) + len)) s)) with (reg s).
  fold (flag (reg s DSP_REG_SR) DSP_SR_LF). rewrite Hlf. cbn [when]. do 4 wp_step.
  set (s1 := upd_core _ s). change (reg s1) with (reg s). change (s1.(core).(pc)) with (s.(core).(pc) + len).
  unfold in_u in HLA, HLC, Hstart. rewrite u32_small by lia.
  destruct (Z.eqb_spec (s.(core).(pc) + len) (reg s DSP_REG_LA + 1)) as [E|E]; cbn [when]; [|by wp_steps].
  do 2 wp_step. change (reg s1) with (reg s). rewrite dec16. do 2 wp_step.
  destruct (Z.eqb_spec (reg s DSP_REG_LC) 1) as [E1|E1].
  - rewrite E1. change ((1 - 1) mod 2 ^ 16 =? 0) with true. cbv iota.
    apply (wp_enddo start sr la lc l).
    + eapply stack_rep_ext; [| |exact Hs]; [done|]. intros r Hr. apply (reg_upd_ne _ _ _ s1). set_solver.
    + intros s' H1 H2 H3 H4 Hf. split; [done|]. split; [done|]. split; [done|]. split; [done|].
      pose proof (frame_scalars _ _ _ Hf) as (-> & _). split; [done|].
      eapply same_machine_trans; [|exact (frame_same_machine _ _ _ Hf)]. split; [|done].
      intros r Hr. apply (reg_upd_ne _ _ _ s1). set_solver.
  - rewrite (proj2 (Z.eqb_neq ((reg s DSP_REG_LC - 1) mod 2 ^ 16) 0)) by (change (2 ^ 16) with 65536; Z.div_mod_to_equations; lia).
    destruct Hs as (_ & Essh & _ & Hlen14 & Hcells). destruct (Hcells 0%nat start sr eq_refl) as [Etop _].
    do 2 wp_step. change (reg (upd_reg DSP_REG_LC _ s1)) with (reg (upd_reg DSP_REG_LC ((reg s DSP_REG_LC - 1) mod 2 ^ 16) s)).
    reg_simpl. rewrite Essh. cbn [length] in *. wp_steps. rewrite Z.sub_0_r in Etop. cbn [core stack s1 upd_core upd_reg s_core c_registers c_pc].
    rewrite Etop, u16_small by lia. done.
Qed.

Lemma do_demo_stack lc : stack_rep (do_demo lc) [(2, 0x300); (0x40, 7)].
Proof.
  do 3 (split; [reflexivity|]). split; [cbn; lia|]. intros [|[|i]] pc sr; [intros [= <- <-]..|].
  - split; reflexivity.
  - split; reflexivity.
  - done.
Qed.

Lemma do_loop_end_witness :
  (∃ s', dsp_postexecute_update_pc (do_demo 1) = Ok tt s' ∧ s'.(core).(pc) = 6 ∧ reg s' DSP_REG_LC = 7)
  ∧ (∃ s', dsp_postexecute_update_pc (do_demo 0) = Ok tt s' ∧ s'.(core).(pc) = 2 ∧ reg s' DSP_REG_LC = 65535).
Proof.
  assert (∀ lc, in_u 16 lc → in_u 16 (reg (do_demo lc) DSP_REG_LC)) as Hlc by done.
  split.
  - destruct (do_loop_end 2 0x300 0x40 7 1 [] (do_demo 1) (do_demo_stack 1)) as (s' & E & H); try done.
    all: try (by apply in_ub_spec).
    destruct H as (_ & _ & _ & Hc & Hpc & _). exists s'. split; [exact E|]. split; [exact Hpc|exact Hc].
  - destruct (do_loop_end 2 0x300 0x40 7 1 [] (do_demo 0) (do_demo_stack 0)) as (s' & E & H); try done.
    all: try (by apply in_ub_spec).
    exists s'. split; [exact E|]. rewrite H. split; reflexivity.
Defined.

(** Reads of program memory do not depend on the stack. *)
Lemma p_word_stack_frame l s s' a : stack_frame l s s' → p_word s' a = p_word s a.
Proof.
  intros [_ E]. unfold p_word. destruct s as [[]], s' as [[]]. injection E. intros. subst. by destruct (locate _ _ _).
Qed.

Lemma stack_frame_scalars l s s' : stack_frame l s s' →
  s'.(core).(pc) = s.(core).(pc) ∧ s'.(cur_inst) = s.(cur_inst) ∧ s'.(cur_inst_len) = s.(cur_inst_len)
  ∧ s'.(core).(interrupt_state) = s.(core).(interrupt_state).
Proof. intros [_ E]. destruct s as [[]], s' as [[]]. by injection E. Qed.

(** DO with an immediate count enters a loop: the outer LA and LC and then the
    address of the loop body and SR go on the stack, LA gets the last address of the
    loop from the second instruction word, LC the count, LF is set and no other bit of SR
    changes, and the instruction is two words long. *)
Lemma do_enters_loop (l : list (Z * Z)) (s : state)
    (Hs : stack_rep s l) (Hl : (length l < 13)%nat) (Himm : Z.testbit s.(cur_inst) 7 = true)
    (Hlen : s.(cur_inst_len) = 1) (Hpc : 0 <= s.(core).(pc) < 65534) :
  let p := s.(core).(pc) in
  ∃ s', dsp_do s = Ok tt s'
    ∧ stack_rep s' ((p + 2, u16 (reg s DSP_REG_SR)) :: (u16 (reg s DSP_REG_LA), u16 (reg s DSP_REG_LC)) :: l)
    ∧ reg s' DSP_REG_LA = p_word s (p + 1) mod 2 ^ 16 ∧ reg s' DSP_REG_LC = do_imm_count s.(cur_inst)
    ∧ (∀ k, 0 <= k → flag (reg s' DSP_REG_SR) k = (k =? DSP_SR_LF) || flag (reg s DSP_REG_SR) k)
    ∧ s'.(cur_inst_len) = 2 ∧ s'.(core).(pc) = p
    ∧ (∀ r, r ∉ [DSP_REG_SR; DSP_REG_LA; DSP_REG_LC; DSP_REG_SP; DSP_REG_SSH; DSP_REG_SSL] → reg s' r = reg s r).
Proof.
  intros p. apply wp_exists. unfold dsp_do. do 4 wp_step.
  destruct (push_run l (reg s DSP_REG_LA) (reg s DSP_REG_LC) s Hs) as (s1 & E1 & H1 & F1); [lia|].
  apply wp_bind, (wp_of_run _ _ _ _ _ E1). do 2 wp_step.
  destruct (stack_frame_scalars _ _ _ F1) as (Fpc & Fi & Fl & _). rewrite Fpc.
  apply wp_bind, (wp_of_run _ _ _ _ _ (read_p_run (p + 1) s1 ltac:(lia))).
  rewrite (p_word_stack_frame _ _ _ _ F1), land_BITMASK by lia. do 8 wp_step.
  cbn [cur_inst_len upd_reg upd_core s_core s_cur_inst_len]. rewrite Fl, Hlen. change (u32 (1 + 1)) with 2.
  set (s2 := s_cur_inst_len 2 _).
  assert (stack_rep s2 ((u16 (reg s DSP_REG_LA), u16 (reg s DSP_REG_LC)) :: l)) as H2.
  { eapply stack_rep_ext; [| |exact H1]; [done|]. intros r Hr. apply (reg_upd_ne _ _ _ s1). set_solver. }
  destruct (push_run _ (p + 2) (reg s2 DSP_REG_SR) s2 H2) as (s3 & E3 & H3 & F3); [cbn; lia|].
  apply wp_bind, (wp_of_run _ _ _ _ _ E3). unfold reg_or. do 4 wp_step. do 2 wp_step.
  destruct (stack_frame_scalars _ _ _ F3) as (Gpc & Gi & Gl & _).
  cbn [cur_inst upd_reg upd_core s_core]. rewrite Gi. change (cur_inst s2) with (cur_inst s1). rewrite Fi.
  rewrite bit_b2z, Himm by lia. apply (wp_call_table _ _ dsp_do_imm).
  { apply Z.lor_nonneg. split; [apply Z.shiftl_nonneg|cbn; lia]. pose proof (in_u_land_mask 2 (cur_inst s ≫ 14)) as Hx.
    unfold in_u in Hx. lia. }
  { pose proof (in_u_land_mask 2 (cur_inst s ≫ 14) ltac:(lia)) as Hx. unfold in_u in Hx. change (2 ^ 2) with 4 in Hx.
    assert (∃ x, (cur_inst s ≫ 14) .& BITMASK 2 = x ∧ (x = 0 ∨ x = 1 ∨ x = 2 ∨ x = 3)) as (x & -> & Hc) by (eexists; split; [done|lia]).
    by destruct Hc as [->|[->|[->| ->]]]. }
  unfold dsp_do_imm. do 2 wp_step. cbn [cur_inst upd_reg upd_core s_core]. rewrite Gi. change (cur_inst s2) with (cur_inst s1).
  rewrite Fi. wp_steps.
  assert (∀ r, r ∉ [DSP_REG_SP; DSP_REG_SSH; DSP_REG_SSL] → r ≠ DSP_REG_LA → reg s3 r = reg s r) as Hr.
  { intros r Hr1 Hr2. destruct F3 as [R3 _]. rewrite R3 by done. destruct F1 as [R1 _]. rewrite <- R1 by done.
    apply (reg_upd_ne _ _ _ s1). done. }
  split_and!.
  - rewrite u16_small in H3 by lia. change (reg s2 DSP_REG_SR) with (reg (upd_reg DSP_REG_LA (p_word s (p + 1) mod 2 ^ 16) s1) DSP_REG_SR) in H3.
    rewrite reg_upd_ne in H3 by lia. destruct F1 as [R1 _]. rewrite R1 in H3 by set_solver.
    eapply stack_rep_ext; [| |exact H3]; [done|]. intros r Hr'. rewrite !reg_upd_ne by set_solver. done.
  - reg_simpl. destruct F3 as [R3 _]. rewrite R3 by set_solver. apply (reg_upd_eq _ _ s1).
  - reg_simpl. unfold do_imm_count. by rewrite !land_BITMASK, shl_mul by lia.
  - intros k Hk. reg_simpl. rewrite Hr by (set_solver || lia). unfold flag.
    rewrite Z.lor_spec, Z.shiftl_1_l, Z.pow2_bits_eqb by lia. by rewrite orb_comm, Z.eqb_sym.
  - by cbn; rewrite Gl.
  - cbn. rewrite Gpc. exact Fpc.
  - intros r Hr'. rewrite !reg_upd_ne by set_solver. apply Hr; set_solver.
Qed.

(** [DO #3,p:5] at p:0. *)
Lemma do_enters_loop_witness :
  let s := s_cur_inst_len 1 (s_cur_inst 0x060380
    (upd_core (λ c, c_ramint (aset c.(ramint) (DSP_SPACE_P, 1) 5) c) zero_state)) in
  ∃ s', dsp_do s = Ok tt s' ∧ stack_rep s' [(2, 0); (0, 0)] ∧ reg s' DSP_REG_LA = 5 ∧ reg s' DSP_REG_LC = 3.
Proof.
  intros s. destruct (do_enters_loop [] s) as (s' & E & H1 & H2 & H3 & _).
  - do 3 (split; [reflexivity|]). split; [cbn; lia|]. intros i pc sr. by rewrite lookup_nil.
  - cbn. lia.
  - reflexivity.
  - reflexivity.
  - cbn. lia.
  - exists s'. split; [exact E|]. split; [exact H1|]. split; [exact H2|exact H3].
Defined.

(** ** Subroutines *)

Lemma wp_rts pc0 sr0 l (Q : unit → state → Prop) s :
  stack_rep s ((pc0, sr0) :: l) → in_u 16 pc0 →
  (∀ s', s'.(core).(pc) = pc0 → s'.(cur_inst_len) = 0 → stack_rep s' l →
     same_machine [DSP_REG_SP; DSP_REG_SSH; DSP_REG_SSL] s s' → Q tt s') →
  wp dsp_rts Q s.
Proof.
  intros Hs Hp HQ. destruct (pop_run _ _ _ _ Hs) as (s1 & E1 & H1 & F1). unfold dsp_rts, jump_to.
  apply wp_bind, (wp_of_run _ _ _ _ _ E1). cbn [default id]. wp_steps. unfold in_u in Hp. rewrite u16_small by lia.
  apply HQ; [done|done| |].
  - by eapply stack_rep_ext; [..|exact H1].
  - eapply same_machine_trans; [exact (frame_same_machine _ _ _ F1)|done].
Qed.

Lemma wp_rti pc0 sr0 l (Q : unit → state → Prop) s :
  stack_rep s ((pc0, sr0) :: l) → in_u 16 pc0 →
  (∀ s', s'.(core).(pc) = pc0 → s'.(cur_inst_len) = 0 → stack_rep s' l → reg s' DSP_REG_SR = sr0 →
     same_machine [DSP_REG_SR; DSP_REG_SP; DSP_REG_SSH; DSP_REG_SSL] s s' → Q tt s') →
  wp dsp_rti Q s.
Proof.
  intros Hs Hp HQ. destruct (pop_run _ _ _ _ Hs) as (s1 & E1 & H1 & F1). unfold dsp_rti.
  apply wp_bind, (wp_of_run _ _ _ _ _ E1). cbn [default id]. wp_steps. unfold in_u in Hp. rewrite u16_small by lia.
  apply HQ; [done|done| | |].
  - eapply stack_rep_ext; [| |exact H1]; [done|]. intros r Hr. unfold reg. cbn. rewrite aget_aset_ne; [done|]. set_solver.
  - by cells.
  - eapply same_machine_trans.
    + eapply same_machine_mono; [|exact (frame_same_machine _ _ _ F1)]. set_solver.
    + split; [|done]. intros r Hr. unfold reg. cbn. rewrite aget_aset_ne; [done|]. set_solver.
Qed.

(** C33: JSR to a short address jumps there and leaves the return address and SR on the
    stack; whatever the subroutine does, when it has left the stack as it found it RTS
    continues behind the JSR, RTI does so with the SR of the call, and the caller's stack
    is back. *)
Theorem call_returns (l : list (Z * Z)) (s : state)
    (Hs : stack_rep s l) (Hl : (length l < 14)%nat) (Hlen : s.(cur_inst_len) = 1)
    (Hpc : 0 <= s.(core).(pc) < 65535) (Hshort : (s.(cur_inst) ≫ 12) mod 16 = 0)
    (Hint : s.(core).(interrupt_state) ≠ DSP_INTERRUPT_LONG) :
  let frame0 := (s.(core).(pc) + 1, u16 (reg s DSP_REG_SR)) :: l in
  (∃ s', dsp_jsr s = Ok tt s' ∧ s'.(core).(pc) = s.(cur_inst) mod 4096 ∧ s'.(cur_inst_len) = 0
     ∧ stack_rep s' frame0 ∧ ∀ r, r ∉ [DSP_REG_SP; DSP_REG_SSH; DSP_REG_SSL] → reg s' r = reg s r)
  ∧ ∀ s2, stack_rep s2 frame0 →
    (∃ s3, dsp_rts s2 = Ok tt s3 ∧ s3.(core).(pc) = s.(core).(pc) + 1 ∧ stack_rep s3 l
       ∧ same_machine [DSP_REG_SP; DSP_REG_SSH; DSP_REG_SSL] s2 s3)
    ∧ (∃ s3, dsp_rti s2 = Ok tt s3 ∧ s3.(core).(pc) = s.(core).(pc) + 1 ∧ stack_rep s3 l
       ∧ reg s3 DSP_REG_SR = u16 (reg s DSP_REG_SR)
       ∧ same_machine [DSP_REG_SR; DSP_REG_SP; DSP_REG_SSH; DSP_REG_SSL] s2 s3).
Proof.
  intros frame0. split; [|intros s2 H2; split].
  - apply wp_exists. unfold dsp_jsr. do 2 wp_step. rewrite !land_BITMASK by lia. change (2 ^ 4) with 16.
    rewrite Hshort. change (0 =? 0) with true. cbv iota. do 4 wp_step. rewrite (proj2 (Z.eqb_neq _ _) Hint).
    cbn [negb]. unfold push_return. apply wp_bind. do 6 wp_step. rewrite Hlen.
    destruct (push_run l (s.(core).(pc) + 1) (reg s DSP_REG_SR) s Hs Hl) as (s1 & E1 & H1 & F1).
    apply (wp_of_run _ _ _ _ _ E1). unfold jump_to. wp_steps. rewrite (u16_small (_ + 1)) in H1 by lia.
    change (2 ^ 12) with 4096. rewrite u16_small by (Z.div_mod_to_equations; lia).
    split; [done|]. split; [done|]. split; [by eapply stack_rep_ext; [..|exact H1]|]. apply F1.
  - apply wp_exists, (wp_rts _ _ _ _ _ H2); [unfold in_u; lia|]. done.
  - apply wp_exists, (wp_rti _ _ _ _ _ H2); [unfold in_u; lia|]. done.
Qed.

Lemma call_returns_witness :
  let s := upd_core (c_pc 0x100) (s_cur_inst_len 1 (s_cur_inst 0x0d0042 zero_state)) in
  ∃ s1 s2, dsp_jsr s = Ok tt s1 ∧ s1.(core).(pc) = 0x42 ∧ dsp_rts s1 = Ok tt s2 ∧ s2.(core).(pc) = 0x101.
Proof.
  intros s. destruct (call_returns [] s) as [(s1 & E1 & P1 & _ & H1 & _) Hret].
  - do 3 (split; [reflexivity|]). split; [cbn; lia|]. intros i pc sr. by rewrite lookup_nil.
  - cbn. lia.
  - reflexivity.
  - cbn. lia.
  - reflexivity.
  - discriminate.
  - destruct (proj1 (Hret s1 H1)) as (s2 & E2 & P2 & _).
    exists s1, s2. split; [exact E1|]. split; [exact P1|]. split; [exact E2|exact P2].
Defined.

(** ** Two instructions that do not do what they are meant to *)

(** [JSSET #0,X0,p:xxxx], a call when the bit is set, is dispatched to [dsp_jsclr]: the
    subroutine is called exactly when the bit is clear. *)
Lemma jsset_register_inverted (l : list (Z * Z)) (s : state)
    (Hs : stack_rep s l) (Hl : (length l < 14)%nat) (Hi : s.(cur_inst) = 0x0bc420)
    (Hlen : s.(cur_inst_len) = 1) (Hpc : 0 <= s.(core).(pc) < 65534) :
  if Z.testbit (reg s DSP_REG_X0) 0 then opcode8h_b s = Ok tt (s_cur_inst_len 2 s)
  else ∃ s', opcode8h_b s = Ok tt s' ∧ s'.(core).(pc) = u16 (p_word s (s.(core).(pc) + 1))
    ∧ stack_rep s' ((s.(core).(pc) + 2, u16 (reg s DSP_REG_SR)) :: l).
Proof.
  assert (∀ Q : unit → state → Prop,
    wp (when (negb (Z.testbit (reg s DSP_REG_X0) 0)) (push_return;; pc ← get_pc; newpc ← read_memory_p (pc + 1); jump_to newpc))
      Q (s_cur_inst_len 2 s) → wp opcode8h_b Q s) as Hstart.
  { intros Q HQ. unfold opcode8h_b. do 2 wp_step. rewrite Hi. apply (wp_call_table _ _ dsp_jsclr); [done|done|].
    unfold dsp_jsclr, jump_sub_on_bit, jump_operand, bit_addr. do 2 wp_step. rewrite Hi.
    change ((0x0bc420 ≫ 14) .& BITMASK 2) with 3. cbn [Z.eqb Pos.eqb]. do 2 wp_step.
    change (bit_reg ((0x0bc420 ≫ 8) .& BITMASK 6)) with DSP_REG_X0. wp_steps. rewrite Hlen.
    change (0x0bc420 .& BITMASK 5) with 0. apply wp_int_bit; [lia|]. rewrite nz_land_bit by lia. change (u32 (1 + 1)) with 2.
    by destruct (Z.testbit (reg s DSP_REG_X0) 0). }
  destruct (Z.testbit (reg s DSP_REG_X0) 0); cbn [negb when] in Hstart.
  - apply wp_eq, Hstart. by wp_steps.
  - apply wp_exists, Hstart. unfold push_return. wp_step. do 6 wp_step.
    assert (stack_rep (s_cur_inst_len 2 s) l) as Hs2 by (by eapply stack_rep_ext; [..|exact Hs]).
    destruct (push_run l (s.(core).(pc) + 2) (reg s DSP_REG_SR) _ Hs2 Hl) as (s1 & E1 & H1 & F1).
    apply (wp_of_run _ _ _ _ _ E1). destruct (stack_frame_scalars _ _ _ F1) as (Fpc & _). do 2 wp_step. rewrite Fpc.
    apply wp_bind, (wp_of_run _ _ _ _ _ (read_p_run (s.(core).(pc) + 1) s1 ltac:(lia))).
    unfold jump_to. wp_steps. rewrite (p_word_stack_frame _ _ _ _ F1). split; [done|].
    rewrite (u16_small (_ + 2)) in H1 by lia. by eapply stack_rep_ext; [..|exact H1].
Qed.

Lemma jsset_register_inverted_witness :
  let s := s_cur_inst_len 1 (s_cur_inst 0x0bc420 (upd_reg DSP_REG_X0 1 zero_state)) in
  opcode8h_b s = Ok tt (s_cur_inst_len 2 s).
Proof.
  intros s. apply (jsset_register_inverted [] s).
  - do 3 (split; [reflexivity|]). split; [cbn; lia|]. intros i pc sr. by rewrite lookup_nil.
  - cbn. lia.
  - reflexivity.
  - reflexivity.
  - cbn. lia.
Defined.

(** [MOVE X0,R0]: the 24 bits of the source arrive in the 16 bit address register. *)
Example register_move_not_masked :
  let s := upd_core (λ c, c_ramint (aset c.(ramint) (DSP_SPACE_P, 0) 0x209000) c) (upd_reg DSP_REG_X0 0x123456 zero_state) in
  match dsp56k_execute_instruction s with
  | Ok _ s' => reg s' DSP_REG_R0 = 0x123456
  | UB _ => False
  end.
Proof. vm_compute. reflexivity. Qed.
