(* ===== verification/RepSpec.v ===== *)
(** * Repeated instructions, from fetch to fetch

    REP with an immediate count, for any repeated instruction of one word, and a program
    followed through the whole interpreter: REP with a multiply-accumulate. *)

From S2P Require Import Prelude DspState HostPort Memory Arith56 Ccr Alu Agu ParMove Control Exec Wp CcrSpec AluSpec MemSpec AguSpec ExecSpec.

(** The word of [REP #n]. *)
Definition rep_imm_word (n : Z) : Z := 0x0600a0 + (n mod 256) * 256 + n / 256.

(** What the repeated instruction keeps, besides what [same_machine] says: the variables
    of the loop and of the decoder, and the upper bits of SR. *)
Definition body_keeps (s s' : state) : Prop :=
  s'.(core).(pc) = s.(core).(pc) ∧ s'.(core).(loop_rep) = s.(core).(loop_rep)
  ∧ s'.(pc_on_rep) = s.(pc_on_rep) ∧ s'.(cur_inst_len) = s.(cur_inst_len)
  ∧ ∀ k, 7 <= k < 16 → flag (reg s' DSP_REG_SR) k = flag (reg s DSP_REG_SR) k.

(** An arithmetic instruction without a parallel move. *)
Definition no_moves (s : state) : state :=
  s_parmove (p_len (aset (aset s.(parmove).(tmp_parmove_len) 1 0) 0 0) s.(parmove)) s.

(** What holds after [i] MACs. *)
Definition mac_sum (s0 : state) (inst : Z) (i : nat) (s : state) : Prop :=
  let d := dest_bit inst in
  data_wf s ∧ sval (accu_of s d) = wrap56 (sval (accu_of s0 d) + Z.of_nat i * mpy_value s0 inst).

(** A quarter is added three times to zero: [REP #3], [MAC X0,Y0,A] with X0 and Y0 a half. *)
Definition rep_demo : state :=
  upd_core (λ c, c_running 1 (c_ramint (aset (aset c.(ramint) (DSP_SPACE_P, 0) 0x0603a0) (DSP_SPACE_P, 1) 0x2000d2) c))
    (upd_reg DSP_REG_X0 0x400000 (upd_reg DSP_REG_Y0 0x400000 zero_state)).

(** The fields of [REP #n]. *)
Lemma rep_imm_fields n : 0 <= n < 4096 →
  let w := rep_imm_word n in
  in_u 24 w ∧ (w ≫ 16) .& BITMASK 8 = 6 ∧ nz (w .& (1 ≪ 5)) = true ∧ (w ≫ 7) .& 1 = 1
  ∧ ((w ≫ 8) .& BITMASK 8) + ((w .& BITMASK 4) ≪ 8) = n ∧ w .& 0xfe4000 ≠ 0x080000.
Proof.
  intros Hn w. rewrite nz_land_bit by lia.
  assert (Z.testbit w 5 = true) as ->.
  { pose proof (testbit_mod2 w 5 ltac:(lia)) as E. unfold w, rep_imm_word in *. change (2 ^ 5) with 32 in E.
    destruct (Z.testbit _ 5); [done|]. cbn [Z.b2z] in E. Z.div_mod_to_equations. lia. }
  unfold w, rep_imm_word, in_u.
  assert (((rep_imm_word n) .& 0xfe4000) ≫ 19 = 0) as H19.
  { rewrite Z.shiftr_land, !shr_div by lia. unfold rep_imm_word. change (2 ^ 19) with 524288.
    replace ((0x0600a0 + n mod 256 * 256 + n / 256) / 524288) with 0 by (Z.div_mod_to_equations; lia). done. }
  rewrite !land_BITMASK, !(land_ones_const _ 1 1), !shl_mul, !shr_div by lia.
  change (2 ^ 16) with 65536. change (2 ^ 8) with 256. change (2 ^ 4) with 16. change (2 ^ 5) with 32.
  change (2 ^ 7) with 128. change (2 ^ 24) with 16777216. change (2 ^ 1) with 2.
  split; [Z.div_mod_to_equations; lia|]. split; [Z.div_mod_to_equations; lia|].
  split; [done|]. split; [Z.div_mod_to_equations; lia|].
  split; [Z.div_mod_to_equations; lia|]. fold (rep_imm_word n). intros E. by rewrite E in H19.
Qed.

(** [REP #n] starts the repetition. *)
Lemma wp_rep_imm n (Q : unit → state → Prop) s :
  0 <= n < 4096 → s.(cur_inst) = rep_imm_word n →
  Q tt (upd_core (c_loop_rep 1) (s_pc_on_rep 1 (upd_reg DSP_REG_LC n (upd_reg DSP_REG_LCSAVE (reg s DSP_REG_LC) s)))) →
  wp execute_decoded Q s.
Proof.
  intros Hn Hi HQ. destruct (rep_imm_fields n Hn) as (Hw & E1 & E2 & E3 & E4 & E5).
  unfold execute_decoded. do 2 wp_step. rewrite Hi, E1. change (6 <? 0x10) with true.
  rewrite (proj2 (Z.eqb_neq _ _) E5). cbn [andb negb].
  apply (wp_call_table _ _ opcode8h_6); [lia|done|]. unfold opcode8h_6. do 2 wp_step. rewrite Hi, E2. cbv iota.
  unfold dsp_rep. do 6 wp_step. cbn [cur_inst upd_reg upd_core s_core]. rewrite Hi, E3. wp_step.
  pose proof (in_u_land_mask 2 (rep_imm_word n ≫ 14) ltac:(lia)) as Hx. unfold in_u in Hx. change (2 ^ 2) with 4 in Hx.
  apply (wp_call_table _ _ dsp_rep_imm).
  - apply Z.lor_nonneg. split; [apply Z.shiftl_nonneg; lia|lia].
  - assert (rep_imm_word n ≫ 14 .& BITMASK 2 = 0 ∨ rep_imm_word n ≫ 14 .& BITMASK 2 = 1
      ∨ rep_imm_word n ≫ 14 .& BITMASK 2 = 2 ∨ rep_imm_word n ≫ 14 .& BITMASK 2 = 3) as [->|[->|[->| ->]]] by lia; done.
  - unfold dsp_rep_imm. do 2 wp_step. cbn [cur_inst upd_reg upd_core s_core]. rewrite Hi, E4. wp_steps. exact HQ.
Qed.

Lemma rep_count_range n : 0 <= n < 4096 → 1 <= rep_count n <= 65536.
Proof. intros. unfold rep_count. destruct (Z.eqb_spec n 0); lia. Qed.

(** ** REP of any instruction *)

Section rep.
(** [l]: the registers the repeated instruction may change; [J i]: what holds after
    [i] repetitions; [n]: their number. *)
Context (l : list Z) (J : nat → state → Prop) (s0 : state) (inst p n : Z).
Hypothesis l_lc : DSP_REG_LC ∉ l ∧ DSP_REG_LCSAVE ∉ l.
Hypothesis J_ext : ∀ i s s', same_machine [DSP_REG_LC; DSP_REG_LCSAVE] s s' → J i s → J i s'.
Hypothesis p_range : 0 <= p < 65534.
Hypothesis n_range : 1 <= n <= 65536.
Hypothesis no_loop : flag (reg s0 DSP_REG_SR) DSP_SR_LF = false.
Hypothesis no_interrupt : quiet s0.
Hypothesis is_running : nz s0.(core).(running) = true.
Hypothesis inst_word : p_word s0 (p + 1) = inst.
Hypothesis body : ∀ i s, Z.of_nat i < n → J i s →
  same_machine (DSP_REG_LC :: DSP_REG_LCSAVE :: l) s0 s → s.(cur_inst) = inst → s.(cur_inst_len) = 1 →
  wp execute_decoded (λ _ s', J (S i) s' ∧ same_machine l s s' ∧ body_keeps s s') s.

(** The machine after [i] repetitions. *)
Definition rep_state (i : nat) (s : state) : Prop :=
  same_machine (DSP_REG_LC :: DSP_REG_LCSAVE :: l) s0 s
  ∧ (∀ k, 7 <= k < 16 → flag (reg s DSP_REG_SR) k = flag (reg s0 DSP_REG_SR) k)
  ∧ J i s ∧ s.(pc_on_rep) = 0 ∧ reg s DSP_REG_LCSAVE = reg s0 DSP_REG_LC
  ∧ if Z.of_nat i =? n then s.(core).(pc) = p + 2 ∧ s.(core).(loop_rep) = 0 ∧ reg s DSP_REG_LC = reg s0 DSP_REG_LC
    else s.(core).(pc) = p + 1 ∧ s.(core).(loop_rep) = 1 ∧ reg s DSP_REG_LC = n - Z.of_nat i.

(** The interrupt test at the end of a repetition. *)
Lemma rep_interrupts i s1 s2 (Q : unit → state → Prop) :
  same_machine (DSP_REG_LC :: DSP_REG_LCSAVE :: l) s0 s1 →
  (∀ k, 7 <= k < 16 → flag (reg s1 DSP_REG_SR) k = flag (reg s0 DSP_REG_SR) k) → J i s1 →
  reg s1 DSP_REG_LCSAVE = reg s0 DSP_REG_LC → same_machine [DSP_REG_LC] s1 s2 → s2.(pc_on_rep) = 0 →
  (if Z.of_nat i =? n then s2.(core).(pc) = p + 2 ∧ s2.(core).(loop_rep) = 0 ∧ reg s2 DSP_REG_LC = reg s0 DSP_REG_LC
   else s2.(core).(pc) = p + 1 ∧ s2.(core).(loop_rep) = 1 ∧ reg s2 DSP_REG_LC = n - Z.of_nat i) →
  (rep_state i s2 → Q tt s2) → wp dsp_postexecute_interrupts Q s2.
Proof.
  intros Hsm Hfl HJ Hls Hsm2 Hpr2 Hst HQ.
  assert (∀ r, r ≠ DSP_REG_LC → reg s2 r = reg s1 r) as Hr.
  { intros r Hr. apply Hsm2. by rewrite list_elem_of_singleton. }
  assert (same_machine (DSP_REG_LC :: DSP_REG_LCSAVE :: l) s0 s2) as Hsm02.
  { eapply same_machine_trans; [exact Hsm|]. eapply same_machine_mono; [|exact Hsm2]. set_solver. }
  apply (wp_of_run _ _ tt _ s2).
  - apply interrupts_quiet. eapply quiet_same; [exact Hsm02| |exact no_interrupt]. rewrite Hr by done. by apply Hfl.
  - apply HQ. split; [exact Hsm02|]. split; [intros k Hk; rewrite Hr by done; by apply Hfl|].
    split; [|by rewrite Hr]. eapply J_ext; [|exact HJ]. eapply same_machine_mono; [|exact Hsm2]. set_solver.
Qed.

Lemma rep_step i s :
  Z.of_nat i < n → rep_state i s →
  nz s.(core).(running) = true ∧ ∃ s', dsp56k_execute_instruction s = Ok tt s' ∧ rep_state (S i) s'.
Proof.
  intros Hi (Hsm & Hfl & HJ & Hpr & Hls & Hst). rewrite (proj2 (Z.eqb_neq (Z.of_nat i) n)) in Hst by lia.
  destruct Hst as (Hpc & Hlr & Hlc). split; [by destruct Hsm as (_ & _ & _ & _ & _ & _ & _ & -> & _)|].
  apply wp_exists, wp_execute_instruction; [rewrite Hpc; lia|].
  assert (same_machine (DSP_REG_LC :: DSP_REG_LCSAVE :: l) s0 (fetched s)) as Hsmf by done.
  eapply wp_mono.
  { apply (body i); [done| |done| |done].
    - by eapply J_ext; [|exact HJ].
    - cbn. by rewrite Hpc, (p_word_same _ _ _ _ Hsm). }
  cbv beta. intros [] s1 (HJ1 & Hsm1 & Fpc & Flr & Fpr & Fl & Ffl).
  assert (∀ r, r ∉ l → reg s1 r = reg s r) as Hr1 by apply Hsm1.
  assert (same_machine (DSP_REG_LC :: DSP_REG_LCSAVE :: l) s0 s1) as Hsm01.
  { eapply same_machine_trans; [exact Hsmf|]. eapply same_machine_mono; [|exact Hsm1]. set_solver. }
  assert (∀ k, 7 <= k < 16 → flag (reg s1 DSP_REG_SR) k = flag (reg s0 DSP_REG_SR) k) as Hfl1.
  { intros k Hk. rewrite Ffl by done. by apply Hfl. }
  assert (flag (reg s1 DSP_REG_SR) DSP_SR_LF = false) as Hlf1 by (by rewrite Hfl1).
  assert (reg s1 DSP_REG_LCSAVE = reg s0 DSP_REG_LC) as Hls1 by (by rewrite Hr1 by apply l_lc).
  assert (reg s1 DSP_REG_LC = n - Z.of_nat i) as Hlc1 by (by rewrite Hr1 by apply l_lc).
  destruct (Z.eqb_spec (Z.of_nat (S i)) n) as [E|E].
  - apply wp_update_pc_last; [by rewrite Flr; cbn; rewrite Hlr|by rewrite Fpr|rewrite Hlc1; lia|by rewrite Fl|done|].
    intros s2 Hsm2 Hlc2 Hpc2 Hlr2 Hpr2. eapply (rep_interrupts (S i)); try done.
    rewrite (proj2 (Z.eqb_eq _ _) E), Hpc2, Fpc. cbn. rewrite Hpc, u16_small by lia. split; [lia|]. split; [done|]. congruence.
  - apply (wp_update_pc_again (n - Z.of_nat i)); [by rewrite Flr; cbn; rewrite Hlr|by rewrite Fpr|done|lia|done|].
    intros s2 Hsm2 Hlc2 Hpc2 Hlr2 Hpr2. eapply (rep_interrupts (S i)); try done.
    rewrite (proj2 (Z.eqb_neq _ _) E), Hpc2, Fpc, Hlr2, Flr. cbn. split; [done|]. split; [done|lia].
Qed.

(** [REP #k] at [p]. *)
Lemma rep_start k :
  0 <= k < 4096 → n = rep_count k → s0.(core).(pc) = p → p_word s0 p = rep_imm_word k → J 0 s0 →
  ∃ s', dsp56k_execute_instruction s0 = Ok tt s' ∧ rep_state 0 s'.
Proof.
  intros Hk En Hpc Hrep HJ. apply wp_exists, wp_execute_instruction; [lia|].
  apply (wp_rep_imm k); [done|cbn; by rewrite Hpc|]. set (s1 := upd_core _ _).
  apply wp_update_pc_start; [done|done|done|unfold s1; by cells|]. intros s2 Hsm Hlc Hpc2 Hlr Hpr.
  assert (same_machine [DSP_REG_LC; DSP_REG_LCSAVE] s0 s1) as Hsm1.
  { split; [|done]. intros r Hr. rewrite !not_elem_of_cons in Hr. unfold s1, reg. cbn.
    rewrite !aget_aset_ne; [done|..]; intros [= <-]; naive_solver. }
  eapply (rep_interrupts 0 s1 s2).
  - eapply same_machine_mono; [|exact Hsm1]. set_solver.
  - intros j Hj. unfold s1. by cells.
  - by eapply J_ext.
  - unfold s1. by cells.
  - done.
  - done.
  - rewrite (proj2 (Z.eqb_neq _ _)) by lia. rewrite Hpc2, Hlr, Hlc. unfold s1. cells.
    rewrite Hpc, u16_small, En by lia. split; [done|]. split; [done|lia].
  - done.
Qed.

(** The repetition as a whole. *)
Lemma rep_run k :
  0 <= k < 4096 → n = rep_count k → s0.(core).(pc) = p → p_word s0 p = rep_imm_word k → J 0 s0 →
  ∃ s', exec_insts (S (Z.to_nat n)) s0 = Ok tt s' ∧ J (Z.to_nat n) s'
    ∧ s'.(core).(pc) = p + 2 ∧ s'.(core).(loop_rep) = 0 ∧ reg s' DSP_REG_LC = reg s0 DSP_REG_LC
    ∧ same_machine (DSP_REG_LC :: DSP_REG_LCSAVE :: l) s0 s'.
Proof.
  intros Hk En Hpc Hrep HJ. destruct (rep_start k) as (s1 & E1 & H1); try done.
  destruct (exec_insts_walk rep_state (Z.to_nat n)) with (k := Z.to_nat n) (i := 0%nat) (s := s1)
    as (s' & E' & (Hsm & _ & HJ' & _ & _ & Hst)); [|done|done|].
  { intros i si Hi. apply rep_step. lia. }
  rewrite Z2Nat.id, Z.eqb_refl in Hst by lia. destruct Hst as (Hpc' & Hlr & Hlc).
  exists s'. split; [|done]. cbn [exec_insts]. erewrite bind_ok by reflexivity. rewrite is_running. cbn [when].
  by erewrite bind_ok by exact E1.
Qed.
End rep.

(** ** REP of a MAC *)

Lemma wp_nomove_alu80 op m (Q : unit → state → Prop) s :
  s.(cur_inst) = 0x200000 + op → 0x80 <= op < 0x100 → opcodes_alu80ff !! Z.to_nat (op mod 4) = Some m →
  wp m (λ _ s', s'.(parmove) = (no_moves s).(parmove) ∧ Q tt s') (no_moves s) →
  wp execute_decoded Q s.
Proof.
  intros Hi Hop Hm HQ.
  assert ((0x200000 + op) ≫ 16 .& BITMASK 8 = 0x20) as E1.
  { rewrite land_BITMASK, shr_div by lia. change (2 ^ 16) with 65536. change (2 ^ 8) with 256. Z.div_mod_to_equations. lia. }
  assert ((0x200000 + op) ≫ 20 .& BITMASK 4 = 2) as E2.
  { rewrite land_BITMASK, shr_div by lia. change (2 ^ 20) with 1048576. change (2 ^ 4) with 16. Z.div_mod_to_equations. lia. }
  assert ((0x200000 + op) ≫ 8 .& 0xffff = 0x2000) as E3.
  { rewrite (land_ones_const _ 0xffff 16), shr_div by lia. change (2 ^ 8) with 256. change (2 ^ 16) with 65536.
    Z.div_mod_to_equations. lia. }
  assert ((0x200000 + op) .& BITMASK 8 = op) as E4.
  { rewrite land_BITMASK by lia. change (2 ^ 8) with 256. Z.div_mod_to_equations. lia. }
  unfold execute_decoded. do 2 wp_step. rewrite Hi, E1. change (0x20 <? 0x10) with false. cbn [andb].
  apply wp_bind. unfold dsp_parmove_read.
  apply wp_bind, wp_set_pm_len; [lia|]. apply wp_bind, wp_set_pm_len; [lia|]. do 2 wp_step.
  cbn [cur_inst s_parmove]. rewrite Hi, E2. apply (wp_call_table _ _ dsp_pm_2); [lia|done|].
  unfold dsp_pm_2. do 2 wp_step. cbn [cur_inst s_parmove]. rewrite Hi, E3.
  change (0x2000 =? 0x2000) with true. cbv iota. wp_step. do 2 wp_step. cbn [cur_inst s_parmove]. rewrite Hi, E4.
  rewrite (proj2 (Z.ltb_ge op 0x40)), (proj2 (Z.ltb_ge op 0x80)) by lia. rewrite land_BITMASK by lia.
  apply wp_bind, (wp_call_table _ _ m); [by apply Z.mod_pos_bound|done|].
  eapply wp_mono; [exact HQ|]. cbv beta. intros [] s' [Hp HQ']. unfold dsp_parmove_write, parmove_write_move.
  wp_step. do 4 wp_step. rewrite Hp. cbn [no_moves parmove tmp_parmove_len s_parmove p_len].
  rewrite aget_aset_eq. change (Z.to_nat 0) with 0%nat. cbn [for_loop]. wp_step. do 4 wp_step. rewrite Hp.
  cbn [no_moves parmove tmp_parmove_len s_parmove p_len]. rewrite aget_aset_ne, aget_aset_eq by done. by wp_steps.
Qed.

Lemma wrap56_add x y : wrap56 (wrap56 x + y) = wrap56 (x + y).
Proof. unfold wrap56. pow2. Z.div_mod_to_equations. lia. Qed.

Lemma mpy_value_ext s s' inst :
  (∀ r, 4 <= r < 8 → reg s' r = reg s r) → mpy_value s' inst = mpy_value s inst.
Proof.
  intros H. unfold mpy_value, source_code. pose proof (code_range inst) as Hc.
  assert (∃ k, (k < 8)%nat ∧ Z.to_nat (inst ≫ 4 .& BITMASK 3) = k) as (k & Hk & ->) by (eexists; split; [|done]; lia).
  do 8 (destruct k as [|k]; [cbn -[reg signed]; by rewrite !H by lia|]). lia.
Qed.

(** The fields of an arithmetic instruction without a parallel move. *)
Lemma nomove_fields s op : 0x80 <= op < 0x100 →
  dest_bit (0x200000 + op) = dest_bit op ∧ mpy_value s (0x200000 + op) = mpy_value s op.
Proof.
  intros Hop. assert (∀ k, 0 <= k < 8 → Z.testbit (0x200000 + op) k = Z.testbit op k) as Hb.
  { intros k Hk. rewrite <- (Z.mod_pow2_bits_low _ 8 k), <- (Z.mod_pow2_bits_low op 8 k) by lia. f_equal.
    change (2 ^ 8) with 256. Z.div_mod_to_equations. lia. }
  assert (source_code (0x200000 + op) = source_code op) as Es.
  { unfold source_code. rewrite !land_BITMASK, !shr_div by lia. change (2 ^ 4) with 16. change (2 ^ 3) with 8.
    Z.div_mod_to_equations. lia. }
  split; [unfold dest_bit; by rewrite !bit_b2z, Hb by lia|]. unfold mpy_value. by rewrite Es, Hb by lia.
Qed.

Lemma reg_same_machine l s s' r : same_machine l s s' → r ∉ l → reg s' r = reg s r.
Proof. intros [H _]. apply H. Qed.

Lemma accu_same_machine l s s' m :
  same_machine l s s' → (∀ r, 0 <= r < 40 → r ∉ l) → 0 <= m < 2 → accu_of s' m = accu_of s m.
Proof. intros H Hl Hm. unfold accu_of. rewrite !(reg_same_machine l s s') by (done || (apply Hl; lia)). done. Qed.

Lemma data_wf_same l s s' :
  same_machine l s s' → (∀ r, 0 <= r < 40 → r ∉ l) → data_wf s → data_wf s'.
Proof.
  intros H Hl Hw m Hm. rewrite (accu_same_machine l s s'), !(reg_same_machine l s s') by (done || (apply Hl; lia)).
  by apply Hw.
Qed.

Lemma lc_regs r : 0 <= r < 40 → r ∉ [DSP_REG_LC; DSP_REG_LCSAVE].
Proof. intros. rewrite !elem_of_cons, elem_of_nil. lia. Qed.

Lemma lc_not_accu d : 0 <= d < 2 → DSP_REG_LC ∉ DSP_REG_SR :: accu_regs d ∧ DSP_REG_LCSAVE ∉ DSP_REG_SR :: accu_regs d.
Proof. intros. unfold accu_regs. rewrite !elem_of_cons, !elem_of_nil. lia. Qed.

(** One MAC without a parallel move. *)
Lemma mac_body s0 op i s :
  let inst := 0x200000 + op in
  let d := dest_bit inst in
  0x80 <= op < 0x100 → op mod 4 = 2 → mac_sum s0 inst i s →
  same_machine (DSP_REG_LC :: DSP_REG_LCSAVE :: DSP_REG_SR :: accu_regs d) s0 s → s.(cur_inst) = inst →
  wp execute_decoded (λ _ s', mac_sum s0 inst (S i) s' ∧ same_machine (DSP_REG_SR :: accu_regs d) s s' ∧ body_keeps s s') s.
Proof.
  intros inst d Hop Hop2 [Hwf Hacc] Hsm Hci. fold d in Hacc. pose proof (dest_range inst) as Hd. fold d in Hd.
  apply (wp_nomove_alu80 op dsp_mac); [done|done|by rewrite Hop2|].
  destruct (mac_run (no_moves s)) as (s1 & E1 & Hwf1 & Hv1 & Hf1 & Hfr1); [done|].
  apply (wp_of_run _ _ _ _ _ E1). pose proof (frame_scalars _ _ _ Hfr1) as (Fpc & Flr & Fpr & Fl & Fpm).
  change (cur_inst (no_moves s)) with (cur_inst s) in *. rewrite Hci in *. fold d in Hv1, Hf1, Hfr1.
  split; [done|]. split; [|split].
  - split; [done|]. fold d. rewrite Hv1. change (accu_of (no_moves s) d) with (accu_of s d). rewrite Hacc, wrap56_add.
    assert (mpy_value (no_moves s) inst = mpy_value s0 inst) as ->.
    { apply mpy_value_ext. intros r Hr. apply Hsm. unfold accu_regs. rewrite !elem_of_cons, elem_of_nil. lia. }
    f_equal. lia.
  - exact (frame_same_machine _ _ _ Hfr1).
  - split_and!; try done. intros k Hk. destruct Hf1 as (_ & _ & _ & _ & _ & _ & _ & Hf1). by apply Hf1.
Qed.

(** [REP #n] followed by a MAC without a parallel move, at any address of program
    memory: after the REP and as many instruction cycles as the count says (n, or 65536
    for 0), each through fetch, decode, execution, PC update and interrupt test, the
    accumulator has received the product that many times, PC is behind the MAC, the
    loop count register has its old value, the repetition is over, and memory, stack,
    peripherals and all other registers are untouched. *)
Lemma rep_mac_correct (op n p : Z) (s : state)
    (Hop : 0x80 <= op < 0x100) (Hmac : op mod 4 = 2) (Hn : 0 <= n < 4096) (Hp : 0 <= p < 65534)
    (Hpc : s.(core).(pc) = p) (Hrep : p_word s p = rep_imm_word n) (Hw : p_word s (p + 1) = 0x200000 + op)
    (Hwf : data_wf s) (Hq : quiet s) (Hlf : flag (reg s DSP_REG_SR) DSP_SR_LF = false)
    (Hrun : nz s.(core).(running) = true) :
  let d := dest_bit op in
  ∃ s', exec_insts (S (Z.to_nat (rep_count n))) s = Ok tt s'
    ∧ sval (accu_of s' d) = wrap56 (sval (accu_of s d) + rep_count n * mpy_value s op)
    ∧ s'.(core).(pc) = p + 2 ∧ s'.(core).(loop_rep) = 0 ∧ reg s' DSP_REG_LC = reg s DSP_REG_LC
    ∧ same_machine (DSP_REG_LC :: DSP_REG_LCSAVE :: DSP_REG_SR :: accu_regs d) s s'.
Proof.
  pose proof (nomove_fields s op Hop) as [Ed Em]. rewrite <- Em, <- Ed. intros d.
  set (inst := 0x200000 + op) in *. pose proof (rep_count_range n Hn) as Hc. pose proof (dest_range inst) as Hd. fold d in Hd.
  destruct (rep_run (DSP_REG_SR :: accu_regs d) (mac_sum s inst) s inst p (rep_count n)) with (k := n)
    as (s' & E & [_ Hv] & Hpc' & Hlr & Hlc & Hsm); try done.
  - by apply lc_not_accu.
  - intros i s1 s2 H12 [Hw1 Hv1]. split; [by apply (data_wf_same _ s1 s2 H12 lc_regs)|].
    fold d. by rewrite (accu_same_machine _ s1 s2 d H12 lc_regs Hd).
  - intros i si _ HJ Hsm Hci _. by apply mac_body.
  - split; [done|]. fold d. rewrite Z.mul_0_l, Z.add_0_r, wrap56_small by (by apply sval_range, Hwf). done.
  - fold d in Hv. rewrite Z2Nat.id in Hv by lia. by exists s'.
Qed.

Lemma rep_mac_correct_witness :
  ∃ s', exec_insts 4 rep_demo = Ok tt s' ∧ sval (accu_of s' 0) = 3 * 2 ^ 45 ∧ s'.(core).(pc) = 2.
Proof.
  destruct (rep_mac_correct 0xd2 3 0 rep_demo) as (s' & E & Hv & Hpc & _).
  - lia.
  - reflexivity.
  - lia.
  - lia.
  - reflexivity.
  - reflexivity.
  - reflexivity.
  - intros n Hn. assert (n = 0 ∨ n = 1) as [->| ->] by lia.
    all: split; [split; [|split]|split]; apply in_ub_spec; vm_compute; reflexivity.
  - repeat split; done.
  - reflexivity.
  - reflexivity.
  - exists s'. split; [exact E|]. split; [exact Hv|exact Hpc].
Defined.

