(* ===== verification/FirSpec.v ===== *)
(** * The inner loop of a digital filter

    [REP #n] followed by [MAC X0,Y0,A X:(R0)+,X0 Y:(R4)+,Y0]: each repetition adds the
    product of the current sample and coefficient to the accumulator and fetches the next
    pair from the X and Y memories through the two address registers.  The loop computes
    the inner product of the two vectors. *)

From S2P Require Import Prelude DspState HostPort Memory Arith56 Ccr Alu Agu ParMove Control Exec Wp CcrSpec AluSpec MemSpec AguSpec ExecSpec RepSpec.

(** [MAC X0,Y0,A X:(R0)+,X0 Y:(R4)+,Y0] *)
Definition fir_word : Z := 0xf098d2.

(** The word of data memory at an address. *)
Definition data_word (s : state) (space a : Z) : Z := peek s (locate (rom_enabled s) space a) mod 2 ^ 24.

(** The operands of repetition [i]: the register first, then the words from [a] on. *)
Definition fir_operand (s : state) (r space a : Z) (i : nat) : Z :=
  match i with
  | O => reg s r
  | S i => data_word s space (a + Z.of_nat i)
  end.

(** The inner product of the first [n] operands. *)
Fixpoint fir_sum (xs ys : nat → Z) (n : nat) : Z :=
  match n with
  | O => 0
  | S n => fir_sum xs ys n + 2 * (signed 24 (xs n) * signed 24 (ys n))
  end.

(** Move [i] is set up to store [v] in register [r]. *)
Definition pm_loaded (i r v : Z) (p : parmove_t) : Prop :=
  aget p.(tmp_parmove_len) i = 1 ∧ aget p.(tmp_parmove_start) i = 1 ∧ aget p.(tmp_parmove_type) i = 0
  ∧ aget p.(tmp_parmove_src) (i, 1) = v ∧ p.(tmp_parmove_dest) !! (i, 1) = Some (host_pointer r).

(** The machine after [i] repetitions. *)
Definition fir_state (s0 : state) (a b : Z) (i : nat) (s : state) : Prop :=
  let xs := fir_operand s0 DSP_REG_X0 DSP_SPACE_X a in
  let ys := fir_operand s0 DSP_REG_Y0 DSP_SPACE_Y b in
  data_wf s ∧ sval (accu_of s 0) = wrap56 (sval (accu_of s0 0) + fir_sum xs ys i)
  ∧ reg s DSP_REG_R0 = a + Z.of_nat i ∧ reg s (DSP_REG_R0 + 4) = b + Z.of_nat i
  ∧ reg s DSP_REG_X0 = xs i ∧ reg s DSP_REG_Y0 = ys i.

(** The registers the loop changes. *)
Definition fir_regs : list Z :=
  [DSP_REG_R0; DSP_REG_R0 + 4; DSP_REG_X0; DSP_REG_Y0; DSP_REG_SR] ++ accu_regs 0.

(** Three samples and three coefficients: the vectors (1/2, 1/4, 1/8) and (1/2, 1/2, -1). *)
Definition fir_demo : state :=
  upd_core (λ c, c_running 1 (c_ramint (aset (aset (aset (aset (aset (aset c.(ramint)
      (DSP_SPACE_P, 0) 0x0603a0) (DSP_SPACE_P, 1) fir_word)
      (DSP_SPACE_X, 0x10) 0x200000) (DSP_SPACE_X, 0x11) 0x100000)
      (DSP_SPACE_Y, 0x20) 0x400000) (DSP_SPACE_Y, 0x21) 0x800000) c))
    (upd_reg DSP_REG_X0 0x400000 (upd_reg DSP_REG_Y0 0x400000 (upd_reg DSP_REG_M0 0xffff (upd_reg (DSP_REG_M0 + 4) 0xffff
      (upd_reg DSP_REG_R0 0x10 (upd_reg (DSP_REG_R0 + 4) 0x20 zero_state)))))).

(** ** Setting up and doing a move to a data register *)

Lemma wp_pm_to_reg i r v (Q : unit → state → Prop) s :
  0 <= i < 2 → 4 <= r < 8 → in_u 24 v →
  (∀ p, pm_loaded i r v p → (∀ j r' v', j ≠ i → pm_loaded j r' v' s.(parmove) → pm_loaded j r' v' p) →
     Q tt (s_parmove p s)) →
  wp (pm_to_reg i r v) Q s.
Proof.
  intros Hi Hr Hv HQ. unfold pm_to_reg, pm_source, reg_bitmask.
  assert (registers_mask !! Z.to_nat r = Some 24) as Hm.
  { assert (r = 4 ∨ r = 5 ∨ r = 6 ∨ r = 7) as [->|[->|[->| ->]]] by lia; done. }
  repeat first [apply wp_bind, wp_check; [lia|] | apply wp_check; [lia|]
    | apply wp_bind, (wp_table_get _ _ 24); [lia|done|] | wp_step | progress unfold set_pm_src, set_pm].
  unfold dsp_pm_writereg, is_accu.
  rewrite (proj2 (Z.eqb_neq r DSP_REG_A)), (proj2 (Z.eqb_neq r DSP_REG_B)) by lia. cbn [orb].
  unfold set_pm_dest, set_pm_start, set_pm_len, set_pm_type, set_pm.
  repeat first [apply wp_bind, wp_check; [lia|] | apply wp_check; [lia|] | wp_step].
  apply HQ.
  - unfold pm_loaded. cbn. rewrite land_BITMASK by lia. rewrite Z.mod_small by exact Hv.
    rewrite !aget_aset_eq, aget_aset_ne, aget_aset_eq by congruence. by rewrite lookup_insert_eq.
  - intros j r' v' Hj. unfold pm_loaded. cbn. rewrite !aget_aset_ne by congruence.
    by rewrite lookup_insert_ne by congruence.
Qed.

Lemma wp_parmove_write_reg i r v (Q : unit → state → Prop) s :
  0 <= i < 2 → 4 <= r < 8 → pm_loaded i r v s.(parmove) → Q tt (upd_reg r v s) → wp (parmove_write_move i) Q s.
Proof.
  intros Hi Hr (Hl & Hs & Ht & Hsrc & Hd) HQ. unfold parmove_write_move. do 4 wp_step. rewrite Hl, Hs.
  change (Z.to_nat 1) with 1%nat. cbn [for_loop]. wp_step. unfold parmove_write_word.
  apply wp_bind, wp_check; [lia|]. apply wp_bind, wp_check; [lia|]. do 2 wp_step. rewrite Hd, Ht, Hsrc.
  change (nz 0) with false. cbv iota. by wp_steps.
Qed.

(** Post-increment addressing in linear mode. *)
Lemma wp_calc_ea_inc n a (Q : Z * Z → state → Prop) s :
  0 <= n < 8 → reg s (DSP_REG_M0 + n) = 0xffff → reg s (DSP_REG_R0 + n) = a → 0 <= a < 65535 →
  Q (0, a) (upd_reg (DSP_REG_R0 + n) (a + 1) s) → wp (dsp_calc_ea (0x18 + n)) Q s.
Proof.
  intros Hn Hm Ha Hr HQ. unfold dsp_calc_ea.
  assert (((0x18 + n) ≫ 3) .& BITMASK 3 = 3) as ->.
  { rewrite land_BITMASK, shr_div by lia. change (2 ^ 3) with 8. Z.div_mod_to_equations. lia. }
  assert ((0x18 + n) .& BITMASK 3 = n) as ->.
  { rewrite land_BITMASK by lia. change (2 ^ 3) with 8. Z.div_mod_to_equations. lia. }
  cbn [Z.eqb Pos.eqb]. do 2 wp_step. apply wp_bind.
  apply (wp_of_run _ _ _ _ _ (update_rn_linear n 1 s Hn ltac:(by rewrite Hm))).
  rewrite Ha, u16_small by lia. by wp_steps.
Qed.

(** A register is not in a list of registers. *)
Ltac not_in := unfold fir_regs, accu_regs; cbn [app]; rewrite ?not_elem_of_cons; split_and?; (lia || apply not_elem_of_nil).

(** ** One repetition *)

(** The two moves of the instruction fetch their words and step the address registers. *)
Lemma wp_fir_read a b (Q : unit → state → Prop) s :
  s.(cur_inst) = fir_word → 0 <= a < 0xffc0 → 0 <= b < 0xffc0 →
  reg s DSP_REG_R0 = a → reg s (DSP_REG_R0 + 4) = b → reg s DSP_REG_M0 = 0xffff → reg s (DSP_REG_M0 + 4) = 0xffff →
  (∀ p, pm_loaded 0 DSP_REG_X0 (data_word s DSP_SPACE_X a) p → pm_loaded 1 DSP_REG_Y0 (data_word s DSP_SPACE_Y b) p →
     Q tt (s_parmove p (upd_reg (DSP_REG_R0 + 4) (b + 1) (upd_reg DSP_REG_R0 (a + 1) s)))) →
  wp dsp_parmove_read Q s.
Proof.
  intros Hi Ha Hb Ra Rb Ma Mb HQ. unfold dsp_parmove_read.
  apply wp_bind, wp_set_pm_len; [lia|]. apply wp_bind, wp_set_pm_len; [lia|]. do 2 wp_step.
  cbn [cur_inst s_parmove]. rewrite Hi. apply (wp_call_table _ _ dsp_pm_8); [done|done|].
  unfold dsp_pm_8. do 2 wp_step. cbn [cur_inst s_parmove]. rewrite Hi.
  change (pm_8_ea fir_word) with (0x18 + 0, 0x18 + 4). cbv iota.
  apply wp_bind, (wp_calc_ea_inc 0 a); [lia|done|done|lia|]. cbv iota.
  apply wp_bind, (wp_calc_ea_inc 4 b); [lia|by reg_simpl|by reg_simpl|lia|]. cbv iota.
  change (sel_x _) with DSP_REG_X0. change (sel_y _) with DSP_REG_Y0.
  change (nz (fir_word .& (1 ≪ 15))) with true. change (nz (fir_word .& (1 ≪ 22))) with true. cbv iota.
  set (s1 := upd_reg _ _ _).
  assert (∀ sp c, data_word s1 sp c = data_word s sp c) as Hw.
  { intros sp c. unfold data_word. assert (rom_enabled s1 = rom_enabled s) as -> by (unfold rom_enabled, s1; by reg_simpl).
    by destruct (locate _ _ _). }
  apply wp_bind, wp_bind. apply (wp_of_run _ _ _ _ _ (read_run DSP_SPACE_X a s1 ltac:(lia) ltac:(lia))).
  fold (data_word s1 DSP_SPACE_X a). rewrite Hw.
  apply wp_pm_to_reg; [lia|lia|by apply Z.mod_pos_bound|]. intros p Hp _.
  apply wp_bind. apply (wp_of_run _ _ _ _ _ (read_run DSP_SPACE_Y b (s_parmove p s1) ltac:(lia) ltac:(lia))).
  assert (data_word (s_parmove p s1) DSP_SPACE_Y b = data_word s DSP_SPACE_Y b) as Hw2.
  { rewrite <- Hw. unfold data_word. change (rom_enabled (s_parmove p s1)) with (rom_enabled s1). by destruct (locate _ _ _). }
  fold (data_word (s_parmove p s1) DSP_SPACE_Y b). rewrite Hw2.
  apply wp_pm_to_reg; [lia|lia|by apply Z.mod_pos_bound|]. intros p' Hp' Hk.
  exact (HQ p' (Hk 0 _ _ ltac:(lia) Hp) Hp').
Qed.

(** From the decoder to the stores. *)
Lemma wp_fir_decoded a b (Q : unit → state → Prop) s :
  s.(cur_inst) = fir_word → 0 <= a < 0xffc0 → 0 <= b < 0xffc0 → data_wf s →
  reg s DSP_REG_R0 = a → reg s (DSP_REG_R0 + 4) = b → reg s DSP_REG_M0 = 0xffff → reg s (DSP_REG_M0 + 4) = 0xffff →
  (∀ s', same_machine fir_regs s s' → body_keeps s s' → data_wf s' →
     sval (accu_of s' 0) = wrap56 (sval (accu_of s 0)
       + 2 * (signed 24 (reg s DSP_REG_X0) * signed 24 (reg s DSP_REG_Y0))) →
     reg s' DSP_REG_R0 = a + 1 → reg s' (DSP_REG_R0 + 4) = b + 1 →
     reg s' DSP_REG_X0 = data_word s DSP_SPACE_X a → reg s' DSP_REG_Y0 = data_word s DSP_SPACE_Y b → Q tt s') →
  wp execute_decoded Q s.
Proof.
  intros Hi Ha Hb Hwf Ra Rb Ma Mb HQ. unfold execute_decoded. do 2 wp_step. rewrite Hi.
  change ((fir_word ≫ 16) .& BITMASK 8 <? 0x10) with false. cbn [andb].
  apply wp_bind, (wp_fir_read a b); try done. intros p Hp0 Hp1. set (s1 := s_parmove _ _).
  assert (∀ r, r ∉ [DSP_REG_R0; DSP_REG_R0 + 4] → reg s1 r = reg s r) as Hr1.
  { intros r Hr. rewrite !not_elem_of_cons in Hr. unfold s1.
    change (reg (s_parmove p ?x) ?y) with (reg x y). by rewrite !reg_upd_ne by naive_solver. }
  do 2 wp_step. change (cur_inst s1) with (cur_inst s). rewrite Hi.
  change (fir_word .& BITMASK 8 <? 0x40) with false. change (fir_word .& BITMASK 8 <? 0x80) with false. cbv iota.
  apply wp_bind, (wp_call_table _ _ dsp_mac); [done|done|].
  assert (data_wf s1) as Hwf1.
  { intros m Hm. assert (m = 0 ∨ m = 1) as [->| ->] by lia; unfold accu_of; rewrite !Hr1 by not_in; by apply (Hwf _ Hm). }
  destruct (mac_run s1 Hwf1) as (s2 & E2 & Hwf2 & Hv2 & Hf2 & Hfr2).
  apply (wp_of_run _ _ _ _ _ E2). pose proof (frame_scalars _ _ _ Hfr2) as (Fpc & Flr & Fpr & Fl & Fpm).
  change (cur_inst s1) with (cur_inst s) in *. rewrite Hi in *. change (dest_bit fir_word) with 0 in *.
  unfold dsp_parmove_write. apply wp_bind.
  apply (wp_parmove_write_reg _ DSP_REG_X0 (data_word s DSP_SPACE_X a)); [lia|lia|by rewrite Fpm|].
  apply (wp_parmove_write_reg _ DSP_REG_Y0 (data_word s DSP_SPACE_Y b)); [lia|lia|change (parmove (upd_reg _ _ s2)) with (parmove s2); by rewrite Fpm|].
  set (s3 := upd_reg DSP_REG_Y0 _ _).
  assert (∀ r, r ∉ fir_regs → reg s3 r = reg s r) as Hr3.
  { intros r Hr. unfold fir_regs, accu_regs in Hr. cbn [app] in Hr. rewrite !not_elem_of_cons in Hr. unfold s3.
    rewrite !reg_upd_ne by naive_solver. rewrite (proj1 Hfr2) by (unfold accu_regs; rewrite !not_elem_of_cons; naive_solver).
    apply Hr1. rewrite !not_elem_of_cons. naive_solver. }
  apply HQ.
  - destruct (frame_same_machine _ _ _ Hfr2) as [_ Hm]. split; [exact Hr3|exact Hm].
  - split_and!; try done. intros k Hk. destruct Hf2 as (_ & _ & _ & _ & _ & _ & _ & Hf2).
    unfold s3. reg_simpl. rewrite Hf2 by done. by rewrite Hr1 by not_in.
  - intros m Hm. destruct (Hwf2 m Hm) as (Hacc & HX & HY).
    assert (accu_of s3 m = accu_of s2 m) as -> by (unfold accu_of, s3; by reg_simpl). split; [done|].
    assert (m = 0 ∨ m = 1) as [->| ->] by lia; unfold s3; reg_simpl; split; (done || by apply Z.mod_pos_bound).
  - assert (accu_of s3 0 = accu_of s2 0) as -> by (unfold accu_of, s3; by reg_simpl). rewrite Hv2.
    assert (accu_of s1 0 = accu_of s 0) as -> by (unfold accu_of; by rewrite !Hr1 by not_in).
    assert (mpy_value s1 fir_word = 2 * (signed 24 (reg s1 DSP_REG_Y0) * signed 24 (reg s1 DSP_REG_X0))) as -> by done.
    rewrite !Hr1 by not_in. f_equal. lia.
  - unfold s3. reg_simpl. rewrite (proj1 Hfr2) by not_in. unfold s1. change (reg (s_parmove p ?x) ?y) with (reg x y). by reg_simpl.
  - unfold s3. reg_simpl. rewrite (proj1 Hfr2) by not_in. unfold s1. change (reg (s_parmove p ?x) ?y) with (reg x y). by reg_simpl.
  - unfold s3. by reg_simpl.
  - unfold s3. by reg_simpl.
Qed.

(** ** The loop *)

Lemma data_word_same l s s' space a :
  same_machine l s s' → DSP_REG_OMR ∉ l → data_word s' space a = data_word s space a.
Proof.
  intros (Hr & Er & Ei & Eo & _) Hl. unfold data_word.
  assert (rom_enabled s' = rom_enabled s) as -> by (unfold rom_enabled; by rewrite Hr).
  unfold peek. destruct (locate _ _ _); by rewrite ?Er, ?Ei, ?Eo.
Qed.

Lemma fir_body s0 a b i s :
  0 <= a + Z.of_nat i < 0xffc0 → 0 <= b + Z.of_nat i < 0xffc0 →
  reg s0 DSP_REG_M0 = 0xffff → reg s0 (DSP_REG_M0 + 4) = 0xffff →
  fir_state s0 a b i s → same_machine (DSP_REG_LC :: DSP_REG_LCSAVE :: fir_regs) s0 s → s.(cur_inst) = fir_word →
  wp execute_decoded (λ _ s', fir_state s0 a b (S i) s' ∧ same_machine fir_regs s s' ∧ body_keeps s s') s.
Proof.
  intros Ha Hb Ma Mb (Hwf & Hv & Ra & Rb & HX & HY) Hsm Hi.
  apply (wp_fir_decoded (a + Z.of_nat i) (b + Z.of_nat i)); try done.
  - rewrite (reg_same_machine _ _ _ _ Hsm) by not_in. done.
  - rewrite (reg_same_machine _ _ _ _ Hsm) by not_in. done.
  - intros s' Hs' Hk Hwf' Hv' Ra' Rb' HX' HY'. split; [|done]. split; [done|]. cbn [fir_sum fir_operand].
    rewrite Hv', Hv, wrap56_add, HX, HY, Ra', Rb', HX', HY', !(data_word_same _ _ _ _ _ Hsm) by not_in.
    split; [f_equal; lia|]. split; [lia|]. split; [lia|done].
Qed.

Lemma fir_state_ext s0 a b i s s' :
  same_machine [DSP_REG_LC; DSP_REG_LCSAVE] s s' → fir_state s0 a b i s → fir_state s0 a b i s'.
Proof.
  intros H (Hwf & Hv & Hr). split; [by apply (data_wf_same _ s s' H lc_regs)|].
  rewrite (accu_same_machine _ s s' 0 H lc_regs) by lia. split; [done|].
  rewrite !(reg_same_machine _ _ _ _ H) by not_in. done.
Qed.

(** C3: the inner loop of a filter: [REP #n] followed by
    [MAC X0,Y0,A X:(R0)+,X0 Y:(R4)+,Y0], with both address registers in linear mode and the
    vectors below the peripheral addresses.  After the REP and the repetitions, each through
    fetch, decode, the two memory reads, the address updates, the multiply-accumulate, the
    register stores, PC update and interrupt test, A has received the inner product of the two
    vectors (the operands already in X0 and Y0, then the words from the two addresses on), the
    address registers point behind the vectors, X0 and Y0 hold the last words fetched, PC is
    behind the instruction and nothing but these registers, SR and the saved loop count has
    changed. *)
Theorem fir_kernel_correct (n p a b : Z) (s : state)
    (Hn : 0 <= n < 4096) (Hp : 0 <= p < 65534)
    (Hpc : s.(core).(pc) = p) (Hrep : p_word s p = rep_imm_word n) (Hw : p_word s (p + 1) = fir_word)
    (Hwf : data_wf s) (Hq : quiet s) (Hlf : flag (reg s DSP_REG_SR) DSP_SR_LF = false)
    (Hrun : nz s.(core).(running) = true)
    (HM0 : reg s DSP_REG_M0 = 0xffff) (HM4 : reg s (DSP_REG_M0 + 4) = 0xffff)
    (HR0 : reg s DSP_REG_R0 = a) (HR4 : reg s (DSP_REG_R0 + 4) = b)
    (Ha : 0 <= a ∧ a + rep_count n <= 0xffc0) (Hb : 0 <= b ∧ b + rep_count n <= 0xffc0) :
  let k := Z.to_nat (rep_count n) in
  let xs := fir_operand s DSP_REG_X0 DSP_SPACE_X a in
  let ys := fir_operand s DSP_REG_Y0 DSP_SPACE_Y b in
  ∃ s', exec_insts (S k) s = Ok tt s'
    ∧ sval (accu_of s' 0) = wrap56 (sval (accu_of s 0) + fir_sum xs ys k)
    ∧ reg s' DSP_REG_R0 = a + rep_count n ∧ reg s' (DSP_REG_R0 + 4) = b + rep_count n
    ∧ reg s' DSP_REG_X0 = xs k ∧ reg s' DSP_REG_Y0 = ys k
    ∧ s'.(core).(pc) = p + 2 ∧ s'.(core).(loop_rep) = 0 ∧ reg s' DSP_REG_LC = reg s DSP_REG_LC
    ∧ same_machine (DSP_REG_LC :: DSP_REG_LCSAVE :: fir_regs) s s'.
Proof.
  intros k xs ys. pose proof (rep_count_range n Hn) as Hc.
  destruct (rep_run fir_regs (fir_state s a b) s fir_word p (rep_count n)) with (k := n)
    as (s' & E & (_ & Hv & Hra & Hrb & HX & HY) & Hpc' & Hlr & Hlc & Hsm); try done.
  - split; not_in.
  - intros i s1 s2. apply fir_state_ext.
  - intros i si Hi HJ Hsm Hci _. apply fir_body; try done; lia.
  - split; [done|]. cbn. rewrite Z.add_0_r, wrap56_small by (apply sval_range, (Hwf 0); lia).
    split; [done|]. split; [lia|]. split; [lia|done].
  - exists s'. rewrite Z2Nat.id in Hra, Hrb by lia. done.
Qed.

Lemma fir_kernel_correct_witness :
  ∃ s', exec_insts 4 fir_demo = Ok tt s' ∧ sval (accu_of s' 0) = 2 ^ 45
    ∧ reg s' DSP_REG_R0 = 0x13 ∧ s'.(core).(pc) = 2.
Proof.
  destruct (fir_kernel_correct 3 0 0x10 0x20 fir_demo) as (s' & E & Hv & Hr & _ & _ & _ & Hpc & _).
  - lia.
  - lia.
  - reflexivity.
  - reflexivity.
  - reflexivity.
  - intros n Hn. assert (n = 0 ∨ n = 1) as [->| ->] by lia.
    all: split; [split; [|split]|split]; apply in_ub_spec; vm_compute; reflexivity.
  - repeat split; done.
  - reflexivity.
  - reflexivity.
  - reflexivity.
  - reflexivity.
  - reflexivity.
  - reflexivity.
  - vm_compute. split; discriminate.
  - vm_compute. split; discriminate.
  - exists s'. split; [exact E|]. split; [exact Hv|]. split; [exact Hr|exact Hpc].
Defined.
