(* ===== verification/IntSpec.v ===== *)
(** * What the interrupts promise

    When an interrupt is taken, at which level and through which vector, and how fast
    and long interrupts come back to the interrupted program. *)

From S2P Require Import Prelude DspState HostPort Memory Control Exec Wp CcrSpec MemSpec ExecSpec.

(** ** Views *)

(** The interrupt mask of SR, and the levels of the host port and the SSI in IPR. *)
Definition ipl_mask (s : state) : Z := (reg s DSP_REG_SR ≫ DSP_SR_I0) mod 4.
Definition ipl_hi (s : state) : Z := (aget s.(core).(periph) (DSP_SPACE_X, DSP_IPR) ≫ 10) mod 4.
Definition ipl_ssi (s : state) : Z := (aget s.(core).(periph) (DSP_SPACE_X, DSP_IPR) ≫ 12) mod 4.

(** The vectors of the host port (the host command's is in CVR) and of the SSI. *)
Definition hi_vector (s : state) (v : Z) : Prop :=
  v = 0x20 ∨ v = 0x22 ∨ v = 2 * (aget s.(core).(hostport) CPU_HOST_CVR mod 32).
Definition ssi_vector (v : Z) : Prop := v = 0x0c ∨ v = 0x0e ∨ v = 0x10 ∨ v = 0x12.

(** Is the vector at [v] one of a fast interrupt? *)
Definition fast_vector (s : state) (v : Z) : bool :=
  negb (is_jsr (p_word s v) || is_jsr (p_word s (v + 1))).

Definition hi_result (s : state) (r : Z) (s' : state) : Prop :=
  (r = 99 ∧ s' = s) ∨ (r = ipl_hi s ∧ hi_vector s s'.(core).(interrupt_instr_fetch)).

Definition ssi_result (s : state) (r : Z) (s' : state) : Prop :=
  (r = 99 ∧ s' = s) ∨ (r = ipl_ssi s ∧ ssi_vector s'.(core).(interrupt_instr_fetch)).

(** The state after a fast interrupt has ended with PC [p]. *)
Definition fast_done (p : Z) (s : state) : state :=
  upd_core (λ c, c_interrupt_save_pc (u32 (-1)) (c_interrupt_state DSP_INTERRUPT_NONE
    (c_interrupt_instr_fetch (u32 (-1)) (c_pc p c)))) s.

(** The bits of SR a long interrupt clears, besides the mask. *)
Definition long_cleared (k : Z) : bool :=
  (k =? DSP_SR_LF) || (k =? DSP_SR_T) || (k =? DSP_SR_S1) || (k =? DSP_SR_S0).

(** ** Levels *)

Lemma wp_ssi_interrupts s : wp dsp_ssi_interrupts (ssi_result s) s.
Proof.
  unfold dsp_ssi_interrupts. do 6 wp_step. rewrite land_BITMASK by lia.
  repeat (destruct (_ && _); [wp_steps; right; split; [done|]; cbn; unfold ssi_vector; lia|]). wp_steps. by left.
Qed.

Lemma command_vector x : u32 ((u8 (x .& (0xff - (1 ≪ CPU_HOST_CVR_HC))) .& BITMASK 5) * 2) = 2 * (x mod 32).
Proof.
  change (0xff - (1 ≪ CPU_HOST_CVR_HC)) with 0x7f.
  rewrite land_BITMASK, (land_ones_const _ 0x7f 7) by lia. change (2 ^ 5) with 32. change (2 ^ 7) with 128.
  unfold u8, u32. Z.div_mod_to_equations. lia.
Qed.

Lemma wp_hi_interrupts s : wp dsp_hi_interrupts (hi_result s) s.
Proof.
  unfold dsp_hi_interrupts, lockMutex, unlockMutex. do 6 wp_step. rewrite land_BITMASK by lia.
  destruct (_ && _); [|destruct (_ && _); [|destruct (_ && _)]].
  - apply wp_bind, wp_sync. intros t. do 6 wp_step. apply wp_bind, wp_sync. intros t'. wp_steps.
    right. split; [done|]. right. right. cbn. rewrite aget_aset_eq. apply command_vector.
  - apply wp_bind, wp_sync. intros t. wp_step. wp_step. apply wp_bind, wp_sync. intros t'. wp_steps.
    right. split; [done|]. by left.
  - apply wp_bind, wp_sync. intros t. wp_step. wp_step. apply wp_bind, wp_sync. intros t'. wp_steps.
    right. split; [done|]. right. by left.
  - wp_steps. by left.
Qed.

Lemma level_range x k : 0 <= (x ≫ k) mod 4 < 4.
Proof. by apply Z.mod_pos_bound. Qed.

(** A peripheral is asked when its level is not below the mask [m]. *)
Lemma ask_level (m lvl : Z) (call : M Z) (R : state → Prop) s :
  0 <= lvl < 4 → m < 4 → wp call (λ r s', (r = 99 ∧ s' = s) ∨ (r = lvl ∧ R s')) s →
  (∃ r s', (if m <=? lvl then call else mret 99) s = Ok r s' ∧ m <= lvl ∧ r = lvl ∧ R s')
  ∨ ((if m <=? lvl then call else mret 99) s = Ok 99 s ∧ (m <= lvl → call s = Ok 99 s)).
Proof.
  intros Hl Hm Hc. destruct (wp_run _ _ _ Hc) as (r & s' & E & [[-> ->]|[-> HR]]).
  - right. destruct (Z.leb_spec m lvl); [done|]. split; [done|lia].
  - destruct (Z.leb_spec m lvl); [left; eauto 10|]. right. split; [done|lia].
Qed.

(** At most one interrupt is chosen after an instruction: the trace interrupt
    first, then SWI, both at level 3 and whatever the mask; then, unless the mask is 3, a
    peripheral whose level in IPR is not below the mask, through one of its own vectors.
    Of the host port and the SSI the one with the higher level is asked first, the host
    port at equal levels: the other one is chosen only when the first has nothing to
    report.  Without an interrupt the state is unchanged. *)
Lemma interrupt_priority (s : state) :
  ∃ r s', ipl_to_raise s = Ok r s' ∧
    if flag (reg s DSP_REG_SR) DSP_SR_T then r = 3 ∧ s' = upd_core (c_interrupt_instr_fetch 0x0004) s
    else if s.(core).(swi_inter) =? 1 then
      r = 3 ∧ s' = upd_core (λ c, c_interrupt_instr_fetch 0x0006 (c_swi_inter 0 c)) s
    else if ipl_mask s =? 3 then r = 99 ∧ s' = s
    else (r = 99 ∧ s' = s)
      ∨ (r = ipl_hi s ∧ ipl_mask s <= r ∧ hi_vector s s'.(core).(interrupt_instr_fetch)
         ∧ (ipl_hi s < ipl_ssi s → dsp_ssi_interrupts s = Ok 99 s))
      ∨ (r = ipl_ssi s ∧ ipl_mask s <= r ∧ ssi_vector s'.(core).(interrupt_instr_fetch)
         ∧ (ipl_ssi s <= ipl_hi s → dsp_hi_interrupts s = Ok 99 s)).
Proof.
  apply wp_run. unfold ipl_to_raise. do 4 wp_step. rewrite nz_land_bit by lia.
  fold (flag (reg s DSP_REG_SR) DSP_SR_T). destruct (flag _ _); [by wp_steps|].
  destruct (_ =? 1); [by wp_steps|]. rewrite !land_BITMASK by lia. change (2 ^ 2) with 4. fold (ipl_mask s).
  pose proof (level_range (reg s DSP_REG_SR) 8) as Hm. fold (ipl_mask s) in Hm.
  destruct (Z.eqb_spec (ipl_mask s) 3); [by wp_steps|]. do 2 wp_step. rewrite !land_BITMASK by lia.
  change (2 ^ 2) with 4. fold (ipl_hi s) (ipl_ssi s). cbv zeta.
  pose proof (level_range (aget s.(core).(periph) (DSP_SPACE_X, DSP_IPR)) 10) as Hh. fold (ipl_hi s) in Hh.
  pose proof (level_range (aget s.(core).(periph) (DSP_SPACE_X, DSP_IPR)) 12) as Hss. fold (ipl_ssi s) in Hss.
  pose proof (ask_level (ipl_mask s) _ _ (λ s', hi_vector s s'.(core).(interrupt_instr_fetch)) s Hh ltac:(lia) (wp_hi_interrupts s)) as Ahi.
  pose proof (ask_level (ipl_mask s) _ _ (λ s', ssi_vector s'.(core).(interrupt_instr_fetch)) s Hss ltac:(lia) (wp_ssi_interrupts s)) as Assi.
  destruct (Z.leb_spec (ipl_ssi s) (ipl_hi s)).
  - destruct Ahi as [(r & s1 & E & Hle & -> & HR)|[E Hn]]; apply wp_bind, (wp_of_run _ _ _ _ _ E).
    + rewrite (proj2 (Z.eqb_neq _ 99)) by lia. apply wp_ret. right. left. split; [done|]. split; [done|]. split; [done|lia].
    + change (99 =? 99) with true. cbv iota.
      destruct Assi as [(r & s1 & E1 & Hle & -> & HR)|[E1 Hn1]]; apply (wp_of_run _ _ _ _ _ E1); [|by left].
      right. right. split; [done|]. split; [done|]. split; [done|]. intros _. apply Hn. lia.
  - destruct Assi as [(r & s1 & E & Hle & -> & HR)|[E Hn]]; apply wp_bind, (wp_of_run _ _ _ _ _ E).
    + rewrite (proj2 (Z.eqb_neq _ 99)) by lia. apply wp_ret. right. right. split; [done|]. split; [done|]. split; [done|lia].
    + change (99 =? 99) with true. cbv iota.
      destruct Ahi as [(r & s1 & E1 & Hle & -> & HR)|[E1 Hn1]]; apply (wp_of_run _ _ _ _ _ E1); [|by left].
      right. left. split; [done|]. split; [done|]. split; [done|]. intros _. apply Hn. lia.
Qed.

(** ** Fast interrupts *)

Lemma interrupts_in_fast v s :
  s.(core).(loop_rep) = 0 → s.(core).(interrupt_state) = DSP_INTERRUPT_FAST →
  s.(core).(interrupt_instr_fetch) = v → 0 <= v < 65534 →
  dsp_postexecute_interrupts s = Ok tt
    (if s.(core).(pc) <? v + 2 then s
     else fast_done (if s.(core).(pc) =? v + 2 then u16 s.(core).(interrupt_save_pc) else s.(core).(pc)) s).
Proof.
  intros Hr Hst Hf Hv. apply wp_eq. unfold dsp_postexecute_interrupts, end_fast_interrupt. do 2 wp_step.
  rewrite Hr. cbn [nz negb Z.eqb]. do 2 wp_step. rewrite Hst. change (DSP_INTERRUPT_FAST =? DSP_INTERRUPT_FAST) with true.
  cbv iota. do 4 wp_step. rewrite Hf, u32_small by lia.
  destruct (Z.ltb_spec s.(core).(pc) (v + 2)).
  - rewrite (proj2 (Z.leb_gt _ _)) by lia. by wp_steps.
  - rewrite (proj2 (Z.leb_le _ _)) by lia. cbn [when]. wp_step.
    destruct (_ =? _); cbn [when]; wp_steps; by destruct s as [[]].
Qed.

(** When neither word of the vector is taken for a JSR, the interrupt is fast: PC
    is saved and goes to the vector, and nothing else changes, no interrupt is taken
    while PC is in the two words of the vector, and when PC has come to their end it goes
    back to the saved value; when an instruction of the vector has jumped further away,
    the interrupt is over as well and PC stays. *)
Lemma fast_interrupt_returns (ipl v : Z) (s : state)
    (Hf : s.(core).(interrupt_instr_fetch) = v) (Hv : 0 <= v < 65534)
    (Hfast : fast_vector s v = true) (Hpc : in_u 16 s.(core).(pc)) :
  raise_interrupt ipl s = Ok tt (upd_core (λ c, c_pc v (c_interrupt_save_pc s.(core).(pc)
      (c_interrupt_state DSP_INTERRUPT_FAST c))) s)
  ∧ ∀ s2, s2.(core).(loop_rep) = 0 → s2.(core).(interrupt_state) = DSP_INTERRUPT_FAST →
      s2.(core).(interrupt_instr_fetch) = v → s2.(core).(interrupt_save_pc) = s.(core).(pc) →
      dsp_postexecute_interrupts s2 = Ok tt
        (if s2.(core).(pc) <? v + 2 then s2
         else fast_done (if s2.(core).(pc) =? v + 2 then s.(core).(pc) else s2.(core).(pc)) s2).
Proof.
  split.
  - apply wp_eq. unfold raise_interrupt. do 2 wp_step. rewrite Hf.
    apply wp_bind, (wp_of_run _ _ _ _ _ (read_p_run v s ltac:(lia))).
    apply wp_bind, (wp_of_run _ _ _ _ _ (read_p_run (v + 1) s ltac:(lia))). do 2 wp_step.
    fold (fast_vector s v). rewrite Hfast. cbv iota. wp_steps. rewrite u16_small by lia. done.
  - intros s2 Hr Hst Hf2 Hsv. unfold in_u in Hpc. rewrite (interrupts_in_fast v), Hsv, u16_small by (done || lia). done.
Qed.

(** The host receive vector holds two NOPs. *)
Lemma fast_interrupt_returns_witness :
  let s := upd_core (λ c, c_pc 0x123 (c_interrupt_instr_fetch 0x20 c)) zero_state in
  ∃ s1, raise_interrupt 1 s = Ok tt s1 ∧ s1.(core).(pc) = 0x20
    ∧ ∃ s3, dsp_postexecute_interrupts (upd_core (c_pc 0x22) s1) = Ok tt s3 ∧ s3.(core).(pc) = 0x123.
Proof.
  intros s. destruct (fast_interrupt_returns 1 0x20 s) as [E H].
  - reflexivity.
  - lia.
  - reflexivity.
  - by apply in_ub_spec.
  - eexists. split; [exact E|]. split; [reflexivity|]. eexists.
    split; [apply H; reflexivity|reflexivity].
Defined.

(** ** Long interrupts *)

Lemma long_sr sr ipl k :
  0 <= ipl < 4 → 0 <= k < 16 →
  let sr' := (sr .& (BITMASK 16 - ((((((1 ≪ DSP_SR_LF) .| (1 ≪ DSP_SR_T)) .| (1 ≪ DSP_SR_S1)) .| (1 ≪ DSP_SR_S0))
        .| (1 ≪ DSP_SR_I0)) .| (1 ≪ DSP_SR_I1)))) .| u32 (ipl ≪ DSP_SR_I0) in
  flag sr' k = if long_cleared k then false
    else if k =? DSP_SR_I0 then Z.testbit ipl 0 else if k =? DSP_SR_I1 then Z.testbit ipl 1 else flag sr k.
Proof.
  intros Hi Hk. cbv zeta. unfold flag. rewrite Z.lor_spec, Z.land_spec.
  assert (∃ i, (i < 16)%nat ∧ k = Z.of_nat i) as (i & Hlt & ->) by (exists (Z.to_nat k); lia).
  assert (ipl = 0 ∨ ipl = 1 ∨ ipl = 2 ∨ ipl = 3) as [->|[->|[->| ->]]] by lia.
  all: do 16 (destruct i as [|i]; [cbn -[Z.testbit]; rewrite ?andb_false_r, ?andb_true_r, ?orb_false_r; by try done|]); lia.
Qed.

(** C35: when a word of the vector is taken for a JSR, the interrupt is long: PC and SR
    go on the stack, PC goes to the vector, LF, T, S1 and S0 are cleared, the mask gets
    the level of the interrupt, and no other bit of SR changes; the JSR of the vector then
    jumps without a second push; and RTI, reached with the stack as the interrupt left it,
    continues the interrupted program with its SR. *)
Theorem long_interrupt_returns (ipl v : Z) (l : list (Z * Z)) (s : state)
    (Hf : s.(core).(interrupt_instr_fetch) = v) (Hv : 0 <= v < 65534) (Hipl : 0 <= ipl < 4)
    (Hlong : fast_vector s v = false) (Hpc : in_u 16 s.(core).(pc)) (Hsr : in_u 16 (reg s DSP_REG_SR))
    (Hs : stack_rep s l) (Hl : (length l < 14)%nat) :
  let saved := (s.(core).(pc), reg s DSP_REG_SR) :: l in
  (∃ s1, raise_interrupt ipl s = Ok tt s1 ∧ s1.(core).(pc) = v
     ∧ s1.(core).(interrupt_state) = DSP_INTERRUPT_LONG ∧ stack_rep s1 saved
     ∧ ∀ k, 0 <= k < 16 → flag (reg s1 DSP_REG_SR) k =
         if long_cleared k then false
         else if k =? DSP_SR_I0 then Z.testbit ipl 0 else if k =? DSP_SR_I1 then Z.testbit ipl 1
         else flag (reg s DSP_REG_SR) k)
  ∧ (∀ s2, s2.(core).(interrupt_state) = DSP_INTERRUPT_LONG → (s2.(cur_inst) ≫ 12) mod 16 = 0 →
       dsp_jsr s2 = Ok tt (s_cur_inst_len 0 (upd_core (λ c, c_pc (s2.(cur_inst) mod 4096)
         (c_interrupt_state DSP_INTERRUPT_NONE c)) s2)))
  ∧ (∀ s3, stack_rep s3 saved → ∃ s4, dsp_rti s3 = Ok tt s4 ∧ s4.(core).(pc) = s.(core).(pc)
       ∧ reg s4 DSP_REG_SR = reg s DSP_REG_SR ∧ stack_rep s4 l
       ∧ same_machine [DSP_REG_SR; DSP_REG_SP; DSP_REG_SSH; DSP_REG_SSL] s3 s4).
Proof.
  intros saved. unfold in_u in Hsr. split; [|split].
  - apply wp_exists. unfold raise_interrupt. do 2 wp_step. rewrite Hf.
    apply wp_bind, (wp_of_run _ _ _ _ _ (read_p_run v s ltac:(lia))).
    apply wp_bind, (wp_of_run _ _ _ _ _ (read_p_run (v + 1) s ltac:(lia))). do 2 wp_step.
    fold (fast_vector s v). rewrite Hlong. cbv iota. do 4 wp_step. set (s0 := upd_core _ s).
    assert (stack_rep s0 l) as Hs0 by (by eapply stack_rep_ext; [..|exact Hs]).
    destruct (push_run l s.(core).(pc) (reg s0 DSP_REG_SR) s0 Hs0 Hl) as (s1 & E1 & H1 & F1 & F2).
    apply wp_bind, (wp_of_run _ _ _ _ _ E1). unfold reg_and, reg_or. wp_steps. unfold in_u in Hpc. rewrite (u16_small v) by lia.
    rewrite !u16_small in H1 by (done || lia). split; [done|]. split; [by destruct s1 as [[]], s as [[]]; injection F2|].
    assert (reg s1 DSP_REG_SR = reg s DSP_REG_SR) as Er by (apply F1; set_solver).
    split.
    + eapply stack_rep_ext; [| |exact H1]; [done|]. intros r Hr. unfold reg. cbn. rewrite !aget_aset_ne; [done|set_solver..].
    + intros k Hk. rewrite <- (long_sr (reg s DSP_REG_SR) ipl k) by done. rewrite <- Er. f_equal.
      unfold reg. cbn. by rewrite !aget_aset_eq.
  - intros s2 Hst Hsh. apply wp_eq. unfold dsp_jsr, jump_to. do 2 wp_step. rewrite !land_BITMASK by lia.
    change (2 ^ 4) with 16. change (2 ^ 12) with 4096. rewrite Hsh. change (0 =? 0) with true. cbv iota. do 4 wp_step.
    rewrite Hst. cbn [negb Z.eqb Pos.eqb]. wp_steps. rewrite u16_small by (Z.div_mod_to_equations; lia). done.
  - intros s3 H3. apply wp_exists, (wp_rti _ _ _ _ _ H3); [done|]. done.
Qed.

(** SWI with [JSR p:$42] in its vector. *)
Lemma long_interrupt_returns_witness :
  let s := upd_core (λ c, c_pc 0x123 (c_interrupt_instr_fetch 6 (c_ramint (aset c.(ramint) (DSP_SPACE_P, 6) 0x0d0042) c)))
    (upd_reg DSP_REG_SR 0x8300 zero_state) in
  ∃ s1, raise_interrupt 3 s = Ok tt s1 ∧ s1.(core).(pc) = 6
    ∧ ∃ s4, dsp_rti s1 = Ok tt s4 ∧ s4.(core).(pc) = 0x123 ∧ reg s4 DSP_REG_SR = 0x8300.
Proof.
  intros s. destruct (long_interrupt_returns 3 6 [] s) as ((s1 & E1 & P1 & _ & H1 & _) & _ & Hret).
  - reflexivity.
  - lia.
  - lia.
  - reflexivity.
  - by apply in_ub_spec.
  - by apply in_ub_spec.
  - do 3 (split; [reflexivity|]). split; [cbn; lia|]. intros i pc sr. by rewrite lookup_nil.
  - cbn. lia.
  - destruct (Hret s1 H1) as (s4 & E4 & P4 & R4 & _).
    exists s1. split; [exact E1|]. split; [exact P1|]. exists s4. split; [exact E4|]. split; [exact P4|exact R4].
Defined.

(** A REP cannot be interrupted, and with the mask at 3 only trace and SWI can
    interrupt: in both cases the test after an instruction changes nothing. *)
Lemma interrupts_masked (s : state)
    (Hm : nz s.(core).(loop_rep) = true
       ∨ (s.(core).(interrupt_state) ≠ DSP_INTERRUPT_FAST ∧ flag (reg s DSP_REG_SR) DSP_SR_T = false
          ∧ s.(core).(swi_inter) ≠ 1 ∧ ipl_mask s = 3)) :
  dsp_postexecute_interrupts s = Ok tt s.
Proof.
  apply wp_eq. unfold dsp_postexecute_interrupts. do 2 wp_step. destruct (nz _); [by wp_steps|].
  destruct Hm as [|(Hst & Ht & Hswi & Hipl)]; [done|]. do 2 wp_step. rewrite (proj2 (Z.eqb_neq _ _) Hst). cbv iota.
  wp_step. unfold ipl_to_raise. do 4 wp_step. rewrite nz_land_bit by lia. fold (flag (reg s DSP_REG_SR) DSP_SR_T).
  rewrite Ht, (proj2 (Z.eqb_neq _ _) Hswi). rewrite land_BITMASK by lia. change (2 ^ 2) with 4.
  fold (ipl_mask s). rewrite Hipl. by wp_steps.
Qed.

Lemma interrupts_masked_witness :
  let s := upd_core (c_loop_rep 1) (upd_reg DSP_REG_SR 0x2000 zero_state) in
  dsp_postexecute_interrupts s = Ok tt s.
Proof. intros s. apply (interrupts_masked s). left. reflexivity. Defined.

(** The test that tells long from fast interrupts looks at bits 15, 14 and 7-5 of
    a vector word whatever its opcode byte is: beside the two forms of JSR it accepts
    every word with these bits, such as a JMP to an absolute address, and the interrupt
    pushes PC and SR although nothing in the vector calls a subroutine. *)
Lemma is_jsr_misclassifies (w : Z)
    (H15 : Z.testbit w 15 = true) (H14 : Z.testbit w 14 = true) (H7 : Z.testbit w 7 = true)
    (H6 : Z.testbit w 6 = false) (H5 : Z.testbit w 5 = false) :
  is_jsr w = true.
Proof.
  unfold is_jsr. apply orb_true_iff. right. apply Z.eqb_eq, Z.bits_inj'. intros k Hk. unfold bit_opcode.
  rewrite Z.lor_spec, !Z.land_spec, !Z.shiftr_spec by lia.
  change (BITMASK 2 ≪ 3) with 24. change (BITMASK 3) with 7.
  destruct (decide (k < 5)) as [Hlt|Hge].
  - assert (k = 0 ∨ k = 1 ∨ k = 2 ∨ k = 3 ∨ k = 4) as [->|[->|[->|[->| ->]]]] by lia; cbn -[Z.testbit].
    all: repeat match goal with |- context [Z.testbit (Z.pos ?p) ?j] =>
           let b := eval vm_compute in (Z.testbit (Z.pos p) j) in change (Z.testbit (Z.pos p) j) with b end.
    all: change (0 + 5) with 5; change (1 + 5) with 6; change (2 + 5) with 7; change (3 + 11) with 14; change (4 + 11) with 15.
    all: by rewrite ?H5, ?H6, ?H7, ?H14, ?H15, ?andb_false_r.
  - rewrite (Z.bits_above_log2 24), (Z.bits_above_log2 7), (Z.bits_above_log2 28) by (cbn; lia).
    by rewrite !andb_false_r.
Qed.

(** [JMP p:xxxx], which dispatches to [dsp_jmp]. *)
Lemma is_jsr_misclassifies_witness :
  is_jsr 0x0af080 = true ∧ opcodes_0a !! Z.to_nat (bit_opcode 0x0af080) = Some dsp_jmp.
Proof. split; [apply (is_jsr_misclassifies 0x0af080)|]; reflexivity. Defined.
