(* ===== verification/LifeSpec.v ===== *)
(** * The life cycle of the DSP

    Initialisation, reset and bootstrap, and the machine as a transition system whose
    steps are the calls the rest of the emulator makes. *)

From S2P Require Import Prelude DspState HostPort Memory Control Exec Typing Safety Wp CcrSpec MemSpec HostSpec ExecSpec.

(** ** The machine as a transition system *)

(** What the host does with the core: one call of an entry point of dsp_core.c, or the
    execution of one instruction by the DSP.  In thread mode it is the thread that executes
    the instructions, otherwise the caller of [exec_insts]. *)
Inductive action :=
  | Reset (sem mut thr : bool)
  | HostRead (addr : Z)
  | HostWrite (addr value : Z)
  | Instruction.

Definition act (a : action) : M unit :=
  match a with
  | Reset sem mut thr => dsp_core_reset sem mut thr
  | HostRead addr => dsp_core_read_host addr;; mret tt
  | HostWrite addr value => dsp_core_write_host addr value
  | Instruction =>
      running ← gets (λ s, s.(core).(running));
      use_thread ← gets (λ s, s.(core).(use_thread));
      thread ← gets (λ s, s.(core).(thread));
      when (nz running && (negb (nz use_thread) || thread)) execute_entry
  end.

(** The host port has eight addresses. *)
Definition allowed (a : action) : Prop :=
  match a with
  | HostRead addr | HostWrite addr _ => 0 <= addr < 8
  | _ => True
  end.

Inductive step : state → state → Prop :=
  | step_act a s s' : allowed a → act a s = Ok tt s' → step s s'.

Definition reachable (sin_fixed : Z → Z) (use_thread : Z) (s : state) : Prop :=
  ∃ s0, dsp_core_init sin_fixed use_thread zero_state = Ok tt s0 ∧ rtc step s0 s.

(** There was a reset since the initialisation. *)
Definition after_reset (sin_fixed : Z → Z) (use_thread : Z) (s : state) : Prop :=
  ∃ s0 s1 sem mut thr, reachable sin_fixed use_thread s0 ∧ act (Reset sem mut thr) s0 = Ok tt s1 ∧ rtc step s1 s.

(** The pointer of dsp_cpu.c is set whenever an instruction can be executed: by the thread,
    and by the caller of [exec_insts]. *)
Definition thread_set (s : state) : Prop := s.(core).(thread) = true → s.(cpu_core) = true.
Definition caller_set (s : state) : Prop := nz s.(core).(use_thread) = false → s.(cpu_core) = true.

(** The store of a bootstrap word. *)
Definition boot_word (s : state) : Z :=
  ((aget s.(core).(hostport) CPU_HOST_TXH ≪ 16) .| (aget s.(core).(hostport) CPU_HOST_TXM ≪ 8))
    .| aget s.(core).(hostport) CPU_HOST_TXL.

Definition booted (s : state) : state :=
  let pos := s.(core).(bootstrap_pos) in
  upd_core (λ c, let c := c_bootstrap_pos (pos + 1) (c_ramint (aset c.(ramint) (DSP_SPACE_P, pos) (boot_word s)) c) in
    if pos + 1 =? 0x200 then c_running 1 c else c) s.

(** The core after a reset, apart from the thread, the semaphore and the mutex. *)
Definition reset_registers : gmap Z Z :=
  foldl (λ m i, aset m (DSP_REG_M0 + i) 0x00ffff) (aset ∅ DSP_REG_OMR 0x02) [0; 1; 2; 3; 4; 5; 6; 7].

Definition reset_periph : gmap (Z * Z) Z :=
  aset (aset (aset ∅ (DSP_SPACE_X, DSP_HOST_HSR) 2) (DSP_SPACE_X, DSP_IPR) 0) (DSP_SPACE_X, DSP_BCR) 0xffff.

Definition reset_hostport (h : gmap Z Z) : gmap Z Z :=
  aset (aset (aset h CPU_HOST_CVR 0x12) CPU_HOST_ISR 6) CPU_HOST_IVR 0x0f.

Definition reset_core (b1 b2 b3 : bool) (c : dsp_core_t) : dsp_core_t :=
  mk_core b1 b2 b3 c.(use_thread) 0 0 reset_registers ∅ c.(ram) c.(rom) c.(ramint) reset_periph
    (reset_hostport c.(hostport)) 0 0 0 DSP_INTERRUPT_NONE (u32 (-1)) (u32 (-1)).

(** The entries of the data ROM. *)
Definition clamp24 (x : Z) : Z := Z.max (-8388608) (Z.min 8388607 x).

Definition sin_entry (sin_fixed : Z → Z) (i : Z) : Z := clamp24 (sin_fixed i) mod 2 ^ 24.

Definition table_entry (l : list Z) (i : Z) : Z := default 0 (l !! Z.to_nat i).

Definition mulaw_entry (i : Z) : Z :=
  table_entry mulaw_base (i / 16) * 256 - (i mod 16) * (0x040000 / 2 ^ (i / 16)).

Definition alaw_entry (i : Z) : Z :=
  table_entry multiply_base (i / 16) * 256
  + (table_entry base_values (i / 4 mod 4) * table_entry multiply_line (i / 16 mod 4)
     + table_entry base_values (i mod 4) * table_entry multiply_col (i / 16 mod 4)) * 4096.

Definition rom_entry (sin_fixed : Z → Z) (space a : Z) : Z :=
  if space =? DSP_SPACE_Y then
    if (0x100 <=? a) && (a <? 0x200) then sin_entry sin_fixed (a - 0x100) else 0
  else if space =? DSP_SPACE_X then
    if (0x100 <=? a) && (a <? 0x180) then mulaw_entry (a - 0x100)
    else if (0x180 <=? a) && (a <? 0x200) then alaw_entry (a - 0x180) else 0
  else 0.

(** The ROM with the entries [f] at [base] .. [base + n - 1] of a space. *)
Definition rom_filled (sp base n : Z) (f : Z → Z) (r0 r : gmap (Z * Z) Z) : Prop :=
  ∀ sp' a, aget r (sp', a) = if (sp' =? sp) && (base <=? a) && (a <? base + n) then f (a - base) else aget r0 (sp', a).

Definition with_rom (r : gmap (Z * Z) Z) (s : state) : state := upd_core (c_rom r) s.

(** The host downloads a program. *)
Fixpoint download (ws : list Z) : M unit :=
  match ws with
  | [] => mret tt
  | w :: ws => host_write_word w;; download ws
  end.

(** What the download of one word keeps. *)
Definition boot_same (s s' : state) : Prop :=
  s'.(core).(pc) = s.(core).(pc) ∧ s'.(core).(registers) = s.(core).(registers)
  ∧ s'.(core).(stack) = s.(core).(stack) ∧ s'.(core).(ram) = s.(core).(ram)
  ∧ s'.(core).(rom) = s.(core).(rom) ∧ s'.(core).(periph) = s.(core).(periph).

(** ** Every step keeps the types *)

Lemma typed_events e s : typed s → typed (s_events e s).
Proof. by intros []. Qed.

Lemma wp_write_host_bootstrap (Q : unit → state → Prop) s :
  0 <= s.(core).(bootstrap_pos) < 512 → (∀ t, Q tt (s_events t (booted s))) → wp write_host_bootstrap Q s.
Proof.
  intros Hpos HQ. unfold write_host_bootstrap. wp_steps. unfold booted in HQ.
  rewrite u16_small by lia. destruct (_ =? 0x200); cbn [when]; wp_steps.
  - apply wp_sync. intros t. apply HQ.
  - apply HQ.
Qed.

Lemma typed_booted s : typed s → s.(core).(bootstrap_pos) < 512 → typed (booted s).
Proof.
  intros T Hpos. pose proof (ty_bootstrap_pos s T) as Hpos0. unfold in_u in Hpos0. unfold booted.
  assert (in_u 24 (boot_word s)) as Hw.
  { pose proof (ty_hostport s T CPU_HOST_TXH). pose proof (ty_hostport s T CPU_HOST_TXM).
    pose proof (ty_hostport s T CPU_HOST_TXL). unfold boot_word. bounds. }
  assert (in_u 16 (s.(core).(bootstrap_pos) + 1)) as Hp1 by (unfold in_u; lia).
  destruct T. destruct (Z.eqb_spec (s.(core).(bootstrap_pos) + 1) 0x200); constructor; cbn.
  all: try assumption; try done; try (by apply acells_aset). intros _. lia.
Qed.

Lemma safe_txl :
  safe (running ← gets (λ s, s.(core).(running));
        if negb (nz running) then write_host_bootstrap
        else dsp_core_hostport_cpuwrite;; resumeThread) (λ _, True).
Proof.
  intros p s T E. erewrite bind_ok by reflexivity. destruct (nz s.(core).(running)) eqn:Hr; cbn [negb].
  - revert s T E Hr. assert (safe (dsp_core_hostport_cpuwrite;; resumeThread) (λ _, True)) as H by spec_auto.
    intros s T E _. exact (H p s T E).
  - pose proof (ty_bootstrap s T Hr) as Hpos. pose proof (ty_bootstrap_pos s T) as Hpos0. unfold in_u in Hpos0.
    destruct (wp_run write_host_bootstrap (λ _ s', typed s' ∧ (s'.(parmove) = p ∧ True) ∧ kept s s') s) as (? & s' & -> & Hs'); [|done].
    apply wp_write_host_bootstrap; [lia|]. intros t. split; [by apply typed_events, typed_booted|].
    split; [done|]. unfold booted, kept. cbn. by destruct (_ =? 0x200).
Qed.
#[local] Hint Resolve safe_txl : dsp_safe.

Lemma safe_write_host addr value : 0 <= addr < 8 → safe (dsp_core_write_host addr value) (λ _, True).
Proof.
  intros Ha. unfold dsp_core_write_host. cbv zeta.
  destruct (decide (addr = CPU_HOST_TXL)) as [->|Hne].
  - cbn [Z.eqb Pos.eqb orb]. do 2 spec_step. eapply spec_bind_safe; [|intros ? _; spec_auto].
    intros p'. eapply spec_bind_safe; [spec_auto|]. intros ? _. apply safe_txl.
  - rewrite (proj2 (Z.eqb_neq addr CPU_HOST_TXL) Hne). spec_auto.
Qed.

Lemma wp_shutdown (Q : unit → state → Prop) s :
  (∀ t, Q tt (s_events t (upd_core (λ c, c_mutex false (c_semaphore false (c_thread false (c_running 0 c)))) s))) →
  wp dsp_core_shutdown Q s.
Proof.
  intros HQ. unfold dsp_core_shutdown. do 5 wp_step.
  destruct (thread (core (upd_core (c_running 0) s))) eqn:Et; cbn [when].
  - apply wp_bind, wp_sync. intros t. unfold emit. wp_steps. apply HQ.
  - wp_steps. rewrite <- (s_events_id (upd_core _ _)). destruct s as [[]]. cbn in Et. subst. apply HQ.
Qed.

Lemma wp_core_reset sem mut thr (Q : unit → state → Prop) s :
  (∀ t b1 b2 b3 p, (b1 = true → p = true) → (nz s.(core).(use_thread) = false → p = true) →
     Q tt (s_cpu_core p (s_events t (upd_core (reset_core b1 b2 b3) s)))) →
  wp (dsp_core_reset sem mut thr) Q s.
Proof.
  intros HQ. unfold dsp_core_reset. apply wp_bind, wp_shutdown. intros t.
  do 10 wp_step. cbn [for_loop]. wp_steps.
  match goal with |- wp _ _ ?x => replace x with (s_events t (upd_core (reset_core false false false) s)) by reflexivity end.
  destruct (nz s.(core).(use_thread)) eqn:Eu.
  - cbn [core use_thread upd_core s_core s_events reset_core]. rewrite Eu. unfold emit, dsp56k_init_cpu. do 6 wp_step.
    change (when (negb _) ?m) with m. wp_steps. destruct thr; cbn [when]; wp_steps.
    + by apply (HQ _ true sem mut true).
    + match goal with |- Q tt ?x => replace x with (s_cpu_core s.(cpu_core) x) by (by destruct s) end. by apply (HQ _ false sem mut).
  - cbn [core use_thread upd_core s_core s_events reset_core]. rewrite Eu. unfold dsp56k_init_cpu. wp_steps.
    by apply (HQ t false false false true).
Qed.

Lemma aget_reset_registers n :
  aget reset_registers n = if n =? DSP_REG_OMR then 2 else if (DSP_REG_M0 <=? n) && (n <? DSP_REG_M0 + 8) then 0xffff else 0.
Proof.
  unfold reset_registers. cbn [foldl]. rewrite !aget_aset, aget_empty.
  repeat case_decide; repeat match goal with
    | |- context [?a =? ?b] => destruct (Z.eqb_spec a b)
    | |- context [?a <=? ?b] => destruct (Z.leb_spec a b)
    | |- context [?a <? ?b] => destruct (Z.ltb_spec a b) end; cbn; lia.
Qed.

Lemma typed_reset b1 b2 b3 s : typed s → typed (upd_core (reset_core b1 b2 b3) s).
Proof.
  intros []. constructor; cbn; try assumption; try (by apply in_ub_spec); try lia.
  - intros n. rewrite aget_reset_registers. repeat case_match; by apply in_ub_spec.
  - by apply acells_empty, in_ub_spec.
  - unfold reset_periph. repeat (apply acells_aset; [|by apply in_ub_spec]). by apply acells_empty, in_ub_spec.
  - unfold reset_hostport. repeat (apply acells_aset; [|by apply in_ub_spec]). done.
Qed.

(** ** Initialisation *)

Lemma wp_for {A} (n : nat) (body : Z → A → M A) (I : Z → A → state → Prop) (Q : A → state → Prop) :
  ∀ i a s, I i a s →
  (∀ j a s, i <= j < i + Z.of_nat n → I j a s → wp (body j a) (I (j + 1)) s) →
  (∀ a s, I (i + Z.of_nat n) a s → Q a s) → wp (for_loop n i body a) Q s.
Proof.
  induction n as [|n IH]; intros i a s HI Hb HQ; cbn [for_loop].
  - apply wp_ret, HQ. by rewrite Z.add_0_r.
  - apply wp_bind. eapply wp_mono; [apply Hb; [lia|done]|]. cbv beta. intros a' s' HI'.
    apply IH; [done|intros; apply Hb; [lia|done]|]. intros a0 s0. replace (i + 1 + Z.of_nat n) with (i + Z.of_nat (S n)) by lia. apply HQ.
Qed.

Lemma rom_filled_0 sp base f r : rom_filled sp base 0 f r r.
Proof. intros sp' a. destruct (_ =? _), (Z.leb_spec base a), (Z.ltb_spec a (base + 0)); cbn; done || lia. Qed.

Lemma rom_filled_S sp base n f v r0 r :
  0 <= n → rom_filled sp base n f r0 r → v = f n → rom_filled sp base (n + 1) f r0 (aset r (sp, base + n) v).
Proof.
  intros Hn H -> sp' a. rewrite aget_aset, H. destruct (decide ((sp, base + n) = (sp', a))) as [[= <- <-]|Hne].
  - rewrite Z.eqb_refl, (proj2 (Z.leb_le _ _)), (proj2 (Z.ltb_lt _ _)) by lia. cbn. f_equal. lia.
  - destruct (Z.eqb_spec sp' sp) as [->|]; [|done]. cbn.
    destruct (Z.leb_spec base a), (Z.ltb_spec a (base + n)), (Z.ltb_spec a (base + (n + 1))); cbn; try done; try lia.
    destruct Hne. f_equal. lia.
Qed.

Lemma wp_set_rom sp i v (Q : unit → state → Prop) s :
  0 <= sp < 2 → 0 <= i < 512 → Q tt (with_rom (aset s.(core).(rom) (sp, i) v) s) → wp (set_rom sp i v) Q s.
Proof. intros. unfold set_rom. by repeat (apply wp_bind, wp_check; [lia|]). Qed.

Lemma wp_init_sin sin_fixed (Q : unit → state → Prop) s :
  (∀ r, rom_filled DSP_SPACE_Y 0x100 256 (sin_entry sin_fixed) s.(core).(rom) r → Q tt (with_rom r s)) →
  wp (init_sin_table sin_fixed) Q s.
Proof.
  intros HQ. unfold init_sin_table.
  apply wp_for with (I := λ j _ s', ∃ r, s' = with_rom r s ∧ rom_filled DSP_SPACE_Y 0x100 j (sin_entry sin_fixed) s.(core).(rom) r).
  - exists s.(core).(rom). split; [by destruct s as [[]]|apply rom_filled_0].
  - intros j [] s' Hj (r & -> & Hr). apply wp_set_rom; [lia|lia|]. cbn [core rom with_rom upd_core s_core c_rom].
    eexists. split; [reflexivity|]. apply rom_filled_S; [lia|done|]. unfold sin_entry, clamp24.
    rewrite (land_ones_const _ 0x00ffffff 24) by lia. f_equal.
    destruct (Z.ltb_spec 8388607 (sin_fixed j)), (Z.ltb_spec (sin_fixed j) (-8388608)); lia.
  - intros [] s' (r & -> & Hr). by apply HQ.
Qed.

Lemma lookup_table (l : list Z) i : 0 <= i < Z.of_nat (length l) → l !! Z.to_nat i = Some (table_entry l i).
Proof.
  intros Hi. unfold table_entry. destruct (lookup_lt_is_Some_2 l (Z.to_nat i)) as [x Hx]; [lia|]. by rewrite Hx.
Qed.

Lemma wp_table (l : list Z) i (Q : Z → state → Prop) s :
  0 <= i < Z.of_nat (length l) → Q (table_entry l i) s → wp (table_get l i) Q s.
Proof. intros Hi. apply wp_table_get; [lia|]. by apply lookup_table. Qed.

Lemma split16 i j : 0 <= j < 16 → (16 * i + j) / 16 = i ∧ (16 * i + j) mod 16 = j.
Proof. intros. split; Z.div_mod_to_equations; lia. Qed.

Lemma mulaw_positive i j : 0 <= i < 8 → 0 <= j < 16 →
  0 <= table_entry mulaw_base i * 256 - j * (0x040000 / 2 ^ i) < 2 ^ 32.
Proof.
  intros Hi Hj. assert (i = 0 ∨ i = 1 ∨ i = 2 ∨ i = 3 ∨ i = 4 ∨ i = 5 ∨ i = 6 ∨ i = 7)
    as [->|[->|[->|[->|[->|[->|[->| ->]]]]]]] by lia.
  all: match goal with |- context [table_entry mulaw_base ?k] =>
         let v := eval vm_compute in (table_entry mulaw_base k) in change (table_entry mulaw_base k) with v;
         let w := eval vm_compute in (0x040000 / 2 ^ k) in change (0x040000 / 2 ^ k) with w end;
       change (2 ^ 32) with 4294967296; lia.
Qed.

Lemma wp_init_mulaw (Q : unit → state → Prop) s :
  (∀ r, rom_filled DSP_SPACE_X 0x100 128 mulaw_entry s.(core).(rom) r → Q tt (with_rom r s)) →
  wp init_mulaw_table Q s.
Proof.
  intros HQ. unfold init_mulaw_table. apply wp_bind.
  apply wp_for with (I := λ i '(position, offset) s', position = 0x100 + 16 * i ∧ offset = 0x040000 / 2 ^ i ∧
    ∃ r, s' = with_rom r s ∧ rom_filled DSP_SPACE_X 0x100 (16 * i) mulaw_entry s.(core).(rom) r).
  - split; [lia|]. split; [done|]. exists s.(core).(rom). split; [by destruct s as [[]]|apply rom_filled_0].
  - intros i [position offset] s' Hi (-> & -> & r & -> & Hr). apply wp_bind, wp_table; [cbn; lia|].
    apply wp_bind.
    apply wp_for with (I := λ j '(position, value) s', position = 0x100 + (16 * i + j) ∧
      (j < 16 → value = table_entry mulaw_base i * 256 - j * (0x040000 / 2 ^ i)) ∧
      ∃ r, s' = with_rom r s ∧ rom_filled DSP_SPACE_X 0x100 (16 * i + j) mulaw_entry s.(core).(rom) r).
    + split; [lia|]. split; [intros _; rewrite shl_mul by lia; change (2 ^ 8) with 256; lia|].
      exists r. rewrite Z.add_0_r. done.
    + intros j [position value] s' Hj (-> & Hv & r' & -> & Hr'). rewrite Hv by lia. clear Hv.
      apply wp_bind, wp_set_rom; [lia|lia|]. cbn [core rom with_rom upd_core s_core c_rom]. apply wp_ret.
      split; [lia|]. split.
      * intros Hj'. rewrite u32_small; [lia|]. pose proof (mulaw_positive i (j + 1) ltac:(lia) ltac:(lia)). lia.
      * eexists. split; [reflexivity|]. rewrite Z.add_assoc. apply rom_filled_S; [lia|done|].
        destruct (split16 i j) as [E1 E2]; [lia|]. unfold mulaw_entry. by rewrite E1, E2.
    + intros [position value] s' (-> & _ & r' & -> & Hr'). apply wp_ret. split; [lia|]. split.
      * rewrite shr_div by lia. rewrite Z.div_div, <- Z.pow_add_r by lia. done.
      * exists r'. split; [done|]. by replace (16 * (i + 1)) with (16 * i + 16) by lia.
  - intros [position offset] s' (_ & _ & r & -> & Hr). apply wp_ret, HQ. done.
Qed.

Lemma alaw_positive n : 0 <= n < 128 → 0 <= alaw_entry n < 2 ^ 32.
Proof.
  intros Hn. assert (forallb (λ m, (0 <=? alaw_entry m) && (alaw_entry m <? 2 ^ 32)) (seqZ 0 128) = true) as H by (vm_compute; reflexivity).
  rewrite forallb_forall in H. specialize (H n ltac:(apply list_elem_of_In, elem_of_seqZ; lia)). lia.
Qed.

Lemma alaw_at i j k : 0 <= i < 8 → 0 <= j < 4 → 0 <= k < 4 →
  u32 (table_entry multiply_base i ≪ 8
       + ((table_entry base_values j * table_entry multiply_line (i .& 3)) ≪ 12)
       + ((table_entry base_values k * table_entry multiply_col (i .& 3)) ≪ 12))
  = alaw_entry (16 * i + 4 * j + k).
Proof.
  intros Hi Hj Hk. pose proof (alaw_positive (16 * i + 4 * j + k) ltac:(lia)) as Hp. rewrite <- (u32_small (alaw_entry _)) by done.
  f_equal. unfold alaw_entry. rewrite !shl_mul, (land_ones_const _ 3 2) by lia. change (2 ^ 2) with 4.
  replace ((16 * i + 4 * j + k) / 16) with i by (Z.div_mod_to_equations; lia).
  replace ((16 * i + 4 * j + k) / 4 mod 4) with j by (Z.div_mod_to_equations; lia).
  replace ((16 * i + 4 * j + k) mod 4) with k by (Z.div_mod_to_equations; lia).
  change (2 ^ 8) with 256. change (2 ^ 12) with 4096. ring.
Qed.

Lemma wp_init_alaw (Q : unit → state → Prop) s :
  (∀ r, rom_filled DSP_SPACE_X 0x180 128 alaw_entry s.(core).(rom) r → Q tt (with_rom r s)) →
  wp init_alaw_table Q s.
Proof.
  intros HQ. unfold init_alaw_table. apply wp_bind.
  set (I := λ n (pos : Z) s', pos = 0x180 + n ∧ ∃ r, s' = with_rom r s
    ∧ rom_filled DSP_SPACE_X 0x180 n alaw_entry s.(core).(rom) r).
  apply wp_for with (I := λ i, I (16 * i)).
  - split; [lia|]. exists s.(core).(rom). split; [by destruct s as [[]]|apply rom_filled_0].
  - intros i pos s' Hi HI. assert (0 <= i .& 3 < 4) by (by apply (in_u_land_mask 2)).
    do 3 (apply wp_bind, wp_table; [cbn; lia|]). cbv zeta.
    apply wp_for with (I := λ j, I (16 * i + 4 * j)).
    + by replace (16 * i + 4 * 0) with (16 * i) by lia.
    + intros j pos' s'' Hj HI'. apply wp_bind, wp_table; [cbn; lia|]. cbv zeta.
      apply wp_for with (I := λ k, I (16 * i + 4 * j + k)).
      * by rewrite Z.add_0_r.
      * intros k pos'' s3 Hk (-> & r & -> & Hr). apply wp_bind, wp_table; [cbn; lia|]. cbv zeta.
        apply wp_bind, wp_set_rom; [lia|lia|]. apply wp_ret. split; [lia|]. cbn [core rom with_rom upd_core s_core c_rom].
        eexists. split; [reflexivity|]. rewrite Z.add_assoc. apply rom_filled_S; [lia|done|]. by apply alaw_at; lia.
      * intros pos'' s3 H3. by replace (16 * i + 4 * (j + 1)) with (16 * i + 4 * j + (0 + Z.of_nat 4)) by lia.
    + intros pos' s'' H'. by replace (16 * (i + 1)) with (16 * i + 4 * (0 + Z.of_nat 4)) by lia.
  - intros pos s' (_ & r & -> & Hr). apply wp_ret, HQ. done.
Qed.

Lemma rom_entry_range sin_fixed sp a : in_u 32 (rom_entry sin_fixed sp a).
Proof.
  unfold rom_entry, in_u. destruct (sp =? DSP_SPACE_Y); [|destruct (sp =? DSP_SPACE_X); [|done]].
  - destruct (_ && _); [|done]. unfold sin_entry.
    pose proof (Z.mod_pos_bound (clamp24 (sin_fixed (a - 0x100))) (2 ^ 24) ltac:(lia)). change (2 ^ 24) with 16777216 in *.
    change (2 ^ 32) with 4294967296. lia.
  - destruct (Z.leb_spec 0x100 a), (Z.ltb_spec a 0x180); cbn [andb].
    + unfold mulaw_entry. apply mulaw_positive; Z.div_mod_to_equations; lia.
    + destruct (Z.leb_spec 0x180 a), (Z.ltb_spec a 0x200); cbn [andb]; try done. apply alaw_positive. lia.
    + destruct (Z.leb_spec 0x180 a); [lia|done].
    + lia.
Qed.

(** The state after [dsp_core_init]: everything 0 but the ROM and the thread mode. *)
Lemma wp_core_init sin_fixed ut (Q : unit → state → Prop) s :
  (∀ r, (∀ sp a, aget r (sp, a) = rom_entry sin_fixed sp a) →
     Q tt (upd_core (λ _, c_use_thread ut (c_rom r zero_core)) s)) →
  wp (dsp_core_init sin_fixed ut) Q s.
Proof.
  intros HQ. unfold dsp_core_init. do 2 wp_step. apply wp_bind, wp_init_sin. intros r1 H1.
  apply wp_bind, wp_init_mulaw. intros r2 H2. apply wp_bind, wp_init_alaw. intros r3 H3. wp_steps. apply HQ.
  intros sp a. rewrite H3. cbn [core rom with_rom upd_core s_core c_rom]. rewrite H2. cbn [core rom with_rom upd_core s_core c_rom].
  rewrite H1. cbn [core rom upd_core s_core zero_core]. rewrite aget_empty. unfold rom_entry.
  change (0x180 + 128) with 0x200. change (0x100 + 128) with 0x180. change (0x100 + 256) with 0x200.
  destruct (Z.eqb_spec sp DSP_SPACE_X) as [->|]; cbn [andb].
  - change (DSP_SPACE_X =? DSP_SPACE_Y) with false. cbv iota. cbn [andb].
    destruct (Z.leb_spec 0x180 a), (Z.ltb_spec a 0x200), (Z.leb_spec 0x100 a), (Z.ltb_spec a 0x180); try lia; done.
  - destruct (sp =? DSP_SPACE_Y); [|done]. done.
Qed.

(** ** Properties *)

(** initialisation clears the core and fills the data ROM: the sine table (from
    the given values, clamped to 24 bits) at Y:$100-$1ff, the mu-law table at X:$100-$17f
    and the A-law table at X:$180-$1ff, each entry with its value and no other cell. *)
Lemma init_fills_rom (sin_fixed : Z → Z) (ut : Z) (s : state) :
  ∃ r, dsp_core_init sin_fixed ut s = Ok tt (upd_core (λ _, c_use_thread ut (c_rom r zero_core)) s)
    ∧ ∀ sp a, aget r (sp, a) = rom_entry sin_fixed sp a.
Proof.
  destruct (wp_exists (dsp_core_init sin_fixed ut) (λ s', ∃ r, s' = upd_core (λ _, c_use_thread ut (c_rom r zero_core)) s
    ∧ ∀ sp a, aget r (sp, a) = rom_entry sin_fixed sp a) s) as (s' & E & r & -> & Hr); [|eauto].
  apply wp_core_init. eauto.
Qed.

(** a reset, from whatever state, returns with the DSP stopped at PC 0, an empty
    stack, OMR 2, the address modifiers 0xffff and all other registers 0, no repetition and
    no interrupt in progress, and both directions of the host port empty and ready; the
    memories keep their contents. *)
Lemma reset_establishes (sem mut thr : bool) (s : state) :
  ∃ s', dsp_core_reset sem mut thr s = Ok tt s'
    ∧ s'.(core).(running) = 0 ∧ s'.(core).(pc) = 0 ∧ s'.(core).(bootstrap_pos) = 0 ∧ stack_rep s' []
    ∧ (∀ n, reg s' n = if n =? DSP_REG_OMR then 2
                       else if (DSP_REG_M0 <=? n) && (n <? DSP_REG_M0 + 8) then 0xffff else 0)
    ∧ s'.(core).(loop_rep) = 0 ∧ quiet s' ∧ to_host s' []
    ∧ trdy_ok s' ∧ isr s' CPU_HOST_ISR_TRDY = true
    ∧ s'.(core).(ram) = s.(core).(ram) ∧ s'.(core).(rom) = s.(core).(rom) ∧ s'.(core).(ramint) = s.(core).(ramint).
Proof.
  apply wp_exists, wp_core_reset. intros t b1 b2 b3 p _ _.
  assert (∀ n, reg (s_cpu_core p (s_events t (upd_core (reset_core b1 b2 b3) s))) n = if n =? DSP_REG_OMR then 2
      else if (DSP_REG_M0 <=? n) && (n <? DSP_REG_M0 + 8) then 0xffff else 0) as Hr by apply aget_reset_registers.
  do 3 (split; [done|]). split.
  { do 3 (split; [by rewrite Hr|]). split; [cbn; lia|]. intros i pc sr. by rewrite lookup_nil. }
  split; [exact Hr|]. split; [done|]. split; [by repeat split; try done|]. split.
  { split; [|done]. unfold isr. cbn. unfold reset_hostport. by rewrite aget_aset_ne, aget_aset_eq. }
  split; [|split; [|done]]; unfold trdy_ok, isr; cbn; unfold reset_hostport; by rewrite aget_aset_ne, aget_aset_eq.
Qed.

(** ** Bootstrap *)

Lemma wp_boot_word w (Q : unit → state → Prop) s :
  let pos := s.(core).(bootstrap_pos) in
  s.(core).(running) = 0 → 0 <= pos < 512 →
  (∀ s', boot_same s s' → s'.(core).(bootstrap_pos) = pos + 1 →
     s'.(core).(running) = (if pos + 1 =? 512 then 1 else 0) →
     s'.(core).(ramint) = aset s.(core).(ramint) (DSP_SPACE_P, pos) (w mod 2 ^ 24) → Q tt s') →
  wp (host_write_word w) Q s.
Proof.
  intros pos Hrun Hpos HQ. unfold host_write_word.
  apply wp_bind, wp_write_host_byte; [by left|]. intros t1 t2.
  apply wp_bind, wp_write_host_byte; [by right|]. intros t3 t4.
  unfold dsp_core_write_host. apply wp_bind, wp_sync. intros t5. apply wp_bind.
  cbn [Z.eqb Pos.eqb orb]. do 4 wp_step. cbn [core running upd_hostport upd_core c_hostport s_core s_events].
  rewrite Hrun. cbn [nz negb Z.eqb]. apply wp_write_host_bootstrap; [done|]. intros t6. apply wp_sync. intros t7.
  match goal with |- Q tt (s_events t7 (s_events t6 (booted ?x))) => set (s1 := x) end.
  assert (boot_word s1 = w mod 2 ^ 24) as Hw.
  { unfold boot_word, s1. cbn. host_cells. assert (u8 (u8 w) = u8 w) as -> by apply Zmod_mod.
    rewrite <- word_of_bytes, <- word_of_cells by apply in_u_u8.
    by rewrite Z.lor_comm, (Z.lor_comm (u8 (w ≫ 16) ≪ 16)), Z.lor_assoc. }
  unfold booted. rewrite Hw. change (s1.(core).(bootstrap_pos)) with pos.
  apply HQ; [|cbn; by destruct (pos + 1 =? 512)..].
  unfold boot_same. cbn. by destruct (pos + 1 =? 512).
Qed.

Lemma boot_same_trans s1 s2 s3 : boot_same s1 s2 → boot_same s2 s3 → boot_same s1 s3.
Proof. unfold boot_same. intuition congruence. Qed.

Lemma download_run ws : ∀ s k,
  s.(core).(running) = 0 → s.(core).(bootstrap_pos) = k → 0 <= k → k + Z.of_nat (length ws) <= 512 →
  ∃ s', download ws s = Ok tt s'
    ∧ s'.(core).(running) = (if (k + Z.of_nat (length ws) =? 512) && negb (bool_decide (ws = [])) then 1 else 0)
    ∧ s'.(core).(bootstrap_pos) = k + Z.of_nat (length ws)
    ∧ (∀ i w, ws !! i = Some w → aget s'.(core).(ramint) (DSP_SPACE_P, k + Z.of_nat i) = w mod 2 ^ 24)
    ∧ (∀ i, i < k → aget s'.(core).(ramint) (DSP_SPACE_P, i) = aget s.(core).(ramint) (DSP_SPACE_P, i))
    ∧ boot_same s s'.
Proof.
  induction ws as [|w ws IH]; intros s k Hrun Hpos Hk Hlen; cbn [download length] in *.
  { exists s. split; [done|]. split; [by rewrite andb_false_r|]. split; [lia|]. done. }
  destruct (wp_exists (host_write_word w) (λ s', boot_same s s' ∧ s'.(core).(bootstrap_pos) = k + 1
    ∧ s'.(core).(running) = (if k + 1 =? 512 then 1 else 0)
    ∧ s'.(core).(ramint) = aset s.(core).(ramint) (DSP_SPACE_P, k) (w mod 2 ^ 24)) s) as (s1 & E1 & S1 & P1 & R1 & M1).
  { subst k. by apply wp_boot_word; [|lia|]. }
  destruct (decide (ws = [])) as [->|Hne].
  - exists s1. rewrite (bind_ok _ _ _ _ _ E1). cbn [length] in *. split; [done|]. split; [by rewrite R1, andb_true_r|].
    split; [lia|]. split; [|split; [|done]].
    + intros [|i] w' Hi; [|done]. injection Hi as <-. rewrite M1, Z.add_0_r. apply aget_aset_eq.
    + intros i Hi. rewrite M1. apply aget_aset_ne. intros [=]. lia.
  - assert (0 < length ws)%nat by (destruct ws; [done|cbn; lia]).
    rewrite (proj2 (Z.eqb_neq (k + 1) 512)) in R1 by lia.
    destruct (IH s1 (k + 1)) as (s' & E & Hr & Hp & Hw & Hlo & Hs); [done|done|lia|lia|].
    exists s'. rewrite (bind_ok _ _ _ _ _ E1). split; [done|]. split.
    { rewrite Hr, (bool_decide_eq_false_2 _ Hne), bool_decide_eq_false_2 by done. by replace (k + Z.of_nat (S (length ws))) with (k + 1 + Z.of_nat (length ws)) by lia. }
    split; [lia|]. split; [|split].
    + intros [|i] w' Hi; cbn in Hi.
      * injection Hi as <-. rewrite Z.add_0_r, Hlo, M1 by lia. apply aget_aset_eq.
      * specialize (Hw i w' Hi). by replace (k + Z.of_nat (S i)) with (k + 1 + Z.of_nat i) by lia.
    + intros i Hi. rewrite Hlo, M1 by lia. apply aget_aset_ne. intros [=]. lia.
    + by eapply boot_same_trans.
Qed.

(** C37: the bootstrap: the words the host writes while the DSP is stopped go one
    after the other to the internal program memory from P:0 on; the DSP starts with the
    512th word and not before, at the PC it had (0 after a reset), with nothing but the
    program changed. *)
Theorem bootstrap_loads_program (ws : list Z) (s : state)
    (Hrun : s.(core).(running) = 0) (Hpos : s.(core).(bootstrap_pos) = 0) (Hlen : (length ws <= 512)%nat) :
  ∃ s', download ws s = Ok tt s'
    ∧ s'.(core).(running) = (if (length ws =? 512)%nat then 1 else 0)
    ∧ (∀ i w, ws !! i = Some w → p_word s' (Z.of_nat i) = w mod 2 ^ 24) ∧ boot_same s s'.
Proof.
  destruct (download_run ws s 0) as (s' & E & Hr & Hp & Hw & Hlo & Hs); [done|done|lia|lia|].
  exists s'. split; [done|]. split; [|split; [|done]].
  - rewrite Hr. destruct (Nat.eqb_spec (length ws) 512) as [Ee|Ee].
    + rewrite Ee, bool_decide_eq_false_2; [done|]. by intros ->.
    + rewrite (proj2 (Z.eqb_neq _ _)) by lia. done.
  - intros i w Hi. pose proof (lookup_lt_Some _ _ _ Hi). specialize (Hw i w Hi). rewrite Z.add_0_l in Hw.
    unfold p_word, locate. rewrite (proj2 (Z.ltb_lt (Z.of_nat i) 0x200)) by lia.
    change (DSP_SPACE_P =? DSP_SPACE_P) with true. cbv iota.
    destruct (_ <? 0x100); cbn [peek]; rewrite Hw; apply Zmod_mod.
Qed.

Lemma bootstrap_loads_program_witness :
  ∃ s', download (replicate 512 0x123456) zero_state = Ok tt s' ∧ s'.(core).(running) = 1 ∧ p_word s' 7 = 0x123456.
Proof.
  destruct (bootstrap_loads_program (replicate 512 0x123456) zero_state) as (s' & E & Hr & Hw & _).
  - reflexivity.
  - reflexivity.
  - rewrite length_replicate. lia.
  - exists s'. split; [exact E|]. split; [exact Hr|]. exact (Hw 7%nat 0x123456 eq_refl).
Defined.

(** ** The machine *)

(** What a step may do wrong, and what it does to the pointer. *)
Definition step_ok (a : action) (s : state) : Prop :=
  match act a s with
  | Ok _ s' => typed s' ∧ s'.(core).(use_thread) = s.(core).(use_thread) ∧ (thread_set s → thread_set s')
      ∧ (caller_set s ∨ (∃ sem mut thr, a = Reset sem mut thr) → caller_set s')
  | UB e => program_error e ∨ e = NullPointer ∧ (thread_set s → nz s.(core).(use_thread) = false ∧ ¬ caller_set s)
  end.

Lemma step_ok_spec {A} a (m : M A) (Q : A → parmove_t → Prop) s :
  (∀ sem mut thr, a ≠ Reset sem mut thr) → act a s = (m;; mret tt) s → spec s.(parmove) m Q → typed s → step_ok a s.
Proof.
  intros Ha E H T. unfold step_ok. rewrite E. specialize (H s T eq_refl). unfold mbind, M_bind.
  destruct (m s) as [x s'|e]; [|by left]. cbn. destruct H as (T' & _ & Kp & Kt & Ku). split_and!; [done..| |].
  - unfold thread_set. by rewrite Kp, Kt.
  - unfold caller_set. rewrite Kp, Ku. intros [H|(? & ? & ? & ->)]; [done|by edestruct Ha].
Qed.

Lemma enter_instruction s :
  nz s.(core).(running) && (negb (nz s.(core).(use_thread)) || s.(core).(thread)) = true → act Instruction s = execute_entry s.
Proof. intros Eg. unfold act, mbind, M_bind, gets. by rewrite Eg. Qed.

Lemma null_entry s : s.(cpu_core) = false → execute_entry s = UB NullPointer.
Proof. intros Ep. unfold execute_entry, mbind, M_bind, gets. by rewrite Ep. Qed.

Lemma instruction_ok s : typed s → step_ok Instruction s.
Proof.
  intros T. destruct (nz s.(core).(running) && (negb (nz s.(core).(use_thread)) || s.(core).(thread))) eqn:Eg.
  - pose proof (enter_instruction s Eg) as E. destruct s.(cpu_core) eqn:Ep.
    + eapply (step_ok_spec _ dsp56k_execute_instruction); [done| |apply handler_execute_instruction|done].
      rewrite E. unfold execute_entry, mbind, M_bind, gets. rewrite Ep. by destruct (dsp56k_execute_instruction s) as [[]|].
    + unfold step_ok. rewrite E, null_entry by done. right. split; [done|].
      unfold thread_set, caller_set. rewrite Ep. apply andb_prop in Eg as [_ Eg].
      destruct (nz s.(core).(use_thread)); [|by split; [|intros C; by specialize (C eq_refl)]].
      cbn in Eg. intros H. by specialize (H Eg).
  - eapply (step_ok_spec _ (mret tt) (λ _ _, True)); [done|unfold act, mbind, M_bind, gets; by rewrite Eg|by apply spec_ret|done].
Qed.

Lemma act_safe a s : allowed a → typed s → step_ok a s.
Proof.
  intros Ha T. destruct a as [sem mut thr|addr|addr value|]; [| | |by apply instruction_ok].
  - unfold step_ok. cbn [act].
    destruct (wp_exists (dsp_core_reset sem mut thr) (λ s', typed s' ∧ s'.(core).(use_thread) = s.(core).(use_thread)
      ∧ thread_set s' ∧ caller_set s') s) as (s' & -> & ? & ? & ? & ?); [|done].
    apply wp_core_reset. intros t b1 b2 b3 p Hp1 Hp2.
    split; [|done]. pose proof (typed_events t _ (typed_reset b1 b2 b3 s T)) as T'. by destruct T'.
  - eapply step_ok_spec; [done|done|by apply safe_read_host|done].
  - eapply (step_ok_spec _ (dsp_core_write_host addr value)); [done| |by apply safe_write_host|done].
    unfold mbind, M_bind. cbn [act]. by destruct (dsp_core_write_host addr value s) as [[]|].
Qed.

Lemma init_state sin_fixed ut s0 : dsp_core_init sin_fixed ut zero_state = Ok tt s0 →
  typed s0 ∧ s0.(core).(use_thread) = ut ∧ thread_set s0.
Proof.
  intros E. destruct (wp_exists (dsp_core_init sin_fixed ut) (λ s, typed s ∧ s.(core).(use_thread) = ut ∧ thread_set s) zero_state)
    as (s1 & E1 & H); [|rewrite E in E1; by injection E1 as ->].
  apply wp_core_init. intros r Hr. split; [|done]. destruct typed_zero_state. constructor; try assumption; try done.
  intros [sp a]. rewrite Hr. apply rom_entry_range.
Qed.

(** An invariant of every step holds after any number of them. *)
Lemma run_invariant (I : state → Prop) s s' :
  (∀ a s1 s2, allowed a → typed s1 → I s1 → act a s1 = Ok tt s2 → I s2) →
  rtc step s s' → typed s → I s → typed s' ∧ I s'.
Proof.
  intros HI. induction 1 as [s|s1 s2 s3 [a s s' Ha E] _ IH]; [done|]. intros T H. apply IH; [|by eapply HI].
  pose proof (act_safe a s Ha T) as Hs. unfold step_ok in Hs. rewrite E in Hs. apply Hs.
Qed.

Lemma reachable_invariant sin_fixed ut s :
  reachable sin_fixed ut s → typed s ∧ s.(core).(use_thread) = ut ∧ thread_set s.
Proof.
  intros (s0 & E0 & Hr). destruct (init_state _ _ _ E0) as (T0 & U0 & P0).
  apply (run_invariant (λ s, s.(core).(use_thread) = ut ∧ thread_set s) s0); [|done..].
  intros a s1 s2 Ha T [U P] E. pose proof (act_safe a s1 Ha T) as H. unfold step_ok in H. rewrite E in H.
  destruct H as (_ & -> & HP & _). auto.
Qed.

Lemma after_reset_set sin_fixed ut s : after_reset sin_fixed ut s → caller_set s.
Proof.
  intros (s0 & s1 & sem & mut & thr & Hr & E & Hs). destruct (reachable_invariant _ _ _ Hr) as (T0 & _ & _).
  pose proof (act_safe (Reset sem mut thr) s0 I T0) as H. unfold step_ok in H. rewrite E in H. destruct H as (T1 & _ & _ & H1).
  refine (proj2 (run_invariant caller_set s1 s _ Hs T1 (H1 _))); [|by eauto 6].
  intros a s2 s3 Ha T2 C2 E2. pose proof (act_safe a s2 Ha T2) as H2. unfold step_ok in H2. rewrite E2 in H2.
  apply H2. by left.
Qed.

(** C1: the machine, its steps the whole calls of the host and the whole instructions: in
    whatever order the host resets the DSP, reads and writes the host port and the DSP
    executes instructions, from initialisation on, every variable stays in its range.  Of
    the accesses the model makes fail - an index outside an array, a table of constants or
    a table of functions, the wrong member of a union, [1<<31] on an int, the pointer of
    dsp_cpu.c followed while NULL, a loop that does not end - a step can only make three:
    the DSP program overruns the DSP stack; it names bit 31 in BCHG, BCLR, BSET, JCLR, JSET,
    JSCLR or JSSET; or, without the thread, an instruction is executed before the first
    reset, which is what sets the pointer.  With the thread, as DSP::DSP asks for, the
    third is impossible.  In particular the bootstrap cannot write outside the internal
    program memory. *)
Theorem machine_safe (sin_fixed : Z → Z) (ut : Z) (s : state) (a : action)
    (Hr : reachable sin_fixed ut s) (Ha : allowed a) :
  typed s
  ∧ match act a s with
    | Ok _ s' => typed s'
    | UB e => program_error e ∨ e = NullPointer ∧ nz ut = false ∧ ¬ after_reset sin_fixed ut s
    end.
Proof.
  destruct (reachable_invariant _ _ _ Hr) as (T & U & P). split; [done|]. pose proof (act_safe a s Ha T) as H.
  unfold step_ok in H. destruct (act a s) as [[] s'|e]; [apply H|]. destruct H as [H|[-> H]]; [by left|right].
  destruct (H P) as [Hu Hc]. split; [done|]. split; [congruence|]. intros Ar. by apply Hc, (after_reset_set sin_fixed ut).
Qed.

(** Initialisation, then a reset, then a write to TXL. *)
Lemma machine_safe_witness :
  ∃ s, reachable (λ _, 0) 0 s ∧ after_reset (λ _, 0) 0 s ∧ typed s
    ∧ match act (HostWrite CPU_HOST_TXL 0x56) s with
      | Ok _ s' => typed s'
      | UB e => program_error e ∨ e = NullPointer ∧ nz 0 = false ∧ ¬ after_reset (λ _, 0) 0 s
      end.
Proof.
  destruct (wp_exists (dsp_core_init (λ _, 0) 0) (λ _, True) zero_state) as (s0 & E0 & _); [by apply wp_core_init|].
  destruct (wp_exists (dsp_core_reset false false false) (λ _, True) s0) as (s1 & E1 & _); [by apply wp_core_reset|].
  assert (reachable (λ _, 0) 0 s0) as Hr0 by (exists s0; split; [exact E0|apply rtc_refl]).
  assert (reachable (λ _, 0) 0 s1) as Hr.
  { exists s0. split; [exact E0|]. apply rtc_once. exact (step_act (Reset false false false) s0 s1 I E1). }
  exists s1. split; [exact Hr|]. split.
  { exists s0, s1, false, false, false. split; [exact Hr0|]. split; [exact E1|apply rtc_refl]. }
  exact (machine_safe (λ _, 0) 0 s1 (HostWrite CPU_HOST_TXL 0x56) Hr ltac:(cbn; lia)).
Defined.

(** A byte for TXL while the DSP is stopped is the end of a bootstrap word. *)
Lemma wp_txl_boot v (Q : unit → state → Prop) s :
  s.(core).(running) = 0 → 0 <= s.(core).(bootstrap_pos) < 512 →
  (∀ t t' t'', Q tt (s_events t (s_events t' (booted (upd_hostport CPU_HOST_TXL (u8 (u8 v)) (s_events t'' s)))))) →
  wp (act (HostWrite CPU_HOST_TXL v)) Q s.
Proof.
  intros Hrun Hpos HQ. unfold act, dsp_core_write_host. apply wp_bind, wp_sync. intros t5. apply wp_bind.
  cbn [Z.eqb Pos.eqb orb]. do 4 wp_step. cbn [core running upd_hostport upd_core c_hostport s_core s_events].
  rewrite Hrun. cbn [nz negb Z.eqb]. apply wp_write_host_bootstrap; [done|]. intros t6. apply wp_sync. intros t7. apply HQ.
Qed.

(** Without the thread and without a reset, the 512th word of the bootstrap starts the DSP,
    and the first instruction follows the NULL pointer. *)
Lemma no_reset_null_pointer : ∃ s, reachable (λ _, 0) 0 s ∧ act Instruction s = UB NullPointer.
Proof.
  assert (∀ k, (k <= 512)%nat → ∃ s, reachable (λ _, 0) 0 s ∧ s.(core).(bootstrap_pos) = Z.of_nat k
    ∧ s.(core).(running) = (if (k =? 512)%nat then 1 else 0) ∧ s.(core).(use_thread) = 0 ∧ s.(cpu_core) = false) as H.
  - induction k as [|k IH]; intros Hk.
    + destruct (init_fills_rom (λ _, 0) 0 zero_state) as (r & E & _). eexists.
      split; [eexists; split; [exact E|apply rtc_refl]|done].
    + destruct IH as (s & (s0 & E0 & Hr) & Hp & Hrun & Hu & Hc); [lia|]. rewrite (proj2 (Nat.eqb_neq k 512)) in Hrun by lia.
      destruct (wp_exists (act (HostWrite CPU_HOST_TXL 0)) (λ s', s'.(core).(bootstrap_pos) = Z.of_nat (S k)
        ∧ s'.(core).(running) = (if (S k =? 512)%nat then 1 else 0) ∧ s'.(core).(use_thread) = 0 ∧ s'.(cpu_core) = false) s)
        as (s' & E & H); [apply wp_txl_boot; [done|lia|]|].
      * intros t t' t''. unfold booted. cbn. rewrite Hp. replace (Z.of_nat k + 1) with (Z.of_nat (S k)) by lia.
        destruct (Z.eqb_spec (Z.of_nat (S k)) 0x200), (Nat.eqb_spec k 511); try lia; done.
      * exists s'. split; [|exact H]. exists s0. split; [done|]. eapply rtc_r; [exact Hr|]. eapply step_act; [|exact E]. cbn. lia.
  - destruct (H 512%nat) as (s & Hr & _ & Hrun & Hu & Hc); [lia|]. exists s. split; [done|].
    rewrite enter_instruction by (by rewrite Hrun, Hu). by apply null_entry.
Qed.

(** BSET #31,X0 computes [1<<31]. *)
Example bit_31_shift :
  dsp_bset (s_cur_inst 0x0ac47f zero_state) = UB ShiftOverflow.
Proof. vm_compute. reflexivity. Qed.
