(* ===== verification/DisasmSpec.v ===== *)
(** * The disassembler prints every instruction safely

    [dtriple n P m]: from a state whose words have their width, [m] returns without
    undefined behaviour a result that satisfies [P], prints at most [n] lines, marks
    registers and never unmarks one, and changes nothing the emulator sees. *)

From S2P Require Import Prelude DspState Printf Disasm.

(** The state between two calls. *)
Definition disasm_wf (d : disasm) : Prop :=
  in_u 16 d.(dsp_core).(pc) ∧ in_u 24 d.(d_cur_inst) ∧ (String.length d.(parallelmove_name) <= 63)%nat.

(** What a part of the disassembler leaves alone, with at most [n] lines printed. *)
Definition disasm_keeps (n : nat) (d d' : disasm) : Prop :=
  d'.(dsp_core) = d.(dsp_core) ∧ d'.(d_cur_inst) = d.(d_cur_inst) ∧ d'.(prev_inst_pc) = d.(prev_inst_pc)
  ∧ d'.(registers_save) = d.(registers_save)
  ∧ (∀ r, aget d'.(registers_changed) r = aget d.(registers_changed) r ∨ aget d'.(registers_changed) r = 1)
  ∧ ∃ lines, d'.(stderr) = lines ++ d.(stderr) ∧ (length lines <= n)%nat
      ∧ Forall (λ l, String.length l <= 128)%nat lines.

Definition dwp {A} (m : D A) (Q : A → disasm → Prop) (d : disasm) : Prop :=
  match m d with DOk a d' => Q a d' | DUB _ => False end.

(** ** Automation *)

(** An index expression is in range. *)
Ltac in_range :=
  cbv [d_sel4 d_sel_x d_sel_y d_dest];
  lazymatch goal with
  | |- 0 <= ?e < _ =>
      first [ lia
            | lazymatch e with
              | ?c + ?x =>
                  first [ assert (in_u 1 x) as [??] by bounds | assert (in_u 3 x) as [??] by bounds ];
                  change (2 ^ 1) with 2 in *; change (2 ^ 3) with 8 in *; lia
              | ?x =>
                  first [ assert (in_u 1 x) as [??] by bounds | assert (in_u 2 x) as [??] by bounds
                        | assert (in_u 3 x) as [??] by bounds | assert (in_u 4 x) as [??] by bounds
                        | assert (in_u 5 x) as [??] by bounds | assert (in_u 6 x) as [??] by bounds ];
                  change (2 ^ 1) with 2 in *; change (2 ^ 2) with 4 in *; change (2 ^ 3) with 8 in *;
                  change (2 ^ 4) with 16 in *; change (2 ^ 5) with 32 in *; change (2 ^ 6) with 64 in *; cbn; lia
              end ]
  end.

(** The shapes of the arguments of a format. *)
Ltac shape_of_int v :=
  lazymatch v with
  | _ .& BITMASK ?k => let n := eval vm_compute in (Z.to_nat k) in constr:(n)
  | _ => lazymatch goal with
         | H : in_u ?k v |- _ => let n := eval vm_compute in (Z.to_nat k) in constr:(n)
         | _ => constr:(16%nat)
         end
  end.
Ltac fit :=
  lazymatch goal with
  | |- Forall2 fits [] _ => apply List.Forall2_nil
  | |- Forall2 fits (AStr ?s :: _) _ =>
      first
        [ match goal with H : (String.length s <= ?k)%nat |- _ => eapply (List.Forall2_cons (R:=fits) _ (Str k)); [exact H|] end
        | eapply (List.Forall2_cons (R:=fits) _ (Str 1)); [cbv [fits]; repeat case_match; cbn; lia|]
        | eapply (List.Forall2_cons (R:=fits) _ (Str 3)); [cbv [fits]; repeat case_match; cbn; lia|] ]; fit
  | |- Forall2 fits (AInt ?v :: _) _ =>
      let n := shape_of_int v in
      eapply (List.Forall2_cons (R:=fits) _ (Bits n)); [split; [lia|cbn [Z.of_nat Pos.of_succ_nat Pos.succ]; bounds]|]; fit
  end.
Ltac by_format lem := eapply lem; [fit | vm_compute; reflexivity | cbn; lia ..].

Section safe.
(** The instruction. *)
Context (inst : Z).

Definition dtriple {A} (n : nat) (P : A → Prop) (m : D A) : Prop :=
  ∀ d, disasm_wf d → d.(d_cur_inst) = inst → dwp m (λ a d', P a ∧ disasm_wf d' ∧ disasm_keeps n d d') d.

(** ** Rules *)

Lemma keeps_refl n d : disasm_keeps n d d.
Proof. do 4 (split; [done|]). split; [auto|]. exists []. split; [done|]. split; [cbn; lia|done]. Qed.

Lemma keeps_trans n1 n2 n d1 d2 d3 :
  disasm_keeps n1 d1 d2 → disasm_keeps n2 d2 d3 → (n1 + n2 <= n)%nat → disasm_keeps n d1 d3.
Proof.
  intros (E1 & E2 & E3 & E4 & Hm & l & El & Hl & Hf) (F1 & F2 & F3 & F4 & Gm & l' & El' & Hl' & Hf') Hn.
  do 4 (split; [congruence|]). split.
  { intros r. destruct (Gm r) as [-> |]; [apply Hm|by right]. }
  exists (l' ++ l). rewrite El', El, app_assoc. split; [done|]. rewrite length_app. split; [lia|]. by apply Forall_app.
Qed.

Lemma dt_ret {A} n (P : A → Prop) a : P a → dtriple n P (mret a).
Proof. intros HP d Hd _. split; [done|]. split; [done|apply keeps_refl]. Qed.

Lemma dt_bind {A B} n1 n2 n (P : A → Prop) (Q : B → Prop) m f :
  dtriple n1 P m → (∀ a, P a → dtriple n2 Q (f a)) → (n1 + n2 <= n)%nat → dtriple n Q (m ≫= f).
Proof.
  intros Hm Hf Hn d Hd Hi. specialize (Hm d Hd Hi). unfold dwp, mbind, D_bind in *.
  destruct (m d) as [a d1|]; [|done]. destruct Hm as (HP & Hd1 & Hk1).
  assert (d_cur_inst d1 = inst) as Hi1 by (destruct Hk1 as (_ & -> & _); done). specialize (Hf a HP d1 Hd1 Hi1).
  unfold dwp in Hf. destruct (f a d1) as [b d2|]; [|done]. destruct Hf as (HQ & Hd2 & Hk2).
  split; [done|]. split; [done|]. by eapply keeps_trans.
Qed.

Lemma dt_mono {A} n n' (P P' : A → Prop) m :
  dtriple n P m → (n <= n')%nat → (∀ a, P a → P' a) → dtriple n' P' m.
Proof.
  intros Hm Hn HP d Hd Hi. specialize (Hm d Hd Hi). unfold dwp in *. destruct (m d) as [a d1|]; [|done].
  destruct Hm as (Ha & Hd1 & Hk). split; [auto|]. split; [done|].
  eapply (keeps_trans n 0); [exact Hk|apply keeps_refl|lia].
Qed.

Lemma dt_inst n : dtriple n (λ i, i = inst ∧ in_u 24 inst) get_cur_inst.
Proof. intros d Hd <-. split; [split; [done|apply Hd]|]. split; [done|apply keeps_refl]. Qed.

Lemma dt_pc n : dtriple n (in_u 16) get_core_pc.
Proof. intros d Hd _. split; [apply Hd|]. split; [done|apply keeps_refl]. Qed.

Lemma dt_pmname n : dtriple n (λ s, String.length s <= 63)%nat (d_gets parallelmove_name).
Proof. intros d Hd _. split; [apply Hd|]. split; [done|apply keeps_refl]. Qed.

Lemma dt_gets {A} n (f : disasm → A) : dtriple n (λ _, True) (d_gets f).
Proof. intros d Hd _. split; [done|]. split; [done|apply keeps_refl]. Qed.

Lemma dt_table {A} n (P : A → Prop) l i :
  0 <= i < Z.of_nat (length l) → Forall P l → dtriple n P (d_table l i).
Proof.
  intros Hi Hl. unfold d_table. rewrite (proj2 (Z.leb_le 0 i)) by lia.
  destruct (lookup_lt_is_Some_2 l (Z.to_nat i)) as [x Hx]; [lia|]. rewrite Hx. apply dt_ret.
  by eapply Forall_lookup_1.
Qed.

Lemma dt_call n l i : 0 <= i < Z.of_nat (length l) → Forall (dtriple n (λ _, True)) l → dtriple n (λ _, True) (d_call l i).
Proof.
  intros Hi Hl. unfold d_call. eapply (dt_bind 0 n n); [by apply (dt_table 0 (dtriple n (λ _, True)))| |lia]. done.
Qed.

Lemma dt_mark n i : 0 <= i < 64 → dtriple n (λ _, True) (mark i).
Proof.
  intros Hi d Hd _. unfold mark. rewrite in_array_true by done. split; [done|]. split; [done|].
  do 4 (split; [done|]). split; [|exists []; cbn; split; [done|split; [lia|done]]].
  intros r. cbn. rewrite aget_aset. case_decide; auto.
Qed.

Lemma dt_strcpy n size s : (String.length s < size)%nat → dtriple n (λ s', s' = s) (d_strcpy size s).
Proof. intros Hs. unfold d_strcpy. rewrite (proj2 (Nat.ltb_lt _ _) Hs). by apply dt_ret. Qed.

Lemma dt_format n fmt args ks b :
  Forall2 fits args ks → fmt_bound fmt ks = Some b → dtriple n (λ s, String.length s <= b)%nat (d_format fmt args).
Proof.
  intros Ha Hb. unfold d_format. destruct (sprintf_fits fmt args ks b Ha Hb) as (s & -> & Hs). by apply dt_ret.
Qed.

Lemma dt_sprintf n size fmt args ks b :
  Forall2 fits args ks → fmt_bound fmt ks = Some b → (b < size)%nat →
  dtriple n (λ s, String.length s <= b)%nat (d_sprintf size fmt args).
Proof.
  intros Ha Hb Hs. unfold d_sprintf. eapply (dt_bind 0 n n); [by eapply dt_format| |lia]. intros s Hl. cbv beta in Hl.
  eapply dt_mono; [apply (dt_strcpy n); lia|lia|]. by intros ? ->.
Qed.

Lemma dt_fprintf n fmt args ks b :
  Forall2 fits args ks → fmt_bound fmt ks = Some b → (b <= 128)%nat → (1 <= n)%nat →
  dtriple n (λ _, True) (d_fprintf fmt args).
Proof.
  intros Ha Hb Hs Hn. unfold d_fprintf. eapply (dt_bind 0 n n); [by eapply dt_format| |lia]. intros s Hl d Hd _.
  split; [done|]. split; [done|]. do 4 (split; [done|]). split; [by left|]. exists [s]. split; [done|]. split; [done|].
  constructor; [|done]. cbv beta in Hl. lia.
Qed.

Lemma dt_pm_sprintf n fmt args ks b :
  Forall2 fits args ks → fmt_bound fmt ks = Some b → (b < 64)%nat → dtriple n (λ _, True) (pm_sprintf fmt args).
Proof.
  intros Ha Hb Hs. unfold pm_sprintf. eapply (dt_bind 0 n n); [by eapply dt_sprintf| |lia]. intros s Hl d (H1 & H2 & _) _.
  cbv beta in Hl. split; [done|]. split; [split; [done|split; [done|cbn; lia]]|].
  do 4 (split; [done|]). split; [by left|]. exists []. split; [done|]. split; [cbn; lia|done].
Qed.

(** ** Parts *)

Lemma dt_reg_name n i : 0 <= i < 64 → dtriple n (λ s, String.length s <= 3)%nat (reg_name i).
Proof. intros Hi. apply dt_table; [cbn; lia|]. repeat (constructor; [cbn; lia|]). constructor. Qed.

Lemma in_u_masked v : in_u 24 (v .& BITMASK 24).
Proof. apply in_u_land_mask. lia. Qed.

Lemma dt_read_memory n a : 0 <= a → dtriple n (in_u 24) (read_memory a).
Proof.
  intros Ha. unfold read_memory. eapply (dt_bind 0 n n (λ _, True)); [| |lia].
  - destruct (Z.ltb_spec a 0x200); [rewrite in_array_true by lia; apply dt_gets|]. cbv zeta.
    rewrite (land_ones_const a _ 15), in_array_true by (done || by apply Z.mod_pos_bound). apply dt_gets.
  - intros v _. apply dt_ret, in_u_masked.
Qed.

Lemma dt_next_word n : dtriple n (in_u 24) next_word.
Proof.
  unfold next_word. eapply (dt_bind 0 n n); [apply dt_pc| |lia]. intros pc [Hpc _]. apply dt_read_memory. lia.
Qed.

Lemma dt_calc_cc n k : dtriple n (λ s, String.length s <= 2)%nat (dsp_calc_cc k).
Proof.
  unfold dsp_calc_cc. eapply (dt_bind 0 n n (λ s, String.length s <= 2)%nat); [| |lia].
  - apply dt_table; [in_range|]. repeat (constructor; [cbn; lia|]). constructor.
  - intros s Hs. eapply dt_mono; [apply (dt_strcpy n); lia|lia|]. by intros ? ->.
Qed.

Lemma dt_table_eq {A} n (l : list A) i x :
  0 <= i → l !! Z.to_nat i = Some x → dtriple n (λ y, y = x) (d_table l i).
Proof. intros Hi Hx. unfold d_table. rewrite (proj2 (Z.leb_le 0 i)), Hx by lia. by apply dt_ret. Qed.

(** A format taken from [ea_names]. *)
Lemma dt_ea_format n i fmt args ks b :
  0 <= i → ea_names !! Z.to_nat i = Some fmt → Forall2 fits args ks → fmt_bound fmt ks = Some b → (b <= 8)%nat →
  dtriple n (λ s, String.length s <= 8)%nat (fmt ← d_table ea_names i; d_sprintf 16 fmt args).
Proof.
  intros Hi Hf Ha Hb Hs. eapply (dt_bind 0 n n); [by apply (dt_table_eq 0 _ _ fmt)| |lia]. intros ? ->.
  eapply dt_mono; [eapply (dt_sprintf n); [exact Ha|exact Hb|lia]|lia|]. cbv beta. lia.
Qed.

Lemma dt_calc_ea n ea : dtriple n (λ x, String.length x.2 <= 8)%nat (dsp_calc_ea ea).
Proof.
  unfold dsp_calc_ea. assert (in_u 3 ((ea ≫ 3) .& BITMASK 3)) as Hv by bounds.
  revert Hv. generalize ((ea ≫ 3) .& BITMASK 3). intros v [Hv0 Hv1]. change (2 ^ 3) with 8 in Hv1. cbv zeta.
  assert (v = 0 ∨ v = 1 ∨ v = 2 ∨ v = 3 ∨ v = 4 ∨ v = 5 ∨ v = 6 ∨ v = 7) as Hv by lia.
  destruct Hv as [->|[->|[->|[->|[->|[->|[->| ->]]]]]]]; cbn [Z.eqb Pos.eqb orb].
  1-6,8: eapply (dt_bind 0 n n); [eapply dt_ea_format; [done|reflexivity|fit|vm_compute; reflexivity|lia]| |lia]; intros s Hs.
  all: try (apply dt_ret; exact Hs).
  1-5: eapply (dt_bind 0 n n); [apply dt_mark; in_range| |lia]; intros _ _; apply dt_ret; exact Hs.
  eapply (dt_bind 0 n n); [apply dt_next_word| |lia]. intros w Hw. destruct (_ =? 0).
  all: eapply (dt_bind 0 n n); [eapply dt_table_eq; [done|reflexivity]| |lia]; intros ? ->.
  all: eapply (dt_bind 0 n n); [by_format dt_sprintf| |lia]; intros s Hs; apply dt_ret; exact Hs.
Qed.

Lemma dt_space_addr n sp v : in_u 16 v → dtriple n (λ s, String.length s <= 8)%nat (space_addr sp v).
Proof. intros Hv. unfold space_addr. destruct (nz sp); by_format dt_sprintf. Qed.

Lemma dt_space_name n sp s :
  (String.length s <= 8)%nat → dtriple n (λ s, String.length s <= 10)%nat (space_name sp s).
Proof. intros Hs. unfold space_name. destruct (nz sp); by_format dt_sprintf. Qed.

Lemma dt_pp v : in_u 6 v → in_u 16 (v + 0xffc0) ∧ in_u 16 (0xffc0 + v).
Proof. unfold in_u. change (2 ^ 6) with 64. change (2 ^ 16) with 65536. lia. Qed.

(** Register pairs of the tables. *)
Definition reg_pair (x : Z * Z) : Prop := 0 <= x.1 < 64 ∧ 0 <= x.2 < 64.

Ltac table_pairs := repeat (constructor; [cbv [reg_pair fst snd]; lia|]); constructor.

Lemma dt_tcc_table n i : 0 <= i < 16 → dtriple n reg_pair (d_table registers_tcc i).
Proof. intros. apply dt_table; [done|]. table_pairs. Qed.

Lemma dt_lmove_table n i : 0 <= i < 8 → dtriple n reg_pair (d_table disasm_registers_lmove i).
Proof. intros. apply dt_table; [done|]. table_pairs. Qed.

Lemma dt_lmove_name n i : 0 <= i < 8 → dtriple n (λ s, String.length s <= 3)%nat (d_table registers_lmove i).
Proof. intros. apply dt_table; [done|]. repeat (constructor; [cbn; lia|]). constructor. Qed.

(** Strings the parts return. *)
Definition short (s : string) : Prop := (String.length s <= 10)%nat.

Create HintDb disasm.

(** A silent part of a function. *)
Ltac dpart :=
  lazymatch goal with
  | |- dtriple _ _ get_cur_inst => apply dt_inst
  | |- dtriple _ _ get_core_pc => apply dt_pc
  | |- dtriple _ _ next_word => apply dt_next_word
  | |- dtriple _ _ (d_gets parallelmove_name) => apply dt_pmname
  | |- dtriple _ _ (reg_name _) => apply dt_reg_name; in_range
  | |- dtriple _ _ (mark _) => apply dt_mark; in_range
  | |- dtriple _ _ (dsp_calc_ea _) => apply dt_calc_ea
  | |- dtriple _ _ (dsp_calc_cc _) => apply dt_calc_cc
  | |- dtriple _ _ (d_strcpy _ _) => eapply dt_strcpy; repeat case_match; cbn in *; lia
  | |- dtriple _ _ (d_sprintf _ _ _) => by_format dt_sprintf
  | |- dtriple _ _ (space_addr _ _) => apply dt_space_addr; first [bounds | apply dt_pp; bounds]
  | |- dtriple _ _ (space_name _ _) => apply dt_space_name; assumption
  | |- dtriple _ _ (d_table registers_tcc _) => apply dt_tcc_table; in_range
  | |- dtriple _ _ (d_table disasm_registers_lmove _) => apply dt_lmove_table; in_range
  | |- dtriple _ _ (d_table registers_lmove _) => apply dt_lmove_name; in_range
  | |- dtriple _ _ (mret _) => by apply dt_ret
  | |- dtriple _ _ _ => solve [eauto with disasm]
  end.

Ltac dweaken := eapply (dt_mono 0); [dpart|lia|cbv beta; unfold short; (done || lia)].

(** A function, part by part. *)
Ltac dstep :=
  cbv beta zeta;
  lazymatch goal with
  | |- dtriple ?n _ (mbind _ ?m) =>
      lazymatch m with
      | d_fprintf _ _ => eapply (dt_bind n 0 n); [| |lia]
      | d_call _ _ => eapply (dt_bind n 0 n); [| |lia]
      | mret _ => eapply (dt_bind 0 n n (λ _, True)); [by apply dt_ret| |lia]
      | (if _ then _ else _) =>
          lazymatch type of m with
          | D unit => eapply (dt_bind 0 n n (λ _, True)); [| |lia]
          | D string => eapply (dt_bind 0 n n short); [| |lia]
          | D (string * string) => eapply (dt_bind 0 n n (λ x, short x.1 ∧ short x.2)); [| |lia]
          end
      | _ => eapply (dt_bind 0 n n); [dpart| |lia]
      end
  | |- ∀ x, _ → _ =>
      let x := fresh "x" in let H := fresh "H" in intros x H; cbv beta delta [short reg_pair] in H;
      lazymatch type of H with
      | _ = _ ∧ _ => destruct H as [-> H]
      | _ ∧ _ => destruct H
      | _ = _ => subst x
      | _ => idtac
      end
  | |- dtriple _ _ (let '(_, _) := ?x in _) => destruct x; cbn [fst snd] in *
  | |- dtriple _ _ (if ?b then _ else _) => destruct b
  | |- dtriple _ _ (d_fprintf _ _) => by_format dt_fprintf
  | |- dtriple _ _ (pm_sprintf _ _) => by_format dt_pm_sprintf
  | |- dtriple _ _ (mret _) => apply dt_ret; try done
  | |- dtriple _ _ _ => first [dpart | dweaken]
  end.
Ltac dsolve := repeat dstep; unfold short in *; cbn [fst snd] in *; try done; try lia.


Lemma dt_bit_operand n changes : dtriple n short (bit_operand changes).
Proof.
  unfold bit_operand. dstep. dstep. dstep; [dweaken|]. dstep; [dsolve|]. dstep; [dweaken|]. dsolve.
Qed.
#[local] Hint Resolve dt_bit_operand : disasm.

Lemma dt_movep_pp n i : in_u 24 i → dtriple n short (movep_pp i).
Proof. intros. unfold movep_pp. dweaken. Qed.
#[local] Hint Resolve dt_movep_pp : disasm.

(** ** Instructions without parallel moves: one line each *)

Local Notation one_line := (dtriple 1 (λ _ : unit, True)).

Lemma dt_undefined : one_line dsp_undefined.
Proof. unfold dsp_undefined. dsolve. Qed.
Lemma dt_nop : one_line dsp_nop.
Proof. unfold dsp_nop, print_plain. dsolve. Qed.
Lemma dt_rti : one_line dsp_rti.
Proof. unfold dsp_rti, print_plain. dsolve. Qed.
Lemma dt_rts : one_line dsp_rts.
Proof. unfold dsp_rts, print_plain. dsolve. Qed.
Lemma dt_illegal : one_line dsp_illegal.
Proof. unfold dsp_illegal, print_plain. dsolve. Qed.
Lemma dt_swi : one_line dsp_swi.
Proof. unfold dsp_swi, print_plain. dsolve. Qed.
Lemma dt_reset : one_line dsp_reset.
Proof. unfold dsp_reset, print_plain. dsolve. Qed.
Lemma dt_wait : one_line dsp_wait.
Proof. unfold dsp_wait, print_plain. dsolve. Qed.
Lemma dt_stop : one_line dsp_stop.
Proof. unfold dsp_stop, print_plain. dsolve. Qed.
Lemma dt_enddo : one_line dsp_enddo.
Proof. unfold dsp_enddo, print_plain. dsolve. Qed.
Lemma dt_andi : one_line dsp_andi.
Proof. unfold dsp_andi, print_immediate. dsolve. Qed.
Lemma dt_ori : one_line dsp_ori.
Proof. unfold dsp_ori, print_immediate. dsolve. Qed.
Lemma dt_bchg : one_line dsp_bchg.
Proof. unfold dsp_bchg, print_bit. dsolve. Qed.
Lemma dt_bclr : one_line dsp_bclr.
Proof. unfold dsp_bclr, print_bit. dsolve. Qed.
Lemma dt_bset : one_line dsp_bset.
Proof. unfold dsp_bset, print_bit. dsolve. Qed.
Lemma dt_btst : one_line dsp_btst.
Proof. unfold dsp_btst, print_bit. dsolve. Qed.
Lemma dt_jclr : one_line dsp_jclr.
Proof. unfold dsp_jclr, print_jump_bit. dsolve. Qed.
Lemma dt_jset : one_line dsp_jset.
Proof. unfold dsp_jset, print_jump_bit. dsolve. Qed.
Lemma dt_jsclr : one_line dsp_jsclr.
Proof. unfold dsp_jsclr, print_jump_bit. dsolve. Qed.
Lemma dt_jsset : one_line dsp_jsset.
Proof. unfold dsp_jsset, print_jump_bit. dsolve. Qed.
Lemma dt_norm : one_line dsp_norm.
Proof. unfold dsp_norm. dsolve. Qed.
Lemma dt_do_0 : one_line dsp_do_0.
Proof. unfold dsp_do_0. dsolve. Qed.
Lemma dt_do_2 : one_line dsp_do_2.
Proof. unfold dsp_do_2. dsolve. Qed.
Lemma dt_do_4 : one_line dsp_do_4.
Proof. unfold dsp_do_4. dsolve. Qed.
Lemma dt_do_c : one_line dsp_do_c.
Proof. unfold dsp_do_c. dsolve. Qed.
Lemma dt_jsr : one_line dsp_jsr.
Proof. unfold dsp_jsr. dsolve. Qed.
Lemma dt_lua : one_line dsp_lua.
Proof. unfold dsp_lua. dsolve. Qed.
Lemma dt_movec_7 : one_line dsp_movec_7.
Proof. unfold dsp_movec_7. dsolve. Qed.
Lemma dt_movec_9 : one_line dsp_movec_9.
Proof. unfold dsp_movec_9, movec_space. dsolve. Qed.
Lemma dt_movec_b : one_line dsp_movec_b.
Proof. unfold dsp_movec_b. dsolve. Qed.
Lemma dt_movec_d : one_line dsp_movec_d.
Proof. unfold dsp_movec_d, movec_space. dsolve. Qed.
Lemma dt_movem : one_line dsp_movem.
Proof.
  unfold dsp_movem. dstep. dstep.
  eapply (dt_bind 0 1 1 (λ s, String.length s <= 8)%nat); [|dsolve|lia]. dsolve.
Qed.
Lemma dt_movep_0 : one_line dsp_movep_0.
Proof. unfold dsp_movep_0. dsolve. Qed.
Lemma dt_movep_1 : one_line dsp_movep_1.
Proof. unfold dsp_movep_1. dsolve. Qed.
Lemma dt_movep_2 : one_line dsp_movep_2.
Proof. unfold dsp_movep_2. dsolve. Qed.
Lemma dt_rep_1 : one_line dsp_rep_1.
Proof. unfold dsp_rep_1. dsolve. Qed.
Lemma dt_rep_3 : one_line dsp_rep_3.
Proof. unfold dsp_rep_3. dsolve. Qed.
Lemma dt_rep_5 : one_line dsp_rep_5.
Proof. unfold dsp_rep_5. dsolve. Qed.
Lemma dt_rep_d : one_line dsp_rep_d.
Proof. unfold dsp_rep_d. dsolve. Qed.


Lemma dt_div : one_line dsp_div.
Proof. unfold dsp_div. dsolve. Qed.
Lemma dt_tcc : one_line dsp_tcc.
Proof. unfold dsp_tcc. dsolve. Qed.

(** The jumps are printed for the opcode bytes their tables are reached with. *)
Lemma dt_jump_cc ea aa fmt b :
  (inst ≫ 16) .& BITMASK 8 = ea ∨ (inst ≫ 16) .& BITMASK 8 = aa →
  fmt_bound fmt [Bits 16; Str 2; Str 8] = Some b → (b <= 128)%nat → one_line (print_jump_cc ea aa fmt).
Proof.
  intros Hop Hb Hl. unfold print_jump_cc. dstep. dstep.
  eapply (dt_bind 0 1 1 (λ x, ∃ s, x.1 = Some s ∧ String.length s <= 8)%nat); [| |lia].
  - cbv zeta. destruct (Z.eqb_spec ((inst ≫ 16) .& BITMASK 8) ea); [dsolve; eauto|].
    rewrite (proj2 (Z.eqb_eq _ aa)) by naive_solver. dsolve. eexists. split; [done|]. lia.
  - intros [o cc] (s & Ho & Hs). cbn [fst] in Ho. subst o. cbv iota. do 4 dstep.
    eapply (dt_bind 0 1 1 (λ x, x = s)); [by apply dt_ret| |lia]. intros ? ->.
    eapply dt_fprintf; [fit|exact Hb|done|done].
Qed.

Lemma dt_jmp : (inst ≫ 16) .& BITMASK 8 = 0x0a ∨ (inst ≫ 16) .& BITMASK 8 = 0x0c → one_line dsp_jmp.
Proof.
  intros Hop. unfold dsp_jmp. dstep. dstep.
  eapply (dt_bind 0 1 1 (λ x, ∃ s, x = Some s ∧ String.length s <= 8)%nat); [| |lia].
  - cbv zeta. destruct (Z.eqb_spec ((inst ≫ 16) .& BITMASK 8) 0x0a); [dsolve; eauto|].
    rewrite (proj2 (Z.eqb_eq _ 0x0c)) by naive_solver. dsolve. eexists. split; [done|]. lia.
  - intros o (s & -> & Hs). do 2 dstep.
    eapply (dt_bind 0 1 1 (λ x, x = s)); [by apply dt_ret| |lia]. intros ? ->. dsolve.
Qed.

Lemma dt_jcc : (inst ≫ 16) .& BITMASK 8 = 0x0a ∨ (inst ≫ 16) .& BITMASK 8 = 0x0e → one_line dsp_jcc.
Proof. intros. by eapply dt_jump_cc; [|vm_compute; reflexivity|lia]. Qed.
Lemma dt_jscc : (inst ≫ 16) .& BITMASK 8 = 0x0b ∨ (inst ≫ 16) .& BITMASK 8 = 0x0f → one_line dsp_jscc.
Proof. intros. by eapply dt_jump_cc; [|vm_compute; reflexivity|lia]. Qed.

#[local] Hint Resolve dt_undefined dt_do_0 dt_do_2 dt_do_4 dt_do_c dt_movec_7 dt_movec_9 dt_movec_b dt_movec_d
  dt_movep_0 dt_movep_1 dt_movep_2 dt_rep_1 dt_rep_3 dt_rep_5 dt_rep_d dt_bchg dt_bclr dt_bset dt_btst
  dt_jclr dt_jset dt_jsclr dt_jsset dt_jsr : disasm.

(** A table of functions that print one line. *)
Ltac lines := repeat (constructor; [solve [eauto with disasm]|]); constructor.
Ltac called tbl := eapply (dt_bind 1 0 1 (λ _, True)); [apply dt_call; [in_range|unfold tbl; lines]| |lia]; intros ? _; dsolve.

Lemma dt_do : one_line dsp_do.
Proof. unfold dsp_do. dstep. dstep. called opcodes_do. Qed.
Lemma dt_movec : one_line dsp_movec.
Proof. unfold dsp_movec. dstep. dstep. called opcodes_movec. Qed.
Lemma dt_movep : one_line dsp_movep.
Proof. unfold dsp_movep. dstep. dstep. called opcodes_movep. Qed.
Lemma dt_rep : one_line dsp_rep.
Proof. unfold dsp_rep. dstep. dstep. called opcodes_rep. Qed.

(** ** Parallel moves: nothing is printed, the name is stored *)

Local Notation no_line := (dtriple 0 (λ _ : unit, True)).

Lemma dt_pm_0 : no_line dsp_pm_0.
Proof. unfold dsp_pm_0. dsolve. Qed.
Lemma dt_pm_1 : no_line dsp_pm_1.
Proof. unfold dsp_pm_1. dsolve. Qed.
Lemma dt_pm_2 : no_line dsp_pm_2.
Proof. unfold dsp_pm_2. dsolve. Qed.
Lemma dt_pm_4_addr n : in_u 24 inst → dtriple n (λ x, String.length x.2 <= 8)%nat (pm_4_addr inst).
Proof. intros. unfold pm_4_addr. dsolve. Qed.
#[local] Hint Resolve dt_pm_4_addr : disasm.
Lemma dt_pm_4 : no_line dsp_pm_4.
Proof. unfold dsp_pm_4. dsolve. Qed.
Lemma dt_pm_8 : no_line dsp_pm_8.
Proof. unfold dsp_pm_8. dsolve. Qed.
#[local] Hint Resolve dt_pm_0 dt_pm_1 dt_pm_2 dt_pm_4 dt_pm_8 : disasm.

Lemma dt_pm : no_line dsp_pm.
Proof. unfold dsp_pm. dstep. dstep. apply dt_call; [in_range|]. unfold opcodes_parmove. lines. Qed.

(** ** Instructions with parallel moves *)

(** The source operands. *)
Ltac source f := intros; unfold f; cbv zeta; repeat case_match; (dpart || (apply dt_ret; repeat case_match; cbn; lia)).
Lemma dt_carry_source n i : in_u 24 i → dtriple n (λ s, String.length s <= 3)%nat (carry_source i).
Proof. source carry_source. Qed.
Lemma dt_d_add_source n i : in_u 24 i → dtriple n (λ s, String.length s <= 3)%nat (d_add_source i).
Proof. source d_add_source. Qed.
Lemma dt_other_accu n i : in_u 24 i → dtriple n (λ s, String.length s <= 3)%nat (other_accu i).
Proof. source other_accu. Qed.
Lemma dt_d_logic_source n i : in_u 24 i → dtriple n (λ s, String.length s <= 3)%nat (d_logic_source i).
Proof. source d_logic_source. Qed.
Lemma dt_d_cmp_source n i : in_u 24 i → dtriple n (λ s, String.length s <= 3)%nat (d_cmp_source i).
Proof. source d_cmp_source. Qed.
Lemma dt_d_tfr_source n i : in_u 24 i → dtriple n (λ s, String.length s <= 3)%nat (d_tfr_source i).
Proof. source d_tfr_source. Qed.
#[local] Hint Resolve dt_carry_source dt_d_add_source dt_other_accu dt_d_logic_source dt_d_cmp_source dt_d_tfr_source : disasm.

Lemma dt_abs : one_line dsp_abs.
Proof. unfold dsp_abs, print_alu1. dsolve. Qed.
Lemma dt_asl : one_line dsp_asl.
Proof. unfold dsp_asl, print_alu1. dsolve. Qed.
Lemma dt_asr : one_line dsp_asr.
Proof. unfold dsp_asr, print_alu1. dsolve. Qed.
Lemma dt_clr : one_line dsp_clr.
Proof. unfold dsp_clr, print_alu1. dsolve. Qed.
Lemma dt_lsl : one_line dsp_lsl.
Proof. unfold dsp_lsl, print_alu1. dsolve. Qed.
Lemma dt_lsr : one_line dsp_lsr.
Proof. unfold dsp_lsr, print_alu1. dsolve. Qed.
Lemma dt_neg : one_line dsp_neg.
Proof. unfold dsp_neg, print_alu1. dsolve. Qed.
Lemma dt_not : one_line dsp_not.
Proof. unfold dsp_not, print_alu1. dsolve. Qed.
Lemma dt_rnd : one_line dsp_rnd.
Proof. unfold dsp_rnd, print_alu1. dsolve. Qed.
Lemma dt_rol : one_line dsp_rol.
Proof. unfold dsp_rol, print_alu1. dsolve. Qed.
Lemma dt_ror : one_line dsp_ror.
Proof. unfold dsp_ror, print_alu1. dsolve. Qed.
Lemma dt_adc : one_line dsp_adc.
Proof. unfold dsp_adc, print_alu2. dsolve. Qed.
Lemma dt_sbc : one_line dsp_sbc.
Proof. unfold dsp_sbc, print_alu2. dsolve. Qed.
Lemma dt_add : one_line dsp_add.
Proof. unfold dsp_add, print_alu2. dsolve. Qed.
Lemma dt_sub : one_line dsp_sub.
Proof. unfold dsp_sub, print_alu2. dsolve. Qed.
Lemma dt_addl : one_line dsp_addl.
Proof. unfold dsp_addl, print_alu2. dsolve. Qed.
Lemma dt_addr : one_line dsp_addr.
Proof. unfold dsp_addr, print_alu2. dsolve. Qed.
Lemma dt_subl : one_line dsp_subl.
Proof. unfold dsp_subl, print_alu2. dsolve. Qed.
Lemma dt_subr : one_line dsp_subr.
Proof. unfold dsp_subr, print_alu2. dsolve. Qed.
Lemma dt_and : one_line dsp_and.
Proof. unfold dsp_and, print_alu2. dsolve. Qed.
Lemma dt_eor : one_line dsp_eor.
Proof. unfold dsp_eor, print_alu2. dsolve. Qed.
Lemma dt_or : one_line dsp_or.
Proof. unfold dsp_or, print_alu2. dsolve. Qed.
Lemma dt_cmp : one_line dsp_cmp.
Proof. unfold dsp_cmp, print_alu2. dsolve. Qed.
Lemma dt_cmpm : one_line dsp_cmpm.
Proof. unfold dsp_cmpm, print_alu2. dsolve. Qed.
Lemma dt_tfr : one_line dsp_tfr.
Proof. unfold dsp_tfr, print_alu2. dsolve. Qed.
Lemma dt_tst : one_line dsp_tst.
Proof. unfold dsp_tst. dsolve. Qed.
Lemma factors_range k : reg_pair (d_factors k).
Proof. unfold d_factors, reg_pair. repeat case_match; cbn; lia. Qed.
Ltac by_factors m := unfold m, print_mul; dstep; dstep; cbv zeta;
  match goal with |- context [d_factors ?k] => destruct (factors_range k), (d_factors k) as [r1 r2] end; cbn [fst snd] in *; dsolve.
Lemma dt_mac : one_line dsp_mac.
Proof. by_factors dsp_mac. Qed.
Lemma dt_macr : one_line dsp_macr.
Proof. by_factors dsp_macr. Qed.
Lemma dt_mpy : one_line dsp_mpy.
Proof. by_factors dsp_mpy. Qed.
Lemma dt_mpyr : one_line dsp_mpyr.
Proof. by_factors dsp_mpyr. Qed.
Lemma dt_move : one_line dsp_move.
Proof. unfold dsp_move. dsolve. Qed.
#[local] Hint Resolve dt_abs dt_asl dt_asr dt_clr dt_lsl dt_lsr dt_neg dt_not dt_rnd dt_rol dt_ror dt_adc dt_sbc dt_add dt_sub dt_addl dt_addr dt_subl dt_subr dt_and dt_eor dt_or dt_cmp dt_cmpm dt_tfr dt_tst dt_mac dt_macr dt_mpy dt_mpyr dt_move : disasm.

(** ** Dispatch *)

Lemma dt_move_nopm : one_line dsp_move_nopm.
Proof. unfold dsp_move_nopm. eapply (dt_bind 0 1 1); [apply dt_pm| |lia]. dsolve. Qed.

#[local] Hint Resolve dt_move_nopm dt_movep dt_nop dt_rti dt_illegal dt_swi dt_rts dt_reset dt_wait dt_stop dt_enddo
  dt_andi dt_ori dt_div dt_norm dt_lua dt_movec dt_rep dt_do dt_tcc dt_movem dt_jmp dt_jcc dt_jscc : disasm.

Ltac branches := repeat case_match; (eauto with disasm || by apply dt_ret).

Lemma dt_opcode8h_0 : one_line opcode8h_0.
Proof. unfold opcode8h_0. dstep. dstep. branches. Qed.
Lemma dt_opcode8h_1 : one_line opcode8h_1.
Proof. unfold opcode8h_1. dstep. dstep. branches. Qed.
Lemma dt_opcode8h_4 : one_line opcode8h_4.
Proof. unfold opcode8h_4. dstep. dstep. cbv zeta. branches. Qed.
Lemma dt_opcode8h_6 : one_line opcode8h_6.
Proof. unfold opcode8h_6. dstep. dstep. branches. Qed.
Lemma dt_opcode8h_8 : one_line opcode8h_8.
Proof. unfold opcode8h_8. dstep. dstep. apply dt_call; [in_range|]. unfold opcodes_0809. lines. Qed.
Lemma dt_opcode8h_a : (inst ≫ 16) .& BITMASK 8 = 0x0a → one_line opcode8h_a.
Proof. intros. unfold opcode8h_a. dstep. dstep. apply dt_call; [in_range|]. unfold opcodes_0a. lines. Qed.
Lemma dt_opcode8h_b : (inst ≫ 16) .& BITMASK 8 = 0x0b → one_line opcode8h_b.
Proof. intros. unfold opcode8h_b. dstep. dstep. apply dt_call; [in_range|]. unfold opcodes_0b. lines. Qed.
#[local] Hint Resolve dt_opcode8h_0 dt_opcode8h_1 dt_opcode8h_4 dt_opcode8h_6 dt_opcode8h_8 dt_opcode8h_a
  dt_opcode8h_b : disasm.

Lemma dt_call_eq n l i m : 0 <= i → l !! Z.to_nat i = Some m → dtriple n (λ _, True) m → dtriple n (λ _, True) (d_call l i).
Proof.
  intros Hi Hm HT. unfold d_call. eapply (dt_bind 0 n n); [by apply (dt_table_eq 0 _ _ m)| |lia]. by intros ? ->.
Qed.

Lemma dt_opcodes8h : (inst ≫ 16) .& BITMASK 8 < 16 → one_line (d_call opcodes8h ((inst ≫ 16) .& BITMASK 8)).
Proof.
  intros Hlt. assert (0 <= (inst ≫ 16) .& BITMASK 8) as H0 by (apply (in_u_land_mask 8); lia).
  destruct (lookup_lt_is_Some_2 opcodes8h (Z.to_nat ((inst ≫ 16) .& BITMASK 8))) as [m Hm]; [cbn; lia|].
  apply (dt_call_eq _ _ _ m H0 Hm).
  assert (∃ k, (k < 16)%nat ∧ (inst ≫ 16) .& BITMASK 8 = Z.of_nat k) as (k & Hk & E)
    by (exists (Z.to_nat ((inst ≫ 16) .& BITMASK 8)); lia).
  rewrite E, Nat2Z.id in Hm. unfold opcodes8h in Hm.
  do 16 (destruct k as [|k]; [injection Hm as <-; eauto with disasm|]). lia.
Qed.

Lemma dt_decoded : one_line disasm_decoded.
Proof.
  unfold disasm_decoded. dstep. dstep. cbv zeta. destruct (Z.ltb_spec ((inst ≫ 16) .& BITMASK 8) 0x10); cbn [andb].
  1: destruct (negb _); [by apply dt_opcodes8h|].
  all: eapply (dt_bind 0 1 1); [apply dt_pm| |lia]; intros ? _.
  all: destruct (Z.ltb_spec (inst .& BITMASK 8) 0x40); [|destruct (Z.ltb_spec (inst .& BITMASK 8) 0x80)].
  all: apply dt_call; [|unfold opcodes_alu003f, opcodes_alu407f, opcodes_alu80ff; lines].
  all: first [in_range | split; [apply (in_u_land_mask 8); lia|cbn; lia]].
Qed.
End safe.

(** ** The entry points *)

Lemma read_memory_run a d : 0 <= a → ∃ v, read_memory a d = DOk v d ∧ in_u 24 v.
Proof.
  intros Ha. unfold read_memory. destruct (Z.ltb_spec a 0x200).
  - rewrite in_array_true by lia. eexists. split; [reflexivity|apply in_u_masked].
  - cbv zeta. rewrite (land_ones_const a _ 15), in_array_true by (done || by apply Z.mod_pos_bound).
    eexists. split; [reflexivity|apply in_u_masked].
Qed.

(** The state in which the instruction is printed. *)
Definition disasm_fetched (d : disasm) (inst : Z) : disasm := d_pmname "" (d_inst inst (d_prev d.(dsp_core).(pc) d)).

Lemma disasm_fetch d inst :
  d.(prev_inst_pc) ≠ d.(dsp_core).(pc) →
  read_memory d.(dsp_core).(pc) (d_prev d.(dsp_core).(pc) d) = DOk inst (d_prev d.(dsp_core).(pc) d) →
  dsp56k_disasm d = disasm_decoded (disasm_fetched d inst).
Proof.
  intros Hne E. unfold dsp56k_disasm, get_core_pc, mbind, D_bind, d_gets, d_modify. cbv beta iota.
  rewrite (proj2 (Z.eqb_neq _ _) Hne). cbv beta iota. by rewrite E.
Qed.

Lemma decoded_safe d inst : in_u 16 d.(dsp_core).(pc) → in_u 24 inst →
  ∃ d', disasm_decoded (disasm_fetched d inst) = DOk tt d' ∧ disasm_wf d' ∧ disasm_keeps 1 (disasm_fetched d inst) d'.
Proof.
  intros Hpc Hi. pose proof (dt_decoded inst (disasm_fetched d inst)) as H. unfold dwp in H.
  destruct (disasm_decoded _) as [[] d'|]; [exists d'|].
  - split; [done|]. apply H; [|done]. split; [done|]. split; [done|cbn; lia].
  - destruct H; [|done]. split; [done|]. split; [done|cbn; lia].
Qed.

(** C19: the disassembler is safe for every instruction word, every program memory and every
    state of its own: it returns without overrunning one of its buffers or arrays, without a
    format that does not fit its arguments and without printing a buffer it has not written;
    it prints at most one line, only adds marks to [registers_changed], leaves the emulated
    machine and the saved registers alone, and leaves a state from which it is safe again. *)
Theorem disasm_safe (d : disasm) (Hpc : in_u 16 d.(dsp_core).(pc)) (Hpm : (String.length d.(parallelmove_name) <= 63)%nat) :
  ∃ d', dsp56k_disasm d = DOk tt d'
    ∧ d'.(dsp_core) = d.(dsp_core) ∧ d'.(registers_save) = d.(registers_save)
    ∧ d'.(prev_inst_pc) = d.(dsp_core).(pc) ∧ (String.length d'.(parallelmove_name) <= 63)%nat
    ∧ (∀ r, aget d'.(registers_changed) r = aget d.(registers_changed) r ∨ aget d'.(registers_changed) r = 1)
    ∧ (d'.(stderr) = d.(stderr) ∨ ∃ line, d'.(stderr) = line :: d.(stderr) ∧ (String.length line <= 128)%nat).
Proof.
  destruct (decide (d.(prev_inst_pc) = d.(dsp_core).(pc))) as [E|E].
  { exists d. split; [|auto 10]. unfold dsp56k_disasm, get_core_pc, mbind, D_bind, d_gets. cbv beta iota.
    by rewrite E, Z.eqb_refl. }
  destruct (read_memory_run (pc (dsp_core d)) (d_prev (pc (dsp_core d)) d) (proj1 Hpc)) as (inst & Em & Hi).
  rewrite (disasm_fetch d inst E Em). destruct (decoded_safe d inst Hpc Hi) as (d' & -> & (_ & _ & Hl) & Hk).
  destruct Hk as (E1 & _ & E3 & E4 & Hm & lines & El & Hn & Hf).
  exists d'. split; [done|]. split; [done|]. split; [done|]. split; [done|]. split; [done|]. split; [done|].
  destruct lines as [|line [|]]; [by left|right|cbn in Hn; lia]. exists line. split; [done|]. by inversion Hf.
Qed.

Lemma disasm_safe_witness :
  ∃ d', dsp56k_disasm (disasm_demo 0x44f400 0xabcdef) = DOk tt d' ∧ (String.length d'.(parallelmove_name) <= 63)%nat.
Proof.
  destruct (disasm_safe (disasm_demo 0x44f400 0xabcdef)) as (d' & E & _ & _ & _ & Hl & _).
  - apply in_ub_spec. reflexivity.
  - cbn. lia.
  - exists d'. split; [exact E|exact Hl].
Defined.

(** Printing the registers that changed. *)
Lemma saved_run i bits d : 0 <= i < 64 → saved i bits d = DOk (aget d.(registers_save) i .& BITMASK bits) d.
Proof. intros. unfold saved. by rewrite in_array_true. Qed.
Lemma current_run i bits d : 0 <= i < 64 → current i bits d = DOk (aget d.(dsp_core).(registers) i .& BITMASK bits) d.
Proof. intros. unfold current. by rewrite in_array_true. Qed.
