(* ===== verification/TraceSpec.v ===== *)
(** * The register trace misses no change

    Before an instruction with parallel moves is executed the disassembler marks a set of
    registers.  [effects inst] is that set as a function of the instruction word: the
    address registers its effective addresses step, the destinations of its moves and of
    its arithmetic.  The disassembler marks exactly these registers, and the interpreter
    changes no other one, SR apart; so the registers printed after the instruction are all
    that changed. *)

From S2P Require Import Printf Disasm DisasmSpec Prelude DspState HostPort Memory Arith56 Ccr Alu Agu ParMove Control Exec Wp MemSpec ExecSpec RepSpec FirSpec.

(** ** The registers of an instruction with parallel moves *)

(** The address register an effective address updates. *)
Definition ea_effects (ea : Z) : list Z :=
  let value := (ea ≫ 3) .& BITMASK 3 in
  if (value =? 4) || (value =? 5) || (value =? 6) then [] else [DSP_REG_R0 + ea .& BITMASK 3].

Definition pm_0_effects (inst : Z) : list Z :=
  ea_effects ((inst ≫ 8) .& BITMASK 6) ++ [DSP_REG_A + (inst ≫ 16) .& 1].

Definition pm_1_effects (inst : Z) : list Z :=
  ea_effects ((inst ≫ 8) .& BITMASK 6)
  ++ (if Z.testbit inst 14
      then (DSP_REG_X0 + (inst ≫ 18) .& 1) :: if Z.testbit inst 15 then [sel_y ((inst ≫ 16) .& BITMASK 2)] else []
      else (DSP_REG_Y0 + (inst ≫ 16) .& 1) :: if Z.testbit inst 15 then [sel_x ((inst ≫ 18) .& BITMASK 2)] else []).

Definition pm_2_effects (inst : Z) : list Z :=
  if (inst ≫ 8) .& 0xffff =? 0x2000 then []
  else if (inst ≫ 8) .& 0xffe0 =? 0x2040 then
    ea_effects ((inst ≫ 8) .& BITMASK 5) ++ [DSP_REG_R0 + (inst ≫ 8) .& BITMASK 3]
  else if (inst ≫ 8) .& 0xfc00 =? 0x2000 then [(inst ≫ 8) .& BITMASK 5]
  else [(inst ≫ 16) .& BITMASK 5].

(** The register number of an X: or Y: move; below 4 it is an L: move. *)
Definition pm_4_value (inst : Z) : Z := ((inst ≫ 16) .& BITMASK 3) .| ((inst ≫ 17) .& (BITMASK 2 ≪ 3)).

Definition pm_4_effects (inst : Z) : list Z :=
  (if Z.testbit inst 14 then ea_effects ((inst ≫ 8) .& BITMASK 6) else [])
  ++ if Z.testbit inst 15 then
       if pm_4_value inst ≫ 2 =? 0 then
         let '(r1, r2) := default (0, 0) (registers_lmove !! Z.to_nat (((inst ≫ 16) .& BITMASK 2) .| ((inst ≫ 17) .& (1 ≪ 2)))) in
         [r1; r2]
       else [pm_4_value inst]
     else [].

Definition pm_8_effects (inst : Z) : list Z :=
  ea_effects (pm_8_ea inst).1 ++ ea_effects (pm_8_ea inst).2
  ++ (if Z.testbit inst 15 then [sel_x ((inst ≫ 18) .& BITMASK 2)] else [])
  ++ (if Z.testbit inst 22 then [sel_y ((inst ≫ 16) .& BITMASK 2)] else []).

Definition pm_effects (inst : Z) : list Z :=
  let k := (inst ≫ 20) .& BITMASK 4 in
  if k =? 0 then pm_0_effects inst else if k =? 1 then pm_1_effects inst
  else if k <? 4 then pm_2_effects inst else if k <? 8 then pm_4_effects inst else pm_8_effects inst.

(** Arithmetic: most instructions write an accumulator and SR, comparisons SR alone, MOVE
    and the undefined codes nothing. *)
Inductive alu_kind := Writes | Compares | Nothing.

Definition alu_kinds_003f : list alu_kind :=
  [ Nothing; Writes; Writes; Compares; Nothing; Compares; Writes; Compares;
    Nothing; Writes; Writes; Compares; Nothing; Compares; Writes; Compares;
    Writes; Writes; Writes; Writes; Writes; Nothing; Writes; Writes;
    Writes; Writes; Writes; Writes; Writes; Nothing; Writes; Writes ]
  ++ replicate 32 Writes.
Definition alu_kinds_407f : list alu_kind :=
  [Writes; Writes; Writes; Writes; Writes; Compares; Writes; Compares;
   Writes; Writes; Writes; Writes; Writes; Compares; Writes; Compares].

Definition kind_effects (k : alu_kind) (inst : Z) : list Z :=
  match k with
  | Writes => [DSP_REG_A + dest_bit inst; DSP_REG_SR]
  | Compares => [DSP_REG_SR]
  | Nothing => []
  end.

Definition alu_effects (inst : Z) : list Z :=
  let op := inst .& BITMASK 8 in
  kind_effects
    (if op <? 0x40 then default Nothing (alu_kinds_003f !! Z.to_nat op)
     else if op <? 0x80 then default Nothing (alu_kinds_407f !! Z.to_nat (op .& BITMASK 4))
     else Writes) inst.

Definition effects (inst : Z) : list Z := pm_effects inst ++ alu_effects inst.

(** An accumulator stands for its three words. *)
Definition words (r : Z) : list Z :=
  if is_accu r then [DSP_REG_A2 + r .& 1; DSP_REG_A1 + r .& 1; DSP_REG_A0 + r .& 1] else [r].

(** The instructions with parallel moves. *)
Definition is_parallel (inst : Z) : bool :=
  negb (((inst ≫ 16) .& BITMASK 8 <? 0x10) && negb (inst .& 0xfe4000 =? 0x080000)).

(** The marks of the registers in a list. *)
Definition set_marks (l : list Z) (m : gmap Z Z) : gmap Z Z := foldl (λ m r, aset m r 1) m l.

(** Register [r] is printed after the instruction: it is marked, or the accumulator it is a
    part of. *)
Definition traced (d : disasm) (r : Z) : Prop :=
  ∃ x, aget d.(registers_changed) x = 1 ∧ r ∈ words x.

(** ** Marks *)

Lemma set_marks_app l1 l2 m : set_marks (l1 ++ l2) m = set_marks l2 (set_marks l1 m).
Proof. apply foldl_app. Qed.

Lemma set_marks_elem l r : ∀ m, aget (set_marks l m) r = if decide (r ∈ l) then 1 else aget m r.
Proof.
  induction l as [|x l IH]; intros m; cbn; [done|]. fold (set_marks l (aset m x 1)). rewrite IH, aget_aset.
  repeat case_decide; try done; set_solver.
Qed.

(** ** What the disassembler marks *)

Section marks.
Context (inst : Z).

Definition dmarks {A} (l : list Z) (m : D A) : Prop :=
  ∀ d, d.(d_cur_inst) = inst →
    match m d with
    | DOk _ d' => d'.(d_cur_inst) = inst ∧ d'.(registers_changed) = set_marks l d.(registers_changed)
    | DUB _ => True
    end.

Lemma dm_seq {A B} l1 l2 (m : D A) (f : A → D B) :
  dmarks l1 m → (∀ a, dmarks l2 (f a)) → dmarks (l1 ++ l2) (m ≫= f).
Proof.
  intros Hm Hf d Hd. specialize (Hm d Hd). unfold mbind, D_bind. destruct (m d) as [a d1|]; [|done].
  destruct Hm as [Hd1 E1]. specialize (Hf a d1 Hd1). destruct (f a d1) as [b d2|]; [|done].
  destruct Hf as [Hd2 E2]. split; [done|]. by rewrite E2, E1, set_marks_app.
Qed.

Lemma dm_silent {A B} l (m : D A) (f : A → D B) : dmarks [] m → (∀ a, dmarks l (f a)) → dmarks l (m ≫= f).
Proof. apply (dm_seq [] l). Qed.

Lemma dm_inst {B} l (f : Z → D B) : dmarks l (f inst) → dmarks l (get_cur_inst ≫= f).
Proof. intros Hf d Hd. specialize (Hf d Hd). unfold mbind, D_bind, get_cur_inst, d_gets. by rewrite Hd. Qed.

Lemma dm_ret {A} (a : A) : dmarks [] (mret a).
Proof. done. Qed.
Lemma dm_fail {A} l e : dmarks l (d_fail (A:=A) e).
Proof. done. Qed.
Lemma dm_gets {A} (f : disasm → A) : dmarks [] (d_gets f).
Proof. done. Qed.
Lemma dm_modify f : (∀ d, (f d).(d_cur_inst) = d.(d_cur_inst) ∧ (f d).(registers_changed) = d.(registers_changed)) → dmarks [] (d_modify f).
Proof. intros Hf d Hd. destruct (Hf d) as [E1 E2]. split; [by rewrite E1|exact E2]. Qed.

Lemma dm_mark i : dmarks [i] (mark i).
Proof. intros d Hd. unfold mark. by destruct (in_array i 64). Qed.

Lemma dm_table {A} (l : list A) i : dmarks [] (d_table l i).
Proof. unfold d_table. destruct (if 0 <=? i then _ else _); [apply dm_ret|apply dm_fail]. Qed.
Lemma dm_strcpy n s : dmarks [] (d_strcpy n s).
Proof. unfold d_strcpy. destruct (_ <? _)%nat; [apply dm_ret|apply dm_fail]. Qed.
Lemma dm_format fmt args : dmarks [] (d_format fmt args).
Proof. unfold d_format. destruct (sprintf _ _); [apply dm_ret|apply dm_fail]. Qed.
Lemma dm_sprintf n fmt args : dmarks [] (d_sprintf n fmt args).
Proof. unfold d_sprintf. apply dm_silent; [apply dm_format|]. intros. apply dm_strcpy. Qed.
Lemma dm_fprintf fmt args : dmarks [] (d_fprintf fmt args).
Proof. unfold d_fprintf. apply dm_silent; [apply dm_format|]. intros. by apply dm_modify. Qed.
Lemma dm_pm_sprintf fmt args : dmarks [] (pm_sprintf fmt args).
Proof. unfold pm_sprintf. apply dm_silent; [apply dm_sprintf|]. intros. by apply dm_modify. Qed.
Lemma dm_next_word : dmarks [] next_word.
Proof.
  unfold next_word, Disasm.read_memory. apply dm_silent; [apply dm_gets|]. intros pc. cbv zeta. apply dm_silent.
  - repeat case_match; apply dm_gets || apply dm_fail.
  - intros. apply dm_ret.
Qed.
#[local] Hint Resolve dm_ret dm_fail dm_gets dm_mark dm_table dm_strcpy dm_sprintf dm_fprintf dm_pm_sprintf dm_next_word : marks.

(** A function, mark by mark. *)
Ltac mark_step :=
  cbv beta zeta; cbn [app];
  lazymatch goal with
  | |- dmarks _ (mbind _ get_cur_inst) => apply dm_inst
  | |- dmarks (?i :: ?l) (mbind _ (mark ?i)) => apply (dm_seq [i] l); [apply dm_mark|intros _]
  | |- dmarks _ (mbind _ get_core_pc) => apply dm_silent; [apply dm_gets|intros ?]
  | |- dmarks _ (mbind _ (reg_name _)) => apply dm_silent; [apply dm_table|intros ?]
  | |- dmarks (?l ++ _) (mbind _ _) => apply (dm_seq l); [solve [eauto with marks]|intros ?]
  | |- dmarks _ (mbind _ _) => apply dm_silent; [solve [eauto with marks]|intros ?]
  | |- dmarks _ (let '(_, _) := ?x in _) => destruct x
  | |- dmarks _ (if ?b then _ else _) => destruct b
  | |- dmarks _ _ => solve [eauto with marks]
  end.
Ltac marks := repeat mark_step.

Lemma dm_calc_ea ea : dmarks (ea_effects ea) (Disasm.dsp_calc_ea ea).
Proof.
  unfold Disasm.dsp_calc_ea, ea_effects. assert (in_u 3 ((ea ≫ 3) .& BITMASK 3)) as Hv by bounds.
  revert Hv. generalize ((ea ≫ 3) .& BITMASK 3). intros v [Hv0 Hv1]. change (2 ^ 3) with 8 in Hv1. cbv zeta.
  assert (v = 0 ∨ v = 1 ∨ v = 2 ∨ v = 3 ∨ v = 4 ∨ v = 5 ∨ v = 6 ∨ v = 7) as Hv by lia.
  destruct Hv as [->|[->|[->|[->|[->|[->|[->| ->]]]]]]]; cbn [Z.eqb Pos.eqb orb].
  all: try (apply dm_silent; [apply dm_silent; [apply dm_table|intros ?; apply dm_sprintf]|intros ?]).
  all: marks.
Qed.
#[local] Hint Resolve dm_calc_ea : marks.

Lemma dm_pm_0 : dmarks (pm_0_effects inst) Disasm.dsp_pm_0.
Proof. unfold Disasm.dsp_pm_0, pm_0_effects. marks. Qed.

(** A bit tested in the three ways of the source. *)
Lemma nz_bit x k : 0 <= k → nz ((x ≫ k) .& 1) = Z.testbit x k.
Proof. intros. rewrite bit_b2z by done. by destruct (Z.testbit x k). Qed.
Lemma bit_eqb x k : 0 <= k → ((x ≫ k) .& 1 =? 1) = Z.testbit x k.
Proof. intros. rewrite bit_b2z by done. by destruct (Z.testbit x k). Qed.

Lemma dm_pm_1 : dmarks (pm_1_effects inst) Disasm.dsp_pm_1.
Proof.
  unfold Disasm.dsp_pm_1, pm_1_effects. mark_step. cbv zeta. rewrite bit_eqb, nz_bit by lia.
  change d_sel_x with sel_x. change d_sel_y with sel_y. marks.
Qed.

Lemma dm_pm_2 : dmarks (pm_2_effects inst) Disasm.dsp_pm_2.
Proof. unfold Disasm.dsp_pm_2, pm_2_effects. marks. Qed.

Lemma dm_pm_4_addr : dmarks (if Z.testbit inst 14 then ea_effects ((inst ≫ 8) .& BITMASK 6) else []) (pm_4_addr inst).
Proof. unfold pm_4_addr. rewrite nz_land_bit by lia. marks. Qed.
#[local] Hint Resolve dm_pm_4_addr : marks.

Lemma dm_lmove {B} i l (f : Z * Z → D B) :
  0 <= i < 8 → dmarks l (f (default (0, 0) (registers_lmove !! Z.to_nat i))) →
  dmarks l (d_table disasm_registers_lmove i ≫= f).
Proof.
  intros Hi Hf. destruct (lookup_lt_is_Some_2 ParMove.registers_lmove (Z.to_nat i)) as [x Hx]; [cbn; lia|].
  rewrite Hx in Hf. unfold d_table. change disasm_registers_lmove with ParMove.registers_lmove.
  by rewrite (proj2 (Z.leb_le 0 i)), Hx by lia.
Qed.

Lemma dm_pm_4 : dmarks (pm_4_effects inst) Disasm.dsp_pm_4.
Proof.
  unfold Disasm.dsp_pm_4, pm_4_effects. mark_step. cbv zeta. fold (pm_4_value inst). rewrite !(nz_land_bit _ 15) by lia.
  destruct (pm_4_value inst ≫ 2 =? 0).
  - mark_step. destruct a as [retour name]. destruct (Z.testbit inst 15); [|marks].
    apply dm_lmove; [in_range|]. destruct (default _ _). marks.
  - marks.
Qed.

(** Both programs compute the same two effective addresses. *)
Lemma pm_8_ea_same i : d_pm_8_ea i = pm_8_ea i.
Proof.
  unfold d_pm_8_ea, pm_8_ea. assert (((i ≫ 20) .& BITMASK 2) ≪ 3 = (i ≫ 17) .& (BITMASK 2 ≪ 3)) as ->; [|done].
  apply Z.bits_inj'. intros k Hk. rewrite Z.land_spec, !Z.shiftl_spec, Z.shiftr_spec by lia.
  destruct (Z.ltb_spec k 3); [by rewrite !(Z.testbit_neg_r _ (k - 3)), andb_false_r by lia|].
  rewrite Z.land_spec, Z.shiftr_spec by lia. f_equal. f_equal. lia.
Qed.

Lemma dm_pm_8 : dmarks (pm_8_effects inst) Disasm.dsp_pm_8.
Proof.
  unfold Disasm.dsp_pm_8, pm_8_effects. mark_step. cbv zeta. rewrite !nz_land_bit, pm_8_ea_same by lia.
  change d_sel_x with sel_x. change d_sel_y with sel_y. destruct (pm_8_ea inst) as [ea1 ea2]. cbn [fst snd].
  do 4 mark_step. destruct (Z.testbit inst 15), (Z.testbit inst 22); marks.
Qed.

Lemma dm_call l fs i m : 0 <= i → fs !! Z.to_nat i = Some m → dmarks l m → dmarks l (d_call fs i).
Proof. intros Hi Hm HD. unfold d_call, d_table. by rewrite (proj2 (Z.leb_le 0 i)), Hm by lia. Qed.

(** A field of the instruction below 16. *)
Lemma field_cases x k : 0 <= k → ∃ n, (n < Z.to_nat (2 ^ k))%nat ∧ x .& BITMASK k = Z.of_nat n.
Proof.
  intros Hk. destruct (in_u_land_mask k x Hk) as [H0 H1]. exists (Z.to_nat (x .& BITMASK k)). lia.
Qed.

Lemma dm_pm : dmarks (pm_effects inst) dsp_pm.
Proof.
  unfold dsp_pm, pm_effects. mark_step. destruct (field_cases (inst ≫ 20) 4) as (k & Hk & ->); [lia|].
  change (Z.to_nat (2 ^ 4)) with 16%nat in Hk.
  pose proof dm_pm_0. pose proof dm_pm_1. pose proof dm_pm_2. pose proof dm_pm_4. pose proof dm_pm_8.
  do 16 (destruct k as [|k]; [eapply dm_call; [lia|reflexivity|done]|]). lia.
Qed.

(** The arithmetic instructions. *)
Lemma dm_alu1 fmt : dmarks (kind_effects Writes inst) (print_alu1 fmt).
Proof. unfold print_alu1. cbn [kind_effects]. change (14 + dest_bit inst) with (d_dest inst). marks. Qed.
Lemma dm_alu2 (changes : bool) (source : Z → D string) fmt :
  dmarks [] (source inst) → dmarks (kind_effects (if changes then Writes else Compares) inst) (print_alu2 changes source fmt).
Proof.
  intros Hs. unfold print_alu2. mark_step. apply dm_silent; [done|intros ?].
  destruct changes; cbn [kind_effects]; [change (14 + dest_bit inst) with (d_dest inst)|]; marks.
Qed.
Lemma dm_mul fmt : dmarks (kind_effects Writes inst) (print_mul fmt).
Proof.
  unfold print_mul. cbn [kind_effects]. change (14 + dest_bit inst) with (d_dest inst). mark_step. cbv zeta.
  destruct (d_factors _). marks.
Qed.

Lemma dm_sources : dmarks [] (carry_source inst) ∧ dmarks [] (d_add_source inst) ∧ dmarks [] (other_accu inst)
  ∧ dmarks [] (d_logic_source inst) ∧ dmarks [] (d_cmp_source inst) ∧ dmarks [] (d_tfr_source inst).
Proof.
  split_and!; unfold carry_source, d_add_source, other_accu, d_logic_source, d_cmp_source, d_tfr_source; cbv zeta.
  all: repeat case_match; apply dm_ret || apply dm_table.
Qed.

Ltac alu_marks :=
  lazymatch goal with |- dmarks _ ?m => unfold m end;
  lazymatch goal with
  | |- dmarks _ (print_alu1 _) => apply dm_alu1
  | |- dmarks _ (print_mul _) => apply dm_mul
  | |- dmarks _ (print_alu2 ?c _ _) => apply (dm_alu2 c); apply dm_sources
  | |- dmarks _ _ => cbn [kind_effects]; marks
  end.

Lemma dm_alu003f : Forall2 (λ m k, dmarks (kind_effects k inst) m) Disasm.opcodes_alu003f alu_kinds_003f.
Proof. unfold Disasm.opcodes_alu003f, alu_kinds_003f. cbn [app replicate]. repeat (constructor; [alu_marks|]). constructor. Qed.
Lemma dm_alu407f : Forall2 (λ m k, dmarks (kind_effects k inst) m) Disasm.opcodes_alu407f alu_kinds_407f.
Proof. unfold Disasm.opcodes_alu407f, alu_kinds_407f. repeat (constructor; [alu_marks|]). constructor. Qed.
Lemma dm_alu80ff : Forall2 (λ m k, dmarks (kind_effects k inst) m) Disasm.opcodes_alu80ff (replicate 4 Writes).
Proof. unfold Disasm.opcodes_alu80ff. cbn [replicate]. repeat (constructor; [alu_marks|]). constructor. Qed.

Lemma Forall2_kind {A} (R : A → alu_kind → Prop) ms ks i :
  Forall2 R ms ks → 0 <= i < Z.of_nat (length ms) →
  ∃ m, ms !! Z.to_nat i = Some m ∧ R m (default Nothing (ks !! Z.to_nat i)).
Proof.
  intros HF Hi. destruct (lookup_lt_is_Some_2 ms (Z.to_nat i)) as [m Hm]; [lia|].
  destruct (Forall2_lookup_l _ _ _ _ _ HF Hm) as (k & Hk & HR). exists m. split; [done|]. by rewrite Hk.
Qed.

(** The kind of the arithmetic code of the instruction, in any table of functions. *)
Lemma alu_dispatch {A} (R : A → alu_kind → Prop) t1 t2 t3 op :
  Forall2 R t1 alu_kinds_003f → Forall2 R t2 alu_kinds_407f → Forall2 R t3 (replicate 4 Writes) → in_u 8 op →
  ∃ m, R m (if op <? 0x40 then default Nothing (alu_kinds_003f !! Z.to_nat op)
            else if op <? 0x80 then default Nothing (alu_kinds_407f !! Z.to_nat (op .& BITMASK 4)) else Writes)
    ∧ if op <? 0x40 then t1 !! Z.to_nat op = Some m
      else if op <? 0x80 then t2 !! Z.to_nat (op .& BITMASK 4) = Some m
      else t3 !! Z.to_nat (op .& BITMASK 2) = Some m.
Proof.
  intros H1 H2 H3 [Hop _].
  pose proof (Forall2_length _ _ _ H1) as L1. pose proof (Forall2_length _ _ _ H2) as L2.
  pose proof (Forall2_length _ _ _ H3) as L3. cbn in L1, L2, L3.
  destruct (in_u_land_mask 4 op ltac:(lia)) as [B0 B1]. destruct (in_u_land_mask 2 op ltac:(lia)) as [C0 C1].
  change (2 ^ 4) with 16 in B1. change (2 ^ 2) with 4 in C1.
  destruct (Z.ltb_spec op 0x40).
  { destruct (Forall2_kind R t1 alu_kinds_003f op H1) as (m & Hm & HR); [lia|]. by exists m. }
  destruct (Z.ltb_spec op 0x80).
  { destruct (Forall2_kind R t2 alu_kinds_407f (op .& BITMASK 4) H2) as (m & Hm & HR); [lia|]. by exists m. }
  destruct (Forall2_kind R t3 (replicate 4 Writes) (op .& BITMASK 2) H3) as (m & Hm & HR); [lia|]. exists m.
  split; [|done]. destruct (lookup_lt_is_Some_2 (replicate 4 Writes) (Z.to_nat (op .& BITMASK 2))) as [k Hk]; [cbn; lia|].
  rewrite Hk in HR. apply lookup_replicate in Hk as [-> _]. done.
Qed.

Lemma dm_parallel : is_parallel inst = true → dmarks (effects inst) disasm_decoded.
Proof.
  intros Hp%negb_true_iff. unfold disasm_decoded, effects. mark_step. cbv zeta. rewrite Hp.
  apply dm_seq; [apply dm_pm|intros _]. unfold alu_effects.
  pose proof (in_u_land_mask 8 inst ltac:(lia)) as Hop. set (op := inst .& BITMASK 8) in *.
  destruct (alu_dispatch _ _ _ _ op dm_alu003f dm_alu407f dm_alu80ff Hop) as (m & HR & Hm).
  destruct (op <? 0x40); [|destruct (op <? 0x80)].
  all: eapply dm_call; [|exact Hm|exact HR]; first [apply Hop|apply in_u_land_mask; lia].
Qed.
End marks.

(** ** What the interpreter changes *)

Create HintDb mods.
Create HintDb effects.

Section frames.
(** [P]: the registers that may change. *)
Context (inst : Z) (P : Z → Prop).

(** [m] changes registers in [P] only, and neither the instruction nor the moves set up for
    it. *)
Definition mods_in {A} (m : M A) : Prop :=
  ∀ s, s.(cur_inst) = inst →
    match m s with
    | Ok _ s' => s'.(cur_inst) = inst ∧ s'.(parmove) = s.(parmove) ∧ ∀ r, ¬ P r → reg s' r = reg s r
    | UB _ => True
    end.

Local Notation mods := mods_in.

Lemma mods_bind {A B} (m : M A) (f : A → M B) : mods m → (∀ a, mods (f a)) → mods (m ≫= f).
Proof.
  intros Hm Hf s Hs. specialize (Hm s Hs). unfold mbind, M_bind. destruct (m s) as [a s1|]; [|done].
  destruct Hm as (Hs1 & E1 & R1). specialize (Hf a s1 Hs1). destruct (f a s1) as [b s2|]; [|done].
  destruct Hf as (Hs2 & E2 & R2). split; [done|]. split; [congruence|]. intros r Hr. by rewrite R2, R1.
Qed.

Lemma mods_inst {B} (f : Z → M B) : mods (f inst) → mods (get_inst ≫= f).
Proof. intros Hf s Hs. specialize (Hf s Hs). unfold mbind, M_bind, get_inst, gets. by rewrite Hs. Qed.

Lemma mods_fmap {A B} (g : A → B) (m : M A) : mods m → mods (g <$> m).
Proof. intros Hm s Hs. specialize (Hm s Hs). unfold fmap, M_fmap. by destruct (m s). Qed.

Lemma mods_ret {A} (a : A) : mods (mret a).
Proof. intros s Hs. done. Qed.
Lemma mods_fail {A} e : mods (fail (A:=A) e).
Proof. done. Qed.
Lemma mods_gets {A} (f : state → A) : mods (gets f).
Proof. intros s Hs. done. Qed.
Lemma mods_check i n : mods (check i n).
Proof. intros s Hs. unfold check. by destruct (in_array i n). Qed.
Lemma mods_when b m : mods m → mods (when b m).
Proof. intros Hm. unfold when. destruct b; [done|apply mods_ret]. Qed.

Lemma mods_modify f :
  (∀ s, (f s).(cur_inst) = s.(cur_inst) ∧ (f s).(parmove) = s.(parmove) ∧ (f s).(core).(registers) = s.(core).(registers)) →
  mods (modify f).
Proof. intros Hf s Hs. destruct (Hf s) as (E1 & E2 & E3). cbn. rewrite E1, E2. unfold reg. by rewrite E3. Qed.

Lemma mods_set_core f : (∀ c, (f c).(registers) = c.(registers)) → mods (set_core f).
Proof. intros Hf. apply mods_modify. intros s. cbn. by rewrite Hf. Qed.

Lemma mods_get_reg n : mods (get_reg n).
Proof. unfold get_reg. apply mods_bind; [apply mods_check|]. intros. apply mods_gets. Qed.

Lemma mods_set_reg n v : P n → mods (set_reg n v).
Proof.
  intros HP. unfold set_reg. apply mods_bind; [apply mods_check|]. intros _ s Hs. cbn. split; [done|]. split; [done|].
  intros r Hr. unfold reg. cbn. rewrite aget_aset_ne; [done|]. by intros ->.
Qed.

Lemma mods_table {A} (l : list A) i : mods (table_get l i).
Proof. intros s Hs. unfold table_get. destruct (l !! Z.to_nat i); [|done]. by destruct (0 <=? i). Qed.

End frames.

Ltac mods_step :=
  cbv beta zeta;
  lazymatch goal with
  | |- mods_in _ _ (mbind _ get_inst) => apply mods_inst
  | |- mods_in _ _ (mbind _ _) => apply mods_bind; [|intros ?]
  | |- mods_in _ _ (fmap _ _) => apply mods_fmap
  | |- mods_in _ _ (mret _) => apply mods_ret
  | |- mods_in _ _ (fail _) => apply mods_fail
  | |- mods_in _ _ (gets _) => apply mods_gets
  | |- mods_in _ _ get_pc => apply mods_gets
  | |- mods_in _ _ get_inst_len => apply mods_gets
  | |- mods_in _ _ (set_inst_len _) => apply mods_modify; done
  | |- mods_in _ _ (check _ _) => apply mods_check
  | |- mods_in _ _ (when _ _) => apply mods_when
  | |- mods_in _ _ (get_reg _) => apply mods_get_reg
  | |- mods_in _ _ (set_reg _ _) => apply mods_set_reg; solve [eauto with effects]
  | |- mods_in _ _ (table_get _ _) => apply mods_table
  | |- mods_in _ _ (set_core _) => apply mods_set_core; done
  | |- mods_in _ _ (modify _) => apply mods_modify; done
  | |- mods_in _ _ (let '(_, _) := ?x in _) => destruct x
  | |- mods_in _ _ (if ?b then _ else _) => destruct b
  | |- mods_in _ _ (match ?x with _ => _ end) => destruct x
  | |- mods_in _ _ _ => solve [eauto with mods effects]
  end.
Ltac mods := repeat mods_step.

Section memory.
Context (inst : Z) (P : Z → Prop).
Local Notation mods := (mods_in inst P).

(** Memory and the host port change no register. *)
Lemma mods_sync e : mods (in_thread_mode (emit e)).
Proof. unfold in_thread_mode, emit. mods. Qed.
Lemma mods_get_periph sp i : mods (get_periph sp i).
Proof. unfold get_periph. mods. Qed.
Lemma mods_set_periph sp i v : mods (set_periph sp i v).
Proof. unfold set_periph. mods. Qed.
Lemma mods_get_hostport i : mods (get_hostport i).
Proof. unfold get_hostport. mods. Qed.
Lemma mods_set_hostport i v : mods (set_hostport i v).
Proof. unfold set_hostport. mods. Qed.
Lemma mods_get_ramint sp i : mods (get_ramint sp i).
Proof. unfold get_ramint. mods. Qed.
Lemma mods_set_ramint sp i v : mods (set_ramint sp i v).
Proof. unfold set_ramint. mods. Qed.
Lemma mods_get_ram sp i : mods (get_ram sp i).
Proof. unfold get_ram. mods. Qed.
Lemma mods_set_ram sp i v : mods (set_ram sp i v).
Proof. unfold set_ram. mods. Qed.
Lemma mods_get_rom sp i : mods (get_rom sp i).
Proof. unfold get_rom. mods. Qed.
#[local] Hint Resolve mods_sync mods_get_periph mods_set_periph mods_get_hostport mods_set_hostport mods_get_ramint
  mods_set_ramint mods_get_ram mods_set_ram mods_get_rom : mods.

Lemma mods_trdy : mods dsp_core_hostport_update_trdy.
Proof. unfold dsp_core_hostport_update_trdy. mods. Qed.
#[local] Hint Resolve mods_trdy : mods.
Lemma mods_dsp2host : mods dsp_core_dsp2host.
Proof. unfold dsp_core_dsp2host. mods. Qed.
Lemma mods_host2dsp : mods dsp_core_host2dsp.
Proof. unfold dsp_core_host2dsp. mods. Qed.
#[local] Hint Resolve mods_dsp2host mods_host2dsp : mods.
Lemma mods_dspread : mods dsp_core_hostport_dspread.
Proof. unfold dsp_core_hostport_dspread. mods. Qed.
Lemma mods_dspwrite : mods dsp_core_hostport_dspwrite.
Proof. unfold dsp_core_hostport_dspwrite. mods. Qed.
#[local] Hint Resolve mods_dspread mods_dspwrite : mods.

Lemma mods_read_memory_p a : mods (read_memory_p a).
Proof. unfold read_memory_p. mods. Qed.
#[local] Hint Resolve mods_read_memory_p : mods.
Lemma mods_read_memory sp a : mods (read_memory sp a).
Proof. unfold read_memory, lockMutex, unlockMutex. mods. Qed.
Lemma mods_write_memory sp a v : mods (write_memory sp a v).
Proof. unfold write_memory_raw, write_periph_x, lockMutex, unlockMutex. mods. Qed.
#[local] Hint Resolve mods_read_memory mods_write_memory : mods.

(** The update of an address register. *)
Lemma mods_update_rn n v : P (DSP_REG_R0 + n) → mods (dsp_update_rn n v).
Proof.
  intros. unfold dsp_update_rn, dsp_update_rn_bitreverse, dsp_update_rn_modulo. mods.
Qed.
End memory.

#[local] Hint Resolve mods_sync mods_get_periph mods_set_periph mods_get_hostport mods_set_hostport mods_get_ramint mods_set_ramint mods_get_ram mods_set_ram mods_get_rom mods_trdy mods_dsp2host mods_host2dsp mods_dspread mods_dspwrite mods_read_memory_p mods_read_memory mods_write_memory mods_update_rn : mods.

(** A register that is written and then gets its old value back has not changed. *)
Lemma mods_restore inst (P : Z → Prop) r0 {A B} (m0 : M B) (m : B → M unit) (f : Z → M A) :
  mods_in inst (λ r, r = r0 ∨ P r) (m0 ≫= m) → (∀ v, mods_in inst P (f v)) →
  mods_in inst P (curreg ← get_reg r0; x ← m0; m x;; dst ← get_reg r0; set_reg r0 curreg;; f dst).
Proof.
  intros Hm Hf s Hs. specialize (Hm s Hs). revert Hm. unfold get_reg, set_reg, check, mbind, M_bind.
  destruct (in_array r0 64); [|done]. cbn. destruct (m0 s) as [x s1|]; [|done].
  destruct (m x s1) as [[] s2|]; [|done]. intros (Hs2 & E2 & R2). cbn. set (s3 := s_core _ s2).
  specialize (Hf (reg s2 r0) s3 Hs2). destruct (f (reg s2 r0) s3) as [b s4|]; [|done].
  destruct Hf as (Hs4 & E4 & R4). split; [done|]. split; [rewrite E4; exact E2|]. intros r Hr. rewrite R4 by done.
  unfold s3, reg at 1. cbn. rewrite aget_aset. case_decide as Hd; [by rewrite <- Hd|]. apply R2. naive_solver.
Qed.

Lemma mods_calc_ea inst (P : Z → Prop) ea : (∀ r, r ∈ ea_effects ea → P r) → mods_in inst P (dsp_calc_ea ea).
Proof.
  unfold ea_effects, dsp_calc_ea. assert (in_u 3 ((ea ≫ 3) .& BITMASK 3)) as Hv by bounds.
  revert Hv. generalize ((ea ≫ 3) .& BITMASK 3). intros v [Hv0 Hv1]. change (2 ^ 3) with 8 in Hv1. cbv zeta.
  assert (v = 0 ∨ v = 1 ∨ v = 2 ∨ v = 3 ∨ v = 4 ∨ v = 5 ∨ v = 6 ∨ v = 7) as Hv by lia.
  destruct Hv as [->|[->|[->|[->|[->|[->|[->| ->]]]]]]]; cbn [Z.eqb Pos.eqb orb]; intros HP.
  all: try (assert (P (DSP_REG_R0 + ea .& BITMASK 3)) as HPr by (apply HP; set_solver)).
  6: { apply (mods_restore inst P (DSP_REG_R0 + ea .& BITMASK 3)); [|intros; mods]. mods. }
  all: mods.
Qed.

(** *** Arithmetic *)

Section arithmetic.
Context (inst : Z) (P : Z → Prop).
Local Notation mods := (mods_in inst P).


Hypothesis P_sr : P DSP_REG_SR.
#[local] Hint Resolve P_sr : effects.

Lemma mods_reg_and n v : P n → mods (reg_and n v).
Proof. intros. unfold reg_and. mods. Qed.
Lemma mods_reg_or n v : P n → mods (reg_or n v).
Proof. intros. unfold reg_or. mods. Qed.
#[local] Hint Resolve mods_reg_and mods_reg_or : mods.

Lemma mods_ccr_update d : mods (dsp_ccr_update d).
Proof. unfold dsp_ccr_update, dsp_ccr_extension, dsp_ccr_unnormalized, dsp_ccr_negative, dsp_ccr_zero. mods. Qed.
Lemma mods_set_sr_bits m v : mods (set_sr_bits m v).
Proof. unfold set_sr_bits. mods. Qed.
Lemma mods_get_accu n : mods (get_accu n).
Proof. unfold get_accu. mods. Qed.
Lemma mods_get_word n : mods (get_word n).
Proof. unfold get_word. mods. Qed.
Lemma mods_get_long n m : mods (get_long n m).
Proof. unfold get_long. mods. Qed.
#[local] Hint Resolve mods_ccr_update mods_set_sr_bits mods_get_accu mods_get_word mods_get_long : mods.
Lemma mods_add_source a b : mods (add_source a b).
Proof. unfold add_source. mods. Qed.
Lemma mods_cmp_source a b : mods (cmp_source a b).
Proof. unfold cmp_source. mods. Qed.
Lemma mods_mpy_product i : mods (mpy_product i).
Proof. unfold mpy_product. mods. Qed.
#[local] Hint Resolve mods_add_source mods_cmp_source mods_mpy_product : mods.

(** The words of the destination may change when the instruction writes it. *)
Definition kind_ok (k : alu_kind) : Prop :=
  match k with
  | Writes => P (DSP_REG_A2 + dest_bit inst) ∧ P (DSP_REG_A1 + dest_bit inst) ∧ P (DSP_REG_A0 + dest_bit inst)
  | _ => True
  end.

Lemma mods_set_accu d : kind_ok Writes → mods (set_accu (dest_bit inst) d).
Proof. intros (H2 & H1 & H0). unfold set_accu. mods. Qed.
#[local] Hint Resolve mods_set_accu : mods.
Lemma mods_store_vc d sr : kind_ok Writes → mods (store_vc (dest_bit inst) d sr).
Proof. intros. unfold store_vc. mods. Qed.
#[local] Hint Resolve mods_store_vc : mods.
Lemma kind_ok_a1 : kind_ok Writes → P (DSP_REG_A1 + dest_bit inst).
Proof. by intros (_ & H & _). Qed.
#[local] Hint Resolve kind_ok_a1 : effects.

Ltac alu_mods := intros Hk; lazymatch goal with |- mods_in _ _ ?m => unfold m end; mods.
Ltac alu_table := repeat (constructor; [alu_mods|]); constructor.

Lemma mods_alu003f : Forall2 (λ m k, kind_ok k → mods m) opcodes_alu003f alu_kinds_003f.
Proof. unfold opcodes_alu003f, alu_kinds_003f. cbn [app replicate]. alu_table. Qed.
Lemma mods_alu407f : Forall2 (λ m k, kind_ok k → mods m) opcodes_alu407f alu_kinds_407f.
Proof. unfold opcodes_alu407f, alu_kinds_407f. alu_table. Qed.
Lemma mods_alu80ff : Forall2 (λ m k, kind_ok k → mods m) opcodes_alu80ff (replicate 4 Writes).
Proof. unfold opcodes_alu80ff. cbn [replicate]. alu_table. Qed.
End arithmetic.

(** *** Parallel moves *)

Section moves.
Context (inst : Z) (P : Z → Prop).
Hypothesis P_sr : P DSP_REG_SR.
#[local] Hint Resolve P_sr : effects.

(** A register move that is set up stores in registers of [P]. *)
Definition pm_good_move (p : parmove_t) (i : Z) : Prop :=
  ∀ j r, aget p.(tmp_parmove_start) i <= j < aget p.(tmp_parmove_start) i + aget p.(tmp_parmove_len) i →
    aget p.(tmp_parmove_type) i = 0 → p.(tmp_parmove_dest) !! (i, j) = Some (host_pointer r) → P r.
Definition pm_good (p : parmove_t) : Prop := pm_good_move p 0 ∧ pm_good_move p 1.

(** Like [mods_in], for the functions that set up moves. *)
Definition pmods {A} (m : M A) : Prop :=
  ∀ s, s.(cur_inst) = inst → pm_good s.(parmove) →
    match m s with
    | Ok _ s' => s'.(cur_inst) = inst ∧ pm_good s'.(parmove) ∧ ∀ r, ¬ P r → reg s' r = reg s r
    | UB _ => True
    end.

Lemma pmods_mods {A} (m : M A) : mods_in inst P m → pmods m.
Proof.
  intros Hm s Hs Hp. specialize (Hm s Hs). destruct (m s) as [a s'|]; [|done]. destruct Hm as (E1 & E2 & E3).
  split; [done|]. by rewrite E2.
Qed.

Lemma pmods_bind {A B} (m : M A) (f : A → M B) : pmods m → (∀ a, pmods (f a)) → pmods (m ≫= f).
Proof.
  intros Hm Hf s Hs Hp. specialize (Hm s Hs Hp). unfold mbind, M_bind. destruct (m s) as [a s1|]; [|done].
  destruct Hm as (Hs1 & Hp1 & R1). specialize (Hf a s1 Hs1 Hp1). destruct (f a s1) as [b s2|]; [|done].
  destruct Hf as (Hs2 & Hp2 & R2). split; [done|]. split; [done|]. intros r Hr. by rewrite R2, R1.
Qed.

Lemma pmods_inst {B} (f : Z → M B) : pmods (f inst) → pmods (get_inst ≫= f).
Proof. intros Hf s Hs Hp. specialize (Hf s Hs Hp). unfold mbind, M_bind, get_inst, gets. by rewrite Hs. Qed.

Lemma pmods_assoc {A B C} (m : M A) (f : A → M B) (g : B → M C) : pmods ((m ≫= f) ≫= g) → pmods (m ≫= λ a, f a ≫= g).
Proof. intros H s Hs Hp. specialize (H s Hs Hp). unfold mbind, M_bind in *. by destruct (m s). Qed.

(** The buffers of move [i] do not concern the other move. *)
Lemma pmods_src i j v : pmods (set_pm_src i j v).
Proof.
  intros s Hs Hp. unfold set_pm_src, check, mbind, M_bind. destruct (in_array i 2); [|done].
  destruct (in_array j 3); [|done]. done.
Qed.

Lemma pmods_setup (m : M unit) (g : parmove_t → parmove_t) i i' :
  i = 0 ∧ i' = 1 ∨ i = 1 ∧ i' = 0 →
  (∀ s, m s = Ok tt (s_parmove (g s.(parmove)) s)) →
  (∀ p, pm_good_move (g p) i) → (∀ p, pm_good_move p i' → pm_good_move (g p) i') → pmods m.
Proof.
  intros Hi Hm Hg Hg' s Hs Hp. rewrite Hm. split; [done|]. split; [|done]. cbn.
  destruct Hp as [Hp0 Hp1], Hi as [[-> ->]|[-> ->]]; split; auto.
Qed.

Definition accu_dest (i n : Z) : M unit :=
  set_pm_dest i 0 (host_pointer (DSP_REG_A2 + n));;
  set_pm_dest i 1 (host_pointer (DSP_REG_A1 + n));;
  set_pm_dest i 2 (host_pointer (DSP_REG_A0 + n));;
  set_pm_start i 0;;
  set_pm_len i 3;;
  set_pm_type i 0.

Definition reg_dest (i n : Z) : M unit :=
  set_pm_dest i 1 (host_pointer n);;
  set_pm_start i 1;;
  set_pm_len i 1;;
  set_pm_type i 0.

Ltac move_cells := cbn; rewrite ?aget_aset_eq; repeat (rewrite aget_aset_ne by congruence);
  repeat first [rewrite lookup_insert_eq | rewrite lookup_insert_ne by congruence].
Ltac setup i i' g := apply (pmods_setup _ g i i'); [lia|reflexivity| |intros p Hp j r; move_cells; apply (Hp j r)].

(** The assignments to the buffers, as functions. *)
Definition to_dest (i j : Z) (d : parmove_dest_u) (p : parmove_t) : parmove_t := p_dest (<[(i, j) := d]> p.(tmp_parmove_dest)) p.
Definition to_start (i v : Z) (p : parmove_t) : parmove_t := p_start (aset p.(tmp_parmove_start) i v) p.
Definition to_len (i v : Z) (p : parmove_t) : parmove_t := p_len (aset p.(tmp_parmove_len) i v) p.
Definition to_type (i v : Z) (p : parmove_t) : parmove_t := p_type (aset p.(tmp_parmove_type) i v) p.
Definition to_space (i v : Z) (p : parmove_t) : parmove_t := p_space (aset p.(tmp_parmove_space) i v) p.

Lemma pmods_accu_dest i n :
  i = 0 ∨ i = 1 → P (DSP_REG_A2 + n) → P (DSP_REG_A1 + n) → P (DSP_REG_A0 + n) → pmods (accu_dest i n).
Proof.
  intros Hi H2 H1 H0. pose (g i p := to_type i 0 (to_len i 3 (to_start i 0 (to_dest i 2 (host_pointer (DSP_REG_A0 + n))
    (to_dest i 1 (host_pointer (DSP_REG_A1 + n)) (to_dest i 0 (host_pointer (DSP_REG_A2 + n)) p)))))).
  destruct Hi as [->| ->]; [setup 0 1 (g 0)|setup 1 0 (g 1)]; intros p j r; move_cells; intros Hj _.
  all: assert (j = 0 ∨ j = 1 ∨ j = 2) as [->|[->| ->]] by lia; move_cells; by intros [= <-].
Qed.

Lemma pmods_reg_dest i n : i = 0 ∨ i = 1 → P n → pmods (reg_dest i n).
Proof.
  intros Hi HP. pose (g i p := to_type i 0 (to_len i 1 (to_start i 1 (to_dest i 1 (host_pointer n) p)))).
  destruct Hi as [->| ->]; [setup 0 1 (g 0)|setup 1 0 (g 1)]; intros p j r; move_cells; intros Hj _.
  all: assert (j = 1) as -> by lia; move_cells; by intros [= <-].
Qed.

Lemma pmods_to_mem i space addr : i = 0 ∨ i = 1 → pmods (pm_to_mem i space addr).
Proof.
  intros Hi. pose (g i p := to_space i space (to_type i 1 (to_len i 1 (to_start i 1 (to_dest i 1 (dsp_address addr) p))))).
  destruct Hi as [->| ->]; [setup 0 1 (g 0)|setup 1 0 (g 1)]; intros p j r; move_cells; done.
Qed.

Lemma pmods_writereg i n : i = 0 ∨ i = 1 → (∀ r, r ∈ words n → P r) → pmods (dsp_pm_writereg n i;; set_pm_type i 0).
Proof.
  intros Hi HP. unfold dsp_pm_writereg, words in *. destruct (is_accu n).
  - assert (P (DSP_REG_A2 + n .& 1) ∧ P (DSP_REG_A1 + n .& 1) ∧ P (DSP_REG_A0 + n .& 1)) as (H2 & H1 & H0)
      by (split_and!; apply HP; set_solver).
    pose proof (pmods_accu_dest i (n .& 1) Hi H2 H1 H0) as H. by destruct Hi as [->| ->].
  - assert (P n) as Hn by (apply HP; set_solver).
    pose proof (pmods_reg_dest i n Hi Hn) as H. by destruct Hi as [->| ->].
Qed.

(** The words of the registers in [l] may change. *)
Definition covers (l : list Z) : Prop := ∀ x r, x ∈ l → r ∈ words x → P r.

Lemma covers_app l1 l2 : covers (l1 ++ l2) ↔ covers l1 ∧ covers l2.
Proof. unfold covers. set_solver. Qed.
Lemma covers_cons x l : covers (x :: l) ↔ (∀ r, r ∈ words x → P r) ∧ covers l.
Proof. unfold covers. set_solver. Qed.

Lemma words_self x : 16 <= x ∨ x < 14 → words x = [x].
Proof. intros. unfold words, is_accu. by rewrite !(proj2 (Z.eqb_neq x _)) by lia. Qed.

Lemma pmods_calc_ea ea : covers (ea_effects ea) → pmods (dsp_calc_ea ea).
Proof.
  intros Hc. apply pmods_mods, mods_calc_ea. intros r Hr. apply (Hc r r Hr). unfold ea_effects in Hr.
  destruct (_ || _); [set_solver|]. apply list_elem_of_singleton in Hr as ->.
  pose proof (in_u_land_mask 3 ea ltac:(lia)) as [H0 _]. rewrite words_self by lia. set_solver.
Qed.

Lemma mods_reg_bitmask n : mods_in inst P (reg_bitmask n).
Proof. unfold reg_bitmask. mods. Qed.
Lemma mods_get_pm_src i j : mods_in inst P (get_pm_src i j).
Proof. unfold get_pm_src. mods. Qed.
#[local] Hint Resolve mods_reg_bitmask mods_get_pm_src : mods.

Ltac pm_step :=
  cbv beta zeta;
  lazymatch goal with
  | |- pmods (mbind _ get_inst) => apply pmods_inst
  | |- pmods (mbind (λ _, set_pm_type ?i 0) (dsp_pm_writereg ?n ?i)) => apply pmods_writereg; [lia|]
  | |- pmods (mbind (λ _, mbind ?k (set_pm_type ?i 0)) (dsp_pm_writereg ?n ?i)) =>
      apply (pmods_assoc (dsp_pm_writereg n i) (λ _, set_pm_type i 0) k), pmods_bind; [apply pmods_writereg; [lia|]|intros ?]
  | |- pmods (mbind _ _) => apply pmods_bind; [|intros ?]
  | |- pmods (set_pm_src _ _ _) => apply pmods_src
  | |- pmods (pm_to_mem _ _ _) => apply pmods_to_mem; lia
  | |- pmods (dsp_calc_ea _) => apply pmods_calc_ea; try assumption
  | |- pmods (let '(_, _) := ?x in _) => destruct x
  | |- pmods (when ?b _) => unfold when
  | |- pmods (if ?b then _ else _) => destruct b
  | |- pmods _ => first [solve [eauto with pmods] | apply pmods_mods; solve [mods]]
  end.
Ltac pmods := repeat pm_step.

Create HintDb pmods.

Lemma pmods_read_accu24 n i j : pmods (dsp_pm_read_accu24 n (set_pm_src i j)).
Proof. unfold dsp_pm_read_accu24, reg_or. pmods. Qed.
#[local] Hint Resolve pmods_read_accu24 : pmods.
Lemma pmods_pm_source i n v : pmods (pm_source i n v).
Proof. unfold pm_source. pmods. Qed.
#[local] Hint Resolve pmods_pm_source : pmods.
Lemma pmods_from_reg i n : pmods (pm_from_reg i n).
Proof. unfold pm_from_reg. pmods. Qed.
Lemma pmods_to_reg i n v : i = 0 ∨ i = 1 → (∀ r, r ∈ words n → P r) → pmods (pm_to_reg i n v).
Proof. intros Hi HP. unfold pm_to_reg. pm_step; [eauto with pmods|]. by apply pmods_writereg. Qed.
#[local] Hint Resolve pmods_from_reg : pmods.
#[local] Hint Extern 1 (pmods (pm_to_reg _ _ _)) => apply pmods_to_reg; [lia|assumption] : pmods.

(** Bit 0 of A plus a bit. *)
Lemma words_accu b : words (DSP_REG_A + b2z b) = [DSP_REG_A2 + b2z b; DSP_REG_A1 + b2z b; DSP_REG_A0 + b2z b].
Proof. by destruct b. Qed.

Lemma pmods_pm_0 : covers (pm_0_effects inst) → pmods dsp_pm_0.
Proof.
  unfold pm_0_effects. rewrite covers_app, covers_cons, (bit_b2z inst 16), words_accu by lia. intros (Hea & Ha & _).
  unfold dsp_pm_0. pm_step. cbv zeta. rewrite !(bit_b2z inst 16) by lia. pm_step; [pmods|]. pm_step. do 6 (pm_step; [pmods|]).
  apply pmods_accu_dest; [lia|apply Ha; set_solver..].
Qed.

Lemma covers_if (b : bool) l : covers (if b then l else []) → b = true → covers l.
Proof. by intros H ->. Qed.

(** A data register. *)
Lemma covers_data x : (∀ r, r ∈ words x → P r) → 0 <= x < 14 → P x.
Proof. intros H Hx. apply H. rewrite words_self by lia. set_solver. Qed.

Lemma pmods_pm_1 : covers (pm_1_effects inst) → pmods dsp_pm_1.
Proof.
  unfold pm_1_effects. rewrite covers_app. intros (Hea & Hd). unfold dsp_pm_1. pm_step. cbv zeta.
  rewrite !nz_bit, nz_land_bit by lia. pm_step; [pmods|]. pm_step.
  pose proof (in_u_land_mask 1 (inst ≫ 18) ltac:(lia)) as [H18 H18']. pose proof (in_u_land_mask 1 (inst ≫ 16) ltac:(lia)) as [H16 H16'].
  change (BITMASK 1) with 1 in *. change (2 ^ 1) with 2 in *.
  destruct (Z.testbit inst 14), (Z.testbit inst 15); rewrite !covers_cons in Hd; destruct_and!.
  all: pm_step; [pmods|]; do 4 (pm_step; [pmods|]); apply pmods_reg_dest; [lia|]; apply covers_data; [done|lia].
Qed.

Lemma pmods_pm_3 : (∀ r, r ∈ words ((inst ≫ 16) .& BITMASK 5) → P r) → pmods dsp_pm_3.
Proof. intros. unfold dsp_pm_3. pmods. done. Qed.

Lemma pmods_pm_2_2 : (∀ r, r ∈ words ((inst ≫ 8) .& BITMASK 5) → P r) → pmods dsp_pm_2_2.
Proof. intros. unfold dsp_pm_2_2. pmods; done. Qed.

Lemma pmods_pm_2 : covers (pm_2_effects inst) → pmods dsp_pm_2.
Proof.
  unfold pm_2_effects, dsp_pm_2. intros H. pm_step. cbv zeta. destruct (_ =? 0x2000); [pmods|].
  destruct (_ =? 0x2040); [rewrite covers_app in H; destruct H; pmods|].
  destruct (_ =? 0x2000); rewrite covers_cons in H; destruct H; [by apply pmods_pm_2_2|by apply pmods_pm_3].
Qed.

Lemma pmods_pm_5 : covers (pm_4_effects inst) → pm_4_value inst ≫ 2 ≠ 0 → pmods dsp_pm_5.
Proof.
  unfold pm_4_effects, dsp_pm_5. rewrite covers_app. intros (Hea & Hd) Hv. rewrite (proj2 (Z.eqb_neq _ _) Hv) in Hd.
  pm_step. cbv zeta. fold (pm_4_value inst). rewrite !nz_land_bit by lia.
  destruct (Z.testbit inst 14), (Z.testbit inst 15); rewrite ?covers_cons in Hd; destruct_and?; pmods.
Qed.

Lemma pmods_table {A B} (l : list A) i (f : A → M B) :
  (∀ x, l !! Z.to_nat i = Some x → pmods (f x)) → pmods (table_get l i ≫= f).
Proof.
  intros Hf s Hs Hp. unfold table_get, mbind, M_bind. destruct (l !! Z.to_nat i) as [x|] eqn:E; [|done].
  destruct (0 <=? i); [|done]. exact (Hf x eq_refl s Hs Hp).
Qed.

Lemma pmods_pm_4x a : covers (pm_4_effects inst) → pm_4_value inst ≫ 2 = 0 → pmods (dsp_pm_4x a).
Proof.
  unfold pm_4_effects, dsp_pm_4x. rewrite covers_app. intros (_ & Hd) Hv. rewrite (proj2 (Z.eqb_eq _ _) Hv) in Hd.
  pm_step. cbv zeta. apply pmods_table. intros [r1 r2] Hr. rewrite Hr in Hd. cbn [default from_option id] in Hd.
  rewrite nz_land_bit by lia. destruct (Z.testbit inst 15).
  - rewrite !covers_cons in Hd. destruct Hd as (H1 & H2 & _). pmods; done.
  - pmods.
Qed.

Lemma pmods_pm_4 : covers (pm_4_effects inst) → pmods dsp_pm_4.
Proof.
  intros H. unfold dsp_pm_4. pm_step. cbv zeta. fold (pm_4_value inst). destruct (Z.eqb_spec (pm_4_value inst ≫ 2) 0) as [E|E].
  - pm_step; [|pm_step; by apply pmods_pm_4x]. unfold pm_4_effects in H. rewrite nz_land_bit by lia.
    apply covers_app in H as [H _]. destruct (Z.testbit inst 14); pmods.
  - by apply pmods_pm_5.
Qed.

Lemma pmods_pm_8 : covers (pm_8_effects inst) → pmods dsp_pm_8.
Proof.
  unfold pm_8_effects, dsp_pm_8. rewrite !covers_app. intros (H1 & H2 & H3 & H4). pm_step. cbv zeta.
  rewrite !nz_land_bit by lia. destruct (pm_8_ea inst) as [ea1 ea2]. cbn [fst snd] in *.
  destruct (Z.testbit inst 15), (Z.testbit inst 22); rewrite ?covers_cons in H3; rewrite ?covers_cons in H4; destruct_and?; pmods.
Qed.

(** The upper half of opcodes 2-3 and 4-7. *)
Lemma field_bit k j : 0 <= k → 0 <= j → Z.testbit ((inst ≫ k) .& BITMASK 4) j = Z.testbit inst (k + j) && (j <? 4).
Proof.
  intros. rewrite Z.land_spec, BITMASK_ones, Z.testbit_ones_nonneg, Z.shiftr_spec by lia. by rewrite Z.add_comm.
Qed.

Lemma pm_2_is_3 : (inst ≫ 20) .& BITMASK 4 = 3 → pm_2_effects inst = [(inst ≫ 16) .& BITMASK 5].
Proof.
  intros E. assert (Z.testbit inst 20 = true) as H20.
  { pose proof (field_bit 20 0 ltac:(lia) ltac:(lia)) as H. rewrite E in H. change (20 + 0) with 20 in H. by destruct (Z.testbit inst 20). }
  assert (∀ m c, Z.testbit m 12 = true → Z.testbit c 12 = false → ((inst ≫ 8) .& m =? c) = false) as Hne.
  { intros m c Hm Hc. apply Z.eqb_neq. intros E2. apply (f_equal (λ x, Z.testbit x 12)) in E2.
    rewrite Z.land_spec, Z.shiftr_spec, Hm, Hc in E2 by lia. change (12 + 8) with 20 in E2. by rewrite H20 in E2. }
  unfold pm_2_effects. by rewrite !Hne.
Qed.

Lemma pm_4_is_5 : 5 <= (inst ≫ 20) .& BITMASK 4 < 8 → pm_4_value inst ≫ 2 ≠ 0.
Proof.
  intros Hk E.
  assert (∀ j, 0 <= j < 2 → Z.testbit inst (20 + j) = false) as Hb.
  { intros j Hj. apply (f_equal (λ x, Z.testbit x (1 + j))) in E. rewrite Z.shiftr_spec, Z.bits_0 in E by lia.
    unfold pm_4_value in E. rewrite Z.lor_spec in E. apply orb_false_iff in E as [_ E].
    rewrite Z.land_spec, Z.shiftl_spec, Z.shiftr_spec in E by lia.
    replace (1 + j + 2 + 17) with (20 + j) in E by lia. replace (1 + j + 2 - 3) with j in E by lia.
    assert (Z.testbit (BITMASK 2) j = true) as HB by (assert (j = 0 ∨ j = 1) as [->| ->] by lia; done).
    rewrite HB, andb_true_r in E. done. }
  pose proof (field_bit 20 0 ltac:(lia) ltac:(lia)) as B0. pose proof (field_bit 20 1 ltac:(lia) ltac:(lia)) as B1.
  rewrite Hb in B0, B1 by lia. assert ((inst ≫ 20) .& BITMASK 4 = 5 ∨ (inst ≫ 20) .& BITMASK 4 = 6
    ∨ (inst ≫ 20) .& BITMASK 4 = 7) as [K|[K|K]] by lia; rewrite K in B0, B1; done.
Qed.

Lemma pmods_call (l : list (M unit)) i m : l !! Z.to_nat i = Some m → pmods m → pmods (call_table l i).
Proof. intros Hm HP. unfold call_table. rewrite Hm. destruct (0 <=? i); [done|]. by apply pmods_mods, mods_fail. Qed.

(** The fetch of the operands. *)
Lemma read_effects s :
  covers (pm_effects inst) → s.(cur_inst) = inst →
  match dsp_parmove_read s with
  | Ok _ s' => s'.(cur_inst) = inst ∧ pm_good s'.(parmove) ∧ ∀ r, ¬ P r → reg s' r = reg s r
  | UB _ => True
  end.
Proof.
  intros Hc Hs. set (s1 := s_parmove (to_len 0 0 (to_len 1 0 s.(parmove))) s).
  assert (pmods (call_table opcodes_parmove ((inst ≫ 20) .& BITMASK 4))) as Hcall.
  { unfold pm_effects in Hc. pose proof pm_2_is_3 as P3. pose proof pm_4_is_5 as P5.
    pose proof pmods_pm_0. pose proof pmods_pm_1. pose proof pmods_pm_2. pose proof pmods_pm_4. pose proof pmods_pm_8.
    destruct (field_cases (inst ≫ 20) 4) as (k & Hk & E); [lia|]. rewrite E in *.
    change (Z.to_nat (2 ^ 4)) with 16%nat in Hk.
    do 3 (destruct k as [|k]; [eapply pmods_call; [reflexivity|auto]|]).
    destruct k as [|k].
    { eapply pmods_call; [reflexivity|]. apply pmods_pm_3. change (covers (pm_2_effects inst)) in Hc. rewrite P3, covers_cons in Hc by done. apply Hc. }
    destruct k as [|k]; [eapply pmods_call; [reflexivity|auto]|].
    do 3 (destruct k as [|k]; [eapply pmods_call; [reflexivity|apply pmods_pm_5; [done|apply P5; lia]]|]).
    do 8 (destruct k as [|k]; [eapply pmods_call; [reflexivity|auto]|]). lia. }
  assert (dsp_parmove_read s = call_table opcodes_parmove ((inst ≫ 20) .& BITMASK 4) s1) as ->.
  { unfold dsp_parmove_read. by rewrite <- Hs. }
  apply (Hcall s1 Hs). split; intros j r; cbn; rewrite ?aget_aset_eq, ?aget_aset_ne by congruence; rewrite ?aget_aset_eq; lia.
Qed.

(** The stores. *)
Lemma write_word_effects i j s :
  (∀ r, aget s.(parmove).(tmp_parmove_type) i = 0 → s.(parmove).(tmp_parmove_dest) !! (i, j) = Some (host_pointer r) → P r) →
  s.(cur_inst) = inst →
  match parmove_write_word i j s with
  | Ok _ s' => s'.(cur_inst) = inst ∧ s'.(parmove) = s.(parmove) ∧ ∀ r, ¬ P r → reg s' r = reg s r
  | UB _ => True
  end.
Proof.
  intros HP Hs. unfold parmove_write_word, check, mbind, M_bind, gets. destruct (in_array i 2); [|done].
  destruct (in_array j 3); [|done]. cbn. destruct (_ !! (i, j)) as [[r|a]|] eqn:Ed; [| |done].
  - destruct (nz _) eqn:Ht; [done|]. apply nz_false in Ht. exact (mods_set_reg inst P r _ (HP r Ht eq_refl) s Hs).
  - destruct (nz _); [|done]. exact (mods_write_memory inst P _ _ _ s Hs).
Qed.

Lemma write_loop_effects i n : ∀ j s,
  (∀ j' r, j <= j' < j + Z.of_nat n → aget s.(parmove).(tmp_parmove_type) i = 0 →
     s.(parmove).(tmp_parmove_dest) !! (i, j') = Some (host_pointer r) → P r) →
  s.(cur_inst) = inst →
  match for_loop n j (λ j _, parmove_write_word i j) tt s with
  | Ok _ s' => s'.(cur_inst) = inst ∧ s'.(parmove) = s.(parmove) ∧ ∀ r, ¬ P r → reg s' r = reg s r
  | UB _ => True
  end.
Proof.
  induction n as [|n IH]; intros j s HP Hs; cbn [for_loop]; [done|].
  pose proof (write_word_effects i j s) as Hw. unfold mbind, M_bind.
  destruct (parmove_write_word i j s) as [[] s1|]; [|done].
  destruct Hw as (Hs1 & E1 & R1); [intros r; apply HP; lia|done|].
  specialize (IH (j + 1) s1). destruct (for_loop n _ _ _ s1) as [[] s2|]; [|done].
  destruct IH as (Hs2 & E2 & R2); [|done|].
  - intros j' r Hj. rewrite E1. apply HP. lia.
  - split; [done|]. split; [congruence|]. intros r Hr. by rewrite R2, R1.
Qed.

Lemma write_move_effects i s :
  pm_good_move s.(parmove) i → s.(cur_inst) = inst →
  match parmove_write_move i s with
  | Ok _ s' => s'.(cur_inst) = inst ∧ s'.(parmove) = s.(parmove) ∧ ∀ r, ¬ P r → reg s' r = reg s r
  | UB _ => True
  end.
Proof.
  intros Hg Hs. unfold parmove_write_move, mbind, M_bind, gets. apply write_loop_effects; [|done].
  intros j r Hj. apply Hg. lia.
Qed.

(** A whole instruction with parallel moves. *)
Lemma kind_covers k : covers (kind_effects k inst) → kind_ok inst P k.
Proof.
  destruct k; cbn [kind_effects kind_ok]; [|done..]. rewrite covers_cons. intros [H _].
  unfold dest_bit in *. rewrite (bit_b2z inst 3) in * by lia. rewrite words_accu in H.
  split_and!; apply H; set_solver.
Qed.

Lemma parallel_effects s :
  is_parallel inst = true → covers (effects inst) → s.(cur_inst) = inst →
  match execute_decoded s with Ok _ s' => ∀ r, ¬ P r → reg s' r = reg s r | UB _ => True end.
Proof.
  intros Hpar Hc Hs. unfold effects in Hc. apply covers_app in Hc as [Hpm Halu]. apply negb_true_iff in Hpar.
  pose proof (read_effects s Hpm Hs) as Hr. pose proof (in_u_land_mask 8 inst ltac:(lia)) as Hop.
  destruct (alu_dispatch _ _ _ _ (inst .& BITMASK 8) (mods_alu003f inst P P_sr) (mods_alu407f inst P P_sr)
    (mods_alu80ff inst P P_sr) Hop) as (m & HR & Hm). specialize (HR (kind_covers _ Halu)).
  unfold execute_decoded, mbind, M_bind, get_inst, gets. cbv beta iota. rewrite Hs, Hpar.
  destruct (dsp_parmove_read s) as [[] s1|]; [|done]. destruct Hr as (Hs1 & Hg & R1). cbv beta iota. rewrite Hs1.
  assert ((if inst .& BITMASK 8 <? 0x40 then call_table opcodes_alu003f (inst .& BITMASK 8)
    else if inst .& BITMASK 8 <? 0x80 then call_table opcodes_alu407f ((inst .& BITMASK 8) .& BITMASK 4)
    else call_table opcodes_alu80ff ((inst .& BITMASK 8) .& BITMASK 2)) = m) as ->.
  { destruct (_ <? 0x40); [|destruct (_ <? 0x80)]; unfold call_table; rewrite Hm.
    all: rewrite (proj2 (Z.leb_le 0 _)); [done|]; (apply Hop || apply in_u_land_mask; lia). }
  specialize (HR s1 Hs1). destruct (m s1) as [[] s2|]; [|done]. destruct HR as (Hs2 & E2 & R2).
  pose proof (write_move_effects 0 s2) as H0. unfold dsp_parmove_write, mbind, M_bind.
  destruct (parmove_write_move 0 s2) as [[] s3|]; [|done].
  destruct H0 as (Hs3 & E3 & R3); [rewrite E2; apply Hg|done|].
  pose proof (write_move_effects 1 s3) as H1. destruct (parmove_write_move 1 s3) as [[] s4|]; [|done].
  destruct H1 as (_ & _ & R4); [rewrite E3, E2; apply Hg|done|].
  intros r Hr. by rewrite R4, R3, R2, R1.
Qed.
End moves.

(** ** The trace *)

(** The word fetched by the disassembler and by the interpreter. *)
Lemma disasm_word d s :
  d.(dsp_core) = s.(core) → in_u 16 s.(core).(pc) → Disasm.read_memory s.(core).(pc) d = DOk (p_word s s.(core).(pc)) d.
Proof.
  intros Hc [Hpc _]. generalize (pc (core s)) as a, Hpc. intros a Ha. unfold Disasm.read_memory, p_word, locate.
  change (DSP_SPACE_P =? DSP_SPACE_P) with true. cbv zeta iota. rewrite <- land_BITMASK by lia.
  destruct (Z.ltb_spec a 0x200).
  - rewrite in_array_true by lia. unfold mbind, D_bind, d_gets. rewrite Hc. by destruct (a <? 0x100).
  - rewrite (proj2 (Z.ltb_ge a 0x100)), ram_mask, in_array_true by (apply ram_bound || lia). unfold mbind, D_bind, d_gets. by rewrite Hc.
Qed.

(** An instruction at the address of the one disassembled last, as when REP repeats it, is
    neither printed nor marked again. *)
Lemma trace_repeated d : d.(prev_inst_pc) = d.(dsp_core).(pc) → dsp56k_disasm d = DOk tt d.
Proof. intros E. unfold dsp56k_disasm, mbind, D_bind, d_gets, get_core_pc, d_gets. cbv beta iota. by rewrite E, Z.eqb_refl. Qed.

(** C20: the register trace of the disassembler is complete for an instruction with parallel
    moves that is not at the address of the instruction disassembled before it: called before
    the instruction is executed it marks exactly the registers of [effects], and whatever
    register the instruction changes, SR apart, is marked, or a word of an accumulator that
    is.  When the address is the same, as for the repetitions under REP, the disassembler
    does nothing ([trace_repeated]), and what the repetition changes is not marked.  (SR is
    marked by the arithmetic instructions; a MOVE whose accumulator operand is limited sets
    its L bit without a mark.) *)
Theorem trace_complete (d : disasm) (s s' : state)
    (Hcore : d.(dsp_core) = s.(core)) (Hpc : in_u 16 s.(core).(pc)) (Hprev : d.(prev_inst_pc) ≠ s.(core).(pc))
    (Hpar : is_parallel (p_word s s.(core).(pc)) = true)
    (Hexec : execute_decoded (fetched s) = Ok tt s') :
  ∃ d', dsp56k_disasm d = DOk tt d'
    ∧ d'.(registers_changed) = set_marks (effects (p_word s s.(core).(pc))) d.(registers_changed)
    ∧ ∀ r, r ≠ DSP_REG_SR → reg s' r ≠ reg s r → traced d' r.
Proof.
  set (inst := p_word s s.(core).(pc)) in *. rewrite <- Hcore in Hprev.
  assert (in_u 24 inst) as Hi by (by apply Z.mod_pos_bound).
  assert (in_u 16 d.(dsp_core).(pc)) as Hpcd by (by rewrite Hcore).
  pose proof (disasm_word (d_prev (pc (dsp_core d)) d) s Hcore Hpc) as Hw. fold inst in Hw.
  rewrite <- Hcore in Hw. rewrite (disasm_fetch d inst Hprev Hw).
  destruct (decoded_safe d inst Hpcd Hi) as (d' & E & _). exists d'. split; [done|].
  pose proof (dm_parallel inst Hpar (disasm_fetched d inst) eq_refl) as Hm. rewrite E in Hm. destruct Hm as [_ Hm].
  split; [exact Hm|]. intros r Hsr Hne.
  pose proof (parallel_effects inst (λ r, r = DSP_REG_SR ∨ r ∈ effects inst ≫= words) (or_introl eq_refl) (fetched s) Hpar) as Hf.
  rewrite Hexec in Hf. destruct (decide (r ∈ effects inst ≫= words)) as [Hin|Hout].
  - apply list_elem_of_bind in Hin as (x & Hr & Hx). exists x. split; [|done]. by rewrite Hm, set_marks_elem, decide_True.
  - destruct Hne. apply Hf; [|reflexivity|intros [H|H]; [exact (Hsr H)|exact (Hout H)]]. intros x r' Hx Hr'. right. apply list_elem_of_bind. eauto.
Qed.

(** [MAC X0,Y0,A X:(R0)+,X0 Y:(R4)+,Y0] at P:1 of [fir_demo]. *)
Lemma trace_complete_witness :
  ∃ s' d', execute_decoded (fetched (upd_core (c_pc 1) fir_demo)) = Ok tt s'
    ∧ dsp56k_disasm (mk_disasm (upd_core (c_pc 1) fir_demo).(core) 0 0x10000 ∅ ∅ "" []) = DOk tt d'
    ∧ traced d' DSP_REG_A1 ∧ traced d' DSP_REG_R0.
Proof.
  set (s := upd_core (c_pc 1) fir_demo). set (d := mk_disasm s.(core) 0 0x10000 ∅ ∅ "" []).
  destruct (execute_decoded (fetched s)) as [[] s'|] eqn:E; [|vm_compute in E; discriminate].
  destruct (trace_complete d s s') as (d' & Ed & _ & Ht).
  - reflexivity.
  - apply in_ub_spec. reflexivity.
  - cbn. discriminate.
  - vm_compute. reflexivity.
  - exact E.
  - exists s', d'. split; [reflexivity|]. split; [exact Ed|].
    assert (Some (reg s' DSP_REG_A1, reg s' DSP_REG_R0) = Some (0x200000, 0x11)) as Hv.
    { change (match Ok tt s' with Ok _ s => Some (reg s DSP_REG_A1, reg s DSP_REG_R0) | UB _ => None end = Some (0x200000, 0x11)).
      rewrite <- E. vm_compute. reflexivity. }
    assert (reg s DSP_REG_A1 = 0) as Z1 by (vm_compute; reflexivity).
    assert (reg s DSP_REG_R0 = 0x10) as Z2 by (vm_compute; reflexivity).
    injection Hv as H1 H2. split; (apply Ht; [lia|]); [rewrite H1, Z1|rewrite H2, Z2]; lia.
Defined.
