(* ===== verification/MfpSpec.v ===== *)
(** * The interrupt controller is correct

    [mfp_ok], the invariant of the MFP with its promise to the CPU: whenever an interrupt is
    pending, not masked, and above the ones in service, the CPU's flag is raised, so no
    interrupt is forgotten.  Every operation keeps it.  On top of it: which interrupts a
    change of the lines or of the active edges requests, that a CPU which keeps serving takes
    every pending interrupt in the order of priority, and the 200 Hz tick. *)

From S2P Require Import Prelude Mfp.

(** ** Definitions *)

(** The CPU's flag. *)
Definition flagged (m : MFP) : bool := Z.testbit m.(spcflags) 9.

Record timer_ok (t : MFP_Timer) : Prop := {
  tk_control : in_u 4 t.(control);
  tk_start : in_u 8 t.(start_data);
  tk_current : in_u 8 t.(current_data) }.

Record mfp_ok (m : MFP) : Prop := {
  ok_input : in_u 8 m.(input);
  ok_gpip : in_u 8 m.(GPIP_data);
  ok_edge : in_u 8 m.(active_edge);
  ok_direction : in_u 8 m.(data_direction);
  ok_enable : in_u 16 m.(irq_enable);
  ok_pending : in_u 16 m.(irq_pending);
  ok_inservice : in_u 16 m.(irq_inservice);
  ok_mask : in_u 16 m.(irq_mask);
  ok_A : timer_ok m.(tA); ok_B : timer_ok m.(tB); ok_C : timer_ok m.(tC); ok_D : timer_ok m.(tD);
  (** an input line shows its input *)
  ok_lines : ∀ j, Z.testbit m.(data_direction) j = false → Z.testbit m.(GPIP_data) j = Z.testbit m.(input) j;
  (** only enabled interrupts are pending *)
  ok_enabled : ∀ j, Z.testbit m.(irq_pending) j = true → Z.testbit m.(irq_enable) j = true;
  (** a pending timer C interrupt has ticks left *)
  ok_ticks : 0 <= m.(timerCounter) <= INT_MAX ∧ (Z.testbit m.(irq_pending) 5 = true → 1 <= m.(timerCounter));
  (** no interrupt is forgotten *)
  ok_flag : ∀ j, 0 <= j → Z.testbit m.(irq_pending) j = true → Z.testbit m.(irq_mask) j = true →
    m.(irq_inservice) < 2 ^ j → flagged m = true }.

(** What the environment of the MFP does. *)
Inductive mfp_act :=
  | act_reset
  | act_read (busy addr : Z)
  | act_write (addr value : Z)
  | act_lines (mask value : Z)
  | act_irq (level count : Z)
  | act_serve (resetStop : bool) (intmask : Z).

Definition mfp_step (a : mfp_act) (m : MFP) : res MFP :=
  match a with
  | act_reset => Ret (mfp_reset m)
  | act_read busy addr => Ret (mfp_handleRead busy addr m).2
  | act_write addr value => mfp_handleWrite addr value m
  | act_lines mask value => setGPIPbit mask value m
  | act_irq level count => IRQ level count m
  | act_serve resetStop intmask => '(_, _, m) ← serve_mfp resetStop intmask m; Ret m
  end.

Fixpoint mfp_run (l : list mfp_act) (m : MFP) : res MFP :=
  match l with [] => Ret m | a :: l => m ← mfp_step a m; mfp_run l m end.

(** The arguments the callers pass: bytes, interrupt levels, at least one tick. *)
Definition act_ok (a : mfp_act) : Prop :=
  match a with
  | act_write _ value => in_u 8 value
  | act_irq level count => 0 <= level < 16 ∧ 1 <= count
  | _ => True
  end.

Definition act_ticks (a : mfp_act) : Z := match a with act_irq level count => if level =? 5 then count else 0 | _ => 0 end.
Definition ticks (l : list mfp_act) : Z := foldr (λ a n, act_ticks a + n) 0 l.

(** What an interrupt request leaves alone. *)
Record mfp_frame (m m' : MFP) : Prop := {
  fr_input : m'.(input) = m.(input); fr_gpip : m'.(GPIP_data) = m.(GPIP_data);
  fr_edge : m'.(active_edge) = m.(active_edge); fr_direction : m'.(data_direction) = m.(data_direction);
  fr_enable : m'.(irq_enable) = m.(irq_enable); fr_inservice : m'.(irq_inservice) = m.(irq_inservice);
  fr_mask : m'.(irq_mask) = m.(irq_mask); fr_vr : m'.(vr) = m.(vr) }.

#[global] Instance mfp_frame_preorder : PreOrder mfp_frame.
Proof.
  split.
  - intros m. by split.
  - intros m1 m2 m3 [] []. split; congruence.
Qed.

(** ** Bits *)

Lemma testbit_u16 x k : 0 <= k → Z.testbit (u16 x) k = (k <? 16) && Z.testbit x k.
Proof.
  intros Hk. unfold u16. change 65536 with (2 ^ 16). destruct (Z.ltb_spec k 16); cbn [andb].
  - apply Z.mod_pow2_bits_low. lia.
  - apply Z.mod_pow2_bits_high. lia.
Qed.
Lemma testbit_u8 x k : 0 <= k → Z.testbit (u8 x) k = (k <? 8) && Z.testbit x k.
Proof.
  intros Hk. unfold u8. change 256 with (2 ^ 8). destruct (Z.ltb_spec k 8); cbn [andb].
  - apply Z.mod_pow2_bits_low. lia.
  - apply Z.mod_pow2_bits_high. lia.
Qed.
Lemma testbit_shl1 l k : 0 <= l → 0 <= k → Z.testbit (1 ≪ l) k = (k =? l).
Proof.
  intros. rewrite Z.shiftl_1_l. destruct (Z.eqb_spec k l) as [->|].
  - by apply Z.pow2_bits_true.
  - by apply Z.pow2_bits_false.
Qed.

Lemma nz_common a b j : Z.testbit a j = true → Z.testbit b j = true → nz (a .& b) = true.
Proof.
  intros Ha Hb. apply nz_true. intros E. assert (Z.testbit (a .& b) j = true) as H by (by rewrite Z.land_spec, Ha, Hb).
  by rewrite E, Z.bits_0 in H.
Qed.

Lemma testbit_nonneg a k : Z.testbit a k = true → 0 <= k.
Proof. intros H. destruct (Z_lt_dec k 0); [|lia]. by rewrite Z.testbit_neg_r in H. Qed.

Lemma land_bit_0 x l : 0 <= l → (x .& (1 ≪ l) =? 0) = negb (Z.testbit x l).
Proof. intros. rewrite <- nz_land_bit by done. unfold nz. by rewrite negb_involutive. Qed.

(** ** The flag *)

Lemma flagged_trigger b m : flagged (TriggerMFP b m) = b.
Proof.
  unfold flagged, TriggerMFP, SPCFLAGS_SET, SPCFLAGS_CLEAR, SPCFLAG_MFP. destruct b; cbn [spcflags set_spcflags].
  - rewrite Z.lor_spec. apply orb_true_r.
  - rewrite Z.land_spec, Z.lnot_spec by lia. apply andb_false_r.
Qed.

(** TriggerMFP changes the flag only. *)
Lemma trigger_ok b m : mfp_ok m →
  (b = false → ∀ j, 0 <= j → Z.testbit m.(irq_pending) j = true → Z.testbit m.(irq_mask) j = true → m.(irq_inservice) < 2 ^ j → False) →
  mfp_ok (TriggerMFP b m).
Proof.
  intros [] Hb. constructor; try (destruct b; assumption).
  intros j Hj Hp Hm Hs. rewrite flagged_trigger. destruct b; [done|]. by destruct (Hb eq_refl j).
Qed.

(** ** Requests *)

Lemma resetCounter_ok t : timer_ok t → timer_ok (resetCounter t).
Proof. intros []. unfold resetCounter. destruct (isRunning t); by split. Qed.

Lemma to_int_ok x : - INT_MAX - 1 <= x <= INT_MAX → to_int x = Ret x.
Proof. intros. unfold to_int. by rewrite !(proj2 (Z.leb_le _ _)) by lia. Qed.

(** The timer C part of a request. *)
Definition ticked (l count : Z) (m : MFP) : MFP :=
  let m := if l =? 5 then set_C (resetCounter m.(tC)) m else m in
  if Z.testbit m.(irq_enable) l && (l =? 5) then set_counter (m.(timerCounter) + count) m else m.

Lemma ticked_ok l count m :
  mfp_ok m → 1 <= count → (l = 5 → m.(timerCounter) + count <= INT_MAX) →
  mfp_ok (ticked l count m) ∧ mfp_frame m (ticked l count m) ∧ (ticked l count m).(irq_pending) = m.(irq_pending)
  ∧ flagged (ticked l count m) = flagged m
  ∧ (l = 5 → Z.testbit m.(irq_enable) 5 = true → 1 <= (ticked l count m).(timerCounter))
  ∧ (ticked l count m).(timerCounter) = m.(timerCounter) + (if (l =? 5) && Z.testbit m.(irq_enable) 5 then count else 0).
Proof.
  intros [] Hc Ht. unfold ticked. pose proof (resetCounter_ok _ ok_C0). destruct (Z.eqb_spec l 5) as [->|]; cbv zeta.
  - cbn [set_C irq_enable]. destruct (Z.testbit m.(irq_enable) 5) eqn:E; cbn; (split; [|split; [|split_and!; cbn; (done || lia)]]).
    all: constructor; cbn; try done; lia.
  - rewrite andb_false_r. cbn. split; [|split; [|split_and!; (done || lia)]]; by constructor.
Qed.

Lemma IRQ_ticked l count m :
  0 <= l < 16 → 1 <= count → mfp_ok m → (l = 5 → m.(timerCounter) + count <= INT_MAX) →
  IRQ l count m =
    let m := ticked l count m in
    Ret (if negb (Z.testbit m.(irq_enable) l) then m
         else if Z.testbit m.(irq_pending) l then m
         else
           let m := set_pending (u16 (m.(irq_pending) .| (1 ≪ l))) m in
           if negb (Z.testbit m.(irq_mask) l) then m
           else if 1 ≪ l <? m.(irq_inservice) then m else TriggerMFP true m).
Proof.
  intros Hl Hc [] Ht. unfold IRQ, ticked. rewrite !land_bit_0 by lia. destruct (Z.eqb_spec l 5) as [->|].
  - cbn [set_C irq_enable]. destruct (Z.testbit m.(irq_enable) 5) eqn:E; cbn [andb negb set_C irq_enable]; [|by rewrite E].
    rewrite to_int_ok by (cbn; unfold INT_MAX in *; lia). unfold mbind, res_bind.
    cbn [set_C set_counter set_pending irq_enable irq_pending irq_mask irq_inservice timerCounter tC].
    rewrite E, nz_land_bit, ?land_bit_0 by lia. cbn [negb]. repeat case_match; done.
  - rewrite andb_false_r. unfold mbind, res_bind. rewrite nz_land_bit, land_bit_0 by lia. repeat case_match; done.
Qed.

Lemma IRQ_spec l count m :
  0 <= l < 16 → 1 <= count → mfp_ok m → (l = 5 → m.(timerCounter) + count <= INT_MAX) →
  ∃ m', IRQ l count m = Ret m' ∧ mfp_ok m' ∧ mfp_frame m m'
    ∧ (∀ k, 0 <= k → Z.testbit m'.(irq_pending) k = Z.testbit m.(irq_pending) k || ((k =? l) && Z.testbit m.(irq_enable) l))
    ∧ m'.(timerCounter) = m.(timerCounter) + (if (l =? 5) && Z.testbit m.(irq_enable) 5 then count else 0).
Proof.
  intros Hl Hc Hok Ht. rewrite IRQ_ticked by done. cbv zeta. eexists. split; [reflexivity|].
  destruct (ticked_ok l count m Hok Hc Ht) as (Ho & Hf & Hp & _ & H5 & Hn). revert Ho Hf Hp H5 Hn.
  generalize (ticked l count m) as m1. intros m1 Ho Hf Hp H5 Hn. rewrite <- (fr_enable _ _ Hf), <- Hp in *.
  destruct (Z.testbit m1.(irq_enable) l) eqn:En; cbn [negb].
  2: { split; [done|]. split; [done|]. split; [|done]. intros k Hk. by rewrite andb_false_r, orb_false_r. }
  destruct (Z.testbit m1.(irq_pending) l) eqn:Ep.
  { split; [done|]. split; [done|]. split; [|done]. intros k Hk. rewrite andb_true_r.
    destruct (Z.eqb_spec k l) as [->|]; [by rewrite Ep|by rewrite orb_false_r]. }
  set (m2 := set_pending (u16 (m1.(irq_pending) .| (1 ≪ l))) m1).
  assert (∀ k, 0 <= k → Z.testbit m2.(irq_pending) k = Z.testbit m1.(irq_pending) k || ((k =? l) && true)) as Hbits.
  { intros k Hk. cbn. rewrite testbit_u16, Z.lor_spec, testbit_shl1, andb_true_r by lia.
    destruct (Z.ltb_spec k 16); [done|]. rewrite (proj1 (in_u_bits 16 _ ltac:(lia)) (ok_pending _ Ho) k) by lia.
    cbn. symmetry. apply Z.eqb_neq. lia. }
  assert (mfp_frame m m2) as Hf2 by (destruct Hf; by split).
  assert (∀ b, (b = false → Z.testbit m1.(irq_mask) l = true → m1.(irq_inservice) < 2 ^ l → False) →
    mfp_ok (if b : bool then TriggerMFP true m2 else m2)) as Hok2.
  { intros b Hb. assert (∀ j, j ≠ l → 0 <= j → Z.testbit m2.(irq_pending) j = true → Z.testbit m1.(irq_pending) j = true) as Hold.
    { intros j Hj Hj0. rewrite Hbits by done. by rewrite (proj2 (Z.eqb_neq _ _) Hj), orb_false_r. }
    destruct Ho. assert (mfp_ok (TriggerMFP true m2)) as Ho'.
    { constructor; try assumption.
      - apply in_u_u16.
      - change (irq_pending (TriggerMFP true m2)) with (irq_pending m2). intros j Hj. pose proof (testbit_nonneg _ _ Hj). destruct (decide (j = l)) as [->|]; [done|]. by apply ok_enabled0, Hold.
      - destruct ok_ticks0 as [? Hk]. split; [done|]. intros Hj. destruct (decide (l = 5)) as [->|]; [by apply H5|]. apply Hk, Hold; [lia|lia|done].
      - intros. apply flagged_trigger. }
    destruct b; [done|]. destruct Ho'. constructor; try assumption. intros j Hj Hj2 Hm Hs.
    destruct (decide (j = l)) as [->|Hne]; [by destruct Hb|]. apply (ok_flag0 j); auto. }
  assert (Hn2 : m2.(timerCounter) = m1.(timerCounter)) by done.
  change (irq_mask m2) with (irq_mask m1). change (irq_inservice m2) with (irq_inservice m1).
  destruct (Z.testbit m1.(irq_mask) l) eqn:Em; cbn [negb].
  2: { split; [by apply (Hok2 false)|]. by split_and!. }
  destruct (Z.ltb_spec (1 ≪ l) m1.(irq_inservice)).
  - rewrite Z.shiftl_1_l in *. split; [apply (Hok2 false); lia|]. by split_and!.
  - split; [by apply (Hok2 true)|]. split_and!; [destruct Hf2; by split|done|done].
Qed.

(** ** Lines *)

(** The interrupts requested by the lines for which [cond] holds. *)
Definition line_irq (cond : Z → bool) (ls : list (Z * Z)) (k : Z) : bool :=
  existsb (λ '(j, l), cond j && (k =? l)) ls.

Definition lines : list (Z * Z) := zip (seqZ 0 8) map_gpip_to_ier.

Lemma for_lines_spec body cond m :
  mfp_ok m →
  (∀ m' j l, mfp_frame m m' → 0 <= j < 8 → body (1 ≪ j) l m' = if cond j : bool then IRQ l 1 m' else Ret m') →
  ∃ m', for_lines body m = Ret m' ∧ mfp_ok m' ∧ mfp_frame m m' ∧ m'.(timerCounter) = m.(timerCounter)
    ∧ ∀ k, 0 <= k → Z.testbit m'.(irq_pending) k = Z.testbit m.(irq_pending) k || (line_irq cond lines k && Z.testbit m.(irq_enable) k).
Proof.
  intros Hok Hbody. unfold for_lines. fold lines. set (F := λ r '(j, l), m ← r; body (1 ≪ j) l m).
  assert (Forall (λ '(j, l), 0 <= j < 8 ∧ 0 <= l < 16 ∧ l ≠ 5) lines) as Hl by (repeat constructor; lia).
  assert (∀ ls m1, Forall (λ '(j, l), 0 <= j < 8 ∧ 0 <= l < 16 ∧ l ≠ 5) ls → mfp_ok m1 → mfp_frame m m1 →
    ∃ m', foldl F (Ret m1) ls = Ret m' ∧ mfp_ok m' ∧ mfp_frame m1 m' ∧ m'.(timerCounter) = m1.(timerCounter)
    ∧ ∀ k, 0 <= k → Z.testbit m'.(irq_pending) k = Z.testbit m1.(irq_pending) k || (line_irq cond ls k && Z.testbit m.(irq_enable) k)) as Hind.
  { clear Hl. induction ls as [|[j l] ls IH]; intros m1 Hl Ho1 Hf1.
    { exists m1. split_and!; [done..|]. intros k Hk. cbn. by rewrite orb_false_r. }
    apply Forall_cons in Hl as [(Hj & Hl & Hl5) Hls]. change (foldl F (Ret m1) ((j, l) :: ls)) with (foldl F (body (1 ≪ j) l m1) ls). rewrite (Hbody m1 j l Hf1 Hj).
    assert (∃ m2, (if cond j then IRQ l 1 m1 else Ret m1) = Ret m2 ∧ mfp_ok m2 ∧ mfp_frame m1 m2 ∧ m2.(timerCounter) = m1.(timerCounter)
      ∧ ∀ k, 0 <= k → Z.testbit m2.(irq_pending) k = Z.testbit m1.(irq_pending) k || ((cond j && (k =? l)) && Z.testbit m.(irq_enable) k))
      as (m2 & -> & Ho2 & Hf2 & Ht2 & Hp2).
    { destruct (cond j) eqn:E; cbn [andb].
      - destruct (IRQ_spec l 1 m1 Hl ltac:(lia) Ho1 ltac:(lia)) as (m2 & -> & ? & ? & Hp & Ht). exists m2. split_and!; try done.
        + rewrite Ht, (proj2 (Z.eqb_neq _ _) Hl5). cbn. lia.
        + intros k Hk. rewrite Hp, (fr_enable _ _ Hf1) by done. by destruct (Z.eqb_spec k l) as [->|].
      - exists m1. split_and!; [done..|]. intros. by rewrite orb_false_r. }
    destruct (IH m2 Hls Ho2 (transitivity Hf1 Hf2)) as (m3 & -> & Ho3 & Hf3 & Ht3 & Hp3).
    exists m3. split_and!; [done|done|by transitivity m2|congruence|]. intros k Hk. rewrite Hp3, Hp2 by done.
    cbn [line_irq existsb]. fold (line_irq cond ls k). by rewrite andb_orb_distrib_l, orb_assoc. }
  by apply Hind.
Qed.

Lemma line_bit_eq x y j : 0 <= j → (x .& (1 ≪ j) =? y .& (1 ≪ j)) = Bool.eqb (Z.testbit x j) (Z.testbit y j).
Proof.
  intros Hj. rewrite !land_pow2 by done. pose proof (Z.pow_pos_nonneg 2 j).
  destruct (Z.testbit x j), (Z.testbit y j); cbn [b2z Bool.eqb]; lia.
Qed.

(** Writing [value] to the active edge register takes the exclusive or of input line [j] and
    its edge from 1 to 0. *)
Definition edge_falls (m : MFP) (value j : Z) : bool :=
  negb (Z.testbit m.(data_direction) j)
  && xorb (Z.testbit m.(input) j) (Z.testbit m.(active_edge) j)
  && negb (xorb (Z.testbit m.(input) j) (Z.testbit value j)).

(** Setting the lines of [mask] to [value] changes input line [j] in the active direction. *)
Definition line_fires (m : MFP) (mask value j : Z) : bool :=
  negb (Z.testbit m.(data_direction) j) && Z.testbit mask j
  && xorb (Z.testbit m.(input) j) (Z.testbit value j)
  && Bool.eqb (Z.testbit value j) (Z.testbit m.(active_edge) j).

Lemma set_active_edge_spec value m :
  mfp_ok m → in_u 8 value →
  ∃ m', set_active_edge value m = Ret m' ∧ mfp_ok m' ∧ m'.(active_edge) = value ∧ m'.(timerCounter) = m.(timerCounter)
    ∧ ∀ k, 0 <= k → Z.testbit m'.(irq_pending) k
        = Z.testbit m.(irq_pending) k || (line_irq (edge_falls m value) lines k && Z.testbit m.(irq_enable) k).
Proof.
  intros Hok Hv. unfold set_active_edge.
  lazymatch goal with |- context [for_lines ?b m] => pose proof (for_lines_spec b (edge_falls m value) m Hok) as Hl end.
  destruct Hl as (m1 & E & Ho & Hf & Ht & Hp); cycle 1.
  - exists (set_edge value m1). unfold mbind, res_bind. rewrite E. split_and!; [done| |done|done|exact Hp]. destruct Ho. by constructor.
  - intros m' j l [] Hj. cbn beta. unfold edge_falls. rewrite nz_land_bit, !line_bit_eq by lia. rewrite fr_edge0, fr_direction0, fr_input0.
    by destruct (Z.testbit m.(data_direction) j), (Z.testbit m.(input) j), (Z.testbit m.(active_edge) j), (Z.testbit value j).
Qed.

(** The lines after [setGPIPbit], before its interrupts. *)
Definition lines_set (mask value : Z) (m : MFP) : MFP :=
  let mk := mask .& 0xff in
  let dk := mk .& Z.lnot m.(data_direction) in
  set_gpip (u8 (u8 (m.(GPIP_data) .& Z.lnot dk) .| (value .& dk)) .& 0xff)
    (set_input (u8 (u8 (m.(input) .& Z.lnot mk) .| (value .& mk))) m).

(** Lines [mask] of [old] replaced by [value]. *)
Lemma replace_bits old mk value j :
  0 <= j < 8 → Z.testbit (u8 (u8 (old .& Z.lnot mk) .| (value .& mk))) j = if Z.testbit mk j then Z.testbit value j else Z.testbit old j.
Proof.
  intros Hj. rewrite testbit_u8, Z.lor_spec, testbit_u8, !Z.land_spec, Z.lnot_spec by lia.
  rewrite (proj2 (Z.ltb_lt j 8)) by lia. by destruct (Z.testbit mk j), (Z.testbit old j), (Z.testbit value j).
Qed.

Lemma land_ff_bit x j : 0 <= j < 8 → Z.testbit (x .& 0xff) j = Z.testbit x j.
Proof. intros. rewrite (land_ones_const x 0xff 8) by lia. apply Z.mod_pow2_bits_low. lia. Qed.

Lemma lines_set_bits mask value m j : 0 <= j < 8 →
  Z.testbit (lines_set mask value m).(input) j = (if Z.testbit mask j then Z.testbit value j else Z.testbit m.(input) j)
  ∧ Z.testbit (lines_set mask value m).(GPIP_data) j
    = (if Z.testbit mask j && negb (Z.testbit m.(data_direction) j) then Z.testbit value j else Z.testbit m.(GPIP_data) j).
Proof.
  intros Hj. unfold lines_set. cbn [set_gpip set_input input GPIP_data]. rewrite !land_ff_bit, !replace_bits by done.
  by rewrite land_ff_bit, Z.land_spec, Z.lnot_spec, land_ff_bit by lia.
Qed.

Lemma lines_set_ok mask value m : mfp_ok m → mfp_ok (lines_set mask value m).
Proof.
  intros []. constructor; try assumption.
  - apply in_u_u8.
  - apply in_u_land_l; [apply in_u_u8|lia].
  - intros j Hj. destruct (decide (0 <= j < 8)).
    + destruct (lines_set_bits mask value m j) as [-> ->]; [done|]. cbn in Hj. rewrite Hj. cbn [negb]. rewrite andb_true_r.
      destruct (Z.testbit mask j); auto.
    + assert (∀ x, in_u 8 x → Z.testbit x j = false) as Hhi.
      { intros x Hx. destruct (Z_lt_dec j 0); [apply Z.testbit_neg_r; lia|]. apply (proj1 (in_u_bits 8 x ltac:(lia)) Hx). lia. }
      rewrite !Hhi; [done|apply in_u_u8|apply in_u_land_l; [apply in_u_u8|lia]].
Qed.

(** With nothing pending, the registers only have to be in range. *)
Lemma quiet_ok m :
  m.(irq_pending) = 0 → m.(timerCounter) = 0 → m.(GPIP_data) = m.(input) →
  in_u 8 m.(input) → in_u 8 m.(active_edge) → in_u 8 m.(data_direction) →
  in_u 16 m.(irq_enable) → in_u 16 m.(irq_inservice) → in_u 16 m.(irq_mask) →
  timer_ok m.(tA) → timer_ok m.(tB) → timer_ok m.(tC) → timer_ok m.(tD) → mfp_ok m.
Proof.
  intros Hp Ht Hg. intros. constructor; try assumption; rewrite ?Hp, ?Hg, ?Ht; [assumption|..]; try (split; done).
  - intros j Hj. by rewrite Z.bits_0 in Hj.
  - intros j _ Hj. by rewrite Z.bits_0 in Hj.
Qed.

Lemma timer_reset_ok : timer_ok timer_reset.
Proof. split; by apply in_ub_spec. Qed.

Lemma reset_ok m : mfp_ok (mfp_reset m).
Proof. apply quiet_ok; try done; try apply timer_reset_ok; by apply in_ub_spec. Qed.

Lemma tos_ok : mfp_ok mfp_tos.
Proof. apply quiet_ok; try done; try apply timer_reset_ok; by apply in_ub_spec. Qed.

Lemma line_interrupts_frame mask value m :
  mfp_ok m →
  ∃ m', setGPIPbit mask value m = Ret m' ∧ mfp_frame (lines_set mask value m) m' ∧ mfp_ok m' ∧ m'.(timerCounter) = m.(timerCounter)
    ∧ (∀ j, 0 <= j < 8 → Z.testbit m'.(input) j = if Z.testbit mask j then Z.testbit value j else Z.testbit m.(input) j)
    ∧ ∀ k, 0 <= k → Z.testbit m'.(irq_pending) k
        = Z.testbit m.(irq_pending) k || (line_irq (line_fires m mask value) lines k && Z.testbit m.(irq_enable) k).
Proof.
  intros Hok. unfold setGPIPbit. cbv zeta. fold (lines_set mask value m).
  lazymatch goal with |- context [for_lines ?b _] =>
    pose proof (for_lines_spec b (line_fires m mask value) _ (lines_set_ok mask value m Hok)) as Hl end.
  destruct Hl as (m' & E & Ho & Hf & Ht & Hp).
  - intros m' j l [] Hj. destruct (lines_set_bits mask value m j Hj) as [_ Hg]. rewrite <- fr_gpip0 in Hg.
    rewrite line_bit_eq, !nz_land_bit, Hg, fr_edge0 by lia. unfold line_fires. cbn [lines_set set_gpip set_input active_edge].
    pose proof (ok_lines _ Hok j) as HL.
    destruct (Z.testbit m.(data_direction) j); cbn [negb andb]; [by rewrite andb_false_r, eqb_reflx|].
    rewrite <- (HL eq_refl). destruct (Z.testbit mask j); cbn [andb]; [|by rewrite eqb_reflx].
    by destruct (Z.testbit m.(GPIP_data) j), (Z.testbit value j), (Z.testbit m.(active_edge) j).
  - exists m'. split; [exact E|]. split_and!; [done|done|exact Ht| |exact Hp].
    intros j Hj. rewrite (fr_input _ _ Hf). apply lines_set_bits. done.
Qed.

Lemma line_interrupts_spec mask value m :
  mfp_ok m →
  ∃ m', setGPIPbit mask value m = Ret m' ∧ mfp_ok m' ∧ m'.(timerCounter) = m.(timerCounter)
    ∧ (∀ j, 0 <= j < 8 → Z.testbit m'.(input) j = if Z.testbit mask j then Z.testbit value j else Z.testbit m.(input) j)
    ∧ ∀ k, 0 <= k → Z.testbit m'.(irq_pending) k
        = Z.testbit m.(irq_pending) k || (line_irq (line_fires m mask value) lines k && Z.testbit m.(irq_enable) k).
Proof. intros Hok. destruct (line_interrupts_frame mask value m Hok) as (m' & ? & _ & ?). by exists m'. Qed.

(** setting lines of the port requests exactly the interrupts of the input lines that
    change in the direction the active edge register selects: an enabled interrupt of such a
    line becomes pending, no other does, and the inputs take the new values. *)
Lemma line_interrupts (mask value : Z) (m : MFP) (Hok : mfp_ok m) :
  ∃ m', setGPIPbit mask value m = Ret m' ∧ mfp_ok m' ∧ m'.(timerCounter) = m.(timerCounter)
    ∧ (∀ j, 0 <= j < 8 → Z.testbit m'.(input) j = if Z.testbit mask j then Z.testbit value j else Z.testbit m.(input) j)
    ∧ ∀ k, 0 <= k → Z.testbit m'.(irq_pending) k
        = Z.testbit m.(irq_pending) k || (line_irq (line_fires m mask value) lines k && Z.testbit m.(irq_enable) k).
Proof. by apply line_interrupts_spec. Qed.

(** The keyboard's line goes low with the edge register 0: interrupt 6. *)
Lemma line_interrupts_witness : ∃ m', setGPIPbit 0x10 0 mfp_tos = Ret m' ∧ mfp_ok m' ∧ Z.testbit m'.(irq_pending) 6 = true.
Proof.
  destruct (line_interrupts 0x10 0 mfp_tos tos_ok) as (m' & E & Ho & _ & _ & Hp). exists m'. split_and!; [done|done|].
  rewrite Hp by lia. reflexivity.
Defined.

(** ** Registers *)

Lemma setControl_ok v t : timer_ok t → timer_ok (setControl v t).
Proof. intros []. split; [|done..]. change 0x0f with (BITMASK 4). cbn [setControl control]. apply in_u_land_mask. lia. Qed.
Lemma setData_ok v t : in_u 8 v → timer_ok t → timer_ok (setData v t).
Proof. intros ? []. split; cbn; [done..|]. by destruct (isRunning t). Qed.
Lemma getData_ok t : timer_ok t → timer_ok (getData t).2.
Proof.
  intros []. split; [done..|]. cbn. unfold in_u in *. destruct (isRunning t); [|done].
  cbn [andb]. destruct (Z.ltb_spec 2 t.(current_data)); lia.
Qed.

Lemma read_ok busy addr m : mfp_ok m → mfp_ok (mfp_handleRead busy addr m).2 ∧ (mfp_handleRead busy addr m).2.(timerCounter) = m.(timerCounter).
Proof.
  intros Hok. destruct Hok. unfold mfp_handleRead. cbv zeta.
  repeat (case_match; try by (split; [constructor|])).
  all: match goal with H : getData ?t = (_, ?u) |- _ => assert (timer_ok u) by (change u with (z, u).2; rewrite <- H; by apply getData_ok) end.
  all: split; [by constructor|done].
Qed.

(** Fewer pending interrupts. *)
Lemma less_pending_ok p m :
  in_u 16 p → (∀ j, Z.testbit p j = true → Z.testbit m.(irq_pending) j = true) → mfp_ok m → mfp_ok (set_pending p m).
Proof.
  intros Hp Hsub []. constructor; try assumption; cbn [set_pending irq_pending irq_enable timerCounter].
  - auto.
  - destruct ok_ticks0. auto.
  - intros j Hj H. apply ok_flag0; auto.
Qed.

Lemma no_common m j : m.(irq_pending) .& m.(irq_mask) = 0 → Z.testbit m.(irq_pending) j = true → Z.testbit m.(irq_mask) j = true → False.
Proof. intros E Hp Hm. pose proof (nz_common _ _ _ Hp Hm) as Hn. by rewrite E in Hn. Qed.

Lemma quiet_trigger m : mfp_ok m → mfp_ok (if m.(irq_pending) .& m.(irq_mask) =? 0 then TriggerMFP false m else m).
Proof.
  intros Hok. destruct (Z.eqb_spec (m.(irq_pending) .& m.(irq_mask)) 0); [|done].
  apply trigger_ok; [done|]. intros _ j _ Hp Hm _. by eapply no_common.
Qed.

(** The flag recomputed: it is enough that the invariant holds with the flag raised. *)
Lemma retrigger m : mfp_ok (TriggerMFP true m) → mfp_ok (TriggerMFP (nz (m.(irq_pending) .& m.(irq_mask))) m).
Proof.
  intros Hok. destruct (nz _) eqn:E; [done|]. apply nz_false in E. destruct Hok. constructor; try assumption.
  intros j _ Hp Hm _. destruct (no_common m j E Hp Hm).
Qed.

Lemma set_mask_raised v m : in_u 16 v → mfp_ok m → mfp_ok (TriggerMFP true (set_mask v m)).
Proof. intros Hv []. constructor; try assumption. intros. apply flagged_trigger. Qed.

Lemma set_inservice_raised v m : in_u 16 v → mfp_ok m → mfp_ok (TriggerMFP true (set_inservice v m)).
Proof. intros Hv []. constructor; try assumption. intros. apply flagged_trigger. Qed.

Lemma set_inservice_ok v m : in_u 16 v → mfp_ok m →
  mfp_ok (if nz (m.(irq_pending) .& m.(irq_mask)) then TriggerMFP true (set_inservice v m) else set_inservice v m).
Proof.
  intros Hv Hok. destruct (nz _) eqn:E; [by apply set_inservice_raised|]. apply nz_false in E. destruct Hok. constructor; try assumption.
  intros j _ Hp Hm _. destruct (no_common m j E Hp Hm).
Qed.

Lemma set_vr_ok v m : mfp_ok m → mfp_ok (set_vr v m).
Proof. intros []. by constructor. Qed.

(** A register write that cannot fail. *)
Definition write_keeps (r : res MFP) (m : MFP) : Prop := ∃ m', r = Ret m' ∧ mfp_ok m' ∧ m'.(timerCounter) = m.(timerCounter).

Lemma write_gpip_ok v m : in_u 8 v → mfp_ok m →
  mfp_ok (set_gpip (u8 (u8 (m.(GPIP_data) .& Z.lnot m.(data_direction)) .| (v .& m.(data_direction)))) m).
Proof.
  intros Hv []. constructor; try assumption; [apply in_u_u8|]. cbn [set_gpip data_direction GPIP_data input].
  intros j Hj. rewrite <- (ok_lines0 j Hj). destruct (Z_lt_dec j 0); [by rewrite !Z.testbit_neg_r by lia|].
  destruct (Z_lt_dec j 8); [by rewrite replace_bits, Hj by lia|].
  rewrite testbit_u8, (proj2 (Z.ltb_ge j 8)) by lia. symmetry. apply (proj1 (in_u_bits 8 _ ltac:(lia)) ok_gpip0). lia.
Qed.

Lemma write_direction_ok v m : in_u 8 v → mfp_ok m →
  mfp_ok (set_gpip (u8 ((m.(GPIP_data) .& v) .| (m.(input) .& Z.lnot v))) (set_direction v m)).
Proof.
  intros Hv []. constructor; try assumption; [apply in_u_u8|]. cbn [set_gpip set_direction data_direction GPIP_data input].
  intros j Hj. destruct (Z_lt_dec j 0); [by rewrite !Z.testbit_neg_r by lia|].
  rewrite testbit_u8, Z.lor_spec, !Z.land_spec, Z.lnot_spec, Hj by lia. cbn [negb]. rewrite andb_true_r, andb_false_r. cbn [orb].
  destruct (Z.ltb_spec j 8); [done|]. symmetry. apply (proj1 (in_u_bits 8 _ ltac:(lia)) ok_input0). lia.
Qed.

Lemma write_enable_ok v m : in_u 16 v → mfp_ok m → mfp_ok (set_pending (m.(irq_pending) .& v) (set_enable v m)).
Proof.
  intros Hv []. constructor; try assumption; cbn [set_pending set_enable irq_pending irq_enable irq_mask irq_inservice timerCounter].
  - by apply in_u_land_l.
  - intros j. rewrite Z.land_spec. by intros [_ ?]%andb_prop.
  - destruct ok_ticks0 as [? H5]. split; [done|]. rewrite Z.land_spec. intros [? _]%andb_prop. auto.
  - intros j Hj. rewrite Z.land_spec. intros [? _]%andb_prop ??. by apply (ok_flag0 j).
Qed.

Lemma clear_pending_ok x m : mfp_ok m → mfp_ok (set_pending (u16 (m.(irq_pending) .& x)) m).
Proof.
  intros Hok. apply less_pending_ok; [apply in_u_u16| |done]. intros j Hj. pose proof (testbit_nonneg _ _ Hj).
  rewrite testbit_u16, Z.land_spec in Hj by done. by apply andb_prop in Hj as [_ [? _]%andb_prop].
Qed.

Lemma timers_ok fA fB fC fD m : mfp_ok m →
  (∀ t, timer_ok t → timer_ok (fA t)) → (∀ t, timer_ok t → timer_ok (fB t)) →
  (∀ t, timer_ok t → timer_ok (fC t)) → (∀ t, timer_ok t → timer_ok (fD t)) →
  mfp_ok (set_A (fA m.(tA)) (set_B (fB m.(tB)) (set_C (fC m.(tC)) (set_D (fD m.(tD)) m)))).
Proof. intros [] ????. constructor; try assumption; cbn; auto. Qed.

Lemma write_ok addr value m : mfp_ok m → in_u 8 value → write_keeps (mfp_handleWrite addr value m) m.
Proof.
  intros Hok Hv. unfold mfp_handleWrite, write_keeps. cbv zeta. generalize (u32 (addr - MFP_HW)). intros a.
  assert (∀ m', m'.(timerCounter) = m.(timerCounter) → mfp_ok m' → ∃ m1, Ret m' = Ret m1 ∧ mfp_ok m1 ∧ m1.(timerCounter) = m.(timerCounter)) as Hret by eauto.
  pose proof setControl_ok as HC. pose proof (λ t, setData_ok value t Hv) as HD. pose proof (λ t (H : timer_ok t), H) as HI.
  destruct (_ <? a); [by apply Hret|].
  destruct (a =? 1); [apply Hret; [done|]; by apply (write_gpip_ok value m)|].
  destruct (a =? 3). { destruct (set_active_edge_spec value m Hok Hv) as (m' & ? & ? & _ & ? & _). eauto. }
  destruct (a =? 5); [apply Hret; [done|]; by apply (write_direction_ok value m)|].
  destruct (a =? 7); [apply Hret; [done|]; apply (write_enable_ok _ m); [apply in_u_u16|done]|].
  destruct (a =? 9); [apply Hret; [done|]; apply (write_enable_ok _ m); [apply in_u_u16|done]|].
  destruct (a =? 11); [apply Hret; [by case_match|]; apply quiet_trigger, clear_pending_ok; done|].
  destruct (a =? 13); [apply Hret; [by case_match|]; apply quiet_trigger, clear_pending_ok; done|].
  destruct (a =? 15); [apply Hret; [by case_match|]; apply (set_inservice_ok _ m); [apply in_u_u16|done]|].
  destruct (a =? 17); [apply Hret; [by case_match|]; apply (set_inservice_ok _ m); [apply in_u_u16|done]|].
  destruct (a =? 19); [apply Hret; [by destruct (nz _)|]; apply retrigger, set_mask_raised; [apply in_u_u16|done]|].
  destruct (a =? 21); [apply Hret; [by destruct (nz _)|]; apply retrigger, set_mask_raised; [apply in_u_u16|done]|].
  destruct (a =? 23).
  { destruct (nz _); [by apply Hret; [|apply set_vr_ok]|]. apply Hret; [by destruct (nz _)|].
    apply retrigger, set_inservice_raised; [by apply in_ub_spec|by apply set_vr_ok]. }
  destruct (a =? 25); [apply Hret; [done|]; exact (timers_ok (setControl value) id id id m Hok (HC value) HI HI HI)|].
  destruct (a =? 27); [apply Hret; [done|]; exact (timers_ok id (setControl value) id id m Hok HI (HC value) HI HI)|].
  destruct (a =? 29); [apply Hret; [done|]; exact (timers_ok id id (setControl (value ≫ 4)) (setControl (value .& 0x0f)) m Hok HI HI (HC (value ≫ 4)) (HC (value .& 0x0f)))|].
  destruct (a =? 31); [apply Hret; [done|]; exact (timers_ok (setData value) id id id m Hok HD HI HI HI)|].
  destruct (a =? 33); [apply Hret; [done|]; exact (timers_ok id (setData value) id id m Hok HI HD HI HI)|].
  destruct (a =? 35); [apply Hret; [done|]; exact (timers_ok id id (setData value) id m Hok HI HI HD HI)|].
  destruct (a =? 37); [apply Hret; [done|]; exact (timers_ok id id id (setData value) m Hok HI HI HI HD)|].
  by apply Hret.
Qed.

(** ** Service *)

(** Interrupt [j] is pending and not masked. *)
Definition wants (m : MFP) (j : Z) : bool := Z.testbit (m.(irq_pending) .& m.(irq_mask)) j.

Lemma wants_spec m j : wants m j = Z.testbit m.(irq_pending) j && Z.testbit m.(irq_mask) j.
Proof. apply Z.land_spec. Qed.

Lemma wants_range m j : mfp_ok m → wants m j = true → 0 <= j < 16.
Proof.
  intros Hok. rewrite wants_spec. intros [Hp _]%andb_prop. pose proof (testbit_nonneg _ _ Hp). split; [done|].
  destruct (Z_lt_dec j 16); [done|]. rewrite (proj1 (in_u_bits 16 _ ltac:(lia)) (ok_pending _ Hok)) in Hp; [done|lia].
Qed.

Lemma find_level_spec n x :
  match find_level n x with
  | Some j => 0 <= j < Z.of_nat n ∧ Z.testbit x j = true ∧ ∀ k, j < k < Z.of_nat n → Z.testbit x k = false
  | None => ∀ k, 0 <= k < Z.of_nat n → Z.testbit x k = false
  end.
Proof.
  induction n as [|n IH]; cbn [find_level]; [lia|]. rewrite nz_land_bit by lia.
  destruct (Z.testbit x (Z.of_nat n)) eqn:E; [split_and!; [lia|lia|done|lia]|].
  destruct (find_level n x) as [j|].
  - destruct IH as (? & ? & H). split_and!; [lia|lia|done|]. intros k Hk. destruct (decide (k = Z.of_nat n)) as [->|]; [done|]. apply H. lia.
  - intros k Hk. destruct (decide (k = Z.of_nat n)) as [->|]; [done|]. apply IH. lia.
Qed.

Lemma find_level_top m j : mfp_ok m → wants m j = true → (∀ k, j < k → wants m k = false) →
  find_level 16 (m.(irq_pending) .& m.(irq_mask)) = Some j.
Proof.
  intros Hok Hj Htop. pose proof (wants_range m j Hok Hj). pose proof (find_level_spec 16 (m.(irq_pending) .& m.(irq_mask))) as H16.
  destruct (find_level 16 _) as [i|].
  - destruct H16 as (Hi & Hi1 & Hi2). fold (wants m i) in Hi1. f_equal. destruct (Z.lt_trichotomy i j) as [|[|]]; [|done|].
    + specialize (Hi2 j ltac:(lia)). fold (wants m j) in Hi2. congruence.
    + rewrite Htop in Hi1 by lia. done.
  - specialize (H16 j ltac:(lia)). fold (wants m j) in H16. congruence.
Qed.

(** The state after interrupt [j] is passed to the CPU: its request is withdrawn, unless it is
    timer C with ticks left, and with software end of interrupt it is in service. *)
Definition passed (j : Z) (m m' : MFP) : Prop :=
  (∀ k, 0 <= k → Z.testbit m'.(irq_pending) k
     = Z.testbit m.(irq_pending) k && negb ((k =? j) && negb ((j =? 5) && (1 <? m.(timerCounter)))))
  ∧ m'.(irq_inservice) = (if nz (m.(vr) .& MFP_VR_SEI) then m.(irq_inservice) .| 2 ^ j else m.(irq_inservice))
  ∧ m'.(timerCounter) = (if j =? 5 then m.(timerCounter) - 1 else m.(timerCounter))
  ∧ m'.(irq_mask) = m.(irq_mask) ∧ m'.(irq_enable) = m.(irq_enable) ∧ m'.(vr) = m.(vr).

Lemma lower_quiet m : mfp_ok m → (∀ j, wants m j = true → 2 ^ j <= m.(irq_inservice)) → mfp_ok (TriggerMFP false m).
Proof.
  intros Hok Hq. apply trigger_ok; [done|]. intros _ j Hj Hp Hm Hs. specialize (Hq j). rewrite wants_spec, Hp, Hm in Hq. specialize (Hq eq_refl). lia.
Qed.

Lemma doInterrupt_none m : mfp_ok m → (∀ j, wants m j = true → 2 ^ j <= m.(irq_inservice)) → doInterrupt m = Ret (0, TriggerMFP false m).
Proof.
  intros Hok Hq. unfold doInterrupt. pose proof (find_level_spec 16 (m.(irq_pending) .& m.(irq_mask))) as H16.
  destruct (find_level 16 _) as [j|]; [|done]. destruct H16 as (Hj & Hw & _). specialize (Hq j Hw).
  by rewrite Z.shiftl_1_l, (proj2 (Z.leb_le _ _)).
Qed.

Lemma testbit_le a j : 0 <= a → Z.testbit a j = true → 2 ^ j <= a.
Proof.
  intros Ha Hb. destruct (Z_lt_dec a (2 ^ j)); [|lia]. pose proof (testbit_nonneg _ _ Hb).
  rewrite (proj1 (in_u_bits j a ltac:(lia))) in Hb; [done|by split|lia].
Qed.

Lemma pow2_in_u16 j : 0 <= j < 16 → in_u 16 (2 ^ j).
Proof. intros. split; [apply Z.pow_nonneg; lia|apply Z.pow_lt_mono_r; lia]. Qed.

(** The request withdrawn. *)
Definition withdrawn (j : Z) (m : MFP) : MFP :=
  let m1 := if j =? 5 then set_counter (m.(timerCounter) - 1) m else m in
  if negb (j =? 5) || (m.(timerCounter) - 1 <=? 0) then TriggerMFP false (set_pending (u16 (m1.(irq_pending) .& Z.lnot (1 ≪ j))) m1) else m1.

Lemma withdrawn_fields j m :
  (withdrawn j m).(irq_inservice) = m.(irq_inservice) ∧ (withdrawn j m).(irq_mask) = m.(irq_mask) ∧ (withdrawn j m).(vr) = m.(vr)
  ∧ (withdrawn j m).(irq_enable) = m.(irq_enable) ∧ (withdrawn j m).(timerCounter) = if j =? 5 then m.(timerCounter) - 1 else m.(timerCounter).
Proof. unfold withdrawn. by destruct (j =? 5), (_ <=? 0). Qed.

Lemma withdrawn_bits j m : mfp_ok m → 0 <= j → ∀ k, 0 <= k → Z.testbit (withdrawn j m).(irq_pending) k
  = Z.testbit m.(irq_pending) k && negb ((k =? j) && negb ((j =? 5) && (1 <? m.(timerCounter)))).
Proof.
  intros Hok Hj k Hk. assert (Z.testbit (u16 (m.(irq_pending) .& Z.lnot (1 ≪ j))) k = Z.testbit m.(irq_pending) k && negb (k =? j)) as E.
  { rewrite testbit_u16, Z.land_spec, Z.lnot_spec, testbit_shl1 by lia. destruct (Z.ltb_spec k 16); [done|].
    by rewrite (proj1 (in_u_bits 16 _ ltac:(lia)) (ok_pending _ Hok) k) by lia. }
  unfold withdrawn. destruct (Z.eqb_spec j 5) as [->|]; cbn [negb orb andb].
  - destruct (Z.leb_spec (m.(timerCounter) - 1) 0), (Z.ltb_spec 1 m.(timerCounter)); try lia.
    + cbn [negb]. by rewrite andb_true_r.
    + cbn [negb]. by rewrite andb_false_r, andb_true_r.
  - by rewrite andb_true_r.
Qed.

(** The invariant after the withdrawal, but for the flag. *)
Lemma withdrawn_raised j m : mfp_ok m → wants m j = true → mfp_ok (TriggerMFP true (withdrawn j m)).
Proof.
  intros Hok Hw. pose proof (wants_range m j Hok Hw) as Hj. pose proof (withdrawn_bits j m Hok ltac:(lia)) as Hb.
  destruct (withdrawn_fields j m) as (Es & Em & _ & Ee & Et).
  assert (∀ k, Z.testbit (withdrawn j m).(irq_pending) k = true → Z.testbit m.(irq_pending) k = true) as Hsub.
  { intros k Hk. pose proof (testbit_nonneg _ _ Hk). rewrite Hb in Hk by done. by apply andb_prop in Hk as [? _]. }
  rewrite wants_spec in Hw. apply andb_prop in Hw as [Hw _]. destruct Hok. unfold withdrawn in *.
  constructor; try (repeat case_match; assumption).
  - repeat case_match; try assumption; apply in_u_u16.
  - intros k Hk. change (irq_enable (TriggerMFP true ?x)) with (irq_enable x). rewrite Ee. apply ok_enabled0, Hsub, Hk.
  - change (timerCounter (TriggerMFP true ?x)) with (timerCounter x). change (irq_pending (TriggerMFP true ?x)) with (irq_pending x).
    rewrite Et, Hb by lia. destruct ok_ticks0 as [Hr H5]. destruct (Z.eqb_spec j 5) as [->|].
    + specialize (H5 Hw). split; [lia|]. cbn [Z.eqb Pos.eqb]. destruct (Z.ltb_spec 1 m.(timerCounter)); [lia|].
      cbn. rewrite andb_false_r. done.
    + split; [done|]. intros [? _]%andb_prop. auto.
  - intros. apply flagged_trigger.
Qed.

Lemma doInterrupt_some m j :
  mfp_ok m → wants m j = true → (∀ k, j < k → wants m k = false) → m.(irq_inservice) < 2 ^ j →
  ∃ m', doInterrupt m = Ret ((m.(vr) .& MFP_VR_VECTOR) + j, m') ∧ mfp_ok m' ∧ passed j m m'.
Proof.
  intros Hok Hw Htop Hs. pose proof (wants_range m j Hok Hw) as Hj. pose proof (withdrawn_raised j m Hok Hw) as Hr.
  destruct (withdrawn_fields j m) as (Es & Em & Ev & Ee & Et). pose proof (withdrawn_bits j m Hok ltac:(lia)) as Hb.
  assert (doInterrupt m = Ret ((m.(vr) .& MFP_VR_VECTOR) + j,
    if nz ((withdrawn j m).(vr) .& MFP_VR_SEI) then set_inservice (u16 ((withdrawn j m).(irq_inservice) .| (1 ≪ j))) (withdrawn j m)
    else if nz ((withdrawn j m).(irq_pending) .& (withdrawn j m).(irq_mask)) then TriggerMFP true (withdrawn j m) else withdrawn j m)) as ->.
  { unfold doInterrupt. rewrite (find_level_top m j Hok Hw Htop), Z.shiftl_1_l, (proj2 (Z.leb_gt _ _) Hs). unfold withdrawn. rewrite Z.shiftl_1_l.
    destruct (Z.eqb_spec j 5) as [->|]; cbn [negb orb]; unfold mbind, res_bind; [|by destruct (nz _)].
    destruct (ok_ticks _ Hok) as [Hr1 _]. rewrite to_int_ok by (unfold INT_MAX in *; lia). cbv zeta beta iota.
    destruct (_ <=? 0); by destruct (nz _). }
  eexists. split; [reflexivity|]. rewrite Ev, Es, Em.
  assert (u16 (m.(irq_inservice) .| (1 ≪ j)) = m.(irq_inservice) .| 2 ^ j) as Eu.
  { rewrite Z.shiftl_1_l. apply u16_small. apply (in_u_lor 16); [apply Hok|by apply pow2_in_u16|lia]. }
  unfold passed. destruct (nz (m.(vr) .& MFP_VR_SEI)).
  - split; [|split_and!; cbn; try done]. rewrite Eu.
    assert (in_u 16 (m.(irq_inservice) .| 2 ^ j)) as Hu by (apply in_u_lor; [apply Hok|by apply pow2_in_u16|lia]).
    destruct Hr. constructor; try assumption. intros k Hk Hpk Hmk Hsk. cbn in Hsk.
    assert (2 ^ j <= m.(irq_inservice) .| 2 ^ j) by (apply testbit_le; [apply Hu|]; rewrite Z.lor_spec, Z.pow2_bits_true by lia; apply orb_true_r).
    assert (j < k) as Hjk by (apply (Z.pow_lt_mono_r_iff 2); lia). specialize (Htop k Hjk). rewrite wants_spec in Htop.
    cbn in Hpk, Hmk. rewrite Hb in Hpk by done. apply andb_prop in Hpk as [Hpk _]. rewrite Em in Hmk. by rewrite Hpk, Hmk in Htop.
  - split; [|repeat case_match; split_and!; done]. destruct (nz _) eqn:E; [done|]. apply nz_false in E. rewrite <- Em in E.
    destruct Hr. constructor; try assumption. intros k _ Hpk Hmk _. by destruct (no_common _ k E Hpk Hmk).
Qed.

Lemma top_or_none m : mfp_ok m →
  (∀ j, wants m j = true → 2 ^ j <= m.(irq_inservice))
  ∨ ∃ j, wants m j = true ∧ (∀ k, j < k → wants m k = false) ∧ m.(irq_inservice) < 2 ^ j.
Proof.
  intros Hok. pose proof (find_level_spec 16 (m.(irq_pending) .& m.(irq_mask))) as H16.
  assert (∀ k, 16 <= k → wants m k = false) as Hhi.
  { intros k Hk. destruct (wants m k) eqn:E; [|done]. pose proof (wants_range m k Hok E). lia. }
  destruct (find_level 16 _) as [j|].
  - destruct H16 as (Hj & Hw & Ht). assert (∀ k, j < k → wants m k = false) as Htop.
    { intros k Hk. destruct (Z_lt_dec k 16); [apply Ht; lia|apply Hhi; lia]. }
    destruct (Z_lt_dec m.(irq_inservice) (2 ^ j)); [right; by exists j|]. left. intros k Hk.
    destruct (Z_lt_dec j k); [by rewrite Htop in Hk by lia|]. pose proof (wants_range m k Hok Hk).
    pose proof (Z.pow_le_mono_r 2 k j). lia.
  - left. intros k Hk. pose proof (wants_range m k Hok Hk). rewrite <- not_false_iff_true in Hk. destruct Hk. apply H16. lia.
Qed.

Lemma continue_ok (r : bool) m : mfp_ok m → mfp_ok (if r then SPCFLAGS_CLEAR SPCFLAG_STOP m else m).
Proof.
  intros Hok. destruct r; [|done]. destruct Hok. constructor; try assumption. intros j ????. unfold flagged. cbn [SPCFLAGS_CLEAR set_spcflags spcflags].
  rewrite Z.land_spec, Z.lnot_spec by lia. apply andb_true_intro. split; [by apply (ok_flag0 j)|done].
Qed.

Lemma serve_none r im m :
  mfp_ok m → (∀ j, wants m j = true → 2 ^ j <= m.(irq_inservice)) →
  ∃ m', serve_mfp r im m = Ret (None, im, m') ∧ mfp_ok m' ∧ mfp_frame m m' ∧ m'.(irq_pending) = m.(irq_pending)
    ∧ m'.(timerCounter) = m.(timerCounter) ∧ (im < 6 → flagged m' = false).
Proof.
  intros Hok Hq. unfold serve_mfp. change SPCFLAG_MFP with (1 ≪ 9) at 1. rewrite nz_land_bit by lia. fold (flagged m).
  destruct (flagged m) eqn:Ef; [|exists m; by split_and!].
  destruct (Z.ltb_spec im 6); [|exists m; split_and!; (done || lia)].
  unfold mbind, res_bind. rewrite doInterrupt_none by done. change (nz 0) with false. cbv iota.
  eexists. split; [reflexivity|]. change (SPCFLAGS_CLEAR SPCFLAG_MFP ?x) with (TriggerMFP false x).
  split_and!; [|done|done|done|intros; apply flagged_trigger].
  apply lower_quiet; [by apply lower_quiet|]. exact Hq.
Qed.

Lemma serve_some r im m j :
  mfp_ok m → wants m j = true → (∀ k, j < k → wants m k = false) → m.(irq_inservice) < 2 ^ j →
  im < 6 → (m.(vr) .& MFP_VR_VECTOR) + j ≠ 0 →
  ∃ m', serve_mfp r im m = Ret (Some ((m.(vr) .& MFP_VR_VECTOR) + j), 6, m') ∧ mfp_ok m' ∧ passed j m m'.
Proof.
  intros Hok Hw Htop Hs Him Hv. unfold serve_mfp. change SPCFLAG_MFP with (1 ≪ 9) at 1. rewrite nz_land_bit by lia. fold (flagged m).
  pose proof (wants_range m j Hok Hw). rewrite wants_spec in Hw. apply andb_prop in Hw as [Hp Hm].
  rewrite (ok_flag _ Hok j), (proj2 (Z.ltb_lt im 6)) by (done || lia).
  destruct (doInterrupt_some m j) as (m' & E & Ho & Hpass); [done|by rewrite wants_spec, Hp, Hm|done|done|].
  unfold mbind, res_bind. rewrite E. rewrite (proj2 (nz_true _) Hv).
  eexists. split; [reflexivity|]. split; [by apply continue_ok|]. by destruct r.
Qed.

Lemma serve_ok r im m : mfp_ok m →
  ∃ v im' m', serve_mfp r im m = Ret (v, im', m') ∧ mfp_ok m' ∧ m'.(timerCounter) <= m.(timerCounter).
Proof.
  intros Hok. destruct (top_or_none m Hok) as [Hq|(j & Hw & Htop & Hs)].
  { destruct (serve_none r im m Hok Hq) as (m' & E & Ho & _ & _ & Ht & _). exists None, im, m'. split_and!; [done..|lia]. }
  unfold serve_mfp. destruct (nz _); [|exists None, im, m; split_and!; (done || lia)].
  destruct (Z.ltb_spec im 6); [|exists None, im, m; split_and!; (done || lia)].
  destruct (doInterrupt_some m j Hok Hw Htop Hs) as (m' & E & Ho & (Hb & Es & Et & Em & _)). unfold mbind, res_bind. rewrite E.
  assert (m'.(timerCounter) <= m.(timerCounter)) by (rewrite Et; case_match; lia).
  destruct (nz (_ + j)) eqn:Ev; [do 3 eexists; split; [reflexivity|]; split; [by apply continue_ok|by destruct r]|].
  exists None, im. eexists. split; [reflexivity|]. split; [|done]. change (SPCFLAGS_CLEAR SPCFLAG_MFP ?x) with (TriggerMFP false x).
  apply nz_false in Ev. pose proof (wants_range m j Hok Hw). assert (0 <= m.(vr) .& MFP_VR_VECTOR) by (apply Z.land_nonneg; unfold MFP_VR_VECTOR; lia).
  assert (j = 0) as -> by lia. apply lower_quiet; [done|]. intros k Hk. destruct (decide (k = 0)) as [->|].
  - rewrite wants_spec, Hb in Hk by lia. by rewrite andb_false_r in Hk.
  - pose proof (wants_range m' k Ho Hk). rewrite wants_spec, Hb, Em in Hk by lia. rewrite (proj2 (Z.eqb_neq k 0)) in Hk by done.
    cbn in Hk. rewrite andb_true_r, <- wants_spec, Htop in Hk by lia. done.
Qed.

Lemma step_ok a m : mfp_ok m → act_ok a → m.(timerCounter) + act_ticks a <= INT_MAX →
  ∃ m', mfp_step a m = Ret m' ∧ mfp_ok m' ∧ m'.(timerCounter) <= m.(timerCounter) + act_ticks a.
Proof.
  intros Hok Ha Ht. destruct a as [| busy addr | addr value | mask value | level count | r im]; cbn [mfp_step act_ok act_ticks] in *.
  - exists (mfp_reset m). split; [done|]. split; [apply reset_ok|]. cbn. pose proof (ok_ticks _ Hok). lia.
  - destruct (read_ok busy addr m Hok). eexists. split; [reflexivity|]. split; [done|lia].
  - destruct (write_ok addr value m Hok Ha) as (m' & -> & ? & ?). exists m'. split_and!; [done..|lia].
  - destruct (line_interrupts_spec mask value m Hok) as (m' & -> & ? & ? & _). exists m'. split_and!; [done..|lia].
  - destruct Ha as [Hl Hc]. destruct (IRQ_spec level count m Hl Hc Hok) as (m' & -> & ? & _ & _ & Hn).
    { by intros ->. }
    exists m'. split_and!; [done..|]. rewrite Hn. destruct (level =? 5), (Z.testbit m.(irq_enable) 5); cbn [andb]; lia.
  - destruct (serve_ok r im m Hok) as (v & im' & m' & E & ? & ?). unfold mbind, res_bind. rewrite E. exists m'. split_and!; [done..|lia].
Qed.

Lemma act_ticks_nonneg a : act_ok a → 0 <= act_ticks a.
Proof. destruct a as [| | | |level count|]; cbn; try lia. intros [_ ?]. destruct (level =? 5); lia. Qed.

Lemma ticks_nonneg l : Forall act_ok l → 0 <= ticks l.
Proof. induction 1 as [|a l Ha _ IH]; cbn; [lia|]. pose proof (act_ticks_nonneg a Ha). unfold ticks in IH. lia. Qed.

(** C7: the invariant of the interrupt controller.  Whatever the CPU writes and reads, the
    devices signal and the clock ticks, in any order, and as long as not more than INT_MAX
    ticks of timer C have been counted, every operation returns, every register keeps its
    width, the input lines show their inputs, only enabled interrupts are pending, and
    whenever an unmasked interrupt above the ones in service is pending the CPU's flag is
    raised: no interrupt is forgotten. *)
Theorem no_interrupt_forgotten (l : list mfp_act) (m : MFP)
    (Hm : mfp_ok m) (Hl : Forall act_ok l) (Ht : m.(timerCounter) + ticks l <= INT_MAX) :
  ∃ m', mfp_run l m = Ret m' ∧ mfp_ok m'.
Proof.
  revert m Hm Ht. induction Hl as [|a l Ha Hl IH]; intros m Hm Ht; cbn [mfp_run]; [eauto|].
  pose proof (ticks_nonneg l Hl).
  cbn in Ht. fold (ticks l) in Ht. destruct (step_ok a m Hm Ha ltac:(lia)) as (m1 & E & Ho & Hn).
  unfold mbind, res_bind. rewrite E. apply IH; [done|lia].
Qed.

Lemma no_interrupt_forgotten_witness :
  ∃ m', mfp_run [act_write 0xfffa09 0x60; act_write 0xfffa15 0x60; act_write 0xfffa17 0x48;
                 act_irq 5 3; act_lines 0x10 0; act_serve false 0; act_write 0xfffa11 0xbf; act_serve false 0] mfp_boot = Ret m' ∧ mfp_ok m'.
Proof.
  apply no_interrupt_forgotten.
  - apply reset_ok.
  - repeat constructor; cbn; (lia || by apply in_ub_spec).
  - cbn. unfold INT_MAX. lia.
Defined.

(** ** A CPU that keeps serving *)

(** The end of a handler: with software end of interrupt it clears its in service bit. *)
Definition end_of_interrupt (vector : Z) (m : MFP) : res MFP :=
  if nz (m.(vr) .& MFP_VR_SEI) then
    let j := vector .& 0x0f in
    if j <? 8 then mfp_handleWrite 0xfffa11 (u8 (Z.lnot (1 ≪ j))) m
    else mfp_handleWrite 0xfffa0f (u8 (Z.lnot (1 ≪ (j - 8)))) m
  else Ret m.

(** The CPU, with interrupts of level 6 enabled, takes interrupts until there is none. *)
Fixpoint serve_all (n : nat) (m : MFP) : res (list Z * MFP) :=
  match n with
  | O => Ret ([], m)
  | S n =>
    '(v, _, m) ← serve_mfp false 0 m;
    match v with
    | None => Ret ([], m)
    | Some v => m ← end_of_interrupt v m; '(vs, m) ← serve_all n m; Ret (v :: vs, m)
    end
  end.

(** The interrupts of the levels below [n] that wait in [x], in the order of priority; timer C
    once per tick. *)
Fixpoint waiting (n : nat) (x tc : Z) : list Z :=
  match n with
  | O => []
  | S k => (if Z.testbit x (Z.of_nat k) then replicate (if (k =? 5)%nat then Z.to_nat tc else 1%nat) (Z.of_nat k) else [])
           ++ waiting k x tc
  end.

Lemma waiting_none n x tc : (∀ k, 0 <= k < Z.of_nat n → Z.testbit x k = false) → waiting n x tc = [].
Proof.
  induction n as [|n IH]; intros H; cbn; [done|]. rewrite H by lia. apply IH. intros k Hk. apply H. lia.
Qed.

(** Only the levels below [n] matter, and the ticks only when timer C waits. *)
Lemma waiting_ext n x x' tc tc' :
  (∀ k, 0 <= k < Z.of_nat n → Z.testbit x k = Z.testbit x' k) → (5 < Z.of_nat n → Z.testbit x' 5 = true → tc = tc') →
  waiting n x tc = waiting n x' tc'.
Proof.
  induction n as [|n IH]; intros H H5; cbn; [done|]. rewrite H by lia. f_equal.
  - destruct (Nat.eqb_spec n 5) as [->|]; [|done]. change (Z.of_nat 5) with 5. destruct (Z.testbit x' 5) eqn:E; [|done]. by rewrite H5 by (done || lia).
  - apply IH; [intros k Hk; apply H; lia|]. intros. apply H5; [lia|done].
Qed.

Lemma waiting_top n x tc j :
  0 <= j < Z.of_nat n → Z.testbit x j = true → (∀ k, j < k → Z.testbit x k = false) →
  waiting n x tc = replicate (if j =? 5 then Z.to_nat tc else 1%nat) j ++ waiting (Z.to_nat j) x tc.
Proof.
  intros Hj Hx Htop. induction n as [|n IH]; [lia|]. cbn. destruct (decide (j = Z.of_nat n)) as [->|].
  - rewrite Hx, Nat2Z.id. f_equal. f_equal. destruct (Nat.eqb_spec n 5), (Z.eqb_spec (Z.of_nat n) 5); (done || lia).
  - rewrite (Htop (Z.of_nat n)) by lia. apply IH. lia.
Qed.

(** Passing the highest interrupt takes the first of the waiting ones away. *)
Lemma waiting_passed m m' j :
  mfp_ok m → wants m j = true → (∀ k, j < k → wants m k = false) → passed j m m' →
  waiting 16 (m.(irq_pending) .& m.(irq_mask)) m.(timerCounter)
  = j :: waiting 16 (m'.(irq_pending) .& m'.(irq_mask)) m'.(timerCounter).
Proof.
  intros Hok Hw Htop (Hb & _ & Et & Em & _). pose proof (wants_range m j Hok Hw) as Hj. rewrite (waiting_top 16 _ _ j) by (done || lia).
  assert (∀ k, 0 <= k → wants m' k = wants m k && negb ((k =? j) && negb ((j =? 5) && (1 <? m.(timerCounter))))) as Hw'.
  { intros k Hk. rewrite !wants_spec, Hb, Em by done. destruct (Z.testbit m.(irq_pending) k), (Z.testbit m.(irq_mask) k); cbn [andb]; by rewrite ?andb_true_r, ?andb_false_r. }
  assert (∀ k, j < k → wants m' k = false) as Htop' by (intros k Hk; by rewrite Hw', Htop by lia).
  destruct ((j =? 5) && (1 <? m.(timerCounter))) eqn:E.
  - apply andb_prop in E as [->%Z.eqb_eq E%Z.ltb_lt]. rewrite (waiting_top 16 (irq_pending m' .& irq_mask m') _ 5); [|lia| |exact Htop'].
    2: { change (wants m' 5 = true). rewrite Hw', Hw by lia. done. }
    cbn [Z.eqb Pos.eqb] in Et |- *. rewrite Et. replace (Z.to_nat m.(timerCounter)) with (S (Z.to_nat (m.(timerCounter) - 1))) by lia. cbn. do 2 f_equal.
    apply waiting_ext; [|lia]. intros k Hk. change (wants m k = wants m' k). rewrite Hw' by lia. by rewrite (proj2 (Z.eqb_neq k 5)), andb_true_r by lia.
  - assert ((if j =? 5 then Z.to_nat m.(timerCounter) else 1%nat) = 1%nat) as ->.
    { destruct (Z.eqb_spec j 5) as [->|]; [|done]. rewrite wants_spec in Hw. apply andb_prop in Hw as [Hp _].
      pose proof (proj2 (ok_ticks _ Hok) Hp). cbn in E. apply Z.ltb_ge in E. lia. }
    cbn [replicate app]. f_equal. assert (wants m' j = false) as Hwj.
    { rewrite Hw' by lia. rewrite Z.eqb_refl. cbn. by rewrite andb_false_r. }
    symmetry. transitivity (waiting (Z.to_nat j) (m'.(irq_pending) .& m'.(irq_mask)) m'.(timerCounter)).
    { clear Hb Et Em Hw' Hw Htop E. assert (∀ n, waiting (n + Z.to_nat j) (irq_pending m' .& irq_mask m') (timerCounter m') = waiting (Z.to_nat j) (irq_pending m' .& irq_mask m') (timerCounter m')) as Hn.
      { induction n as [|n IH]; [done|]. cbn. change (Z.testbit (irq_pending m' .& irq_mask m') ?k) with (wants m' k).
        destruct (decide (n = O)) as [->|]; [cbn; by rewrite Z2Nat.id, Hwj by lia|]. by rewrite Htop' by lia. }
      specialize (Hn (16 - Z.to_nat j)%nat). by replace (16 - Z.to_nat j + Z.to_nat j)%nat with 16%nat in Hn by lia. }
    apply waiting_ext.
    + intros k Hk. change (wants m' k = wants m k). rewrite Hw' by lia. by rewrite (proj2 (Z.eqb_neq k j)), andb_true_r by lia.
    + intros H5 _. rewrite Et. by rewrite (proj2 (Z.eqb_neq j 5)) by lia.
Qed.

Lemma isr_cleared : Forall (λ j, if j <? 8 then u16 (2 ^ j .& (0xff00 .| u8 (Z.lnot (1 ≪ j)))) = 0
  else u16 (2 ^ j .& ((u8 (Z.lnot (1 ≪ (j - 8))) ≪ 8) .| 0xff)) = 0) (seqZ 0 16).
Proof. repeat (constructor; [reflexivity|]). constructor. Qed.

Lemma vector_level x j : 0 <= j < 16 → ((x .& MFP_VR_VECTOR) + j) .& 0x0f = j.
Proof.
  intros Hj. unfold MFP_VR_VECTOR. rewrite (land_hi x 0xf0 4 8), (land_ones_const _ 0x0f 4) by lia.
  rewrite Z.add_comm, Z.mod_add by lia. by apply Z.mod_small.
Qed.

Lemma end_of_interrupt_ok j m m' :
  0 <= j < 16 → mfp_ok m' → m.(irq_inservice) = 0 →
  m'.(irq_inservice) = (if nz (m.(vr) .& MFP_VR_SEI) then m.(irq_inservice) .| 2 ^ j else m.(irq_inservice)) → m'.(vr) = m.(vr) →
  ∃ m2, end_of_interrupt ((m.(vr) .& MFP_VR_VECTOR) + j) m' = Ret m2 ∧ mfp_ok m2 ∧ m2.(irq_inservice) = 0
    ∧ m2.(irq_pending) = m'.(irq_pending) ∧ m2.(irq_mask) = m'.(irq_mask) ∧ m2.(timerCounter) = m'.(timerCounter) ∧ m2.(vr) = m'.(vr).
Proof.
  intros Hj Hok Hs0 Es Ev. unfold end_of_interrupt. rewrite Ev, vector_level by done.
  destruct (nz (m.(vr) .& MFP_VR_SEI)); [|exists m'; split_and!; congruence]. rewrite Hs0, Z.lor_0_l in Es. cbv zeta.
  assert (j ∈ seqZ 0 16) as Hin by (apply elem_of_seqZ; lia). pose proof (proj1 (Forall_forall _ _) isr_cleared j Hin) as Hz. cbv beta in Hz.
  assert (∀ v, u16 (irq_inservice m' .& v) = 0 → ∃ m2,
    Ret (if nz (m'.(irq_pending) .& m'.(irq_mask)) then TriggerMFP true (set_inservice (u16 (irq_inservice m' .& v)) m') else set_inservice (u16 (irq_inservice m' .& v)) m') = Ret m2
    ∧ mfp_ok m2 ∧ m2.(irq_inservice) = 0 ∧ m2.(irq_pending) = m'.(irq_pending) ∧ m2.(irq_mask) = m'.(irq_mask)
    ∧ m2.(timerCounter) = m'.(timerCounter) ∧ m2.(vr) = m.(vr)) as Hwr.
  { intros v Hv. eexists. split; [reflexivity|]. split; [apply set_inservice_ok; [apply in_u_u16|done]|]. rewrite Hv. destruct (nz (_ .& irq_mask m')); split_and!; try done; exact Ev. }
  destruct (j <? 8); [apply (Hwr (0xff00 .| u8 (Z.lnot (1 ≪ j))))|apply (Hwr ((u8 (Z.lnot (1 ≪ (j - 8))) ≪ 8) .| 0xff))]; by rewrite Es.
Qed.

Lemma serve_all_waiting n : ∀ m,
  mfp_ok m → m.(irq_inservice) = 0 → (m.(vr) .& MFP_VR_VECTOR ≠ 0 ∨ wants m 0 = false) →
  (length (waiting 16 (m.(irq_pending) .& m.(irq_mask)) m.(timerCounter)) < n)%nat →
  ∃ m', serve_all n m = Ret (map (λ j, (m.(vr) .& MFP_VR_VECTOR) + j) (waiting 16 (m.(irq_pending) .& m.(irq_mask)) m.(timerCounter)), m')
    ∧ mfp_ok m' ∧ m'.(irq_pending) .& m'.(irq_mask) = 0 ∧ m'.(irq_inservice) = 0 ∧ flagged m' = false.
Proof.
  induction n as [|n IH]; intros m Hok Hs Hv Hn; [lia|]. cbn [serve_all]. destruct (top_or_none m Hok) as [Hq|(j & Hw & Htop & Hlt)].
  - assert (∀ k, wants m k = false) as Hno.
    { intros k. destruct (wants m k) eqn:E; [|done]. specialize (Hq k E). pose proof (wants_range m k Hok E). pose proof (Z.pow_pos_nonneg 2 k). lia. }
    rewrite waiting_none by (intros k _; apply Hno). destruct (serve_none false 0 m Hok Hq) as (m' & E & Ho & Hf & Hp & _ & Hfl).
    unfold mbind, res_bind. rewrite E. exists m'. split_and!; [done|done| |by rewrite (fr_inservice _ _ Hf)|by apply Hfl].
    apply Z.bits_inj'. intros k _. rewrite Z.bits_0, Hp, (fr_mask _ _ Hf). apply Hno.
  - pose proof (wants_range m j Hok Hw) as Hj.
    assert ((m.(vr) .& MFP_VR_VECTOR) + j ≠ 0) as Hv0.
    { assert (0 <= m.(vr) .& MFP_VR_VECTOR) by (apply Z.land_nonneg; unfold MFP_VR_VECTOR; lia).
      destruct (decide (j = 0)) as [->|]; [|lia]. destruct Hv; [lia|congruence]. }
    destruct (serve_some false 0 m j Hok Hw Htop Hlt ltac:(lia) Hv0) as (m1 & E & Ho1 & Hpass). unfold mbind at 1, res_bind at 1. rewrite E.
    destruct (end_of_interrupt_ok j m m1 Hj Ho1 Hs) as (m2 & E2 & Ho2 & Hs2 & Ep & Em & Et & Ev); [apply Hpass..|]. unfold mbind at 1, res_bind at 1. rewrite E2.
    rewrite (waiting_passed m m1 j Hok Hw Htop Hpass) in Hn |- *. rewrite <- Ep, <- Em, <- Et in Hn |- *.
    pose proof Hpass as (Hb & _ & _ & Hm1 & _ & Hvr).
    destruct (IH m2 Ho2 Hs2) as (m3 & E3 & ?); [|cbn [length] in Hn; lia|].
    { destruct Hv as [Hv|Hv]; [left; by rewrite Ev, Hvr|right]. rewrite wants_spec, Ep, Em, Hb, Hm1 by lia. rewrite wants_spec in Hv.
      destruct (Z.testbit m.(irq_pending) 0), (Z.testbit m.(irq_mask) 0); try done; by rewrite andb_false_r. }
    rewrite Ev, Hvr in E3. unfold mbind at 1, res_bind at 1. rewrite E3. exists m3. by split.
Qed.

(** C8: a CPU that accepts interrupts takes every pending unmasked one: serving and
    acknowledging, it gets the vectors in the order of priority, timer C once for each counted
    tick, after which nothing is pending or in service and the CPU's flag is down.  (A vector
    number 0 would pass for no interrupt: the vector base must be set when interrupt 0 can
    occur.) *)
Theorem interrupts_delivered (n : nat) (m : MFP)
    (Hok : mfp_ok m) (Hs : m.(irq_inservice) = 0)
    (Hv : m.(vr) .& MFP_VR_VECTOR ≠ 0 ∨ wants m 0 = false)
    (Hn : (length (waiting 16 (m.(irq_pending) .& m.(irq_mask)) m.(timerCounter)) < n)%nat) :
  ∃ m', serve_all n m = Ret (map (λ j, (m.(vr) .& MFP_VR_VECTOR) + j)
                               (waiting 16 (m.(irq_pending) .& m.(irq_mask)) m.(timerCounter)), m')
    ∧ mfp_ok m' ∧ m'.(irq_pending) .& m'.(irq_mask) = 0 ∧ m'.(irq_inservice) = 0 ∧ flagged m' = false.
Proof. by apply serve_all_waiting. Qed.

(** Three ticks and a key. *)
Definition mfp_busy : MFP :=
  match (m ← IRQ 5 3 mfp_tos; setGPIPbit 0x10 0 m) with Ret m => m | Trap _ => mfp_tos end.

Lemma busy_ok : mfp_ok mfp_busy.
Proof.
  unfold mfp_busy. destruct (IRQ_spec 5 3 mfp_tos ltac:(lia) ltac:(lia) tos_ok) as (m1 & E1 & Ho1 & _); [cbn; unfold INT_MAX; lia|].
  destruct (line_interrupts_spec 0x10 0 m1 Ho1) as (m2 & E2 & Ho2 & _). unfold mbind, res_bind. by rewrite E1, E2.
Qed.

(** The key first, then the ticks. *)
Lemma interrupts_delivered_witness :
  ∃ m', serve_all 5 mfp_busy = Ret ([0x46; 0x45; 0x45; 0x45], m') ∧ flagged m' = false.
Proof.
  destruct (interrupts_delivered 5 mfp_busy busy_ok) as (m' & E' & _ & _ & _ & Hf).
  - vm_compute. reflexivity.
  - right. vm_compute. reflexivity.
  - vm_compute. lia.
  - exists m'. split; [|exact Hf]. rewrite E'. f_equal.
Defined.

(** ** The 200 Hz tick *)

Lemma timer_freq_pos t : timer_ok t → 48 <= compute_timer_freq t.
Proof.
  intros [_ Hd _]. unfold compute_timer_freq. cbv zeta. set (f := if _ =? 1 then _ else _).
  assert (12288 <= f) as Hf by (unfold f; repeat case_match; vm_compute; discriminate). clearbody f.
  assert (∀ d, 1 <= d <= 255 → 48 <= f / d) as Hdiv.
  { intros d Hd'. apply Z.div_le_lower_bound; nia. }
  destruct (nz _) eqn:E; [apply Hdiv; apply nz_true in E; unfold in_u in Hd; lia|apply Hdiv; lia].
Qed.

Lemma ms_ticks_spec m : mfp_ok m → timerC_ms_ticks m = Ret (1000 / compute_timer_freq m.(tC)).
Proof.
  intros Hok. pose proof (timer_freq_pos _ (ok_C _ Hok)). unfold timerC_ms_ticks. by rewrite (proj2 (Z.eqb_neq _ 0)) by lia.
Qed.

Lemma IRQ_trap l count m e : IRQ l count m = Trap e → e = IntOverflow.
Proof. unfold IRQ, mbind, res_bind, to_int. intros. repeat case_match; simplify_eq; done. Qed.

(** A request keeps the programming of timer C. *)
Lemma IRQ_freq l count m m' : IRQ l count m = Ret m' → compute_timer_freq m'.(tC) = compute_timer_freq m.(tC).
Proof.
  assert (compute_timer_freq (resetCounter m.(tC)) = compute_timer_freq m.(tC)) by (unfold resetCounter; by case_match).
  unfold IRQ, mbind, res_bind, to_int. intros. repeat case_match; simplify_eq; cbn; done.
Qed.

Lemma vbl_ok m : mfp_ok m → mfp_ok (SPCFLAGS_SET SPCFLAG_VBL m).
Proof.
  intros []. constructor; try assumption. intros j ????. unfold flagged. cbn [SPCFLAGS_SET set_spcflags spcflags].
  rewrite Z.lor_spec. apply orb_true_intro. left. by apply (ok_flag0 j).
Qed.

(** The tick divides by zero exactly when timer C is programmed to more than 1000 Hz: the
    milliseconds per tick are then 0.  Nothing but this division can go wrong with a
    divisor. *)
Lemma tick_division (rtc : bool) (newTicks : Z) (k : ticker) (Hok : mfp_ok k.(tick_mfp)) :
  invoke200HzInterrupt rtc newTicks k = Trap DivByZero ↔ 1000 < compute_timer_freq k.(tick_mfp).(tC).
Proof.
  pose proof (timer_freq_pos _ (ok_C _ Hok)) as Hf. unfold invoke200HzInterrupt. unfold mbind at 1, res_bind at 1.
  rewrite (ms_ticks_spec _ Hok). destruct (Z.eqb_spec (1000 / compute_timer_freq k.(tick_mfp).(tC)) 0) as [E|E].
  - split; [|done]. intros _. apply Z.div_small_iff in E; lia.
  - split; [|intros; destruct E; apply Z.div_small; lia]. unfold mbind, res_bind, to_int. intros H. cbv zeta in H.
    repeat case_match; simplify_eq; match goal with H : IRQ _ _ _ = Trap _ |- _ => by apply IRQ_trap in H end.
Qed.

(** A program that writes 1 to the data register of timer C and 1/4 prescaling to its control
    register stops the emulator at the next tick. *)
Lemma tick_division_witness :
  ∃ m, (m ← mfp_handleWrite 0xfffa23 1 mfp_tos; mfp_handleWrite 0xfffa1d 0x10 m) = Ret m
    ∧ invoke200HzInterrupt false 5000 (mk_ticker 4000 0 m []) = Trap DivByZero.
Proof.
  destruct (write_ok 0xfffa23 1 mfp_tos tos_ok ltac:(by apply in_ub_spec)) as (m1 & E1 & O1 & _).
  destruct (write_ok 0xfffa1d 0x10 m1 O1 ltac:(by apply in_ub_spec)) as (m2 & E2 & O2 & _). exists m2.
  assert ((m ← mfp_handleWrite 0xfffa23 1 mfp_tos; mfp_handleWrite 0xfffa1d 0x10 m) = Ret m2) as E by (unfold mbind, res_bind; by rewrite E1).
  split; [exact E|]. apply (tick_division false 5000 (mk_ticker 4000 0 m2 [])); [exact O2|]. cbn [tick_mfp].
  assert (compute_timer_freq m2.(tC) = 614400) as ->; [|lia].
  change m2 with (match Ret m2 with Ret m => m | Trap _ => m2 end). rewrite <- E. reflexivity.
Defined.

(** Calls of the tick routine: whether the host's real time clock drives it ([using_rtc_timer],
    which its thread sets when it starts), and the reading of the host's clock. *)
Notation call := (bool * Z)%type.

Fixpoint tick_run (calls : list call) (k : ticker) : res ticker :=
  match calls with [] => Ret k | (rtc, t) :: cs => k ← invoke200HzInterrupt rtc t k; tick_run cs k end.

(** Clock readings that do not go back, from [t] on. *)
Fixpoint ascending (t : Z) (cs : list call) : Prop :=
  match cs with [] => True | c :: cs => t <= c.2 <= INT_MAX ∧ ascending c.2 cs end.

(** The time of the last call, the whole periods of [ms] that have passed at it since [t0], and
    the ticks given out until then: by a call of the ordinary timer all that are due, by one
    of the real time clock one at most. *)
Definition now_of (t0 : Z) (cs : list call) : Z := List.last (map snd cs) t0.
Definition periods (ms t0 : Z) (cs : list call) : Z := (now_of t0 cs - t0) / ms.
Definition given (ms t0 : Z) (n : Z) (cs : list call) : Z :=
  foldl (λ n (c : call), let due := (c.2 - t0) / ms in if c.1 then Z.min (n + 1) due else due) n cs.

Lemma s32_small x : 0 <= x <= INT_MAX → s32 x = x.
Proof. unfold INT_MAX, s32. intros. rewrite Z.mod_small; lia. Qed.

Lemma whole_ticks x ms : 0 <= x → 0 < ms → 0 <= x / ms <= x / ms * ms ∧ x / ms * ms <= x < x / ms * ms + ms.
Proof.
  intros Hx Hms. pose proof (Z.div_mod x ms ltac:(lia)). pose proof (Z.mod_pos_bound x ms Hms).
  pose proof (Z.div_pos x ms Hx Hms). nia.
Qed.

(** One call: the whole ticks that have passed are counted, or one of them, the rest stays. *)
Lemma tick_step ms (rtc : bool) t k :
  mfp_ok k.(tick_mfp) → timerC_ms_ticks k.(tick_mfp) = Ret ms → 0 < ms → Z.testbit k.(tick_mfp).(irq_enable) 5 = true →
  0 < k.(lastTicks) <= t → t <= INT_MAX → 0 <= k.(VBL_counter) →
  k.(VBL_counter) + (t - k.(lastTicks)) <= INT_MAX → k.(tick_mfp).(timerCounter) + (t - k.(lastTicks)) <= INT_MAX →
  let due := (t - k.(lastTicks)) / ms in let c := if rtc then Z.min 1 due else due in
  ∃ k', invoke200HzInterrupt rtc t k = Ret k' ∧ mfp_ok k'.(tick_mfp) ∧ timerC_ms_ticks k'.(tick_mfp) = Ret ms
    ∧ Z.testbit k'.(tick_mfp).(irq_enable) 5 = true
    ∧ k'.(lastTicks) = k.(lastTicks) + c * ms ∧ k'.(tick_mfp).(timerCounter) = k.(tick_mfp).(timerCounter) + c
    ∧ 0 <= k'.(VBL_counter) <= k.(VBL_counter) + c * ms ∧ 0 <= c <= c * ms ∧ c * ms <= t - k.(lastTicks).
Proof.
  intros Hok Hms Hpos Hen Hlast Ht Hv0 Hv Hc due c. unfold invoke200HzInterrupt. unfold mbind at 1, res_bind at 1. rewrite Hms. cbv zeta.
  rewrite (proj2 (Z.eqb_neq k.(lastTicks) 0)), (proj2 (Z.eqb_neq ms 0)) by lia.
  rewrite u32_small by (unfold INT_MAX in *; lia). fold due.
  pose proof (whole_ticks (t - k.(lastTicks)) ms ltac:(lia) Hpos) as Hcm. fold due in Hcm. rewrite s32_small by lia.
  destruct (Z.eqb_spec due 0) as [E|E].
  { exists (mk_ticker k.(lastTicks) k.(VBL_counter) k.(tick_mfp) k.(tick_calls)). assert (c = 0) as -> by (unfold c; destruct rtc; lia).
    cbn. split_and!; (done || lia). }
  replace (if rtc then 1 else due) with c by (unfold c; destruct rtc; lia).
  assert (1 <= c <= due) as Hcd by (unfold c; destruct rtc; lia). assert (c * ms <= due * ms) by nia. assert (c <= c * ms) by nia.
  unfold mbind, res_bind. rewrite to_int_ok by (unfold INT_MAX in *; lia).
  destruct (IRQ_spec 5 c k.(tick_mfp) ltac:(lia) ltac:(lia) Hok ltac:(lia)) as (m' & E' & Ho & Hf & _ & Hn). rewrite E'.
  rewrite to_int_ok by (unfold INT_MAX in *; lia). rewrite Hen in Hn. cbn in Hn.
  assert (timerC_ms_ticks m' = Ret ms) as Hms'.
  { rewrite <- Hms, !ms_ticks_spec by done. by rewrite (IRQ_freq _ _ _ _ E'). }
  rewrite u32_small by (unfold INT_MAX in *; lia). rewrite <- (fr_enable _ _ Hf) in Hen.
  destruct (Z.leb_spec VBL_MS (k.(VBL_counter) + c * ms)); eexists; (split; [reflexivity|]); cbn; unfold VBL_MS in *; split_and!; try (done || lia).
  by apply vbl_ok.
Qed.

Lemma now_of_cons t0 c cs : now_of t0 (c :: cs) = now_of c.2 cs.
Proof.
  unfold now_of. cbn [map]. generalize (map snd cs) as ts, c.2 as t. intros ts. revert t0. induction ts as [|t' ts IH]; intros t0 t; [done|].
  change (List.last (t :: t' :: ts) t0) with (List.last (t' :: ts) t0). by rewrite !IH.
Qed.

Lemma ascending_last t cs : ascending t cs → t <= INT_MAX → t <= now_of t cs <= INT_MAX.
Proof.
  revert t. induction cs as [|c cs IH]; intros t Ha Ht; [cbn; lia|]. destruct Ha as [H1 H2].
  rewrite now_of_cons. specialize (IH c.2 H2). lia.
Qed.

Lemma tick_run_total ms t0 cs : ∀ k n p,
  mfp_ok k.(tick_mfp) → timerC_ms_ticks k.(tick_mfp) = Ret ms → 0 < ms → Z.testbit k.(tick_mfp).(irq_enable) 5 = true →
  0 < t0 → 0 <= n → k.(lastTicks) = t0 + n * ms → k.(lastTicks) <= p → p <= INT_MAX → ascending p cs → 0 <= k.(VBL_counter) →
  k.(VBL_counter) + (now_of p cs - k.(lastTicks)) <= INT_MAX →
  k.(tick_mfp).(timerCounter) + (now_of p cs - k.(lastTicks)) <= INT_MAX →
  ∃ k', tick_run cs k = Ret k' ∧ mfp_ok k'.(tick_mfp) ∧ k'.(lastTicks) = t0 + given ms t0 n cs * ms
    ∧ k'.(tick_mfp).(timerCounter) = k.(tick_mfp).(timerCounter) + (given ms t0 n cs - n).
Proof.
  induction cs as [|[rtc t] cs IH]; intros k n p Hok Hms Hpos Hen Ht0 Hn Hl Hp Hpm Ha Hv0 Hv Hc.
  { cbn [tick_run]. exists k. unfold given. cbn [foldl]. split_and!; (done || lia). }
  cbn [tick_run]. destruct Ha as [[Hpt Htm] Ha]. cbn [snd] in *. rewrite now_of_cons in Hv, Hc. cbn [snd] in *.
  pose proof (ascending_last t cs Ha Htm) as Hlast. assert (0 <= n * ms) by nia.
  destruct (tick_step ms rtc t k) as (k1 & E & Ho & Hms1 & Hen1 & El1 & Et1 & Hv1 & Hb & Hb'); [done..|lia|done|done|lia|lia|].
  assert ((t - k.(lastTicks)) / ms = (t - t0) / ms - n) as Ed.
  { rewrite Hl. replace (t - (t0 + n * ms)) with (t - t0 + (- n) * ms) by lia. rewrite Z.div_add by lia. lia. }
  rewrite Ed in *. set (due := (t - t0) / ms) in *. set (c := if rtc then Z.min 1 (due - n) else due - n) in *.
  assert ((if rtc then Z.min (n + 1) due else due) = n + c) as En by (unfold c; destruct rtc; lia).
  unfold mbind, res_bind. rewrite E. destruct (IH k1 (n + c) t) as (k' & E' & Ho' & El' & Et'); [done..|lia|lia|lia|done|done|lia|lia|lia|].
  exists k'. unfold given in *. cbn [foldl fst snd]. fold due. rewrite En. split_and!; [done..|lia].
Qed.

(** The ticks given out are never more than the periods that passed; they are as many when the
    last call was the ordinary timer's, and when from every moment on there were as many
    calls as periods. *)
Lemma given_snoc ms t0 n cs c :
  given ms t0 n (cs ++ [c]) = let due := (c.2 - t0) / ms in if c.1 then Z.min (given ms t0 n cs + 1) due else due.
Proof. unfold given. by rewrite foldl_snoc. Qed.

Lemma now_of_snoc t0 cs c : now_of t0 (cs ++ [c]) = c.2.
Proof. unfold now_of. rewrite map_app. apply List.last_last. Qed.

Lemma given_le ms t0 cs : 0 < ms → given ms t0 0 cs <= periods ms t0 cs.
Proof.
  intros Hms. destruct cs as [|c cs _] using rev_ind; unfold periods.
  - cbn. by rewrite Z.sub_diag.
  - rewrite given_snoc, now_of_snoc. cbv zeta. destruct c.1; lia.
Qed.

Lemma given_ge ms t0 p cs : ∀ d, 0 < ms →
  (∀ cs1 cs2, cs = cs1 ++ cs2 → p - periods ms t0 cs1 <= Z.of_nat (length cs2) + d) → p - d <= given ms t0 0 cs.
Proof.
  induction cs as [|c cs IH] using rev_ind; intros d Hms Hd.
  - specialize (Hd [] [] eq_refl). unfold periods, now_of in Hd. cbn [map List.last length] in Hd. rewrite Z.sub_diag, Z.div_0_l in Hd by lia. unfold given. cbn [foldl]. lia.
  - rewrite given_snoc. cbv zeta. pose proof (Hd (cs ++ [c]) [] ltac:(by rewrite app_nil_r)) as H1.
    unfold periods in H1. rewrite now_of_snoc in H1. cbn [length] in H1.
    assert (p - (d + 1) <= given ms t0 0 cs).
    { apply IH; [done|]. intros cs1 cs2 ->. specialize (Hd cs1 (cs2 ++ [c]) ltac:(by rewrite app_assoc)).
      rewrite length_app in Hd. cbn in Hd. lia. }
    destruct c.1; lia.
Qed.

(** C34: the 200 Hz clock of the guest does not drift.  However late and however often the tick
    routine is called, by the ordinary timer and by the thread of the host's real time clock,
    and while timer C keeps its programming and its interrupt stays enabled: the ticks passed
    to the interrupt controller are counted by [given], the routine's clock advances by exactly
    the periods it gave out, so that none is lost, and they are never more than the whole tick
    periods that have passed on the host's clock.  They are all of them after a call of the
    ordinary timer.  A call of the real time clock gives out one tick at most: after a late
    call the guest is behind until calls without a new period have made up for it, and it is
    up to date if from every earlier moment on there were at least as many calls as periods.
    (The first call, which only sets the routine's clock, has been made; the host's clock does
    not go back and, like the counters, stays below 2^31.) *)
Theorem ticks_do_not_drift (ms : Z) (cs : list call) (k : ticker)
    (Hok : mfp_ok k.(tick_mfp)) (Hms : timerC_ms_ticks k.(tick_mfp) = Ret ms) (Hpos : 0 < ms)
    (Hen : Z.testbit k.(tick_mfp).(irq_enable) 5 = true)
    (Hlast : 0 < k.(lastTicks) <= INT_MAX) (Ha : ascending k.(lastTicks) cs) (Hv0 : 0 <= k.(VBL_counter))
    (Hv : k.(VBL_counter) + (now_of k.(lastTicks) cs - k.(lastTicks)) <= INT_MAX)
    (Hc : k.(tick_mfp).(timerCounter) + (now_of k.(lastTicks) cs - k.(lastTicks)) <= INT_MAX) :
  let t0 := k.(lastTicks) in let n := given ms t0 0 cs in
  (∃ k', tick_run cs k = Ret k' ∧ mfp_ok k'.(tick_mfp) ∧ k'.(lastTicks) = t0 + n * ms
     ∧ k'.(tick_mfp).(timerCounter) = k.(tick_mfp).(timerCounter) + n)
  ∧ n <= periods ms t0 cs
  ∧ (Forall (λ c, c.1 = false) cs → n = periods ms t0 cs)
  ∧ ((∀ cs1 cs2, cs = cs1 ++ cs2 → periods ms t0 cs - periods ms t0 cs1 <= Z.of_nat (length cs2)) → n = periods ms t0 cs).
Proof.
  intros t0 n. pose proof (given_le ms t0 cs Hpos) as Hle. split_and!; [|done| |].
  - destruct (tick_run_total ms t0 cs k 0 t0) as (k' & E & Ho & El & Et); [done..|unfold t0; lia|lia|lia|done|lia|done|done|done|done|].
    exists k'. split_and!; [done..|]. rewrite Et. unfold n. lia.
  - intros Hf. unfold n. destruct cs as [|c cs' _] using rev_ind; unfold periods.
    + cbn. by rewrite Z.sub_diag.
    + apply Forall_app in Hf as [_ [Hf _]%Forall_cons]. rewrite given_snoc, now_of_snoc. by rewrite Hf.
  - intros H. pose proof (given_ge ms t0 (periods ms t0 cs) cs 0 Hpos ltac:(intros cs1 cs2 Hs; specialize (H cs1 cs2 Hs); lia)). lia.
Qed.

(** Timer C as TOS sets it (1/64, 192), calls at uneven times: 7 ticks of 5 ms in 38 ms. *)
Definition mfp_200Hz : MFP := set_C (mk_timer 5 192 192 false) mfp_tos.

Lemma mfp_200Hz_ok : mfp_ok mfp_200Hz.
Proof. apply quiet_ok; try done; try apply timer_reset_ok; try (by apply in_ub_spec); split; by apply in_ub_spec. Qed.

Lemma ticks_do_not_drift_witness :
  let cs := [(false, 1003); (true, 1004); (true, 1017); (false, 1038)] in
  ∃ k', tick_run cs (mk_ticker 1000 0 mfp_200Hz []) = Ret k' ∧ k'.(tick_mfp).(timerCounter) = 7.
Proof.
  intros cs. destruct (ticks_do_not_drift 5 cs (mk_ticker 1000 0 mfp_200Hz [])) as ((k' & E & _ & _ & Ht) & _).
  - exact mfp_200Hz_ok.
  - vm_compute. reflexivity.
  - lia.
  - reflexivity.
  - cbn. unfold INT_MAX. lia.
  - cbn. unfold INT_MAX. lia.
  - cbn. lia.
  - cbn. unfold INT_MAX. lia.
  - cbn. unfold INT_MAX. lia.
  - exists k'. split; [exact E|]. rewrite Ht. vm_compute. reflexivity.
Defined.

(** Driven by the real time clock alone, the calls at 17 ms and at 38 ms, with three and then
    seven ticks due, give out one each; five calls later the guest is up to date. *)
Example rtc_timer_falls_behind :
  given 5 1000 0 [(true, 1004); (true, 1017); (true, 1038)] = 2 ∧ periods 5 1000 [(true, 1004); (true, 1017); (true, 1038)] = 7
  ∧ given 5 1000 0 [(true, 1004); (true, 1017); (true, 1038); (true, 1038); (true, 1038); (true, 1038); (true, 1038); (true, 1039)] = 7.
Proof. vm_compute. done. Qed.
