(* ===== verification/IkbdSpec.v ===== *)
(** * The keyboard controller is correct

    The ring buffer is a bounded queue; the commands of the CPU are framed by their lengths;
    mouse motions are split into packets that add up to them; and with the interrupt
    controller in between, every byte the controller sends reaches a CPU that serves its
    interrupts, in order and once. *)

From S2P Require Import Prelude Mfp MfpSpec Ikbd.

(** ** Definitions *)

(** [n] bytes of the ring buffer, from index [r]. *)
Definition cells (a : gmap Z Z) (r n : Z) : list Z := map (λ i, aget a ((r + i) mod inbufferlen)) (seqZ 0 n).

Definition queue_len (k : ikbd) : Z := (k.(inwrite) - k.(inread)) mod inbufferlen.

(** The bytes between the two indices: those the CPU has not read. *)
Definition queue (k : ikbd) : list Z := cells k.(inbuffer) k.(inread) (queue_len k).

Record ikbd_ok (k : ikbd) : Prop := {
  kk_inread : 0 <= k.(inread) < inbufferlen;
  kk_inwrite : 0 <= k.(inwrite) < inbufferlen;
  kk_outwrite : 0 <= k.(outwrite) <= 6;
  kk_sr : in_u 8 k.(sr);
  kk_rxdr : in_u 8 k.(rxdr);
  kk_cells : acells (in_u 8) k.(inbuffer);
  kk_mfp : mfp_ok k.(mfp) }.

(** A byte sent to a queue of 8191 bytes removes the packet at its front. *)
Definition push (v : Z) (q : list Z) : list Z :=
  let q' := q ++ [v] in
  if Z.of_nat (length q) <? inbufferlen - 1 then q' else drop (Z.to_nat (packet_len (default 0 (head q')))) q'.

(** What an interrupt leaves alone. *)
Record kept (k k' : ikbd) : Prop := {
  kf_cr : k'.(cr) = k.(cr); kf_rxdr : k'.(rxdr) = k.(rxdr); kf_txdr : k'.(txdr) = k.(txdr);
  kf_mouse : k'.(mouse_enabled) = k.(mouse_enabled); kf_rel : k'.(mouserel_enabled) = k.(mouserel_enabled);
  kf_y : k'.(yaxis_reversed) = k.(yaxis_reversed); kf_joy : k'.(joy_enabled) = k.(joy_enabled);
  kf_state : k'.(joy_state) = k.(joy_state); kf_out : k'.(outbuffer) = k.(outbuffer);
  kf_outwrite : k'.(outwrite) = k.(outwrite); kf_type : k'.(intype) = k.(intype) }.

#[global] Instance kept_preorder : PreOrder kept.
Proof.
  split.
  - intros k. by split.
  - intros k1 k2 k3 [] []. split; congruence.
Qed.

(** ** The ring buffer *)

Lemma land_len x : x .& (inbufferlen - 1) = x mod inbufferlen.
Proof. apply (land_ones_const x _ 13); done. Qed.

Lemma mod_len_range x : 0 <= x mod inbufferlen < inbufferlen.
Proof. by apply Z.mod_pos_bound. Qed.

Lemma mod_len_shift x y : (x mod inbufferlen + y) mod inbufferlen = (x + y) mod inbufferlen.
Proof. apply Zplus_mod_idemp_l. Qed.

(** The residue [c] of a number is found by giving the multiple. *)
Lemma mod_len_unique x c q : 0 <= c < inbufferlen → x = inbufferlen * q + c → x mod inbufferlen = c.
Proof. intros Hc ->. rewrite Z.add_comm, Z.mul_comm, Z.mod_add by done. by apply Z.mod_small. Qed.

Lemma mod_len_inj x y : - inbufferlen < x - y < inbufferlen → x mod inbufferlen = y mod inbufferlen → x = y.
Proof.
  intros H E. pose proof (Z.div_mod x inbufferlen ltac:(done)). pose proof (Z.div_mod y inbufferlen ltac:(done)).
  unfold inbufferlen in *. lia.
Qed.

Lemma length_cells a r n : 0 <= n → Z.of_nat (length (cells a r n)) = n.
Proof. intros. unfold cells. rewrite length_map, length_seqZ. lia. Qed.

Lemma cells_app a r n m : 0 <= n → 0 <= m → cells a r (n + m) = cells a r n ++ cells a ((r + n) mod inbufferlen) m.
Proof.
  intros Hn Hm. unfold cells. rewrite seqZ_app, map_app by done. f_equal.
  rewrite Z.add_0_l. replace n with (n + 0) at 1 by lia. rewrite <- (fmap_add_seqZ n 0 m). change (Z.add n <$> seqZ 0 m) with (map (Z.add n) (seqZ 0 m)). rewrite map_map. apply map_ext. intros i. f_equal.
  rewrite mod_len_shift. f_equal. lia.
Qed.

Lemma cells_1 a r : 0 <= r < inbufferlen → cells a r 1 = [aget a r].
Proof. intros Hr. unfold cells. change (seqZ 0 1) with [0]. cbn [map]. by rewrite Z.add_0_r, Z.mod_small. Qed.

(** Writing a cell outside. *)
Lemma cells_set a r n i v : 0 <= n → (∀ j, 0 <= j < n → (r + j) mod inbufferlen ≠ i) → cells (aset a i v) r n = cells a r n.
Proof.
  intros Hn H. unfold cells. apply map_ext_in. intros j Hj%list_elem_of_In%elem_of_seqZ. rewrite aget_aset_ne; [done|].
  intros E. apply (H j); [lia|done].
Qed.

Lemma cells_drop a r n d : 0 <= d <= n → cells a ((r + d) mod inbufferlen) (n - d) = drop (Z.to_nat d) (cells a r n).
Proof.
  intros Hd. replace n with (d + (n - d)) at 2 by lia. rewrite cells_app by lia.
  rewrite drop_app_length'; [done|]. pose proof (length_cells a r d). lia.
Qed.

Lemma queue_len_range k : 0 <= queue_len k < inbufferlen.
Proof. apply mod_len_range. Qed.

Lemma length_queue k : Z.of_nat (length (queue k)) = queue_len k.
Proof. apply length_cells, queue_len_range. Qed.

(** The write index from the read index. *)
Lemma inwrite_queue k : ikbd_ok k → k.(inwrite) = (k.(inread) + queue_len k) mod inbufferlen.
Proof.
  intros []. unfold queue_len. rewrite Zplus_mod_idemp_r. replace (_ + _) with k.(inwrite) by lia. by rewrite Z.mod_small.
Qed.

Lemma queue_nil k : ikbd_ok k → queue_len k = 0 → queue k = [].
Proof. intros _ E. unfold queue. by rewrite E. Qed.

Lemma queue_len_0 k : ikbd_ok k → queue_len k = 0 ↔ k.(inread) = k.(inwrite).
Proof.
  intros Hok. pose proof (inwrite_queue k Hok) as Hw. destruct Hok. split; intros E.
  - by rewrite Hw, E, Z.add_0_r, Z.mod_small.
  - unfold queue_len. by rewrite E, Z.sub_diag.
Qed.

Lemma queue_empty k : ikbd_ok k → (k.(inread) =? k.(inwrite)) = bool_decide (queue k = []).
Proof.
  intros Hok. pose proof (length_queue k) as Hl. destruct (Z.eqb_spec k.(inread) k.(inwrite)) as [E|E]; symmetry.
  - apply bool_decide_eq_true_2, queue_nil; [done|]. by apply queue_len_0.
  - apply bool_decide_eq_false_2. intros Hq. rewrite Hq in Hl. destruct E. by apply queue_len_0.
Qed.

(** The queue's first byte, and the queue without it. *)
Lemma queue_pop k : ikbd_ok k → k.(inread) ≠ k.(inwrite) →
  queue k = aget k.(inbuffer) k.(inread) :: queue (k_inread ((k.(inread) + 1) .& (inbufferlen - 1)) k)
  ∧ queue_len (k_inread ((k.(inread) + 1) .& (inbufferlen - 1)) k) = queue_len k - 1.
Proof.
  intros Hok Hne. rewrite land_len. pose proof (queue_len_range k) as Hr.
  assert (1 <= queue_len k) as H1 by (pose proof (queue_len_0 k Hok); unfold inbufferlen in *; destruct (decide (queue_len k = 0)); [tauto|lia]).
  assert (queue_len (k_inread ((k.(inread) + 1) mod inbufferlen) k) = queue_len k - 1) as El.
  { unfold queue_len at 1. cbn [k_inread inwrite inread]. rewrite Zminus_mod_idemp_r, (inwrite_queue k Hok), Zminus_mod_idemp_l.
    replace (_ - _) with (queue_len k - 1) by lia. rewrite Z.mod_small; unfold inbufferlen in *; lia. }
  split; [|done]. unfold queue at 2. rewrite El. cbn [k_inread inbuffer inread]. unfold queue.
  replace (queue_len k) with (1 + (queue_len k - 1)) at 1 by lia. rewrite cells_app, cells_1 by (lia || apply Hok). done.
Qed.

(** ** The interrupt line *)

(** The controller only requests interrupt 6. *)
Record lines_kept (m m' : MFP) : Prop := {
  lk_edge : m'.(active_edge) = m.(active_edge); lk_direction : m'.(data_direction) = m.(data_direction);
  lk_enable : m'.(irq_enable) = m.(irq_enable); lk_mask : m'.(irq_mask) = m.(irq_mask);
  lk_vr : m'.(vr) = m.(vr); lk_inservice : m'.(irq_inservice) = m.(irq_inservice);
  lk_ticks : m'.(timerCounter) = m.(timerCounter);
  lk_others : ∀ j, 0 <= j → j ≠ 6 → Z.testbit m'.(irq_pending) j = Z.testbit m.(irq_pending) j;
  lk_pending : Z.testbit m.(irq_pending) 6 = true → Z.testbit m'.(irq_pending) 6 = true }.

#[global] Instance lines_kept_preorder : PreOrder lines_kept.
Proof.
  split.
  - intros m. by split.
  - intros m1 m2 m3 [] []. split; try congruence.
    + intros j Hj Hne. rewrite lk_others1 by done. by apply lk_others0.
    + auto.
Qed.

(** A byte in the receiver interrupts the CPU: the interrupt is enabled in the MFP and in the
    controller, and the line is an input with the falling edge active. *)
Definition listening (k : ikbd) : bool :=
  Z.testbit k.(mfp).(irq_enable) 6 && Z.testbit k.(cr) 7
  && negb (Z.testbit k.(mfp).(data_direction) 4) && negb (Z.testbit k.(mfp).(active_edge) 4).

Lemma listening_kept k k' : kept k k' → lines_kept k.(mfp) k'.(mfp) → listening k' = listening k.
Proof. intros [] []. unfold listening. congruence. Qed.

(** Line 4 is wired to interrupt 6. *)
Lemma line4_irq m v j : line_irq (line_fires m 0x10 v) lines j = line_fires m 0x10 v 4 && (j =? 6).
Proof.
  assert (∀ i, Z.testbit 0x10 i = false → line_fires m 0x10 v i = false) as H.
  { intros i E. unfold line_fires. by rewrite E, andb_false_r. }
  unfold line_irq, lines, map_gpip_to_ier. change (seqZ 0 8) with [0; 1; 2; 3; 4; 5; 6; 7]. cbn [zip_with existsb].
  rewrite (H 0), (H 1), (H 2), (H 3), (H 5), (H 6), (H 7) by done. by rewrite !andb_false_l, !orb_false_l, !orb_false_r.
Qed.

Lemma k_lines_spec v k :
  mfp_ok k.(mfp) →
  ∃ m, k_lines 0x10 v k = Ret (k_mfp m k) ∧ mfp_ok m ∧ lines_kept k.(mfp) m ∧ Z.testbit m.(input) 4 = Z.testbit v 4
    ∧ Z.testbit m.(irq_pending) 6 = Z.testbit k.(mfp).(irq_pending) 6 || (line_fires k.(mfp) 0x10 v 4 && Z.testbit k.(mfp).(irq_enable) 6).
Proof.
  intros Hok. destruct (line_interrupts_frame 0x10 v _ Hok) as (m & E & Hf & Ho & Ht & Hi & Hp). exists m.
  unfold k_lines, mbind, res_bind. rewrite E. split_and!; [done|done| |by rewrite Hi|by rewrite Hp, line4_irq, andb_true_r].
  destruct Hf. split; try done.
  - intros j Hj Hne. by rewrite Hp, line4_irq, (proj2 (Z.eqb_neq _ _) Hne), andb_false_r, orb_false_r.
  - intros E6. by rewrite Hp, E6.
Qed.

Lemma ThrowInterrupt_spec k :
  mfp_ok k.(mfp) → in_u 8 k.(sr) →
  ∃ s m, ThrowInterrupt k = Ret (k_sr s (k_mfp m k)) ∧ in_u 8 s ∧ Z.testbit s 0 = Z.testbit k.(sr) 0 ∧ mfp_ok m ∧ lines_kept k.(mfp) m
    ∧ (listening k = true → Z.testbit m.(irq_pending) 6 = true).
Proof.
  intros Hok Hs. unfold ThrowInterrupt. change (mfp_handleRead 0 0xfffa09 k.(mfp)) with (u8 k.(mfp).(irq_enable), k.(mfp)).
  cbv iota zeta. change (0x40) with (1 ≪ 6). rewrite land_bit_0, testbit_u8 by (cbn; lia). cbn [Z.ltb Z.compare Pos.compare Pos.compare_cont andb k_mfp cr].
  unfold listening. destruct (Z.testbit (irq_enable (mfp k)) 6) eqn:E6; cbn [negb andb].
  2: { exists k.(sr), k.(mfp). split_and!; [by destruct k|done|done|done|done|discriminate]. }
  change ACIA_CR_REC_INTER with 7. rewrite land_bit_0 by lia. destruct (Z.testbit (cr k) 7); cbn [negb andb].
  2: { exists k.(sr), k.(mfp). split_and!; [by destruct k|done|done|done|done|discriminate]. }
  match goal with |- context [k_lines 0x10 0x10 ?k1] => destruct (k_lines_spec 0x10 k1 Hok) as (m1 & E1 & Ho1 & Hk1 & Hi1 & Hp1) end.
  unfold mbind, res_bind. rewrite E1.
  match goal with |- context [k_lines 0x10 0 ?k1] => destruct (k_lines_spec 0 k1 Ho1) as (m2 & E2 & Ho2 & Hk2 & Hi2 & Hp2) end.
  rewrite E2. exists (k.(sr) .| (1 ≪ ACIA_SR_INTERRUPT)), m2.
  split_and!; [done|apply in_u_lor; [done|by apply in_ub_spec|lia]|rewrite Z.lor_spec; apply orb_false_r|done|by transitivity m1|].
  intros [Hd%negb_true_iff He%negb_true_iff]%andb_prop. rewrite Hp2. cbn [k_mfp k_sr mfp] in *. destruct Hk1.
  rewrite lk_enable0, E6, andb_true_r. unfold line_fires. rewrite lk_direction0, lk_edge0, Hi1, Hd, He. cbn. apply orb_true_r.
Qed.

(** ** The queue *)

Lemma packet_len_range b : 1 <= packet_len b <= 8.
Proof. unfold packet_len. repeat case_match; lia. Qed.

(** The state with a byte written and before the cleanup. *)
Lemma written_cells v k :
  ikbd_ok k → cells (aset k.(inbuffer) k.(inwrite) v) k.(inread) (queue_len k + 1) = queue k ++ [v].
Proof.
  intros Hok. pose proof (queue_len_range k) as Hr. rewrite cells_app, <- (inwrite_queue k Hok), cells_1, aget_aset_eq by (lia || apply Hok).
  f_equal. apply cells_set; [lia|]. intros j Hj E. rewrite (inwrite_queue k Hok) in E. apply mod_len_inj in E; lia.
Qed.

Lemma send_queue v k :
  ikbd_ok k →
  ∃ r, 0 <= r < inbufferlen
    ∧ queue (k_inread r (k_inwrite ((k.(inwrite) + 1) mod inbufferlen) (k_inbuffer (aset k.(inbuffer) k.(inwrite) v) k))) = push v (queue k)
    ∧ r = if k.(inread) =? (k.(inwrite) + 1) mod inbufferlen
          then (k.(inread) + packet_len (aget (aset k.(inbuffer) k.(inwrite) v) k.(inread))) mod inbufferlen else k.(inread).
Proof.
  intros Hok. pose proof (written_cells v k Hok) as Hc. pose proof (queue_len_range k) as Hr. pose proof (length_queue k) as Hl.
  assert ((k.(inwrite) + 1) mod inbufferlen = (k.(inread) + (queue_len k + 1)) mod inbufferlen) as Ew.
  { rewrite (inwrite_queue k Hok) at 1. rewrite mod_len_shift. f_equal. lia. }
  assert (∀ r' n, 0 <= n < inbufferlen → (k.(inwrite) + 1) mod inbufferlen = (r' + n) mod inbufferlen →
    queue (k_inread (r' mod inbufferlen) (k_inwrite ((k.(inwrite) + 1) mod inbufferlen) (k_inbuffer (aset k.(inbuffer) k.(inwrite) v) k)))
    = cells (aset k.(inbuffer) k.(inwrite) v) (r' mod inbufferlen) n) as Hq.
  { intros r' n Hn E. unfold queue, queue_len. cbn [k_inread k_inwrite k_inbuffer inread inwrite inbuffer]. f_equal.
    rewrite E, Zminus_mod_idemp_r, Zminus_mod_idemp_l. replace (r' + n - r') with n by lia. by apply Z.mod_small. }
  destruct (Z.eqb_spec k.(inread) ((k.(inwrite) + 1) mod inbufferlen)) as [E|E]; (eexists; split; [|split; [|reflexivity]]).
  - apply mod_len_range.
  - assert (queue_len k = inbufferlen - 1) as El.
    { rewrite Ew in E. rewrite <- (Z.mod_small k.(inread) inbufferlen) in E at 1 by apply Hok.
      destruct (decide (queue_len k = inbufferlen - 1)); [done|]. apply mod_len_inj in E; lia. }
    set (p := packet_len _). pose proof (packet_len_range (aget (aset k.(inbuffer) k.(inwrite) v) k.(inread))) as Hp. fold p in Hp.
    rewrite (Hq _ (inbufferlen - p)) by (rewrite ?Ew, ?El; f_equal; unfold inbufferlen in *; lia).
    rewrite cells_drop by (unfold inbufferlen; lia). unfold push. rewrite (proj2 (Z.ltb_ge _ _)) by lia.
    replace inbufferlen with (queue_len k + 1) by lia. rewrite Hc. f_equal. unfold p. f_equal. f_equal.
    rewrite <- Hc, (Z.add_comm _ 1), cells_app, cells_1 by (lia || apply Hok). done.
  - apply Hok.
  - rewrite <- (Z.mod_small k.(inread) inbufferlen) at 1 by apply Hok.
    assert (queue_len k + 1 < inbufferlen) as El.
    { destruct (decide (queue_len k = inbufferlen - 1)) as [El|]; [|lia]. destruct E. rewrite Ew, El.
      symmetry. apply (mod_len_unique _ _ 1); [apply Hok|lia]. }
    rewrite (Hq _ (queue_len k + 1)) by (done || lia). rewrite Z.mod_small by apply Hok. rewrite Hc. unfold push.
    by rewrite (proj2 (Z.ltb_lt _ _)) by lia.
Qed.

Lemma in_len_true i n : 0 <= i < n → in_len i n = true.
Proof. unfold in_len. lia. Qed.

Lemma k_read_ok a n i : 0 <= i < n → k_read a n i = Ret (aget a i).
Proof. intros. unfold k_read. by rewrite in_len_true. Qed.

Lemma k_write_ok a n i v : 0 <= i < n → k_write a n i v = Ret (aset a i v).
Proof. intros. unfold k_write. by rewrite in_len_true. Qed.

(** A byte sent is appended to the queue, and interrupts a CPU that listens. *)
Lemma send_spec v k :
  ikbd_ok k →
  ∃ k', send v k = Ret k' ∧ ikbd_ok k' ∧ queue k' = push (u8 v) (queue k) ∧ kept k k' ∧ lines_kept k.(mfp) k'.(mfp) ∧ Z.testbit k'.(sr) 0 = true
    ∧ (listening k = true → Z.testbit k'.(mfp).(irq_pending) 6 = true).
Proof.
  intros Hok. destruct (send_queue (u8 v) k Hok) as (r & Hr & Hq & Er). unfold send. cbv zeta. unfold mbind, res_bind.
  rewrite k_write_ok by apply Hok. cbn [k_inbuffer k_inwrite inwrite inread inbuffer]. rewrite land_len.
  set (k1 := k_inread r (k_inwrite ((k.(inwrite) + 1) mod inbufferlen) (k_inbuffer (aset k.(inbuffer) k.(inwrite) (u8 v)) k))) in Hq.
  lazymatch goal with |- context [match ?x with Ret a => _ | Trap e => Trap e end] => assert (x = Ret k1) as -> end.
  { unfold k1. rewrite Er. destruct (_ =? _); [|done]. rewrite k_read_ok by apply Hok. by rewrite land_len. }
  destruct (ThrowInterrupt_spec (k_sr (k1.(sr) .| (1 ≪ ACIA_SR_RXFULL)) k1)) as (s & m & E & Hs & Hs0 & Hm & Hl & Hp).
  { apply Hok. } { cbn. apply in_u_lor; [apply Hok|by apply in_ub_spec|lia]. }
  rewrite E. eexists. split; [reflexivity|]. split_and!; [|exact Hq|by split|exact Hl| |exact Hp].
  2: { change (Z.testbit s 0 = true). rewrite Hs0. cbn [k_sr sr]. rewrite Z.lor_spec. apply orb_true_r. }
  destruct Hok. split; cbn; try done; [apply mod_len_range|]. by apply acells_aset; [|apply in_u_u8].
Qed.

(** The CPU takes the byte at the front; the interrupt line falls again when more wait. *)
Lemma ReadData_spec k b q :
  ikbd_ok k → queue k = b :: q →
  ∃ k', ReadData k = Ret (b, k') ∧ ikbd_ok k' ∧ queue k' = q ∧ k'.(cr) = k.(cr) ∧ k'.(outwrite) = k.(outwrite) ∧ lines_kept k.(mfp) k'.(mfp)
    ∧ Z.testbit k'.(sr) 0 = negb (bool_decide (q = []))
    ∧ (q ≠ [] → listening k = true → Z.testbit k'.(mfp).(irq_pending) 6 = true).
Proof.
  intros Hok Eq. pose proof (queue_empty k Hok) as He. rewrite Eq in He. rewrite bool_decide_eq_false_2 in He by done.
  unfold ReadData. rewrite He. apply Z.eqb_neq in He. destruct (queue_pop k Hok He) as [Eq1 _]. rewrite Eq in Eq1. injection Eq1 as -> ->.
  unfold mbind, res_bind. rewrite k_read_ok by apply Hok. cbv zeta.
  set (k1 := k_inread _ (k_rxdr _ k)). assert (ikbd_ok k1) as Hok1.
  { destruct Hok. split; cbn; try done. rewrite land_len. apply mod_len_range. }
  change (queue (k_inread _ k)) with (queue k1). rewrite (queue_empty k1 Hok1).
  case_bool_decide as Hq.
  - destruct (k_lines_spec 0x10 k1) as (m & E & Ho & Hl & _); [apply Hok|]. change (_ (_ (_ .& _) (k_rxdr _ k))) with k1. rewrite E. eexists. split; [reflexivity|].
    split_and!; try done.
    + destruct Hok1. split; try done. cbn. apply in_u_land_l; [done|lia].
    + cbn [k_sr k_mfp sr]. rewrite Z.land_spec. apply andb_false_r.
  - destruct (ThrowInterrupt_spec (k_sr (k1.(sr) .| (1 ≪ ACIA_SR_RXFULL)) k1)) as (s & m & E & Hs & Hs0 & Hm & Hl & Hp).
    { apply Hok. } { cbn. apply in_u_lor; [apply Hok|by apply in_ub_spec|lia]. }
    rewrite E. eexists. split; [reflexivity|]. split_and!; try done; [by destruct Hok1|].
    cbn [k_sr k_mfp sr]. rewrite Hs0. cbn [k_sr sr]. rewrite Z.lor_spec. apply orb_true_r.
Qed.

(** ** Commands *)

(** The bytes of the command that is being received. *)
Definition pending_command (k : ikbd) : list Z := map (aget k.(outbuffer)) (seqZ 0 k.(outwrite)).

(** The lengths of the commands, by their first byte; the others end with the seventh byte. *)
Definition command_table : list (Z * list Z) :=
  [(1, [0x08; 0x0d; 0x0f; 0x10; 0x11; 0x12; 0x13; 0x14; 0x15; 0x16; 0x18; 0x1a; 0x1c]); (2, [0x07; 0x17]);
   (3, [0x0a; 0x0b; 0x0c; 0x20; 0x21]); (4, [0x09]); (5, [0x0e]); (6, [0x19; 0x1b])].

(** [c], received so far, is a whole command. *)
Definition complete (c : list Z) : bool :=
  let n := Z.of_nat (length c) in
  (n =? 7) || existsb (λ '(len, cs), (n =? len) && existsb (Z.eqb (default 0 (head c))) cs) command_table
  || bool_decide (c = [0x80; 0x01]).

(** The commands in a stream of bytes after [p], and the bytes of the last, unfinished one. *)
Fixpoint framed (p bs : list Z) : list (list Z) * list Z :=
  match bs with
  | [] => ([], p)
  | b :: bs =>
    let c := p ++ [b] in
    if complete c then let '(cs, r) := framed [] bs in (c :: cs, r) else framed c bs
  end.

(** How the stream is meant to be taken apart: behind a memory load (0x20) come bytes that
    are its data, not commands; [data c bs] is their number for the load [c] before the bytes
    [bs], and [skip] the number of those still to come. *)
Fixpoint meant (data : list Z → list Z → nat) (skip : nat) (p bs : list Z) : list (list Z) * list Z :=
  match bs with
  | [] => ([], p)
  | b :: bs =>
    match skip with
    | S skip => meant data skip p bs
    | O =>
      let c := p ++ [b] in
      if complete c then
        let '(cs, r) := meant data (if bool_decide (head c = Some 0x20) then data c bs else O) [] bs in (c :: cs, r)
      else meant data O c bs
    end
  end.

Definition no_load (c : list Z) : Prop := head c ≠ Some 0x20.

(** The modes of the controller, the joysticks, and the queue. *)
Record modes := mk_modes {
  a_mouse : bool; a_rel : bool; a_yrev : bool; a_joy : Z * Z; a_state : Z * Z; a_type : ikbd_packet_t; a_queue : list Z }.

Definition abstract (k : ikbd) : modes :=
  mk_modes k.(mouse_enabled) k.(mouserel_enabled) k.(yaxis_reversed) (aget k.(joy_enabled) 0, aget k.(joy_enabled) 1)
    (aget k.(joy_state) 0, aget k.(joy_state) 1) k.(intype) (queue k).

Definition a_push (v : Z) (a : modes) : modes :=
  mk_modes a.(a_mouse) a.(a_rel) a.(a_yrev) a.(a_joy) a.(a_state) a.(a_type) (push (u8 v) a.(a_queue)).

(** What a whole command does. *)
Definition exec_command (now : tm) (c : list Z) (a : modes) : modes :=
  let '(mk_modes ms rl y (j0, j1) st ty q) := a in
  if bool_decide (c = [0x80; 0x01]) then a_push 0xf1 (mk_modes true true false (0, 1) (0, 0) IKBD_PACKET_UNKNOWN [])
  else match length c, default 0 (head c) with
  | 1%nat, 0x08 => mk_modes true true y (j0, 1) st ty q
  | 4%nat, 0x09 => mk_modes true false y (j0, 1) st ty q
  | 3%nat, 0x0a => mk_modes true rl y (j0, 1) st ty q
  | 1%nat, 0x0f => mk_modes ms rl true (j0, j1) st ty q
  | 1%nat, 0x10 => mk_modes ms rl false (j0, j1) st ty q
  | 1%nat, 0x12 => mk_modes false rl y (j0, j1) st ty q
  | 1%nat, 0x16 => a_push st.2 (a_push 0xff (mk_modes ms rl y (j0, j1) st IKBD_PACKET_JOYSTICK q))
  | 1%nat, 0x1a => mk_modes ms rl y (0, 0) st ty q
  | 1%nat, 0x1c =>
    foldl (λ a v, a_push v a) a
      [0xfc; int2bcd (Z.rem now.(tm_year) 100); int2bcd (now.(tm_mon) + 1); int2bcd now.(tm_mday);
       int2bcd now.(tm_hour); int2bcd now.(tm_min); int2bcd now.(tm_sec)]
  | _, _ => a
  end.

(** A result that is a good state. *)
Definition gives (r : res ikbd) (P : ikbd → Prop) : Prop := ∃ k, r = Ret k ∧ ikbd_ok k ∧ P k.

Lemma gives_bind r f P Q : gives r P → (∀ k, ikbd_ok k → P k → gives (f k) Q) → gives (k ← r; f k) Q.
Proof. intros (k & -> & Hok & HP) H. by apply H. Qed.

Lemma gives_ret k (P : ikbd → Prop) : ikbd_ok k → P k → gives (Ret k) P.
Proof. intros. by exists k. Qed.

Lemma gives_mono r (P Q : ikbd → Prop) : gives r P → (∀ k, P k → Q k) → gives r Q.
Proof. intros (k & ? & ? & ?) HPQ. exists k. auto. Qed.

(** Sending seen from above. *)
Definition pushed (l : list Z) (k k' : ikbd) : Prop :=
  abstract k' = foldl (λ a v, a_push v a) (abstract k) l ∧ k'.(outwrite) = k.(outwrite) ∧ k'.(outbuffer) = k.(outbuffer)
  ∧ k'.(cr) = k.(cr) ∧ lines_kept k.(mfp) k'.(mfp).

Lemma gives_send v k : ikbd_ok k → gives (send v k) (pushed [v] k).
Proof.
  intros Hok. destruct (send_spec v k Hok) as (k' & E & Hok' & Hq & [] & Hl & _ & _). exists k'. split_and!; [done..|].
  split_and!; try done. unfold abstract. cbn. unfold a_push. cbn. rewrite Hq. congruence.
Qed.

Lemma pushed_app l1 l2 k1 k2 k3 : pushed l1 k1 k2 → pushed l2 k2 k3 → pushed (l1 ++ l2) k1 k3.
Proof.
  intros (E1 & ? & ? & ? & L1) (E2 & ? & ? & ? & L2). unfold pushed. rewrite foldl_app, <- E1. split_and!; try congruence. by transitivity k2.(mfp).
Qed.

Lemma gives_send_all l k : ikbd_ok k → gives (send_all l k) (pushed l k).
Proof.
  intros Hok. unfold send_all. set (F := λ r v, k ← r; send v k).
  assert (∀ l r p, gives r (pushed p k) → gives (foldl F r l) (pushed (p ++ l) k)) as H.
  { clear l. induction l as [|v l IH]; intros r p Hr; cbn [foldl]; [by rewrite app_nil_r|].
    replace (p ++ v :: l) with ((p ++ [v]) ++ l) by by rewrite <- app_assoc. apply IH.
    apply (gives_bind _ _ _ _ Hr). intros k1 Hok1 H1. eapply gives_mono; [by apply gives_send|]. intros k2. by apply pushed_app. }
  apply (H l (Ret k) []). apply gives_ret; [done|]. split_and!; done.
Qed.

Lemma gives_joystick_packet n k :
  ikbd_ok k → gives (joystick_packet n k) (pushed [0xfe .| n; aget k.(joy_state) n] (k_intype IKBD_PACKET_JOYSTICK k)).
Proof.
  intros Hok. unfold joystick_packet. destruct (send_spec (0xfe .| n) (k_intype IKBD_PACKET_JOYSTICK k)) as (k1 & E1 & Ho1 & Hq1 & Hk1 & Hl1 & _ & _).
  { by destruct Hok. }
  unfold mbind, res_bind. rewrite E1. eapply gives_mono; [by apply gives_send|]. intros k2 H2. rewrite (kf_state _ _ Hk1) in H2.
  change [?x; ?y] with ([x] ++ [y]). refine (pushed_app _ _ _ k1 _ _ H2). destruct Hk1. split_and!; try done.
  unfold abstract, a_push. cbn in *. rewrite Hq1. unfold a_push. cbn. congruence.
Qed.

(** What one more byte of a command does. *)
Definition command_step (now : tm) (c : list Z) (k k' : ikbd) : Prop :=
  lines_kept k.(mfp) k'.(mfp) ∧ k'.(cr) = k.(cr)
  ∧ if complete c then abstract k' = exec_command now c (abstract k) ∧ pending_command k' = []
    else abstract k' = abstract k ∧ pending_command k' = c.

Lemma ok_outwrite n k : ikbd_ok k → 0 <= n <= 6 → ikbd_ok (k_outwrite n k).
Proof. intros [] ?. by split. Qed.

Lemma done_ok n k : ikbd_ok (k_outwrite n k) → ikbd_ok (k_outwrite 0 k).
Proof. intros []. by split. Qed.

Lemma sent_step now c l k k1 k' :
  pushed l k1 k' → lines_kept k.(mfp) k1.(mfp) → k1.(cr) = k.(cr) → complete c = true →
  foldl (λ a v, a_push v a) (abstract k1) l = exec_command now c (abstract k) → command_step now c k (k_outwrite 0 k').
Proof.
  intros (E & _ & _ & ? & L) ? ? Hc Hx. split; [by transitivity k1.(mfp)|]. split; [cbn; congruence|]. rewrite Hc. split; [|done]. rewrite <- Hx, <- E. done.
Qed.

(** The branches on the first byte [h]. *)
Ltac by_first_byte h :=
  repeat match goal with |- context [h =? ?x] => destruct (Z.eqb_spec h x) as [->|?]; cbn [orb andb] end.

(** A command that ends without an answer: the state [k1], with no byte pending. *)
Lemma done_step now c k k1 :
  ikbd_ok k1 → lines_kept k.(mfp) k1.(mfp) → k1.(cr) = k.(cr) → complete c = true → abstract k1 = exec_command now c (abstract k) →
  gives (command_done k1) (command_step now c k).
Proof. intros Hok Hl Hr Hc Hx. apply gives_ret; [by apply ok_outwrite|]. split_and!; [done..|]. rewrite Hc. done. Qed.

(** A command that goes on. *)
Lemma more_step now c k : ikbd_ok k → pending_command k = c → complete c = false → gives (Ret k) (command_step now c k).
Proof. intros Hok Hp Hc. apply gives_ret; [done|]. split_and!; [done..|]. by rewrite Hc. Qed.

Ltac ends := apply done_step; [by (assumption || (match goal with H : ikbd_ok _ |- _ => destruct H end; split)) | done | done | done |
  unfold abstract, exec_command; cbn; repeat (rewrite aget_aset_eq || rewrite aget_aset_ne by done); done].
Ltac close_nat := repeat match goal with |- context [Z.of_nat ?n] => let z := eval compute in (Z.of_nat n) in change (Z.of_nat n) with z end.
Ltac goes_on h := apply more_step; [done | done |
  unfold complete; cbn; close_nat; cbn; rewrite ?(proj2 (Z.eqb_neq h _)) by assumption; cbn; rewrite ?orb_false_r;
  first [reflexivity | apply bool_decide_eq_false_2; congruence]].

Lemma command_1_step now h k : ikbd_ok k → pending_command k = [h] → gives (command_1 now h k) (command_step now [h] k).
Proof.
  intros Hok Hp. unfold command_1. by_first_byte h; try ends.
  - eapply gives_bind; [by apply gives_joystick_packet|]. intros k' Ho' H'. apply gives_ret; [by apply ok_outwrite|].
    eapply sent_step; [exact H'|done..].
  - eapply gives_bind; [by apply gives_send_all|]. intros k' Ho' H'. apply gives_ret; [by apply ok_outwrite|].
    eapply sent_step; [exact H'|done..].
  - goes_on h.
Qed.

Lemma command_2_step now h b k :
  ikbd_ok k → pending_command k = [h; b] → aget k.(outbuffer) 1 = b → gives (command_2 h k) (command_step now [h; b] k).
Proof.
  intros Hok Hp Hb. unfold command_2. by_first_byte h; try ends; [|goes_on h]. rewrite Hb.
  destruct (Z.eqb_spec b 1) as [->|]; [|goes_on b]. assert (ikbd_ok (k_outwrite 0 (ikbd_reset k))) as Hr by (destruct Hok; by split).
  eapply gives_mono; [by apply gives_send|]. intros k' H'. pose proof H' as (_ & E0 & _). split_and!; [apply H'|by destruct H' as (_ & _ & _ & -> & _)|].
  change (complete [128; 1]) with true. cbv iota. split; [|unfold pending_command; by rewrite E0]. destruct H' as [-> _]. unfold abstract, exec_command. cbn.
  repeat (rewrite aget_aset_eq || rewrite aget_aset_ne by done). done.
Qed.

Lemma command_3_step now h b1 b2 k :
  ikbd_ok k → pending_command k = [h; b1; b2] → gives (command_3 h k) (command_step now [h; b1; b2] k).
Proof. intros Hok Hp. unfold command_3. by_first_byte h; try ends. goes_on h. Qed.

Lemma command_4_step now h b1 b2 b3 k :
  ikbd_ok k → pending_command k = [h; b1; b2; b3] → gives (command_4 h k) (command_step now [h; b1; b2; b3] k).
Proof. intros Hok Hp. unfold command_4. by_first_byte h; try ends. goes_on h. Qed.

Lemma command_5_step now h b1 b2 b3 b4 k :
  ikbd_ok k → pending_command k = [h; b1; b2; b3; b4] →
  gives (if h =? 0x0e then command_done k else Ret k) (command_step now [h; b1; b2; b3; b4] k).
Proof. intros Hok Hp. by_first_byte h; try ends. goes_on h. Qed.

Lemma command_6_step now h b1 b2 b3 b4 b5 k :
  ikbd_ok k → pending_command k = [h; b1; b2; b3; b4; b5] →
  gives (if (h =? 0x19) || (h =? 0x1b) then command_done k else Ret k) (command_step now [h; b1; b2; b3; b4; b5] k).
Proof. intros Hok Hp. by_first_byte h; try ends. goes_on h. Qed.

Lemma WriteData_step now v k :
  ikbd_ok k → gives (WriteData now v k) (command_step now (pending_command k ++ [v]) k).
Proof.
  intros Hok. unfold WriteData. cbn [k_txdr outbuffer outwrite]. rewrite k_write_ok by (pose proof (kk_outwrite _ Hok); unfold outbufferlen; lia).
  unfold mbind at 1, res_bind at 1. cbv zeta. set (a := aset k.(outbuffer) k.(outwrite) v).
  assert (map (aget a) (seqZ 0 (k.(outwrite) + 1)) = pending_command k ++ [v]) as <-.
  { pose proof (kk_outwrite _ Hok). rewrite seqZ_app, map_app by lia. f_equal.
    - apply map_ext_in. intros i Hi%list_elem_of_In%elem_of_seqZ. apply aget_aset_ne. lia.
    - rewrite seqZ_cons by lia. cbn [Z.pred Z.add Z.pos_sub Pos.pred_double]. cbn [map]. rewrite Z.add_0_l. unfold a. by rewrite aget_aset_eq. }
  set (k1 := k_outwrite (k.(outwrite) + 1) (k_outbuffer a (k_txdr v k))).
  change (outbuffer (k_outbuffer a (k_txdr v k))) with a. change (outwrite k1) with (k.(outwrite) + 1). change (outbuffer k1) with a.
  assert (abstract k1 = abstract k) as Ea by done. assert (lines_kept k.(mfp) k1.(mfp)) as Hl by done.
  assert (k.(outwrite) + 1 <= 6 → ikbd_ok k1) as Ho1 by (intros ?; destruct Hok; split; (done || cbn; lia)).
  assert (ikbd_ok (k_outwrite 0 k1)) as Ho0 by (destruct Hok; split; (done || cbn; lia)).
  change (outwrite (k_outbuffer a (k_txdr v k))) with k.(outwrite).
  change (command_step now ?c k) with (command_step now c k1).
  assert (pending_command k1 = map (aget a) (seqZ 0 (k.(outwrite) + 1))) as Hp by done. rewrite <- Hp.
  assert (k.(outwrite) = 0 ∨ k.(outwrite) = 1 ∨ k.(outwrite) = 2 ∨ k.(outwrite) = 3 ∨ k.(outwrite) = 4 ∨ k.(outwrite) = 5 ∨ k.(outwrite) = 6) as Hn
    by (pose proof (kk_outwrite _ Hok); lia).
  destruct Hn as [E|[E|[E|[E|[E|[E|E]]]]]]; rewrite E in Hp, Ho1 |- *; rewrite Hp.
  - apply command_1_step; [apply Ho1; lia|exact Hp].
  - apply command_2_step; [apply Ho1; lia|exact Hp|done].
  - apply command_3_step; [apply Ho1; lia|exact Hp].
  - apply command_4_step; [apply Ho1; lia|exact Hp].
  - cbn [Z.add Pos.add Pos.succ Z.eqb Pos.eqb]. apply (command_5_step now (aget a 0) (aget a 1) (aget a 2) (aget a 3) (aget a 4)); [apply Ho1; lia|exact Hp].
  - cbn [Z.add Pos.add Pos.succ Z.eqb Pos.eqb]. apply (command_6_step now (aget a 0) (aget a 1) (aget a 2) (aget a 3) (aget a 4) (aget a 5)); [apply Ho1; lia|exact Hp].
  - cbn [Z.add Pos.add Pos.succ Z.eqb Pos.eqb]. apply gives_ret; [exact Ho0|]. split_and!; [done|done|].
    change (map _ _) with [aget a 0; aget a 1; aget a 2; aget a 3; aget a 4; aget a 5; aget a 6]. unfold exec_command, abstract.
    by rewrite bool_decide_eq_false_2.
Qed.

(** The bytes of [bs], written one after the other. *)
Fixpoint WriteData_all (now : tm) (bs : list Z) (k : ikbd) : res ikbd :=
  match bs with [] => Ret k | b :: bs => k ← WriteData now b k; WriteData_all now bs k end.

(** What the code does with any stream: a memory load, 0x20, is a command of three bytes. *)
Lemma stream_framed (now : tm) (bs : list Z) (k : ikbd) : ikbd_ok k →
  ∃ k', WriteData_all now bs k = Ret k' ∧ ikbd_ok k'
    ∧ abstract k' = foldl (λ a c, exec_command now c a) (abstract k) (framed (pending_command k) bs).1
    ∧ pending_command k' = (framed (pending_command k) bs).2.
Proof.
  revert k. induction bs as [|b bs IH]; intros k Hok; cbn [WriteData_all framed].
  { by exists k. }
  destruct (WriteData_step now b k Hok) as (k1 & E1 & Ho1 & _ & _ & H). unfold mbind, res_bind. rewrite E1.
  destruct (IH k1 Ho1) as (k' & E' & Ho' & Ha & Hp). exists k'. rewrite Ha, Hp.
  destruct (complete (pending_command k ++ [b])); destruct H as [-> ->]; [|done]. by destruct (framed [] bs).
Qed.

(** Without a memory load the two ways to take a stream apart agree. *)
Lemma meant_framed data bs : ∀ p, Forall no_load (meant data 0 p bs).1 → meant data 0 p bs = framed p bs.
Proof.
  induction bs as [|b bs IH]; intros p; cbn [meant framed]; [done|].
  destruct (complete (p ++ [b])); [|apply IH]. destruct (bool_decide_reflect (head (p ++ [b]) = Some 0x20)) as [E|E].
  - destruct (meant data (data (p ++ [b]) bs) [] bs). cbn [fst]. intros [H _]%Forall_cons. by destruct H.
  - destruct (meant data 0 [] bs) eqn:Em. cbn [fst]. intros [_ H]%Forall_cons.
    rewrite <- (IH []) by (by rewrite Em). by rewrite Em.
Qed.

(** C13: the controller takes the stream of bytes it is sent apart into commands by their
    lengths (a first byte that is no command: seven bytes), whatever the stream, as long as
    no "write to RAM", 0x20, of it is complete, and executes each of them once, when its last
    byte arrives: the modes, the joystick states, the queue of answers are those of executing
    the commands of the stream in order, and the bytes of the last command wait for the rest
    of it.  The data that follow a 0x20, however many they are ([data]), should be left out
    of the commands; the code does not do that, as a FIXME in it says, and runs them as
    commands ([load_data_executed]). *)
Theorem commands_framed (data : list Z → list Z → nat) (now : tm) (bs : list Z) (k : ikbd) (Hok : ikbd_ok k)
    (Hload : Forall no_load (meant data 0 (pending_command k) bs).1) :
  ∃ k', WriteData_all now bs k = Ret k' ∧ ikbd_ok k'
    ∧ abstract k' = foldl (λ a c, exec_command now c a) (abstract k) (meant data 0 (pending_command k) bs).1
    ∧ pending_command k' = (meant data 0 (pending_command k) bs).2.
Proof. rewrite (meant_framed _ _ _ Hload). by apply stream_framed. Qed.

(** The bytes behind a memory load are executed as commands. *)
Lemma load_data_executed (now : tm) (a1 a2 : Z) (ds : list Z) (k : ikbd) :
  ikbd_ok k → pending_command k = [] →
  ∃ k', WriteData_all now (0x20 :: a1 :: a2 :: ds) k = Ret k'
    ∧ abstract k' = foldl (λ a c, exec_command now c a) (abstract k) (framed [] ds).1.
Proof.
  intros Hok Hp. destruct (stream_framed now (0x20 :: a1 :: a2 :: ds) k Hok) as (k' & E & _ & Ha & _).
  exists k'. split; [done|]. rewrite Ha, Hp. change (framed [] (0x20 :: a1 :: a2 :: ds)) with
    (let '(cs, r) := framed [] ds in ([0x20; a1; a2] :: cs, r)).
  destruct (framed [] ds) as [cs r]. cbn [fst foldl]. by f_equal.
Qed.

(** The data byte 0x12 switches the mouse off. *)
Example load_data_disables_mouse (k : ikbd) (now : tm) : ikbd_ok k → pending_command k = [] →
  ∃ k', WriteData_all now [0x20; 0; 0x80; 0x12] k = Ret k' ∧ k'.(mouse_enabled) = false.
Proof.
  intros Hok Hp. destruct (load_data_executed now 0 0x80 [0x12] k Hok Hp) as (k' & E & Ha). exists k'. split; [done|].
  apply (f_equal a_mouse) in Ha. exact Ha.
Qed.

(** ** Mouse motions *)

Notation motion := (Z * Z)%type.

(** The bytes of a mouse packet, and the sum of the motions of packets. *)
Definition packet_bytes (buttons : Z) (p : motion) : list Z := [0xf8 .| (buttons .& 3); u8 p.1; u8 p.2].
Definition packets_bytes (buttons : Z) (ps : list motion) : list Z := concat (map (packet_bytes buttons) ps).
Definition total (ps : list motion) : motion := foldr (λ p s, (p.1 + s.1, p.2 + s.2)) (0, 0) ps.

(** A motion that fits into a packet, and one read back from the signed bytes of a packet. *)
Definition small (p : motion) : Prop := Z.abs p.1 <= MOUSE_DELTA_MAX ∧ Z.abs p.2 <= MOUSE_DELTA_MAX.
Definition signed_bytes (p : motion) : Prop := -128 <= p.1 < 128 ∧ -128 <= p.2 < 128.

Lemma total_app ps qs : total (ps ++ qs) = ((total ps).1 + (total qs).1, (total ps).2 + (total qs).2).
Proof.
  induction ps as [|p ps IH]; cbn [app total foldr].
  - fold (total qs). cbn. by destruct (total qs).
  - fold (total (ps ++ qs)) (total ps). rewrite IH. cbn [fst snd]. f_equal; lia.
Qed.

Lemma u8_signed x y : -128 <= x < 128 → -128 <= y < 128 → u8 x = u8 y → x = y.
Proof. unfold u8. intros ?? E. Z.div_mod_to_equations. lia. Qed.

Lemma packets_bytes_app b ps qs : packets_bytes b (ps ++ qs) = packets_bytes b ps ++ packets_bytes b qs.
Proof. unfold packets_bytes. by rewrite map_app, concat_app. Qed.

(** The queue without its last three bytes. *)
Lemma queue_last3 k : ikbd_ok k → 3 < queue_len k →
  let mw := (k.(inwrite) - 3) mod inbufferlen in
  queue k = queue (k_inwrite mw k) ++ [aget k.(inbuffer) mw; aget k.(inbuffer) ((mw + 1) mod inbufferlen); aget k.(inbuffer) ((mw + 2) mod inbufferlen)]
  ∧ queue_len (k_inwrite mw k) = queue_len k - 3.
Proof.
  intros Hok Hn mw. pose proof (queue_len_range k) as Hr.
  assert (mw = (k.(inread) + (queue_len k - 3)) mod inbufferlen) as Emw.
  { unfold mw. rewrite (inwrite_queue k Hok), Zminus_mod_idemp_l. f_equal. lia. }
  assert (queue_len (k_inwrite mw k) = queue_len k - 3) as El.
  { unfold queue_len at 1. cbn [k_inwrite inwrite inread]. rewrite Emw, Zminus_mod_idemp_l.
    replace (_ - _) with (queue_len k - 3) by lia. rewrite Z.mod_small; lia. }
  split; [|done]. unfold queue at 2. rewrite El. cbn [k_inwrite inbuffer inread]. unfold queue.
  replace (queue_len k) with (queue_len k - 3 + 3) at 1 by lia. rewrite cells_app by lia. rewrite <- Emw. f_equal.
  unfold cells. change (seqZ 0 3) with [0; 1; 2]. cbn [map]. rewrite Z.add_0_r, (Z.mod_small mw) by (unfold mw; apply mod_len_range). done.
Qed.

(** The read index is one of the last [i] bytes. *)
Lemma inread_last k i : ikbd_ok k → 0 <= i <= 3 → (k.(inread) =? (k.(inwrite) - i) mod inbufferlen) = (queue_len k =? i).
Proof.
  intros Hok Hi. pose proof (queue_len_range k) as Hr. rewrite (inwrite_queue k Hok), Zminus_mod_idemp_l.
  rewrite <- (Z.mod_small k.(inread) inbufferlen) at 1 by apply Hok.
  destruct (Z.eqb_spec (k.(inread) mod inbufferlen) ((k.(inread) + queue_len k - i) mod inbufferlen)) as [E|E].
  - apply mod_len_inj in E; [|unfold inbufferlen in *; lia]. lia.
  - symmetry. apply Z.eqb_neq. intros <-. destruct E. f_equal. lia.
Qed.

(** No packet before this one, or one the CPU is reading. *)
Lemma Merge_none mx my b k :
  ikbd_ok k → k.(intype) ≠ IKBD_PACKET_MOUSE ∨ queue_len k <= 3 → MergeMousePacket mx my b k = Ret (mx, my, k).
Proof.
  intros Hok H. unfold MergeMousePacket. case_bool_decide as Ht; [|done]. destruct H as [|H]; [done|]. cbn [negb]. rewrite !land_len, !mod_len_shift.
  replace (k.(inwrite) - 3 + 1) with (k.(inwrite) - 2) by lia. replace (k.(inwrite) - 3 + 2) with (k.(inwrite) - 1) by lia.
  pose proof (inread_last k 0 Hok ltac:(lia)) as E0. rewrite Z.sub_0_r, Z.mod_small in E0 by apply Hok. rewrite E0, !inread_last by (done || lia).
  pose proof (queue_len_range k) as Hr. destruct (Z.eqb_spec (queue_len k) 0); [done|].
  by replace ((queue_len k =? 3) || (queue_len k =? 2) || (queue_len k =? 1)) with true by lia.
Qed.

(** The three bytes before the write index, if others wait before them, are taken for the
    previous packet. *)
Lemma Merge_last mx my b k pre h x y :
  ikbd_ok k → k.(intype) = IKBD_PACKET_MOUSE → queue k = pre ++ [h; x; y] → pre ≠ [] →
  ∃ k', ikbd_ok k' ∧ kept k k' ∧ k'.(mfp) = k.(mfp) ∧ k'.(sr) = k.(sr) ∧ queue k' = pre
    ∧ MergeMousePacket mx my b k
      = Ret (if (h =? 0xf8 .| (b .& 3)) && (Z.abs (mx + x) <=? MOUSE_DELTA_MAX) && (Z.abs (my + y) <=? MOUSE_DELTA_MAX)
             then (mx + x, my + y, k') else (mx, my, k)).
Proof.
  intros Hok Ht Hq Hpre. pose proof (queue_len_range k) as Hr.
  assert (3 < queue_len k) as Hlen.
  { rewrite <- length_queue, Hq, length_app. destruct pre; [done|]. cbn. lia. }
  destruct (queue_last3 k Hok Hlen) as [Hl3 _]. cbv zeta in Hl3. rewrite Hq in Hl3. apply app_inj_2 in Hl3 as [-> Hl3]; [|done].
  injection Hl3 as -> -> ->. eexists (k_inwrite _ k). split_and!; [|done..|].
  { destruct Hok; split; try done. apply mod_len_range. }
  unfold MergeMousePacket. rewrite Ht, !land_len, !mod_len_shift. cbn [negb].
  replace (k.(inwrite) - 3 + 1) with (k.(inwrite) - 2) by lia. replace (k.(inwrite) - 3 + 2) with (k.(inwrite) - 1) by lia.
  pose proof (inread_last k 0 Hok ltac:(lia)) as E0. rewrite Z.sub_0_r, Z.mod_small in E0 by apply Hok. rewrite E0, !inread_last by (done || lia).
  rewrite (proj2 (Z.eqb_neq _ 0)) by lia. replace ((queue_len k =? 3) || (queue_len k =? 2) || (queue_len k =? 1)) with false by lia.
  cbv zeta. unfold mbind, res_bind. rewrite !k_read_ok by apply mod_len_range. rewrite bool_decide_eq_true_2 by done. cbn [negb].
  replace ((_ <=? 0xf8) && (0xfb <=? _)) with false by lia. rewrite !Z.leb_antisym.
  destruct (aget k.(inbuffer) ((k.(inwrite) - 3) mod inbufferlen) =? _); cbn [negb andb]; [|done]. destruct (_ <? _); cbn [negb andb]; [done|]. by destruct (_ <? _).
Qed.

Lemma Merge_spec mx my b k :
  ikbd_ok k → small (mx, my) →
  ∃ px py k', MergeMousePacket mx my b k = Ret (px, py, k') ∧ ikbd_ok k' ∧ kept k k' ∧ k'.(mfp) = k.(mfp) ∧ k'.(sr) = k.(sr) ∧ small (px, py)
    ∧ ∃ old, queue k = queue k' ++ packets_bytes b old ∧ (length old <= 1)%nat ∧ Forall signed_bytes old
      ∧ px = (total old).1 + mx ∧ py = (total old).2 + my.
Proof.
  intros Hok Hs.
  assert (MergeMousePacket mx my b k = Ret (mx, my, k) → ∃ px py k', MergeMousePacket mx my b k = Ret (px, py, k')
    ∧ ikbd_ok k' ∧ kept k k' ∧ k'.(mfp) = k.(mfp) ∧ k'.(sr) = k.(sr) ∧ small (px, py)
    ∧ ∃ old, queue k = queue k' ++ packets_bytes b old ∧ (length old <= 1)%nat ∧ Forall signed_bytes old
      ∧ px = (total old).1 + mx ∧ py = (total old).2 + my) as Hno.
  { intros E. exists mx, my, k. split_and!; try done. exists []. cbn. rewrite app_nil_r. split_and!; (done || lia || constructor). }
  destruct (decide (k.(intype) = IKBD_PACKET_MOUSE)) as [Ht|]; [|apply Hno, Merge_none; auto].
  destruct (Z_le_dec (queue_len k) 3); [apply Hno, Merge_none; auto|].
  destruct (queue_last3 k Hok ltac:(lia)) as [Hq Hl]. cbv zeta in Hq, Hl.
  destruct (Merge_last mx my b k _ _ _ _ Hok Ht Hq) as (k' & Ho' & Hk' & Em & Er & Eq & Ex).
  { intros E. pose proof (length_queue (k_inwrite ((k.(inwrite) - 3) mod inbufferlen) k)) as E'. rewrite E, Hl in E'. cbn in E'. lia. }
  set (x := aget _ ((_ + 1) mod _)) in *. set (y := aget _ ((_ + 2) mod _)) in *.
  assert (in_u 8 x) as Hx by apply Hok. assert (in_u 8 y) as Hy by apply Hok. unfold in_u in Hx, Hy. change (2 ^ 8) with 256 in *.
  destruct (_ && _) eqn:C in Ex; [|by apply Hno]. apply andb_prop in C as [[Ch%Z.eqb_eq Cx%Z.leb_le]%andb_prop Cy%Z.leb_le].
  destruct Hs as [Hs1 Hs2]. cbn [fst snd] in *. unfold MOUSE_DELTA_MAX in *.
  exists (mx + x), (my + y), k'. split_and!; try done. exists [(x, y)]. unfold packets_bytes, packet_bytes. cbn. rewrite !u8_small, <- Ch by lia.
  rewrite Eq. split_and!; [exact Hq|lia| |lia|lia]. constructor; [|constructor]. split; cbn; lia.
Qed.

Lemma push_room v q : Z.of_nat (length q) < inbufferlen - 1 → push v q = q ++ [v].
Proof. intros. unfold push. by rewrite (proj2 (Z.ltb_lt _ _)). Qed.

Lemma pushes_room l a : Z.of_nat (length a.(a_queue)) + Z.of_nat (length l) <= inbufferlen - 1 →
  (foldl (λ a v, a_push v a) a l).(a_queue) = a.(a_queue) ++ map u8 l.
Proof.
  revert a. induction l as [|v l IH]; intros a Hl; cbn [foldl map length] in *; [by rewrite app_nil_r|].
  assert ((a_push v a).(a_queue) = a.(a_queue) ++ [u8 v]) as E by (apply push_room; lia).
  rewrite IH, E, <- app_assoc; [done|]. rewrite E, length_app. cbn. lia.
Qed.

(** The rest of the modes. *)
Lemma pushes_modes l a :
  ∃ q, foldl (λ a v, a_push v a) a l = mk_modes a.(a_mouse) a.(a_rel) a.(a_yrev) a.(a_joy) a.(a_state) a.(a_type) q.
Proof.
  revert a. induction l as [|v l IH]; intros a; cbn [foldl]; [exists a.(a_queue); by destruct a|].
  destruct (IH (a_push v a)) as [q E]. by exists q.
Qed.

Lemma gives_mouse_packet px py b k :
  ikbd_ok k → gives (mouse_packet px py b k)
    (pushed [0xf8 .| (b .& 3); px; if k.(yaxis_reversed) then - py else py] (k_intype IKBD_PACKET_MOUSE k)).
Proof.
  intros Hok. unfold mouse_packet. cbv zeta. eapply gives_bind; [apply gives_send; by destruct Hok|]. intros k1 Ho1 H1.
  eapply gives_bind; [by apply gives_send|]. intros k2 Ho2 H2.
  pose proof (pushed_app _ _ _ _ _ H1 H2) as H12. assert (k2.(yaxis_reversed) = k.(yaxis_reversed)) as ->.
  { destruct H12 as [E _]. apply (f_equal a_yrev) in E. cbn in E. done. }
  eapply gives_mono; [by apply gives_send|]. intros k3 H3. exact (pushed_app _ _ _ _ _ H12 H3).
Qed.

(** A packet with room for it. *)
Lemma mouse_packet_room px py b k :
  ikbd_ok k → Z.of_nat (length (queue k)) + 3 <= inbufferlen - 1 →
  gives (mouse_packet px py b k) (λ k', queue k' = queue k ++ packet_bytes b (px, if k.(yaxis_reversed) then - py else py)
    ∧ k'.(yaxis_reversed) = k.(yaxis_reversed) ∧ k'.(mouse_enabled) = k.(mouse_enabled) ∧ k'.(intype) = IKBD_PACKET_MOUSE).
Proof.
  intros Hok Hl. eapply gives_mono; [by apply gives_mouse_packet|]. intros k' (E & _). split.
  - apply (f_equal a_queue) in E. rewrite pushes_room in E by done. cbn [a_queue abstract map] in E.
    change (queue (k_intype _ k)) with (queue k) in E. rewrite E. unfold packet_bytes. cbn [fst snd].
    rewrite (u8_small (0xf8 .| _)); [done|]. apply (in_u_lor 8); [by apply in_ub_spec|apply in_u_land_r; [by apply in_ub_spec|lia]|lia].
  - destruct (pushes_modes [0xf8 .| (b .& 3); px; if k.(yaxis_reversed) then - py else py] (abstract (k_intype IKBD_PACKET_MOUSE k))) as [q Em].
    rewrite Em in E. unfold abstract in E. cbn in E. by injection E as -> _ -> _ _ _ _ -> _.
Qed.

(** The packets a motion of at most [m] in each direction needs. *)
Definition packets_needed (slow : bool) (m : Z) : Z := Z.max 1 (if slow then m else (m + MOUSE_DELTA_MAX - 1) / MOUSE_DELTA_MAX).

Lemma packets_more (slow : bool) m : 0 <= m → 0 < m - (if slow then 1 else MOUSE_DELTA_MAX) →
  packets_needed slow m = 1 + packets_needed slow (m - (if slow then 1 else MOUSE_DELTA_MAX)).
Proof.
  unfold packets_needed, MOUSE_DELTA_MAX. destruct slow; [lia|]. intros.
  replace (m + 63 - 1) with (m - 63 + 63 - 1 + 1 * 63) by lia. rewrite Z.div_add by lia.
  assert (1 <= (m - 63 + 63 - 1) / 63) by (apply Z.div_le_lower_bound; lia). lia.
Qed.

Lemma mouse_move_spec (slow : bool) rel :
  Z.abs (mouse_move slow rel) <= MOUSE_DELTA_MAX
  ∧ Z.abs (rel - mouse_move slow rel) = Z.max 0 (Z.abs rel - (if slow then 1 else MOUSE_DELTA_MAX)).
Proof.
  unfold mouse_move, MOUSE_DELTA_MAX. destruct slow.
  - destruct (Z.ltb_spec 0 rel), (Z.ltb_spec rel 0); lia.
  - destruct (Z.ltb_spec 63 (Z.abs rel)), (Z.ltb_spec 0 rel); lia.
Qed.

(** [ps] packets are replaced by the packets of a motion. *)
Definition moved (b relx rely : Z) (k k' : ikbd) : Prop :=
  ∃ pre old new, queue k = pre ++ packets_bytes b old ∧ queue k' = pre ++ packets_bytes b new
    ∧ (length old <= 1)%nat ∧ Forall signed_bytes old ∧ Forall small new ∧ new ≠ []
    ∧ total new = ((total old).1 + relx, (total old).2 + rely).

Lemma app_inj_3 (l1 l2 : list Z) a b c a' b' c' : l1 ++ [a; b; c] = l2 ++ [a'; b'; c'] → l1 = l2 ∧ a = a' ∧ b = b' ∧ c = c'.
Proof. intros E. apply app_inj_2 in E as [-> E]; [|done]. by simplify_eq. Qed.

Lemma small_signed p : small p → signed_bytes p.
Proof. unfold small, signed_bytes, MOUSE_DELTA_MAX. lia. Qed.

Lemma moved_trans b x1 y1 x2 y2 k1 k2 k3 : moved b x1 y1 k1 k2 → moved b x2 y2 k2 k3 → moved b (x1 + x2) (y1 + y2) k1 k3.
Proof.
  intros (pre & old & new & E1 & E2 & Hl & Ho & Hn & Hne & Ht) (pre' & old' & new' & E1' & E2' & Hl' & Ho' & Hn' & Hne' & Ht').
  rewrite E2 in E1'. destruct old' as [|q [|]]; [| |cbn in Hl'; lia].
  - cbn in E1'. rewrite app_nil_r in E1'. subst pre'. exists pre, old, (new ++ new'). rewrite packets_bytes_app, app_assoc, total_app, Ht, Ht'.
    split_and!; try done; [by apply Forall_app|by destruct new|]. cbn. f_equal; lia.
  - destruct (exists_last Hne) as (init & p & ->). rewrite packets_bytes_app, app_assoc in E1'. cbn in E1'.
    apply Forall_app in Hn as [Hn1 Hp]. rewrite Forall_singleton in Hp. pose proof (proj1 (Forall_singleton _ _) Ho') as Hq. apply app_inj_3 in E1' as (<- & _ & Ex & Ey).
    apply small_signed in Hp. destruct Hp as [Hp1 Hp2], Hq as [Hq1 Hq2]. apply u8_signed in Ex, Ey; try done.
    exists pre, old, (init ++ new'). rewrite packets_bytes_app, app_assoc. split_and!; try done; [by apply Forall_app|by destruct init|].
    rewrite total_app in Ht |- *. rewrite Ht'. cbn in Ht |- *. injection Ht as Ht1 Ht2. f_equal; lia.
Qed.

(** One turn of the loop. *)
Lemma mouse_turn (slow : bool) relx rely b k :
  ikbd_ok k → k.(yaxis_reversed) = false → Z.of_nat (length (queue k)) + 3 <= inbufferlen - 1 →
  let movex := mouse_move slow relx in
  let movey := mouse_move slow rely in
  gives ('(px, py, k) ← (if slow then Ret (movex, movey, k) else MergeMousePacket movex movey b k); mouse_packet px py b k)
    (λ k', moved b movex movey k k' ∧ k'.(yaxis_reversed) = false ∧ (length (queue k') <= length (queue k) + 3)%nat).
Proof.
  intros Hok Hy Hl movex movey. assert (small (movex, movey)) as Hs by (split; apply mouse_move_spec).
  assert (∃ px py k1, (if slow then Ret (movex, movey, k) else MergeMousePacket movex movey b k) = Ret (px, py, k1)
    ∧ ikbd_ok k1 ∧ k1.(yaxis_reversed) = false ∧ small (px, py)
    ∧ ∃ old, queue k = queue k1 ++ packets_bytes b old ∧ (length old <= 1)%nat ∧ Forall signed_bytes old
      ∧ px = (total old).1 + movex ∧ py = (total old).2 + movey) as (px & py & k1 & -> & Ho1 & Hy1 & Hs1 & old & Eq & Hold & Hsg & Ex & Ey).
  { destruct slow.
    - exists movex, movey, k. split_and!; try done. exists []. cbn. rewrite app_nil_r. split_and!; (done || lia || constructor).
    - destruct (Merge_spec movex movey b k Hok Hs) as (px & py & k' & E & Ho & [] & _ & _ & Hs' & H'). exists px, py, k'. split_and!; try done; congruence. }
  unfold mbind, res_bind. assert (length (queue k) = length (queue k1) + length (packets_bytes b old))%nat as Elen by by rewrite Eq, length_app.
  destruct (mouse_packet_room px py b k1 Ho1 ltac:(lia)) as (k' & E & Ho' & Eq' & Hy' & _). rewrite Hy1 in Eq', Hy'. exists k'. split_and!; try done.
  - exists (queue k1), old, [(px, py)]. split_and!; try done; [by constructor|]. cbn. subst. f_equal; lia.
  - rewrite Eq', length_app. cbn. lia.
Qed.

Lemma mouse_packets_spec (slow : bool) b fuel : ∀ relx rely k,
  ikbd_ok k → k.(yaxis_reversed) = false →
  Z.of_nat (length (queue k)) + 3 * packets_needed slow (Z.max (Z.abs relx) (Z.abs rely)) <= inbufferlen - 1 →
  (Z.to_nat (Z.max (Z.abs relx) (Z.abs rely)) < fuel)%nat →
  gives (mouse_packets fuel relx rely b slow k) (moved b relx rely k).
Proof.
  induction fuel as [|fuel IH]; intros relx rely k Hok Hy Hroom Hfuel; [lia|]. set (m := Z.max _ _) in *.
  assert (1 <= packets_needed slow m) by (unfold packets_needed; lia).
  destruct (mouse_turn slow relx rely b k Hok Hy ltac:(lia)) as (k1 & E & Ho1 & Hm1 & Hy1 & Hl1). cbv zeta in E, Hm1. cbn [mouse_packets]. cbv zeta.
  unfold mbind, res_bind in E |- *. destruct (if slow then _ else _) as [[[px py] k0]|]; [|done]. rewrite E.
  pose proof (proj2 (mouse_move_spec slow relx)) as Ex. pose proof (proj2 (mouse_move_spec slow rely)) as Ey.
  destruct (nz _ || nz _) eqn:En.
  - assert (Z.max (Z.abs (relx - mouse_move slow relx)) (Z.abs (rely - mouse_move slow rely)) = m - (if slow then 1 else MOUSE_DELTA_MAX)) as Em.
    { rewrite Ex, Ey. rewrite orb_true_iff, !nz_true in En. lia. }
    assert (0 < m - (if slow then 1 else MOUSE_DELTA_MAX)) as Hm.
    { rewrite <- Em. rewrite orb_true_iff, !nz_true in En. lia. }
    rewrite (packets_more slow m) in Hroom by lia.
    destruct (IH (relx - mouse_move slow relx) (rely - mouse_move slow rely) k1) as (k' & E' & Ho' & Hm'); [done|done|rewrite Em; lia| |].
    { rewrite Em. unfold MOUSE_DELTA_MAX in *. destruct slow; lia. }
    exists k'. split_and!; [done..|]. pose proof (moved_trans _ _ _ _ _ _ _ _ Hm1 Hm') as Hm2.
    by rewrite !Zplus_minus in Hm2.
  - apply orb_false_iff in En as [Enx Eny]. rewrite nz_false in Enx, Eny. exists k1. split_and!; [done..|].
    by replace (mouse_move slow relx) with relx in Hm1 by lia; replace (mouse_move slow rely) with rely in Hm1 by lia.
Qed.

(** A motion of more than 2048, which only a host that does not send it slowly can ask for, is
    dropped by the code on purpose. *)
Lemma insane_motion_ignored relx rely buttons k :
  2048 < Z.max (Z.abs relx) (Z.abs rely) → SendMouseMotion relx rely buttons false k = Ret k.
Proof.
  intros H. unfold SendMouseMotion. destruct (mouse_enabled k); [|done]. cbn [negb andb].
  replace ((2048 <? Z.abs relx) || (2048 <? Z.abs rely)) with true by lia. done.
Qed.

(** C14: no mouse motion is lost, for a mouse that is enabled with the Y origin at the top, a
    motion of at most 2048 in each direction (of any size if it is sent slowly) and with room
    in the queue for its packets: the host's motion is appended as packets of at most 63 in
    each direction, possibly in place of the last packet, not yet read, with the same buttons;
    the motions of the packets add up to the host's motion and that of the packet replaced.
    Of the cases left out, longer motions are dropped ([insane_motion_ignored]) and with the Y
    origin at the bottom merged motions are lost ([reversed_merge_loses]). *)
Theorem mouse_motion_exact (relx rely buttons : Z) (slow : bool) (k : ikbd)
    (Hok : ikbd_ok k) (Hm : k.(mouse_enabled) = true) (Hy : k.(yaxis_reversed) = false)
    (Hsane : slow = true ∨ Z.max (Z.abs relx) (Z.abs rely) <= 2048)
    (Hroom : Z.of_nat (length (queue k)) + 3 * packets_needed slow (Z.max (Z.abs relx) (Z.abs rely)) <= inbufferlen - 1) :
  ∃ k' pre old new, SendMouseMotion relx rely buttons slow k = Ret k' ∧ ikbd_ok k'
    ∧ queue k = pre ++ packets_bytes buttons old ∧ queue k' = pre ++ packets_bytes buttons new
    ∧ (length old <= 1)%nat ∧ Forall signed_bytes old ∧ Forall small new
    ∧ total new = ((total old).1 + relx, (total old).2 + rely).
Proof.
  destruct (mouse_packets_spec slow buttons (S (Z.to_nat (Z.max (Z.abs relx) (Z.abs rely)))) relx rely k Hok Hy Hroom ltac:(lia))
    as (k' & E & Ho & pre & old & new & Eq & Eq' & Hl & Hs & Hn & _ & Ht).
  exists k', pre, old, new. unfold SendMouseMotion. rewrite Hm. cbn [negb].
  replace (negb slow && ((2048 <? Z.abs relx) || (2048 <? Z.abs rely))) with false; [by split_and!|].
  symmetry. destruct slow; [done|]. destruct Hsane; [done|]. cbn. lia.
Qed.

(** A motion that fits into one packet. *)
Lemma one_packet relx rely b px py k k1 :
  k.(mouse_enabled) = true → small (relx, rely) → MergeMousePacket relx rely b k = Ret (px, py, k1) →
  SendMouseMotion relx rely b false k = mouse_packet px py b k1.
Proof.
  intros Hm [Hx Hy] E. cbn [fst snd] in *. unfold SendMouseMotion. rewrite Hm. cbn [negb andb].
  assert (mouse_move false relx = relx ∧ mouse_move false rely = rely) as [Ex Ey].
  { unfold mouse_move. rewrite !(proj2 (Z.ltb_ge MOUSE_DELTA_MAX _)) by done. done. }
  unfold MOUSE_DELTA_MAX in *. rewrite !(proj2 (Z.ltb_ge 2048 _)) by lia. cbn [orb mouse_packets]. rewrite Ex, Ey, !Z.sub_diag. cbv zeta.
  unfold mbind, res_bind. rewrite E. by destruct (mouse_packet px py b k1).
Qed.

(** With the Y origin at the bottom, merging loses motion: the queue holds the
    negated Y motion, to which the next motion is added without negating it back.  Two equal
    small motions upwards behind any unread byte leave a packet with no motion. *)
Lemma reversed_merge_loses (d buttons : Z) (k : ikbd)
    (Hok : ikbd_ok k) (Hm : k.(mouse_enabled) = true) (Hy : k.(yaxis_reversed) = true)
    (Ht : k.(intype) ≠ IKBD_PACKET_MOUSE) (Hne : queue k ≠ []) (Hroom : Z.of_nat (length (queue k)) + 3 <= inbufferlen - 1)
    (Hd : 1 <= d <= MOUSE_DELTA_MAX) :
  ∃ k1 k2, SendMouseMotion 0 (- d) buttons false k = Ret k1 ∧ queue k1 = queue k ++ packet_bytes buttons (0, d)
    ∧ SendMouseMotion 0 (- d) buttons false k1 = Ret k2 ∧ queue k2 = queue k ++ packet_bytes buttons (0, 0).
Proof.
  unfold MOUSE_DELTA_MAX in Hd. assert (small (0, - d)) as Hs by (unfold small, MOUSE_DELTA_MAX; cbn; lia).
  destruct (mouse_packet_room 0 (- d) buttons k Hok Hroom) as (k1 & E1 & Ho1 & Eq1 & Hy1 & Hm1 & Ht1). rewrite Hy, Z.opp_involutive in Eq1. exists k1.
  destruct (Merge_last 0 (- d) buttons k1 (queue k) (0xf8 .| (buttons .& 3)) (u8 0) (u8 d) Ho1 Ht1 Eq1 Hne) as (k0 & Ho0 & Hk0 & _ & _ & Eq0 & Em).
  rewrite Z.eqb_refl, !u8_small in Em by lia. replace (- d + d) with 0 in Em by lia. cbn in Em.
  destruct (mouse_packet_room 0 0 buttons k0 Ho0 ltac:(by rewrite Eq0)) as (k2 & E2 & Ho2 & Eq2 & _). rewrite (kf_y _ _ Hk0), Hy1, Hy, Eq0 in Eq2. exists k2. split_and!; [|done| |done].
  - rewrite <- E1. apply one_packet; [done..|]. apply Merge_none; auto.
  - rewrite <- E2. apply one_packet; [by rewrite Hm1|done|exact Em].
Qed.

(** ** The buffers are safe *)

(** What happens to the controller: the host's events, the CPU's accesses to its registers,
    and whatever happens to the MFP. *)
Inductive ikbd_act :=
  | kact_key (scancode : Z)
  | kact_motion (relx rely buttons : Z) (slow : bool)
  | kact_axis (numjoy numaxis value : Z)
  | kact_hat (numjoy value : Z)
  | kact_button (numjoy pressed : Z)
  | kact_read (addr : Z)
  | kact_write (now : tm) (addr value : Z)
  | kact_mfp (a : mfp_act).

Definition ikbd_step (a : ikbd_act) (k : ikbd) : res ikbd :=
  match a with
  | kact_key c => SendKey c k
  | kact_motion x y b slow => SendMouseMotion x y b slow k
  | kact_axis n a v => SendJoystickAxis n a v k
  | kact_hat n v => SendJoystickHat n v k
  | kact_button n p => SendJoystickButton n p k
  | kact_read addr => '(_, k) ← ikbd_handleRead addr k; Ret k
  | kact_write now addr v => ikbd_handleWrite now addr v k
  | kact_mfp a => m ← mfp_step a k.(mfp); Ret (k_mfp m k)
  end.

Fixpoint ikbd_run (l : list ikbd_act) (k : ikbd) : res ikbd :=
  match l with [] => Ret k | a :: l => k ← ikbd_step a k; ikbd_run l k end.

(** There are two joysticks. *)
Definition kact_ok (a : ikbd_act) : Prop :=
  match a with
  | kact_axis n _ _ | kact_hat n _ | kact_button n _ => 0 <= n < 2
  | kact_mfp a => act_ok a
  | _ => True
  end.

Definition kact_ticks (a : ikbd_act) : Z := match a with kact_mfp a => act_ticks a | _ => 0 end.
Definition kticks (l : list ikbd_act) : Z := foldr (λ a n, kact_ticks a + n) 0 l.

(** An operation that keeps the invariant and the ticks. *)
Definition steady (r : res ikbd) (k : ikbd) : Prop := gives r (λ k', k'.(mfp).(timerCounter) = k.(mfp).(timerCounter)).

Lemma steady_pushed r l k k1 : gives r (pushed l k1) → k1.(mfp) = k.(mfp) → steady r k.
Proof. intros H E. eapply gives_mono; [exact H|]. intros k' (_ & _ & _ & _ & []). congruence. Qed.

Lemma steady_ret k : ikbd_ok k → steady (Ret k) k.
Proof. intros. by apply gives_ret. Qed.

Lemma steady_joystick n s k : ikbd_ok k → steady (joystick_changed n s k) k.
Proof.
  intros Hok. unfold joystick_changed. destruct (_ =? _); [by apply steady_ret|].
  eapply steady_pushed; [apply gives_joystick_packet; by destruct Hok|done].
Qed.

Lemma steady_with_joystick n r k : 0 <= n < 2 → ikbd_ok k → steady r k → steady (with_joystick n r k) k.
Proof. intros Hn Hok Hr. unfold with_joystick. rewrite in_len_true by done. destruct (nz _); [done|by apply steady_ret]. Qed.

(** The motion left gets smaller. *)
Lemma mouse_less (slow : bool) relx rely :
  nz (relx - mouse_move slow relx) || nz (rely - mouse_move slow rely) = true →
  Z.max (Z.abs (relx - mouse_move slow relx)) (Z.abs (rely - mouse_move slow rely)) < Z.max (Z.abs relx) (Z.abs rely).
Proof.
  pose proof (mouse_move_spec slow relx) as [_ Ex]. pose proof (mouse_move_spec slow rely) as [_ Ey]. rewrite Ex, Ey, orb_true_iff, !nz_true.
  unfold MOUSE_DELTA_MAX in *. destruct slow; lia.
Qed.

Lemma steady_packets (slow : bool) b fuel : ∀ relx rely k,
  ikbd_ok k → (Z.to_nat (Z.max (Z.abs relx) (Z.abs rely)) < fuel)%nat → steady (mouse_packets fuel relx rely b slow k) k.
Proof.
  induction fuel as [|fuel IH]; intros relx rely k Hok Hf; [lia|]. cbn [mouse_packets]. cbv zeta.
  assert (∃ px py k1, (if slow then Ret (mouse_move slow relx, mouse_move slow rely, k) else MergeMousePacket (mouse_move slow relx) (mouse_move slow rely) b k)
    = Ret (px, py, k1) ∧ ikbd_ok k1 ∧ k1.(mfp) = k.(mfp)) as (px & py & k1 & -> & Ho1 & Em1).
  { destruct slow; [by do 3 eexists|].
    destruct (Merge_spec (mouse_move false relx) (mouse_move false rely) b k Hok) as (px & py & k1 & E & Ho & _ & Em & _); [split; apply mouse_move_spec|].
    by exists px, py, k1. }
  unfold mbind, res_bind. destruct (gives_mouse_packet px py b k1 Ho1) as (k2 & -> & Ho2 & _ & _ & _ & _ & [_ _ _ _ _ _ Et _ _]).
  cbn in Et. rewrite Em1 in Et. destruct (nz _ || nz _) eqn:En; [|by exists k2].
  apply mouse_less in En. eapply gives_mono; [apply IH; [done|lia]|]. intros k3. cbn. congruence.
Qed.

Lemma steady_read addr k : ikbd_ok k → steady ('(_, k) ← ikbd_handleRead addr k; Ret k) k.
Proof.
  intros Hok. unfold ikbd_handleRead. destruct (_ =? 0); [by apply steady_ret|]. destruct (_ =? 2); [|by apply steady_ret].
  destruct (queue k) as [|b q] eqn:Eq.
  - unfold ReadData. rewrite (queue_empty k Hok), bool_decide_eq_true_2 by done. by apply steady_ret.
  - destruct (ReadData_spec k b q Hok Eq) as (k' & E & Ho & _ & _ & _ & [] & _). unfold mbind, res_bind. rewrite E. by exists k'.
Qed.

Lemma steady_write now addr v k : ikbd_ok k → steady (ikbd_handleWrite now addr v k) k.
Proof.
  intros Hok. unfold ikbd_handleWrite. destruct (_ =? 0).
  { apply gives_ret; [|by destruct (_ =? _)]. destruct Hok. destruct (_ =? _); split; try done; by apply in_ub_spec. }
  destruct (_ =? 2); [|by apply steady_ret]. eapply gives_mono; [by apply WriteData_step|]. intros k' [[] _]. done.
Qed.

Lemma ikbd_step_ok a k : ikbd_ok k → kact_ok a → k.(mfp).(timerCounter) + kact_ticks a <= INT_MAX →
  gives (ikbd_step a k) (λ k', k'.(mfp).(timerCounter) <= k.(mfp).(timerCounter) + kact_ticks a).
Proof.
  intros Hok Ha Ht. assert (∀ r, steady r k → kact_ticks a = 0 → gives r (λ k', k'.(mfp).(timerCounter) <= k.(mfp).(timerCounter) + kact_ticks a)) as Hs.
  { intros r Hr E. eapply gives_mono; [exact Hr|]. intros k'. cbn. lia. }
  destruct a as [c|x y b slow|n a v|n v|n p|addr|now addr v|a]; cbn [ikbd_step kact_ok] in *; try (apply Hs; [|done]).
  - eapply steady_pushed; [apply gives_send; by destruct Hok|done].
  - unfold SendMouseMotion. repeat case_match; try (by apply steady_ret). apply steady_packets; [done|lia].
  - apply steady_with_joystick; [done..|]. by apply steady_joystick.
  - apply steady_with_joystick; [done..|]. by apply steady_joystick.
  - apply steady_with_joystick; [done..|]. by apply steady_joystick.
  - by apply steady_read.
  - by apply steady_write.
  - destruct (step_ok a k.(mfp) (kk_mfp _ Hok) Ha Ht) as (m & E & Ho & Hn). unfold mbind, res_bind. rewrite E. apply gives_ret; [|exact Hn].
    destruct Hok. by split.
Qed.

(** C12: the keyboard controller is safe.  Whatever the host's events, the CPU's accesses and the
    other devices' interrupts, in any order, no access leaves the input queue, the command
    buffer or the joystick arrays, the loop over mouse packets ends, and the indices and
    registers keep their ranges; the MFP keeps its invariant. *)
Theorem ikbd_safe (l : list ikbd_act) (k : ikbd)
    (Hok : ikbd_ok k) (Hl : Forall kact_ok l) (Ht : k.(mfp).(timerCounter) + kticks l <= INT_MAX) :
  ∃ k', ikbd_run l k = Ret k' ∧ ikbd_ok k'.
Proof.
  revert k Hok Ht. induction Hl as [|a l Ha Hl IH]; intros k Hok Ht; cbn [ikbd_run]; [eauto|]. cbn in Ht. fold (kticks l) in Ht.
  assert (∀ a, kact_ok a → 0 <= kact_ticks a) as Hpos by (intros [] H; cbn; try lia; by apply act_ticks_nonneg).
  assert (0 <= kticks l) by (clear -Hl Hpos; induction Hl as [|b l Hb Hl IH]; cbn; [lia|]; specialize (Hpos b Hb); unfold kticks in IH; lia).
  destruct (ikbd_step_ok a k Hok Ha ltac:(lia)) as (k1 & E & Ho & Hn). unfold mbind, res_bind. rewrite E. apply IH; [done|lia].
Qed.

(** ** Every byte reaches the CPU *)

(** One turn of a CPU that accepts interrupts of level 6: it takes an interrupt if there is
    one, and the keyboard's handler reads a byte if the status register announces one. *)
Definition cpu_turn (k : ikbd) : res (list Z * ikbd) :=
  '(v, _, m) ← serve_mfp false 0 k.(mfp);
  let k := k_mfp m k in
  match v with
  | None => Ret ([], k)
  | Some v =>
    '(bs, k) ← (if (v .& 0x0f =? 6) && nz (ReadStatus k .& (1 ≪ ACIA_SR_RXFULL))
                then '(b, k) ← ReadData k; Ret ([b], k) else Ret ([], k));
    m ← end_of_interrupt v k.(mfp);
    Ret (bs, k_mfp m k)
  end.

(** A key on the host, a tick of the 200 Hz timer, a turn of the CPU. *)
Inductive kbd_event := ev_key (scancode : Z) | ev_tick | ev_turn.

(** The bytes the CPU reads. *)
Definition kbd_step (e : kbd_event) (k : ikbd) : res (list Z * ikbd) :=
  match e with
  | ev_key c => k ← SendKey c k; Ret ([], k)
  | ev_tick => m ← IRQ 5 1 k.(mfp); Ret ([], k_mfp m k)
  | ev_turn => cpu_turn k
  end.

Fixpoint kbd_run (es : list kbd_event) (k : ikbd) : res (list Z * ikbd) :=
  match es with
  | [] => Ret ([], k)
  | e :: es => '(bs, k) ← kbd_step e k; '(bs', k) ← kbd_run es k; Ret (bs ++ bs', k)
  end.

Definition keys (es : list kbd_event) : list Z := omap (λ e, match e with ev_key c => Some (u8 c) | _ => None end) es.

(** The interrupts are set up, none is in service, and a byte in the queue has interrupted. *)
Record live (k : ikbd) : Prop := {
  lv_ok : ikbd_ok k;
  lv_listening : listening k = true;
  lv_mask : Z.testbit k.(mfp).(irq_mask) 6 = true;
  lv_inservice : k.(mfp).(irq_inservice) = 0;
  lv_vector : k.(mfp).(vr) .& MFP_VR_VECTOR ≠ 0;
  lv_status : Z.testbit k.(sr) 0 = negb (bool_decide (queue k = []));
  lv_pending : queue k ≠ [] → Z.testbit k.(mfp).(irq_pending) 6 = true }.

(** The turns the CPU still needs: one for each interrupt that waits, and one for each byte. *)
Definition work (k : ikbd) : nat :=
  length (waiting 16 (k.(mfp).(irq_pending) .& k.(mfp).(irq_mask)) k.(mfp).(timerCounter)) + length (queue k).

Lemma serve_lines r im m v im' m' : serve_mfp r im m = Ret (v, im', m') →
  m'.(active_edge) = m.(active_edge) ∧ m'.(data_direction) = m.(data_direction).
Proof. unfold serve_mfp, doInterrupt, mbind, res_bind, to_int. intros. repeat case_match; simplify_eq; done. Qed.

Lemma end_of_interrupt_lines v m m' : end_of_interrupt v m = Ret m' →
  m'.(active_edge) = m.(active_edge) ∧ m'.(data_direction) = m.(data_direction) ∧ m'.(irq_enable) = m.(irq_enable).
Proof.
  unfold end_of_interrupt. intros H. destruct (nz _); [|by simplify_eq]. destruct (_ <? 8).
  - change (mfp_handleWrite 0xfffa11 ?x m) with (Ret (let m := set_inservice (u16 (m.(irq_inservice) .& (0xff00 .| x))) m in
      if nz (m.(irq_pending) .& m.(irq_mask)) then TriggerMFP true m else m)) in H. cbv zeta in H. injection H as <-. by destruct (nz _).
  - change (mfp_handleWrite 0xfffa0f ?x m) with (Ret (let m := set_inservice (u16 (m.(irq_inservice) .& ((x ≪ 8) .| 0xff))) m in
      if nz (m.(irq_pending) .& m.(irq_mask)) then TriggerMFP true m else m)) in H. cbv zeta in H. injection H as <-. by destruct (nz _).
Qed.

(** Requesting interrupt 6 makes at most one more interrupt wait. *)
Lemma waiting_one_more n x x' tc :
  (∀ j, 0 <= j → j ≠ 6 → Z.testbit x' j = Z.testbit x j) → (length (waiting n x' tc) <= length (waiting n x tc) + 1)%nat.
Proof.
  intros H. assert (∀ n, (n <= 6)%nat → waiting n x' tc = waiting n x tc) as H6.
  { intros i Hi. apply waiting_ext; [|done]. intros j Hj. apply H; lia. }
  induction n as [|n IH]; [cbn; lia|]. destruct (Nat.le_gt_cases (S n) 6); [rewrite H6 by done; lia|]. cbn [waiting]. rewrite !length_app.
  destruct (decide (n = 6%nat)) as [->|].
  - rewrite (H6 6%nat) by lia. change (6 =? 5)%nat with false. destruct (Z.testbit x' _), (Z.testbit x _); cbn [length replicate]; lia.
  - rewrite (H (Z.of_nat n)) by lia. lia.
Qed.

(** A turn with nothing to do. *)
Lemma idle_turn k : live k → (∀ j, wants k.(mfp) j = true → 2 ^ j <= k.(mfp).(irq_inservice)) →
  queue k = [] ∧ ∃ k', cpu_turn k = Ret ([], k') ∧ live k' ∧ queue k' = [] ∧ (work k' <= work k)%nat ∧ k'.(mfp).(timerCounter) = k.(mfp).(timerCounter).
Proof.
  intros [Hok Hls Hm Hs Hv Hst Hp] Hno.
  assert (queue k = []) as Eq.
  { destruct (queue k) as [|b q] eqn:E; [done|]. specialize (Hno 6). rewrite wants_spec, Hp, Hm, Hs in Hno by done.
    specialize (Hno eq_refl). cbn in Hno. lia. }
  split; [done|]. destruct (serve_none false 0 _ (kk_mfp _ Hok) Hno) as (m & E & Ho & Hf & Hpe & Ht & _). unfold cpu_turn, mbind, res_bind. rewrite E.
  eexists. split; [reflexivity|]. split_and!; [|done| |done].
  - split; cbn [k_mfp mfp sr]; rewrite ?(fr_mask _ _ Hf), ?(fr_inservice _ _ Hf), ?(fr_vr _ _ Hf), ?Hpe; try done; [destruct Hok; by split|].
    unfold listening in *. cbn [k_mfp mfp cr]. by rewrite (fr_enable _ _ Hf), (fr_direction _ _ Hf), (fr_edge _ _ Hf).
  - unfold work. change (queue (k_mfp m k)) with (queue k). cbn [k_mfp mfp]. rewrite Hpe, Ht, (fr_mask _ _ Hf). lia.
Qed.

(** The state between the interrupt and its end. *)
Lemma turn_ends j k m k1 bs :
  live k → 0 <= j < 16 → passed j k.(mfp) m → lines_kept m k1.(mfp) → ikbd_ok k1 → k1.(cr) = k.(cr) →
  m.(active_edge) = k.(mfp).(active_edge) → m.(data_direction) = k.(mfp).(data_direction) →
  Z.testbit k1.(sr) 0 = negb (bool_decide (queue k1 = [])) → (queue k1 ≠ [] → Z.testbit k1.(mfp).(irq_pending) 6 = true) →
  ∃ k', (m ← end_of_interrupt ((k.(mfp).(vr) .& MFP_VR_VECTOR) + j) k1.(mfp); Ret (bs : list Z, k_mfp m k1)) = Ret (bs, k')
    ∧ live k' ∧ queue k' = queue k1 ∧ work k' = work k1 ∧ k'.(mfp).(timerCounter) = m.(timerCounter).
Proof.
  intros [Hok Hls Hm Hs Hv Hst Hp] Hj (_ & Es & _ & Em & Ee & Ev) Hk Ho1 Hcr Hed Hdi Hst1 Hp1.
  destruct (end_of_interrupt_ok j k.(mfp) k1.(mfp)) as (m2 & E2 & Ho2 & Hs2 & Ep2 & Em2 & Et2 & Ev2);
    [done|apply Ho1|done|by rewrite (lk_inservice _ _ Hk)|by rewrite (lk_vr _ _ Hk)|].
  unfold mbind, res_bind. rewrite E2. eexists. split; [reflexivity|]. destruct (end_of_interrupt_lines _ _ _ E2) as (Ee2 & Ed2 & En2).
  split_and!; [|done| |cbn; by rewrite Et2, (lk_ticks _ _ Hk)].
  - split; cbn [k_mfp mfp sr]; try done.
    + by destruct Ho1; split.
    + unfold listening in *. cbn [k_mfp mfp cr].
      by rewrite En2, Ee2, Ed2, (lk_enable _ _ Hk), (lk_direction _ _ Hk), (lk_edge _ _ Hk), Ee, Hed, Hdi, Hcr.
    + by rewrite Em2, (lk_mask _ _ Hk), Em.
    + by rewrite Ev2, (lk_vr _ _ Hk), Ev.
    + by rewrite Ep2.
  - unfold work. change (queue (k_mfp m2 k1)) with (queue k1). cbn [k_mfp mfp]. by rewrite Ep2, Em2, Et2.
Qed.

(** A turn takes a byte from the queue or another interrupt, and there is less to do. *)
Lemma turn_spec k : live k →
  ∃ bs k', cpu_turn k = Ret (bs, k') ∧ live k' ∧ queue k = bs ++ queue k' ∧ k'.(mfp).(timerCounter) <= k.(mfp).(timerCounter)
    ∧ (work k' <= work k - 1)%nat.
Proof.
  intros Hlv. pose proof Hlv as [Hok Hls Hm Hs Hv Hst Hp]. destruct (top_or_none _ (kk_mfp _ Hok)) as [Hno|(j & Hw & Htop & Hlt)].
  { destruct (idle_turn k Hlv Hno) as (Eq & k' & E & Hl' & Eq' & Hwk & Et). exists [], k'. rewrite Eq'. split_and!; try done; [lia|].
    assert (work k = 0%nat) as E0; [|lia]. unfold work. rewrite Eq. rewrite waiting_none; [done|]. intros i Hi. change (wants k.(mfp) i = false).
    destruct (wants k.(mfp) i) eqn:Ew; [|done]. specialize (Hno i Ew). pose proof (Z.pow_pos_nonneg 2 i). lia. }
  pose proof (wants_range _ j (kk_mfp _ Hok) Hw) as Hj.
  assert ((k.(mfp).(vr) .& MFP_VR_VECTOR) + j ≠ 0) as Hv0.
  { assert (0 <= k.(mfp).(vr) .& MFP_VR_VECTOR) by (apply Z.land_nonneg; unfold MFP_VR_VECTOR; lia). lia. }
  destruct (serve_some false 0 _ j (kk_mfp _ Hok) Hw Htop Hlt ltac:(lia) Hv0) as (m & E & Hom & Hpass).
  destruct (serve_lines _ _ _ _ _ _ E) as [Hed Hdi]. pose proof (waiting_passed _ _ _ (kk_mfp _ Hok) Hw Htop Hpass) as Hwait.
  assert (m.(timerCounter) <= k.(mfp).(timerCounter)) as Htc by (destruct Hpass as (_ & _ & -> & _); destruct (_ =? 5); lia).
  assert (ikbd_ok (k_mfp m k)) as Hok1 by (destruct Hok; by split).
  assert (work k = S (work (k_mfp m k))) as Hwk by (unfold work at 1; by rewrite Hwait).
  assert (listening (k_mfp m k) = true) as Hls1.
  { unfold listening in *. cbn [k_mfp mfp cr]. destruct Hpass as (_ & _ & _ & _ & -> & _). by rewrite Hed, Hdi. }
  unfold cpu_turn. unfold mbind at 1, res_bind at 1. rewrite E. cbv zeta. rewrite vector_level by done. unfold ReadStatus.
  change (sr (k_mfp m k)) with (sr k). rewrite nz_land_bit by done. change ACIA_SR_RXFULL with 0. rewrite Hst.
  destruct ((j =? 6) && negb (bool_decide (queue k = []))) eqn:C.
  - apply andb_prop in C as [->%Z.eqb_eq Hq%negb_true_iff%bool_decide_eq_false]. destruct (queue k) as [|b q] eqn:Eq; [done|].
    destruct (ReadData_spec (k_mfp m k) b q Hok1 Eq) as (k2 & E2 & Ho2 & Eq2 & Hcr2 & _ & Hk2 & Hst2 & Hp2).
    unfold mbind at 1 2, res_bind at 1 2. rewrite E2. rewrite <- Eq2 in Hst2, Hp2.
    destruct (turn_ends 6 k m k2 [b] Hlv Hj Hpass Hk2 Ho2 Hcr2 Hed Hdi Hst2) as (k' & E' & Hl' & Eq' & Hw' & Et'); [auto|].
    exists [b], k'. split_and!; [exact E'|done|by rewrite Eq', Eq2|lia|]. rewrite Hw', Hwk. unfold work. change (queue (k_mfp m k)) with (queue k). rewrite Eq, Eq2.
    pose proof (waiting_one_more 16 (m.(irq_pending) .& m.(irq_mask)) (k2.(mfp).(irq_pending) .& k2.(mfp).(irq_mask)) m.(timerCounter)) as H1.
    rewrite (lk_ticks _ _ Hk2). cbn [k_mfp mfp length]. cbn [k_mfp mfp] in Hk2. rewrite (lk_mask _ _ Hk2) in *.
    specialize (H1 ltac:(intros i Hi Hi6; rewrite !Z.land_spec, (lk_others _ _ Hk2 i Hi Hi6); done)). lia.
  - unfold mbind at 1, res_bind at 1.
    destruct (turn_ends j k m (k_mfp m k) [] Hlv Hj Hpass ltac:(done) Hok1 eq_refl Hed Hdi Hst) as (k' & E' & Hl' & Eq' & Hw' & Et').
    { intros Hq. change (queue (k_mfp m k)) with (queue k) in Hq. cbn [k_mfp mfp]. destruct Hpass as (Hb & _). rewrite Hb, (Hp Hq) by lia.
      rewrite (bool_decide_eq_false_2 _ Hq), andb_true_r in C. destruct (Z.eqb_spec 6 j); [|done]. apply Z.eqb_neq in C. lia. }
    exists [], k'. split_and!; [exact E'|done|by rewrite Eq'|lia|lia].
Qed.

(** A key is appended and interrupts. *)
Lemma key_spec c k : live k → Z.of_nat (length (queue k)) < inbufferlen - 1 →
  ∃ k', SendKey c k = Ret k' ∧ live k' ∧ queue k' = queue k ++ [u8 c] ∧ k'.(mfp).(timerCounter) = k.(mfp).(timerCounter).
Proof.
  intros [Hok Hls Hm Hs Hv Hst Hp] Hroom.
  destruct (send_spec c (k_intype IKBD_PACKET_KEYBOARD k)) as (k' & E & Ho & Eq & Hk & Hl & Hst' & Hp'); [by destruct Hok; split|].
  change (queue (k_intype _ k)) with (queue k) in Eq. rewrite push_room in Eq by done. exists k'. split_and!; [exact E| |done|apply (lk_ticks _ _ Hl)].
  assert (queue k' ≠ []) as Hne by (rewrite Eq; by destruct (queue k)).
  split; [done|by rewrite (listening_kept _ _ Hk Hl)|by rewrite (lk_mask _ _ Hl)|by rewrite (lk_inservice _ _ Hl)|by rewrite (lk_vr _ _ Hl)| |auto].
  by rewrite Hst', bool_decide_eq_false_2.
Qed.

Lemma tick_spec k : live k → k.(mfp).(timerCounter) + 1 <= INT_MAX →
  ∃ m, IRQ 5 1 k.(mfp) = Ret m ∧ live (k_mfp m k) ∧ m.(timerCounter) <= k.(mfp).(timerCounter) + 1.
Proof.
  intros [Hok Hls Hm Hs Hv Hst Hp] Ht. destruct (IRQ_spec 5 1 _ ltac:(lia) ltac:(lia) (kk_mfp _ Hok) ltac:(done)) as (m & E & Ho & Hf & Hpe & Hn).
  exists m. split_and!; [done| |rewrite Hn; destruct (_ && _); lia].
  split; cbn [k_mfp mfp sr]; rewrite ?(fr_mask _ _ Hf), ?(fr_inservice _ _ Hf), ?(fr_vr _ _ Hf); try done; [destruct Hok; by split| |].
  - unfold listening in *. cbn [k_mfp mfp cr]. by rewrite (fr_enable _ _ Hf), (fr_direction _ _ Hf), (fr_edge _ _ Hf).
  - intros Hq. by rewrite Hpe, (Hp Hq).
Qed.

(** Whatever happens, the bytes read and the bytes in the queue are the bytes sent. *)
Lemma run_spec es : ∀ k, live k →
  Z.of_nat (length (queue k) + length (keys es)) <= inbufferlen - 1 → k.(mfp).(timerCounter) + Z.of_nat (length es) <= INT_MAX →
  ∃ bs k', kbd_run es k = Ret (bs, k') ∧ live k' ∧ bs ++ queue k' = queue k ++ keys es.
Proof.
  induction es as [|e es IH]; intros k Hlv Hroom Ht; cbn [kbd_run].
  { exists [], k. split_and!; [done..|]. cbn. by rewrite app_nil_r. }
  cbn [length] in Ht. assert (∀ bs1 k1 ks, kbd_step e k = Ret (bs1, k1) → live k1 → keys (e :: es) = ks ++ keys es → bs1 ++ queue k1 = queue k ++ ks →
    k1.(mfp).(timerCounter) <= k.(mfp).(timerCounter) + 1 →
    ∃ bs k', ('(bs, k) ← kbd_step e k; '(bs', k) ← kbd_run es k; Ret (bs ++ bs', k)) = Ret (bs, k') ∧ live k' ∧ bs ++ queue k' = queue k ++ keys (e :: es)) as Hstep.
  { intros bs1 k1 ks E1 Hl1 Ek Eq1 Ht1. rewrite Ek in Hroom |- *. pose proof (f_equal length Eq1) as Elen. rewrite length_app, (length_app (queue k)) in Elen. rewrite length_app in Hroom.
    destruct (IH k1 Hl1 ltac:(lia) ltac:(lia)) as (bs & k' & E & Hl' & Eq). exists (bs1 ++ bs), k'. unfold mbind, res_bind. rewrite E1, E.
    split_and!; [done..|]. by rewrite <- app_assoc, Eq, !app_assoc, Eq1. }
  destruct e as [c| |].
  - destruct (key_spec c k Hlv) as (k1 & E1 & Hl1 & Eq1 & Et1).
    { change (keys (ev_key c :: es)) with (u8 c :: keys es) in Hroom. cbn [length] in Hroom. lia. }
    apply (Hstep [] k1 [u8 c]); [cbn [kbd_step]; unfold mbind, res_bind; by rewrite E1|done|done|done|lia].
  - destruct (tick_spec k Hlv ltac:(lia)) as (m & E1 & Hl1 & Et1).
    apply (Hstep [] (k_mfp m k) []); [cbn [kbd_step]; unfold mbind, res_bind; by rewrite E1|done|done|by rewrite app_nil_r|done].
  - destruct (turn_spec k Hlv) as (bs & k1 & E1 & Hl1 & Eq1 & Et1 & _).
    apply (Hstep bs k1 []); [done..|by rewrite app_nil_r|lia].
Qed.

(** Turns alone empty the queue. *)
Lemma drain n : ∀ k, live k → (work k <= n)%nat → ∃ k', kbd_run (replicate n ev_turn) k = Ret (queue k, k') ∧ queue k' = [].
Proof.
  induction n as [|n IH]; intros k Hlv Hn; cbn [replicate kbd_run kbd_step].
  { assert (queue k = []) as -> by (apply nil_length_inv; unfold work in Hn; lia). exists k. split; [done|]. apply nil_length_inv. unfold work in Hn. lia. }
  destruct (turn_spec k Hlv) as (bs & k1 & E1 & Hl1 & Eq1 & _ & Hw). destruct (IH k1 Hl1 ltac:(lia)) as (k' & E' & Eq').
  exists k'. unfold mbind, res_bind. by rewrite E1, E', Eq1.
Qed.

(** C9: the keyboard reaches the CPU.  With the receive interrupt enabled in the controller and
    in the MFP, and as long as the bytes sent fit into the queue: whatever the order of keys,
    timer ticks and turns of the CPU, and however many turns the CPU then takes beyond the
    work that is left, it has read every byte of the queue and every key, in the order they
    were sent, once. *)
Theorem keys_reach_the_cpu (es : list kbd_event) (k : ikbd) (Hlv : live k)
    (Hroom : Z.of_nat (length (queue k) + length (keys es)) <= inbufferlen - 1)
    (Ht : k.(mfp).(timerCounter) + Z.of_nat (length es) <= INT_MAX) :
  ∃ bs k1, kbd_run es k = Ret (bs, k1)
    ∧ ∀ n, (work k1 <= n)%nat →
      ∃ bs' k2, kbd_run (replicate n ev_turn) k1 = Ret (bs', k2) ∧ queue k2 = [] ∧ bs ++ bs' = queue k ++ keys es.
Proof.
  destruct (run_spec es k Hlv Hroom Ht) as (bs & k1 & E & Hl1 & Eq). exists bs, k1. split; [done|]. intros n Hn.
  destruct (drain n k1 Hl1 Hn) as (k2 & E2 & Eq2). by exists (queue k1), k2.
Qed.

(** ** Witnesses *)

Lemma ikbd_tos_ok : ikbd_ok ikbd_tos.
Proof.
  split; try (by apply in_ub_spec); try (cbn; unfold inbufferlen; lia); [|apply tos_ok].
  apply acells_empty. by apply in_ub_spec.
Qed.

Lemma ikbd_tos_live : live ikbd_tos.
Proof. split; try done; apply ikbd_tos_ok. Qed.

Lemma keys_reach_the_cpu_witness :
  ∃ bs k1, kbd_run [ev_key 0x1e; ev_tick; ev_turn; ev_key 0x9e] ikbd_tos = Ret (bs, k1)
    ∧ ∀ n, (work k1 <= n)%nat → ∃ bs' k2, kbd_run (replicate n ev_turn) k1 = Ret (bs', k2) ∧ queue k2 = [] ∧ bs ++ bs' = [0x1e; 0x9e].
Proof.
  apply (keys_reach_the_cpu [ev_key 0x1e; ev_tick; ev_turn; ev_key 0x9e] ikbd_tos ikbd_tos_live).
  - vm_compute. discriminate.
  - vm_compute. discriminate.
Defined.

Definition some_time : tm := {| tm_year := 113; tm_mon := 3; tm_mday := 1; tm_hour := 12; tm_min := 0; tm_sec := 59 |}.

(** "Y origin at the bottom", "disable the mouse", then the first two bytes of "set the mouse
    position"; a memory load would have one byte of data. *)
Lemma commands_framed_witness :
  ∃ k', WriteData_all some_time [0x0f; 0x12; 0x0e; 0x00] ikbd_tos = Ret k' ∧ (abstract k').(a_yrev) = true
    ∧ (abstract k').(a_mouse) = false ∧ pending_command k' = [0x0e; 0x00].
Proof.
  destruct (commands_framed (λ _ _, 1%nat) some_time [0x0f; 0x12; 0x0e; 0x00] ikbd_tos ikbd_tos_ok) as (k' & E & _ & Ea & Ep).
  - vm_compute. repeat constructor; discriminate.
  - exists k'. split_and!; [exact E|rewrite Ea; vm_compute; reflexivity..|rewrite Ep; vm_compute; reflexivity].
Defined.

(** 100 to the right and 5 up take two packets. *)
Lemma mouse_motion_exact_witness :
  ∃ k' new, SendMouseMotion 100 (-5) 0 false ikbd_tos = Ret k' ∧ queue k' = packets_bytes 0 new ∧ Forall small new ∧ total new = (100, -5).
Proof.
  destruct (mouse_motion_exact 100 (-5) 0 false ikbd_tos ikbd_tos_ok) as (k' & pre & old & new & E & _ & Eq & Eq' & _ & _ & Hs & Ht).
  - reflexivity.
  - reflexivity.
  - right. lia.
  - vm_compute. discriminate.
  - exists k', new. assert (queue ikbd_tos = []) as E0 by (vm_compute; reflexivity). rewrite E0 in Eq.
    destruct pre; [|done]. destruct old; [|done]. by split_and!.
Defined.

(** A key waits in the queue. *)
Definition ikbd_reversed : ikbd :=
  match SendKey 0x1e (k_yaxis_reversed true ikbd_tos) with Ret k => k | Trap _ => ikbd_tos end.

Lemma ikbd_reversed_ok : ikbd_ok ikbd_reversed.
Proof.
  unfold ikbd_reversed. destruct (send_spec 0x1e (k_intype IKBD_PACKET_KEYBOARD (k_yaxis_reversed true ikbd_tos))) as (k & E & Ho & _).
  { destruct ikbd_tos_ok. by split. }
  unfold SendKey. by rewrite E.
Qed.

Lemma reversed_merge_loses_witness :
  ∃ k1 k2, SendMouseMotion 0 (-20) 0 false ikbd_reversed = Ret k1 ∧ queue k1 = [0x1e; 0xf8; 0; 20]
    ∧ SendMouseMotion 0 (-20) 0 false k1 = Ret k2 ∧ queue k2 = [0x1e; 0xf8; 0; 0].
Proof.
  destruct (reversed_merge_loses 20 0 ikbd_reversed ikbd_reversed_ok) as (k1 & k2 & E1 & Eq1 & E2 & Eq2).
  - vm_compute. reflexivity.
  - vm_compute. reflexivity.
  - vm_compute. discriminate.
  - vm_compute. discriminate.
  - vm_compute. discriminate.
  - unfold MOUSE_DELTA_MAX. lia.
  - exists k1, k2. split_and!; [exact E1|rewrite Eq1; vm_compute; reflexivity|exact E2|rewrite Eq2; vm_compute; reflexivity].
Defined.

Lemma ikbd_safe_witness :
  ∃ k', ikbd_run [kact_key 0x1e; kact_motion 3000 0 0 true; kact_hat 1 8; kact_write some_time 0xfffc02 0x1c;
                  kact_mfp (act_irq 5 2); kact_read 0xfffc02] ikbd_tos = Ret k' ∧ ikbd_ok k'.
Proof.
  apply ikbd_safe.
  - exact ikbd_tos_ok.
  - repeat constructor; cbn; lia.
  - cbn. unfold INT_MAX. lia.
Defined.
