(* ===== verification/BlitSpec.v ===== *)
(** * The blitter transfers a block

    The reference: the picture after a transfer, bit by bit.  Every destination bit under the
    end mask becomes the logic operation (its number is its truth table) of the operand bit
    and the old bit; the operand is the source line shifted right by the skew, a halftone
    line, both, or ones.  [blit_correct]: for source and destination in RAM that do not
    overlap, the transfer computes this picture, whatever its size, direction, increments,
    skew, masks and flags, changes no other byte, and ends. *)

From S2P Require Import Prelude Ram Blitter.

(** ** The reference *)

(** A 16 bit word from its bits. *)
Definition bits16 (f : Z → bool) : Z := foldr (λ i n, (if f i then 2 ^ i else 0) .| n) 0 (seqZ 0 16).

(** The number of a logic operation is its truth table. *)
Definition logic_bit (o : Z) (s d : bool) : bool := Z.testbit o (3 - 2 * b2z s - b2z d).

(** A destination word after the transfer. *)
Definition blit_word (o mask opd dst : Z) : Z :=
  bits16 (λ i, if Z.testbit mask i then logic_bit o (Z.testbit opd i) (Z.testbit dst i) else Z.testbit dst i).

Section picture.
Context (b : blitter).

Definition words_per_line : Z := Z.max 1 b.(x_count).
Definition fetches_extra : Z := b2z b.(FXSR).
(** The last word of a line is not fetched. *)
Definition skips_last : bool := b.(NFSR) && (2 <=? b.(x_count)).

Definition source_stride : Z :=
  (fetches_extra + (if 2 <=? b.(x_count) then b.(x_count) - 1 - b2z b.(NFSR) else 0)) * b.(source_x_inc) + b.(source_y_inc).
Definition dest_stride : Z := (words_per_line - 1) * b.(dest_x_inc) + b.(dest_y_inc).

(** The address of the [k]-th source word, and of the [x]-th destination word, of line [y]. *)
Definition saddr (y k : Z) : Z := u32 (b.(source_addr) + y * source_stride + k * b.(source_x_inc)).
Definition daddr (y x : Z) : Z := u32 (b.(dest_addr) + y * dest_stride + x * b.(dest_x_inc)).

Definition word (m : gmap Z Z) (a : Z) : Z := u16 (do_get_mem_word m a).

Definition uses_source : bool := 2 <=? b.(hop).
Definition uses_halftone : bool := nz (b.(hop) .& 1).

(** The source word that arrives for word [x] of line [y], and the one before it. *)
Definition this_word (m : gmap Z Z) (y x : Z) : Z :=
  if skips_last && (x =? words_per_line - 1) then 0 else word m (saddr y (fetches_extra + x)).
Definition previous_word (m : gmap Z Z) (y x : Z) : Z :=
  if 0 <? x then this_word m y (x - 1)
  else if b.(FXSR) then word m (saddr y 0)
  else if y =? 0 then 0 else this_word m (y - 1) (words_per_line - 1).

(** Left to right, the previous word is the left one. *)
Definition window (p c : Z) : Z := if b.(source_x_inc) <? 0 then c * 65536 + p else p * 65536 + c.

Definition halftone_start : Z := if nz (b.(line_num) .& 0x20) then b.(skewreg) .& 15 else b.(line_num) .& 15.
Definition halftone_step : Z := if 0 <=? b.(dest_y_inc) then 1 else -1.
Definition halftone_line (y : Z) : Z := aget b.(halftone_ram) ((halftone_start + y * halftone_step) mod 16).

Definition operand (m : gmap Z Z) (y x : Z) : Z :=
  let s := if uses_source then u16 (window (previous_word m y x) (this_word m y x) ≫ (b.(skewreg) .& 15)) else 0xffff in
  if uses_halftone then s .& halftone_line y else s.

Definition end_mask (x : Z) : Z :=
  if x =? 0 then b.(end_mask_1) else if x =? words_per_line - 1 then b.(end_mask_3) else b.(end_mask_2).

(** The words of the picture, in the order they are written. *)
Definition picture_word (y x : Z) : Z * Z :=
  (daddr y x, blit_word b.(op) (end_mask x) (operand b.(mem) y x) (word b.(mem) (daddr y x))).
Definition picture_line (y n : Z) : list (Z * Z) := map (picture_word y) (seqZ 0 n).
Definition picture_lines (n : Z) : list (Z * Z) := seqZ 0 n ≫= λ y, picture_line y words_per_line.
End picture.

Definition write_words (l : list (Z * Z)) (m : gmap Z Z) : gmap Z Z := foldl (λ m '(a, v), do_put_mem_word a v m) m l.

(** Words that do not overlap. *)
Definition apart (a a' : Z) : Prop := a + 2 <= a' ∨ a' + 2 <= a.

Section ram.
Context `{ram_config}.

(** Words of RAM the blitter can read, and write. *)
Definition ram_read (a : Z) : bool := (a <? 0xff000000) && negb (is_hardware a) && test_ram_boundary a 2 false.
Definition ram_write (a : Z) : bool :=
  ram_read a && test_ram_boundary a 2 true && negb ((a <=? 0x800) || ((0x0e00000 <=? a) && (a <? 0x1000000))).

(** The registers are in range, and the block is one the chip can transfer: source and
    destination words in RAM, apart from each other. *)
Record blit_ok (b : blitter) : Prop := {
  bk_mask1 : in_u 16 b.(end_mask_1); bk_mask2 : in_u 16 b.(end_mask_2); bk_mask3 : in_u 16 b.(end_mask_3);
  bk_x : in_u 16 b.(x_count); bk_y : 1 <= b.(y_count) < 65536; bk_hop : in_u 2 b.(hop); bk_op : in_u 4 b.(op);
  bk_source : in_u 32 b.(source_addr); bk_dest : in_u 32 b.(dest_addr);
  bk_halftone : ∀ i, in_u 16 (aget b.(halftone_ram) i);
  bk_readable : uses_source b = true → ∀ y k, 0 <= y < b.(y_count) → 0 <= k < fetches_extra b + words_per_line b - b2z (skips_last b) →
    ram_read (saddr b y k) = true;
  bk_writable : ∀ y x, 0 <= y < b.(y_count) → 0 <= x < words_per_line b → ram_write (daddr b y x) = true;
  bk_apart : uses_source b = true → ∀ y k y' x, 0 <= y < b.(y_count) → 0 <= k < fetches_extra b + words_per_line b - b2z (skips_last b) →
    0 <= y' < b.(y_count) → 0 <= x < words_per_line b → apart (saddr b y k) (daddr b y' x);
  bk_once : ∀ y x y' x', 0 <= y < b.(y_count) → 0 <= x < words_per_line b → 0 <= y' < b.(y_count) → 0 <= x' < words_per_line b →
    (y, x) ≠ (y', x') → apart (daddr b y x) (daddr b y' x') }.
End ram.

(** ** Bits *)

Lemma testbit_bits16 f i : 0 <= i → Z.testbit (bits16 f) i = (i <? 16) && f i.
Proof.
  intros Hi. unfold bits16. assert (∀ l, Forall (λ j, 0 <= j) l →
    Z.testbit (foldr (λ i n, (if f i then 2 ^ i else 0) .| n) 0 l) i = bool_decide (i ∈ l) && f i) as Hl.
  { induction 1 as [|j l Hj Hl IH]; cbn [foldr]; [by rewrite Z.bits_0|]. rewrite Z.lor_spec, IH.
    destruct (decide (i = j)) as [->|Hne].
    - rewrite (bool_decide_eq_true_2 (j ∈ j :: l)) by set_solver. destruct (f j); cbn [andb].
      + by rewrite Z.pow2_bits_true.
      + by rewrite Z.bits_0, andb_false_r.
    - assert (Z.testbit (if f j then 2 ^ j else 0) i = false) as -> by (destruct (f j); [apply Z.pow2_bits_false; lia|apply Z.bits_0]).
      cbn [orb]. f_equal. apply bool_decide_ext. set_solver. }
  rewrite Hl by (apply Forall_seqZ; lia). f_equal. destruct (Z.ltb_spec i 16).
  - apply bool_decide_eq_true_2, elem_of_seqZ. lia.
  - apply bool_decide_eq_false_2. rewrite elem_of_seqZ. lia.
Qed.

Lemma in_u_high k x i : in_u k x → 0 <= k <= i → Z.testbit x i = false.
Proof. intros Hx Hi. apply (proj1 (in_u_bits k x ltac:(lia)) Hx). lia. Qed.

(** The logic operations of the table are their truth tables. *)
Lemma logic_ops_spec o f : logic_ops !! Z.to_nat o = Some f → 0 <= o →
  ∀ s d i, 0 <= i < 16 → Z.testbit (f s d) i = logic_bit o (Z.testbit s i) (Z.testbit d i).
Proof.
  intros Hf Ho s d i Hi. destruct (Z_of_nat_complete o Ho) as [n ->]. rewrite Nat2Z.id in Hf.
  pose proof (lookup_lt_Some _ _ _ Hf) as Hlt. cbn in Hlt.
  assert (Z.testbit 0xffff i = true) by (change 0xffff with (Z.ones 16); apply Z.ones_spec_low; lia).
  do 16 (destruct n as [|n];
    [injection Hf as <-; rewrite ?Z.lor_spec, ?Z.lxor_spec, ?Z.land_spec, ?Z.lnot_spec, ?Z.bits_0 by lia;
     by destruct (Z.testbit s i), (Z.testbit d i)|]).
  lia.
Qed.

Lemma blit_word_spec o f k s d :
  logic_ops !! Z.to_nat o = Some f → 0 <= o → in_u 16 k → in_u 16 d →
  u16 ((d .& Z.lnot k) .| (f s d .& k)) = blit_word o k s d.
Proof.
  intros Hf Ho Hk Hd. apply Z.bits_inj'. intros i Hi. unfold blit_word. rewrite testbit_bits16 by done.
  unfold u16. change 65536 with (2 ^ 16). destruct (Z.ltb_spec i 16); cbn [andb]; [|by rewrite Z.mod_pow2_bits_high by lia].
  rewrite Z.mod_pow2_bits_low, Z.lor_spec, !Z.land_spec, Z.lnot_spec, (logic_ops_spec o f Hf Ho) by lia.
  by destruct (Z.testbit k i), (Z.testbit d i); cbn [negb andb orb]; rewrite ?andb_true_r, ?andb_false_r, ?orb_false_r.
Qed.

(** ** Memory *)

Lemma word_put m a a' v : apart a a' → word (do_put_mem_word a v m) a' = word m a'.
Proof.
  intros Ha. unfold word, do_put_mem_word, do_get_mem_word. unfold apart in Ha.
  by rewrite !aget_aset_ne by lia.
Qed.

Lemma word_writes l m a : Forall (λ p, apart p.1 a) l → word (write_words l m) a = word m a.
Proof.
  revert m. induction l as [|[a' v] l IH]; intros m Hl; [done|]. apply Forall_cons in Hl as [Ha Hl].
  cbn. unfold write_words in IH. rewrite IH by done. by apply word_put.
Qed.

Lemma write_words_app l1 l2 m : write_words (l1 ++ l2) m = write_words l2 (write_words l1 m).
Proof. apply foldl_app. Qed.

Lemma in_u_word m a : in_u 16 (word m a).
Proof. apply in_u_u16. Qed.

Lemma u32_add a i : u32 (u32 a + i) = u32 (a + i).
Proof. unfold u32. by rewrite Zplus_mod_idemp_l. Qed.

(** ** Words *)

Section transfer.
Context `{ram_config}.

Lemma ram_read_word a s : ram_read a = true → LM_UW a s = BOk (word s.(mem) a) s.
Proof.
  intros [[Ha Hh]%andb_prop Ht]%andb_prop. apply negb_true_iff in Hh.
  unfold LM_UW, phys_get_word, phys_addr, check_ram_boundary, mbind, B_bind. rewrite Ha, Hh, Ht. done.
Qed.

Lemma ram_write_word a v s : ram_write a = true → SM_UW a v s = BOk tt (b_mem (do_put_mem_word a v s.(mem)) s).
Proof.
  intros [[[[Ha Hh]%andb_prop _]%andb_prop Ht]%andb_prop Hs]%andb_prop. apply negb_true_iff in Hh, Hs.
  unfold SM_UW, phys_put_word, phys_addr, check_ram_boundary, mbind, B_bind. rewrite Hs, Ha, Hh, Ht. done.
Qed.

Lemma ram_write_read a : ram_write a = true → ram_read a = true.
Proof. by intros [[? _]%andb_prop _]%andb_prop. Qed.

Context (b : blitter) (Hb : blit_ok b).

(** The state during a transfer: what changes. *)
Definition st (sa da hc yc : Z) (m : gmap Z Z) : blitter :=
  mk_blitter b.(halftone_ram) b.(end_mask_1) b.(end_mask_2) b.(end_mask_3) b.(NFSR) b.(FXSR) b.(x_count) yc b.(hop) b.(op)
    b.(line_num) b.(skewreg) hc (if uses_halftone b then halftone_step b else b.(halftone_direction))
    b.(source_x_inc) b.(source_y_inc) b.(dest_x_inc) b.(dest_y_inc) sa b.(source_addr_backup) da b.(dest_addr_backup) b.(blit) m.

(** ** Addresses *)

Lemma saddr_next y k : u32 (saddr b y k + b.(source_x_inc)) = saddr b y (k + 1).
Proof. unfold saddr. rewrite u32_add. f_equal. lia. Qed.

Lemma daddr_next y x : u32 (daddr b y x + b.(dest_x_inc)) = daddr b y (x + 1).
Proof. unfold daddr. rewrite u32_add. f_equal. lia. Qed.

(** The source words fetched for a line, the last included, less one. *)
Definition last_fetch : Z := fetches_extra b + words_per_line b - 1 - b2z (skips_last b).

Lemma saddr_line y : u32 (saddr b y last_fetch + b.(source_y_inc)) = saddr b (y + 1) 0.
Proof.
  unfold saddr. rewrite u32_add. f_equal. unfold last_fetch, source_stride, words_per_line, skips_last.
  destruct (Z.leb_spec 2 b.(x_count)).
  - rewrite andb_true_r. rewrite Z.max_r by lia. lia.
  - rewrite andb_false_r. pose proof (bk_x _ Hb) as [? _]. rewrite Z.max_l by lia. cbn [b2z]. lia.
Qed.

Lemma daddr_line y : u32 (daddr b y (words_per_line b - 1) + b.(dest_y_inc)) = daddr b (y + 1) 0.
Proof. unfold daddr. rewrite u32_add. f_equal. unfold dest_stride. lia. Qed.

(** ** The source buffer *)

Definition shift : Z → Z := if b.(source_x_inc) <? 0 then shift_N else shift_P.
Definition fetch : Z → B Z :=
  if uses_source b then if b.(source_x_inc) <? 0 then fetch_N else fetch_P else no_fetch.
Definition hop_operand : Z → Z → B Z :=
  if uses_source b then if uses_halftone b then hop_both else hop_source
  else if uses_halftone b then hop_halftone else hop_ones.
Definition hop_inc : B unit := if uses_halftone b then halftone_inc else no_halftone_inc.

Lemma shift_window p c : in_u 16 p → in_u 16 c → shift (window b p c) = window b c 0.
Proof.
  unfold in_u, shift, window, shift_N, shift_P, u32. intros. change (2 ^ 16) with 65536 in *. destruct (_ <? 0).
  - rewrite shr_div by lia. change (2 ^ 16) with 65536. rewrite Z.div_add_l, Z.div_small by lia. lia.
  - rewrite shl_mul by lia. change (2 ^ 16) with 65536. Z.div_mod_to_equations. lia.
Qed.

Lemma window_lor p c : in_u 16 p → in_u 16 c → (if b.(source_x_inc) <? 0 then window b p 0 .| (c ≪ 16) else window b p 0 .| c) = window b p c.
Proof.
  unfold window. intros Hp Hc. destruct (_ <? 0).
  - rewrite shl_mul by lia. change (2 ^ 16) with 65536. rewrite Z.lor_comm, Z.mul_0_l, Z.add_0_l.
    apply (lor_add _ _ 16); [lia|exact Hp|]. apply Z.mod_mul. lia.
  - rewrite Z.add_0_r. apply (lor_add _ _ 16); [lia|exact Hc|]. apply Z.mod_mul. lia.
Qed.

(** One more word in the buffer. *)
Lemma fetch_window p c s :
  uses_source b = true → ram_read s.(source_addr) = true → in_u 16 p → in_u 16 c →
  fetch (shift (window b p c)) s = BOk (window b c (word s.(mem) s.(source_addr))) s.
Proof.
  intros Hu Hr Hp Hc. rewrite shift_window by done. unfold fetch. rewrite Hu, <- (window_lor c (word s.(mem) s.(source_addr))) by (done || apply in_u_word).
  destruct (_ <? 0); unfold fetch_N, fetch_P, b_get, mbind, B_bind; by rewrite ram_read_word.
Qed.

Lemma no_fetch_run buf s : uses_source b = false → fetch buf s = BOk buf s.
Proof. intros Hu. unfold fetch. by rewrite Hu. Qed.

(** ** The operand *)

Definition halftone_at (y : Z) : Z := if uses_halftone b then (halftone_start b + y * halftone_step b) mod 16 else b.(halftone_curroffset).

Definition operand_of (y p c : Z) : Z :=
  let s := if uses_source b then u16 (window b p c ≫ (b.(skewreg) .& 15)) else 0xffff in
  if uses_halftone b then s .& halftone_line b y else s.

Lemma u16_land x y : in_u 16 y → u16 (x .& y) = u16 x .& y.
Proof.
  intros Hy. unfold u16. change 65536 with (2 ^ 16). apply Z.bits_inj'. intros i Hi. rewrite Z.land_spec.
  destruct (Z_lt_dec i 16); [by rewrite !Z.mod_pow2_bits_low, Z.land_spec by lia|]. by rewrite !Z.mod_pow2_bits_high by lia.
Qed.

Lemma operand_run y buf p c sa da yc m :
  (uses_source b = true → buf = window b p c) →
  ∃ v, hop_operand buf (b.(skewreg) .& 15) (st sa da (halftone_at y) yc m) = BOk v (st sa da (halftone_at y) yc m) ∧ u16 v = operand_of y p c.
Proof.
  intros Hbuf. unfold hop_operand, operand_of. pose proof (bk_halftone _ Hb) as Hh.
  assert (uses_halftone b = true → halftone_word (st sa da (halftone_at y) yc m) = BOk (halftone_line b y) (st sa da (halftone_at y) yc m)) as Hht.
  { intros Hu. unfold halftone_word, halftone_line, b_get, mbind, B_bind. cbn [st halftone_curroffset].
    unfold halftone_at. rewrite Hu. pose proof (Z.mod_pos_bound (halftone_start b + y * halftone_step b) 16 ltac:(lia)).
    by rewrite (proj2 (Z.leb_le 0 _)), (proj2 (Z.ltb_lt _ 16)) by lia. }
  destruct (uses_source b), (uses_halftone b).
  - unfold hop_both, mbind, B_bind. rewrite Hht by done. eexists. split; [reflexivity|]. rewrite u16_land by apply Hh. by rewrite Hbuf.
  - eexists. split; [reflexivity|]. by rewrite Hbuf.
  - unfold hop_halftone. rewrite Hht by done. eexists. split; [reflexivity|].
    rewrite Z.land_comm, (land_ones_const _ 0xffff 16) by lia. done.
  - by eexists.
Qed.

(** ** The picture so far *)

Local Notation X := (words_per_line b).
Local Notation Y := b.(y_count).
Local Notation m0 := b.(mem).

(** The words written before word [x] of line [y]. *)
Definition before (y x : Z) : list (Z * Z) := picture_lines b y ++ picture_line b y x.

Lemma before_next y x : 0 <= x → before y (x + 1) = before y x ++ [picture_word b y x].
Proof.
  intros Hx. unfold before, picture_line. rewrite seqZ_app, map_app by lia. rewrite Z.add_0_l. by rewrite app_assoc.
Qed.

Lemma before_line y : 0 <= y → before y X = before (y + 1) 0.
Proof.
  intros Hy. unfold before, picture_lines. rewrite seqZ_app, bind_app by lia. rewrite Z.add_0_l. change (seqZ y 1) with [0 + y]. rewrite Z.add_0_l. cbn. by rewrite !app_nil_r.
Qed.

Lemma elem_of_before y x q : q ∈ before y x → ∃ y' x', q = picture_word b y' x' ∧ 0 <= x' ∧ (0 <= y' < y ∧ x' < X ∨ y' = y ∧ x' < x).
Proof.
  unfold before, picture_lines, picture_line. rewrite elem_of_app, list_elem_of_bind. intros [(y' & Hq & Hy)|Hq].
  - apply list_elem_of_fmap in Hq as (x' & -> & Hx). rewrite elem_of_seqZ in Hy, Hx. exists y', x'. split_and!; [done|lia|left; lia].
  - apply list_elem_of_fmap in Hq as (x' & -> & Hx). rewrite elem_of_seqZ in Hx. exists y, x'. split_and!; [done|lia|right; lia].
Qed.

Lemma dest_unwritten y x : 0 <= y < Y → 0 <= x < X → word (write_words (before y x) m0) (daddr b y x) = word m0 (daddr b y x).
Proof.
  intros Hy Hx. apply word_writes, Forall_forall. intros q Hq. apply elem_of_before in Hq as (y' & x' & -> & Hx' & Hlt).
  apply (bk_once _ Hb); try lia. intros E. simplify_eq. lia.
Qed.

Lemma source_unwritten y' x y k : uses_source b = true → 0 <= y < Y → 0 <= k <= last_fetch → 0 <= y' < Y → x <= X →
  word (write_words (before y' x) m0) (saddr b y k) = word m0 (saddr b y k).
Proof.
  intros Hu Hy Hk Hy' Hx. apply word_writes, Forall_forall. intros q Hq. apply elem_of_before in Hq as (y2 & x2 & -> & Hx2 & Hlt).
  cbn [picture_word fst]. unfold last_fetch in Hk. destruct (bk_apart _ Hb Hu y k y2 x2); unfold apart; lia.
Qed.

(** ** Steps of the transfer *)

Context (f : Z → Z → Z) (Hf : logic_ops !! Z.to_nat b.(op) = Some f).
Local Notation skew := (b.(skewreg) .& 15).

(** The source buffer holds word [c] of line [y] behind some other one. *)
Definition holds (buf c : Z) : Prop := uses_source b = true → ∃ p, in_u 16 p ∧ buf = window b p c.

Lemma dest_run y x buf p c sa yc mask :
  0 <= y < Y → 0 <= x < X → (uses_source b = true → buf = window b p c) →
  (∀ sa da hc yc m, mask (st sa da hc yc m) = end_mask b x) → in_u 16 (end_mask b x) →
  operand_of y p c = operand b m0 y x →
  blit_dest f hop_operand skew mask buf (st sa (daddr b y x) (halftone_at y) yc (write_words (before y x) m0))
  = BOk tt (st sa (daddr b y x) (halftone_at y) yc (write_words (before y (x + 1)) m0)).
Proof.
  intros Hy Hx Hbuf Hmask Hk Hopd. pose proof (bk_writable _ Hb y x Hy Hx) as Hw. unfold blit_dest, b_get. unfold mbind at 1, B_bind at 1.
  change (dest_addr (st sa (daddr b y x) (halftone_at y) yc ?m)) with (daddr b y x).
  unfold mbind at 1, B_bind at 1. rewrite ram_read_word by (by apply ram_write_read).
  change (mem (st sa (daddr b y x) (halftone_at y) yc ?m)) with m. rewrite dest_unwritten by done.
  destruct (operand_run y buf p c sa (daddr b y x) yc (write_words (before y x) m0) Hbuf) as (v & E & Hv).
  unfold mbind at 1, B_bind at 1. rewrite E. unfold store_masked, b_get, mbind, B_bind. rewrite Hmask.
  change (dest_addr (st sa (daddr b y x) (halftone_at y) yc ?m)) with (daddr b y x). rewrite ram_write_word by done.
  pose proof (bk_op _ Hb) as [Ho _]. rewrite Hv, (blit_word_spec b.(op) f), Hopd by (done || apply in_u_word).
  rewrite before_next, write_words_app by lia. done.
Qed.

Lemma in_u_this y x : in_u 16 (this_word b m0 y x).
Proof. unfold this_word. destruct (_ && _); [by apply in_ub_spec|apply in_u_word]. Qed.

Lemma X_pos : 1 <= X.
Proof. unfold words_per_line. lia. Qed.

Lemma end_mask_range x : in_u 16 (end_mask b x).
Proof. destruct Hb. unfold end_mask. by repeat case_match. Qed.

(** A fetched word of the line. *)
Lemma this_word_fetched y x : x < X - b2z (skips_last b) → this_word b m0 y x = word m0 (saddr b y (fetches_extra b + x)).
Proof.
  intros Hx. unfold this_word. destruct (skips_last b); cbn [andb b2z] in *; [|done].
  by rewrite (proj2 (Z.eqb_neq _ _)) by lia.
Qed.

(** Fetching source word [k] of line [y] behind word [c]. *)
Lemma fetch_run y k y' x buf c da hc yc :
  holds buf c → in_u 16 c → 0 <= y < Y → 0 <= k <= last_fetch → 0 <= y' < Y → x <= X →
  let s := st (saddr b y k) da hc yc (write_words (before y' x) m0) in
  ∃ buf', fetch (shift buf) s = BOk buf' s ∧ (uses_source b = true → buf' = window b c (word m0 (saddr b y k))).
Proof.
  intros Hbuf Hc Hy Hk Hy' Hx s. destruct (uses_source b) eqn:Hu.
  - destruct (Hbuf Hu) as (p & Hp & ->). eexists. split; [|reflexivity]. rewrite (fetch_window p c s Hu); [|apply (bk_readable _ Hb Hu); unfold last_fetch in Hk; lia|done|done].
    do 2 f_equal. by apply source_unwritten.
  - exists (shift buf). split; [by apply no_fetch_run|done].
Qed.

Definition carried (y : Z) : Z := if y =? 0 then 0 else this_word b m0 (y - 1) (X - 1).

Lemma in_u_carried y : in_u 16 (carried y).
Proof. unfold carried. case_match; [by apply in_ub_spec|apply in_u_this]. Qed.

Lemma add_source_st inc sa da hc yc m : inc (st sa da hc yc m) = inc b →
  add_source inc (st sa da hc yc m) = BOk tt (st (u32 (sa + inc b)) da hc yc m).
Proof. intros E. unfold add_source, b_upd. rewrite E. reflexivity. Qed.
Lemma add_dest_st inc sa da hc yc m : inc (st sa da hc yc m) = inc b →
  add_dest inc (st sa da hc yc m) = BOk tt (st sa (u32 (da + inc b)) hc yc m).
Proof. intros E. unfold add_dest, b_upd. rewrite E. reflexivity. Qed.

Lemma add_source_run y k da hc yc m :
  add_source source_x_inc (st (saddr b y k) da hc yc m) = BOk tt (st (saddr b y (k + 1)) da hc yc m).
Proof. rewrite add_source_st, saddr_next; reflexivity. Qed.
Lemma add_dest_run y x sa hc yc m :
  add_dest dest_x_inc (st sa (daddr b y x) hc yc m) = BOk tt (st sa (daddr b y (x + 1)) hc yc m).
Proof. rewrite add_dest_st, daddr_next; reflexivity. Qed.

(** The states before a line, and behind its word [x]. *)
Definition at_line (y yc : Z) : blitter := st (saddr b y 0) (daddr b y 0) (halftone_at y) yc (write_words (before y 0) m0).
Definition behind (y x k yc : Z) : blitter := st (saddr b y k) (daddr b y x) (halftone_at y) yc (write_words (before y (x + 1)) m0).

Lemma skips_last_X : skips_last b = true → 2 <= X.
Proof. unfold skips_last, words_per_line. intros [_ ?%Z.leb_le]%andb_prop. lia. Qed.

Lemma first_run y yc buf : 0 <= y < Y → holds buf (carried y) →
  ∃ buf', blit_first f shift fetch hop_operand skew buf (at_line y yc) = BOk buf' (behind y 0 (fetches_extra b) yc)
    ∧ holds buf' (this_word b m0 y 0).
Proof.
  intros Hy Hbuf. pose proof X_pos as HX. pose proof skips_last_X as Hsk.
  assert (0 <= last_fetch ∧ (b.(FXSR) = true → 1 <= last_fetch)) as [Hlf Hlf1].
  { unfold last_fetch, fetches_extra. destruct (skips_last b), b.(FXSR); cbn [b2z]; specialize (Hsk eq_refl) || clear Hsk; lia. }
  assert (this_word b m0 y 0 = word m0 (saddr b y (fetches_extra b))) as Ethis.
  { rewrite this_word_fetched; [by rewrite Z.add_0_r|]. destruct (skips_last b); cbn [b2z]; specialize (Hsk eq_refl) || clear Hsk; lia. }
  unfold blit_first, b_get. unfold mbind at 1, B_bind at 1. change (FXSR (at_line y yc)) with b.(FXSR).
  assert (∃ buf1, (if b.(FXSR) then s ← fetch (shift buf); add_source source_x_inc;; mret s else mret buf) (at_line y yc)
    = BOk buf1 (st (saddr b y (fetches_extra b)) (daddr b y 0) (halftone_at y) yc (write_words (before y 0) m0))
    ∧ holds buf1 (previous_word b m0 y 0)) as (buf1 & E1 & Hbuf1).
  { unfold previous_word, fetches_extra. destruct b.(FXSR) eqn:Efx; cbn [b2z Z.ltb Z.compare].
    - destruct (fetch_run y 0 y 0 buf (carried y) (daddr b y 0) (halftone_at y) yc Hbuf (in_u_carried y) Hy ltac:(specialize (Hlf1 eq_refl); lia) Hy ltac:(lia)) as (buf1 & E & Hw).
      unfold mbind, B_bind. unfold at_line. rewrite E. exists buf1. split.
      + by rewrite add_source_run.
      + intros Hu. exists (carried y). split; [apply in_u_carried|by apply Hw].
    - exists buf. split; [done|exact Hbuf]. }
  unfold mbind at 1, B_bind at 1. rewrite E1. unfold mbind at 1, B_bind at 1.
  assert (in_u 16 (previous_word b m0 y 0)) as Hp.
  { unfold previous_word. cbn [Z.ltb Z.compare]. destruct b.(FXSR); [apply in_u_word|apply (in_u_carried y)]. }
  destruct (fetch_run y (fetches_extra b) y 0 buf1 (previous_word b m0 y 0) (daddr b y 0) (halftone_at y) yc Hbuf1 Hp Hy) as (buf2 & E2 & Hw2);
    [unfold fetches_extra; destruct b.(FXSR); cbn [b2z]; specialize (Hlf1 eq_refl) || clear Hlf1; lia|done|lia|].
  rewrite E2. unfold mbind, B_bind.
  rewrite (dest_run y 0 buf2 (previous_word b m0 y 0) (this_word b m0 y 0)); [|done|lia|by rewrite Ethis|done|apply end_mask_range|done].
  exists buf2. split; [done|]. intros Hu. exists (previous_word b m0 y 0). rewrite Ethis. auto.
Qed.

(** The next word of a line, when it is fetched: [step] is the body of the loop, or the end of
    the line without NFSR. *)
Lemma previous_next y x : 0 <= x → previous_word b m0 y (x + 1) = this_word b m0 y x.
Proof. intros Hx. unfold previous_word. rewrite (proj2 (Z.ltb_lt 0 _)) by lia. do 2 f_equal. lia. Qed.

Lemma middle_run y x yc buf :
  0 <= y < Y → 0 <= x → x + 1 < X - 1 → holds buf (this_word b m0 y x) →
  ∃ buf', blit_middle f shift fetch hop_operand skew buf (behind y x (fetches_extra b + x) yc)
          = BOk buf' (behind y (x + 1) (fetches_extra b + (x + 1)) yc)
    ∧ holds buf' (this_word b m0 y (x + 1)).
Proof.
  intros Hy Hx HX Hbuf. unfold blit_middle, behind. unfold mbind at 1, B_bind at 1. rewrite add_source_run.
  unfold mbind at 1, B_bind at 1. rewrite add_dest_run. rewrite <- Z.add_assoc. unfold mbind at 1, B_bind at 1.
  destruct (fetch_run y (fetches_extra b + (x + 1)) y (x + 1) buf (this_word b m0 y x) (daddr b y (x + 1)) (halftone_at y) yc Hbuf (in_u_this y x) Hy) as (buf1 & E & Hw).
  { unfold last_fetch, fetches_extra. destruct b.(FXSR), (skips_last b); cbn [b2z]; lia. }
  { done. }
  { lia. }
  rewrite E. assert (this_word b m0 y (x + 1) = word m0 (saddr b y (fetches_extra b + (x + 1)))) as Ethis.
  { apply this_word_fetched. destruct (skips_last b); cbn [b2z]; lia. }
  unfold mbind, B_bind. rewrite (dest_run y (x + 1) buf1 (this_word b m0 y x) (this_word b m0 y (x + 1))); [|done|lia|by rewrite Ethis| |apply end_mask_range|].
  - exists buf1. split; [done|]. intros Hu. exists (this_word b m0 y x). split; [apply in_u_this|]. rewrite Ethis. auto.
  - intros. unfold end_mask. rewrite (proj2 (Z.eqb_neq (x + 1) 0)), (proj2 (Z.eqb_neq (x + 1) _)) by lia. done.
  - unfold operand_of, operand. by rewrite previous_next.
Qed.

Lemma middles_run y yc n : ∀ x buf,
  0 <= y < Y → 0 <= x → x + Z.of_nat n < X - 1 ∨ n = O → holds buf (this_word b m0 y x) →
  ∃ buf', b_for n (blit_middle f shift fetch hop_operand skew) buf (behind y x (fetches_extra b + x) yc)
          = BOk buf' (behind y (x + Z.of_nat n) (fetches_extra b + (x + Z.of_nat n)) yc)
    ∧ holds buf' (this_word b m0 y (x + Z.of_nat n)).
Proof.
  induction n as [|n IH]; intros x buf Hy Hx Hn Hbuf; cbn [b_for].
  { exists buf. rewrite Z.add_0_r. done. }
  destruct (middle_run y x yc buf Hy Hx ltac:(lia) Hbuf) as (buf1 & E & Hb1). unfold mbind, B_bind. rewrite E.
  destruct (IH (x + 1) buf1 Hy ltac:(lia) ltac:(lia) Hb1) as (buf2 & E2 & Hb2).
  replace (x + Z.of_nat (S n)) with (x + 1 + Z.of_nat n) by lia. eauto.
Qed.

Lemma nfsr_test : b.(NFSR) = true → (b.(end_mask_3) <? Z.lnot (0xffff ≫ skew)) = false.
Proof.
  intros _. apply Z.ltb_ge. pose proof (bk_mask3 _ Hb) as [? _]. unfold Z.lnot.
  assert (0 <= 0xffff ≫ skew) by (apply Z.shiftr_nonneg; lia). lia.
Qed.

Lemma last_run y yc buf :
  0 <= y < Y → 2 <= b.(x_count) → holds buf (this_word b m0 y (X - 2)) →
  ∃ buf', blit_last f shift fetch hop_operand skew buf (behind y (X - 2) (fetches_extra b + (X - 2)) yc)
          = BOk buf' (behind y (X - 1) last_fetch yc)
    ∧ holds buf' (this_word b m0 y (X - 1)).
Proof.
  intros Hy HX2 Hbuf. assert (X = b.(x_count)) as EX by (unfold words_per_line; lia).
  assert (skips_last b = b.(NFSR)) as Esk by (unfold skips_last; by rewrite (proj2 (Z.leb_le 2 _)), andb_true_r).
  unfold blit_last, behind, b_get. unfold mbind at 1, B_bind at 1. rewrite add_dest_run. do 2 unfold mbind at 1, B_bind at 1.
  replace (X - 2 + 1) with (X - 1) by lia. cbv zeta.
  change (NFSR (st _ _ _ _ _)) with b.(NFSR). change (end_mask_3 (st _ _ _ _ _)) with b.(end_mask_3).
  assert (previous_word b m0 y (X - 1) = this_word b m0 y (X - 2)) as Eprev.
  { replace (X - 1) with (X - 2 + 1) by lia. apply previous_next. lia. }
  assert (∃ buf1, (if negb b.(NFSR) || (b.(end_mask_3) <? Z.lnot (0xffff ≫ skew)) then add_source source_x_inc;; fetch (shift buf) else mret (shift buf))
      (st (saddr b y (fetches_extra b + (X - 2))) (daddr b y (X - 1)) (halftone_at y) yc (write_words (before y (X - 1)) m0))
    = BOk buf1 (st (saddr b y last_fetch) (daddr b y (X - 1)) (halftone_at y) yc (write_words (before y (X - 1)) m0))
    ∧ (uses_source b = true → buf1 = window b (this_word b m0 y (X - 2)) (this_word b m0 y (X - 1)))) as (buf1 & E & Hw).
  { destruct b.(NFSR) eqn:En; cbn [negb orb].
    - rewrite nfsr_test by done. exists (shift buf). split; [unfold last_fetch; rewrite Esk; cbn [b2z]; do 3 f_equal; lia|].
      intros Hu. destruct (Hbuf Hu) as (p & Hp & ->). rewrite shift_window by (done || apply in_u_this). f_equal.
      unfold this_word. by rewrite Esk, Z.eqb_refl.
    - unfold mbind, B_bind. rewrite add_source_run. assert (last_fetch = fetches_extra b + (X - 2) + 1) as El by (unfold last_fetch; rewrite Esk; cbn [b2z]; lia).
      rewrite <- El. destruct (fetch_run y last_fetch y (X - 1) buf (this_word b m0 y (X - 2)) (daddr b y (X - 1)) (halftone_at y) yc Hbuf (in_u_this y _) Hy) as (buf1 & E & Hw).
      { unfold last_fetch, fetches_extra. rewrite Esk. destruct b.(FXSR); cbn [b2z]; lia. }
      { done. }
      { lia. }
      exists buf1. split; [exact E|]. intros Hu. rewrite (this_word_fetched y (X - 1)) by (rewrite Esk; cbn [b2z]; lia). rewrite Hw by done. do 3 f_equal. lia. }
  unfold mbind at 1, B_bind at 1. rewrite E. unfold mbind, B_bind.
  rewrite (dest_run y (X - 1) buf1 (this_word b m0 y (X - 2)) (this_word b m0 y (X - 1))); [|done|lia|done| |apply end_mask_range|].
  - exists buf1. split; [done|]. intros Hu. exists (this_word b m0 y (X - 2)). split; [apply in_u_this|auto].
  - intros. unfold end_mask. rewrite (proj2 (Z.eqb_neq (X - 1) 0)), Z.eqb_refl by lia. done.
  - unfold operand_of, operand. by rewrite Eprev.
Qed.

Lemma inc_run y sa da yc m : hop_inc (st sa da (halftone_at y) yc m) = BOk tt (st sa da (halftone_at (y + 1)) yc m).
Proof.
  unfold hop_inc, halftone_at, st. destruct (uses_halftone b); [|done]. unfold halftone_inc, b_upd. cbn.
  do 2 f_equal. change 15 with (BITMASK 4). rewrite land_BITMASK by lia. change (2 ^ 4) with 16. rewrite Zplus_mod_idemp_l.
  by replace (halftone_start b + y * halftone_step b + halftone_step b) with (halftone_start b + (y + 1) * halftone_step b) by lia.
Qed.

Lemma line_run y yc buf : 0 <= y < Y → holds buf (carried y) →
  ∃ buf', blit_line f shift fetch hop_operand hop_inc skew buf (at_line y yc) = BOk buf' (at_line (y + 1) yc) ∧ holds buf' (carried (y + 1)).
Proof.
  intros Hy Hbuf. destruct (first_run y yc buf Hy Hbuf) as (buf1 & E1 & H1). pose proof X_pos.
  assert (∃ buf2, (source_buffer ← b_for (Z.to_nat (b.(x_count) - 2)) (blit_middle f shift fetch hop_operand skew) buf1;
      if 2 <=? b.(x_count) then blit_last f shift fetch hop_operand skew source_buffer else mret source_buffer) (behind y 0 (fetches_extra b) yc)
    = BOk buf2 (behind y (X - 1) last_fetch yc) ∧ holds buf2 (this_word b m0 y (X - 1))) as (buf2 & E2 & H2).
  { unfold mbind, B_bind. destruct (Z.leb_spec 2 b.(x_count)) as [Hx|Hx].
    - assert (X = b.(x_count)) as EX by (unfold words_per_line; lia).
      destruct (middles_run y yc (Z.to_nat (b.(x_count) - 2)) 0 buf1 Hy ltac:(lia) ltac:(lia) H1) as (buf2 & E & H2).
      rewrite Z2Nat.id, Z.add_0_l, Z.add_0_r in E by lia. rewrite Z2Nat.id, Z.add_0_l, <- EX in H2 by lia. rewrite E, <- EX. by apply last_run.
    - assert (X = 1) as EX by (unfold words_per_line; lia). assert (Z.to_nat (b.(x_count) - 2) = O) as -> by lia. cbn [b_for].
      exists buf1. rewrite EX. split; [|done]. unfold mret, B_ret. do 2 f_equal. unfold last_fetch, skips_last. rewrite EX, (proj2 (Z.leb_gt 2 _)), andb_false_r by lia.
      cbn [b2z]. lia. }
  unfold blit_line, b_get. unfold mbind at 1, B_bind at 1. rewrite E1. unfold mbind at 1, B_bind at 1.
  change (x_count (behind _ _ _ _)) with b.(x_count). unfold mbind, B_bind in E2 |- *.
  destruct (b_for _ _ _ _) as [buf3 s3|]; [|done].
  rewrite E2.
  unfold behind at 1. rewrite add_source_st, saddr_line by reflexivity. rewrite add_dest_st by reflexivity.
  rewrite daddr_line. cbv beta iota. rewrite inc_run. replace (X - 1 + 1) with X by lia. rewrite before_line by lia.
  exists buf2. split; [done|]. unfold carried. rewrite (proj2 (Z.eqb_neq (y + 1) 0)) by lia. by replace (y + 1 - 1) with y by lia.
Qed.

Lemma lines_run n : ∀ y buf, 0 <= y < Y → Y - y <= Z.of_nat n → holds buf (carried y) →
  blit_lines f shift fetch hop_operand hop_inc n skew buf (at_line y (Y - y)) = BOk tt (at_line Y 0).
Proof.
  induction n as [|n IH]; intros y buf Hy Hn Hbuf; [lia|]. cbn [blit_lines].
  destruct (line_run y (Y - y) buf Hy Hbuf) as (buf1 & E & H1). unfold mbind, B_bind. rewrite E. unfold b_upd, b_get.
  change (y_count (at_line (y + 1) (Y - y))) with (Y - y). pose proof (bk_y _ Hb).
  rewrite u16_small by lia. change (b_y_count (Y - y - 1) (at_line (y + 1) (Y - y))) with (at_line (y + 1) (Y - y - 1)).
  change (y_count (at_line (y + 1) (Y - y - 1))) with (Y - y - 1). replace (Y - y - 1) with (Y - (y + 1)) by lia.
  destruct (Z.ltb_spec 0 (Y - (y + 1))) as [Hlt|Hge].
  - apply IH; [lia|lia|done].
  - replace (y + 1) with Y by lia. by rewrite Z.sub_diag.
Qed.

Lemma hop_ops_run : HOP_OPS f shift fetch hop_operand hop_inc b = BOk tt (at_line Y 0).
Proof.
  pose proof (bk_y _ Hb) as HY. unfold HOP_OPS, b_get. do 2 unfold mbind at 1, B_bind at 1. fold (uses_halftone b).
  assert (∀ s, s = at_line 0 Y → (y ← λ b, BOk b.(y_count) b; blit_lines f shift fetch hop_operand hop_inc (Z.to_nat (if y =? 0 then 65536 else y)) skew 0) s
    = BOk tt (at_line Y 0)) as Hrun.
  { intros s ->. unfold mbind, B_bind. change (y_count (at_line 0 Y)) with Y. rewrite (proj2 (Z.eqb_neq Y 0)) by lia.
    rewrite <- (Z.sub_0_r Y) at 2. apply lines_run; [lia|lia|]. intros _. exists 0. split; [by apply in_ub_spec|]. unfold window, carried. by case_match. }
  assert (saddr b 0 0 = b.(source_addr)) as Es.
  { unfold saddr. rewrite !Z.mul_0_l, !Z.add_0_r. apply u32_small. exact (bk_source _ Hb). }
  assert (daddr b 0 0 = b.(dest_addr)) as Ed.
  { unfold daddr. rewrite !Z.mul_0_l, !Z.add_0_r. apply u32_small. exact (bk_dest _ Hb). }
  assert (before 0 0 = []) as Ebef by done.
  assert (∀ x, 0 <= x .& 15 < 16) as H15 by (intros x; change 15 with (BITMASK 4) at 1 2; apply (in_u_land_mask 4); lia).
  unfold mbind at 1, B_bind at 1. destruct (uses_halftone b) eqn:Eu.
  - unfold mbind at 1 2 3, B_bind at 1 2 3. apply Hrun. unfold at_line, st, halftone_at. rewrite Es, Ed, Ebef, Eu, Z.mul_0_l, Z.add_0_r, Z.mod_small.
    + unfold halftone_start, halftone_step. by destruct b.
    + unfold halftone_start. case_match; apply H15.
  - apply Hrun. unfold at_line, st, halftone_at. rewrite Es, Ed, Ebef, Eu. by destruct b.
Qed.
End transfer.

(** ** The picture *)

Lemma in_u_blit_word o k s d : in_u 16 (blit_word o k s d).
Proof. apply in_u_bits; [lia|]. intros i Hi. unfold blit_word. rewrite testbit_bits16 by lia. by rewrite (proj2 (Z.ltb_ge i 16)). Qed.

Lemma word_put_same m a v : in_u 16 v → word (do_put_mem_word a v m) a = v.
Proof.
  intros [Hv0 Hv]. change (2 ^ 16) with 65536 in Hv. unfold word, do_get_mem_word, do_put_mem_word.
  rewrite aget_aset_ne, !aget_aset_eq by lia.
  rewrite (land_ones_const _ 0xff 8), shl_mul, shr_div by lia. change (2 ^ 8) with 256.
  rewrite (lor_add _ _ 8); [|lia|by apply Z.mod_pos_bound|by apply Z.mod_mul].
  rewrite u16_small; Z.div_mod_to_equations; lia.
Qed.

(** The last state of a word that is written once, and of a byte that is not written. *)
Lemma word_written (ps : list (Z * Z)) (g : Z * Z → Z * Z) p m :
  p ∈ ps → in_u 16 (g p).2 → (∀ q, q ∈ ps → q ≠ p → apart (g q).1 (g p).1) →
  word (write_words (map g ps) m) (g p).1 = (g p).2.
Proof.
  intros Hp Hv. induction ps as [|q ps IH] using rev_ind; intros Hap; [by apply not_elem_of_nil in Hp|].
  rewrite map_app, write_words_app. cbn [map write_words foldl]. destruct (g q) as [a v] eqn:Eq.
  destruct (decide (q = p)) as [->|Hne]; [rewrite Eq in *; by apply word_put_same|].
  rewrite word_put; [apply IH; [set_solver|set_solver]|]. change a with (a, v).1. rewrite <- Eq. apply Hap; set_solver.
Qed.

Lemma byte_unwritten l m a : (∀ q, q ∈ l → a ≠ q.1 ∧ a ≠ q.1 + 1) → aget (write_words l m) a = aget m a.
Proof.
  revert m. induction l as [|[a' v] l IH]; intros m Hl; [done|]. unfold write_words in *. cbn [foldl]. rewrite IH by set_solver.
  destruct (Hl (a', v)) as [H1 H2]; [set_solver|]. cbn [fst] in *. unfold do_put_mem_word. rewrite !aget_aset_ne by (cbn in *; lia). done.
Qed.

Lemma picture_lines_map b n : picture_lines b n = map (λ p, picture_word b p.1 p.2) (seqZ 0 n ≫= λ y, pair y <$> seqZ 0 (words_per_line b)).
Proof.
  unfold picture_lines, picture_line. induction (seqZ 0 n) as [|y l IH]; [done|].
  rewrite !bind_cons, map_app, IH. f_equal. clear IH. induction (seqZ 0 (words_per_line b)) as [|x l' IH']; [done|]. cbn. f_equal. exact IH'.
Qed.

Lemma elem_of_block (n k y x : Z) : (y, x) ∈ (seqZ 0 n ≫= λ y, pair y <$> seqZ 0 k) ↔ 0 <= y < n ∧ 0 <= x < k.
Proof.
  rewrite list_elem_of_bind. split.
  - intros (y' & (x' & E & Hx)%list_elem_of_fmap & Hy). simplify_eq. rewrite elem_of_seqZ in Hx, Hy. lia.
  - intros [Hy Hx]. exists y. split; [|apply elem_of_seqZ; lia]. apply list_elem_of_fmap. exists x. split; [done|]. apply elem_of_seqZ. lia.
Qed.

Section result.
Context `{ram_config}.

Lemma picture_written b y x : blit_ok b → 0 <= y < b.(y_count) → 0 <= x < words_per_line b →
  word (write_words (picture_lines b b.(y_count)) b.(mem)) (daddr b y x) = (picture_word b y x).2.
Proof.
  intros Hb Hy Hx. rewrite picture_lines_map. change (daddr b y x) with ((λ p, picture_word b p.1 p.2) (y, x)).1.
  rewrite word_written; [done|by apply elem_of_block|apply in_u_blit_word|].
  intros [y' x'] Hq Hne. apply elem_of_block in Hq as [Hy' Hx']. by apply (bk_once _ Hb).
Qed.

Lemma picture_outside b a : (∀ y x, 0 <= y < b.(y_count) → 0 <= x < words_per_line b → a ≠ daddr b y x ∧ a ≠ daddr b y x + 1) →
  aget (write_words (picture_lines b b.(y_count)) b.(mem)) a = aget b.(mem) a.
Proof.
  intros Ha. apply byte_unwritten. intros q. rewrite picture_lines_map. intros ([y x] & -> & Hp)%list_elem_of_fmap.
  apply elem_of_block in Hp as [Hy Hx]. by apply Ha.
Qed.

(** The function of the table for the operation and the direction. *)
Lemma call_run b : blit_ok b →
  b_call (if b.(source_x_inc) <? 0 then do_hop_op_N else do_hop_op_P) b.(hop) b.(op) b = BOk tt (at_line b b.(y_count) 0).
Proof.
  intros Hb. destruct (bk_op _ Hb) as [Ho1 Ho2]. destruct (bk_hop _ Hb) as [Hh1 Hh2].
  destruct (lookup_lt_is_Some_2 logic_ops (Z.to_nat b.(op))) as [f Hf]; [cbn; lia|]. rewrite <- (hop_ops_run b Hb f Hf).
  assert (b_call (if b.(source_x_inc) <? 0 then do_hop_op_N else do_hop_op_P) b.(hop) b.(op) = HOP_OPS f (shift b) (fetch b) (hop_operand b) (hop_inc b)) as ->; [|done].
  unfold b_call. rewrite !(proj2 (Z.leb_le 0 _)) by lia. cbn [andb].
  unfold shift, fetch, hop_operand, hop_inc, uses_source, uses_halftone, do_hop_op_N, do_hop_op_P.
  change (2 ^ 2) with 4 in Hh2. assert (b.(hop) = 0 ∨ b.(hop) = 1 ∨ b.(hop) = 2 ∨ b.(hop) = 3) as Hhop by lia.
  assert (∀ g : (Z → Z → Z) → B unit, (g <$> logic_ops) !! Z.to_nat b.(op) = Some (g f)) as Hg by (intros g; by rewrite list_lookup_fmap, Hf).
  destruct Hhop as [->|[->|[->| ->]]]; destruct (_ <? 0);
    lazymatch goal with |- _ = HOP_OPS f ?s ?ft ?o ?i =>
    exact (f_equal (λ r, match r with Some g => g | None => b_stop OutOfBounds end) (Hg (λ f, HOP_OPS f s ft o i))) end.
Qed.
End result.

(** ** Starting a transfer *)

(** The state when a transfer starts: the line number written with the busy bit. *)
Definition started (v : Z) (b : blitter) : blitter := b_blit true (b_line_num (v .& 0x3f) b).

Section start.
Context `{ram_config}.

Lemma store_busy v b : b.(y_count) ≠ 0 → nz (v .& 0x80) = true → STORE_B_ff8a3c v b = BOk tt (started v b).
Proof.
  intros Hy Hv. unfold STORE_B_ff8a3c, b_upd, b_get, mbind, B_bind. cbn [b_line_num y_count].
  by rewrite (proj2 (Z.eqb_neq _ 0) Hy), Hv.
Qed.

Lemma handleWrite_busy v b : b.(y_count) ≠ 0 → nz (v .& 0x80) = true →
  blitter_handleWrite 0xff8a3c v b = (Do_Blit;; b_upd (b_blit false)) (started v b).
Proof.
  intros Hy Hv. unfold blitter_handleWrite. change (hw_addr 0xff8a3c) with 0x3c. cbn [Z.eqb Pos.eqb].
  unfold mbind at 1, B_bind at 1. by rewrite store_busy.
Qed.

(** The source address is one the blitter accepts. *)
Definition source_accepted (b : blitter) : Prop := 0x800 < b.(source_addr) ∧ (b.(source_addr) < 0x0e80000 ∨ 0x1000000 <= b.(source_addr)).

Lemma Do_Blit_run b : blit_ok b → b.(source_addr_backup) = Some b.(source_addr) → b.(dest_addr_backup) = Some b.(dest_addr) →
  source_accepted b → Do_Blit b = BOk tt (at_line b b.(y_count) 0).
Proof.
  intros Hb Es Ed Hs. unfold Do_Blit, restore_addr, b_get, mbind, B_bind. rewrite Es, Z.eqb_refl. unfold mret, B_ret. rewrite Ed, Z.eqb_refl.
  unfold source_accepted in Hs.
  assert ((b.(source_addr) <=? 0x800) || ((0x0e80000 <=? b.(source_addr)) && (b.(source_addr) <? 0x1000000)) = false) as -> by lia.
  pose proof (bk_y _ Hb). pose proof (bk_writable _ Hb 0 0 ltac:(lia) ltac:(unfold words_per_line; lia)) as Hw.
  assert (daddr b 0 0 = b.(dest_addr)) as Hd0.
  { unfold daddr. rewrite !Z.mul_0_l, !Z.add_0_r. apply u32_small. exact (bk_dest _ Hb). }
  rewrite Hd0 in Hw. apply andb_prop in Hw as [_ Hw%negb_true_iff]. rewrite Hw.
  rewrite <- (call_run b Hb). by destruct (_ <? 0).
Qed.

(** C4: writing the busy bit transfers the block.  For a block in RAM whose source and
    destination words do not overlap, with addresses set and a source address the blitter
    accepts, the write returns when the whole block is done: every destination word has
    become the word of the reference picture (logic operation by its truth table, skewed
    source or halftone operand, end masks), every other byte of memory is as it was, no line
    is left, and the address registers stand behind the block.  The size, direction,
    increments, skew and flags are arbitrary. *)
Theorem blit_correct (v : Z) (b : blitter)
    (Hb : blit_ok (started v b)) (Hv : nz (v .& 0x80) = true) (Hs : source_accepted b)
    (Hsb : b.(source_addr_backup) = Some b.(source_addr)) (Hdb : b.(dest_addr_backup) = Some b.(dest_addr)) :
  let b0 := started v b in
  ∃ b', blitter_handleWrite 0xff8a3c v b = BOk tt b'
    ∧ (∀ y x, 0 <= y < b.(y_count) → 0 <= x < words_per_line b →
        word b'.(mem) (daddr b0 y x) = blit_word b.(op) (end_mask b0 x) (operand b0 b.(mem) y x) (word b.(mem) (daddr b0 y x)))
    ∧ (∀ a, (∀ y x, 0 <= y < b.(y_count) → 0 <= x < words_per_line b → a ≠ daddr b0 y x ∧ a ≠ daddr b0 y x + 1) →
        aget b'.(mem) a = aget b.(mem) a)
    ∧ b'.(y_count) = 0 ∧ b'.(blit) = false
    ∧ b'.(source_addr) = saddr b0 b.(y_count) 0 ∧ b'.(dest_addr) = daddr b0 b.(y_count) 0.
Proof.
  intros b0. pose proof (bk_y _ Hb) as Hy. cbn in Hy. rewrite handleWrite_busy by (done || lia). fold b0. unfold mbind, B_bind.
  rewrite (Do_Blit_run b0) by done. eexists. split; [reflexivity|]. unfold b_blit, at_line, st, before. cbn [mem y_count blit source_addr dest_addr].
  change (picture_line b0 (y_count b0) 0) with (@nil (Z * Z)). rewrite app_nil_r. split_and!; [| |done..].
  - intros y x Hy' Hx. by rewrite (picture_written b0).
  - intros a Ha. by apply (picture_outside b0).
Qed.
End start.

(** Three words by two lines, to the right by four bits, without the last fetch. *)
#[global] Instance demo_config : ram_config := {| FastRAM_SIZE := 0; VideoRAMBase := 0xf0000000 |}.

Definition demo_memory : gmap Z Z :=
  list_to_map (zip (seqZ 0x10000 12) [0x12; 0x34; 0x56; 0x78; 0x9a; 0xbc; 0xde; 0xf0; 0x11; 0x22; 0x33; 0x44]).
Definition blit_demo : blitter :=
  mk_blitter ∅ 0x0fff 0xffff 0xf000 true false 3 2 2 3 0 4 0 1 2 6 2 0x4c 0x10000 (Some 0x10000) 0x20000 (Some 0x20000) false demo_memory.

Lemma demo_ok : blit_ok (started 0x80 blit_demo).
Proof.
  constructor; try (by apply in_ub_spec); try (cbn; lia).
  - intros i. apply in_ub_spec. cbn. by rewrite aget_empty.
  - intros _ y k Hy Hk. change (0 <= y < 2) in Hy. change (0 <= k < 2) in Hk. assert (y = 0 ∨ y = 1) as [->| ->] by lia; assert (k = 0 ∨ k = 1) as [->| ->] by lia; vm_compute; reflexivity.
  - intros y x Hy Hx. change (0 <= y < 2) in Hy. change (0 <= x < 3) in Hx.
    assert (y = 0 ∨ y = 1) as [->| ->] by lia; assert (x = 0 ∨ x = 1 ∨ x = 2) as [->|[->| ->]] by lia; vm_compute; reflexivity.
  - intros _ y k y' x Hy Hk Hy' Hx. change (0 <= y < 2) in Hy. change (0 <= k < 2) in Hk. change (0 <= y' < 2) in Hy'. change (0 <= x < 3) in Hx. left.
    assert (y = 0 ∨ y = 1) as [->| ->] by lia; assert (k = 0 ∨ k = 1) as [->| ->] by lia;
    assert (y' = 0 ∨ y' = 1) as [->| ->] by lia; assert (x = 0 ∨ x = 1 ∨ x = 2) as [->|[->| ->]] by lia; vm_compute; discriminate.
  - intros y x y' x' Hy Hx Hy' Hx' Hne. change (0 <= y < 2) in Hy. change (0 <= x < 3) in Hx. change (0 <= y' < 2) in Hy'. change (0 <= x' < 3) in Hx'. unfold apart.
    assert (y = 0 ∨ y = 1) as [->| ->] by lia; assert (x = 0 ∨ x = 1 ∨ x = 2) as [->|[->| ->]] by lia;
    assert (y' = 0 ∨ y' = 1) as [->| ->] by lia; assert (x' = 0 ∨ x' = 1 ∨ x' = 2) as [->|[->| ->]] by lia;
    first [by destruct Hne|left; vm_compute; discriminate|right; vm_compute; discriminate].
Qed.

Lemma blit_correct_witness :
  ∃ b', blitter_handleWrite 0xff8a3c 0x80 blit_demo = BOk tt b' ∧ word b'.(mem) 0x20002 = 0x4567.
Proof.
  destruct (blit_correct 0x80 blit_demo demo_ok) as (b' & E & Hw & _).
  - reflexivity.
  - split; cbn; lia.
  - reflexivity.
  - reflexivity.
  - exists b'. split; [exact E|]. pose proof (Hw 0 1 ltac:(vm_compute; split; [discriminate|reflexivity]) ltac:(vm_compute; split; [discriminate|reflexivity])) as H1.
    change (daddr (started 0x80 blit_demo) 0 1) with 0x20002 in H1. rewrite H1. vm_compute. reflexivity.
Defined.

(** ** Interrupted transfers *)

Section interrupted.
Context `{ram_config}.

(** The code leaves the busy state alone, however it ends. *)
Definition keeps_blit {A} (m : B A) : Prop :=
  ∀ b, match m b with BOk _ b' | BStop _ b' => b'.(blit) = b.(blit) end.

Lemma kb_bind {A C} (m : B A) (g : A → B C) : keeps_blit m → (∀ a, keeps_blit (g a)) → keeps_blit (m ≫= g).
Proof.
  intros Hm Hg b. specialize (Hm b). unfold mbind, B_bind. destruct (m b) as [a b1|e b1]; [|done].
  specialize (Hg a b1). destruct (g a b1); congruence.
Qed.
Lemma kb_ret {A} (a : A) : keeps_blit (mret a).
Proof. done. Qed.
Lemma kb_stop {A} e : keeps_blit (b_stop (A:=A) e).
Proof. done. Qed.
Lemma kb_get {A} (g : blitter → A) : keeps_blit (b_get g).
Proof. done. Qed.
Lemma kb_upd g : (∀ b, (g b).(blit) = b.(blit)) → keeps_blit (b_upd g).
Proof. intros Hg b. apply Hg. Qed.
Lemma kb_if {A} (c : bool) (m1 m2 : B A) : keeps_blit m1 → keeps_blit m2 → keeps_blit (if c then m1 else m2).
Proof. by destruct c. Qed.

Create HintDb kb.
#[local] Hint Resolve kb_ret kb_stop kb_get kb_if : kb.
#[local] Hint Extern 1 (keeps_blit (_ ≫= _)) => apply kb_bind; [|intros ?] : kb.
#[local] Hint Extern 1 (keeps_blit (b_upd _)) => apply kb_upd; reflexivity : kb.

Ltac kb := repeat first [progress eauto 2 with kb | apply kb_bind; [|intros ?] | apply kb_if | case_match].

Lemma kb_get_word a : keeps_blit (LM_UW a).
Proof. unfold LM_UW, phys_get_word, check_ram_boundary. kb. Qed.
Lemma kb_put_word a v : keeps_blit (SM_UW a v).
Proof. unfold SM_UW, phys_put_word, check_ram_boundary. kb. Qed.
#[local] Hint Resolve kb_get_word kb_put_word : kb.

Lemma kb_operands buf s : keeps_blit (hop_ones buf s) ∧ keeps_blit (hop_halftone buf s) ∧ keeps_blit (hop_source buf s) ∧ keeps_blit (hop_both buf s)
  ∧ keeps_blit (no_fetch buf) ∧ keeps_blit (fetch_N buf) ∧ keeps_blit (fetch_P buf).
Proof. unfold hop_ones, hop_halftone, hop_source, hop_both, halftone_word, no_fetch, fetch_N, fetch_P. split_and!; kb. Qed.

Lemma kb_hop_ops f sh ft opd inc :
  (∀ buf, keeps_blit (ft buf)) → (∀ buf s, keeps_blit (opd buf s)) → keeps_blit inc → keeps_blit (HOP_OPS f sh ft opd inc).
Proof.
  intros Hft Hopd Hinc.
  assert (∀ s k buf, keeps_blit (blit_dest f opd s k buf)) as Hdest by (intros; unfold blit_dest, store_masked; kb).
  assert (∀ s buf, keeps_blit (blit_middle f sh ft opd s buf)) as Hmid by (intros; unfold blit_middle, add_source, add_dest; kb).
  assert (∀ n s buf, keeps_blit (b_for n (blit_middle f sh ft opd s) buf)) as Hfor by (induction n; intros; cbn [b_for]; kb).
  assert (∀ s buf, keeps_blit (blit_line f sh ft opd inc s buf)) as Hline
    by (intros; unfold blit_line, blit_first, blit_last, add_source, add_dest; cbv zeta; kb).
  assert (∀ n s buf, keeps_blit (blit_lines f sh ft opd inc n s buf)) as Hlines by (induction n; intros; cbn [blit_lines]; kb).
  unfold HOP_OPS. cbv zeta. kb.
Qed.

Lemma kb_call (t : list (list (B unit))) h o : Forall (Forall keeps_blit) t → keeps_blit (b_call t h o).
Proof.
  intros Ht. unfold b_call. case_match eqn:E; [|done]. destruct (_ && _); [|done].
  apply bind_Some in E as (l & Hl & Hf). eapply Forall_lookup_1 in Ht; [|exact Hl]. by eapply Forall_lookup_1 in Ht.
Qed.

Lemma kb_row sh ft opd inc :
  (∀ buf, keeps_blit (ft buf)) → (∀ buf s, keeps_blit (opd buf s)) → keeps_blit inc → Forall keeps_blit ((λ f, HOP_OPS f sh ft opd inc) <$> logic_ops).
Proof. intros H1 H2 H3. rewrite Forall_fmap. apply Forall_true. intros f. exact (kb_hop_ops f sh ft opd inc H1 H2 H3). Qed.

Lemma kb_tables : Forall (Forall keeps_blit) do_hop_op_N ∧ Forall (Forall keeps_blit) do_hop_op_P.
Proof.
  assert (keeps_blit no_halftone_inc) as H1 by apply kb_ret. assert (keeps_blit halftone_inc) as H2 by (apply kb_upd; reflexivity).
  pose proof kb_operands as Ho. unfold do_hop_op_N, do_hop_op_P. rewrite !Forall_cons, !Forall_nil.
  split_and!; try exact I; apply kb_row; try assumption; intros; apply (Ho _ 0) || apply Ho.
Qed.

Lemma kb_Do_Blit : keeps_blit Do_Blit.
Proof.
  destruct kb_tables. unfold Do_Blit, restore_addr. kb; by apply kb_call.
Qed.

(** A transfer that ends with a bus error, or any other way but normally, stays requested:
    the next byte or word written to any register of the blitter, here an end mask, starts
    the transfer again with the registers as they are. *)
Lemma interrupted_blit_restarts (v k : Z) (e : blit_stop) (b b' : blitter)
    (Hy : b.(y_count) ≠ 0) (Hv : nz (v .& 0x80) = true)
    (Hstop : blitter_handleWrite 0xff8a3c v b = BStop e b') :
  b'.(blit) = true
  ∧ blitter_handleWriteW 0xff8a28 k b' = (Do_Blit;; b_upd (b_blit false)) (b_end_mask_1 k b').
Proof.
  rewrite handleWrite_busy in Hstop by done. pose proof (kb_Do_Blit (started v b)) as Hk. unfold mbind, B_bind in Hstop.
  assert (b'.(blit) = true) as Hb' by (destruct (Do_Blit (started v b)); simplify_eq; by rewrite Hk).
  split; [done|]. unfold blitter_handleWriteW. change (hw_addr 0xff8a28) with 0x28. cbn [Z.ltb Z.eqb Pos.eqb Z.compare Pos.compare Pos.compare_cont].
  unfold mbind at 1, B_bind at 1. unfold b_upd at 1, start_blit, b_get. unfold mbind at 1, B_bind at 1. cbn [b_end_mask_1 blit]. by rewrite Hb'.
Qed.
End interrupted.

(** A source in fast RAM, on a machine without it. *)
Lemma interrupted_blit_restarts_witness :
  ∃ e b', blitter_handleWrite 0xff8a3c 0x80 (b_source_addr 0x1000000 (b_source_addr_backup (Some 0x1000000) blit_demo)) = BStop e b' ∧ b'.(blit) = true.
Proof.
  destruct (blitter_handleWrite 0xff8a3c 0x80 (b_source_addr 0x1000000 (b_source_addr_backup (Some 0x1000000) blit_demo))) as [u b1|e b1] eqn:E.
  - vm_compute in E. discriminate.
  - exists e, b1. split; [reflexivity|]. refine (proj1 (interrupted_blit_restarts 0x80 0 e _ b1 _ _ E)).
    + vm_compute. discriminate.
    + vm_compute. reflexivity.
Defined.
