(* ===== verification/MmuSpec.v ===== *)
(** * The memory management unit is correct

    The translation tables define a translation [xlate]; the table search finds it, and changes
    nothing in memory but the used, modified and (inherited) write protection bits of the
    descriptors, which does not change the translation.  On top of it the caches: while no
    access fails, every access goes where the tables say. *)

From S2P Require Import Prelude Ram Mmu.

(** ** Longs in memory *)

Notation long := do_get_mem_long.

Lemma join_split k w : 0 <= k → ((w ≫ k) ≪ k) .| (w .& Z.ones k) = w.
Proof.
  intros Hk. apply Z.bits_inj'. intros i Hi. rewrite Z.lor_spec, Z.shiftl_spec, Z.land_spec by lia. destruct (Z_lt_dec i k).
  - rewrite Z.testbit_neg_r, Z.ones_spec_low, andb_true_r by lia. done.
  - rewrite Z.shiftr_spec, Z.sub_add, Z.ones_spec_high, andb_false_r, orb_false_r by lia. done.
Qed.

Lemma get_put_word a w m : do_get_mem_word (do_put_mem_word a w m) a = w.
Proof.
  unfold do_get_mem_word, do_put_mem_word. rewrite aget_aset_ne, aget_aset_eq, aget_aset_eq by lia. apply (join_split 8). lia.
Qed.

Lemma get_put_word_ne a a' w m : a + 2 <= a' ∨ a' + 2 <= a → do_get_mem_word (do_put_mem_word a w m) a' = do_get_mem_word m a'.
Proof. intros Ha. unfold do_get_mem_word, do_put_mem_word. by rewrite !aget_aset_ne by lia. Qed.

Lemma get_put_long a l m : long (do_put_mem_long a l m) a = l.
Proof.
  unfold do_get_mem_long, do_put_mem_long. rewrite get_put_word_ne, !get_put_word by lia. apply (join_split 16). lia.
Qed.

Lemma get_put_long_ne a a' l m : a + 4 <= a' ∨ a' + 4 <= a → long (do_put_mem_long a l m) a' = long m a'.
Proof. intros Ha. unfold do_get_mem_long, do_put_mem_long. by rewrite !get_put_word_ne by lia. Qed.

Lemma put_long_byte a l m b : ¬ (a <= b < a + 4) → aget (do_put_mem_long a l m) b = aget m b.
Proof. intros Hb. unfold do_put_mem_long, do_put_mem_word. by rewrite !aget_aset_ne by lia. Qed.

Lemma long_ext m m' a : (∀ b, a <= b < a + 4 → aget m' b = aget m b) → long m' a = long m a.
Proof. intros E. unfold do_get_mem_long, do_get_mem_word. by rewrite !E by lia. Qed.

(** ** Masks *)

(** Equal up to the bits of [k]. *)
Lemma lor_eq_land x y k mask : x .| k = y .| k → k .& mask = 0 → x .& mask = y .& mask.
Proof.
  intros E Hk. apply Z.bits_inj'. intros i _. apply (f_equal (λ z, Z.testbit z i)) in E, Hk. rewrite Z.bits_0, !Z.lor_spec, !Z.land_spec in *.
  destruct (Z.testbit k i), (Z.testbit mask i), (Z.testbit x i), (Z.testbit y i); done.
Qed.

Lemma lor_eq_bit x y k i : x .| k = y .| k → Z.testbit k i = false → Z.testbit x i = Z.testbit y i.
Proof. intros E Hk. apply (f_equal (λ z, Z.testbit z i)) in E. by rewrite !Z.lor_spec, Hk, !orb_false_r in E. Qed.

Lemma lor_eq_iff x y k : x .| k = y .| k ↔ ∀ i, 0 <= i → Z.testbit k i = false → Z.testbit x i = Z.testbit y i.
Proof.
  split; [intros E i _; by apply lor_eq_bit|]. intros E. apply Z.bits_inj'. intros i Hi. rewrite !Z.lor_spec.
  destruct (Z.testbit k i) eqn:Hk; [by rewrite !orb_true_r|]. by rewrite (E i).
Qed.

Lemma nz_flag x k c : 0 <= k → c = 1 ≪ k → nz (x .& c) = Z.testbit x k.
Proof. intros ? ->. by apply nz_land_bit. Qed.

Lemma land_bit_eqb x k c : 0 <= k → c = 1 ≪ k → (x .& c =? 0) = negb (Z.testbit x k).
Proof. intros. rewrite <- (nz_flag x k c) by done. unfold nz. by rewrite negb_involutive. Qed.

(** ** Physical memory *)

Section tables.
Context `{ram_config}.

(** A long that the table search can read and update. *)
Definition usable (a : Z) : Prop := a < 0xff000000 ∧ is_hardware a = false ∧ test_ram_boundary a 4 true = true.

Lemma test_ram_read a n : test_ram_boundary a n true = true → test_ram_boundary a n false = true.
Proof. unfold test_ram_boundary. cbn [negb orb]. rewrite andb_true_r. destruct (_ <=? _); cbn; [done|]. auto. Qed.

Lemma phys_get_usable a s : usable a → phys_get_long a s = MOk (long s.(ram) a) s.
Proof.
  intros (Ha & Hh & Ht). unfold phys_get_long, phys_addr. rewrite (proj2 (Z.ltb_lt _ _)), Hh by done.
  unfold check_ram_boundary, mbind, M_bind, real_get. cbn [bytes]. by rewrite (test_ram_read _ _ Ht).
Qed.

Lemma phys_put_usable a v s : usable a → phys_put_long a v s = MOk tt (s_ram (do_put_mem_long a v s.(ram)) s).
Proof.
  intros (Ha & Hh & Ht). unfold phys_put_long, phys_addr. rewrite (proj2 (Z.ltb_lt _ _)), Hh by done.
  unfold check_ram_boundary, mbind, M_bind, real_put. cbn [bytes]. by rewrite Ht, (test_ram_read _ _ Ht).
Qed.

(** ** Translation tables *)

(** The tables as they are in [m0], found from the registers [r]. *)
Context (r : cpu_regs) (m0 : gmap Z Z).

(** An address in one of the two address spaces. *)
Notation laddr := (bool * Z)%type.

Definition root_ptr (su : bool) : Z := if su then r.(srp) else r.(urp).

(** The addresses of the descriptors: root, pointer, page, and page after an indirect one. *)
Definition a1 (x : laddr) : Z := (root_ptr x.1 .& MMU_ROOT_PTR_ADDR_MASK) .| root_index x.2.
Definition a2 (x : laddr) : Z := (long m0 (a1 x) .& MMU_ROOT_PTR_ADDR_MASK) .| ptr_index x.2.
Definition a3 (x : laddr) : Z := page_desc_addr r.(mmu_pagesize_8k) (long m0 (a2 x)) x.2.
Definition a4 (x : laddr) : Z := if long m0 (a3 x) .& 3 =? 2 then long m0 (a3 x) .& MMU_PAGE_INDIRECT_MASK else a3 x.

Definition rooted (x : laddr) : bool := Z.testbit (long m0 (a1 x)) 1.
Definition mapped (x : laddr) : bool := rooted x && Z.testbit (long m0 (a2 x)) 1.

(** Write protection by the root and pointer descriptors. *)
Definition inherited (x : laddr) : Z := (long m0 (a1 x) .| long m0 (a2 x)) .& MMU_DES_WP.

Record tables_ok : Prop := {
  tk_1 : ∀ x, usable (a1 x);
  tk_2 : ∀ x, rooted x = true → usable (a2 x);
  tk_3 : ∀ x, mapped x = true → usable (a3 x) ∧ usable (a4 x);
  (** the page descriptors are not among the root and pointer descriptors *)
  tk_apart_1 : ∀ x y, mapped y = true → a1 x ≠ a3 y ∧ a1 x ≠ a4 y;
  tk_apart_2 : ∀ x y, rooted x = true → mapped y = true → a2 x ≠ a3 y ∧ a2 x ≠ a4 y;
  (** a page descriptor that is used twice inherits the same protection *)
  tk_shared : ∀ x y, mapped x = true → mapped y = true → a4 x = a4 y → inherited x = inherited y }.

(** Tables that translate like those of [m0]. *)
Record tables_same (m : gmap Z Z) : Prop := {
  ts_1 : ∀ x, long m (a1 x) .| 8 = long m0 (a1 x) .| 8;
  ts_2 : ∀ x, rooted x = true → long m (a2 x) .| 8 = long m0 (a2 x) .| 8;
  ts_3 : ∀ x, mapped x = true → long m0 (a3 x) .& 3 = 2 → long m (a3 x) = long m0 (a3 x);
  ts_invalid : ∀ x, mapped x = true → Z.testbit (long m0 (a4 x)) 0 = false → long m (a4 x) = long m0 (a4 x);
  ts_page : ∀ x, mapped x = true → Z.testbit (long m0 (a4 x)) 0 = true →
    long m (a4 x) .| 0x1c = long m0 (a4 x) .| 0x1c ∧ Z.testbit (long m (a4 x) .| inherited x) 2 = Z.testbit (long m0 (a4 x) .| inherited x) 2 }.

Lemma tables_same_refl : tables_same m0.
Proof. by split. Qed.

(** The longs the tables consist of. *)
Definition table_entry (t : Z) : Prop :=
  (∃ x, t = a1 x) ∨ (∃ x, rooted x = true ∧ t = a2 x) ∨ (∃ x, mapped x = true ∧ (t = a3 x ∨ t = a4 x)).

Definition outside (b : Z) : Prop := ∀ t, table_entry t → ¬ (t <= b < t + 4).

Definition same_outside (m m' : gmap Z Z) : Prop := ∀ b, outside b → aget m' b = aget m b.

#[global] Instance same_outside_preorder : PreOrder same_outside.
Proof. split; [by intros m b|]. intros m1 m2 m3 H1 H2 b Hb. by rewrite H2, H1. Qed.

Lemma tables_same_ext m m' : (∀ t, table_entry t → long m' t = long m t) → tables_same m → tables_same m'.
Proof.
  intros E []. assert (∀ x, long m' (a1 x) = long m (a1 x)) as E1 by (intros; apply E; left; eauto).
  assert (∀ x, rooted x = true → long m' (a2 x) = long m (a2 x)) as E2 by (intros; apply E; right; left; eauto).
  assert (∀ x, mapped x = true → long m' (a3 x) = long m (a3 x) ∧ long m' (a4 x) = long m (a4 x)) as E3
    by (intros; split; apply E; right; right; eauto).
  split; intros x.
  - by rewrite E1.
  - intros Hx. rewrite E2 by done. auto.
  - intros Hx. rewrite (proj1 (E3 x Hx)). auto.
  - intros Hx. rewrite (proj2 (E3 x Hx)). auto.
  - intros Hx. rewrite (proj2 (E3 x Hx)). auto.
Qed.

(** Descriptors are aligned. *)
Lemma aligned_4 x : Z.testbit x 0 = false → Z.testbit x 1 = false → x mod 4 = 0.
Proof.
  intros E0 E1. change 4 with (2 ^ 2). rewrite <- Z.land_ones by lia. apply Z.bits_inj'. intros i Hi. rewrite Z.land_spec, Z.bits_0.
  destruct (decide (i < 2)); [|by rewrite Z.ones_spec_high, andb_false_r by lia]. assert (i = 0 ∨ i = 1) as [-> | ->] by lia; by rewrite ?E0, ?E1.
Qed.

Lemma entry_aligned t : table_entry t → t mod 4 = 0.
Proof.
  assert (∀ d mask i imask, mask .& 3 = 0 → imask .& 3 = 0 → ((d .& mask) .| (i .& imask)) mod 4 = 0) as Hor.
  { intros d mask i imask Em Ei. apply aligned_4; rewrite Z.lor_spec, !Z.land_spec.
    - apply (f_equal (λ z, Z.testbit z 0)) in Em, Ei. rewrite Z.land_spec, andb_true_r in Em, Ei. rewrite Z.bits_0 in Em, Ei. by rewrite Em, Ei, !andb_false_r.
    - apply (f_equal (λ z, Z.testbit z 1)) in Em, Ei. rewrite Z.land_spec, andb_true_r in Em, Ei. rewrite Z.bits_0 in Em, Ei. by rewrite Em, Ei, !andb_false_r. }
  assert (∀ x, a3 x mod 4 = 0) as H3 by (intros; unfold a3, page_desc_addr; destruct (mmu_pagesize_8k r); by apply Hor).
  intros [(x & ->)|[(x & _ & ->)|(x & _ & [-> | ->])]]; [by apply Hor|by apply Hor|done|]. unfold a4. destruct (_ =? 2); [|done].
  apply aligned_4; rewrite Z.land_spec; apply andb_false_r.
Qed.

Lemma entries_disjoint t t' : table_entry t → table_entry t' → t = t' ∨ t + 4 <= t' ∨ t' + 4 <= t.
Proof. intros Ht%entry_aligned Ht'%entry_aligned. Z.div_mod_to_equations. lia. Qed.

Lemma entry_write t v m : table_entry t → (∀ t', table_entry t' → t' ≠ t → long (do_put_mem_long t v m) t' = long m t').
Proof. intros Ht t' Ht' Hne. apply get_put_long_ne. destruct (entries_disjoint _ _ Ht Ht') as [?|?]; [by subst|done]. Qed.

Lemma entry_write_outside t v m : table_entry t → same_outside m (do_put_mem_long t v m).
Proof. intros Ht b Hb. apply put_long_byte. by apply Hb. Qed.

(** ** Updates of descriptors *)

Lemma put_entry t v m t' : table_entry t → table_entry t' → long (do_put_mem_long t v m) t' = if decide (t' = t) then v else long m t'.
Proof. intros Ht Ht'. case_decide as E; [subst; apply get_put_long|by apply entry_write]. Qed.

Lemma entry_1 x : table_entry (a1 x).
Proof. left. eauto. Qed.
Lemma entry_2 x : rooted x = true → table_entry (a2 x).
Proof. right. left. eauto. Qed.
Lemma entry_3 x : mapped x = true → table_entry (a3 x).
Proof. right. right. eauto. Qed.
Lemma entry_4 x : mapped x = true → table_entry (a4 x).
Proof. right. right. eauto. Qed.
#[local] Hint Resolve entry_1 entry_2 entry_3 entry_4 : core.

Lemma mapped_rooted x : mapped x = true → rooted x = true.
Proof. unfold mapped. by intros [??]%andb_prop. Qed.

(** Setting the used bit of a root or pointer descriptor. *)
Lemma used_same t m : tables_ok → tables_same m → ((∃ x, t = a1 x) ∨ ∃ x, rooted x = true ∧ t = a2 x) →
  tables_same (do_put_mem_long t (long m t .| 8) m).
Proof.
  intros Hok [] Ht.
  assert (table_entry t) as Het by (destruct Ht as [(x & ->)|(x & ? & ->)]; auto).
  assert (∀ y, mapped y = true → a3 y ≠ t ∧ a4 y ≠ t) as Hne.
  { intros y Hy. destruct Ht as [(x & ->)|(x & Hx & ->)]; [destruct (tk_apart_1 Hok x y Hy)|destruct (tk_apart_2 Hok x y Hx Hy)]; split; congruence. }
  assert (∀ a b, a .| 8 = b .| 8 → (a .| 8) .| 8 = b .| 8) as H8 by (intros a b <-; by rewrite <- Z.lor_assoc).
  split; intros x; [|intros Hx..]; try (destruct (Hne x Hx) as [H3 H4]); rewrite put_entry by auto; case_decide as E; try done; subst; auto.
Qed.

(** Updating a page descriptor. *)
Lemma page_same x d m : tables_ok → tables_same m → mapped x = true → Z.testbit (long m0 (a4 x)) 0 = true →
  d .| 0x1c = long m (a4 x) .| 0x1c → Z.testbit (d .| inherited x) 2 = Z.testbit (long m (a4 x) .| inherited x) 2 →
  tables_same (do_put_mem_long (a4 x) d m).
Proof.
  intros Hok [] Hx Hres Hd Hw. split; intros y.
  - rewrite put_entry by auto. case_decide as E; [by destruct (tk_apart_1 Hok y x Hx)|done].
  - intros Hy. rewrite put_entry by auto. case_decide as E; [by destruct (tk_apart_2 Hok y x Hy Hx)|auto].
  - intros Hy H2. rewrite put_entry by auto. case_decide as E; [|auto]. rewrite <- E in Hres. apply (f_equal (λ z, Z.testbit z 0)) in H2.
    rewrite Z.land_spec, Hres in H2. done.
  - intros Hy H0. rewrite put_entry by auto. case_decide as E; [|auto]. congruence.
  - intros Hy H0. rewrite put_entry by auto. case_decide as E; [|auto]. destruct (ts_page0 y Hy H0) as [E1 E2].
    rewrite E in *. rewrite (tk_shared Hok y x Hy Hx E) in *. split; congruence.
Qed.

(** ** The table search *)

(** The registers the translation depends on. *)
Record same_setup (r' : cpu_regs) : Prop := {
  su_urp : r'.(urp) = r.(urp); su_srp : r'.(srp) = r.(srp); su_8k : r'.(mmu_pagesize_8k) = r.(mmu_pagesize_8k);
  su_enabled : r'.(mmu_enabled) = r.(mmu_enabled);
  su_dtt0 : r'.(dtt0) = r.(dtt0); su_dtt1 : r'.(dtt1) = r.(dtt1); su_itt0 : r'.(itt0) = r.(itt0); su_itt1 : r'.(itt1) = r.(itt1) }.

(** The page descriptor of an address, with its protection. *)
Definition desc (x : laddr) : Z := long m0 (a4 x) .| inherited x.
Definition resident (x : laddr) : bool := mapped x && Z.testbit (long m0 (a4 x)) 0.

(** Memory [m] as the next state of [s], with the same translation. *)
Definition memory_step (s : mmu) (m : gmap Z Z) : Prop := tables_same m ∧ same_outside s.(ram) m.

Lemma mark_used_spec t s : tables_ok → tables_same s.(ram) → ((∃ x, t = a1 x) ∨ ∃ x, rooted x = true ∧ t = a2 x) →
  ∃ m, mark_used t (long s.(ram) t) s = MOk tt (s_ram m s) ∧ memory_step s m.
Proof.
  intros Hok Hs Ht. unfold mark_used, m_when. destruct (_ =? 0).
  - assert (usable t) as Hu by (destruct Ht as [(x & ->)|(x & Hx & ->)]; [apply (tk_1 Hok)|by apply (tk_2 Hok)]).
    rewrite phys_put_usable by done. eexists. split; [reflexivity|]. split; [by apply used_same|].
    apply entry_write_outside. destruct Ht as [(x & ->)|(x & ? & ->)]; auto.
  - exists s.(ram). split; [by destruct s|]. by split.
Qed.

(** The page descriptor [d] as it is in memory, with the inherited protection. *)
Lemma page_desc_bits x m : tables_same m → mapped x = true → Z.testbit (long m0 (a4 x)) 0 = true →
  (long m (a4 x) .| inherited x) .| 0x18 = desc x .| 0x18.
Proof.
  intros Hs Hx Hr. destruct (ts_page _ Hs x Hx Hr) as [E E2]. apply lor_eq_iff. intros i Hi Hk. unfold desc.
  destruct (decide (i = 2)) as [->|Hne]; [done|]. rewrite !Z.lor_spec. f_equal. apply (lor_eq_bit _ _ _ _ E).
  change 0x1c with (0x18 .| 1 ≪ 2). rewrite Z.lor_spec, Hk. cbn [orb]. rewrite Z.shiftl_spec by lia.
  destruct (decide (i < 2)); [by apply Z.testbit_neg_r; lia|]. apply Z.bits_above_log2; [lia|]. cbn. lia.
Qed.

(** The used and modified bits are those of the descriptor in memory. *)
Definition recorded (x : laddr) (d : Z) (write : bool) (m : gmap Z Z) : Prop :=
  (∀ i, i = 3 ∨ i = 4 → Z.testbit (long m (a4 x)) i = Z.testbit d i) ∧ Z.testbit d 3 = true
  ∧ (write = true → Z.testbit (desc x) 2 = false → Z.testbit d 4 = true).

Lemma update_page_spec x write s :
  tables_ok → tables_same s.(ram) → mapped x = true → Z.testbit (long m0 (a4 x)) 0 = true →
  ∃ d m, update_page (a4 x) (long s.(ram) (a4 x) .| inherited x) write s = MOk d (s_ram m s) ∧ memory_step s m
    ∧ d .| 0x18 = desc x .| 0x18 ∧ recorded x d write m.
Proof.
  intros Hok Hs Hx Hr. set (d0 := long s.(ram) (a4 x) .| inherited x). pose proof (page_desc_bits x _ Hs Hx Hr) as Hd0. fold d0 in Hd0.
  assert (usable (a4 x)) as Hu by (by apply (tk_3 Hok)).
  assert (∀ k, k = 0x8 ∨ k = 0x18 → ∃ m, (phys_put_long (a4 x) (d0 .| k);; mret (d0 .| k)) s = MOk (d0 .| k) (s_ram m s) ∧ memory_step s m
    ∧ (d0 .| k) .| 0x18 = desc x .| 0x18 ∧ long m (a4 x) = d0 .| k) as Hst.
  { intros k Hk. unfold mbind, M_bind. rewrite phys_put_usable by done. eexists. split; [reflexivity|]. split; [split; [|apply entry_write_outside; auto]|split; [|apply get_put_long]].
    - apply page_same; try done.
      + unfold d0. apply Z.bits_inj'. intros i Hi. rewrite !Z.lor_spec. unfold inherited. rewrite Z.land_spec, Z.lor_spec.
        destruct (Z.testbit 0x1c i) eqn:E; [by rewrite !orb_true_r|]. change 0x1c with (0x18 .| MMU_DES_WP) in E. rewrite Z.lor_spec in E.
        apply orb_false_iff in E as [E1 E2]. rewrite E2. assert (Z.testbit k i = false) as ->.
        { destruct Hk as [-> | ->]; [|done]. change 0x18 with (8 .| 16) in E1. rewrite Z.lor_spec in E1. by apply orb_false_iff in E1 as [? _]. }
        by rewrite andb_false_r, !orb_false_r.
      + unfold d0. assert (Z.testbit k 2 = false) as Hk2 by (by destruct Hk as [-> | ->]). rewrite !Z.lor_spec, Hk2.
        by destruct (Z.testbit (long s.(ram) (a4 x)) 2), (Z.testbit (inherited x) 2).
    - rewrite <- Hd0, <- Z.lor_assoc. f_equal. destruct Hk as [-> | ->]; done. }
  assert (Z.testbit d0 2 = Z.testbit (desc x) 2) as H2 by (by apply (lor_eq_bit _ _ _ _ Hd0)).
  assert (memory_step s s.(ram)) as Hms by by split.
  assert (∀ i, i = 3 ∨ i = 4 → Z.testbit (long s.(ram) (a4 x)) i = Z.testbit d0 i) as Hkept.
  { intros i Hi. unfold d0, inherited. rewrite Z.lor_spec, Z.land_spec. destruct Hi as [-> | ->]; by rewrite andb_false_r, orb_false_r. }
  assert (∀ k, k = 0x8 ∨ k = 0x18 → (write = true → Z.testbit (desc x) 2 = false → k = 0x18) → ∃ d m, (phys_put_long (a4 x) (d0 .| k);; mret (d0 .| k)) s = MOk d (s_ram m s)
    ∧ memory_step s m ∧ d .| 0x18 = desc x .| 0x18 ∧ recorded x d write m) as Hstore.
  { intros k Hk Hwk. destruct (Hst k Hk) as (m & ? & ? & ? & Em). exists (d0 .| k), m.
    do 3 (split; [done|]). split; [by rewrite Em|]. split; [rewrite Z.lor_spec; destruct Hk as [-> | ->]; apply orb_true_r|].
    intros Hw Hp. rewrite (Hwk Hw Hp), Z.lor_spec. apply orb_true_r. }
  assert (Z.testbit d0 3 = true → (write = true → Z.testbit (desc x) 2 = false → Z.testbit d0 4 = true) →
    ∃ d m, mret (M:=M) d0 s = MOk d (s_ram m s) ∧ memory_step s m ∧ d .| 0x18 = desc x .| 0x18 ∧ recorded x d write m) as Hkeep.
  { intros H3 H4. exists d0, s.(ram). split; [by destruct s|]. split; [exact Hms|]. by split. }
  unfold update_page. cbv zeta. change (MMU_DES_USED .| MMU_DES_MODIFIED) with 0x18. change MMU_DES_USED with 8.
  rewrite (nz_flag d0 2), (land_bit_eqb d0 3), H2 by done. destruct write; [destruct (Z.testbit (desc x) 2) eqn:Ew|].
  - destruct (Z.testbit d0 3); cbn [negb]; [by apply Hkeep|by apply Hstore; auto].
  - destruct (Z.eqb_spec (d0 .& 0x18) 0x18) as [E|E]; cbn [negb]; [|by apply Hstore; auto]. apply Hkeep.
    + apply (f_equal (λ z, Z.testbit z 3)) in E. rewrite Z.land_spec in E. by destruct (Z.testbit d0 3).
    + intros _ _. apply (f_equal (λ z, Z.testbit z 4)) in E. rewrite Z.land_spec in E. by destruct (Z.testbit d0 4).
  - destruct (Z.testbit d0 3); cbn [negb]; [by apply Hkeep|by apply Hstore; auto].
Qed.

Lemma s_ram_ram m m' s : s_ram m (s_ram m' s) = s_ram m s.
Proof. done. Qed.

Lemma memory_step_trans s m m' : memory_step s m → memory_step (s_ram m s) m' → memory_step s m'.
Proof. intros [_ H1] [H2 H3]. split; [done|]. by transitivity m. Qed.

Lemma indirect_same x m : tables_same m → mapped x = true →
  (long m (a3 x) .& 3 =? 2) = (long m0 (a3 x) .& 3 =? 2) ∧ (long m0 (a3 x) .& 3 = 2 → long m (a3 x) = long m0 (a3 x)).
Proof.
  intros Hs Hx. pose proof (ts_3 _ Hs x Hx) as E3. split; [|done]. destruct (Z.eqb_spec (long m0 (a3 x) .& 3) 2) as [Ei|Ei]; [by rewrite (E3 Ei), Ei|].
  apply Z.eqb_neq. intros E. apply Ei. assert (a4 x = a3 x) as E43 by (unfold a4; by rewrite (proj2 (Z.eqb_neq _ _) Ei)).
  destruct (Z.testbit (long m0 (a4 x)) 0) eqn:Eb.
  - destruct (ts_page _ Hs x Hx Eb) as [Ep _]. rewrite E43 in Ep. rewrite <- E. symmetry. by apply (lor_eq_land _ _ _ _ Ep).
  - pose proof (ts_invalid _ Hs x Hx Eb) as Ep. rewrite E43 in Ep. by rewrite <- Ep.
Qed.

Lemma inherited_same x m m' : long m (a1 x) .| 8 = long m0 (a1 x) .| 8 → long m' (a2 x) .| 8 = long m0 (a2 x) .| 8 →
  (long m (a1 x) .| long m' (a2 x)) .& MMU_DES_WP = inherited x.
Proof. intros E1 E2. unfold inherited. rewrite !Z.land_lor_distr_l. f_equal; [by apply (lor_eq_land _ _ _ _ E1)|by apply (lor_eq_land _ _ _ _ E2)]. Qed.

(** The search returns the page descriptor of the address, up to the used and modified bits,
    or an invalid one; the modified bit is set when the page is to be written. *)
Lemma search_spec x write s :
  tables_ok → same_setup s.(regs) → tables_same s.(ram) →
  ∃ d m, mmu_lookup_pagetable x.2 x.1 write s = MOk d (s_ram m s) ∧ memory_step s m
    ∧ if resident x then d .| 0x18 = desc x .| 0x18 ∧ recorded x d write m
      else Z.testbit d 0 = false.
Proof.
  intros Hok Hsu Hs. unfold mmu_lookup_pagetable, resident.
  unfold m_reg, mbind at 1, M_bind at 1. replace ((if x.1 then srp else urp) s.(regs)) with (root_ptr x.1)
    by (unfold root_ptr; destruct x.1; symmetry; apply Hsu). fold (a1 x).
  unfold mbind at 1, M_bind at 1. rewrite (phys_get_usable (a1 x)) by apply (tk_1 Hok). rewrite (land_bit_eqb _ 1) by done.
  rewrite (lor_eq_bit _ _ _ 1 (ts_1 _ Hs x)) by done. change (Z.testbit (long m0 (a1 x)) 1) with (rooted x).
  destruct (rooted x) eqn:Hr; cbn [negb].
  2: { exists 0, s.(ram). unfold mapped. rewrite Hr. split_and!; [by destruct s|done..]. }
  unfold mbind at 1, M_bind at 1. destruct (mark_used_spec (a1 x) s Hok Hs) as (m1 & -> & Hm1); [left; eauto|]. cbv zeta.
  rewrite (lor_eq_land _ _ _ MMU_ROOT_PTR_ADDR_MASK (ts_1 _ Hs x)) by done. fold (a2 x).
  unfold mbind at 1, M_bind at 1. rewrite (phys_get_usable (a2 x)) by by apply (tk_2 Hok). cbn [s_ram ram].
  pose proof (ts_2 _ (proj1 Hm1) x Hr) as E2. rewrite (land_bit_eqb _ 1) by done. rewrite (lor_eq_bit _ _ _ 1 E2) by done.
  assert (mapped x = Z.testbit (long m0 (a2 x)) 1) as Emp by (unfold mapped; by rewrite Hr).
  rewrite <- Emp. destruct (mapped x) eqn:Hmp; cbn [negb andb].
  2: { exists 0, m1. split_and!; [done|apply Hm1..|done]. }
  unfold mbind at 1, M_bind at 1. destruct (mark_used_spec (a2 x) (s_ram m1 s) Hok (proj1 Hm1)) as (m2 & E & Hm2); [right; eauto|].
  cbn [s_ram ram] in E. rewrite E, s_ram_ram. clear E. apply (memory_step_trans _ _ _ Hm1) in Hm2.
  unfold mbind at 1, M_bind at 1. cbn [s_ram regs]. rewrite (su_8k _ Hsu).
  replace (page_desc_addr (mmu_pagesize_8k r) (long m1 (a2 x)) x.2) with (a3 x).
  2: { unfold a3, page_desc_addr. destruct (mmu_pagesize_8k r); f_equal; symmetry; by apply (lor_eq_land _ _ _ _ E2). }
  destruct (tk_3 Hok x Hmp) as [Hu3 Hu4]. unfold mbind at 1, M_bind at 1. rewrite (phys_get_usable (a3 x)) by done. cbn [s_ram ram].
  assert (((if long m2 (a3 x) .& 3 =? 2 then d ← phys_get_long (long m2 (a3 x) .& MMU_PAGE_INDIRECT_MASK); mret (long m2 (a3 x) .& MMU_PAGE_INDIRECT_MASK, d)
     else mret (a3 x, long m2 (a3 x))) : M _) (s_ram m2 s) = MOk (a4 x, long m2 (a4 x)) (s_ram m2 s)) as E4.
  { destruct (indirect_same x m2 (proj1 Hm2) Hmp) as [-> E3]. unfold a4 in Hu4 |- *. destruct (Z.eqb_spec (long m0 (a3 x) .& 3) 2) as [Ei|Ei]; [|done].
    rewrite (E3 Ei). unfold mbind, M_bind. by rewrite phys_get_usable. }
  unfold mbind at 1, M_bind at 1. rewrite E4. clear E4. rewrite (land_bit_eqb _ 0) by done.
  destruct (Z.testbit (long m0 (a4 x)) 0) eqn:Eb.
  - destruct (ts_page _ (proj1 Hm2) x Hmp Eb) as [Ep _]. rewrite (lor_eq_bit _ _ _ 0 Ep), Eb by done. cbn [negb].
    rewrite (inherited_same x _ _ (ts_1 _ Hs x) E2).
    destruct (update_page_spec x write (s_ram m2 s) Hok (proj1 Hm2) Hmp Eb) as (d & m & E & Hm & Hd). cbn [s_ram ram] in E. rewrite E, s_ram_ram.
    exists d, m. split_and!; [done|apply (memory_step_trans _ _ _ Hm2 Hm)..|apply Hd|apply Hd].
  - rewrite (ts_invalid _ (proj1 Hm2) x Hmp Eb), Eb. cbn [negb]. eexists _, m2. split_and!; [done|apply Hm2..|done].
Qed.

(** ** The translation *)

Definition page_mask : Z := if r.(mmu_pagesize_8k) then 0xffffe000 else 0xfffff000.

(** The distance from the logical to the physical address, and write protection. *)
Definition xlate (x : laddr) : option (Z * bool) :=
  match mmu_match_ttr r x.2 x.1 true with
  | TTR_NO_MATCH =>
    if negb r.(mmu_enabled) then Some (0, false)
    else if resident x && (x.1 || negb (Z.testbit (desc x) 7)) then
      Some (u32 ((desc x .& page_mask) - (x.2 .& page_mask)), Z.testbit (desc x) 2)
    else None
  | TTR_NO_WRITE => Some (0, true)
  | TTR_OK_MATCH => Some (0, false)
  end.

(** The data and the instruction registers of transparent translation agree. *)
Definition ttr_alike : Prop := ∀ x : laddr, mmu_match_ttr r x.2 x.1 false = mmu_match_ttr r x.2 x.1 true.

(** Where an access goes. *)
Inductive verdict := to_ram (pa : Z) | to_hardware (pa : Z) | faults.

Definition reaches (x : laddr) (write : bool) : verdict :=
  match xlate x with
  | None => faults
  | Some (off, wp) =>
    if write && wp then faults
    else
      let pa := u32 (x.2 + off) in
      if pa .& 0xfff00000 =? 0x00f00000 then to_hardware pa
      else if pa .& 0xfff00000 =? 0xfff00000 then to_hardware (u32 (pa - 0xff000000))
      else if test_ram_boundary pa 1 write then to_ram pa else faults
  end.

(** ** Lines of the caches *)

Definition with_l2 (i : Z) (l : mmu_atc_line) (s : mmu) : mmu := s_atc_l2 (<[i := l]> s.(atc_l2)) s.
Definition with_l1 (i : Z) (l : mmu_atc_line) (s : mmu) : mmu := s_atc_l1 (<[i := l]> s.(atc_l1)) s.

Lemma lget_insert a i l : lget (<[i := l]> a) i = l.
Proof. unfold lget. by rewrite lookup_insert_eq. Qed.
Lemma lget_insert_ne a i j l : i ≠ j → lget (<[i := l]> a) j = lget a j.
Proof. intros. unfold lget. by rewrite lookup_insert_ne. Qed.

Lemma upd_l2_eq i f s : 0 <= i < 8192 → upd_l2 i f s = MOk tt (with_l2 i (f (lget s.(atc_l2) i)) s).
Proof. intros Hi. unfold upd_l2. by replace ((0 <=? i) && (i <? 8192)) with true by lia. Qed.
Lemma upd_l1_eq i f s : 0 <= i < 2048 → upd_l1 i f s = MOk tt (with_l1 i (f (lget s.(atc_l1) i)) s).
Proof. intros Hi. unfold upd_l1. by replace ((0 <=? i) && (i <? 2048)) with true by lia. Qed.
Lemma get_l2_eq i s : 0 <= i < 8192 → get_l2 i s = MOk (lget s.(atc_l2) i) s.
Proof. intros Hi. unfold get_l2. by replace ((0 <=? i) && (i <? 8192)) with true by lia. Qed.
Lemma get_l1_eq i s : 0 <= i < 2048 → get_l1 i s = MOk (lget s.(atc_l1) i) s.
Proof. intros Hi. unfold get_l1. by replace ((0 <=? i) && (i <? 2048)) with true by lia. Qed.

Lemma with_l2_l2 i l l' s : with_l2 i l (with_l2 i l' s) = with_l2 i l s.
Proof. unfold with_l2. cbn. by rewrite insert_insert_eq. Qed.
Lemma with_l1_l1 i l l' s : with_l1 i l (with_l1 i l' s) = with_l1 i l s.
Proof. unfold with_l1. cbn. by rewrite insert_insert_eq. Qed.
Lemma lget_with_l2 i l s : lget (with_l2 i l s).(atc_l2) i = l.
Proof. apply lget_insert. Qed.
Lemma lget_with_l1 i l s : lget (with_l1 i l s).(atc_l1) i = l.
Proof. apply lget_insert. Qed.

Lemma L1_index_range addr : 0 <= ATC_L1_INDEX addr < 256.
Proof. by apply Z.mod_pos_bound. Qed.
Lemma L2_index_range addr : 0 <= ATC_L2_INDEX addr < 4096.
Proof. by apply Z.mod_pos_bound. Qed.

Lemma l1_slot_range su data write i : 0 <= i < 256 → 0 <= l1_slot su data write i < 2048.
Proof. intros. unfold l1_slot, l1_base. destruct su, data, write; cbn; lia. Qed.
Lemma l2_slot_range su i : 0 <= i < 4096 → 0 <= l2_slot su i < 8192.
Proof. intros. unfold l2_slot. destruct su; cbn; lia. Qed.

Definition slot2 (x : laddr) : Z := l2_slot x.1 (ATC_L2_INDEX x.2).
Definition slot1 (x : laddr) (data write : bool) : Z := l1_slot x.1 data write (ATC_L1_INDEX x.2).

Lemma slot2_range x : 0 <= slot2 x < 8192.
Proof. apply l2_slot_range, L2_index_range. Qed.
Lemma slot1_range x data write : 0 <= slot1 x data write < 2048.
Proof. apply l1_slot_range, L1_index_range. Qed.

(** Two addresses of one page have the same slots and tag, and only those. *)
Definition same_page (x y : laddr) : Prop := x.1 = y.1 ∧ x.2 ≫ 12 = y.2 ≫ 12.

Lemma same_tag a b : ATC_TAG a = ATC_TAG b → a ≫ 18 = b ≫ 18.
Proof. done. Qed.

Lemma shr_split a k n : 0 <= k → 0 <= n → a ≫ k = ((a ≫ (k + n)) ≪ n) .| ((a ≫ k) mod 2 ^ n).
Proof.
  intros. rewrite <- Z.land_ones by done. rewrite <- (join_split n (a ≫ k)) at 1 by done. by rewrite Z.shiftr_shiftr.
Qed.

Lemma same_page_l1 x y data write data' write' : slot1 x data write = slot1 y data' write' → ATC_TAG x.2 = ATC_TAG y.2 → same_page x y.
Proof.
  unfold slot1, l1_slot, l1_base. pose proof (L1_index_range x.2). pose proof (L1_index_range y.2). intros E Et.
  assert (x.1 = y.1 ∧ ATC_L1_INDEX x.2 = ATC_L1_INDEX y.2) as [E1 E2] by (destruct x.1, y.1, data, data', write, write'; cbn in E; split; (done || lia)).
  split; [done|]. unfold ATC_L1_INDEX, ATC_L1_SIZE, ATC_TAG in *. rewrite (shr_split x.2 12 6), (shr_split y.2 12 6) by lia.
  change (12 + 6) with 18. rewrite Et. f_equal. change (2 ^ 6) with 64. change 256 with (64 * 4) in E2.
  apply (f_equal (λ z, z mod 64)) in E2. rewrite !Z.rem_mul_r in E2 by lia. rewrite !(Z.mul_comm 64), !Z.mod_add, !Z.mod_mod in E2 by lia. done.
Qed.

Lemma same_page_l2 x y : slot2 x = slot2 y → ATC_TAG x.2 = ATC_TAG y.2 → same_page x y.
Proof.
  unfold slot2, l2_slot. pose proof (L2_index_range x.2). pose proof (L2_index_range y.2). intros E Et.
  assert (x.1 = y.1 ∧ ATC_L2_INDEX x.2 = ATC_L2_INDEX y.2) as [E1 E2] by (destruct x.1, y.1; cbn in E; split; (done || lia)).
  split; [done|]. unfold ATC_L2_INDEX, ATC_L2_SIZE, ATC_TAG in *.
  assert (x.2 ≫ 20 = y.2 ≫ 20) as E20 by (change 20 with (18 + 2); rewrite <- !Z.shiftr_shiftr by lia; by rewrite Et).
  rewrite E20 in E2. change 4096 with (2 ^ 12) in E2. rewrite <- !Z.land_ones in E2 by lia.
  apply Z.bits_inj'. intros i Hi. destruct (decide (i < 12)).
  - apply (f_equal (λ z, Z.testbit z i)) in E2. rewrite !Z.land_spec, !Z.lxor_spec, Z.ones_spec_low, !andb_true_r in E2 by lia.
    by destruct (Z.testbit (x.2 ≫ 12) i), (Z.testbit (y.2 ≫ 12) i), (Z.testbit (y.2 ≫ 20) i).
  - replace i with ((i - 6) + 6) by lia. rewrite <- !Z.shiftr_spec by lia. rewrite !Z.shiftr_shiftr by lia. change (12 + 6) with 18. by rewrite Et.
Qed.

(** The translation is that of the page. *)
Lemma page_bits x y i : same_page x y → 12 <= i → Z.testbit x.2 i = Z.testbit y.2 i.
Proof.
  intros [_ E] Hi. apply (f_equal (λ z, Z.testbit z (i - 12))) in E. rewrite !Z.shiftr_spec in E by lia. by replace (i - 12 + 12) with i in E by lia.
Qed.

Lemma page_land x y m : same_page x y → m mod 4096 = 0 → x.2 .& m = y.2 .& m.
Proof.
  intros Hp Hm. apply Z.bits_inj'. intros i Hi. rewrite !Z.land_spec. destruct (decide (12 <= i)); [by rewrite (page_bits x y)|].
  assert (Z.testbit m i = false) as ->; [|by rewrite !andb_false_r]. rewrite <- (Z.mod_pow2_bits_low m 12 i) by lia. change (2 ^ 12) with 4096. rewrite Hm. apply Z.bits_0.
Qed.

Lemma page_index x y k n m : same_page x y → 0 <= k → 0 <= n → m = (m ≫ n) ≪ n → 12 <= k + n → (x.2 ≫ k) .& m = (y.2 ≫ k) .& m.
Proof.
  intros Hp Hk Hn Hm Hkn. apply Z.bits_inj'. intros i Hi. rewrite !Z.land_spec, !Z.shiftr_spec by lia. destruct (decide (n <= i)); [by rewrite (page_bits x y) by (done || lia)|].
  assert (Z.testbit m i = false) as ->; [|by rewrite !andb_false_r]. rewrite Hm, Z.shiftl_spec by lia. apply Z.testbit_neg_r. lia.
Qed.

Lemma page_a1 x y : same_page x y → a1 x = a1 y.
Proof. intros Hp. unfold a1, root_index. by rewrite (page_index x y 23 2), (proj1 Hp). Qed.

Lemma page_a4 x y : same_page x y → a2 x = a2 y ∧ a3 x = a3 y ∧ a4 x = a4 y.
Proof.
  intros Hp. assert (a2 x = a2 y) as E2 by (unfold a2, ptr_index; by rewrite (page_a1 x y Hp), (page_index x y 16 2)).
  assert (a3 x = a3 y) as E3.
  { unfold a3, page_desc_addr. rewrite E2. destruct (mmu_pagesize_8k r); [by rewrite (page_index x y 11 2)|by rewrite (page_index x y 10 2)]. }
  split_and!; [done..|]. unfold a4. by rewrite E3.
Qed.

Lemma page_ttr x y : same_page x y → mmu_match_ttr r x.2 x.1 true = mmu_match_ttr r y.2 y.1 true.
Proof.
  intros Hp. assert (∀ t, mmu_do_match_ttr t x.2 x.1 = mmu_do_match_ttr t y.2 y.1) as E.
  { intros t. unfold mmu_do_match_ttr. rewrite (proj1 Hp). assert ((x.2 .^ t) .& MMU_TTR_LOGICAL_BASE = (y.2 .^ t) .& MMU_TTR_LOGICAL_BASE) as ->; [|done].
    rewrite !(Z.land_comm _ MMU_TTR_LOGICAL_BASE). apply Z.bits_inj'. intros i Hi. rewrite !Z.land_spec, !Z.lxor_spec.
    destruct (decide (12 <= i)); [by rewrite (page_bits x y)|]. assert (Z.testbit MMU_TTR_LOGICAL_BASE i = false) as ->; [|done].
    change MMU_TTR_LOGICAL_BASE with (0xff ≪ 24). rewrite Z.shiftl_spec by lia. apply Z.testbit_neg_r. lia. }
  unfold mmu_match_ttr. by rewrite !E.
Qed.

Lemma page_xlate x y : same_page x y → xlate x = xlate y.
Proof.
  intros Hp. destruct (page_a4 x y Hp) as (E2 & E3 & E4). pose proof (page_a1 x y Hp) as E1.
  unfold xlate. rewrite (page_ttr x y Hp). destruct (mmu_match_ttr _ _ _ _); try done. destruct (negb _); [done|].
  assert (resident x = resident y ∧ desc x = desc y) as [Er Ed] by (unfold resident, mapped, rooted, desc, inherited; by rewrite E1, E2, E4).
  rewrite Er, Ed, (proj1 Hp). by rewrite (page_land x y page_mask Hp) by (unfold page_mask; by destruct (mmu_pagesize_8k r)).
Qed.

(** ** Filling a line of the second level *)

(** A line of the second level that says what the translation says. *)
Record line_ok (x : laddr) (l : mmu_atc_line) : Prop := {
  lo_data : l.(valid_data) = bool_decide (is_Some (xlate x));
  lo_inst : l.(valid_inst) = bool_decide (is_Some (xlate x));
  lo_hw : l.(hw) = false;
  lo_some : ∀ off wp, xlate x = Some (off, wp) → l.(phys) = off ∧ l.(write_protect) = wp }.

Lemma setup_ttr r' addr su data : same_setup r' → mmu_match_ttr r' addr su data = mmu_match_ttr r addr su data.
Proof. intros Hs. unfold mmu_match_ttr. destruct data; by rewrite ?(su_dtt0 _ Hs), ?(su_dtt1 _ Hs), ?(su_itt0 _ Hs), ?(su_itt1 _ Hs). Qed.

Lemma fill_l2_spec x data write s :
  ttr_alike → tables_ok → same_setup s.(regs) → tables_same s.(ram) →
  ∃ d l m, mmu_fill_atc_l2 x.2 x.1 data write (slot2 x) s = MOk d (with_l2 (slot2 x) l (s_ram m s)) ∧ memory_step s m
    ∧ l.(tag) = ATC_TAG x.2 ∧ line_ok x l ∧ (write = true → ∀ off, xlate x = Some (off, false) → l.(modified) = true).
Proof.
  intros Hal Hok Hsu Hs. pose proof (slot2_range x) as Hi. unfold mmu_fill_atc_l2. unfold mbind at 1, M_bind at 1. rewrite upd_l2_eq by done.
  set (l0 := l_bus_fault _ _). unfold m_reg at 1, mbind at 1, M_bind at 1. cbn [with_l2 s_atc_l2 regs id].
  assert (∀ dt, mmu_match_ttr s.(regs) x.2 x.1 dt = mmu_match_ttr r x.2 x.1 true) as Ettr.
  { intros dt. rewrite setup_ttr by done. destruct dt; [done|apply Hal]. }
  rewrite !Ettr. unfold id. destruct (mmu_match_ttr r x.2 x.1 true) eqn:Et.
  - cbn [bool_decide decide_rel ttr_match_eq_dec negb]. rewrite bool_decide_eq_true_2 by done. cbn [negb].
    unfold mbind at 1, M_bind at 1. rewrite upd_l2_eq by done. fold (with_l2 (slot2 x) l0 s). rewrite lget_with_l2, with_l2_l2.
    change (mmu_enabled (regs s)) with s.(regs).(mmu_enabled). rewrite (su_enabled _ Hsu). destruct (mmu_enabled r) eqn:Een; cbn [negb].
    + unfold mbind at 1, M_bind at 1, m_try, mbind at 1, M_bind at 1.
      destruct (search_spec x write (with_l2 (slot2 x) (l_tt' false l0) s) Hok Hsu Hs) as (d & m & E & Hm & Hd). rewrite E.
      cbn [mret M_ret]. unfold mret, M_ret. rewrite (land_bit_eqb d 0), (nz_flag d 7) by done. rewrite (su_8k _ Hsu).
      unfold resident in *. fold (resident x) in *.
      assert ((negb (Z.testbit d 0) || (negb x.1 && Z.testbit d 7)) = negb (resident x && (x.1 || negb (Z.testbit (desc x) 7)))) as ->.
      { destruct (resident x) eqn:Er; cbn [andb]; [|by rewrite Hd]. destruct Hd as [Hd _].
        rewrite (lor_eq_bit _ _ _ 0 Hd), (lor_eq_bit _ _ _ 7 Hd) by done. unfold resident in Er. apply andb_prop in Er as [_ Er].
        unfold desc at 1. rewrite Z.lor_spec, Er. by destruct x.1, (Z.testbit (desc x) 7). }
      destruct (resident x && (x.1 || negb (Z.testbit (desc x) 7))) eqn:Ex; cbn [negb].
      * unfold mbind, M_bind. rewrite upd_l2_eq by done. cbn [s_ram with_l2 atc_l2 s_atc_l2]. fold (with_l2 (slot2 x) (l_tt' false l0) s).
        rewrite lget_insert. eexists d, _, m. split; [|split; [exact Hm|split; [|split]]].
        { unfold mret, M_ret, with_l2. cbn. by rewrite insert_insert_eq. } { done. }
        { assert (xlate x = Some (u32 ((desc x .& page_mask) - (x.2 .& page_mask)), Z.testbit (desc x) 2)) as EX
            by (unfold xlate; by rewrite Et, Een, Ex).
          apply andb_prop in Ex as [Er _]. rewrite Er in Hd. destruct Hd as [Hd _].
          split; rewrite ?EX; try done. intros off wp [= <- <-]. cbn [line_desc phys write_protect]. change MMU_MMUSR_W with (1 ≪ 2).
          rewrite (nz_flag d 2), (lor_eq_bit _ _ _ 2 Hd) by done. split; [|done]. unfold page_mask. do 2 f_equal.
          apply (lor_eq_land _ _ _ _ Hd). by destruct (mmu_pagesize_8k r). }
        { intros -> off EX. cbn [line_desc modified]. change MMU_MMUSR_M with (1 ≪ 4). rewrite (nz_flag d 4) by done.
          apply andb_prop in Ex as [Er Ex]. rewrite Er in Hd. apply Hd; [done|]. unfold xlate in EX. rewrite Et, Een, Er, Ex in EX. cbn in EX. by injection EX. }
      * unfold mbind, M_bind. rewrite upd_l2_eq by done. cbn [s_ram with_l2 atc_l2 s_atc_l2]. fold (with_l2 (slot2 x) (l_tt' false l0) s).
        rewrite lget_insert. assert (xlate x = None) as EX by (unfold xlate; by rewrite Et, Een, Ex).
        eexists d, _, m. split; [|split; [exact Hm|split; [|split]]].
        { unfold mret, M_ret, with_l2. cbn. by rewrite insert_insert_eq. } { done. }
        { split; rewrite ?EX; done. } { rewrite EX. done. }
    + unfold mbind, M_bind. rewrite upd_l2_eq by done. rewrite lget_with_l2, with_l2_l2. assert (xlate x = Some (0, false)) as EX by (unfold xlate; by rewrite Et, Een).
      eexists 0, _, s.(ram). split; [unfold mret, M_ret; by destruct s|]. split; [by split|]. split; [done|]. split; [|done].
      split; rewrite ?EX; try done. by intros ?? [= <- <-].
  - rewrite bool_decide_eq_false_2 by done. cbn [negb]. rewrite !bool_decide_eq_true_2 by done. unfold mbind, M_bind.
    rewrite upd_l2_eq by done. fold (with_l2 (slot2 x) l0 s). rewrite lget_with_l2, with_l2_l2. assert (xlate x = Some (0, true)) as EX by (unfold xlate; by rewrite Et).
    eexists 0, _, s.(ram). split; [unfold mret, M_ret; by destruct s|]. split; [by split|]. split; [done|]. split; [|done].
    split; rewrite ?EX; try done; cbn; [by destruct data|by destruct data|]. by intros ?? [= <- <-].
  - rewrite bool_decide_eq_false_2 by done. cbn [negb]. rewrite !bool_decide_eq_true_2 by done. unfold mbind, M_bind.
    rewrite upd_l2_eq by done. fold (with_l2 (slot2 x) l0 s). rewrite lget_with_l2, with_l2_l2. assert (xlate x = Some (0, false)) as EX by (unfold xlate; by rewrite Et).
    eexists 0, _, s.(ram). split; [unfold mret, M_ret; by destruct s|]. split; [by split|]. split; [done|]. split; [|done].
    split; rewrite ?EX; try done; cbn; [by destruct data|by destruct data|]. by intros ?? [= <- <-].
Qed.

(** ** Coherent caches *)

Definition u32_addr (a : Z) : Prop := 0 <= a < 4294967296.

(** The page of a physical address has memory, in the sense of one of its bytes. *)
Definition ram_page (write : bool) (pa : Z) : Prop :=
  ∃ pa', pa' ≫ 12 = pa ≫ 12 ∧ test_ram_boundary pa' 1 write = true
    ∧ pa' .& 0xfff00000 ≠ 0x00f00000 ∧ pa' .& 0xfff00000 ≠ 0xfff00000.

(** The caches and the memory agree with the translation.  A line of the first level is for a
    page in memory, or, with its tag inverted, for one of the chips' registers, or empty; [D] are the addresses
    for which that is so, as an access error can leave a wrong line. *)
Record coherent (D : laddr → Prop) (s : mmu) : Prop := {
  co_setup : same_setup s.(regs);
  co_tables : tables_same s.(ram);
  co_l2 : ∀ x, u32_addr x.2 → (lget s.(atc_l2) (slot2 x)).(tag) = ATC_TAG x.2 → line_ok x (lget s.(atc_l2) (slot2 x));
  co_l1 : ∀ x data write, D x → u32_addr x.2 → (lget s.(atc_l1) (slot1 x data write)).(tag) = ATC_TAG x.2 →
    ∃ off wp, xlate x = Some (off, wp) ∧ (lget s.(atc_l1) (slot1 x data write)).(phys) = off
      ∧ write && wp = false ∧ ram_page write (u32 (x.2 + off));
  co_hw : ∀ x data write, D x → u32_addr x.2 → (lget s.(atc_l1) (slot1 x data write)).(tag) = u16 (Z.lnot (ATC_TAG x.2)) →
    (lget s.(atc_l1) (slot1 x data write)).(hw) = true
    ∧ reaches x write = to_hardware (u32 ((lget s.(atc_l1) (slot1 x data write)).(phys) + x.2)) }.

Section caches.
Context (D : laddr → Prop).

(** No line has been used for registers of the chips. *)
Definition no_hw (s : mmu) : Prop := ∀ i, 0 <= i < 2048 → (lget s.(atc_l1) i).(hw) = false.

Lemma tag_range a : u32_addr a → 0 <= ATC_TAG a < 0x4000.
Proof.
  unfold u32_addr, ATC_TAG. intros Ha. rewrite Z.shiftr_div_pow2 by lia. change (2 ^ 18) with 262144. split; [by apply Z.div_pos; lia|]. apply Z.div_lt_upper_bound; lia.
Qed.

Lemma lnot_tag t : 0 <= t < 0x4000 → u16 (Z.lnot t) = 0xffff - t.
Proof. intros. unfold u16, Z.lnot. rewrite <- (Z.mod_unique_pos _ 65536 (-1) (0xffff - t)); lia. Qed.

(** An update of the second level with a line that is right. *)
Lemma coherent_l2 x l m s :
  coherent D s → u32_addr x.2 → memory_step s m → l.(tag) = ATC_TAG x.2 → line_ok x l → coherent D (with_l2 (slot2 x) l (s_ram m s)).
Proof.
  intros [] Hx [Hm _] Ht Hl. split; try done. intros y Hy. cbn [with_l2 s_atc_l2 s_ram atc_l2]. destruct (decide (slot2 x = slot2 y)) as [E|E].
  - rewrite E, lget_insert. intros Et. assert (same_page x y) as Hp by (apply same_page_l2; congruence). pose proof (page_xlate x y Hp) as EX.
    destruct Hl. split; congruence || (rewrite <- EX; done).
  - rewrite lget_insert_ne by done. by apply co_l3.
Qed.

(** Pages of the physical address space. *)
Lemma offset_page x off wp : xlate x = Some (off, wp) → off mod 4096 = 0.
Proof.
  unfold xlate. repeat case_match; intros [= <- _]; try done. unfold u32.
  assert (∀ z, (z .& page_mask) mod 4096 = 0) as Hm.
  { intros z. change 4096 with (2 ^ 12). rewrite <- Z.land_ones, <- Z.land_assoc by lia. unfold page_mask. destruct (mmu_pagesize_8k r); apply Z.land_0_r. }
  replace 4294967296 with (4096 * 1048576) by lia. rewrite Z.rem_mul_r by lia. rewrite (Z.mul_comm 4096), Z.mod_add, Z.mod_mod by lia.
  rewrite Zminus_mod, !Hm. done.
Qed.

Lemma shr12 a : a ≫ 12 = a / 4096.
Proof. by rewrite Z.shiftr_div_pow2. Qed.

(** Addresses of a page stay together. *)
Lemma page_target x y off wp : same_page x y → xlate x = Some (off, wp) → u32 (x.2 + off) ≫ 12 = u32 (y.2 + off) ≫ 12.
Proof.
  intros [_ Hp] Ho%offset_page. rewrite !shr12 in *. unfold u32. Z.div_mod_to_equations. lia.
Qed.

Lemma hw_region a b mask : a ≫ 12 = b ≫ 12 → mask mod 4096 = 0 → a .& mask = b .& mask.
Proof. intros E Hm. by apply (page_land (true, a) (true, b)). Qed.

Lemma slot1_write x y data write dy wy : x.1 = y.1 → slot1 x data write = slot1 y dy wy → write = wy.
Proof.
  intros E1 E. unfold slot1, l1_slot, l1_base in E. pose proof (L1_index_range x.2). pose proof (L1_index_range y.2). rewrite E1 in E.
  destruct y.1, data, dy, write, wy; cbn in E; (done || lia).
Qed.

(** The first level after the line of [x] is filled, for a page in memory... *)
Lemma coherent_l1 x data write l s :
  coherent D s → u32_addr x.2 → l.(tag) = ATC_TAG x.2 →
  (∃ off wp, xlate x = Some (off, wp) ∧ l.(phys) = off ∧ write && wp = false ∧ ram_page write (u32 (x.2 + off))) →
  coherent D (with_l1 (slot1 x data write) l s).
Proof.
  intros Hc Hx Ht (off & wp & EX & Hp & Hw & Hr). pose proof (tag_range _ Hx) as Htr. destruct Hc. split; try done; cbn [with_l1 s_atc_l1 atc_l1].
  - intros y dy wy HD Hy. destruct (decide (slot1 x data write = slot1 y dy wy)) as [E|E]; [|rewrite lget_insert_ne by done; by apply co_l4].
    rewrite E, lget_insert. intros Et. assert (same_page x y) as Hpg by (apply (same_page_l1 x y data write dy wy); congruence).
    exists off, wp. rewrite <- (page_xlate x y Hpg). assert (wy = write) as -> by (symmetry; eapply slot1_write; [apply Hpg|done]).
    split_and!; [done..|]. destruct Hr as (pa & E1 & ?). exists pa. split; [|done]. by rewrite <- (page_target x y off wp Hpg EX).
  - intros y dy wy HD Hy. destruct (decide (slot1 x data write = slot1 y dy wy)) as [E|E]; [|rewrite lget_insert_ne by done; by apply co_hw0].
    rewrite E, lget_insert, Ht, lnot_tag by (by apply tag_range). pose proof (tag_range _ Hy). lia.
Qed.

(** ... or for one of registers. *)
Lemma coherent_hw x data write l s :
  coherent D s → u32_addr x.2 → l.(tag) = u16 (Z.lnot (ATC_TAG x.2)) → l.(hw) = true →
  (∀ y, same_page x y → reaches y write = to_hardware (u32 (l.(phys) + y.2))) →
  coherent D (with_l1 (slot1 x data write) l s).
Proof.
  intros Hc Hx Ht Hh Hr. pose proof (tag_range _ Hx) as Htr. rewrite lnot_tag in Ht by done. destruct Hc. split; try done; cbn [with_l1 s_atc_l1 atc_l1].
  - intros y dy wy HD Hy. destruct (decide (slot1 x data write = slot1 y dy wy)) as [E|E]; [|rewrite lget_insert_ne by done; by apply co_l4].
    rewrite E, lget_insert, Ht. pose proof (tag_range _ Hy). lia.
  - intros y dy wy HD Hy. destruct (decide (slot1 x data write = slot1 y dy wy)) as [E|E]; [|rewrite lget_insert_ne by done; by apply co_hw0].
    rewrite E, lget_insert, Ht. pose proof (tag_range _ Hy). rewrite lnot_tag by done. intros Et. split; [done|].
    assert (same_page x y) as Hpg by (apply (same_page_l1 x y data write dy wy); (done || lia)).
    assert (wy = write) as -> by (symmetry; eapply slot1_write; [apply Hpg|done]). by apply Hr.
Qed.

(** A line that is not used by the addresses of [D']. *)
Definition apart (i : Z) (D' : laddr → Prop) : Prop := ∀ y, D' y → D y ∧ ∀ d w, slot1 y d w ≠ i.

Lemma coherent_other i l s D' : coherent D s → apart i D' → coherent D' (with_l1 i l s).
Proof.
  intros [] Hi. split; try done; cbn [with_l1 s_atc_l1 atc_l1]; intros y dy wy HD Hy; destruct (Hi y HD) as [HDy Hne]; rewrite lget_insert_ne by (apply not_eq_sym, Hne); auto.
Qed.

(** ** Filling a line of the first level *)

(** The rest of the state. *)
Definition rest_same (s s' : mmu) : Prop := s'.(regs) = s.(regs) ∧ s'.(current_atc) = s.(current_atc) ∧ same_outside s.(ram) s'.(ram).

(** What filling the line of [x] for an access leads to. *)
Definition fill_result (x : laddr) (data write : bool) (s : mmu) (res : mres bool) : Prop :=
  match reaches x write with
  | to_ram pa => ∃ s', res = MOk true s' ∧ coherent D s' ∧ rest_same s s' ∧ u32 ((lget s'.(atc_l1) (slot1 x data write)).(phys) + x.2) = pa ∧ (no_hw s → no_hw s')
  | to_hardware pa => ∃ s', res = MOk false s' ∧ coherent D s' ∧ rest_same s s' ∧ (lget s'.(atc_l1) (slot1 x data write)).(hw) = true
      ∧ u32 ((lget s'.(atc_l1) (slot1 x data write)).(phys) + x.2) = pa
  | faults => ∃ s', res = MOk false s' ∧ rest_same s s' ∧ (no_hw s → (lget s'.(atc_l1) (slot1 x data write)).(hw) = false)
      ∧ ∀ D', apart (slot1 x data write) D' → coherent D' s'
  end.

Lemma fill_fail_eq i s : 0 <= i < 2048 → fill_fail i s = MOk false (with_l1 i (l_tag (u16 (Z.lnot (lget s.(atc_l1) i).(tag))) (lget s.(atc_l1) i)) s).
Proof. intros Hi. unfold fill_fail, mbind, M_bind. by rewrite upd_l1_eq. Qed.

(** Registers fill whole pages. *)
Lemma hardware_page x y write off wp :
  same_page x y → xlate x = Some (off, wp) → write && wp = false →
  (u32 (x.2 + off) .& 0xfff00000 = 0x00f00000 → reaches y write = to_hardware (u32 (off + y.2)))
  ∧ (u32 (x.2 + off) .& 0xfff00000 = 0xfff00000 → reaches y write = to_hardware (u32 (u32 (off - 0xff000000) + y.2))).
Proof.
  intros Hpg EX Hw. pose proof (page_target x y off wp Hpg EX) as Hpt. rewrite (hw_region _ _ 0xfff00000 Hpt) by done.
  unfold reaches. rewrite <- (page_xlate x y Hpg), EX, Hw. cbv zeta. split; intros ->; cbn [Z.eqb Pos.eqb].
  - by rewrite Z.add_comm.
  - f_equal. unfold u32. rewrite Zminus_mod_idemp_l, Zplus_mod_idemp_l. f_equal. lia.
Qed.

Lemma no_hw_l1 i l s s0 : s.(atc_l1) = s0.(atc_l1) → l.(hw) = false → no_hw s0 → no_hw (with_l1 i l s).
Proof.
  intros E Hl Hn j Hj. cbn [with_l1 s_atc_l1 atc_l1]. destruct (decide (i = j)) as [->|]; [by rewrite lget_insert|]. rewrite lget_insert_ne, E by done. auto.
Qed.

Lemma fill_copy_spec x data write l s s0 off wp :
  coherent D s → rest_same s0 s → s.(atc_l1) = s0.(atc_l1) → u32_addr x.2 → l.(tag) = ATC_TAG x.2 → l.(hw) = false →
  xlate x = Some (off, wp) → l.(phys) = off → write && wp = false →
  fill_result x data write s0 (fill_copy x.2 x.1 write (slot1 x data write) l s).
Proof.
  intros Hc Hrest Hl1 Hx Ht Hh EX Hp Hw. pose proof (slot1_range x data write) as Hi. pose proof (λ y Hy, hardware_page x y write off wp Hy EX Hw) as Hpage.
  unfold fill_result. destruct (Hpage x (conj eq_refl eq_refl)) as [Hr1 Hr2].
  unfold fill_copy. unfold mbind at 1, M_bind at 1. rewrite upd_l1_eq by done. cbv zeta. rewrite Hp. set (pa := u32 (x.2 + off)) in *.
  destruct (Z.eqb_spec (pa .& 0xfff00000) 0x00f00000) as [E1|E1].
  { rewrite (Hr1 E1). unfold mbind, M_bind. rewrite !upd_l1_eq, lget_with_l1, with_l1_l1, fill_fail_eq, lget_with_l1, with_l1_l1 by done.
    eexists. split; [reflexivity|]. split; [|split; [exact Hrest|]]; rewrite ?lget_with_l1; [|cbn; by rewrite Hp].
    apply coherent_hw; cbn; rewrite ?Ht, ?Hp; try done. intros y Hy. by apply Hpage. }
  destruct (Z.eqb_spec (pa .& 0xfff00000) 0xfff00000) as [E2|E2].
  { rewrite (Hr2 E2). unfold mbind, M_bind. rewrite !upd_l1_eq, lget_with_l1, with_l1_l1, fill_fail_eq, lget_with_l1, with_l1_l1 by done.
    eexists. split; [reflexivity|]. split; [|split; [exact Hrest|]]; rewrite ?lget_with_l1; [|cbn; by rewrite Hp].
    apply coherent_hw; cbn; rewrite ?Ht, ?Hp; try done. intros y Hy. by apply Hpage. }
  unfold reaches. rewrite EX, Hw. cbv zeta. fold pa. rewrite (proj2 (Z.eqb_neq _ _) E1), (proj2 (Z.eqb_neq _ _) E2).
  destruct (test_ram_boundary pa 1 write) eqn:Er; cbn [negb].
  - eexists. split; [reflexivity|]. split; [|split; [exact Hrest|split; [rewrite lget_with_l1, Hp, Z.add_comm; done|by apply no_hw_l1]]].
    apply coherent_l1; try done. exists off, wp. split_and!; try done. by exists pa.
  - unfold mbind, M_bind. rewrite !upd_l1_eq, lget_with_l1, with_l1_l1, fill_fail_eq, lget_with_l1, with_l1_l1 by done.
    eexists. split; [reflexivity|]. split; [exact Hrest|]. split; [by rewrite lget_with_l1|]. intros D' HD'. by apply coherent_other.
Qed.

Lemma fill_checks_spec n x data write s s0 :
  ttr_alike → tables_ok → coherent D s → rest_same s0 s → s.(atc_l1) = s0.(atc_l1) → u32_addr x.2 → (lget s.(atc_l2) (slot2 x)).(tag) = ATC_TAG x.2 →
  (2 <= n)%nat ∨ (n = 1%nat ∧ (write = true → ∀ off, xlate x = Some (off, false) → (lget s.(atc_l2) (slot2 x)).(modified) = true)) →
  fill_result x data write s0 (fill_checks n x.2 x.1 data write (slot1 x data write) s).
Proof.
  intros Hal Hok. revert s. induction n as [|n IH]; intros s Hc Hrest Hl1 Hx Ht Hn; [lia|].
  pose proof (slot1_range x data write) as Hi1. pose proof (slot2_range x) as Hi2. destruct (co_l2 _ _ Hc x Hx Ht) as [Hd Hin Hh Hsome].
  cbn [fill_checks]. cbv zeta. fold (slot2 x). unfold mbind at 1, M_bind at 1. rewrite get_l2_eq by done. set (l := lget s.(atc_l2) (slot2 x)) in *.
  assert ((if data then valid_data l else valid_inst l) = bool_decide (is_Some (xlate x))) as -> by (by destruct data).
  assert (xlate x = None ∨ (∃ off wp, xlate x = Some (off, wp) ∧ write && wp = true) →
    fill_result x data write s0 (fill_fail (slot1 x data write) s)) as Hfail.
  { intros HX. unfold fill_result, reaches. rewrite fill_fail_eq by done.
    destruct HX as [-> |(off & wp & -> & ->)]; eexists; (split; [reflexivity|]); (split; [exact Hrest|]); rewrite lget_with_l1; (split; [cbn; rewrite Hl1; auto|intros D' HD'; by apply coherent_other]). }
  destruct (xlate x) as [[off wp]|] eqn:EX; [|rewrite bool_decide_eq_false_2 by (by intros [??]); apply Hfail; auto].
  rewrite bool_decide_eq_true_2 by eauto. cbn [negb]. destruct (Hsome off wp eq_refl) as [Hp Hwp]. rewrite Hwp.
  destruct (write && wp) eqn:Ew; [apply Hfail; right; eauto|].
  destruct (write && negb l.(modified)) eqn:Em; [|by apply (fill_copy_spec x data write l s s0 off wp)].
  apply andb_prop in Em as [-> Em%negb_true_iff]. cbn in Ew. subst wp.
  destruct Hn as [Hn|[_ Hn]]; [|rewrite (Hn eq_refl off) in Em by congruence; done].
  destruct (fill_l2_spec x data true s Hal Hok (co_setup _ _ Hc) (co_tables _ _ Hc)) as (d & l' & m & E & Hm & Ht' & Hl' & Hmod).
  unfold mbind at 1, M_bind at 1. rewrite E. apply IH.
  - by apply coherent_l2.
  - destruct Hrest as (? & ? & ?). split_and!; try done. cbn. etrans; [done|apply Hm].
  - done.
  - done.
  - by rewrite lget_with_l2.
  - destruct n as [|[|n]]; [lia| |left; lia]. right. split; [done|]. intros _ off' EX'. rewrite lget_with_l2. apply (Hmod eq_refl off'). congruence.
Qed.

Lemma fill_l1_spec x data write s :
  ttr_alike → tables_ok → coherent D s → u32_addr x.2 →
  fill_result x data write s (mmu_fill_atc_l1 x.2 x.1 data write (slot1 x data write) s).
Proof.
  intros Hal Hok Hc Hx. unfold mmu_fill_atc_l1. cbv zeta. fold (slot2 x). unfold mbind at 1, M_bind at 1. rewrite get_l2_eq by apply slot2_range.
  destruct (Z.eqb_spec (lget s.(atc_l2) (slot2 x)).(tag) (ATC_TAG x.2)) as [E|E]; cbn [negb m_when].
  - unfold mbind at 1, M_bind at 1. apply fill_checks_spec; try done; left; lia.
  - destruct (fill_l2_spec x data write s Hal Hok (co_setup _ _ Hc) (co_tables _ _ Hc)) as (d & l' & m & E' & Hm & Ht' & Hl' & Hmod).
    unfold mbind, M_bind. rewrite E'. apply fill_checks_spec; try done.
    + by apply coherent_l2.
    + split_and!; try done. apply Hm.
    + by rewrite lget_with_l2.
    + left. lia.
Qed.

(** ** Accesses *)

(** The areas of memory begin and end at page boundaries. *)
Definition ram_aligned : Prop := 0 <= FastRAM_SIZE ∧ FastRAM_SIZE mod 4096 = 0 ∧ VideoRAMBase mod 4096 = 0.

Lemma ram_uniform w pa n :
  ram_aligned → ram_page w pa → (w = true → 0x1000 <= pa) → 1 <= n → pa mod 4096 + n <= 4096 →
  test_ram_boundary pa n w = true ∧ pa .& 0xfff00000 ≠ 0x00f00000 ∧ pa .& 0xfff00000 ≠ 0xfff00000.
Proof.
  intros (HF0 & HF & HV) (pa' & E & Ht & Hh1 & Hh2) Hw Hn Hp. rewrite (hw_region pa' pa) in Hh1, Hh2 by done. split; [|done].
  rewrite !shr12 in E. assert (∀ B, B mod 4096 = 0 → (B <=? pa') = (B <=? pa)) as Hlo.
  { intros B HB. apply eq_bool_prop_intro. rewrite !Is_true_true, !Z.leb_le. Z.div_mod_to_equations. lia. }
  assert (∀ B, B mod 4096 = 0 → (pa' <=? B - 1) = (pa <=? B - n)) as Hhi.
  { intros B HB. apply eq_bool_prop_intro. rewrite !Is_true_true, !Z.leb_le. Z.div_mod_to_equations. lia. }
  unfold test_ram_boundary in Ht |- *. rewrite (Hlo FastRAM_BEGIN), (Hlo VideoRAMBase), (Hhi STRAM_END) in Ht by done.
  rewrite (Hhi (FastRAM_BEGIN + FastRAM_SIZE)), (Hhi (VideoRAMBase + ARANYMVRAMSIZE)) in Ht
    by (unfold FastRAM_BEGIN, ARANYMVRAMSIZE; Z.div_mod_to_equations; lia).
  destruct w; [|exact Ht]. specialize (Hw eq_refl). rewrite (proj2 (Z.leb_le 8 pa)) by lia.
  destruct (8 <=? pa'); [exact Ht|]. cbn [andb] in Ht. rewrite orb_false_r in Ht.
  destruct (pa <=? FastRAM_BEGIN + FastRAM_SIZE - n), (FastRAM_BEGIN <=? pa); cbn in *; try done; by rewrite Ht, ?orb_true_r.
Qed.

Definition fetch (sz : wordsizes) (m : gmap Z Z) (a : Z) : Z :=
  match sz with sz_byte => do_get_mem_byte m a | sz_word => do_get_mem_word m a | sz_long => do_get_mem_long m a end.
Definition store (sz : wordsizes) (a v : Z) (m : gmap Z Z) : gmap Z Z :=
  match sz with sz_byte => do_put_mem_byte a v m | sz_word => do_put_mem_word a v m | sz_long => do_put_mem_long a v m end.

Lemma bytes_range sz : 1 <= bytes sz <= 4.
Proof. destruct sz; cbn; lia. Qed.

Lemma real_get_ok sz a s : test_ram_boundary a (bytes sz) false = true → real_get sz a s = MOk (fetch sz s.(ram) a) s.
Proof. intros Ht. unfold real_get. by rewrite Ht. Qed.
Lemma real_put_ok sz a v s : test_ram_boundary a (bytes sz) false = true → real_put sz a v s = MOk tt (s_ram (store sz a v s.(ram)) s).
Proof. intros Ht. unfold real_put. by rewrite Ht. Qed.

Lemma store_byte sz a v m b : ¬ (a <= b < a + bytes sz) → aget (store sz a v m) b = aget m b.
Proof.
  intros Hb. destruct sz; cbn [store bytes] in *.
  - unfold do_put_mem_byte. by rewrite aget_aset_ne by lia.
  - unfold do_put_mem_word. by rewrite !aget_aset_ne by lia.
  - by apply put_long_byte.
Qed.

(** An access inside a page; a store not to the first page of memory. *)
Definition in_page (x : laddr) (sz : wordsizes) : Prop := u32_addr x.2 ∧ x.2 mod 4096 + bytes sz <= 4096.
Definition above_page_0 (x : laddr) : Prop := ∀ off wp, xlate x = Some (off, wp) → 0x1000 <= u32 (x.2 + off).

Lemma target_in_page x off wp sz : in_page x sz → xlate x = Some (off, wp) → u32 (x.2 + off) mod 4096 + bytes sz <= 4096.
Proof. intros [_ Hp] Ho%offset_page. unfold u32. Z.div_mod_to_equations. lia. Qed.

(** A line of the first level for the address. *)
Lemma hit_spec x data write sz s :
  ram_aligned → coherent D s → D x → in_page x sz → (write = true → above_page_0 x) →
  (lget s.(atc_l1) (slot1 x data write)).(tag) = ATC_TAG x.2 →
  reaches x write = to_ram (u32 ((lget s.(atc_l1) (slot1 x data write)).(phys) + x.2))
  ∧ test_ram_boundary (u32 ((lget s.(atc_l1) (slot1 x data write)).(phys) + x.2)) (bytes sz) false = true.
Proof.
  intros Hra Hc HD Hx Hw Ht. destruct (co_l1 _ _ Hc x data write HD (proj1 Hx) Ht) as (off & wp & EX & -> & Hwp & Hr).
  rewrite (Z.add_comm off). set (pa := u32 (x.2 + off)) in *. pose proof (bytes_range sz) as Hb. pose proof (target_in_page _ _ _ _ Hx EX) as Hp. fold pa in Hp.
  assert (write = true → 0x1000 <= pa) as Hlow by (intros E; by apply (Hw E off wp)).
  destruct (ram_uniform write pa 1 Hra Hr Hlow) as (H1 & Hh1 & Hh2); [lia|lia|].
  destruct (ram_uniform write pa (bytes sz) Hra Hr Hlow) as (H2 & _ & _); [lia|lia|].
  split; [|destruct write; [by apply test_ram_read|done]]. unfold reaches. rewrite EX, Hwp. cbv zeta. fold pa.
  by rewrite (proj2 (Z.eqb_neq _ _) Hh1), (proj2 (Z.eqb_neq _ _) Hh2), H1.
Qed.

(** A line that was just filled. *)
Lemma filled_spec x write pa sz :
  ram_aligned → in_page x sz → (write = true → above_page_0 x) → reaches x write = to_ram pa → test_ram_boundary pa (bytes sz) false = true.
Proof.
  intros Hra Hx Hw Hr. unfold reaches in Hr. destruct (xlate x) as [[off wp]|] eqn:EX; [|done]. destruct (write && wp); [done|]. cbv zeta in Hr.
  pose proof (target_in_page _ _ _ _ Hx EX) as Hp. set (a := u32 (x.2 + off)) in *.
  destruct (Z.eqb_spec (a .& 0xfff00000) 0x00f00000); [done|]. destruct (Z.eqb_spec (a .& 0xfff00000) 0xfff00000); [done|].
  destruct (test_ram_boundary a 1 write) eqn:Et; [|done]. injection Hr as <-. pose proof (bytes_range sz).
  assert (test_ram_boundary a (bytes sz) write = true) as Hn.
  { apply (ram_uniform write a); [done|by exists a|intros E; by apply (Hw E off wp)|lia|lia]. }
  destruct write; [by apply test_ram_read|done].
Qed.

(** The special status word of an access error. *)
Definition fault_ssw (su data write : bool) (size : wordsizes) : Z :=
  (((mmu_get_fc su data .& MMU_SSW_TM) .| (match size with sz_byte => MMU_SSW_SIZE_B | sz_word => MMU_SSW_SIZE_W | sz_long => MMU_SSW_SIZE_L end))
   .| (if write then 0 else MMU_SSW_RW)) .| MMU_SSW_ATC.

Definition faulted_at (x : laddr) (data write : bool) (size : wordsizes) (s : mmu) : Prop :=
  s.(regs).(mmu_fault_addr) = x.2 ∧ s.(regs).(mmu_ssw) = fault_ssw x.1 data write size.

Lemma bus_error_spec {A} x data write size s :
  ∃ s', mmu_bus_error (A:=A) x.2 (mmu_get_fc x.1 data) write size s = MThrow s' ∧ faulted_at x data write size s'
    ∧ s'.(regs).(wb3_data) = s.(regs).(wb3_data) ∧ s'.(ram) = s.(ram) ∧ s'.(atc_l1) = s.(atc_l1).
Proof.
  unfold mmu_bus_error, mbind, M_bind. cbv zeta. unfold m_set at 1 2 3, m_throw. eexists. split; [reflexivity|]. split; [|done]. split; [done|]. cbn.
  unfold fault_ssw. by destruct write; rewrite ?Z.lor_0_r.
Qed.

Lemma bus_error_coherent {A} a fc write size D' s s' : mmu_bus_error (A:=A) a fc write size s = MThrow s' → coherent D' s → coherent D' s'.
Proof. unfold mmu_bus_error, mbind, M_bind. cbv zeta. unfold m_set at 1 2 3, m_throw. intros [= <-] [Hs]. split; [by destruct Hs|done..]. Qed.

Lemma user_lookup_eq x data write s :
  mmu_user_lookup x.2 x.1 data write s = MOk (slot1 x data write, (lget s.(atc_l1) (slot1 x data write)).(tag) =? ATC_TAG x.2) s.
Proof. unfold mmu_user_lookup. cbv zeta. fold (slot1 x data write). unfold mbind, M_bind. by rewrite get_l1_eq by apply slot1_range. Qed.

Lemma get_user_eq x sz data size s :
  mmu_get_user sz x.2 x.1 data size s =
    let l := lget s.(atc_l1) (slot1 x data false) in
    if l.(tag) =? ATC_TAG x.2 then real_get sz (u32 (l.(phys) + x.2)) s
    else if l.(tag) =? u16 (Z.lnot (ATC_TAG x.2)) then get_redo sz x.2 x.1 data size (slot1 x data false) s
    else match mmu_fill_atc_l1 x.2 x.1 data false (slot1 x data false) s with
         | MOk true s' => real_get sz (u32 ((lget s'.(atc_l1) (slot1 x data false)).(phys) + x.2)) s'
         | MOk false s' => get_redo sz x.2 x.1 data size (slot1 x data false) s'
         | MThrow s' => MThrow s' | MHardware h s' => MHardware h s' | MStop e => MStop e
         end.
Proof.
  pose proof (slot1_range x data false) as Hi. unfold mmu_get_user, mmu_get_slow, mbind, M_bind. rewrite user_lookup_eq. cbv zeta.
  destruct (_ =? _); [by rewrite get_l1_eq|]. rewrite get_l1_eq by done. destruct (_ =? _); [done|]. case_match; try done. case_match; [|done]. by rewrite get_l1_eq.
Qed.

Lemma get_spec x sz data size s :
  ttr_alike → tables_ok → ram_aligned → coherent D s → D x → in_page x sz →
  match reaches x false with
  | to_ram pa => ∃ s', mmu_get_user sz x.2 x.1 data size s = MOk (fetch sz s'.(ram) pa) s' ∧ coherent D s' ∧ rest_same s s' ∧ (no_hw s → no_hw s')
  | to_hardware pa => ∃ s', mmu_get_user sz x.2 x.1 data size s = MHardware (HWget sz pa) s' ∧ coherent D s' ∧ rest_same s s'
  | faults => no_hw s → ∃ s', mmu_get_user sz x.2 x.1 data size s = MThrow s' ∧ faulted_at x data false size s' ∧ same_outside s.(ram) s'.(ram)
      ∧ ∀ D', apart (slot1 x data false) D' → coherent D' s'
  end.
Proof.
  intros Hal Hok Hra Hc HD Hx. pose proof (slot1_range x data false) as Hi. rewrite get_user_eq. cbv zeta.
  destruct (Z.eqb_spec (lget s.(atc_l1) (slot1 x data false)).(tag) (ATC_TAG x.2)) as [E|E].
  { destruct (hit_spec x data false sz s Hra Hc HD Hx) as [-> Hn]; [done..|]. rewrite real_get_ok by done. exists s. split_and!; done. }
  destruct (Z.eqb_spec (lget s.(atc_l1) (slot1 x data false)).(tag) (u16 (Z.lnot (ATC_TAG x.2)))) as [E'|E'].
  { destruct (co_hw _ _ Hc x data false HD (proj1 Hx) E') as [Hh ->]. unfold get_redo, mbind, M_bind. rewrite get_l1_eq, Hh by done. by exists s. }
  pose proof (fill_l1_spec x data false s Hal Hok Hc (proj1 Hx)) as Hf. unfold fill_result in Hf. destruct (reaches x false) as [pa|pa|] eqn:Er.
  - destruct Hf as (s' & -> & Hc' & Hrest & Ep & Hn). rewrite Ep, real_get_ok by (by apply (filled_spec x false)). by exists s'.
  - destruct Hf as (s' & -> & Hc' & Hrest & Hh & Ep). unfold get_redo, mbind, M_bind. rewrite get_l1_eq, Hh, Ep by done. by exists s'.
  - destruct Hf as (s' & -> & Hrest & Hh & Hap). intros Hno. unfold get_redo, mbind, M_bind. rewrite get_l1_eq, Hh by done.
    destruct (bus_error_spec (A:=Z) x data false size s') as (s2 & E2 & ? & _ & Em & _). exists s2. rewrite Em. destruct Hrest as (_ & _ & ?). split_and!; try done.
    intros D' HD'. by eapply bus_error_coherent, Hap.
Qed.

Lemma put_user_eq x sz v data size s :
  mmu_put_user sz x.2 v x.1 data size s =
    let l := lget s.(atc_l1) (slot1 x data true) in
    if l.(tag) =? ATC_TAG x.2 then real_put sz (u32 (l.(phys) + x.2)) v s
    else if l.(tag) =? u16 (Z.lnot (ATC_TAG x.2)) then put_redo sz x.2 v x.1 data size (slot1 x data true) s
    else match mmu_fill_atc_l1 x.2 x.1 data true (slot1 x data true) s with
         | MOk true s' => real_put sz (u32 ((lget s'.(atc_l1) (slot1 x data true)).(phys) + x.2)) v s'
         | MOk false s' => put_redo sz x.2 v x.1 data size (slot1 x data true) s'
         | MThrow s' => MThrow s' | MHardware h s' => MHardware h s' | MStop e => MStop e
         end.
Proof.
  pose proof (slot1_range x data true) as Hi. unfold mmu_put_user, mmu_put_slow, mbind, M_bind. rewrite user_lookup_eq. cbv zeta.
  destruct (_ =? _); [by rewrite get_l1_eq|]. rewrite get_l1_eq by done. destruct (_ =? _); [done|]. case_match; try done. case_match; [|done]. by rewrite get_l1_eq.
Qed.

Lemma put_spec x sz v data size s :
  ttr_alike → tables_ok → ram_aligned → coherent D s → D x → in_page x sz → above_page_0 x →
  match reaches x true with
  | to_ram pa => ∃ s', mmu_put_user sz x.2 v x.1 data size s = MOk tt (s_ram (store sz pa v s'.(ram)) s') ∧ coherent D s' ∧ rest_same s s' ∧ (no_hw s → no_hw s')
  | to_hardware pa => ∃ s', mmu_put_user sz x.2 v x.1 data size s = MHardware (HWput sz pa v) s' ∧ coherent D s' ∧ rest_same s s'
  | faults => no_hw s → ∃ s', mmu_put_user sz x.2 v x.1 data size s = MThrow s' ∧ faulted_at x data true size s' ∧ same_outside s.(ram) s'.(ram) ∧ s'.(regs).(wb3_data) = v
  end.
Proof.
  intros Hal Hok Hra Hc HD Hx H0. pose proof (slot1_range x data true) as Hi. rewrite put_user_eq. cbv zeta.
  destruct (Z.eqb_spec (lget s.(atc_l1) (slot1 x data true)).(tag) (ATC_TAG x.2)) as [E|E].
  { destruct (hit_spec x data true sz s Hra Hc HD Hx) as [-> Hn]; [done..|]. rewrite real_put_ok by done. exists s. split_and!; done. }
  destruct (Z.eqb_spec (lget s.(atc_l1) (slot1 x data true)).(tag) (u16 (Z.lnot (ATC_TAG x.2)))) as [E'|E'].
  { destruct (co_hw _ _ Hc x data true HD (proj1 Hx) E') as [Hh ->]. unfold put_redo, mbind, M_bind. rewrite get_l1_eq, Hh by done. by exists s. }
  pose proof (fill_l1_spec x data true s Hal Hok Hc (proj1 Hx)) as Hf. unfold fill_result in Hf. destruct (reaches x true) as [pa|pa|] eqn:Er.
  - destruct Hf as (s' & -> & Hc' & Hrest & Ep & Hn). rewrite Ep, real_put_ok by (by apply (filled_spec x true)). by exists s'.
  - destruct Hf as (s' & -> & Hc' & Hrest & Hh & Ep). unfold put_redo, mbind, M_bind. rewrite get_l1_eq, Hh, Ep by done. by exists s'.
  - destruct Hf as (s' & -> & Hrest & Hh & _). intros Hno. unfold put_redo, mbind, M_bind, m_set. rewrite get_l1_eq, Hh by done.
    match goal with |- context [mmu_bus_error _ _ _ _ ?s2] => destruct (bus_error_spec (A:=unit) x data true size s2) as (s3 & E3 & ? & ? & Em & _) end.
    exists s3. rewrite Em. by destruct Hrest as (_ & _ & ?).
Qed.

(** Stores outside the tables. *)
Lemma coherent_store sz pa v s : coherent D s → (∀ b, pa <= b < pa + bytes sz → outside b) → coherent D (s_ram (store sz pa v s.(ram)) s).
Proof.
  intros [] Ho. split; try done. cbn [s_ram ram]. apply (tables_same_ext s.(ram)); [|done]. intros t Ht. apply long_ext. intros b Hb.
  apply store_byte. intros Hb'. by apply (Ho b Hb' t Ht).
Qed.

Lemma coherent_regs s f :
  coherent D s → (∀ q, (f q).(urp) = q.(urp) ∧ (f q).(srp) = q.(srp) ∧ (f q).(mmu_pagesize_8k) = q.(mmu_pagesize_8k) ∧ (f q).(mmu_enabled) = q.(mmu_enabled)
    ∧ (f q).(dtt0) = q.(dtt0) ∧ (f q).(dtt1) = q.(dtt1) ∧ (f q).(itt0) = q.(itt0) ∧ (f q).(itt1) = q.(itt1)) →
  coherent D (s_regs (f s.(regs)) s).
Proof. intros [[] ] E. destruct (E s.(regs)) as (?&?&?&?&?&?&?&?). split; try done. split; cbn; congruence. Qed.

Lemma coherent_mode b s : coherent D s → coherent D (s_current_atc b s).
Proof. intros []. by split. Qed.

(** ** Flushing *)

(** Some lines are emptied. *)
Definition lines_flushed (a a' : gmap Z mmu_atc_line) : Prop := ∀ i, lget a' i = lget a i ∨ lget a' i = l_tag 0x8000 (lget a i).

#[global] Instance lines_flushed_preorder : PreOrder lines_flushed.
Proof. split; [by left|]. intros a b c H1 H2 i. destruct (H2 i) as [-> | ->], (H1 i) as [-> | ->]; auto. Qed.

Definition flushed (s s' : mmu) : Prop :=
  s'.(regs) = s.(regs) ∧ s'.(ram) = s.(ram) ∧ s'.(current_atc) = s.(current_atc)
  ∧ lines_flushed s.(atc_l1) s'.(atc_l1) ∧ lines_flushed s.(atc_l2) s'.(atc_l2).

#[global] Instance flushed_preorder : PreOrder flushed.
Proof.
  split; [by intros s|]. intros s1 s2 s3 (E1 & E2 & E3 & H1 & H2) (E1' & E2' & E3' & H1' & H2').
  split_and!; [congruence..|by etrans|by etrans].
Qed.

Lemma coherent_flushed s s' : coherent D s → flushed s s' → coherent D s' ∧ rest_same s s' ∧ (no_hw s → no_hw s').
Proof.
  intros [] (E1 & E2 & E3 & H1 & H2). split; [split; rewrite ?E1, ?E2; try done|split; [|]].
  - intros x Hx. pose proof (tag_range _ Hx). destruct (H2 (slot2 x)) as [-> | ->]; [auto|]. cbn. lia.
  - intros x d w HD Hx. pose proof (tag_range _ Hx). destruct (H1 (slot1 x d w)) as [-> | ->]; [auto|]. cbn. lia.
  - intros x d w HD Hx. pose proof (tag_range _ Hx). destruct (H1 (slot1 x d w)) as [-> | ->]; [auto|]. rewrite lnot_tag by done. cbn. lia.
  - split_and!; [done..|by rewrite E2].
  - intros Hn i Hi. destruct (H1 i) as [-> | ->]; by apply Hn.
Qed.

End caches.

Lemma flush_insert g a i : lines_flushed a (<[i := flush_line g (lget a i)]> a).
Proof.
  intros j. destruct (decide (i = j)) as [->|]; [rewrite lget_insert|left; by rewrite lget_insert_ne]. unfold flush_line. destruct (_ || _); auto.
Qed.

Lemma flush_array_flushed n g a : lines_flushed a (flush_array n g a).
Proof. unfold flush_array. generalize (seqZ 0 (Z.of_nat n)) as k. intros k. revert a. induction k as [|i k IH]; intros a; [done|]. cbn. etrans; [apply flush_insert|apply IH]. Qed.

Lemma flush_array_lget n g a i : 0 <= i < Z.of_nat n → lget (flush_array n g a) i = flush_line g (lget a i).
Proof.
  unfold flush_array. intros Hi. assert (i ∈ seqZ 0 (Z.of_nat n)) as Hin by (apply elem_of_seqZ; lia). pose proof (NoDup_seqZ 0 (Z.of_nat n)) as Hnd.
  revert a. induction (seqZ 0 (Z.of_nat n)) as [|j k IH]; intros a; [by apply not_elem_of_nil in Hin|]. cbn. apply NoDup_cons in Hnd as [Hj Hnd].
  destruct (decide (i = j)) as [->|Hne].
  - clear IH Hin Hnd Hi. assert (∀ a', lget (foldl (λ b l, <[l := flush_line g (lget b l)]> b) a' k) j = lget a' j) as ->; [|by rewrite lget_insert].
    induction k as [|l k IH]; [done|]. intros a'. cbn. apply not_elem_of_cons in Hj as [? Hj]. by rewrite IH, lget_insert_ne.
  - apply elem_of_cons in Hin as [?|Hin]; [done|]. rewrite (IH Hin Hnd). by rewrite lget_insert_ne.
Qed.

Lemma flush_all_spec g s : ∃ s', mmu_flush_atc_all g s = MOk tt s' ∧ flushed s s'.
Proof. eexists. split; [reflexivity|]. split_and!; [done..|apply flush_array_flushed|apply flush_array_flushed]. Qed.

Lemma upd_l1_flush i g s : 0 <= i < 2048 → ∃ s', upd_l1 i (flush_line g) s = MOk tt s' ∧ flushed s s'.
Proof. intros Hi. rewrite upd_l1_eq by done. eexists. split; [reflexivity|]. by split_and!; [..|apply flush_insert|]. Qed.
Lemma upd_l2_flush i g s : 0 <= i < 8192 → ∃ s', upd_l2 i (flush_line g) s = MOk tt s' ∧ flushed s s'.
Proof. intros Hi. rewrite upd_l2_eq by done. eexists. split; [reflexivity|]. by split_and!; [..|apply flush_insert]. Qed.

(** With pages of 4096 bytes. *)
Lemma flush_atc_spec a su g s : s.(regs).(mmu_pagesize_8k) = false → ∃ s', mmu_flush_atc a su g s = MOk tt s' ∧ flushed s s'.
Proof.
  intros H4. pose proof (L1_index_range a) as Hi. pose proof (l2_slot_range su _ (L2_index_range a)) as Hi2.
  assert (0 <= l1_base su <= 1024) as Hb by (unfold l1_base; destruct su; cbn; lia). unfold mmu_flush_atc, flush_l1_row, ATC_L1_SIZE, mbind, M_bind.
  destruct (upd_l1_flush (l1_base su + ATC_L1_INDEX a) g s) as (s1 & -> & F1); [lia|].
  destruct (upd_l1_flush (l1_base su + 256 + ATC_L1_INDEX a) g s1) as (s2 & -> & F2); [lia|].
  destruct (upd_l1_flush (l1_base su + 2 * 256 + ATC_L1_INDEX a) g s2) as (s3 & -> & F3); [lia|].
  destruct (upd_l1_flush (l1_base su + 3 * 256 + ATC_L1_INDEX a) g s3) as (s4 & -> & F4); [lia|].
  assert (flushed s s4) as F by (by repeat (etrans; [eassumption|])). cbn -[upd_l2]. rewrite (proj1 F), H4. cbn -[upd_l2].
  destruct (upd_l2_flush (l2_slot su (ATC_L2_INDEX a)) g s4) as (s5 & -> & F5); [lia|].
  destruct F5 as (E5 & ?). exists s5. rewrite <- ?E5, ?(proj1 F), ?H4. split; [done|]. etrans; [exact F|]. done.
Qed.

(** ** Programs *)

(** What the CPU does with the MMU: accesses of the current mode, instruction fetches, MOVES,
    PFLUSH, and the changes of mode and of the function codes of MOVES. *)
Inductive op :=
  | Load (sz : wordsizes) (a : Z)
  | Store (sz : wordsizes) (a v : Z)
  | Fetch (sz : wordsizes) (pc o : Z)
  | Moves_load (sz : wordsizes) (a : Z)
  | Moves_store (sz : wordsizes) (a v : Z)
  | Pflush (areg : Z → Z) (opcode : Z)
  | Move_to_sr (sr : Z)
  | Movec_sfc (v : Z)
  | Movec_dfc (v : Z).

Definition exec (o : op) : M Z :=
  match o with
  | Load sz a => match sz with sz_byte => get_byte a | sz_word => get_word a | sz_long => get_long a end
  | Store sz a v => match sz with sz_byte => put_byte a v | sz_word => put_word a v | sz_long => put_long a v end;; mret 0
  | Fetch sz pc o => match sz with sz_byte => get_ibyte pc o | sz_word => get_iword pc o | sz_long => get_ilong pc o end
  | Moves_load sz a => match sz with sz_byte => sfc_get_byte a | sz_word => sfc_get_word a | sz_long => sfc_get_long a end
  | Moves_store sz a v => match sz with sz_byte => dfc_put_byte a v | sz_word => dfc_put_word a v | sz_long => dfc_put_long a v end;; mret 0
  | Pflush areg opcode => mmu_op areg opcode;; mret 0
  | Move_to_sr sr => set_supervisor sr;; mret 0
  | Movec_sfc v => m68k_move2c 0 v;; mret 0
  | Movec_dfc v => m68k_move2c 1 v;; mret 0
  end.

Inductive run_end := Returned (s : mmu) | Thrown (s : mmu) | Stopped (e : mmu_stop).

(** The chips answer a read according to all the accesses to them so far. *)
Definition answer (device : list hw_access → Z) (hist : list hw_access) : Z :=
  match hist with HWget _ _ :: _ => device hist | _ => 0 end.

(** The values read, the accesses to the chips (the last one first) and the end. *)
Fixpoint run (device : list hw_access → Z) (hist : list hw_access) (ops : list op) (s : mmu) : list Z * list hw_access * run_end :=
  match ops with
  | [] => ([], hist, Returned s)
  | o :: ops =>
    match exec o s with
    | MOk z s => let '(zs, h, e) := run device hist ops s in (z :: zs, h, e)
    | MHardware h s => let '(zs, h', e) := run device (h :: hist) ops s in (answer device (h :: hist) :: zs, h', e)
    | MThrow s => ([], hist, Thrown s)
    | MStop e => ([], hist, Stopped e)
    end
  end.

(** ** The specification: a memory behind a fixed translation, without caches *)

Record view := mk_view { v_super : bool; v_sfc : Z; v_dfc : Z; v_mem : gmap Z Z }.

Inductive action := Read (x : laddr) (data : bool) (sz : wordsizes) | Write (x : laddr) (data : bool) (sz : wordsizes) (w : Z) | Quiet (v : view).

Definition what (v : view) (o : op) : action :=
  match o with
  | Load sz a => Read (v.(v_super), a) true sz
  | Store sz a w => Write (v.(v_super), a) true sz w
  | Fetch sz pc o => Read (v.(v_super), u32 (pc + o + match sz with sz_byte => 1 | _ => 0 end)) false sz
  | Moves_load sz a => Read (fc_super v.(v_sfc), a) (fc_data v.(v_sfc)) sz
  | Moves_store sz a w => Write (fc_super v.(v_dfc), a) (fc_data v.(v_dfc)) sz w
  | Pflush _ _ => Quiet v
  | Move_to_sr sr => Quiet (mk_view (Z.testbit sr 13) v.(v_sfc) v.(v_dfc) v.(v_mem))
  | Movec_sfc w => Quiet (mk_view v.(v_super) (w .& 7) v.(v_dfc) v.(v_mem))
  | Movec_dfc w => Quiet (mk_view v.(v_super) v.(v_sfc) (w .& 7) v.(v_mem))
  end.

Inductive reply := Done (z : Z) (v : view) | Device (h : hw_access) | Fault (addr ssw : Z).

Definition ref_step (v : view) (o : op) : reply :=
  match what v o with
  | Read x data sz =>
    match reaches x false with
    | to_ram pa => Done (fetch sz v.(v_mem) pa) v
    | to_hardware pa => Device (HWget sz pa)
    | faults => Fault x.2 (fault_ssw x.1 data false sz)
    end
  | Write x data sz w =>
    match reaches x true with
    | to_ram pa => Done 0 (mk_view v.(v_super) v.(v_sfc) v.(v_dfc) (store sz pa w v.(v_mem)))
    | to_hardware pa => Device (HWput sz pa w)
    | faults => Fault x.2 (fault_ssw x.1 data true sz)
    end
  | Quiet v => Done 0 v
  end.

Inductive ref_end := Ran (v : view) | Faulted (addr ssw : Z) (v : view).

Fixpoint ref_run (device : list hw_access → Z) (hist : list hw_access) (ops : list op) (v : view) : list Z * list hw_access * ref_end :=
  match ops with
  | [] => ([], hist, Ran v)
  | o :: ops =>
    match ref_step v o with
    | Done z v => let '(zs, h, e) := ref_run device hist ops v in (z :: zs, h, e)
    | Device h => let '(zs, h', e) := ref_run device (h :: hist) ops v in (answer device (h :: hist) :: zs, h', e)
    | Fault a ssw => ([], hist, Faulted a ssw v)
    end
  end.

(** Accesses stay inside a page and do not touch the tables; with pages of 8192 bytes PFLUSH
    is for all addresses. *)
Definition plain (x : laddr) (sz : wordsizes) : Prop := ∀ w pa, reaches x w = to_ram pa → ∀ b, pa <= b < pa + bytes sz → outside b.

Definition op_ok (v : view) (o : op) : Prop :=
  match what v o with
  | Read x _ sz => in_page x sz ∧ plain x sz
  | Write x _ sz _ => in_page x sz ∧ plain x sz ∧ above_page_0 x
  | Quiet _ =>
    match o with
    | Pflush _ opcode => opcode .& 0xfe0 = 0x500 ∧ (r.(mmu_pagesize_8k) = true → nz (opcode .& 16) = true)
    | _ => True
    end
  end.

Fixpoint run_ok (ops : list op) (v : view) : Prop :=
  match ops with
  | [] => True
  | o :: ops => op_ok v o ∧ match ref_step v o with Done _ v => run_ok ops v | Device _ => run_ok ops v | Fault _ _ => True end
  end.

(** A state in which the CPU has the view [v]. *)
Record sees (s : mmu) (v : view) : Prop := {
  se_coherent : coherent (λ _, True) s;
  se_super : s.(regs).(supervisor) = v.(v_super);
  se_atc : s.(current_atc) = v.(v_super);
  se_sfc : s.(regs).(sfc) = v.(v_sfc);
  se_dfc : s.(regs).(dfc) = v.(v_dfc);
  se_mem : ∀ b, outside b → aget s.(ram) b = aget v.(v_mem) b }.

(** ** The caches implement the specification *)

Lemma fetch_ext sz m m' pa : (∀ b, pa <= b < pa + bytes sz → aget m b = aget m' b) → fetch sz m pa = fetch sz m' pa.
Proof. intros E. destruct sz; cbn in *; unfold do_get_mem_long, do_get_mem_byte, do_get_mem_word; by rewrite !E by lia. Qed.

Lemma store_ext sz m m' pa w b : aget m b = aget m' b → aget (store sz pa w m) b = aget (store sz pa w m') b.
Proof.
  intros E. destruct sz; cbn; unfold do_put_mem_long, do_put_mem_byte, do_put_mem_word; rewrite !aget_aset; repeat case_decide; done.
Qed.

Lemma unaligned_in_page x sz : in_page x sz → is_unaligned x.2 (bytes sz) = false.
Proof.
  intros [Hx Hp]. unfold is_unaligned. pose proof (bytes_range sz). unfold u32_addr in Hx. unfold u32. rewrite Z.mod_small by (Z.div_mod_to_equations; lia).
  apply andb_false_intro2. rewrite (nz_flag _ 12) by done. rewrite Z.lxor_spec.
  assert (x.2 ≫ 12 = (x.2 + bytes sz - 1) ≫ 12) as E by (rewrite !shr12; Z.div_mod_to_equations; lia).
  apply (f_equal (λ z, Z.testbit z 0)) in E. cbv beta in E. rewrite !Z.shiftr_spec in E by lia. change (0 + 12) with 12 in E. rewrite E. apply xorb_nilpotent.
Qed.

(** The current mode's accesses are those of its address space. *)
Lemma get_current sz a data size s : s.(regs).(supervisor) = s.(current_atc) → mmu_get sz a data size s = mmu_get_user sz a s.(current_atc) data size s.
Proof.
  intros E. unfold mmu_get, mmu_get_user, mmu_lookup, mbind, M_bind, m_get at 1. destruct (mmu_user_lookup _ _ _ _ s) as [[cl hit] s'|s'|h s'|e] eqn:El; try done.
  assert (s' = s) as ->; [|destruct hit; [done|]; unfold m_reg; by rewrite E].
  revert El. unfold mmu_user_lookup, mbind, M_bind. rewrite get_l1_eq by apply l1_slot_range, L1_index_range. by intros [= <-].
Qed.

Lemma put_current sz a w data size s : s.(regs).(supervisor) = s.(current_atc) → mmu_put sz a w data size s = mmu_put_user sz a w s.(current_atc) data size s.
Proof.
  intros E. unfold mmu_put, mmu_put_user, mmu_lookup, mbind, M_bind, m_get at 1. destruct (mmu_user_lookup _ _ _ _ s) as [[cl hit] s'|s'|h s'|e] eqn:El; try done.
  assert (s' = s) as ->; [|destruct hit; [done|]; unfold m_reg; by rewrite E].
  revert El. unfold mmu_user_lookup, mbind, M_bind. rewrite get_l1_eq by apply l1_slot_range, L1_index_range. by intros [= <-].
Qed.

Lemma exec_read s v o x data sz : sees s v → what v o = Read x data sz → in_page x sz → exec o s = mmu_get_user sz x.2 x.1 data sz s.
Proof.
  intros [] E Hp. pose proof (unaligned_in_page _ _ Hp) as Hu. assert (s.(regs).(supervisor) = s.(current_atc)) as Es by congruence.
  destruct o; try discriminate E; injection E as <- <- <-; cbn [exec fst snd] in *.
  - unfold get_byte, get_word, get_long. rewrite <- se_atc0. destruct sz0; cbn [bytes] in Hu; rewrite ?Hu; by apply get_current.
  - unfold get_ibyte, get_iword, get_ilong. cbv zeta. rewrite <- se_atc0. destruct sz0; cbn [bytes] in Hu; rewrite ?Z.add_0_r in *; rewrite ?Hu; by apply get_current.
  - unfold sfc_get_byte, sfc_get_word, sfc_get_long, mbind, M_bind, m_reg. destruct sz0; cbn [bytes] in Hu; by rewrite ?Hu, se_sfc0.
Qed.

(** A store, up to what is done again for an error. *)
Definition same_fault (s s' : mmu) : Prop :=
  s'.(ram) = s.(ram) ∧ s'.(regs).(mmu_fault_addr) = s.(regs).(mmu_fault_addr) ∧ s'.(regs).(mmu_ssw) = s.(regs).(mmu_ssw).

Definition store_result (x : laddr) (put : mres unit) (res : mres Z) : Prop :=
  match put with
  | MOk _ s => res = MOk 0 s
  | MThrow s => s.(regs).(mmu_fault_addr) = x.2 → ∃ s', res = MThrow s' ∧ same_fault s s'
  | MHardware h s => res = MHardware h s
  | MStop e => res = MStop e
  end.

Lemma exec_write s v o x data sz w : sees s v → what v o = Write x data sz w → in_page x sz →
  store_result x (mmu_put_user sz x.2 w x.1 data sz s) (exec o s).
Proof.
  intros [] E Hp. pose proof (unaligned_in_page _ _ Hp) as Hu. assert (s.(regs).(supervisor) = s.(current_atc)) as Es by congruence.
  destruct o; try discriminate E; injection E as <- <- <- <-; cbn [exec fst snd] in *.
  - unfold put_byte, put_word, put_long. rewrite <- se_atc0. unfold store_result, mbind, M_bind.
    destruct sz0; cbn [bytes] in Hu; rewrite ?Hu, put_current by done; destruct (mmu_put_user _ _ _ _ _ _ s); try done; by eexists.
  - unfold dfc_put_byte, dfc_put_word, dfc_put_long, misaligned_put, m_try, store_result, mbind, M_bind, m_reg.
    destruct sz0; cbn [bytes] in Hu; rewrite ?Hu, se_dfc0; destruct (mmu_put_user _ _ _ _ _ _ s) as [|s'| |] eqn:Ep; cbn; try done; intros Ea; rewrite ?Ea, ?Z.eqb_refl; cbn; by eexists.
Qed.

Lemma sees_rest s s' v : sees s v → coherent (λ _, True) s' → rest_same s s' → sees s' v.
Proof. intros [] Hc (E1 & E2 & E3). split; rewrite ?E1, ?E2; try done. intros b Hb. rewrite (E3 b Hb). auto. Qed.

Lemma sees_store s v sz pa w :
  sees s v → (∀ b, pa <= b < pa + bytes sz → outside b) →
  sees (s_ram (store sz pa w s.(ram)) s) (mk_view v.(v_super) v.(v_sfc) v.(v_dfc) (store sz pa w v.(v_mem))).
Proof. intros [] Ho. split; try done; [by apply coherent_store|]. intros b Hb. cbn. apply store_ext. auto. Qed.

Lemma fetch_seen s v sz pa : sees s v → (∀ b, pa <= b < pa + bytes sz → outside b) → fetch sz s.(ram) pa = fetch sz v.(v_mem) pa.
Proof. intros [] Ho. apply fetch_ext. intros b Hb. by apply se_mem0, Ho. Qed.

Definition step_result (s : mmu) (v : view) (o : op) : Prop :=
  match ref_step v o with
  | Done z v' => ∃ s', exec o s = MOk z s' ∧ sees s' v' ∧ (no_hw s → no_hw s')
  | Device h => ∃ s', exec o s = MHardware h s' ∧ sees s' v
  | Fault a ssw => no_hw s → ∃ s', exec o s = MThrow s' ∧ s'.(regs).(mmu_fault_addr) = a ∧ s'.(regs).(mmu_ssw) = ssw
      ∧ (∀ b, outside b → aget s'.(ram) b = aget v.(v_mem) b)
  end.

Lemma step_read s v o x data sz :
  ttr_alike → tables_ok → ram_aligned → sees s v → what v o = Read x data sz → in_page x sz → plain x sz → step_result s v o.
Proof.
  intros Hal Hok Hra Hse E Hp Hpl. unfold step_result, ref_step. rewrite (exec_read _ _ _ _ _ _ Hse E Hp), E.
  pose proof (get_spec (λ _, True) x sz data sz s Hal Hok Hra (se_coherent _ _ Hse) I Hp) as Hg. destruct (reaches x false) as [pa|pa|] eqn:Er.
  - destruct Hg as (s' & -> & Hc & Hr & Hn). exists s'. pose proof (sees_rest _ _ _ Hse Hc Hr) as Hse'.
    split_and!; [|done..]. by rewrite (fetch_seen s' v) by eauto.
  - destruct Hg as (s' & -> & Hc & Hr). exists s'. split; [done|]. by apply (sees_rest s).
  - intros Hn. destruct (Hg Hn) as (s' & -> & [Ha Hssw] & Hm & _). exists s'. split_and!; [done..|]. intros b Hb. rewrite (Hm b Hb). by apply (se_mem _ _ Hse).
Qed.

Lemma step_write s v o x data sz w :
  ttr_alike → tables_ok → ram_aligned → sees s v → what v o = Write x data sz w → in_page x sz → plain x sz → above_page_0 x → step_result s v o.
Proof.
  intros Hal Hok Hra Hse E Hp Hpl H0. unfold step_result, ref_step. pose proof (exec_write _ _ _ _ _ _ _ Hse E Hp) as He. rewrite E.
  pose proof (put_spec (λ _, True) x sz w data sz s Hal Hok Hra (se_coherent _ _ Hse) I Hp H0) as Hg. unfold store_result in He. destruct (reaches x true) as [pa|pa|] eqn:Er.
  - destruct Hg as (s' & Eg & Hc & Hr & Hn). rewrite Eg in He. eexists. split; [exact He|]. split; [|exact Hn].
    apply sees_store; [by apply (sees_rest s)|eauto].
  - destruct Hg as (s' & Eg & Hc & Hr). rewrite Eg in He. exists s'. split; [done|]. by apply (sees_rest s).
  - intros Hn. destruct (Hg Hn) as (s' & Eg & [Ha Hssw] & Hm & _). rewrite Eg in He. destruct (He Ha) as (s2 & E2 & Em & Ea & Es).
    exists s2. split_and!; [done|congruence..|]. intros b Hb. rewrite Em, (Hm b Hb). by apply (se_mem _ _ Hse).
Qed.

Lemma step_flush s v areg opcode : sees s v → op_ok v (Pflush areg opcode) → step_result s v (Pflush areg opcode).
Proof.
  intros Hse [Ho H8]. unfold step_result, ref_step. cbn [what exec].
  assert (∃ s', mmu_op areg opcode s = MOk tt s' ∧ flushed s s') as (s' & E & Hf).
  { unfold mmu_op. unfold mbind at 1, M_bind at 1, m_reg. rewrite Ho. cbn [Z.eqb Pos.eqb]. cbv zeta. destruct (nz (opcode .& 16)) eqn:E16; [apply flush_all_spec|].
    apply flush_atc_spec. rewrite (su_8k _ (co_setup _ _ (se_coherent _ _ Hse))). by destruct (mmu_pagesize_8k r); [specialize (H8 eq_refl)|]. }
  unfold mbind, M_bind. rewrite E. exists s'. destruct (coherent_flushed _ _ _ (se_coherent _ _ Hse) Hf) as (Hc & Hr & Hn).
  split_and!; [done|by apply (sees_rest s)|done].
Qed.

Lemma step_spec s v o : ttr_alike → tables_ok → ram_aligned → sees s v → op_ok v o → step_result s v o.
Proof.
  intros Hal Hok Hra Hse Ho. destruct (what v o) as [x data sz|x data sz w|v'] eqn:E.
  - unfold op_ok in Ho. rewrite E in Ho. destruct Ho. by apply (step_read s v o x data sz).
  - unfold op_ok in Ho. rewrite E in Ho. destruct Ho as (? & ? & ?). by apply (step_write s v o x data sz w).
  - destruct o; try discriminate E; [by apply step_flush|..]; unfold step_result, ref_step; rewrite E; injection E as <-; (eexists; split; [reflexivity|]);
      (split; [|done]); destruct Hse; (split; [|cbn; try done..]).
    + apply coherent_mode. by apply (coherent_regs _ s (r_supervisor _)).
    + by rewrite (nz_flag _ 0), Z.shiftr_spec.
    + by rewrite (nz_flag _ 0), Z.shiftr_spec.
    + by apply (coherent_regs _ s (r_sfc _)).
    + by apply (coherent_regs _ s (r_dfc _)).
Qed.

(** What a run of the code is compared with. *)
Definition run_result (h0 : list hw_access) (ref : list Z * list hw_access * ref_end) (res : list Z * list hw_access * run_end) : Prop :=
  match ref with
  | (zs, h, Ran v) => ∃ s, res = (zs, h, Returned s) ∧ sees s v
  | (zs, h, Faulted a ssw v) => h = h0 → ∃ s, res = (zs, h, Thrown s) ∧ s.(regs).(mmu_fault_addr) = a ∧ s.(regs).(mmu_ssw) = ssw
      ∧ (∀ b, outside b → aget s.(ram) b = aget v.(v_mem) b)
  end.

Lemma ref_run_hist device ops : ∀ hist v, ∃ h, (ref_run device hist ops v).1.2 = h ++ hist.
Proof.
  induction ops as [|o ops IH]; intros hist v; cbn; [by exists []|]. destruct (ref_step v o) as [z v'|h|a ssw]; [| |by exists []].
  - destruct (IH hist v') as (h' & E). destruct (ref_run device hist ops v') as [[zs h] e]. eauto.
  - destruct (IH (h :: hist) v) as (h' & E). destruct (ref_run device (h :: hist) ops v) as [[zs h2] e]. exists (h' ++ [h]). rewrite <- app_assoc. done.
Qed.

Lemma run_refines device ops : ttr_alike → tables_ok → ram_aligned → ∀ h0 hist s v,
  sees s v → run_ok ops v → (hist = h0 → no_hw s) → (∃ h, hist = h ++ h0) →
  run_result h0 (ref_run device hist ops v) (run device hist ops s).
Proof.
  intros Hal Hok Hra h0. induction ops as [|o ops IH]; intros hist s v Hse Hro Hn Hh; [by exists s|].
  cbn [run_ok ref_run run] in *. destruct Hro as [Ho Hro]. pose proof (step_spec s v o Hal Hok Hra Hse Ho) as Hs. unfold step_result in Hs.
  destruct (ref_step v o) as [z v'|h|a ssw].
  - destruct Hs as (s' & -> & Hse' & Hn'). specialize (IH hist s' v' Hse' Hro (λ E, Hn' (Hn E)) Hh).
    destruct (ref_run device hist ops v') as [[zs h] [v2|a ssw v2]]; cbn in *.
    + destruct IH as (s2 & -> & ?). eauto.
    + intros E. destruct (IH E) as (s2 & -> & ?). eauto.
  - destruct Hs as (s' & -> & Hse'). destruct Hh as (h1 & ->).
    assert (h :: h1 ++ h0 ≠ h0) as Hne by (intros E; apply (f_equal length) in E; cbn in E; rewrite length_app in E; lia).
    specialize (IH (h :: h1 ++ h0) s' v Hse' Hro (λ E, False_rect _ (Hne E)) (ex_intro _ (h :: h1) eq_refl)).
    destruct (ref_run device (h :: h1 ++ h0) ops v) as [[zs h2] [v2|a ssw v2]]; cbn in *.
    + destruct IH as (s2 & -> & ?). eauto.
    + intros E. destruct (IH E) as (s2 & -> & ?). eauto.
  - intros E. destruct (Hs (Hn E)) as (s' & -> & ?). eauto.
Qed.
End tables.

(** ** The search of the tables *)

Section searches.
Context `{ram_config}.

(** The same translation, from the tables as they are now. *)
Lemma xlate_same r m0 m x : tables_same r m0 m → xlate r m x = xlate r m0 x.
Proof.
  intros Hs. pose proof (ts_1 _ _ _ Hs x) as E1. unfold xlate. destruct (mmu_match_ttr _ _ _ _); try done. destruct (negb _); [done|].
  assert (rooted r m x = rooted r m0 x) as Er by (by apply (lor_eq_bit _ _ _ _ E1)). unfold resident, mapped. rewrite Er.
  destruct (rooted r m0 x) eqn:Hr; [|done]. pose proof (ts_2 _ _ _ Hs x Hr) as E2.
  assert (a2 r m x = a2 r m0 x) as Ea2 by (unfold a2; f_equal; by apply (lor_eq_land _ _ _ _ E1)). rewrite Ea2, (lor_eq_bit _ _ _ 1 E2) by done.
  destruct (Z.testbit (long m0 (a2 r m0 x)) 1) eqn:Hb; [|done]. assert (mapped r m0 x = true) as Hx by (unfold mapped; by rewrite Hr, Hb). cbn [andb].
  assert (a3 r m x = a3 r m0 x) as Ea3 by (unfold a3, page_desc_addr; rewrite Ea2; destruct (mmu_pagesize_8k r); f_equal; by apply (lor_eq_land _ _ _ _ E2)).
  destruct (indirect_same r m0 x m Hs Hx) as [Ei Ev].
  assert (a4 r m x = a4 r m0 x) as Ea4 by (unfold a4; rewrite Ea3, Ei; destruct (Z.eqb_spec (long m0 (a3 r m0 x) .& 3) 2); [by rewrite Ev|done]).
  rewrite Ea4. destruct (Z.testbit (long m0 (a4 r m0 x)) 0) eqn:E0.
  - destruct (ts_page _ _ _ Hs x Hx E0) as [Ep _]. rewrite (lor_eq_bit _ _ _ 0 Ep), E0 by done. cbn [andb].
    pose proof (page_desc_bits r m0 x m Hs Hx E0) as Ed.
    assert (desc r m x = long m (a4 r m0 x) .| inherited r m0 x) as Ee
      by (unfold desc; rewrite Ea4; f_equal; rewrite <- (inherited_same r m0 x m m E1 E2), <- Ea2; done). rewrite <- Ee in Ed.
    rewrite (lor_eq_bit _ _ _ 7 Ed), (lor_eq_bit _ _ _ 2 Ed) by done. by rewrite (lor_eq_land _ _ _ (page_mask r) Ed) by (unfold page_mask; by destruct (mmu_pagesize_8k r)).
  - by rewrite (ts_invalid _ _ _ Hs x Hx E0), E0.
Qed.

(** C15: the search of the translation tables (mmu_lookup_pagetable).  With tables in memory
    ([tables_ok]) whose page descriptors are apart from the others, and in which a page
    descriptor that is reached on several paths inherits the same write protection on each of
    them ([tk_shared]), it returns the page descriptor of the address with the write protection
    of all three levels (an invalid one when a level is missing), up to the used and modified
    bits; those are recorded in memory, the modified bit on the way to a write to a page that is
    not protected.  Nothing else in memory changes, and no address is translated differently
    afterwards.  Without [tk_shared] the last fails: the code writes the inherited protection
    into the page descriptor, which protects the page on its other paths too
    ([protection_spreads] in MmuRun). *)
Theorem table_search (su : bool) (addr : Z) (write : bool) (s : mmu) :
  tables_ok s.(regs) s.(ram) →
  let x := (su, addr) in
  ∃ d m, mmu_lookup_pagetable addr su write s = MOk d (s_ram m s)
    ∧ (if resident s.(regs) s.(ram) x
       then d .| 0x18 = desc s.(regs) s.(ram) x .| 0x18 ∧ recorded s.(regs) s.(ram) x d write m
       else Z.testbit d 0 = false)
    ∧ same_outside s.(regs) s.(ram) s.(ram) m
    ∧ ∀ y, xlate s.(regs) m y = xlate s.(regs) s.(ram) y.
Proof.
  intros Hok x. destruct (search_spec _ _ x write s Hok) as (d & m & E & [Hs Ho] & Hd); [by split|apply tables_same_refl|].
  exists d, m. split_and!; [done..|]. intros y. by apply xlate_same.
Qed.

End searches.
