(* ===== verification/MmuRun.v ===== *)
(** * The memory management unit in use

    From a reset and the setting of its registers on, the MMU is a fixed translation of
    addresses (the main theorem, for the model of [Mmu] and the tables of [MmuSpec]); then
    tables as an example, and the accesses for which it is not. *)

From S2P Require Import Prelude Ram Mmu MmuSpec.

Notation long := do_get_mem_long.

Section start.
Context `{ram_config}.

(** ** Reset *)

(** Empty caches. *)
Definition cold (s : mmu) : Prop :=
  (∀ i, 0 <= i < 2048 → (lget s.(atc_l1) i).(tag) = 0x8000 ∧ (lget s.(atc_l1) i).(hw) = false)
  ∧ ∀ i, 0 <= i < 8192 → (lget s.(atc_l2) i).(tag) = 0x8000.

(** The setting of the MMU's registers. *)
Fixpoint movecs (l : list (Z * Z)) : M unit :=
  match l with [] => mret tt | (regno, v) :: l => m68k_move2c regno v;; movecs l end.

Definition power_on (s : mmu) : Prop := s.(atc_l1) = ∅ ∧ s.(atc_l2) = ∅.

Lemma flush_cold s : no_hw s → ∃ s', mmu_flush_atc_all true s = MOk tt s' ∧ cold s' ∧ s'.(current_atc) = s.(current_atc).
Proof.
  intros Hn. eexists. split; [reflexivity|]. split; [|done]. split; intros i Hi; cbn; rewrite flush_array_lget by lia; [|done]. split; [done|]. by apply Hn.
Qed.

Lemma cold_no_hw s : cold s → no_hw s.
Proof. intros [H1 _] i Hi. by apply H1. Qed.

Lemma cold_regs f s : cold s → cold (s_regs f s).
Proof. done. Qed.

Lemma reset_cold s : power_on s → ∃ s', mmu_reset s = MOk tt s' ∧ cold s' ∧ s'.(current_atc) = s.(current_atc).
Proof.
  intros [E1 E2]. destruct (flush_cold s) as (s' & E & Hc & Ec). { intros i _. rewrite E1. unfold lget. by rewrite lookup_empty. }
  unfold mmu_reset, mbind, M_bind. rewrite E. eexists. split; [reflexivity|]. by split; [apply cold_regs|].
Qed.

Lemma move2c_cold regno v s s' : cold s → m68k_move2c regno v s = MOk tt s' → cold s' ∧ s'.(current_atc) = s.(current_atc).
Proof.
  intros Hc. unfold m68k_move2c, mmu_set_ttr, m_set, m_stop. repeat (destruct (_ =? _); cbn [orb]); try destruct (_ && _); try (by intros [= <-]); try done.
  unfold mmu_set_tc. unfold mbind at 1, M_bind at 1. unfold m_reg. destruct (_ =? _); [by intros [= <-]|]. unfold m_set, mbind, M_bind.
  match goal with |- mmu_flush_atc_all true ?s1 = _ → _ => destruct (flush_cold s1) as (s2 & -> & ? & ?) end; [by apply cold_no_hw, cold_regs|]. by intros [= <-].
Qed.

Lemma movecs_cold l : ∀ s s', cold s → movecs l s = MOk tt s' → cold s' ∧ s'.(current_atc) = s.(current_atc).
Proof.
  induction l as [|[regno v] l IH]; intros s s' Hc; cbn; [by intros [= <-]|]. unfold mbind, M_bind.
  destruct (m68k_move2c regno v s) as [[] s1| | |] eqn:E; try done. destruct (move2c_cold _ _ _ _ Hc E) as [Hc1 E1]. intros E2.
  destruct (IH _ _ Hc1 E2) as [? E3]. split; [done|congruence].
Qed.

Lemma cold_coherent D s : cold s → coherent s.(regs) s.(ram) D s.
Proof.
  intros [H1 H2]. split; [by split|apply tables_same_refl|..].
  - intros x Hx. pose proof (tag_range _ Hx). rewrite H2 by apply slot2_range. lia.
  - intros x d w _ Hx. pose proof (tag_range _ Hx). rewrite (proj1 (H1 _ (slot1_range x d w))). lia.
  - intros x d w _ Hx. pose proof (tag_range _ Hx). rewrite (proj1 (H1 _ (slot1_range x d w))), lnot_tag by done. lia.
Qed.

(** ** The refinement *)

Definition view_of (s : mmu) : view := mk_view s.(regs).(supervisor) s.(regs).(sfc) s.(regs).(dfc) s.(ram).

(** C5: address translation is transparent, up to the first access that fails.  After a reset
    and settings of the registers of the MMU by MOVEC, a program of loads, stores, instruction
    fetches, MOVES in both directions, PFLUSH and changes of mode reads and writes exactly the
    memory, and exactly the registers of the chips, that the translation tables say: the values
    it reads, the accesses of the chips in their order, and the memory at the end (up to the
    descriptors' used and modified bits) are those of a machine with a fixed translation and no
    caches.  An access that the tables do not allow ends with the exception, the address and the
    special status word of the specification, with memory as before it, provided that the program
    has not accessed registers of the chips before.

    The conditions, most of them because the code is wrong without them:
    - the transparent translation registers for instructions and for data match the same
      addresses ([ttr_alike]; see [transparent_data_blocks_fetch]);
    - the tables are in memory, their page descriptors apart from the others, and a page
      descriptor that is reached on several paths inherits the same write protection on all of
      them ([tables_ok] with [tk_shared]; see [protection_spreads]);
    - the program does not access the tables, its accesses do not cross a page, its stores are
      not to page 0 (see [low_memory_unprotected]);
    - with pages of 8192 bytes every PFLUSH is one of all entries (see [pflush_8k]);
    - the mode of the caches is the CPU's mode at the beginning;
    - nothing is claimed of what follows a failed access (see [fault_spoils_line]). *)
Theorem translation_transparent (device : list hw_access → Z) (setup : list (Z * Z)) (ops : list op) (s0 s : mmu) :
  power_on s0 →
  (mmu_reset;; movecs setup) s0 = MOk tt s →
  s.(regs).(supervisor) = s.(current_atc) →
  ram_aligned → tables_ok s.(regs) s.(ram) → ttr_alike s.(regs) →
  run_ok s.(regs) s.(ram) ops (view_of s) →
  run_result s.(regs) s.(ram) [] (ref_run s.(regs) s.(ram) device [] ops (view_of s)) (run device [] ops s).
Proof.
  intros Hp E Es Hra Hok Hal Hro. unfold mbind, M_bind in E. destruct (reset_cold s0 Hp) as (s1 & E1 & Hc1 & _). rewrite E1 in E.
  destruct (movecs_cold setup s1 s Hc1 E) as [Hc _]. apply run_refines; try done; [|by intros _; apply cold_no_hw|by exists []].
  split; try done. by apply cold_coherent.
Qed.

End start.

(** ** An example *)

#[local] Instance example_ram : ram_config := {| FastRAM_SIZE := 0; VideoRAMBase := 0xf0000000 |}.

(** A root table at 0x2000, a pointer table at 0x2200 and a page table at 0x2400 with pages in
    memory, one of them protected and one the supervisor's, and one of the chips' registers. *)
Definition example_desc (t : Z) : Z :=
  if t =? 0x2000 then 0x2202 else if t =? 0x2200 then 0x2402
  else if t =? 0x2414 then 0x8001 else if t =? 0x2418 then 0x9005 else if t =? 0x241c then 0x00fff001 else if t =? 0x2420 then 0xa081 else 0.

Definition example_mem : gmap Z Z :=
  foldr (λ t m, do_put_mem_long t (example_desc t) m) ∅ [0x2000; 0x2200; 0x2414; 0x2418; 0x241c; 0x2420].

Definition example_regs : cpu_regs := mk_regs true 1 5 0 0 0 false false 0 0 0 0 0 0 0 0 0.
Definition example_off : mmu := mk_mmu example_regs example_mem ∅ ∅ true.
Definition example_setup : list (Z * Z) := [(0x806, 0x2000); (0x807, 0x2000); (3, 0x8000)].
Definition example_on : cpu_regs := mk_regs true 1 5 0x2000 0x2000 0x8000 true false 0 0 0 0 0 0 0 0 0.
(** Flushed by the reset and by the setting of the translation control register. *)
Definition example : mmu :=
  mk_mmu example_on example_mem (flush_array 2048 true (flush_array 2048 true ∅)) (flush_array 8192 true (flush_array 8192 true ∅)) true.

Lemma example_started : (mmu_reset;; movecs example_setup) example_off = MOk tt example.
Proof.
  unfold mmu_reset, mmu_flush_atc_all, example, example_off. generalize example_mem as m. intros m. set (e1 := flush_array 2048 true ∅). set (e2 := flush_array 8192 true ∅).
  cbn -[flush_array e1 e2]. fold e1 e2. unfold mmu_flush_atc_all. cbn -[flush_array e1 e2]. reflexivity.
Qed.

Lemma example_long t : t mod 4 = 0 → long example_mem t = example_desc t.
Proof.
  intros Ht. unfold example_mem. cbn [foldr]. unfold example_desc at 7.
  repeat (case Z.eqb_spec; [intros ->; repeat (rewrite get_put_long_ne by lia); apply get_put_long|intros ?; rewrite get_put_long_ne by (Z.div_mod_to_equations; lia)]).
  done.
Qed.

(** The descriptors of all addresses. *)
Lemma table_offset base k z mask : 0 <= k → base mod 2 ^ k = 0 → 0 <= mask < 2 ^ k → mask mod 4 = 0 →
  base mod 4 = 0 → base <= base .| (z .& mask) < base + 2 ^ k ∧ (base .| (z .& mask)) mod 4 = 0.
Proof.
  intros Hk Hb Hm Hm4 Hb4. assert (0 <= z .& mask < 2 ^ k) as Hz by (apply in_u_land_r; done). rewrite (lor_add _ _ k) by done. split; [lia|].
  assert ((z .& mask) mod 4 = 0) as E; [|rewrite Zplus_mod, Hb4, E; done]. change 4 with (2 ^ 2). rewrite <- Z.land_ones, <- Z.land_assoc by lia.
  replace (mask .& Z.ones 2) with 0; [apply Z.land_0_r|]. rewrite Z.land_ones by lia. done.
Qed.

Lemma example_1 x : 0x2000 <= a1 example_on x < 0x2200 ∧ a1 example_on x mod 4 = 0.
Proof. unfold a1, root_ptr. destruct x as [[] a]; apply (table_offset 0x2000 9); done || lia. Qed.

Lemma example_rooted x : rooted example_on example_mem x = true → a1 example_on x = 0x2000 ∧ long example_mem (a1 example_on x) = 0x2202.
Proof.
  pose proof (example_1 x) as [Hr Hm]. unfold rooted. rewrite example_long by done. unfold example_desc. case Z.eqb_spec; [by intros -> _|]. intros _.
  repeat (case Z.eqb_spec; [lia|intros _]). done.
Qed.

Lemma example_2 x : rooted example_on example_mem x = true →
  0x2200 <= a2 example_on example_mem x < 0x2400 ∧ a2 example_on example_mem x mod 4 = 0.
Proof. intros [_ E]%example_rooted. unfold a2. rewrite E. apply (table_offset 0x2200 9); done || lia. Qed.

Lemma example_mapped x : mapped example_on example_mem x = true →
  rooted example_on example_mem x = true ∧ a2 example_on example_mem x = 0x2200 ∧ long example_mem (a2 example_on example_mem x) = 0x2402.
Proof.
  intros Hx. pose proof (mapped_rooted _ _ _ Hx) as Hr. pose proof (example_2 x Hr) as [Hb Hm]. unfold mapped in Hx. rewrite Hr, example_long in * by done. split; [done|].
  revert Hx. unfold example_desc. case Z.eqb_spec; [lia|intros _]. case Z.eqb_spec; [by intros -> _|]. intros _. repeat (case Z.eqb_spec; [lia|intros _]). done.
Qed.

Lemma example_3 x : mapped example_on example_mem x = true →
  0x2400 <= a3 example_on example_mem x < 0x2500 ∧ a4 example_on example_mem x = a3 example_on example_mem x.
Proof.
  intros (_ & _ & E)%example_mapped.
  assert (0x2400 <= a3 example_on example_mem x < 0x2400 + 2 ^ 8 ∧ a3 example_on example_mem x mod 4 = 0) as [Hb Hm]
    by (unfold a3; rewrite E; apply (table_offset 0x2400 8); done || lia).
  split; [done|]. unfold a4. rewrite example_long by done. unfold example_desc. repeat match goal with |- context [a3 ?r ?m ?y =? ?c] => destruct (Z.eqb_spec (a3 r m y) c); [lia || done|] end.
  done.
Qed.

Lemma example_usable a : 0x2000 <= a < 0x2600 → usable a.
Proof.
  intros Ha. split_and!; [lia| |].
  - unfold is_hardware. replace (a .& 0xfff00000) with 0; [done|]. symmetry. rewrite (hw_region a 0x2000 0xfff00000); [done| |done]. rewrite !shr12. Z.div_mod_to_equations. lia.
  - unfold test_ram_boundary. change (FastRAM_BEGIN + FastRAM_SIZE - 4) with 0xfffffc. change (STRAM_END - 4) with 0xdffffc.
    replace (a <=? 0xfffffc) with true by lia. replace (8 <=? a) with true by lia. replace (a <=? 0xdffffc) with true by lia. by rewrite orb_true_r.
Qed.

Lemma example_tables : tables_ok example_on example_mem.
Proof.
  split.
  - intros x. apply example_usable. pose proof (example_1 x). lia.
  - intros x Hx. apply example_usable. pose proof (example_2 x Hx). lia.
  - intros x Hx. destruct (example_3 x Hx) as [? ->]. split; apply example_usable; lia.
  - intros x y Hy. destruct (example_3 y Hy) as [? ->]. pose proof (example_1 x). lia.
  - intros x y Hx Hy. destruct (example_3 y Hy) as [? ->]. pose proof (example_2 x Hx). lia.
  - intros x y (Hx & _ & E)%example_mapped (Hy & _ & E')%example_mapped _. unfold inherited.
    destruct (example_rooted x Hx) as [_ ->], (example_rooted y Hy) as [_ ->]. by rewrite E, E'.
Qed.

Lemma example_outside b : 0x2600 <= b → outside example_on example_mem b.
Proof.
  intros Hb t [(x & ->)|[(x & Hx & ->)|(x & Hx & Ht)]].
  - pose proof (example_1 x). lia.
  - pose proof (example_2 x Hx). lia.
  - destruct (example_3 x Hx) as [? E]. destruct Ht as [-> | ->]; lia.
Qed.

Lemma example_plain x sz : (∀ off wp, xlate example_on example_mem x = Some (off, wp) → 0x2600 <= u32 (x.2 + off)) → plain example_on example_mem x sz.
Proof.
  intros Hx w pa. unfold reaches. destruct (xlate example_on example_mem x) as [[off wp]|]; [|done]. specialize (Hx off wp eq_refl).
  destruct (w && wp); [done|]. cbv zeta. repeat (destruct (_ =? _); [done|]). destruct (test_ram_boundary _ 1 w); [|done].
  intros [= <-] b Hb. apply example_outside. lia.
Qed.

(** An access of the example is as it should be. *)
Ltac example_target := let E := fresh in intros ?? E; vm_compute in E; first [discriminate E|injection E as <- <-; vm_compute; done].
Ltac example_access := split; [split; [by vm_compute|by vm_compute]|]; try (split; [|example_target]); apply example_plain; example_target.

Lemma example_aligned : ram_aligned.
Proof. by vm_compute. Qed.

Definition example_ops : list op :=
  [Store sz_long 0x5004 0x12345678; Load sz_word 0x5006; Moves_load sz_byte 0x5005; Move_to_sr 0; Fetch sz_word 0x5000 4;
   Load sz_long 0x7010; Pflush (λ _, 0x5000) 0x508; Store sz_byte 0x5004 0xff; Load sz_long 0x5004; Load sz_byte 0x6000].

Definition example_view : view := mk_view true 1 5 example_mem.

Lemma run_ok_step o ops v : op_ok example_on example_mem v o →
  (let rep := ref_step example_on example_mem v o in match rep with Done _ v => run_ok example_on example_mem ops v | Device _ => run_ok example_on example_mem ops v | Fault _ _ => True end) →
  run_ok example_on example_mem (o :: ops) v.
Proof. done. Qed.

Ltac example_steps :=
  repeat (apply run_ok_step; [unfold op_ok; cbn [what]; first [example_access|done]|intros rep; vm_compute in rep; unfold rep; clear rep]).

Lemma example_run_ok : run_ok example_on example_mem example_ops example_view.
Proof. unfold example_ops, example_view. example_steps. done. Qed.

(** The example writes to page 5, reads it back in several ways and both modes, and reads a
    register of the chips. *)
Lemma translation_transparent_witness :
  ∃ s, run (λ _, 42) [] example_ops example
       = ([0; 0x5678; 0x34; 0; 0x1234; 42; 0; 0; 0xff345678; 0], [HWget sz_long 0x00fff010], Returned s)
    ∧ aget s.(ram) 0x8004 = 0xff.
Proof.
  assert (run_result example_on example_mem [] (ref_run example_on example_mem (λ _, 42) [] example_ops example_view) (run (λ _, 42) [] example_ops example)) as H.
  { apply (translation_transparent (λ _, 42) example_setup example_ops example_off example); [done|apply example_started|done|apply example_aligned|apply example_tables|done|apply example_run_ok]. }
  revert H. generalize (run (λ _, 42) [] example_ops example). intros res.
  set (ref := ref_run _ _ _ _ _ _). vm_compute in ref. unfold ref, run_result. intros (s & -> & Hs). exists s. split; [done|].
  rewrite (se_mem _ _ _ _ Hs); [done|]. by apply example_outside.
Defined.

Lemma table_search_witness :
  ∃ d m, mmu_lookup_pagetable 0x5004 true true example = MOk d (s_ram m example)
    ∧ d .| 0x18 = 0x8019 ∧ Z.testbit (long m 0x2414) 3 = true ∧ Z.testbit (long m 0x2414) 4 = true ∧ xlate example_on m (false, 0x5004) = Some (0x3000, false).
Proof.
  destruct (table_search true 0x5004 true example example_tables) as (d & m & E & Hd & Ho & Hx). exists d, m. split; [done|].
  change (d .| 0x18 = 0x8019 ∧ recorded example_on example_mem (true, 0x5004) d true m) in Hd. destruct Hd as (Hd & Hb & H3 & H4). split; [done|].
  change (long m 0x2414) with (long m (a4 example_on example_mem (true, 0x5004))). rewrite !Hb by auto. split_and!; [done|by apply H4|apply Hx].
Defined.

(** ** Where the MMU is not transparent *)

(** A row of lines, one for each kind of access. *)
Lemma flush_row_spec `{ram_config} l i g s : l = 0 ∨ l = 1024 → 0 <= i < 256 →
  ∃ s', flush_l1_row l i g s = MOk (l + 1024) s' ∧ s'.(regs) = s.(regs)
    ∧ ∀ j, lget s'.(atc_l1) j = if decide (l <= j < l + 1024 ∧ j mod 256 = i) then flush_line g (lget s.(atc_l1) j) else lget s.(atc_l1) j.
Proof.
  intros Hl Hi. unfold flush_l1_row, ATC_L1_SIZE, mbind, M_bind. do 4 rewrite upd_l1_eq by lia. eexists. split; [reflexivity|]. split; [done|].
  intros j. cbn [with_l1 s_atc_l1 atc_l1].
  case_decide as Hj.
  - assert (j = l + i ∨ j = l + 256 + i ∨ j = l + 2 * 256 + i ∨ j = l + 3 * 256 + i) as Hc by (Z.div_mod_to_equations; lia).
    destruct Hc as [->|[->|[->| ->]]]; repeat (rewrite lget_insert || rewrite lget_insert_ne by lia); done.
  - repeat rewrite lget_insert_ne by (intros <-; apply Hj; Z.div_mod_to_equations; lia). done.
Qed.

(** C39: PFLUSH of one page with pages of 8192 bytes.  The pointer into the first level is not
    set back before the second half of the page: for the supervisor's address space the lines
    behind the array are written, and for the user's the supervisor's lines are emptied while
    the user's lines of the second half stay. *)
Theorem pflush_8k `{ram_config} (a : Z) (g : bool) (s : mmu) :
  s.(regs).(mmu_pagesize_8k) = true →
  mmu_flush_atc a true g s = MStop ArrayBounds
  ∧ ∃ s', mmu_flush_atc a false g s = MOk tt s'
    ∧ ∀ d w, let i := ATC_L1_INDEX a .^ 1 in
        lget s'.(atc_l1) (l1_slot false d w i) = lget s.(atc_l1) (l1_slot false d w i)
        ∧ lget s'.(atc_l1) (l1_slot true d w i) = flush_line g (lget s.(atc_l1) (l1_slot true d w i)).
Proof.
  intros H8. pose proof (L1_index_range a) as Hi. assert (0 <= ATC_L1_INDEX a .^ 1 < 256 ∧ ATC_L1_INDEX a .^ 1 ≠ ATC_L1_INDEX a) as [Hj Hne].
  { split; [by apply (in_u_lxor 8)|]. intros E. apply (f_equal (λ z, Z.testbit z 0)) in E. rewrite Z.lxor_spec in E. by destruct (Z.testbit (ATC_L1_INDEX a) 0). }
  split; unfold mmu_flush_atc; unfold mbind at 1, M_bind at 1.
  - destruct (flush_row_spec 1024 (ATC_L1_INDEX a) g s) as (s1 & E1 & Er & _); [auto..|]. change (l1_base true) with 1024. rewrite E1.
    unfold mbind at 1, M_bind at 1, m_reg. rewrite Er, H8. cbn [m_when]. unfold mbind, M_bind, flush_l1_row, upd_l1.
    by replace ((0 <=? 1024 + 1024 + ATC_L1_INDEX a .^ 1) && (1024 + 1024 + ATC_L1_INDEX a .^ 1 <? 2048)) with false by lia.
  - destruct (flush_row_spec 0 (ATC_L1_INDEX a) g s) as (s1 & E1 & Er & H1); [auto..|]. change (l1_base false) with 0. rewrite E1.
    destruct (flush_row_spec 1024 (ATC_L1_INDEX a .^ 1) g s1) as (s2 & E2 & Er2 & H2); [auto..|].
    unfold mbind at 1, M_bind at 1, m_reg. rewrite Er, H8. cbn [m_when]. unfold mbind, M_bind, mret, M_ret. change (0 + 1024) with 1024. rewrite E2.
    cbv beta iota.
    pose proof (L2_index_range a) as Hk. assert (0 <= ATC_L2_INDEX a .^ 1 < 4096) as Hk1 by (by apply (in_u_lxor 12)).
    rewrite !upd_l2_eq by (apply l2_slot_range; done). eexists. split; [reflexivity|]. intros d w. cbv zeta. cbn [with_l2 s_atc_l2 atc_l1].
    assert (∀ su, l1_slot su d w (ATC_L1_INDEX a .^ 1) mod 256 = ATC_L1_INDEX a .^ 1 ∧ l1_base su <= l1_slot su d w (ATC_L1_INDEX a .^ 1) < l1_base su + 1024) as Hs.
    { intros su. unfold l1_slot, l1_base. split; [|destruct su, d, w; cbn; lia].
      replace (b2z su * 1024 + b2z d * 512 + b2z w * 256 + ATC_L1_INDEX a .^ 1) with (ATC_L1_INDEX a .^ 1 + (b2z su * 4 + b2z d * 2 + b2z w) * 256) by lia.
      rewrite Z.mod_add by lia. by apply Z.mod_small. }
    destruct (Hs false) as [Em Eb], (Hs true) as [Em' Eb']. change (l1_base false) with 0 in Eb. change (l1_base true) with 1024 in Eb'. rewrite !H2.
    rewrite decide_False, decide_True, !H1 by lia. by rewrite !decide_False by lia.
Qed.

Lemma pflush_8k_witness : mmu_flush_atc 0x5000 true true (s_regs (r_mmu_pagesize_8k true example_on) example) = MStop ArrayBounds.
Proof. apply (pflush_8k 0x5000 true (s_regs (r_mmu_pagesize_8k true example_on) example)). reflexivity. Defined.

(** C40: an access that fails because its page is not resident spoils a line of the first level
    that is another page's: its tag is inverted.  If that page is in memory, the next access to
    it ends with an access error, although it is resident and was in the cache; if the line is
    for registers of the chips, the failed access itself is done on such a register. *)
Theorem fault_spoils_line `{ram_config} (x y : bool * Z) (data : bool) (sz size : wordsizes) (s : mmu) :
  u32_addr x.2 → u32_addr y.2 → slot1 x data false = slot1 y data false → ATC_TAG x.2 ≠ ATC_TAG y.2 →
  (lget s.(atc_l2) (slot2 y)).(tag) = ATC_TAG y.2 →
  (if data then valid_data else valid_inst) (lget s.(atc_l2) (slot2 y)) = false →
  let l := lget s.(atc_l1) (slot1 x data false) in
  (l.(tag) = ATC_TAG x.2 → l.(hw) = false →
   ∃ s' s'', mmu_get_user sz y.2 y.1 data size s = MThrow s' ∧ mmu_get_user sz x.2 x.1 data size s' = MThrow s'')
  ∧ (l.(tag) = u16 (Z.lnot (ATC_TAG x.2)) → l.(hw) = true →
     ∃ s', mmu_get_user sz y.2 y.1 data size s = MHardware (HWget sz (u32 (l.(phys) + y.2))) s').
Proof.
  intros Hx Hy Es Et H2 Hv. cbv zeta. set (i := slot1 x data false) in *. set (l := lget s.(atc_l1) i).
  pose proof (slot1_range x data false) as Hi. fold i in Hi. pose proof (tag_range _ Hx). pose proof (tag_range _ Hy).
  assert (mmu_fill_atc_l1 y.2 y.1 data false i s = MOk false (with_l1 i (l_tag (u16 (Z.lnot l.(tag))) l) s)) as Hfill.
  { unfold mmu_fill_atc_l1. cbv zeta. fold (slot2 y). unfold mbind, M_bind. rewrite get_l2_eq, H2, Z.eqb_refl by apply slot2_range. cbn [negb m_when fill_checks].
    unfold mret, M_ret, mbind, M_bind. fold (slot2 y). rewrite get_l2_eq by apply slot2_range. replace (if data then _ else _) with false by (by destruct data). by apply fill_fail_eq. }
  assert (l.(tag) = ATC_TAG x.2 ∨ l.(tag) = u16 (Z.lnot (ATC_TAG x.2)) →
    mmu_get_user sz y.2 y.1 data size s = get_redo sz y.2 y.1 data size i (with_l1 i (l_tag (u16 (Z.lnot l.(tag))) l) s)) as Hy'.
  { intros Hc. rewrite get_user_eq, <- Es. fold i. cbv zeta. fold l. rewrite lnot_tag in Hc |- * by done.
    rewrite (proj2 (Z.eqb_neq l.(tag) _)), (proj2 (Z.eqb_neq l.(tag) _)) by lia. by rewrite Hfill. }
  split; intros Etag Eh; rewrite Hy' by auto; unfold get_redo at 1; unfold mbind at 1, M_bind at 1; rewrite get_l1_eq, lget_with_l1 by done; cbn [l_tag hw phys]; rewrite Eh.
  - match goal with |- context [mmu_bus_error _ _ _ _ ?s1] => destruct (bus_error_spec (A:=Z) y data false size s1) as (s' & -> & _ & _ & _ & E1) end.
    exists s'. rewrite get_user_eq. fold i. cbv zeta. rewrite E1, lget_with_l1. cbn [l_tag tag]. rewrite Etag, Z.eqb_refl. rewrite lnot_tag by done.
    rewrite (proj2 (Z.eqb_neq _ _)) by lia. unfold get_redo, mbind, M_bind. rewrite get_l1_eq, E1, lget_with_l1 by done. cbn [l_tag hw]. rewrite Eh.
    destruct (bus_error_spec (A:=Z) x data false size s') as (s2 & -> & _). by exists s2.
  - by eexists.
Qed.

(** The example with empty lines for some pages only, as it is enough when no others are used. *)
Definition empty_lines (l : list Z) : gmap Z mmu_atc_line := foldr (λ i m, <[i := l_tag 0x8000 zero_line]> m) ∅ l.

Definition example_for (pages : list Z) (r : cpu_regs) (m : gmap Z Z) : mmu :=
  mk_mmu r m
    (empty_lines (pages ≫= λ a, [l1_slot true false false (ATC_L1_INDEX a); l1_slot true true false (ATC_L1_INDEX a); l1_slot true true true (ATC_L1_INDEX a)]))
    (empty_lines (pages ≫= λ a, [l2_slot true (ATC_L2_INDEX a)])) true.

(** Pages 0x005 and 0x105 have one line; the second one is not resident. *)
Definition example_after (ops : list op) (s : mmu) : mmu :=
  match run (λ _, 0) [] ops s with (_, _, Returned s) => s | (_, _, Thrown s) => s | _ => s end.
Definition example_cached : mmu := example_after [Load sz_long 0x5000] (example_after [Load sz_long 0x105000] (example_for [0x5000; 0x105000] example_on example_mem)).

Lemma fault_spoils_line_witness :
  ∃ s' s'', mmu_get_user sz_long 0x105000 true true sz_long example_cached = MThrow s' ∧ mmu_get_user sz_long 0x5000 true true sz_long s' = MThrow s''.
Proof.
  apply (fault_spoils_line (true, 0x5000) (true, 0x105000) true sz_long sz_long example_cached);
    [by vm_compute|by vm_compute|by vm_compute|by vm_compute|vm_compute; reflexivity..].
Defined.

(** Three more, on the example: whether a program ends with an access error. *)
Definition fails (ops : list op) (s : mmu) : bool := match run (λ _, 0) [] ops s with (_, _, Thrown _) => true | _ => false end.

(** The first level does not know that the bytes 0 to 7 cannot be written: after a store to the
    same page they can. *)
Definition example_untranslated : mmu := example_for [0] (r_mmu_enabled false example_on) example_mem.

Lemma low_memory_unprotected :
  fails [Store sz_byte 4 1] example_untranslated = true
  ∧ fails [Store sz_byte 16 1; Store sz_byte 4 1] example_untranslated = false ∧ aget (example_after [Store sz_byte 16 1; Store sz_byte 4 1] example_untranslated).(ram) 4 = 1.
Proof. by vm_compute. Qed.

(** The table search writes the write protection of the upper levels into the page descriptor:
    a page that is protected on one path is then protected on all. *)
Definition example_shared : mmu :=
  example_for [0x5000; 0x45000] example_on (do_put_mem_long 0x2200 0x2406 (do_put_mem_long 0x2204 0x2402 example_mem)).

Lemma protection_spreads :
  fails [Store sz_byte 0x45000 1] example_shared = false ∧ fails [Load sz_byte 0x5000] example_shared = false
  ∧ fails [Load sz_byte 0x5000; Store sz_byte 0x45000 1] example_shared = true.
Proof. by vm_compute. Qed.

(** A line of the second level that was filled from a transparent translation register for data
    is not valid for instructions, and the tables are not searched for it: after a load from its
    page, fetching an instruction from there fails. *)
Definition example_dtt : mmu := example_for [0x5000] (r_dtt0 0xc000 example_on) example_mem.

Lemma transparent_data_blocks_fetch :
  fails [Fetch sz_word 0x5000 0] example_dtt = false ∧ fails [Load sz_word 0x5000] example_dtt = false
  ∧ fails [Load sz_word 0x5000; Fetch sz_word 0x5000 0] example_dtt = true.
Proof. by vm_compute. Qed.
