(* ===== verification/RtcSpec.v ===== *)
(** * The settings survive

    The checksum is right after every start, no access leaves the chip's memory, and what one
    session writes the next one reads. *)

From S2P Require Import Prelude Rtc.

(** ** Sessions *)

(** The CPU's accesses; a byte is written. *)
Inductive rtc_access := RtcRead (now : tm) (addr : Z) | RtcWrite (addr value : Z).

Fixpoint rtc_session (l : list rtc_access) (s : rtc) : rtc :=
  match l with
  | [] => s
  | RtcRead now addr :: l => rtc_session l (rtc_handleRead now addr s).2
  | RtcWrite addr value :: l => rtc_session l (rtc_handleWrite addr (u8 value) s)
  end.

(** What the CPU reads as byte [i]. *)
Definition rtc_peek (now : tm) (i : Z) (s : rtc) : Z := (rtc_handleRead now (rtc_offset + 3) (rtc_handleWrite (rtc_offset + 1) i s)).1.

Definition power_on : rtc := mk_rtc (copy_bytes 0 nvram_init ∅) 0 true.

Record rtc_ok (s : rtc) : Prop := { ro_index : 0 <= s.(index) < 64; ro_nvram : acells (in_u 8) s.(nvram) }.

(** The test of the operating system. *)
Definition checksum_ok (read : Z → Z) : Prop :=
  let sum := foldr Z.add 0 (map read cks_range) in read CKS_LOC = 255 - sum mod 256 ∧ read (CKS_LOC + 1) = sum mod 256.

(** The bytes that options change. *)
Definition patched (o : rtc_options) (i : Z) : Prop :=
  (i = 29 ∧ (o.(monitor) ≠ -1 ∨ o.(boot_color_depth) ≠ -1)) ∨ ((i = 20 ∨ i = 21) ∧ o.(cookie_akp) ≠ -1).

Lemma copy_bytes_get l : ∀ i j m, aget (copy_bytes i l m) j = if decide (i <= j < i + Z.of_nat (length l)) then l !!! Z.to_nat (j - i) else aget m j.
Proof.
  induction l as [|b l IH]; intros i j m; cbn [copy_bytes length]; [by rewrite decide_False by lia|]. rewrite IH, aget_aset.
  destruct (decide (i = j)) as [->|Hne].
  - rewrite decide_False, decide_True by lia. by rewrite Z.sub_diag.
  - case_decide; [rewrite decide_True by lia|by rewrite decide_False by lia]. by replace (Z.to_nat (j - i)) with (S (Z.to_nat (j - (i + 1)))) by lia.
Qed.

Lemma copy_bytes_cells (P : Z → Prop) l : ∀ i m, Forall P l → acells P m → acells P (copy_bytes i l m).
Proof. induction l as [|b l IH]; intros i m Hl Hm; [done|]. apply Forall_cons in Hl as [? ?]. apply IH; [done|]. by apply acells_aset. Qed.

(** The sum of bytes modulo 256. *)
Lemma sum_mod (l : list Z) (m : gmap Z Z) : ∀ s, foldl (λ sum i, u8 (sum + aget m i)) (u8 s) l = (s + foldr Z.add 0 (map (aget m) l)) mod 256.
Proof.
  induction l as [|i l IH]; intros s; cbn [foldl foldr map]; [by rewrite Z.add_0_r|].
  replace (u8 (u8 s + aget m i)) with (u8 (s + aget m i)) by (unfold u8; by rewrite Zplus_mod_idemp_l). rewrite IH. by rewrite Z.add_assoc.
Qed.

Lemma cks_range_elem i : i ∈ cks_range ↔ 14 <= i < 62.
Proof. unfold cks_range. rewrite elem_of_seqZ. change CKS_RANGE_LEN with 48. change CKS_RANGE_START with 14. lia. Qed.

Lemma setChecksum_get s i : 14 <= i < 62 → aget (setChecksum s).(nvram) i = aget s.(nvram) i.
Proof. intros Hi. cbn. by rewrite !aget_aset_ne by (unfold CKS_LOC; lia). Qed.

Lemma setChecksum_sum s :
  let sum := foldr Z.add 0 (map (aget s.(nvram)) cks_range) in
  aget (setChecksum s).(nvram) 62 = 255 - sum mod 256 ∧ aget (setChecksum s).(nvram) 63 = sum mod 256.
Proof.
  cbv zeta. unfold setChecksum. cbv zeta. pose proof (sum_mod cks_range s.(nvram) 0) as E. change (u8 0) with 0 in E. rewrite Z.add_0_l in E.
  cbn [t_nvram nvram]. change (CKS_LOC + 1) with 63. change CKS_LOC with 62. rewrite aget_aset_eq, aget_aset_ne, aget_aset_eq, E by lia. split; [|done].
  pose proof (Z.mod_pos_bound (foldr Z.add 0 (map (aget s.(nvram)) cks_range)) 256). unfold u8, Z.lnot. rewrite <- (Z.mod_unique_pos _ 256 (-1) (255 - foldr Z.add 0 (map (aget s.(nvram)) cks_range) mod 256)); lia.
Qed.

Lemma patch_other o m i : 14 <= i < 62 → ¬ patched o i → aget (patch_country o (patch_depth o (patch_monitor o m))) i = aget m i.
Proof.
  intros Hi Hp. unfold patched in Hp. unfold patch_country, NVRAM_SYSTEM_LANGUAGE, NVRAM_KEYBOARD_LAYOUT.
  assert (aget (patch_monitor o m) i = aget m i) as E1.
  { unfold patch_monitor. destruct (Z.eqb_spec (monitor o) (-1)); [done|]. destruct (_ =? 0); rewrite aget_aset_ne; (done || lia). }
  assert (aget (patch_depth o (patch_monitor o m)) i = aget m i) as E2.
  { unfold patch_depth. destruct (Z.eqb_spec (boot_color_depth o) (-1)); [done|]. rewrite aget_aset_ne; (done || lia). }
  destruct (Z.eqb_spec (cookie_akp o) (-1)); [done|]. rewrite !aget_aset_ne; (done || lia).
Qed.

Lemma patch_cells o m : acells (in_u 8) m → acells (in_u 8) (patch_country o (patch_depth o (patch_monitor o m))).
Proof.
  intros Hm. assert (acells (in_u 8) (patch_monitor o m)) as H1.
  { unfold patch_monitor. destruct (_ =? -1); [done|]. destruct (_ =? 0); apply acells_aset; try done;
      [apply in_u_lor; [apply Hm|done|done]|apply in_u_land_l; [apply Hm|done]]. }
  assert (acells (in_u 8) (patch_depth o (patch_monitor o m))) as H2.
  { unfold patch_depth. destruct (_ =? -1); [done|]. apply acells_aset; [done|]. cbv zeta. apply in_u_lor; [by apply in_u_land_l; [apply H1|]| |done].
    repeat (destruct (_ =? _); [done|]). by apply in_u_land_r. }
  unfold patch_country. destruct (_ =? -1); [done|]. by repeat apply acells_aset; [..|apply in_u_land_r|apply in_u_land_r].
Qed.

Lemma patch_monitor_bit o m : o.(monitor) ≠ -1 → Z.testbit (aget (patch_country o (patch_depth o (patch_monitor o m))) 29) 4 = (o.(monitor) =? 0).
Proof.
  intros Ho. assert (Z.testbit (aget (patch_monitor o m) 29) 4 = (o.(monitor) =? 0)) as E1.
  { unfold patch_monitor. rewrite (proj2 (Z.eqb_neq _ _) Ho). destruct (_ =? 0); rewrite aget_aset_eq, ?Z.lor_spec, ?Z.land_spec; [apply orb_true_r|apply andb_false_r]. }
  assert (Z.testbit (aget (patch_depth o (patch_monitor o m)) 29) 4 = (o.(monitor) =? 0)) as E2.
  { unfold patch_depth. destruct (_ =? -1); [done|]. rewrite aget_aset_eq. cbv zeta. rewrite Z.lor_spec, Z.land_spec, E1. cbn [Z.lnot].
    replace (Z.testbit (Z.lnot 7) 4) with true by done. rewrite andb_true_r.
    repeat (destruct (_ =? _) at 2; [apply orb_false_r|]). rewrite Z.land_spec. rewrite andb_false_r. apply orb_false_r. }
  unfold patch_country, NVRAM_SYSTEM_LANGUAGE, NVRAM_KEYBOARD_LAYOUT. destruct (_ =? -1); [done|]. by rewrite !aget_aset_ne by lia.
Qed.

Lemma setChecksum_cells s : acells (in_u 8) s.(nvram) → acells (in_u 8) (setChecksum s).(nvram).
Proof.
  intros Hs. unfold setChecksum. cbv zeta. cbn [t_nvram nvram]. pose proof (sum_mod cks_range s.(nvram) 0) as E. change (u8 0) with 0 in E. rewrite E.
  apply acells_aset; [apply acells_aset; [done|]|]; apply Z.mod_pos_bound; done.
Qed.

Lemma boot_ok o file s : acells (in_u 8) s.(nvram) → from_option (Forall (in_u 8)) True file → rtc_ok (rtc_boot o file s).
Proof.
  intros Hs Hf. split; [done|]. cbn [rtc_boot rtc_reset nvram]. unfold rtc_boot, rtc_reset. cbv zeta. cbn [nvram]. apply setChecksum_cells. cbn [t_nvram nvram]. apply patch_cells.
  unfold load. destruct file as [l|]; [|done]. case_match; [|done]. cbn. apply copy_bytes_cells; [by apply Forall_take|done].
Qed.

Lemma access_ok s : rtc_ok s →
  (∀ now addr, rtc_ok (rtc_handleRead now addr s).2) ∧ (∀ addr v, rtc_ok (rtc_handleWrite addr (u8 v) s)).
Proof.
  intros [Hi Hn]. assert (∀ v, 0 <= u8 v < 256) as Hv by (intros; by apply Z.mod_pos_bound). split.
  - intros now addr. unfold rtc_handleRead, getData. cbv zeta. repeat case_match; by split.
  - intros addr v. unfold rtc_handleWrite, setAddr, setData. cbv zeta. destruct (_ <? _); [done|]. destruct (_ =? 1).
    + destruct (Z.ltb_spec (u8 v) 64); [|done]. split; [|done]. cbn. specialize (Hv v). lia.
    + destruct (_ =? 3); [|done]. split; [done|]. cbn. apply acells_aset; [done|]. apply Hv.
Qed.

Lemma session_ok l : ∀ s, rtc_ok s → rtc_ok (rtc_session l s).
Proof. induction l as [|[now addr|addr v] l IH]; intros s Hs; [done|apply IH, access_ok, Hs..]. Qed.

(** Bytes from 11 on are memory. *)
Lemma peek_memory now i s : 11 <= i < 64 → rtc_peek now i s = aget s.(nvram) i.
Proof.
  intros Hi. unfold rtc_peek, rtc_handleRead, rtc_handleWrite. rewrite !Z.add_simpl_l. change (u32 3) with 3. change (u32 1) with 1. cbn [Z.ltb Z.compare Pos.compare rtc_size Pos.compare_cont Z.eqb Pos.eqb].
  unfold setAddr, getData. rewrite (proj2 (Z.ltb_lt i 64)) by lia. cbn [index nvram].
  by rewrite !(proj2 (Z.eqb_neq i _)), (proj2 (Z.leb_gt i 9)), andb_false_r by lia.
Qed.

Lemma power_on_cells : acells (in_u 8) power_on.(nvram).
Proof. apply copy_bytes_cells; [|by apply acells_empty]. by repeat constructor. Qed.

Lemma checksum_peek now o file s : checksum_ok (λ i, rtc_peek now i (rtc_boot o file s)).
Proof.
  set (s1 := t_nvram (patch_country o (patch_depth o (patch_monitor o (load file s).2.(nvram)))) (load file s).2).
  assert (∀ i, 11 <= i < 64 → rtc_peek now i (rtc_boot o file s) = aget (setChecksum s1).(nvram) i) as E by (intros i Hi; by rewrite peek_memory by done).
  unfold checksum_ok. cbv zeta. rewrite !E by (unfold CKS_LOC; lia). change (CKS_LOC + 1) with 63. change CKS_LOC with 62.
  rewrite (map_ext_in _ (aget s1.(nvram))); [apply (setChecksum_sum s1)|]. intros i Hi%list_elem_of_In%cks_range_elem.
  rewrite E by lia. by apply setChecksum_get.
Qed.

(** A saved file is loaded again. *)
Lemma load_saved s s0 : ∃ m, load (save (Some CKS_RANGE_LEN) s).2 s0 = (true, t_nvram m s0) ∧ (∀ i, 14 <= i < 62 → aget m i = aget s.(nvram) i).
Proof.
  assert (length (map (aget s.(nvram)) cks_range) = 48%nat) as Hl by (rewrite length_map; reflexivity).
  unfold save, load. cbn [snd]. change (Z.to_nat CKS_RANGE_LEN) with 48%nat. rewrite firstn_all2 by lia. rewrite Hl. change (CKS_RANGE_LEN <=? Z.of_nat 48) with true. cbv iota.
  rewrite firstn_all2 by lia. eexists. split; [reflexivity|]. intros i Hi. rewrite copy_bytes_get, Hl. change CKS_RANGE_START with 14. rewrite decide_True by lia.
  apply list_lookup_total_correct. change (map (aget s.(nvram)) cks_range) with (aget s.(nvram) <$> cks_range). rewrite list_lookup_fmap. unfold cks_range. change CKS_RANGE_START with 14. change CKS_RANGE_LEN with 48.
  rewrite lookup_seqZ_lt by lia. cbn. do 2 f_equal. lia.
Qed.

(** C36: settings survive.  Whatever the CPU does with the registers of the clock chip in one
    session, after the settings are saved and the emulator is started again with any options
    the file is read, every byte of the settings that no option sets reads as it did at the end
    of the session, the options' bytes read as the options say, and the checksum that the
    operating system tests is right. *)
Theorem nvram_survives (o o' : rtc_options) (file : option (list Z)) (l : list rtc_access) (now now' : tm) :
  from_option (Forall (in_u 8)) True file →
  let s := rtc_session l (rtc_boot o file power_on) in
  let file' := (save (Some CKS_RANGE_LEN) s).2 in
  let s' := rtc_boot o' file' power_on in
  rtc_ok s ∧ rtc_ok s' ∧ (load file' power_on).1 = true
  ∧ (∀ i, 14 <= i < 62 → ¬ patched o' i → rtc_peek now' i s' = rtc_peek now i s)
  ∧ (o'.(cookie_akp) ≠ -1 → rtc_peek now' 20 s' = o'.(cookie_akp) .& 0xff ∧ getNvramKeyboard s' = (o'.(cookie_akp) ≫ 8) .& 0xff)
  ∧ (o'.(monitor) ≠ -1 → Z.testbit (rtc_peek now' 29 s') 4 = (o'.(monitor) =? 0))
  ∧ checksum_ok (λ i, rtc_peek now' i s').
Proof.
  intros Hf s file' s'. assert (rtc_ok s) as Hs by (apply session_ok, boot_ok; [apply power_on_cells|done]).
  destruct (load_saved s power_on) as (m & El & Hm). fold file' in El.
  assert (∀ i, 14 <= i < 62 → aget s'.(nvram) i = aget (patch_country o' (patch_depth o' (patch_monitor o' m))) i) as Hp.
  { intros i Hi. unfold s', rtc_boot. rewrite El. unfold rtc_reset, patch. cbn [snd]. cbv zeta. cbn [nvram]. by rewrite setChecksum_get. }
  split; [done|]. split; [apply boot_ok; [apply power_on_cells|]|].
  { cbn. apply Forall_take, Forall_forall. intros b Hb. change (b ∈ aget s.(nvram) <$> cks_range) in Hb. apply list_elem_of_fmap in Hb as (i & -> & _). apply Hs. }
  split; [by rewrite El|]. split; [|split; [|split]].
  - intros i Hi Hn. rewrite !peek_memory, Hp, patch_other, Hm by (done || lia). done.
  - intros Ho. unfold getNvramKeyboard, NVRAM_KEYBOARD_LAYOUT. rewrite peek_memory, !Hp by lia. unfold patch_country, NVRAM_SYSTEM_LANGUAGE, NVRAM_KEYBOARD_LAYOUT.
    rewrite (proj2 (Z.eqb_neq _ _) Ho). by rewrite aget_aset_ne, !aget_aset_eq.
  - intros Ho. rewrite peek_memory, Hp by lia. apply patch_monitor_bit. done.
  - apply checksum_peek.
Qed.

(** A session that sets the language, and a second one that has it. *)
Lemma nvram_survives_witness :
  let o := mk_options 0 (-1) (-1) in let now := mk_tm 30 15 12 24 11 120 in
  let s := rtc_session [RtcWrite 0xff8961 20; RtcWrite 0xff8963 3; RtcWrite 0xff8961 0; RtcRead now 0xff8963] (rtc_boot o None power_on) in
  let s' := rtc_boot o (save (Some CKS_RANGE_LEN) s).2 power_on in
  rtc_peek now 20 s' = 3 ∧ Z.testbit (rtc_peek now 29 s') 4 = true.
Proof.
  intros o now s s'.
  destruct (nvram_survives o o None [RtcWrite 0xff8961 20; RtcWrite 0xff8963 3; RtcWrite 0xff8961 0; RtcRead now 0xff8963] now now I) as (_ & _ & _ & H & _ & Hm & _).
  split; [|apply Hm; done]. unfold s', s. rewrite H; [vm_compute; reflexivity|lia|]. unfold patched. cbn. lia.
Defined.
