(* ===== verification/ShiftSpec.v ===== *)
(** * Shifts and rotations of the 68040

    The eight shifts and rotations by a count ([Insn]) do at once what the manual describes as
    [count] steps of one bit: the reference is the repeated step, with its carry, extend and
    overflow. *)

From S2P Require Import Prelude Ram Mmu Cpu MulDiv Insn Handlers.

(** ** The reference *)

Inductive shift_kind := kASR | kASL | kLSR | kLSL | kROR | kROL | kROXR | kROXL.

Record shifted := mk_shifted { sval : Z; scarry : bool; sextend : bool; soverflow : bool }.

(** One step on an operand of [n] bits. *)
Definition shift_step (k : shift_kind) (n : Z) (s : shifted) : shifted :=
  let v := s.(sval) in let x := s.(sextend) in
  let top := Z.testbit v (n - 1) in let low := Z.testbit v 0 in
  let left b := (2 * v) mod 2 ^ n + b2z b in
  let right b := v / 2 + b2z b * 2 ^ (n - 1) in
  match k with
  | kASR => mk_shifted (right top) low low false
  | kASL => mk_shifted (left false) top top (s.(soverflow) || xorb top (Z.testbit (left false) (n - 1)))
  | kLSR => mk_shifted (right false) low low false
  | kLSL => mk_shifted (left false) top top false
  | kROR => mk_shifted (right low) low x false
  | kROL => mk_shifted (left top) top x false
  | kROXR => mk_shifted (right x) low low false
  | kROXL => mk_shifted (left x) top top false
  end.

(** Without a step the carry is clear, or a copy of the extend bit. *)
Definition shift_start (k : shift_kind) (v : Z) (x : bool) : shifted :=
  mk_shifted v (match k with kROXR | kROXL => x | _ => false end) x false.

Definition shift_ref (k : shift_kind) (n v : Z) (x : bool) (count : nat) : shifted :=
  Nat.iter count (shift_step k n) (shift_start k v x).

Definition shift_op `{host} (k : shift_kind) : bool → wordsizes → Z → Z → C Z :=
  match k with
  | kASR => ASR | kASL => ASL | kLSR => LSR | kLSL => LSL | kROR => ROR | kROL => ROL | kROXR => ROXR | kROXL => ROXL
  end.

(** A shift of 32 bits by 32 places gives 0 or the operand on the hosts in use. *)
Definition host_shifts `{host} : Prop :=
  ∀ x, (shr32 x = 0 ∨ shr32 x = x) ∧ (shl32 x = 0 ∨ shl32 x = x).

Definition with_flags (x n z v cf : bool) (c : cpu) : cpu := c_xflg x (c_nflg n (c_zflg z (c_vflg v (c_cflg cf c)))).

(** ** Bits *)

Lemma size_pos sz : bit_size sz = 8 ∨ bit_size sz = 16 ∨ bit_size sz = 32.
Proof. destruct sz; auto. Qed.

Lemma zx_range sz x : 0 <= zx sz x < 2 ^ bit_size sz.
Proof. unfold zx. apply Z.mod_pos_bound. by destruct sz. Qed.

Lemma testbit_range n v i : 0 <= v < 2 ^ n → n <= i → 0 <= n → Z.testbit v i = false.
Proof. intros Hv Hi Hn. by apply (proj1 (in_u_bits n v Hn)). Qed.

Lemma testbit_left n v b i : 0 < n → 0 <= i < n →
  Z.testbit ((2 * v) mod 2 ^ n + b2z b) i = if i =? 0 then b else Z.testbit v (i - 1).
Proof.
  intros Hn Hi.
  assert ((2 * v) mod 2 ^ n + b2z b = (2 * v + b2z b) mod 2 ^ n) as ->.
  { replace (2 ^ n) with (2 * 2 ^ (n - 1)) by (rewrite <- Z.pow_succ_r by lia; f_equal; lia).
    pose proof (Z.pow_pos_nonneg 2 (n - 1)). rewrite (Z.rem_mul_r (2 * v + b2z b)) by lia.
    rewrite Z.mul_mod_distr_l by lia.
    replace ((2 * v + b2z b) mod 2) with (b2z b) by (destruct b; cbn; Z.div_mod_to_equations; lia).
    replace ((2 * v + b2z b) / 2) with v by (destruct b; cbn; Z.div_mod_to_equations; lia). lia. }
  rewrite Z.mod_pow2_bits_low by lia.
  destruct (Z.eqb_spec i 0) as [->|].
  - destruct b; cbn [b2z]; [apply Z.testbit_odd_0 | rewrite Z.add_0_r; apply Z.testbit_even_0].
  - replace i with (Z.succ (i - 1)) at 1 by lia.
    destruct b; cbn [b2z]; [apply Z.testbit_odd_succ; lia | rewrite Z.add_0_r; apply Z.testbit_even_succ; lia].
Qed.

Lemma left_range n v b : 0 < n → 0 <= (2 * v) mod 2 ^ n + b2z b < 2 ^ n.
Proof.
  intros Hn.
  assert (((2 * v) mod 2 ^ n) mod 2 = 0).
  { replace (2 ^ n) with (2 * 2 ^ (n - 1)) by (rewrite <- Z.pow_succ_r by lia; f_equal; lia).
    rewrite Z.mul_mod_distr_l by (pose proof (Z.pow_pos_nonneg 2 (n - 1)); lia). Z.div_mod_to_equations; lia. }
  assert (2 ^ n mod 2 = 0).
  { replace (2 ^ n) with (2 ^ (n - 1) * 2) by (rewrite Z.mul_comm, <- Z.pow_succ_r by lia; f_equal; lia). apply Z.mod_mul; lia. }
  pose proof (Z.mod_pos_bound (2 * v) (2 ^ n) ltac:(apply Z.pow_pos_nonneg; lia)).
  destruct b; cbn [b2z]; Z.div_mod_to_equations; lia.
Qed.

Lemma testbit_right n v b i : 0 < n → 0 <= v < 2 ^ n → 0 <= i < n →
  Z.testbit (v / 2 + b2z b * 2 ^ (n - 1)) i = if i =? n - 1 then b else Z.testbit v (i + 1).
Proof.
  intros Hn Hv Hi.
  assert (2 ^ n = 2 * 2 ^ (n - 1)) as E by (rewrite <- Z.pow_succ_r by lia; f_equal; lia).
  assert (0 <= v / 2 < 2 ^ (n - 1)) by (Z.div_mod_to_equations; lia).
  rewrite Z.add_comm, <- (lor_add _ _ (n - 1)) by (lia || by rewrite Z.mod_mul by lia).
  change (v / 2) with (v / 2 ^ 1). rewrite Z.lor_spec, Z.mul_pow2_bits, Z.div_pow2_bits by lia.
  destruct (Z.eqb_spec i (n - 1)) as [->|].
  - rewrite Z.sub_diag, (testbit_range n v) by lia. rewrite orb_false_r. by destruct b.
  - by rewrite (Z.testbit_neg_r (b2z b)) by lia.
Qed.

Lemma right_range n v b : 0 < n → 0 <= v < 2 ^ n → 0 <= v / 2 + b2z b * 2 ^ (n - 1) < 2 ^ n.
Proof.
  intros Hn Hv. assert (2 ^ n = 2 * 2 ^ (n - 1)) as E by (rewrite <- Z.pow_succ_r by lia; f_equal; lia).
  destruct b; cbn [b2z]; Z.div_mod_to_equations; lia.
Qed.

(** Two values of [n] bits with the same bits. *)
Lemma bits_eq n v w : 0 <= n → 0 <= v < 2 ^ n → 0 <= w < 2 ^ n →
  (∀ i, 0 <= i < n → Z.testbit v i = Z.testbit w i) → v = w.
Proof.
  intros Hn Hv Hw E. apply Z.bits_inj'. intros i Hi. destruct (decide (i < n)); [auto with lia|].
  by rewrite !(testbit_range n) by lia.
Qed.

(** ** The bits after some steps *)

(** The bit [i] of the operand extended by X at the top. *)
Definition ext_bit (n v : Z) (x : bool) (i : Z) : bool := if i =? n then x else Z.testbit v i.

Definition ref_bit (k : shift_kind) (n v : Z) (x : bool) (m i : Z) : bool :=
  match k with
  | kASR => Z.testbit v (Z.min (i + m) (n - 1))
  | kLSR => Z.testbit v (i + m)
  | kASL | kLSL => Z.testbit v (i - m)
  | kROR => Z.testbit v ((i + m) mod n)
  | kROL => Z.testbit v ((i - m) mod n)
  | kROXR => ext_bit n v x ((i + m) mod (n + 1))
  | kROXL => ext_bit n v x ((i - m) mod (n + 1))
  end.

Definition goes_left (k : shift_kind) : bool := match k with kASL | kLSL | kROL | kROXL => true | _ => false end.

(** The bit that leaves at step [m]. *)
Definition ref_out (k : shift_kind) (n v : Z) (x : bool) (m : Z) : bool :=
  ref_bit k n v x (m - 1) (if goes_left k then n - 1 else 0).

Definition ref_extend (k : shift_kind) (n v : Z) (x : bool) (m : Z) : bool :=
  match k with kROR | kROL => x | _ => if m =? 0 then x else ref_out k n v x m end.

(** The overflow of an arithmetic shift to the left: the bits that have been at the top differ. *)
Definition ref_overflow (k : shift_kind) (n v m : Z) : bool :=
  match k with kASL => existsb (λ j, xorb (Z.testbit v (n - j)) (Z.testbit v (n - 1 - j))) (seqZ 1 m) | _ => false end.

Record after (k : shift_kind) (n v : Z) (x : bool) (m : Z) (s : shifted) : Prop := {
  after_range : 0 <= s.(sval) < 2 ^ n;
  after_bits : ∀ i, 0 <= i < n → Z.testbit s.(sval) i = ref_bit k n v x m i;
  after_carry : s.(scarry) = if m =? 0 then (shift_start k v x).(scarry) else ref_out k n v x m;
  after_extend : s.(sextend) = ref_extend k n v x m;
  after_overflow : s.(soverflow) = ref_overflow k n v m }.

Lemma mod_eq a b n : 0 < n → (∃ q, a = b + q * n) → a mod n = b mod n.
Proof. intros Hn [q ->]. apply Z.mod_add. lia. Qed.

Lemma seqZ_snoc m : 0 <= m → seqZ 1 (m + 1) = seqZ 1 m ++ [m + 1].
Proof. intros. rewrite seqZ_app by lia. f_equal. rewrite (seqZ_cons _ 1) by lia. cbn. f_equal. lia. Qed.

(** The bit the next step brings in. *)
Definition fill_bit (k : shift_kind) (n : Z) (s : shifted) : bool :=
  match k with
  | kASR | kROL => Z.testbit s.(sval) (n - 1)
  | kROR => Z.testbit s.(sval) 0
  | kROXR | kROXL => s.(sextend)
  | _ => false
  end.

Lemma step_val k n s : sval (shift_step k n s) =
  if goes_left k then (2 * s.(sval)) mod 2 ^ n + b2z (fill_bit k n s) else s.(sval) / 2 + b2z (fill_bit k n s) * 2 ^ (n - 1).
Proof. by destruct k. Qed.

Lemma fill_ref k n v x m s : 1 < n → 0 <= m → 0 <= v < 2 ^ n → after k n v x m s →
  fill_bit k n s = ref_bit k n v x (m + 1) (if goes_left k then 0 else n - 1).
Proof.
  intros Hn Hm Hv A. pose proof (after_bits _ _ _ _ _ _ A) as Hb. pose proof (after_extend _ _ _ _ _ _ A) as Hx.
  destruct k; cbn [goes_left fill_bit] in *; rewrite ?Hb, ?Hx by lia; cbn [ref_bit ref_extend].
  - f_equal; lia.
  - by rewrite Z.testbit_neg_r by lia.
  - by rewrite (testbit_range n) by lia.
  - by rewrite Z.testbit_neg_r by lia.
  - f_equal. apply mod_eq; [lia|]. exists (-1). lia.
  - f_equal. apply mod_eq; [lia|]. exists 1. lia.
  - destruct (Z.eqb_spec m 0) as [->|].
    + unfold ext_bit. rewrite (Z.mod_small (n - 1 + (0 + 1))) by lia. by rewrite (proj2 (Z.eqb_eq _ _)) by lia.
    + unfold ref_out; cbn [ref_bit goes_left]. f_equal. apply mod_eq; [lia|]. exists (-1). lia.
  - destruct (Z.eqb_spec m 0) as [->|].
    + unfold ext_bit. replace ((0 - (0 + 1)) mod (n + 1)) with n; [by rewrite Z.eqb_refl|].
      apply (Z.mod_unique_pos _ _ (-1)); lia.
    + unfold ref_out; cbn [ref_bit goes_left]. f_equal. apply mod_eq; [lia|]. exists 1. lia.
Qed.

Lemma ref_bit_move k n v x m i : ref_bit k n v x (m + 1) i = ref_bit k n v x m (if goes_left k then i - 1 else i + 1).
Proof. destruct k; cbn [ref_bit goes_left]; repeat (f_equal; try lia). Qed.

Lemma step_after k n v x m s : 1 < n → 0 <= m → 0 <= v < 2 ^ n → after k n v x m s → after k n v x (m + 1) (shift_step k n s).
Proof.
  intros Hn Hm Hv A. pose proof (fill_ref _ _ _ _ _ _ Hn Hm Hv A) as Hf.
  destruct A as [Hr Hb Hc Hx Ho].
  assert (∀ i, 0 <= i < n → Z.testbit (sval (shift_step k n s)) i = ref_bit k n v x (m + 1) i) as HB.
  { intros i Hi. rewrite step_val. destruct (goes_left k) eqn:G.
    - rewrite testbit_left by lia. destruct (Z.eqb_spec i 0) as [->|]; [done|].
      rewrite Hb by lia. by rewrite ref_bit_move, G.
    - rewrite testbit_right by lia. destruct (Z.eqb_spec i (n - 1)) as [->|]; [done|].
      rewrite Hb by lia. by rewrite ref_bit_move, G. }
  assert (scarry (shift_step k n s) = ref_out k n v x (m + 1)) as HC.
  { unfold ref_out. replace (m + 1 - 1) with m by lia. destruct k; cbn [goes_left]; rewrite <- Hb by lia; done. }
  split; [| exact HB | | |].
  - rewrite step_val. destruct (goes_left k); [apply left_range | apply right_range]; lia.
  - rewrite (proj2 (Z.eqb_neq _ _)) by lia. exact HC.
  - unfold ref_extend. rewrite (proj2 (Z.eqb_neq (m + 1) 0)) by lia. rewrite <- HC.
    destruct k; try reflexivity; cbn; by rewrite Hx.
  - destruct k; try reflexivity. cbn [ref_overflow]. rewrite seqZ_snoc, existsb_app by lia. cbn [existsb].
    rewrite orb_false_r. pose proof (HB (n - 1) ltac:(lia)) as HT. pose proof (Hb (n - 1) ltac:(lia)) as HT0.
    cbn [ref_bit] in HT, HT0. cbn [shift_step soverflow sval] in *. rewrite Ho, HT, HT0. cbn [ref_overflow].
    f_equal. f_equal; f_equal; lia.
Qed.

Lemma ref_after k n v x count : 1 < n → 0 <= v < 2 ^ n → after k n v x (Z.of_nat count) (shift_ref k n v x count).
Proof.
  intros Hn Hv. induction count as [|m IH].
  - split; cbn [shift_ref Nat.iter shift_start sval scarry sextend soverflow]; auto.
    + intros i Hi. destruct k; cbn [ref_bit Z.of_nat]; rewrite ?Z.add_0_r, ?Z.sub_0_r, ?Z.mod_small by lia; auto.
      * f_equal; lia.
      * unfold ext_bit. by rewrite (proj2 (Z.eqb_neq _ _)) by lia.
      * unfold ext_bit. by rewrite (proj2 (Z.eqb_neq _ _)) by lia.
    + by destruct k.
    + by destruct k.
  - rewrite Nat2Z.inj_succ. apply step_after; auto; lia.
Qed.

(** ** The code *)

Lemma bit_mask_ones sz : bit_mask sz = Z.ones (bit_size sz).
Proof. by destruct sz. Qed.
Lemma cmask_bit sz : cmask sz = 1 ≪ (bit_size sz - 1).
Proof. by destruct sz. Qed.

Lemma land_63 x : x .& 63 = x mod 64.
Proof. by apply (land_ones_const x 63 6). Qed.

Lemma testbit_u32 x i : 0 <= i < 32 → Z.testbit (u32 x) i = Z.testbit x i.
Proof. intros. unfold u32. change 4294967296 with (2 ^ 32). by apply Z.mod_pow2_bits_low; lia. Qed.

Lemma testbit_mask sz i : 0 <= i → Z.testbit (bit_mask sz) i = (i <? bit_size sz).
Proof. intros. rewrite bit_mask_ones. destruct sz; apply Z.testbit_ones_nonneg; cbn; lia. Qed.

Lemma testbit_all b i : 0 <= i < 32 → Z.testbit (u32 (- b2z b)) i = b.
Proof.
  intros. destruct b; [|apply Z.bits_0]. change (u32 (- b2z true)) with (Z.ones 32).
  rewrite Z.testbit_ones_nonneg by lia. lia.
Qed.

Lemma mask_range sz x : 0 <= x .& bit_mask sz < 2 ^ bit_size sz.
Proof. rewrite bit_mask_ones, Z.land_ones by by destruct sz. apply Z.mod_pos_bound. by destruct sz. Qed.

Lemma top_bit sz v : (v .& cmask sz) ≫ (bit_size sz - 1) = b2z (Z.testbit v (bit_size sz - 1)).
Proof.
  assert (0 <= bit_size sz - 1) by (destruct sz; cbn; lia).
  rewrite cmask_bit, land_pow2, shr_div, Z.div_mul by lia. done.
Qed.

Lemma low_bit v : nz (v .& 1) = Z.testbit v 0.
Proof. by apply (nz_land_bit v 0). Qed.
Lemma nz_b2z b : nz (b2z b) = b.
Proof. by destruct b. Qed.

Lemma sx_sign sz v : 0 <= v < 2 ^ bit_size sz → (sx sz v <? 0) = Z.testbit v (bit_size sz - 1).
Proof.
  intros Hv. unfold sx, signed. rewrite testbit_top by (destruct sz; cbn in *; lia).
  destruct sz; cbn [bit_size Z.sub Z.opp Z.add Z.pos_sub] in *; Z.div_mod_to_equations; lia.
Qed.
Lemma sx_zero sz v : 0 <= v < 2 ^ bit_size sz → (sx sz v =? 0) = (v =? 0).
Proof. intros Hv. unfold sx, signed. destruct sz; cbn in *; Z.div_mod_to_equations; lia. Qed.

Section code.
Context `{host}.

(** What a shift by [m] leaves. *)
Definition shift_result (k : shift_kind) (sz : wordsizes) (data : Z) (m : Z) (c : cpu) : cres Z :=
  let s := shift_ref k (bit_size sz) (zx sz data) c.(xflg) (Z.to_nat m) in
  COk s.(sval) (with_flags s.(sextend) (Z.testbit s.(sval) (bit_size sz - 1)) (s.(sval) =? 0) s.(soverflow) s.(scarry) c).

Lemma result_intro k sz data m val x v cf c :
  0 <= m → 0 <= val < 2 ^ bit_size sz →
  (∀ i, 0 <= i < bit_size sz → Z.testbit val i = ref_bit k (bit_size sz) (zx sz data) c.(xflg) m i) →
  x = ref_extend k (bit_size sz) (zx sz data) c.(xflg) m →
  v = ref_overflow k (bit_size sz) (zx sz data) m →
  cf = (if m =? 0 then (shift_start k (zx sz data) c.(xflg)).(scarry) else ref_out k (bit_size sz) (zx sz data) c.(xflg) m) →
  COk val (with_flags x (sx sz val <? 0) (sx sz val =? 0) v cf c) = shift_result k sz data m c.
Proof.
  intros Hm Hval Hb Hx Hv Hc. unfold shift_result.
  pose proof (ref_after k (bit_size sz) (zx sz data) c.(xflg) (Z.to_nat m) ltac:(destruct sz; cbn; lia) (zx_range sz data)) as A.
  rewrite Z2Nat.id in A by lia. destruct A as [Ar Ab Ac Ax Ao].
  assert (sval (shift_ref k (bit_size sz) (zx sz data) (xflg c) (Z.to_nat m)) = val) as E.
  { apply (bits_eq (bit_size sz)); auto; [by destruct sz|]. intros i Hi. by rewrite Ab, Hb. }
  rewrite Ac, Ax, Ao, E, sx_sign, sx_zero by done. by rewrite Hx, Hv, Hc.
Qed.

(** With at least one step. *)
Lemma result_steps k sz data m val v cf c :
  0 < m → 0 <= val < 2 ^ bit_size sz →
  (∀ i, 0 <= i < bit_size sz → Z.testbit val i = ref_bit k (bit_size sz) (zx sz data) c.(xflg) m i) →
  v = ref_overflow k (bit_size sz) (zx sz data) m →
  cf = ref_out k (bit_size sz) (zx sz data) c.(xflg) m →
  COk val (with_flags (match k with kROR | kROL => c.(xflg) | _ => cf end) (sx sz val <? 0) (sx sz val =? 0) v cf c)
  = shift_result k sz data m c.
Proof.
  intros Hm Hval Hb Hv Hc. apply result_intro; auto; [lia | |].
  - unfold ref_extend. rewrite (proj2 (Z.eqb_neq m 0)) by lia. by destruct k.
  - by rewrite (proj2 (Z.eqb_neq m 0)) by lia.
Qed.

(** Without one. *)
Lemma result_none k sz data c : let v := zx sz data in
  COk v (with_flags c.(xflg) (sx sz v <? 0) (sx sz v =? 0) false (shift_start k v c.(xflg)).(scarry) c) = shift_result k sz data 0 c.
Proof.
  intros v. pose proof (zx_range sz data) as Hv.
  unfold shift_result. change (Z.to_nat 0) with O. cbn [shift_ref Nat.iter shift_start sval scarry sextend soverflow]. fold v.
  by rewrite sx_sign, sx_zero by done.
Qed.

Lemma shift_count (imm1_8 : bool) cnt : (imm1_8 = true → 1 <= cnt <= 8) → imm1_8 || (0 <? cnt mod 64) = (0 <? cnt mod 64).
Proof. intros Hi. destruct imm1_8; [|done]. specialize (Hi eq_refl). rewrite Z.mod_small by lia. lia. Qed.

(** The start of each proof: the operand [v] of [n] bits and the count [m]. *)
Ltac shift_intro :=
  intros Hi; rewrite land_63, ?shift_count by done;
  match goal with |- context [zx ?sz ?data] =>
    pose proof (zx_range sz data) as Hv;
    assert (1 < bit_size sz <= 32) as Hn by (destruct sz; cbn; lia) end;
  match goal with |- context [?cnt mod 64] =>
    pose proof (Z.mod_pos_bound cnt 64 ltac:(lia)) as Hm end.
Ltac step_count := match goal with |- context [0 <? ?m] => destruct (Z.ltb_spec 0 m) as [Hp|Hp] end.
Ltac no_step := match goal with |- context [shift_result _ _ _ ?m _] => replace m with 0 by lia end; rewrite <- result_none; by match goal with c : cpu |- _ => destruct c end.
Ltac in_word := rewrite (proj2 (Z.ltb_lt _ _)) by lia.

Lemma ASR_ok imm1_8 sz data cnt c : (imm1_8 = true → 1 <= cnt <= 8) → ASR imm1_8 sz data cnt c = shift_result kASR sz data (cnt mod 64) c.
Proof.
  unfold ASR. shift_intro. rewrite (Z.land_comm (cmask sz)), top_bit, nz_b2z.
  destruct (Z.leb_spec (bit_size sz) (cnt mod 64)); [|step_count; [|no_step]].
  - rewrite <- (result_steps _ _ _ _ (bit_mask sz .& u32 (- b2z (Z.testbit (zx sz data) (bit_size sz - 1)))) false (Z.testbit (zx sz data) (bit_size sz - 1))); try done.
    + lia.
    + rewrite Z.land_comm. apply mask_range.
    + intros i Hb. rewrite Z.land_spec, testbit_mask, testbit_all by lia. in_word. cbn. f_equal. lia.
    + unfold ref_out; cbn. f_equal; lia.
  - rewrite <- (result_steps _ _ _ _
      ((((zx sz data ≫ (cnt mod 64 - 1)) ≫ 1) .| (u32 (bit_mask sz ≪ (bit_size sz - cnt mod 64)) .& u32 (- b2z (Z.testbit (zx sz data) (bit_size sz - 1))))) .& bit_mask sz)
      false (nz ((zx sz data ≫ (cnt mod 64 - 1)) .& 1))); try done.
    + apply mask_range.
    + intros i Hb. rewrite Z.land_spec, Z.lor_spec, Z.land_spec, testbit_mask, testbit_all, testbit_u32, !Z.shiftr_spec, Z.shiftl_spec by lia.
      in_word. rewrite andb_true_r. cbn [ref_bit]. destruct (decide (i + cnt mod 64 < bit_size sz)).
      * rewrite (Z.testbit_neg_r (bit_mask sz)), orb_false_r by lia. f_equal. lia.
      * rewrite (testbit_range _ _ _ Hv), testbit_mask by lia. in_word. cbn. f_equal. lia.
    + rewrite low_bit, Z.shiftr_spec by lia. unfold ref_out; cbn. f_equal; lia.
Qed.

Lemma LSR_ok imm1_8 sz data cnt c : (imm1_8 = true → 1 <= cnt <= 8) → LSR imm1_8 sz data cnt c = shift_result kLSR sz data (cnt mod 64) c.
Proof.
  unfold LSR. shift_intro.
  destruct (Z.leb_spec (bit_size sz) (cnt mod 64)); [|step_count; [|no_step]].
  - rewrite <- (result_steps _ _ _ _ 0 false (nz (b2z (cnt mod 64 =? bit_size sz) .& (zx sz data ≫ (bit_size sz - 1))))); try done.
    + lia.
    + by destruct sz.
    + intros i Hb. cbn. by rewrite Z.bits_0, (testbit_range _ _ _ Hv) by lia.
    + unfold ref_out; cbn. destruct (Z.eqb_spec (cnt mod 64) (bit_size sz)) as [E|]; cbn [b2z].
      * rewrite Z.land_comm, low_bit, Z.shiftr_spec by lia. f_equal; lia.
      * rewrite (testbit_range _ _ _ Hv) by lia. done.
  - rewrite <- (result_steps _ _ _ _ ((zx sz data ≫ (cnt mod 64 - 1)) ≫ 1) false (nz ((zx sz data ≫ (cnt mod 64 - 1)) .& 1))); try done.
    + rewrite Z.shiftr_shiftr, shr_div by lia. pose proof (Z.pow_pos_nonneg 2 (cnt mod 64 - 1 + 1)).
      split; [apply Z.div_pos; lia|]. apply Z.div_lt_upper_bound; nia.
    + intros i Hb. rewrite !Z.shiftr_spec by lia. cbn. f_equal. lia.
    + rewrite low_bit, Z.shiftr_spec by lia. unfold ref_out; cbn. f_equal; lia.
Qed.

(** The value of a shift to the left by less than the size, and the bit that left last. *)
Lemma left_code sz v m i : 0 < m < bit_size sz → 0 <= i < bit_size sz → bit_size sz <= 32 →
  Z.testbit (u32 (u32 (v ≪ (m - 1)) ≪ 1) .& bit_mask sz) i = Z.testbit v (i - m).
Proof.
  intros Hm Hi Hn. rewrite Z.land_spec, testbit_mask, testbit_u32, Z.shiftl_spec by lia. in_word. rewrite andb_true_r.
  destruct (Z.eqb_spec i 0) as [->|]; [by rewrite !Z.testbit_neg_r by lia|].
  rewrite testbit_u32, Z.shiftl_spec by lia. f_equal. lia.
Qed.
Lemma left_carry sz v m : 0 < m < bit_size sz → bit_size sz <= 32 →
  nz ((u32 (v ≪ (m - 1)) .& cmask sz) ≫ (bit_size sz - 1)) = Z.testbit v (bit_size sz - 1 - (m - 1)).
Proof. intros. by rewrite top_bit, nz_b2z, testbit_u32, Z.shiftl_spec by lia. Qed.

Lemma LSL_ok imm1_8 sz data cnt c : (imm1_8 = true → 1 <= cnt <= 8) → LSL imm1_8 sz data cnt c = shift_result kLSL sz data (cnt mod 64) c.
Proof.
  unfold LSL. shift_intro.
  destruct (Z.leb_spec (bit_size sz) (cnt mod 64)); [|step_count; [|no_step]].
  - rewrite <- (result_steps _ _ _ _ 0 false (if cnt mod 64 =? bit_size sz then nz (zx sz data .& 1) else false)); try done.
    + lia.
    + by destruct sz.
    + intros i Hb. cbn. by rewrite Z.bits_0, Z.testbit_neg_r by lia.
    + unfold ref_out; cbn. destruct (Z.eqb_spec (cnt mod 64) (bit_size sz)) as [E|].
      * rewrite low_bit. f_equal; lia.
      * by rewrite Z.testbit_neg_r by lia.
  - rewrite <- (result_steps _ _ _ _ (u32 (u32 (zx sz data ≪ (cnt mod 64 - 1)) ≪ 1) .& bit_mask sz) false
      (nz ((u32 (zx sz data ≪ (cnt mod 64 - 1)) .& cmask sz) ≫ (bit_size sz - 1)))); try done.
    + apply mask_range.
    + intros i Hb. cbn [ref_bit]. apply left_code; lia.
    + by rewrite left_carry by lia.
Qed.

(** All of a run of bits are the same. *)
Lemma run_equal v n m : 0 <= m → existsb (λ j, xorb (Z.testbit v (n - j)) (Z.testbit v (n - 1 - j))) (seqZ 1 m) = false ↔
  ∀ j, n - 1 - m <= j < n → Z.testbit v j = Z.testbit v (n - 1).
Proof.
  intros Hm. rewrite <- not_true_iff_false, existsb_exists. split.
  - intros Hx. assert (∀ k : nat, Z.of_nat k <= m → Z.testbit v (n - 1 - Z.of_nat k) = Z.testbit v (n - 1)) as Hk.
    { induction k as [|k IH]; intros; [f_equal; lia|]. rewrite <- IH by lia.
      destruct (Z.testbit v (n - 1 - Z.of_nat (S k))) eqn:E1; destruct (Z.testbit v (n - 1 - Z.of_nat k)) eqn:E2; try done;
      exfalso; apply Hx; exists (Z.of_nat (S k)); (split; [apply list_elem_of_In, elem_of_seqZ; lia|]);
      replace (n - Z.of_nat (S k)) with (n - 1 - Z.of_nat k) by lia; by rewrite E1, E2. }
    intros j Hj. specialize (Hk (Z.to_nat (n - 1 - j)) ltac:(lia)). rewrite Z2Nat.id in Hk by lia. rewrite <- Hk. f_equal. lia.
  - intros He (j & Hj%list_elem_of_In & Hx). apply elem_of_seqZ in Hj.
    rewrite (He (n - j)), (He (n - 1 - j)) in Hx by lia. by destruct (Z.testbit v (n - 1)).
Qed.

Lemma asl_mask sz m i : 0 < m < bit_size sz → bit_size sz <= 32 → 0 <= i →
  Z.testbit (u32 (bit_mask sz ≪ (bit_size sz - 1 - m)) .& bit_mask sz) i = (bit_size sz - 1 - m <=? i) && (i <? bit_size sz).
Proof.
  intros Hm Hn Hi. rewrite Z.land_spec, testbit_mask by done. destruct (Z.ltb_spec i (bit_size sz)); [|by rewrite !andb_false_r].
  rewrite !andb_true_r, testbit_u32, Z.shiftl_spec by lia. destruct (Z.leb_spec (bit_size sz - 1 - m) i).
  - rewrite testbit_mask by lia. lia.
  - by rewrite Z.testbit_neg_r by lia.
Qed.

Lemma asl_overflow sz v m : 0 < m < bit_size sz → bit_size sz <= 32 →
  let mask := u32 (bit_mask sz ≪ (bit_size sz - 1 - m)) .& bit_mask sz in
  negb (v .& mask =? mask) && nz (v .& mask) = ref_overflow kASL (bit_size sz) v m.
Proof.
  intros Hm Hn mask. cbn [ref_overflow].
  assert (∀ b, (∀ j, bit_size sz - 1 - m <= j < bit_size sz → Z.testbit v j = b) ↔ v .& mask = if b then mask else 0) as HM.
  { intros b. split.
    - intros He. apply Z.bits_inj'. intros i Hi. rewrite Z.land_spec. unfold mask. rewrite asl_mask by lia.
      destruct (Z.leb_spec (bit_size sz - 1 - m) i), (Z.ltb_spec i (bit_size sz)); cbn [andb]; rewrite ?andb_false_r, ?andb_true_r;
        destruct b; rewrite ?asl_mask, ?Z.bits_0, ?He by lia; lia.
    - intros E j Hj. assert (Z.testbit mask j = true) as Hmj by (unfold mask; rewrite asl_mask by lia; lia).
      apply (f_equal (λ x, Z.testbit x j)) in E. rewrite Z.land_spec, Hmj, andb_true_r in E. rewrite E. destruct b; [done|apply Z.bits_0]. }
  destruct (existsb _ _) eqn:E.
  - apply not_false_iff_true. intros F. apply not_false_iff_true in E. apply E, run_equal; [lia|].
    apply andb_false_iff in F as [F%negb_false_iff%Z.eqb_eq|F%nz_false].
    + pose proof (proj2 (HM true) F) as F'.  intros j Hj. by rewrite !F' by lia.
    + pose proof (proj2 (HM false) F) as F'.  intros j Hj. by rewrite !F' by lia.
  - rewrite run_equal in E by lia. pose proof (proj1 (HM _) E) as E'. destruct (Z.testbit v (bit_size sz - 1)); rewrite E'; [by rewrite Z.eqb_refl | apply andb_false_r].
Qed.

Lemma asl_overflow_all n v m : 0 < n <= m → 0 <= v < 2 ^ n → nz v = ref_overflow kASL n v m.
Proof.
  intros Hm Hv. cbn [ref_overflow]. destruct (existsb _ _) eqn:E.
  - apply nz_true. intros ->. apply not_false_iff_true in E. apply E, run_equal; [lia|]. intros. by rewrite !Z.bits_0.
  - rewrite run_equal in E by lia. apply nz_false. apply (bits_eq n); try lia.
    intros i Hi. rewrite (E i), <- (E (-1)), Z.bits_0 by lia. by rewrite Z.testbit_neg_r by lia.
Qed.

Lemma ASL_ok imm1_8 sz data cnt c : (imm1_8 = true → 1 <= cnt <= 8) → ASL imm1_8 sz data cnt c = shift_result kASL sz data (cnt mod 64) c.
Proof.
  unfold ASL. shift_intro.
  destruct (Z.leb_spec (bit_size sz) (cnt mod 64)); [|step_count; [|no_step]].
  - rewrite <- (result_steps _ _ _ _ 0 (nz (zx sz data)) (if cnt mod 64 =? bit_size sz then nz (zx sz data .& 1) else false)); try done.
    + lia.
    + by destruct sz.
    + intros i Hb. cbn. by rewrite Z.bits_0, Z.testbit_neg_r by lia.
    + by apply asl_overflow_all; [lia|].
    + unfold ref_out; cbn. destruct (Z.eqb_spec (cnt mod 64) (bit_size sz)) as [E|].
      * rewrite low_bit. f_equal; lia.
      * by rewrite Z.testbit_neg_r by lia.
  - pose proof (asl_overflow sz (zx sz data) (cnt mod 64) ltac:(lia) ltac:(lia)) as Ho. cbv zeta in Ho. rewrite Ho.
    rewrite <- (result_steps _ _ _ _ (u32 (u32 (zx sz data ≪ (cnt mod 64 - 1)) ≪ 1) .& bit_mask sz) (ref_overflow kASL (bit_size sz) (zx sz data) (cnt mod 64))
      (nz ((u32 (zx sz data ≪ (cnt mod 64 - 1)) .& cmask sz) ≫ (bit_size sz - 1)))); try done.
    + apply mask_range.
    + intros i Hb. cbn [ref_bit]. apply left_code; lia.
    + by rewrite left_carry by lia.
Qed.

(** ** Rotations *)

Lemma land_size sz m : 0 <= m → m .& (bit_size sz - 1) = m mod bit_size sz.
Proof. intros. destruct sz; [apply (land_ones_const m 7 3) | apply (land_ones_const m 15 4) | apply (land_ones_const m 31 5)]; lia. Qed.

(** A shift by the rest of the size, which may be all of it. *)
Lemma host_shr_bits x n r i : host_shifts → 0 <= x < 2 ^ n → 0 <= r < n → n <= 32 → 0 <= i →
  Z.testbit (host_shr x (n - r)) i = Z.testbit x (i + n - r) ∨ (r = 0 ∧ Z.testbit (host_shr x (n - r)) i = Z.testbit x i).
Proof.
  intros Hh Hx Hr Hn Hi. unfold host_shr. destruct (Z.ltb_spec (n - r) 32).
  - left. rewrite Z.shiftr_spec by lia. f_equal. lia.
  - destruct (proj1 (Hh x)) as [->| ->]; [left | right; split; [lia|done]].
    by rewrite Z.bits_0, (testbit_range n) by lia.
Qed.
Lemma host_shl_bits x n r i : host_shifts → 0 <= r < n → n <= 32 → 0 <= i < n →
  Z.testbit (host_shl x (n - r)) i = Z.testbit x (i - (n - r)) ∨ (r = 0 ∧ Z.testbit (host_shl x (n - r)) i = Z.testbit x i).
Proof.
  intros Hh Hr Hn Hi. unfold host_shl. destruct (Z.ltb_spec (n - r) 32).
  - left. by rewrite testbit_u32, Z.shiftl_spec by lia.
  - destruct (proj2 (Hh x)) as [->| ->]; [left | right; split; [lia|done]].
    by rewrite Z.bits_0, Z.testbit_neg_r by lia.
Qed.

Lemma rol_bits sz v m i : host_shifts → 0 <= v < 2 ^ bit_size sz → 0 <= i < bit_size sz → 0 <= m → bit_size sz <= 32 →
  Z.testbit ((u32 (v ≪ (m mod bit_size sz)) .| host_shr v (bit_size sz - m mod bit_size sz)) .& bit_mask sz) i = Z.testbit v ((i - m) mod bit_size sz).
Proof.
  intros Hh Hv Hi Hm Hn. pose proof (Z.mod_pos_bound m (bit_size sz) ltac:(lia)) as Hr.
  replace ((i - m) mod bit_size sz) with ((i - m mod bit_size sz) mod bit_size sz) by (rewrite Zminus_mod_idemp_r; done).
  generalize dependent (m mod bit_size sz). intros r Hr.
  rewrite Z.land_spec, testbit_mask, Z.lor_spec, testbit_u32, Z.shiftl_spec by lia. in_word. rewrite andb_true_r.
  destruct (host_shr_bits v _ r i Hh Hv Hr Hn ltac:(lia)) as [-> | [-> ->]].
  - destruct (decide (r <= i)).
    + rewrite (testbit_range _ v (i + bit_size sz - r) Hv), orb_false_r, Z.mod_small by lia. done.
    + rewrite (Z.testbit_neg_r v (i - r)) by lia. cbn [orb]. f_equal. apply (Z.mod_unique_pos _ _ (-1)); lia.
  - rewrite Z.sub_0_r, orb_diag, Z.mod_small by lia. done.
Qed.

Lemma ror_bits sz v m i : host_shifts → 0 <= v < 2 ^ bit_size sz → 0 <= i < bit_size sz → 0 <= m → bit_size sz <= 32 →
  Z.testbit (((v ≫ (m mod bit_size sz)) .| host_shl v (bit_size sz - m mod bit_size sz)) .& bit_mask sz) i = Z.testbit v ((i + m) mod bit_size sz).
Proof.
  intros Hh Hv Hi Hm Hn. pose proof (Z.mod_pos_bound m (bit_size sz) ltac:(lia)) as Hr.
  replace ((i + m) mod bit_size sz) with ((i + m mod bit_size sz) mod bit_size sz) by (rewrite Zplus_mod_idemp_r; done).
  generalize dependent (m mod bit_size sz). intros r Hr.
  rewrite Z.land_spec, testbit_mask, Z.lor_spec, Z.shiftr_spec by lia. in_word. rewrite andb_true_r.
  destruct (host_shl_bits v _ r i Hh Hr Hn Hi) as [-> | [-> ->]].
  - destruct (decide (i + r < bit_size sz)).
    + rewrite (Z.testbit_neg_r v (i - _)), orb_false_r by lia. rewrite Z.mod_small by lia. done.
    + rewrite (testbit_range _ v (i + r) Hv) by lia. cbn [orb]. f_equal. apply (Z.mod_unique_pos _ _ 1); lia.
  - rewrite Z.add_0_r, orb_diag, Z.mod_small by lia. done.
Qed.

Lemma ROL_ok imm1_8 sz data cnt c : host_shifts → (imm1_8 = true → 1 <= cnt <= 8) → ROL imm1_8 sz data cnt c = shift_result kROL sz data (cnt mod 64) c.
Proof.
  intros Hh. unfold ROL. shift_intro. step_count; [|no_step]. rewrite land_size by lia.
  set (m := cnt mod 64) in *. set (r := m mod bit_size sz).
  rewrite <- (result_steps _ _ _ _ ((u32 (zx sz data ≪ r) .| host_shr (zx sz data) (bit_size sz - r)) .& bit_mask sz) false
    (nz (((u32 (zx sz data ≪ r) .| host_shr (zx sz data) (bit_size sz - r)) .& bit_mask sz) .& 1))); try done.
  - apply mask_range.
  - intros i Hb. cbn [ref_bit]. apply rol_bits; auto; lia.
  - rewrite low_bit. unfold r. rewrite rol_bits by (auto; lia). unfold ref_out; cbn. f_equal. apply mod_eq; [lia|]. exists (-1). lia.
Qed.

Lemma ROR_ok imm1_8 sz data cnt c : host_shifts → (imm1_8 = true → 1 <= cnt <= 8) → ROR imm1_8 sz data cnt c = shift_result kROR sz data (cnt mod 64) c.
Proof.
  intros Hh. unfold ROR. shift_intro. step_count; [|no_step]. rewrite land_size by lia.
  set (m := cnt mod 64) in *. set (r := m mod bit_size sz).
  rewrite <- (result_steps _ _ _ _ (((zx sz data ≫ r) .| host_shl (zx sz data) (bit_size sz - r)) .& bit_mask sz) false
    (nz ((((zx sz data ≫ r) .| host_shl (zx sz data) (bit_size sz - r)) .& bit_mask sz .& cmask sz) ≫ (bit_size sz - 1)))); try done.
  - apply mask_range.
  - intros i Hb. cbn [ref_bit]. apply ror_bits; auto; lia.
  - rewrite top_bit, nz_b2z. unfold r. rewrite ror_bits by (auto; lia). unfold ref_out; cbn. f_equal. apply mod_eq; [lia|]. exists 1. lia.
Qed.

(** ** Rotations through the extend bit *)

Lemma rox_range sz m : 0 <= m < 64 → force_range_for_rox m sz = m mod (bit_size sz + 1).
Proof. intros. destruct sz; cbn [force_range_for_rox bit_size]; repeat case_match; Z.div_mod_to_equations; lia. Qed.

Lemma rox_count (imm1_8 : bool) sz cnt : (imm1_8 = true → 1 <= cnt <= 8) →
  (if imm1_8 then cnt mod 64 else force_range_for_rox (cnt mod 64) sz) = (cnt mod 64) mod (bit_size sz + 1).
Proof.
  intros Hi. pose proof (Z.mod_pos_bound cnt 64 ltac:(lia)). destruct imm1_8; [|by apply rox_range].
  specialize (Hi eq_refl). rewrite (Z.mod_small cnt), Z.mod_small by (destruct sz; cbn; lia). done.
Qed.

Lemma rox_steps (imm1_8 : bool) sz cnt : (imm1_8 = true → 1 <= cnt <= 8) →
  imm1_8 || (0 <? (cnt mod 64) mod (bit_size sz + 1)) = (0 <? (cnt mod 64) mod (bit_size sz + 1)).
Proof.
  intros Hi. destruct imm1_8; [|done]. specialize (Hi eq_refl). rewrite (Z.mod_small cnt), Z.mod_small by (destruct sz; cbn; lia). lia.
Qed.

(** A whole turn changes nothing. *)
Lemma rox_turn k sz data m c : k = kROXL ∨ k = kROXR → 0 <= m → m mod (bit_size sz + 1) = 0 →
  shift_result k sz data m c = shift_result k sz data 0 c.
Proof.
  intros Hk Hm E. rewrite <- (result_none k sz data c). symmetry.
  assert (1 < bit_size sz) as Hn by (destruct sz; cbn; lia).
  assert (ref_out k (bit_size sz) (zx sz data) (xflg c) m = xflg c) as Hr.
  { unfold ref_out, ext_bit. destruct Hk as [-> | ->]; cbn [ref_bit goes_left]; unfold ext_bit.
    - replace ((bit_size sz - 1 - (m - 1)) mod (bit_size sz + 1)) with (bit_size sz); [by rewrite Z.eqb_refl|].
      replace (bit_size sz - 1 - (m - 1)) with (bit_size sz - m) by lia. rewrite <- Zminus_mod_idemp_r, E, Z.sub_0_r, Z.mod_small by lia. done.
    - replace ((0 + (m - 1)) mod (bit_size sz + 1)) with (bit_size sz); [by rewrite Z.eqb_refl|].
      replace (0 + (m - 1)) with (-1 + m) by lia. rewrite <- Zplus_mod_idemp_r, E. apply (Z.mod_unique_pos _ _ (-1)); lia. }
  apply result_intro; auto.
  - apply zx_range.
  - intros i Hi. destruct Hk as [-> | ->]; cbn [ref_bit]; unfold ext_bit.
    + rewrite <- Zminus_mod_idemp_r, E, Z.sub_0_r, Z.mod_small by lia. by rewrite (proj2 (Z.eqb_neq _ _)) by lia.
    + rewrite <- Zplus_mod_idemp_r, E, Z.add_0_r, Z.mod_small by lia. by rewrite (proj2 (Z.eqb_neq _ _)) by lia.
  - unfold ref_extend. rewrite Hr. by destruct Hk as [-> | ->]; case_match.
  - by destruct Hk as [-> | ->].
  - rewrite Hr. by destruct Hk as [-> | ->]; case_match.
Qed.

Lemma testbit_ext v x j : 0 <= j < 32 → Z.testbit (u32 (v ≪ 1) .| b2z x) j = if j =? 0 then x else Z.testbit v (j - 1).
Proof.
  intros Hj. rewrite Z.lor_spec, testbit_u32, Z.shiftl_spec by lia. destruct (Z.eqb_spec j 0) as [->|].
  - rewrite Z.testbit_neg_r by lia. by destruct x.
  - rewrite (testbit_range 1 (b2z x)) by (destruct x; cbn; lia). apply orb_false_r.
Qed.

Lemma roxl_bits sz v x m i : let n := bit_size sz in let r := m mod (n + 1) in
  0 <= v < 2 ^ n → 0 <= i < n → n <= 32 → 0 < r →
  Z.testbit ((u32 (u32 (u32 (v ≪ 1) .| b2z x) ≪ (r - 1)) .| ((v ≫ (n - 1 - (r - 1))) ≫ 1)) .& bit_mask sz) i = ext_bit n v x ((i - m) mod (n + 1)).
Proof.
  intros n r Hv Hi Hn Hp. assert (r < n + 1) as Hr by (apply Z.mod_pos_bound; lia).
  rewrite <- Zminus_mod_idemp_r. fold r. generalize dependent r. intros r Hp Hr.
  rewrite Z.land_spec, testbit_mask, Z.lor_spec, testbit_u32, Z.shiftl_spec, !Z.shiftr_spec by lia. fold n. in_word. rewrite andb_true_r.
  destruct (decide (r - 1 <= i)).
  - rewrite testbit_u32, testbit_ext, (testbit_range _ v (i + 1 + _) Hv), orb_false_r by lia. unfold ext_bit.
    destruct (Z.eqb_spec (i - (r - 1)) 0) as [E|].
    + replace ((i - r) mod (n + 1)) with n; [by rewrite Z.eqb_refl|]. apply (Z.mod_unique_pos _ _ (-1)); lia.
    + rewrite Z.mod_small by lia. rewrite (proj2 (Z.eqb_neq _ _)) by lia. f_equal. lia.
  - rewrite (Z.testbit_neg_r _ (i - (r - 1))) by lia. cbn [orb]. unfold ext_bit.
    replace ((i - r) mod (n + 1)) with (i - r + (n + 1)) by (apply (Z.mod_unique_pos _ _ (-1)); lia).
    rewrite (proj2 (Z.eqb_neq _ _)) by lia. f_equal. lia.
Qed.

Lemma roxr_bits sz v x m i : let n := bit_size sz in let r := m mod (n + 1) in
  0 <= v < 2 ^ n → 0 <= i < n → n <= 32 → 0 < r →
  Z.testbit ((((v ≫ (r - 1)) ≫ 1) .| u32 ((u32 (v ≪ 1) .| b2z x) ≪ (n - 1 - (r - 1)))) .& bit_mask sz) i = ext_bit n v x ((i + m) mod (n + 1)).
Proof.
  intros n r Hv Hi Hn Hp. assert (r < n + 1) as Hr by (apply Z.mod_pos_bound; lia).
  rewrite <- Zplus_mod_idemp_r. fold r. generalize dependent r. intros r Hp Hr.
  rewrite Z.land_spec, testbit_mask, Z.lor_spec, testbit_u32, Z.shiftl_spec, !Z.shiftr_spec by lia. fold n. in_word. rewrite andb_true_r.
  unfold ext_bit. destruct (decide (i + r < n)).
  - rewrite (Z.testbit_neg_r _ (i - _)), orb_false_r, Z.mod_small by lia. rewrite (proj2 (Z.eqb_neq _ _)) by lia. f_equal. lia.
  - rewrite testbit_ext, (testbit_range _ v (i + 1 + _) Hv) by lia. cbn [orb].
    destruct (Z.eqb_spec (i - (n - 1 - (r - 1))) 0) as [E|].
    + rewrite Z.mod_small by lia. rewrite (proj2 (Z.eqb_eq (i + r) n)) by lia. done.
    + replace ((i + r) mod (n + 1)) with (i + r - (n + 1)) by (apply (Z.mod_unique_pos _ _ 1); lia).
      rewrite (proj2 (Z.eqb_neq _ _)) by lia. f_equal. lia.
Qed.

Lemma rox_out k sz v x m : k = kROXL ∨ k = kROXR → let n := bit_size sz in let r := m mod (n + 1) in 0 < r → 1 < n →
  ref_out k n v x m = Z.testbit v (if goes_left k then n - r else r - 1).
Proof.
  intros Hk n r Hp Hn. assert (r < n + 1) as Hr by (apply Z.mod_pos_bound; lia).
  unfold ref_out, ext_bit. destruct Hk as [-> | ->]; cbn [ref_bit goes_left]; unfold ext_bit.
  - replace ((n - 1 - (m - 1)) mod (n + 1)) with (n - r); [by rewrite (proj2 (Z.eqb_neq _ _)) by lia|].
    replace (n - 1 - (m - 1)) with (n - m) by lia. rewrite <- Zminus_mod_idemp_r. fold r. by rewrite Z.mod_small by lia.
  - replace ((0 + (m - 1)) mod (n + 1)) with (r - 1); [by rewrite (proj2 (Z.eqb_neq _ _)) by lia|].
    replace (0 + (m - 1)) with (-1 + m) by lia. rewrite <- Zplus_mod_idemp_r. fold r. rewrite Z.mod_small; lia.
Qed.

Lemma ROXL_ok imm1_8 sz data cnt c : (imm1_8 = true → 1 <= cnt <= 8) → ROXL imm1_8 sz data cnt c = shift_result kROXL sz data (cnt mod 64) c.
Proof.
  unfold ROXL. shift_intro. rewrite rox_count, rox_steps by done. set (m := cnt mod 64) in *.
  pose proof (Z.mod_pos_bound m (bit_size sz + 1) ltac:(lia)) as Hr.
  step_count; [|rewrite rox_turn by (auto; lia); rewrite <- result_none; by destruct c].
  assert (0 < m) by (destruct (decide (m = 0)) as [E|]; [rewrite E, Z.mod_0_l in Hp; lia|lia]).
  pose proof (roxl_bits sz (zx sz data) c.(xflg) m) as HB. pose proof (rox_out kROXL sz (zx sz data) c.(xflg) m ltac:(auto)) as HO. cbv zeta in HB, HO.
  set (r := m mod (bit_size sz + 1)) in *.
  rewrite <- (result_steps _ _ _ _ ((u32 (u32 (u32 (zx sz data ≪ 1) .| b2z c.(xflg)) ≪ (r - 1)) .| ((zx sz data ≫ (bit_size sz - 1 - (r - 1))) ≫ 1)) .& bit_mask sz)
    false (nz ((zx sz data ≫ (bit_size sz - 1 - (r - 1))) .& 1))); try done.
  - apply mask_range.
  - intros i Hb. cbn [ref_bit]. apply HB; auto; lia.
  - rewrite HO by lia. rewrite low_bit, Z.shiftr_spec by lia. cbn. f_equal. lia.
Qed.

Lemma ROXR_ok imm1_8 sz data cnt c : (imm1_8 = true → 1 <= cnt <= 8) → ROXR imm1_8 sz data cnt c = shift_result kROXR sz data (cnt mod 64) c.
Proof.
  unfold ROXR. shift_intro. rewrite rox_count, rox_steps by done. set (m := cnt mod 64) in *.
  pose proof (Z.mod_pos_bound m (bit_size sz + 1) ltac:(lia)) as Hr.
  step_count; [|rewrite rox_turn by (auto; lia); rewrite <- result_none; by destruct c].
  assert (0 < m) by (destruct (decide (m = 0)) as [E|]; [rewrite E, Z.mod_0_l in Hp; lia|lia]).
  pose proof (roxr_bits sz (zx sz data) c.(xflg) m) as HB. pose proof (rox_out kROXR sz (zx sz data) c.(xflg) m ltac:(auto)) as HO. cbv zeta in HB, HO.
  set (r := m mod (bit_size sz + 1)) in *.
  rewrite <- (result_steps _ _ _ _ ((((zx sz data ≫ (r - 1)) ≫ 1) .| u32 ((u32 (zx sz data ≪ 1) .| b2z c.(xflg)) ≪ (bit_size sz - 1 - (r - 1)))) .& bit_mask sz)
    false (nz ((zx sz data ≫ (r - 1)) .& 1))); try done.
  - apply mask_range.
  - intros i Hb. cbn [ref_bit]. apply HB; auto; lia.
  - rewrite HO by lia. by rewrite low_bit, Z.shiftr_spec by lia.
Qed.

(** ** Shifts of a word in memory: one step *)

Definition shift_w_op (k : shift_kind) : wordsizes → Z → C Z :=
  match k with
  | kASR => ASRW | kASL => ASLW | kLSR => LSRW | kLSL => LSLW | kROR => RORW | kROL => ROLW | kROXR => ROXRW | kROXL => ROXLW
  end.

Lemma testbit_zx sz x i : 0 <= i < bit_size sz → Z.testbit (zx sz x) i = Z.testbit x i.
Proof. intros. unfold zx. apply Z.mod_pow2_bits_low; lia. Qed.
Lemma zx_zx sz x : zx sz (zx sz x) = zx sz x.
Proof. unfold zx. apply Z.mod_mod. by destruct sz. Qed.
Lemma sx_zx sz x : sx sz (zx sz x) = sx sz x.
Proof. unfold sx, signed, zx. f_equal. apply Zplus_mod_idemp_l. Qed.

(** The step, with the bits the code computes; the store takes [zx sz val]. *)
Lemma one_step k sz data val v cf c :
  (∀ i, 0 <= i < bit_size sz → Z.testbit val i = ref_bit k (bit_size sz) (zx sz data) c.(xflg) 1 i) →
  v = ref_overflow k (bit_size sz) (zx sz data) 1 →
  cf = Z.testbit (zx sz data) (if goes_left k then bit_size sz - 1 else 0) →
  COk (zx sz val) (with_flags (match k with kROR | kROL => c.(xflg) | _ => cf end) (sx sz val <? 0) (sx sz val =? 0) v cf c)
  = shift_result k sz data 1 c.
Proof.
  intros Hb Hv Hc. assert (1 < bit_size sz) by (destruct sz; cbn; lia).
  rewrite <- (result_steps k sz data 1 (zx sz val) v cf c); rewrite ?sx_zx; auto; try lia.
  - apply zx_range.
  - intros i Hi. by rewrite testbit_zx, Hb.
  - rewrite Hc. unfold ref_out. rewrite Z.sub_diag. destruct k; cbn [ref_bit goes_left]; rewrite ?Z.add_0_r, ?Z.sub_0_r, ?Z.mod_small by lia; auto.
    + f_equal; lia.
    + unfold ext_bit. by rewrite (proj2 (Z.eqb_neq _ _)) by lia.
    + unfold ext_bit. by rewrite (proj2 (Z.eqb_neq _ _)) by lia.
Qed.

Lemma nz_top sz v : nz (v .& cmask sz) = Z.testbit v (bit_size sz - 1).
Proof. rewrite cmask_bit. apply nz_land_bit. destruct sz; cbn; lia. Qed.
Lemma testbit_cmask sz i : 0 <= i → Z.testbit (cmask sz) i = (i =? bit_size sz - 1).
Proof. intros. rewrite cmask_bit, Z.shiftl_1_l, Z.pow2_bits_eqb by (destruct sz; cbn; lia). lia. Qed.
Lemma shl1_bit v i : Z.testbit (v ≪ 1) i = if i <=? 0 then false else Z.testbit v (i - 1).
Proof.
  destruct (Z.leb_spec i 0); [|by rewrite Z.shiftl_spec by lia].
  destruct (decide (i < 0)); [by rewrite Z.testbit_neg_r by lia|]. rewrite Z.shiftl_spec by lia. by rewrite Z.testbit_neg_r by lia.
Qed.

Definition stored (sz : wordsizes) (r : cres Z) : cres Z := match r with COk v c => COk (zx sz v) c | r => r end.

(** The bits of a step to either side with the bit [b] brought in. *)
Lemma shl_fill sz v (b : bool) i : 0 <= i < bit_size sz →
  Z.testbit (if b then zx sz (v ≪ 1) .| 1 else zx sz (v ≪ 1)) i = if i =? 0 then b else Z.testbit v (i - 1).
Proof.
  intros Hi. assert (Z.testbit (zx sz (v ≪ 1)) i = if i =? 0 then false else Z.testbit v (i - 1)) as E.
  { rewrite testbit_zx, shl1_bit by lia. repeat case_match; auto; lia. }
  destruct b; rewrite ?Z.lor_spec, E; [|done].
  destruct (Z.eqb_spec i 0) as [->|]; [done|]. rewrite (testbit_range 1 1) by lia. apply orb_false_r.
Qed.
Lemma shr_fill sz v (b : bool) i : 0 <= v < 2 ^ bit_size sz → 0 <= i < bit_size sz →
  Z.testbit (if b then (v ≫ 1) .| cmask sz else v ≫ 1) i = if i =? bit_size sz - 1 then b else Z.testbit v (i + 1).
Proof.
  intros Hv Hi. destruct b; rewrite ?Z.lor_spec, ?testbit_cmask, Z.shiftr_spec by lia; case_match; rewrite ?orb_false_r, ?orb_true_r; auto.
  apply (testbit_range _ v _ Hv); lia.
Qed.

Lemma shift_w_ok k sz data c : stored sz (shift_w_op k sz data c) = shift_result k sz data 1 c.
Proof.
  pose proof (zx_range sz data) as Hv. assert (1 < bit_size sz <= 32) as Hn by (destruct sz; cbn; lia).
  destruct k; cbn [shift_w_op].
  - rewrite <- (one_step kASR sz data ((zx sz data ≫ 1) .| (cmask sz .& zx sz data)) false (nz (zx sz data .& 1))); try done.
    + intros i Hi. cbn [ref_bit]. rewrite Z.lor_spec, Z.land_spec, testbit_cmask, Z.shiftr_spec by lia.
      destruct (Z.eqb_spec i (bit_size sz - 1)) as [->|].
      * rewrite (testbit_range _ _ _ Hv) by lia. cbn. f_equal; lia.
      * cbn. rewrite orb_false_r. f_equal; lia.
    + by rewrite low_bit.
  - rewrite <- (one_step kASL sz data (u32 (zx sz data ≪ 1)) (false || negb (cmask sz .& u32 (zx sz data ≪ 1) =? cmask sz .& zx sz data)) (nz (cmask sz .& zx sz data))); try done.
    + intros i Hi. cbn [ref_bit]. rewrite testbit_u32, shl1_bit by lia. destruct (Z.leb_spec i 0); [by rewrite Z.testbit_neg_r by lia|done].
    + cbn [ref_overflow orb]. change (seqZ 1 1) with [1]. cbn [existsb]. rewrite orb_false_r, !(Z.land_comm (cmask sz)), !cmask_bit, !land_pow2 by lia.
      rewrite testbit_u32, shl1_bit by lia. rewrite (proj2 (Z.leb_gt _ _)) by lia. pose proof (Z.pow_pos_nonneg 2 (bit_size sz - 1)).
      replace (bit_size sz - 1 - 1) with (bit_size sz - 2) by lia.
      destruct (Z.testbit _ (bit_size sz - 2)), (Z.testbit _ (bit_size sz - 1)); cbn [b2z xorb negb]; lia.
    + by rewrite Z.land_comm, nz_top.
  - rewrite <- (one_step kLSR sz data (zx sz data ≫ 1) false (nz (zx sz data .& 1))); try done.
    + intros i Hi. by rewrite Z.shiftr_spec by lia.
    + by rewrite low_bit.
  - rewrite <- (one_step kLSL sz data (zx sz (zx sz data ≪ 1)) false (nz ((zx sz data .& cmask sz) ≫ (bit_size sz - 1)))); try done.
    + intros i Hi. cbn [ref_bit]. rewrite testbit_zx, shl1_bit by lia. destruct (Z.leb_spec i 0); [by rewrite Z.testbit_neg_r by lia|done].
    + by rewrite top_bit, nz_b2z.
  - rewrite <- (one_step kROR sz data (if nz (zx sz data .& 1) then (zx sz data ≫ 1) .| cmask sz else zx sz data ≫ 1) false (nz (zx sz data .& 1))); try done.
    + intros i Hi. rewrite shr_fill, low_bit by done. cbn [ref_bit]. destruct (Z.eqb_spec i (bit_size sz - 1)) as [->|].
      * f_equal. apply (Z.mod_unique_pos _ _ 1); lia.
      * by rewrite Z.mod_small by lia.
    + by rewrite low_bit.
  - rewrite <- (one_step kROL sz data (if nz (zx sz data .& cmask sz) then zx sz (zx sz data ≪ 1) .| 1 else zx sz (zx sz data ≪ 1)) false (nz ((zx sz data .& cmask sz) ≫ (bit_size sz - 1)))); try done.
    + intros i Hi. rewrite shl_fill, nz_top by done. cbn [ref_bit]. destruct (Z.eqb_spec i 0) as [->|].
      * f_equal. apply (Z.mod_unique_pos _ _ (-1)); lia.
      * by rewrite Z.mod_small by lia.
    + by rewrite top_bit, nz_b2z.
  - rewrite <- (one_step kROXR sz data (if c.(xflg) then (zx sz data ≫ 1) .| cmask sz else zx sz data ≫ 1) false (nz (zx sz data .& 1))); try done.
    + intros i Hi. rewrite shr_fill by done. cbn [ref_bit]. unfold ext_bit. rewrite Z.mod_small by lia.
      destruct (Z.eqb_spec i (bit_size sz - 1)), (Z.eqb_spec (i + 1) (bit_size sz)); auto; lia.
    + by rewrite low_bit.
  - rewrite <- (one_step kROXL sz data (if c.(xflg) then zx sz (zx sz data ≪ 1) .| 1 else zx sz (zx sz data ≪ 1)) false (nz ((zx sz data .& cmask sz) ≫ (bit_size sz - 1)))); try done.
    + intros i Hi. rewrite shl_fill by done. cbn [ref_bit]. unfold ext_bit. destruct (Z.eqb_spec i 0) as [->|].
      * replace ((0 - 1) mod (bit_size sz + 1)) with (bit_size sz); [by rewrite Z.eqb_refl|]. apply (Z.mod_unique_pos _ _ (-1)); lia.
      * rewrite Z.mod_small by lia. by rewrite (proj2 (Z.eqb_neq _ _)) by lia.
    + by rewrite top_bit, nz_b2z.
Qed.

(** ** The instruction *)

Definition shift_mnem (k : shift_kind) : instrmnem :=
  match k with
  | kASR => i_ASR | kASL => i_ASL | kLSR => i_LSR | kLSL => i_LSL | kROR => i_ROR | kROL => i_ROL | kROXR => i_ROXR | kROXL => i_ROXL
  end.

Lemma shift_op_ok k imm1_8 sz data cnt c : host_shifts → (imm1_8 = true → 1 <= cnt <= 8) →
  shift_op k imm1_8 sz data cnt c = shift_result k sz data (cnt mod 64) c.
Proof.
  intros Hh Hi. destruct k; [apply ASR_ok | apply ASL_ok | apply LSR_ok | apply LSL_ok | apply ROR_ok | apply ROL_ok | apply ROXR_ok | apply ROXL_ok]; done.
Qed.

Lemma zx_sx sz x : zx sz (sx sz x) = zx sz x.
Proof. unfold sx, signed, zx. rewrite Zminus_mod_idemp_l. f_equal. lia. Qed.
Lemma sx_mod64 sz x : sx sz x mod 64 = x mod 64.
Proof. unfold sx, signed. destruct sz; cbn [bit_size]; Z.div_mod_to_equations; lia. Qed.

(** The part of a data register an operation of a size replaces. *)
Definition low_part (sz : wordsizes) (old v : Z) : Z := old / 2 ^ bit_size sz * 2 ^ bit_size sz + v.

Lemma low_part_code sz old v : 0 <= old < 4294967296 → 0 <= v < 2 ^ bit_size sz →
  u32 (match sz with sz_byte => (old .& Z.lnot 0xff) .| (v .& 0xff) | sz_word => (old .& Z.lnot 0xffff) .| (v .& 0xffff) | sz_long => v end)
  = low_part sz old v.
Proof.
  intros Ho Hv. unfold low_part.
  assert (∀ n, 0 <= n < 32 → v < 2 ^ n → (old .& Z.lnot (2 ^ n - 1)) .| (v .& (2 ^ n - 1)) = old / 2 ^ n * 2 ^ n + v) as E.
  { intros n Hn Hvn. assert (2 ^ n - 1 = Z.ones n) as -> by (rewrite Z.ones_equiv; lia).
    rewrite <- Z.ldiff_land, Z.ldiff_ones_r, Z.land_ones, (Z.mod_small v), shr_div, shl_mul by lia.
    apply (lor_add _ _ n); try lia. apply Z.mod_mul. lia. }
  destruct sz; cbn [bit_size] in *.
  - pose proof (E 8 ltac:(lia) ltac:(lia)) as E8. change (2 ^ 8 - 1) with 0xff in E8. rewrite E8. apply u32_small. Z.div_mod_to_equations; lia.
  - pose proof (E 16 ltac:(lia) ltac:(lia)) as E16. change (2 ^ 16 - 1) with 0xffff in E16. rewrite E16. apply u32_small. Z.div_mod_to_equations; lia.
  - rewrite u32_small by lia. rewrite Z.div_small by lia. lia.
Qed.

Lemma result_range k sz data m c : 0 <= m → ∃ v c', shift_result k sz data m c = COk v c' ∧ 0 <= v < 2 ^ bit_size sz ∧ c'.(greg) = c.(greg).
Proof.
  intros Hm. do 2 eexists. split; [reflexivity|]. split; [|done].
  apply (after_range _ _ _ _ (Z.of_nat (Z.to_nat m)) _ (ref_after k (bit_size sz) (zx sz data) c.(xflg) (Z.to_nat m) ltac:(destruct sz; cbn; lia) (zx_range sz data))).
Qed.
End code.

(** A handler whose body ends normally. *)
Definition advance (c : cpu) : cpu := if nz c.(pc_offset) then c_pc_offset 0 (c_pc (u32 (c.(pc) + c.(pc_offset))) c) else c.

Lemma handler_ok `{ram_config} `{host} i opcode srcreg dstreg c c' :
  i.(plev) = 0 ∨ supervised c = true → body i opcode srcreg dstreg (c_pc_offset 2 c) = COk tt c' →
  handler i opcode srcreg dstreg c = COk tt (advance c').
Proof.
  intros Hp Hb. unfold handler, gen_opcode.
  assert (privileged i && negb (supervised (c_pc_offset 2 c)) = false) as E.
  { destruct Hp as [Hp|Hp]; [unfold privileged; by rewrite Hp | change (supervised (c_pc_offset 2 c)) with (supervised c); rewrite Hp; apply andb_false_r]. }
  unfold mbind, C_bind, c_upd, c_get. rewrite E. unfold c_when at 1, mret, C_ret. rewrite Hb.
  unfold sync_m68k_pc, advance, c_when, m68k_incpc, mbind, C_bind, c_upd, c_get, mret, C_ret. by destruct (nz (pc_offset c')).
Qed.

(** C10: The 24 shift and rotate instructions with a count (ASL, ASR, LSL, LSR, ROL, ROR, ROXL and
    ROXR, by a register or by an immediate of 1 to 8, on bytes, words and long words) leave in
    the destination register and in the flags what [count mod 64] single steps leave: the
    operand is replaced in the low part of the register, carry and extend are the last bit
    shifted out (the extend bit of the rotations without it and of a count of 0 is kept),
    overflow records any change of the sign of ASL on the way, N and Z describe the result,
    and the program counter moves to the next instruction.  (The host is assumed to shift a
    32 bit value by 32 to 0 or to itself.) *)
Theorem shifts_correct `{ram_config} `{host} (k : shift_kind) (i : instr) (opcode srcreg dstreg : Z) (c : cpu) :
  host_shifts → i.(mnemo) = shift_mnem k → i.(plev) = 0 → i.(dmode) = Dreg →
  (i.(smode) = Dreg ∧ i.(stype) ≠ 3) ∨ (i.(smode) = immi ∧ i.(stype) = 3 ∧ 1 <= srcreg <= 8) →
  0 <= aget c.(greg) dstreg < 4294967296 →
  let old := aget c.(greg) dstreg in
  let count := if bool_decide (i.(smode) = Dreg) then aget c.(greg) srcreg else srcreg in
  let s := shift_ref k (bit_size i.(size)) (zx i.(size) old) c.(xflg) (Z.to_nat (count mod 64)) in
  handler i opcode srcreg dstreg c
  = COk tt (c_pc_offset 0 (c_pc (u32 (c.(pc) + 2)) (c_greg (aset c.(greg) dstreg (low_part i.(size) old s.(sval)))
      (with_flags s.(sextend) (Z.testbit s.(sval) (bit_size i.(size) - 1)) (s.(sval) =? 0) s.(soverflow) s.(scarry) c)))).
Proof.
  intros Hh Hk Hp Hd Hs Hold old count s.
  assert (∃ imm1_8 cnt, (imm1_8 = true → 1 <= cnt <= 8) ∧ cnt mod 64 = count mod 64 ∧ imm1_8 = (i.(stype) =? 3) ∧
    ∀ c', c'.(greg) = c.(greg) → src_op i srcreg c' = COk cnt c') as (imm1_8 & cnt & Hi & Hc & Him & Hsrc).
  { destruct Hs as [[Hm Ht]|(Hm & Ht & Hr)].
    - exists false, (sx i.(size) (aget c.(greg) srcreg)). unfold count. rewrite Hm, bool_decide_true by done.
      split; [done|]. split; [apply sx_mod64|]. split; [by rewrite (proj2 (Z.eqb_neq _ _))|].
      intros c' E. unfold src_op, fetch_operand, genamode, genamode2. rewrite Hm, <- E. reflexivity.
    - exists true, srcreg. unfold count. rewrite Hm, bool_decide_false by done. split; [done|]. split; [done|]. split; [by rewrite Ht|].
      intros c' E. unfold src_op, fetch_operand, genamode, genamode2. by rewrite Hm. }
  set (c2 := c_pc_offset 2 c).
  pose proof (shift_op_ok k imm1_8 i.(size) (sx i.(size) old) cnt c2 Hh Hi) as Hop.
  assert (shift_result k i.(size) (sx i.(size) old) (cnt mod 64) c2 = COk s.(sval)
    (with_flags s.(sextend) (Z.testbit s.(sval) (bit_size i.(size) - 1)) (s.(sval) =? 0) s.(soverflow) s.(scarry) c2)) as Hres.
  { unfold shift_result. rewrite zx_sx, Hc. done. }
  rewrite Hres in Hop.
  assert (0 <= s.(sval) < 2 ^ bit_size i.(size)) as Hsv.
  { apply (after_range _ _ _ _ _ _ (ref_after k (bit_size i.(size)) (zx i.(size) old) c.(xflg) _ ltac:(destruct i.(size); cbn; lia) (zx_range _ old))). }
  assert (body i opcode srcreg dstreg = op_shift i srcreg dstreg (shift_op k)) as Hb.
  { unfold body. rewrite Hk. by destruct k. }
  rewrite (handler_ok i opcode srcreg dstreg c (c_greg (aset c.(greg) dstreg (low_part i.(size) old s.(sval)))
      (with_flags s.(sextend) (Z.testbit s.(sval) (bit_size i.(size) - 1)) (s.(sval) =? 0) s.(soverflow) s.(scarry) c2)));
    [by destruct c | by left | rewrite Hb; fold c2].
  unfold op_shift, mbind, C_bind. rewrite (Hsrc c2) by done.
  unfold dst_op, genamode, genamode2. rewrite Hd. unfold dreg, c_get, mbind, C_bind, mret, C_ret. cbn [fst snd].
  rewrite <- Him. change (aget (greg c2) dstreg) with old. change (isz i) with i.(size). rewrite Hop.
  unfold store_dst, genastore. rewrite Hd. change (isz i) with i.(size).
  rewrite <- (low_part_code i.(size) old s.(sval)) by done. clear Hop Hres Hsv. clearbody s.
  unfold dreg, set_dreg, c_upd, c_get, mbind, C_bind. by destruct i.(size).
Qed.

(** ROXR.W #3,D1: the word 0x8005 with X set. *)
Definition shift_example_entry : instr := mk_instr i_ROXR 0 0 sz_word immi 3 Dreg 0 0 (Some 9) (Some 0).

Definition example_host : host := {| shr32 := λ x, x; shl32 := λ x, x |}.
Definition example_ram : ram_config := {| FastRAM_SIZE := 0; VideoRAMBase := 0 |}.
Definition example_cpu : cpu :=
  mk_cpu (mk_mmu (mk_regs false 0 0 0 0 0 false false 0 0 0 0 0 0 0 0 0) ∅ ∅ ∅ false) (aset ∅ 1 0x12348005) 0 0 0 0 false false false
    false 0 0x1000 0x1000 0 0 0 0 false false false false true None 0 0 0 0 0.

Lemma shifts_correct_witness :
  let H := example_ram in let H0 := example_host in
  ∃ c', handler shift_example_entry 0xe651 3 1 example_cpu = COk tt c' ∧ aget c'.(greg) 1 = 0x12347000 ∧ c'.(xflg) = true ∧ c'.(pc) = 0x1002.
Proof.
  intros H H0.
  pose proof (shifts_correct kROXR shift_example_entry 0xe651 3 1 example_cpu ltac:(intros x; split; right; reflexivity) eq_refl eq_refl eq_refl
    ltac:(right; split; [reflexivity | split; [reflexivity | lia]]) ltac:(vm_compute; split; [discriminate | reflexivity])) as E.
  eexists. split; [exact E|]. split; [vm_compute; reflexivity | split; vm_compute; reflexivity].
Defined.
