(* ===== verification/ArithSpec.v ===== *)
(** * Binary and decimal arithmetic of the 68040

    The results and flags of addition, subtraction and comparison ([flag_add], [flag_sub], [flag_cmp])
    and with the extend bit ([flag_addx], [flag_subx]) as integer arithmetic, additions of several
    words by ADDX, and the decimal instructions. *)

From S2P Require Import Prelude Ram Mmu Cpu MulDiv Insn Handlers ShiftSpec.

(** ** One operand size *)

(** A value outside the signed range of a size. *)
Definition too_big (sz : wordsizes) (x : Z) : bool := negb ((- 2 ^ (bit_size sz - 1) <=? x) && (x <? 2 ^ (bit_size sz - 1))).

Lemma sx_cases sz x : ∃ q, sx sz x = x + q * 2 ^ bit_size sz ∧ - 2 ^ (bit_size sz - 1) <= sx sz x < 2 ^ (bit_size sz - 1).
Proof.
  unfold sx, signed. exists (- ((x + 2 ^ (bit_size sz - 1)) / 2 ^ bit_size sz)).
  destruct sz; cbn; Z.div_mod_to_equations; lia.
Qed.
Lemma zx_cases sz x : ∃ q, zx sz x = x + q * 2 ^ bit_size sz ∧ 0 <= zx sz x < 2 ^ bit_size sz.
Proof. unfold zx. exists (- (x / 2 ^ bit_size sz)). destruct sz; cbn; Z.div_mod_to_equations; lia. Qed.
Lemma u32_cases x : ∃ q, u32 x = x + q * 4294967296.
Proof. unfold u32. exists (- (x / 4294967296)). Z.div_mod_to_equations; lia. Qed.

Lemma sx_sx sz x : sx sz (sx sz x) = sx sz x.
Proof. unfold sx, signed. destruct sz; cbn [bit_size]; Z.div_mod_to_equations; lia. Qed.
Lemma sx_u32 sz x : sx sz (u32 x) = sx sz x.
Proof. unfold sx, signed, u32. destruct sz; cbn [bit_size]; Z.div_mod_to_equations; lia. Qed.

(** The signs of two operands and of a result that has been wrapped to the range from [-h] to
    [h - 1]: overflow and carry of a sum, overflow and borrow of a difference; [x] is the extend
    bit. *)
Definition unsigned_of (h s : Z) : Z := if s <? 0 then s + 2 * h else s.

Ltac sign_cases :=
  unfold unsigned_of; intros;
  repeat match goal with
  | |- context [?a <? ?b] => destruct (Z.ltb_spec a b)
  | |- context [?a <=? ?b] => destruct (Z.leb_spec a b)
  end; try done; exfalso; lia.

Section signs.
Context (h s d x r q : Z) (Hh : 0 < h) (Hs : - h <= s < h) (Hd : - h <= d < h) (Hr : - h <= r < h) (Hx : 0 <= x <= 1).

Lemma sum_overflow : r = d + s + x + q * (2 * h) →
  xorb (s <? 0) (r <? 0) && xorb (d <? 0) (r <? 0) = negb ((- h <=? d + s + x) && (d + s + x <? h)).
Proof. intros E. assert (q = -1 ∨ q = 0 ∨ q = 1) as Hq by nia. sign_cases. Qed.
Lemma sum_carry : r = d + s + x + q * (2 * h) →
  xorb (s <? 0) (xorb (s <? 0) (d <? 0) && xorb (d <? 0) (r <? 0)) = (2 * h <=? unsigned_of h d + unsigned_of h s + x).
Proof. intros E. assert (q = -1 ∨ q = 0 ∨ q = 1) as Hq by nia. sign_cases. Qed.
Lemma diff_overflow : r = d - s - x + q * (2 * h) →
  xorb (s <? 0) (d <? 0) && xorb (r <? 0) (d <? 0) = negb ((- h <=? d - s - x) && (d - s - x <? h)).
Proof. intros E. assert (q = -1 ∨ q = 0 ∨ q = 1) as Hq by nia. sign_cases. Qed.
Lemma diff_borrow : r = d - s - x + q * (2 * h) →
  xorb (s <? 0) (xorb (s <? 0) (r <? 0) && xorb (d <? 0) (r <? 0)) = (unsigned_of h d <? unsigned_of h s + x).
Proof. intros E. assert (q = -1 ∨ q = 0 ∨ q = 1) as Hq by nia. sign_cases. Qed.
End signs.

Lemma size_double sz : 2 ^ bit_size sz = 2 * 2 ^ (bit_size sz - 1).
Proof. by destruct sz. Qed.

Lemma zx_unsigned sz x : zx sz x = unsigned_of (2 ^ (bit_size sz - 1)) (sx sz x).
Proof. unfold unsigned_of, sx, signed, zx. destruct sz; cbn [bit_size]; case_match; Z.div_mod_to_equations; lia. Qed.

(** The operands of an instruction and its result, for the lemmas above. *)
Ltac operands sz src dst res :=
  destruct (sx_cases sz src) as (? & _ & ?), (sx_cases sz dst) as (? & _ & ?);
  let q := fresh "q" in let E := fresh "E" in destruct (sx_cases sz res) as (q & E & ?); rewrite size_double in E;
  assert (0 < 2 ^ (bit_size sz - 1)) by (by destruct sz).

Lemma sum_flags sz src dst c :
  flag_add sz src dst c =
  let sum := sx sz dst + sx sz src in
  let carry := 2 ^ bit_size sz <=? zx sz dst + zx sz src in
  COk (u32 sum) (with_flags carry (sx sz sum <? 0) (sx sz sum =? 0) (too_big sz sum) carry c).
Proof.
  unfold flag_add. rewrite sx_u32.
  assert ((zx sz (Z.lnot dst) <? zx sz src) = (2 ^ bit_size sz <=? zx sz dst + zx sz src)) as ->.
  { unfold Z.lnot, zx. destruct sz; cbn [bit_size]; unfold Z.pred; Z.div_mod_to_equations; lia. }
  operands sz src dst (sx sz dst + sx sz src).
  rewrite (sum_overflow (2 ^ (bit_size sz - 1)) _ _ 0 _ q), Z.add_0_r by (rewrite ?Z.add_0_r; first [assumption | lia]). by destruct c.
Qed.

Lemma difference_flags sz src dst c :
  flag_sub sz src dst c =
  let diff := sx sz dst - sx sz src in
  let borrow := zx sz dst <? zx sz src in
  COk (u32 diff) (with_flags borrow (sx sz diff <? 0) (sx sz diff =? 0) (too_big sz diff) borrow c).
Proof.
  unfold flag_sub. rewrite sx_u32. operands sz src dst (sx sz dst - sx sz src).
  rewrite (diff_overflow (2 ^ (bit_size sz - 1)) _ _ 0 _ q), Z.sub_0_r by (rewrite ?Z.sub_0_r; first [assumption | lia]). by destruct c.
Qed.

Lemma cmp_flags sz src dst c :
  flag_cmp sz src dst c =
  let diff := sx sz dst - sx sz src in
  COk tt (with_flags c.(xflg) (sx sz diff <? 0) (sx sz diff =? 0) (too_big sz diff) (zx sz dst <? zx sz src) c).
Proof.
  unfold flag_cmp. rewrite sx_u32. operands sz src dst (sx sz dst - sx sz src).
  rewrite (diff_overflow (2 ^ (bit_size sz - 1)) _ _ 0 _ q), Z.sub_0_r by (rewrite ?Z.sub_0_r; first [assumption | lia]). by destruct c.
Qed.

(** The flags of ADDX and SUBX, with the result of a full adder; Z is only ever cleared. *)
Lemma addx_flags sz src dst c : let x := b2z c.(xflg) in let sum := sx sz dst + sx sz src + x in
  (flag_addx sz (u32 sum) (sx sz src) (sx sz dst);; flag_zn sz (u32 sum)) c =
  let carry := 2 ^ bit_size sz <=? zx sz dst + zx sz src + x in
  COk tt (with_flags carry (sx sz sum <? 0) (c.(zflg) && (sx sz sum =? 0)) (too_big sz sum) carry c).
Proof.
  intros x sum. assert (0 <= x <= 1) by (unfold x; destruct c.(xflg); cbn; lia).
  unfold flag_addx. rewrite !sx_sx. rewrite sx_u32. operands sz src dst sum.
  rewrite (sum_overflow (2 ^ (bit_size sz - 1)) _ _ x _ q), (sum_carry (2 ^ (bit_size sz - 1)) _ _ x _ q), <- !zx_unsigned, <- size_double by auto.
  unfold flag_zn, mbind, C_bind. rewrite sx_u32. by destruct c.
Qed.

Lemma subx_flags sz src dst c : let x := b2z c.(xflg) in let diff := sx sz dst - sx sz src - x in
  (flag_subx sz (u32 diff) (sx sz src) (sx sz dst);; flag_zn sz (u32 diff)) c =
  let borrow := zx sz dst <? zx sz src + x in
  COk tt (with_flags borrow (sx sz diff <? 0) (c.(zflg) && (sx sz diff =? 0)) (too_big sz diff) borrow c).
Proof.
  intros x diff. assert (0 <= x <= 1) by (unfold x; destruct c.(xflg); cbn; lia).
  unfold flag_subx. rewrite !sx_sx. rewrite sx_u32. operands sz src dst diff.
  rewrite (xorb_comm (sx sz dst <? 0) (sx sz diff <? 0)).
  rewrite (diff_overflow (2 ^ (bit_size sz - 1)) _ _ x _ q) by auto. rewrite (xorb_comm (sx sz diff <? 0)), (diff_borrow (2 ^ (bit_size sz - 1)) _ _ x _ q), <- !zx_unsigned by auto.
  unfold flag_zn, mbind, C_bind. rewrite sx_u32. by destruct c.
Qed.

(** ** Instructions on data registers *)

Section registers.
Context `{ram_config} `{host}.

Lemma store_dreg v r sz a xl c : 0 <= aget c.(greg) r < 4294967296 →
  genastore v Dreg r sz a xl c = COk tt (c_greg (aset c.(greg) r (low_part sz (aget c.(greg) r) (zx sz v))) c).
Proof.
  intros Ho. rewrite <- (low_part_code sz _ (zx sz v)) by (auto using zx_range).
  assert (∀ m k, m = 2 ^ k - 1 → 0 <= k → bit_size sz = k → zx sz v .& m = v .& m) as E.
  { intros m k -> Hk Hn. rewrite !(land_ones_const _ (2 ^ k - 1) k) by done. unfold zx. rewrite Hn. apply Z.mod_mod. by apply Z.pow_nonzero. }
  assert (sz = sz_long → u32 v = u32 (zx sz v)) as El.
  { intros ->. unfold u32, zx. cbn. by rewrite Z.mod_mod. }
  destruct sz; unfold genastore, dreg, set_dreg, c_get, c_upd, mbind, C_bind.
  - rewrite (E 0xff 8) by done. reflexivity.
  - rewrite (E 0xffff 16) by done. reflexivity.
  - rewrite (El eq_refl). reflexivity.
Qed.

Lemma src_dreg i srcreg c : i.(smode) = Dreg → src_op i srcreg c = COk (sx i.(size) (aget c.(greg) srcreg)) c.
Proof. intros Hm. unfold src_op, fetch_operand, genamode, genamode2. by rewrite Hm. Qed.
Lemma dst_dreg i dstreg c : i.(dmode) = Dreg → dst_op i dstreg c = COk (0, sx i.(size) (aget c.(greg) dstreg)) c.
Proof. intros Hm. unfold dst_op, genamode, genamode2. by rewrite Hm. Qed.
Lemma src_dst_dreg i srcreg dstreg c : i.(smode) = Dreg → i.(dmode) = Dreg →
  src_dst_fixed i srcreg dstreg c = COk (sx i.(size) (aget c.(greg) srcreg), (0, sx i.(size) (aget c.(greg) dstreg))) c.
Proof. intros Hs Hd. unfold src_dst_fixed, genamode, genamode2, fixup_done. by rewrite Hs, Hd. Qed.

End registers.

Lemma seq_assoc (m1 m2 m3 : C unit) c : (m1;; m2;; m3) c = ((m1;; m2);; m3) c.
Proof. unfold mbind, C_bind. by destruct (m1 c). Qed.

Inductive arith := aADD | aSUB | aCMP | aADDX | aSUBX.
Definition arith_mnem (k : arith) : instrmnem :=
  match k with aADD => i_ADD | aSUB => i_SUB | aCMP => i_CMP | aADDX => i_ADDX | aSUBX => i_SUBX end.
Definition adds (k : arith) : bool := match k with aADD | aADDX => true | _ => false end.
Definition extended (k : arith) : bool := match k with aADDX | aSUBX => true | _ => false end.

(** What an instruction should compute from the signed operands, and its carry or borrow from the
    unsigned ones. *)
Definition arith_value (k : arith) (s d : Z) (x : bool) : Z :=
  let x := if extended k then b2z x else 0 in if adds k then d + s + x else d - s - x.
Definition arith_carry (k : arith) (sz : wordsizes) (s d : Z) (x : bool) : bool :=
  let x := if extended k then b2z x else 0 in if adds k then 2 ^ bit_size sz <=? d + s + x else d <? s + x.

Definition arith_state (k : arith) (sz : wordsizes) (srcreg dstreg : Z) (c : cpu) : cpu :=
  let s := aget c.(greg) srcreg in let d := aget c.(greg) dstreg in
  let v := arith_value k (sx sz s) (sx sz d) c.(xflg) in
  let carry := arith_carry k sz (zx sz s) (zx sz d) c.(xflg) in
  c_greg (match k with aCMP => c.(greg) | _ => aset c.(greg) dstreg (low_part sz d (zx sz v)) end)
    (with_flags (match k with aCMP => c.(xflg) | _ => carry end) (sx sz v <? 0)
       ((sx sz v =? 0) && (if extended k then c.(zflg) else true)) (too_big sz v) carry c).

Lemma arith_body `{ram_config} `{host} (k : arith) (i : instr) (opcode srcreg dstreg : Z) (c : cpu) :
  i.(mnemo) = arith_mnem k → i.(smode) = Dreg → i.(dmode) = Dreg → 0 <= aget c.(greg) dstreg < 4294967296 →
  body i opcode srcreg dstreg c = COk tt (arith_state k i.(size) srcreg dstreg c).
Proof.
  intros Hk Hs Hd Hr. unfold body. rewrite Hk.
  assert (∀ v c', c'.(greg) = c.(greg) → zx i.(size) (u32 v) = zx i.(size) v →
    store_dst i dstreg (u32 v) (0, sx i.(size) (aget c.(greg) dstreg)) c' =
    COk tt (c_greg (aset c.(greg) dstreg (low_part i.(size) (aget c.(greg) dstreg) (zx i.(size) v))) c')) as Hst.
  { intros v c' Eg Ev. unfold store_dst. rewrite Hd, store_dreg by by rewrite Eg. unfold isz. by rewrite Ev, Eg. }
  assert (∀ v, zx i.(size) (u32 v) = zx i.(size) v) as Hu.
  { intros v. unfold zx, u32. destruct i.(size); cbn [bit_size]; Z.div_mod_to_equations; lia. }
  unfold arith_state, arith_value, arith_carry. destruct k; cbn [arith_mnem adds extended].
  - unfold op_ADD, mbind, C_bind. rewrite src_dreg, dst_dreg by done. unfold isz. cbn [snd].
    rewrite sum_flags, !sx_sx, !zx_sx, !Z.add_0_r. cbn beta iota zeta. rewrite Hst by auto. by rewrite andb_true_r.
  - unfold op_SUB, mbind, C_bind. rewrite src_dreg, dst_dreg by done. unfold isz. cbn [snd].
    rewrite difference_flags, !sx_sx, !zx_sx, !Z.sub_0_r, !Z.add_0_r. cbn beta iota zeta. rewrite Hst by auto. by rewrite andb_true_r.
  - unfold op_CMP, mbind, C_bind. rewrite src_dreg, dst_dreg by done. unfold isz. cbn [snd].
    rewrite cmp_flags, !sx_sx, !zx_sx, !Z.sub_0_r, !Z.add_0_r. cbn beta iota zeta. rewrite andb_true_r. by destruct c.
  - unfold op_ADDX. unfold mbind at 1 2, C_bind at 1 2. rewrite src_dst_dreg by done. unfold isz, c_get. cbn [snd].
    rewrite seq_assoc. unfold mbind at 1, C_bind at 1. rewrite addx_flags. cbn beta iota zeta. rewrite Hst by auto. by rewrite andb_comm.
  - unfold op_SUBX. unfold mbind at 1 2, C_bind at 1 2. rewrite src_dst_dreg by done. unfold isz, c_get. cbn [snd].
    rewrite seq_assoc. unfold mbind at 1, C_bind at 1. rewrite subx_flags. cbn beta iota zeta. rewrite Hst by auto. by rewrite andb_comm.
Qed.

(** C16: ADD, SUB, CMP, ADDX and SUBX between data registers, on bytes, words and long words: the low
    part of the destination becomes the sum or difference modulo the size (CMP keeps it), C is
    the unsigned carry or borrow (with the extend bit for ADDX and SUBX) and X its copy (CMP keeps
    X), V says that the signed result does not fit, N is the sign of the stored result and Z that
    it is zero (ADDX and SUBX only ever clear Z); the program counter moves on. *)
Theorem arithmetic_correct `{ram_config} `{host} (k : arith) (i : instr) (opcode srcreg dstreg : Z) (c : cpu) :
  i.(mnemo) = arith_mnem k → i.(plev) = 0 → i.(smode) = Dreg → i.(dmode) = Dreg → 0 <= aget c.(greg) dstreg < 4294967296 →
  handler i opcode srcreg dstreg c = COk tt (c_pc_offset 0 (c_pc (u32 (c.(pc) + 2)) (arith_state k i.(size) srcreg dstreg c))).
Proof.
  intros Hk Hp Hs Hd Hr.
  rewrite (handler_ok _ _ _ _ _ _ (or_introl Hp) (arith_body k i opcode srcreg dstreg (c_pc_offset 2 c) Hk Hs Hd Hr)). by destruct c.
Qed.

Definition addx_entry (sz : wordsizes) : instr := mk_instr i_ADDX 0 0 sz Dreg 0 Dreg 0 0 (Some 0) (Some 9).

(** SUBX.B D1,D2: 0x80 - 0x7f - 1 = 0 with overflow. *)
Lemma arithmetic_correct_witness :
  let H := example_ram in let H0 := example_host in
  let c := c_zflg true (c_greg (aset (aset ∅ 1 0x7f) 2 0x180) example_cpu) in
  ∃ c', handler (mk_instr i_SUBX 0 0 sz_byte Dreg 0 Dreg 0 0 (Some 0) (Some 9)) 0x9501 1 2 c = COk tt c'
    ∧ aget c'.(greg) 2 = 0x100 ∧ c'.(vflg) = true ∧ c'.(cflg) = false ∧ c'.(zflg) = true.
Proof.
  intros H H0 c. eexists. split; [|repeat split; shelve].
  - apply (arithmetic_correct aSUBX); try reflexivity. vm_compute. split; [discriminate | reflexivity].
  Unshelve. all: vm_compute; reflexivity.
Defined.

(** ** Numbers of several words *)

(** The number in a list of registers, least significant long word first. *)
Fixpoint number (g : gmap Z Z) (rs : list Z) : Z :=
  match rs with [] => 0 | r :: rs => aget g r + 4294967296 * number g rs end.

(** ADDX.L between the registers of each pair. *)
Fixpoint addx_all `{ram_config} `{host} (pairs : list (Z * Z)) : C unit :=
  match pairs with
  | [] => mret tt
  | (s, d) :: pairs => handler (addx_entry sz_long) (0xd180 .| (d ≪ 9) .| s) s d;; addx_all pairs
  end.

Lemma addx_long `{ram_config} `{host} s d c : 0 <= aget c.(greg) s < 4294967296 → 0 <= aget c.(greg) d < 4294967296 →
  let sum := aget c.(greg) d + aget c.(greg) s + b2z c.(xflg) in
  ∃ c', handler (addx_entry sz_long) (0xd180 .| (d ≪ 9) .| s) s d c = COk tt c' ∧
    c'.(greg) = aset c.(greg) d (sum mod 4294967296) ∧ c'.(xflg) = (4294967296 <=? sum) ∧ c'.(zflg) = c.(zflg) && (sum mod 4294967296 =? 0).
Proof.
  intros Hs Hd sum. eexists. split.
  - apply (handler_ok (addx_entry sz_long)); [by left|]. by apply (arith_body aADDX).
  - unfold arith_state, arith_value, arith_carry. cbn -[sx zx low_part aget aset too_big u32 Z.pow Z.add]. unfold low_part. cbn [bit_size].
    change (2 ^ 32) with 4294967296. rewrite (Z.div_small (aget c.(greg) d)) by done. rewrite Z.mul_0_l, Z.add_0_l.
    assert (∀ r, 0 <= r < 4294967296 → zx sz_long r = r) as Hz by (intros; by apply Z.mod_small). rewrite (Hz _ Hs), (Hz _ Hd).
    set (v := sx sz_long (aget c.(greg) d) + sx sz_long (aget c.(greg) s) + b2z c.(xflg)).
    assert (zx sz_long v = sum mod 4294967296) as E.
    { unfold v, sum, zx, sx, signed. cbn [bit_size]. Z.div_mod_to_equations; lia. }
    assert ((sx sz_long v =? 0) = (zx sz_long v =? 0)) as Ez by (rewrite <- (sx_zx _ v); apply sx_zero, zx_range).
    rewrite Ez, E. repeat split. apply andb_comm.
Qed.

Lemma number_aset g d v rs : d ∉ rs → number (aset g d v) rs = number g rs.
Proof.
  induction rs as [|r rs IH]; [done|]. intros Hd. apply not_elem_of_cons in Hd as [Hn Hd]. cbn. by rewrite IH, aget_aset_ne.
Qed.

(** A digit in front of a sum. *)
Lemma digit_sum lo rest R : 0 <= lo < 4294967296 → 0 < R →
  (lo + 4294967296 * rest) mod (4294967296 * R) = lo + 4294967296 * (rest mod R)
  ∧ (4294967296 * R <=? lo + 4294967296 * rest) = (R <=? rest)
  ∧ ((lo =? 0) && (rest mod R =? 0)) = (lo + 4294967296 * (rest mod R) =? 0).
Proof.
  intros Hl HR. pose proof (Z.mod_pos_bound rest R HR). repeat split; [|lia|lia].
  symmetry. apply (Z.mod_unique_pos _ _ (rest / R)); [nia|]. pose proof (Z.div_mod rest R ltac:(lia)). nia.
Qed.

(** C24: A number of any length can be added by ADDX.L, one long word after the other: when the pairs
    (source register, destination register) start with the least significant long words and no
    register is written twice or read after it is written, the destination registers hold the
    sum of both numbers and of X, modulo the range; X is the carry out of the top; Z, if it was
    set before, tells that the whole sum is zero; all other registers are unchanged. *)
Theorem long_addition `{ram_config} `{host} (pairs : list (Z * Z)) (c : cpu) :
  (∀ r, 0 <= aget c.(greg) r < 4294967296) → NoDup pairs.*2 → (∀ r, r ∈ pairs.*1 → r ∉ pairs.*2) →
  let range := 4294967296 ^ Z.of_nat (length pairs) in
  let sum := number c.(greg) pairs.*2 + number c.(greg) pairs.*1 + b2z c.(xflg) in
  ∃ c', addx_all pairs c = COk tt c' ∧ number c'.(greg) pairs.*2 = sum mod range ∧
    c'.(xflg) = (range <=? sum) ∧ c'.(zflg) = c.(zflg) && (sum mod range =? 0) ∧
    ∀ r, r ∉ pairs.*2 → aget c'.(greg) r = aget c.(greg) r.
Proof.
  revert c. induction pairs as [|[s d] pairs IH]; intros c Hg Hnd Hrw range sum.
  { exists c. cbn in *. change range with 1. unfold sum. rewrite Z.mod_1_r, andb_true_r. destruct c.(xflg); auto. }
  cbn [fmap list_fmap fst snd] in Hnd, Hrw. apply NoDup_cons in Hnd as [Hd Hnd].
  assert (d ∉ pairs.*1) as Hd1 by (intros Hin; apply (Hrw d); [by right | by left]).
  destruct (addx_long s d c (Hg s) (Hg d)) as (c1 & E1 & G1 & X1 & Z1). set (t := aget c.(greg) d + aget c.(greg) s + b2z c.(xflg)) in *.
  assert (0 <= t mod 4294967296 < 4294967296) as Hlo by by apply Z.mod_pos_bound.
  destruct (IH c1) as (c' & E & N & X & Zf & Rest); [ | done | intros r Hr Hr2; apply (Hrw r); by right | ].
  { intros r. rewrite G1, aget_aset. case_decide; auto. }
  rewrite G1, !number_aset in N, X, Zf by done.
  set (rest := number c.(greg) pairs.*2 + number c.(greg) pairs.*1 + b2z c1.(xflg)) in *. set (R := 4294967296 ^ Z.of_nat (length pairs)) in *.
  assert (range = 4294967296 * R) as ->.
  { unfold range, R. cbn [length]. by rewrite Nat2Z.inj_succ, Z.pow_succ_r by lia. }
  assert (sum = t mod 4294967296 + 4294967296 * rest) as ->.
  { unfold sum, rest. rewrite X1. cbn [fmap list_fmap fst snd number]. pose proof (Hg s). pose proof (Hg d).
    assert (0 <= b2z c.(xflg) <= 1) by (destruct c.(xflg); cbn; lia).
    assert (t mod 4294967296 = t - 4294967296 * b2z (4294967296 <=? t)) as ->.
    { unfold t. destruct (Z.leb_spec 4294967296 (aget c.(greg) d + aget c.(greg) s + b2z c.(xflg))); cbn [b2z];
        symmetry; [apply (Z.mod_unique_pos _ _ 1) | apply (Z.mod_unique_pos _ _ 0)]; lia. }
    unfold t. lia. }
  destruct (digit_sum (t mod 4294967296) rest R Hlo) as (D1 & D2 & D3); [apply Z.pow_pos_nonneg; lia|].
  exists c'. split; [|split; [|split; [|split]]].
  - cbn [addx_all]. unfold mbind at 1, C_bind at 1. by rewrite E1.
  - cbn [fmap list_fmap fst snd number]. rewrite N, D1, (Rest d Hd), G1. by rewrite aget_aset_eq.
  - by rewrite X, D2.
  - by rewrite Zf, Z1, D1, <- D3, andb_assoc.
  - intros r Hr. apply not_elem_of_cons in Hr as [Hn Hr]. rewrite (Rest r Hr), G1. by apply aget_aset_ne.
Qed.

(** 96 bits: D4, D5, D6 to D0, D1, D2. *)
Lemma long_addition_witness :
  let H := example_ram in let H0 := example_host in
  let c := c_xflg false (c_greg (aset (aset (aset (aset ∅ 0 0xffffffff) 1 0xffffffff) 2 1) 4 1) example_cpu) in
  ∃ c', addx_all [(4, 0); (5, 1); (6, 2)] c = COk tt c' ∧ number c'.(greg) [0; 1; 2] = 2 * 4294967296 ^ 2 ∧ c'.(xflg) = false.
Proof.
  intros H H0 c.
  destruct (long_addition [(4, 0); (5, 1); (6, 2)] c) as (c' & E & N & X & _).
  - intros r. unfold c. cbn [greg c_greg c_xflg]. rewrite !aget_aset. repeat case_decide; try lia. rewrite aget_empty. lia.
  - by apply (bool_decide_unpack _).
  - intros r Hr Hr2. cbn in Hr, Hr2. set_solver.
  - exists c'. split; [exact E|]. split; [etransitivity; [exact N | vm_compute; reflexivity] | etransitivity; [exact X | vm_compute; reflexivity]].
Defined.

(** ** Decimal arithmetic *)

(** Two decimal digits in a byte. *)
Definition is_bcd (v : Z) : Prop := 0 <= v / 16 <= 9 ∧ 0 <= v mod 16 <= 9.
Definition bcd_value (v : Z) : Z := 10 * (v / 16) + v mod 16.

Lemma bcd_digits v : is_bcd (zx sz_byte v) → ∃ a b, 0 <= a <= 9 ∧ 0 <= b <= 9 ∧ zx sz_byte v = 16 * a + b ∧
  v .& 0xf = b ∧ v .& 0xf0 = 16 * a ∧ v .& 0xff = 16 * a + b.
Proof.
  intros [Ha Hb]. unfold zx in *. cbn [bit_size] in *. exists ((v mod 2 ^ 8) / 16), ((v mod 2 ^ 8) mod 16). split; [done|]. split; [done|].
  rewrite (land_ones_const v 0xf 4), (land_ones_const v 0xff 8), (land_hi v 0xf0 4 8) by (reflexivity || lia).
  change (2 ^ 8) with 256. change (2 ^ 4) with 16. change (2 ^ (8 - 4)) with 16. repeat split; Z.div_mod_to_equations; lia.
Qed.

Lemma bcd_make a b : 0 <= a <= 9 → 0 <= b <= 9 → is_bcd (16 * a + b) ∧ bcd_value (16 * a + b) = 10 * a + b.
Proof. intros. unfold is_bcd, bcd_value. Z.div_mod_to_equations; lia. Qed.

Lemma bcd_read a b : 0 <= a <= 9 → 0 <= b <= 9 → bcd_value (16 * a + b) = 10 * a + b.
Proof. intros. by apply bcd_make. Qed.

(** A byte that holds the decimal number [n]. *)
Definition holds_decimal (n v : Z) : Prop := is_bcd (zx sz_byte v) ∧ bcd_value (zx sz_byte v) = n.

Lemma holds_intro n v a b : 0 <= a <= 9 → 0 <= b <= 9 → zx sz_byte v = 16 * a + b → n = 10 * a + b → holds_decimal n v.
Proof. intros Ha Hb E ->. unfold holds_decimal. rewrite E. by apply bcd_make. Qed.

Lemma decimal_zero n v : holds_decimal n v → (sx sz_byte v =? 0) = (n =? 0).
Proof.
  intros [[Ha Hb] <-]. rewrite <- (sx_zx sz_byte v), sx_zero by apply zx_range. unfold bcd_value.
  pose proof (Z.div_mod (zx sz_byte v) 16). destruct (Z.eqb_spec (zx sz_byte v) 0) as [E|]; [by rewrite E|]. lia.
Qed.

Definition decimal_result (r : cres Z) (n : Z) (carry : bool) (c : cpu) : Prop :=
  ∃ v c', r = COk v c' ∧ holds_decimal n v ∧ c'.(cflg) = carry ∧ c'.(xflg) = carry ∧ c'.(zflg) = c.(zflg) && (n =? 0) ∧ c'.(greg) = c.(greg).

Lemma carry_range b : 0 <= b2z b <= 1.
Proof. destruct b; cbn; lia. Qed.

Lemma abcd_decimal src dst c : is_bcd (zx sz_byte src) → is_bcd (zx sz_byte dst) →
  let sum := bcd_value (zx sz_byte dst) + bcd_value (zx sz_byte src) + b2z c.(xflg) in
  decimal_result (ABCD src dst c) (sum mod 100) (100 <=? sum) c.
Proof.
  intros Hs Hd. destruct (bcd_digits _ Hs) as (a & b & Ha & Hb & -> & E1 & E2 & _), (bcd_digits _ Hd) as (a' & b' & Ha' & Hb' & -> & F1 & F2 & _).
  rewrite !bcd_read by done. pose proof (carry_range c.(xflg)) as Hx. set (x := b2z c.(xflg)) in *. intros sum.
  unfold decimal_result.
  assert (ABCD src dst c =
    let lo := b + b' + x in let t := 16 * a + 16 * a' + lo in
    let n1 := if 9 <? lo then t + 6 else t in
    let cf := 0x90 <? n1 .& 0x3f0 in
    let n2 := if cf then n1 + 0x60 else n1 in
    COk n2 (with_flags cf (sx sz_byte n2 <? 0) (c.(zflg) && (sx sz_byte n2 =? 0)) ((t .& 0x80 =? 0) && nz (n2 .& 0x80)) cf c)) as ->.
  { unfold ABCD, mbind, C_bind, c_get. rewrite E1, E2, F1, F2. fold x. cbv zeta.
    rewrite (u16_small (b + b' + x)), (u16_small (16 * a + 16 * a')), (u16_small (16 * a + 16 * a' + (b + b' + x))) by lia.
    rewrite (u16_small (16 * a + 16 * a' + (b + b' + x) + 6)) by lia.
    set (n1 := if 9 <? b + b' + x then _ else _). assert (0 <= n1 < 1000) by (unfold n1; case_match; lia).
    rewrite (u16_small (n1 + 0x60)) by lia. by destruct c. }
  cbv zeta. rewrite (land_hi _ 0x3f0 4 10) by (reflexivity || lia). change (2 ^ 4) with 16. change (2 ^ (10 - 4)) with 64.
  set (lo := b + b' + x). set (t := 16 * a + 16 * a' + lo). set (n1 := if 9 <? lo then t + 6 else t). set (n2 := if 0x90 <? n1 / 16 mod 64 * 16 then n1 + 0x60 else n1).
  assert (holds_decimal (sum mod 100) n2 ∧ (0x90 <? n1 / 16 mod 64 * 16) = (100 <=? sum)) as [Hh Hc].
  { set (ci := b2z (9 <? lo)). set (co := b2z (9 <? a + a' + ci)).
    assert (n1 = 16 * (a + a' + ci) + (lo - 10 * ci)) as En1.
    { unfold n1, t, ci, lo. destruct (Z.ltb_spec 9 (b + b' + x)); cbn [b2z]; lia. }
    assert (0 <= lo - 10 * ci <= 9) by (unfold ci, lo; destruct (Z.ltb_spec 9 (b + b' + x)); cbn [b2z]; lia).
    assert (0 <= ci <= 1) by apply carry_range.
    assert ((n1 / 16) mod 64 = a + a' + ci) as Ed.
    { rewrite En1. replace (_ / 16) with (a + a' + ci) by (apply (Z.div_unique_pos _ _ _ (lo - 10 * ci)); lia). apply Z.mod_small; lia. }
    assert (sum = 10 * (a + a' + ci) + (lo - 10 * ci)) as Es by (unfold sum, lo; lia).
    rewrite Ed. split; [|lia].
    apply (holds_intro _ _ (a + a' + ci - 10 * co) (lo - 10 * ci)); [unfold co; destruct (Z.ltb_spec 9 (a + a' + ci)); cbn [b2z]; lia | done | |].
    - unfold n2, zx. rewrite Ed, En1. cbn [bit_size]. unfold co. destruct (Z.ltb_spec 9 (a + a' + ci)); cbn [b2z].
      + rewrite (proj2 (Z.ltb_lt _ _)) by lia. symmetry. apply (Z.mod_unique_pos _ _ 1); lia.
      + rewrite (proj2 (Z.ltb_ge _ _)) by lia. symmetry. apply (Z.mod_unique_pos _ _ 0); lia.
    - rewrite Es. symmetry. apply (Z.mod_unique_pos _ _ co); unfold co; destruct (Z.ltb_spec 9 (a + a' + ci)); cbn [b2z]; lia. }
  exists n2. eexists. split; [reflexivity|]. split; [exact Hh|]. cbn [cflg xflg zflg greg with_flags c_xflg c_nflg c_zflg c_vflg c_cflg].
  rewrite (decimal_zero _ _ Hh). auto.
Qed.

(** The condition the code takes for a borrow of the lower digit. *)
Lemma low_borrow lo : -10 <= lo <= 9 → nz (u16 lo .& 0xf0) = (lo <? 0).
Proof.
  intros. rewrite (land_hi _ 0xf0 4 8) by (reflexivity || lia). change (2 ^ 4) with 16. change (2 ^ (8 - 4)) with 16. unfold u16, nz.
  destruct (Z.ltb_spec lo 0).
  - replace (lo mod 65536) with (lo + 65536) by (apply (Z.mod_unique_pos _ _ (-1)); lia).
    replace ((lo + 65536) / 16) with 4095 by (apply (Z.div_unique_pos _ _ _ (lo + 16)); lia). done.
  - rewrite (Z.mod_small lo), Z.div_small by lia. done.
Qed.

Lemma borrow_bits d k : -200 <= d < 200 → (k = 0x100 ∨ k = 0x300) → (0xff <? (d .& k)) = (d <? 0).
Proof.
  intros Hd [-> | ->].
  - rewrite (land_hi d 0x100 8 9) by (reflexivity || lia). change (2 ^ 8) with 256. change (2 ^ (9 - 8)) with 2. Z.div_mod_to_equations; lia.
  - rewrite (land_hi d 0x300 8 10) by (reflexivity || lia). change (2 ^ 8) with 256. change (2 ^ (10 - 8)) with 4. Z.div_mod_to_equations; lia.
Qed.

Lemma u16_u16 x y : u16 (u16 x + y) = u16 (x + y).
Proof. unfold u16. apply Zplus_mod_idemp_l. Qed.

Lemma sbcd_decimal src dst c : is_bcd (zx sz_byte src) → is_bcd (zx sz_byte dst) →
  let diff := bcd_value (zx sz_byte dst) - bcd_value (zx sz_byte src) - b2z c.(xflg) in
  decimal_result (SBCD src dst c) (diff mod 100) (diff <? 0) c.
Proof.
  intros Hs Hd. destruct (bcd_digits _ Hs) as (a & b & Ha & Hb & -> & E1 & E2 & E3), (bcd_digits _ Hd) as (a' & b' & Ha' & Hb' & -> & F1 & F2 & F3).
  rewrite !bcd_read by done. pose proof (carry_range c.(xflg)) as Hx. set (x := b2z c.(xflg)) in *. intros diff.
  set (lo := b' - b - x). set (D := 16 * a' - 16 * a + lo). set (bi := b2z (lo <? 0)). set (bo := b2z (D <? 0)).
  set (n := u16 (D - 6 * bi - 0x60 * bo)).
  assert (0 <= bi <= 1 ∧ 0 <= bo <= 1) as [Hbi Hbo] by (split; apply carry_range).
  assert (∃ v f, SBCD src dst c = COk n (with_flags (D - 6 * bi <? 0) f (c.(zflg) && (sx sz_byte n =? 0)) v (D - 6 * bi <? 0) c)) as (v & f & ->).
  { do 2 eexists. unfold SBCD, mbind, C_bind, c_get. rewrite E1, E2, E3, F1, F2, F3. fold x. cbv zeta.
    change (b' - b - x) with lo. rewrite low_borrow by (unfold lo; lia).
    replace (16 * a' + b' - (16 * a + b) - x) with D by (unfold D, lo; lia). rewrite (borrow_bits D 0x100) by (auto; unfold D, lo; lia).
    assert ((if lo <? 0 then (u16 (u16 (u16 (16 * a' - 16 * a) + u16 lo) - 6), 6) else (u16 (u16 (16 * a' - 16 * a) + u16 lo), 0)) = (u16 (D - 6 * bi), 6 * bi)) as ->.
    { assert (u16 (u16 (16 * a' - 16 * a) + u16 lo) = u16 D) as -> by (rewrite u16_u16, Z.add_comm, u16_u16; f_equal; unfold D; lia).
      unfold bi. destruct (lo <? 0); cbn [b2z]; [|by rewrite Z.sub_0_r]. rewrite <- Z.add_opp_r, u16_u16. done. }
    cbn beta iota. replace (16 * a' + b' - (16 * a + b) - 6 * bi - x) with (D - 6 * bi) by (unfold D, lo; lia).
    rewrite (borrow_bits (D - 6 * bi) 0x300) by (auto; unfold D, lo; lia).
    assert ((if D <? 0 then u16 (u16 (D - 6 * bi) - 0x60) else u16 (D - 6 * bi)) = n) as ->.
    { unfold n, bo. destruct (D <? 0); cbn [b2z]; [|by rewrite Z.sub_0_r]. rewrite <- Z.add_opp_r, u16_u16. done. }
    by destruct c. }
  assert (0 <= lo + 10 * bi <= 9) as Hl by (unfold bi, lo; destruct (Z.ltb_spec (b' - b - x) 0); cbn [b2z]; lia).
  assert ((D <? 0) = (diff <? 0) ∧ (D - 6 * bi <? 0) = (diff <? 0)) as [Eb Ec] by (unfold D, diff, lo in *; lia).
  assert (0 <= a' - a - bi + 10 * bo <= 9) as Hh.
  { unfold bo. rewrite Eb. unfold diff. destruct (Z.ltb_spec (10 * a' + b' - (10 * a + b) - x) 0); cbn [b2z]; unfold lo in *; lia. }
  assert (holds_decimal (diff mod 100) n) as Hd'.
  { apply (holds_intro _ _ (a' - a - bi + 10 * bo) (lo + 10 * bi)); auto.
    - unfold n, zx, u16. cbn [bit_size]. change (2 ^ 8) with 256. unfold D. Z.div_mod_to_equations. lia.
    - symmetry. apply (Z.mod_unique_pos _ _ (- bo)); [lia|]. unfold diff, lo. lia. }
  exists n. eexists. split; [reflexivity|]. split; [exact Hd'|]. cbn [cflg xflg zflg greg with_flags c_xflg c_nflg c_zflg c_vflg c_cflg].
  rewrite (decimal_zero _ _ Hd'). auto.
Qed.

Lemma nbcd_decimal src c : is_bcd (zx sz_byte src) →
  let diff := 0 - bcd_value (zx sz_byte src) - b2z c.(xflg) in
  decimal_result (NBCD src c) (diff mod 100) (diff <? 0) c.
Proof.
  intros Hs. destruct (bcd_digits _ Hs) as (a & b & Ha & Hb & -> & E1 & E2 & _).
  rewrite bcd_read by done. pose proof (carry_range c.(xflg)) as Hx. set (x := b2z c.(xflg)) in *. intros diff.
  set (k := b + x). set (bi := b2z (0 <? k)). set (D := - (16 * a + k + 6 * bi)). set (bo := b2z (D <? 0)).
  assert (0 <= bi <= 1 ∧ 0 <= bo <= 1) as [Hbi Hbo] by (split; apply carry_range).
  set (n := u16 (D - 0x60 * bo)).
  assert (∃ v f, NBCD src c = COk n (with_flags (D <? 0) f (c.(zflg) && (sx sz_byte n =? 0)) v (D <? 0) c)) as (v & f & ->).
  { do 2 eexists. unfold NBCD, mbind, C_bind, c_get. rewrite E1, E2. fold x. cbv zeta.
    replace (- b - x) with (- k) by (unfold k; lia).
    assert ((if 9 <? u16 (- k) then u16 (u16 (- k) - 6) else u16 (- k)) = u16 (- k - 6 * bi)) as ->.
    { unfold bi. destruct (Z.ltb_spec 0 k); cbn [b2z].
      - assert (u16 (- k) = 65536 - k) as Ek by (symmetry; apply (Z.mod_unique_pos _ _ (-1)); unfold k; lia).
        rewrite (proj2 (Z.ltb_lt _ _)) by (rewrite Ek; unfold k; lia). rewrite <- Z.add_opp_r, u16_u16. done.
      - assert (k = 0) as -> by (unfold k in *; lia). done. }
    assert (u16 (u16 (- (16 * a)) + u16 (- k - 6 * bi)) = u16 D) as -> by (rewrite u16_u16, Z.add_comm, u16_u16; f_equal; unfold D; lia).
    assert ((0x90 <? u16 D .& 0x1f0) = (D <? 0)) as ->.
    { rewrite (land_hi _ 0x1f0 4 9) by (reflexivity || lia). change (2 ^ 4) with 16. change (2 ^ (9 - 4)) with 32. unfold u16, D, k in *. Z.div_mod_to_equations; lia. }
    assert ((if D <? 0 then u16 (u16 D - 0x60) else u16 D) = n) as ->.
    { unfold n, bo. destruct (D <? 0); cbn [b2z]; [|by rewrite Z.sub_0_r]. rewrite <- Z.add_opp_r, u16_u16. done. }
    by destruct c. }
  assert (0 <= 10 * bi - k <= 9) as Hl by (unfold bi, k; destruct (Z.ltb_spec 0 (b + x)); cbn [b2z]; lia).
  assert ((D <? 0) = (diff <? 0)) as Eb by (unfold D, diff, k in *; lia).
  assert (0 <= - a - bi + 10 * bo <= 9) as Hh.
  { unfold bo. destruct (Z.ltb_spec D 0); cbn [b2z]; unfold D, k in *; lia. }
  assert (holds_decimal (diff mod 100) n) as Hd'.
  { apply (holds_intro _ _ (- a - bi + 10 * bo) (10 * bi - k)); auto.
    - unfold n, zx, u16. cbn [bit_size]. change (2 ^ 8) with 256. unfold D. Z.div_mod_to_equations. lia.
    - symmetry. apply (Z.mod_unique_pos _ _ (- bo)); [lia|]. unfold diff, k. lia. }
  exists n. eexists. split; [reflexivity|]. split; [exact Hd'|]. cbn [cflg xflg zflg greg with_flags c_xflg c_nflg c_zflg c_vflg c_cflg].
  rewrite (decimal_zero _ _ Hd'), <- Eb. auto.
Qed.

(** C25: ABCD, SBCD and NBCD are decimal arithmetic: for bytes of two decimal digits the result is
    again two digits, those of the sum, difference or negation (with X) modulo 100; C and X are
    the decimal carry or borrow, and Z stays set only for a result of zero. *)
Theorem decimal_arithmetic (src dst : Z) (c : cpu) :
  is_bcd (zx sz_byte src) → is_bcd (zx sz_byte dst) →
  let s := bcd_value (zx sz_byte src) in let d := bcd_value (zx sz_byte dst) in let x := b2z c.(xflg) in
  decimal_result (ABCD src dst c) ((d + s + x) mod 100) (100 <=? d + s + x) c
  ∧ decimal_result (SBCD src dst c) ((d - s - x) mod 100) (d - s - x <? 0) c
  ∧ decimal_result (NBCD src c) ((0 - s - x) mod 100) (0 - s - x <? 0) c.
Proof. intros Hs Hd. split; [by apply abcd_decimal | split; [by apply sbcd_decimal | by apply nbcd_decimal]]. Qed.

(** 0x99 + 0x25 + X *)
Lemma decimal_arithmetic_witness : decimal_result (ABCD (-103) 0x25 example_cpu) 25 true example_cpu.
Proof.
  refine (proj1 (decimal_arithmetic (-103) 0x25 example_cpu _ _)); vm_compute; repeat split; discriminate.
Defined.
