(* ===== verification/MulDivSpec.v ===== *)
(** * Long multiplication and division

    [m68k_divl] and [m68k_mull] compute quotients, remainders and products of integers, and the
    versions for hosts without 64 bit integers agree with them. *)

From S2P Require Import Prelude Ram Mmu Cpu MulDiv Insn Handlers ShiftSpec ArithSpec MmuSpec.

(** ** Ranges *)

Lemma sx_long_small x : -2147483648 <= x < 2147483648 → sx sz_long x = x.
Proof. intros. unfold sx, signed. cbn [bit_size]. rewrite Z.mod_small; lia. Qed.
Lemma sx_long_range x : -2147483648 <= sx sz_long x < 2147483648.
Proof. destruct (sx_cases sz_long x) as (q & _ & R). exact R. Qed.
Lemma signed_64_range x : - 2 ^ 63 <= signed 64 x < 2 ^ 63.
Proof. unfold signed. change (64 - 1) with 63. pose proof (Z.mod_pos_bound (x + 2 ^ 63) (2 ^ 64)). lia. Qed.

(** The test for a value of 64 bits that 32 bits cannot hold. *)
Lemma high_bits_fit q : - 2 ^ 63 <= q < 2 ^ 63 →
  negb (high_bits q =? 0) && negb (high_bits q =? 0xffffffff80000000) = negb ((-2147483648 <=? q) && (q <? 2147483648)).
Proof.
  intros Hq. unfold high_bits. rewrite (land_hi _ 0xffffffff80000000 31 64) by (reflexivity || lia).
  unfold u64. change (2 ^ 31) with 2147483648. change (2 ^ (64 - 31)) with 8589934592. Z.div_mod_to_equations. lia.
Qed.

(** ** Division *)

(** The dividend of the instruction. *)
Definition dividend (extra : Z) (c : cpu) : Z :=
  let lo := aget c.(greg) (rq extra) in
  let a := if is_64 extra then aget c.(greg) (rr extra) * 4294967296 + lo else lo in
  if is_signed extra then (if is_64 extra then signed 64 a else sx sz_long a) else a.
Definition operand (extra src : Z) : Z := if is_signed extra then sx sz_long src else src.
Definition fits (extra q : Z) : bool := if is_signed extra then (-2147483648 <=? q) && (q <? 2147483648) else q <? 4294967296.

Definition div_done (extra q r : Z) (c : cpu) : cpu :=
  with_flags c.(xflg) (sx sz_long q <? 0) (sx sz_long q =? 0) false false
    (c_greg (aset (aset c.(greg) (rr extra) (u32 r)) (rq extra) (u32 q)) c).
Definition div_failed (c : cpu) : cpu := with_flags c.(xflg) true c.(zflg) true false c.

Lemma div_result_eq extra q r c : div_result extra q r c = COk tt (div_done extra q r c).
Proof. by destruct c. Qed.
Lemma div_overflow_eq c : div_overflow c = COk tt (div_failed c).
Proof. by destruct c. Qed.

Lemma rr_range extra : 0 <= rr extra < 8.
Proof. unfold rr. rewrite (land_ones_const _ 7 3) by lia. by apply Z.mod_pos_bound. Qed.
Lemma rq_range extra : 0 <= rq extra < 8.
Proof. unfold rq. rewrite (land_ones_const _ 7 3) by lia. by apply Z.mod_pos_bound. Qed.

Definition regs_ok (c : cpu) : Prop := ∀ r, 0 <= aget c.(greg) r < 4294967296.

Lemma join_64 hi lo : 0 <= lo < 4294967296 → (lo .& 0xffffffff) .| (hi ≪ 32) = hi * 4294967296 + lo.
Proof.
  intros. rewrite (land_ones_const _ 0xffffffff 32), Z.mod_small, Z.lor_comm, shl_mul by lia.
  apply (lor_add _ _ 32); [lia|lia|]. apply Z.mod_mul. lia.
Qed.
Lemma land_sx x : sx sz_long x .& 0xffffffff = x .& 0xffffffff.
Proof. rewrite !(land_ones_const _ 0xffffffff 32) by lia. apply (zx_sx sz_long). Qed.

Lemma rem_range a d : d ≠ 0 → - Z.abs d < Z.rem a d < Z.abs d.
Proof. intros Hd. pose proof (Z.rem_bound_abs a d Hd). lia. Qed.
Lemma rem_sign a d : d ≠ 0 → 0 <= Z.rem a d * a.
Proof. apply Z.rem_sign_mul. Qed.

Definition div_traps (extra src : Z) (c : cpu) : bool := is_signed extra && (dividend extra c =? - 2 ^ 63) && (operand extra src =? -1).

(** The remainder has the sign of the dividend already. *)
Lemma rem_kept a d : d ≠ 0 → -2147483648 <= d < 2147483648 →
  u32 (if xorb (sx sz_long (Z.rem a d) <? 0) (a <? 0) then - Z.rem a d else Z.rem a d) = u32 (Z.rem a d).
Proof.
  intros Hd Hr. pose proof (rem_range a d Hd). pose proof (rem_sign a d Hd). rewrite sx_long_small by lia.
  destruct (Z.ltb_spec (Z.rem a d) 0), (Z.ltb_spec a 0); cbn [xorb]; try done.
  - assert (a = 0) as -> by nia. by rewrite Z.rem_0_l.
  - assert (Z.rem a d = 0) as -> by nia. done.
Qed.

Section div.
Context `{ram_config}.

Lemma divl_spec src extra oldpc c : regs_ok c → 0 < src < 4294967296 →
  let a := dividend extra c in let d := operand extra src in
  m68k_divl src extra oldpc c =
  if div_traps extra src c then CStop HostTrap
  else COk tt (if fits extra (Z.quot a d) then div_done extra (Z.quot a d) (Z.rem a d) c else div_failed c).
Proof.
  intros Hg Hs a d. unfold m68k_divl. rewrite (proj2 (Z.eqb_neq src 0)) by lia.
  unfold mbind, C_bind, dreg, c_get. subst a d. unfold div_traps, dividend, operand, fits.
  pose proof (Hg (rq extra)) as Hlo. pose proof (Hg (rr extra)) as Hhi.
  destruct (is_signed extra) eqn:S; cbn beta iota zeta.
  all: set (lo := aget (greg c) (rq extra)) in *; set (hi := aget (greg c) (rr extra)) in *; cbn [andb].
  - rewrite land_sx, join_64 by done.
    set (a := if is_64 extra then signed 64 (hi * 4294967296 + lo) else sx sz_long lo).
    assert ((if is_64 extra then signed 64 (if is_64 extra then hi * 4294967296 + lo else lo) else sx sz_long (if is_64 extra then hi * 4294967296 + lo else lo)) = a) as ->.
    { unfold a. by destruct (is_64 extra). }
    assert (- 2 ^ 63 <= a < 2 ^ 63) as Ha.
    { unfold a. destruct (is_64 extra); [apply signed_64_range|]. pose proof (sx_long_range lo). lia. }
    pose proof (sx_long_range src) as Hd. assert (sx sz_long src ≠ 0) as Hd0.
    { unfold sx, signed. cbn [bit_size]. Z.div_mod_to_equations. lia. }
    set (d := sx sz_long src) in *.
    destruct ((a =? - 2 ^ 63) && (d =? -1)) eqn:T; [done|].
    assert (- 2 ^ 63 <= Z.quot a d < 2 ^ 63) as Hq.
    { pose proof (Z.quot_rem' a d). pose proof (rem_range a d Hd0). pose proof (rem_sign a d Hd0).
      destruct (decide (d = -1)) as [E|]; [|destruct (decide (d = 1)) as [E|]].
      - rewrite E in *. assert (a ≠ - 2 ^ 63) by lia. lia.
      - rewrite E in *. lia.
      - assert (Z.abs d >= 2) by lia. assert (Z.abs (Z.quot a d) <= 2 ^ 62); [|lia].
        rewrite <- Z.quot_abs by done. transitivity (Z.abs a / 2).
        + rewrite Z.quot_div_nonneg by lia. apply Z.div_le_compat_l; lia.
        + Z.div_mod_to_equations. lia. }
    rewrite high_bits_fit by done. destruct ((-2147483648 <=? Z.quot a d) && (Z.quot a d <? 2147483648)); cbn [negb].
    + rewrite div_result_eq. unfold div_done. by rewrite rem_kept.
    + by rewrite div_overflow_eq.
  - rewrite join_64 by done. set (a := if is_64 extra then hi * 4294967296 + lo else lo).
    assert (0 <= a) as Ha by (unfold a; destruct (is_64 extra); lia).
    rewrite Z.quot_div_nonneg, Z.rem_mod_nonneg by lia. replace (0xffffffff <? a / src) with (negb (a / src <? 4294967296)) by lia.
    destruct (a / src <? 4294967296); cbn [negb]; [by rewrite div_result_eq | by rewrite div_overflow_eq].
Qed.

Lemma divl_zero extra oldpc c : m68k_divl 0 extra oldpc c = Exception 5 oldpc c.
Proof. done. Qed.

End div.

(** C23: DIVS.L and DIVU.L (with a dividend of 32 or 64 bits): a divisor of zero starts exception 5;
    otherwise the quotient, truncated towards zero, and the remainder, with the sign of the
    dividend, are stored when the quotient fits in 32 bits (the quotient wins when both have the
    same register), with N and Z of the quotient and V and C clear; a quotient that does not fit
    leaves the registers and sets V and N.  The one exception is the smallest dividend of 64 bits
    divided by -1, whose quotient the host's division cannot represent: the emulator is
    stopped. *)
Theorem divl_correct `{ram_config} (src extra oldpc : Z) (c : cpu) : regs_ok c → 0 <= src < 4294967296 →
  let a := dividend extra c in let d := operand extra src in
  m68k_divl src extra oldpc c =
  if src =? 0 then Exception 5 oldpc c
  else if div_traps extra src c then CStop HostTrap
  else COk tt (if fits extra (Z.quot a d) then div_done extra (Z.quot a d) (Z.rem a d) c else div_failed c).
Proof.
  intros Hg Hs a d. destruct (Z.eqb_spec src 0) as [->|]; [apply divl_zero|]. apply divl_spec; [done|lia].
Qed.

(** DIVS.L D3,D1:D2 with the dividend -7 (64 bits) and the divisor 2: -3, rest -1. *)
Lemma divl_correct_witness :
  let H := example_ram in
  let c := c_greg (aset (aset ∅ 1 0xffffffff) 2 0xfffffff9) example_cpu in
  m68k_divl 2 0x2c01 0 c = COk tt (div_done 0x2c01 (-3) (-1) c).
Proof.
  intros H c. refine (eq_trans (divl_correct 2 0x2c01 0 c _ _) _).
  - intros r. unfold c. cbn [greg c_greg]. rewrite !aget_aset. repeat case_decide; try lia. rewrite aget_empty. lia.
  - lia.
  - vm_compute. reflexivity.
Defined.

(** ** Multiplication *)

Definition factor (extra : Z) (c : cpu) : Z := operand extra (aget c.(greg) (rq extra)).

(** N is the sign of the product of 64 bits for both lengths. *)
Definition mul_done (extra p : Z) (c : cpu) : cpu :=
  let g := if is_64 extra then aset c.(greg) (rr extra) (u32 (p / 4294967296)) else c.(greg) in
  with_flags c.(xflg) (if is_signed extra then p <? 0 else 2 ^ 63 <=? p) (p =? 0) (negb (is_64 extra) && negb (fits extra p)) false
    (c_greg (aset g (rq extra) (u32 p)) c).

Section mul.
Context `{ram_config}.

(** The order of the stores. *)
Lemma mul_stores extra (big : bool) n z v hi lo c :
  (SET_VFLG false;; SET_CFLG false;; SET_ZFLG z;; SET_NFLG n;;
   (if big then set_dreg (rr extra) hi else c_when v (SET_VFLG true));; set_dreg (rq extra) lo) c
  = COk tt (with_flags c.(xflg) n z (negb big && v) false
      (c_greg (aset (if big then aset c.(greg) (rr extra) (u32 hi) else c.(greg)) (rq extra) (u32 lo)) c)).
Proof. destruct c, big, v; reflexivity. Qed.

Lemma mul_range a b : -2147483648 <= a < 2147483648 → -2147483648 <= b < 2147483648 → - 2 ^ 63 <= a * b < 2 ^ 63.
Proof. intros. nia. Qed.

Lemma mull_spec src extra c : regs_ok c → 0 <= src < 4294967296 →
  m68k_mull src extra c = COk tt (mul_done extra (factor extra c * operand extra src) c).
Proof.
  intros Hg Hs. unfold m68k_mull, mul_done, factor, operand, fits. pose proof (Hg (rq extra)) as Hd.
  destruct (is_signed extra) eqn:S; unfold mbind at 1, C_bind at 1; unfold dreg, c_get.
  - set (p := sx sz_long (aget (greg c) (rq extra)) * sx sz_long src).
    assert (- 2 ^ 63 <= p < 2 ^ 63) by (apply mul_range; apply sx_long_range).
    rewrite mul_stores, high_bits_fit, shr_div by done. reflexivity.
  - set (p := aget (greg c) (rq extra) * src). assert (0 <= p < 2 ^ 64) by (unfold p; nia).
    assert (u64 p = p) as -> by (unfold u64; apply Z.mod_small; lia).
    rewrite mul_stores, shr_div by lia. change (2 ^ 32) with 4294967296.
    assert (nz (p .& 0xffffffff00000000) = negb (p <? 4294967296)) as ->.
    { rewrite (land_hi _ 0xffffffff00000000 32 64) by (reflexivity || lia). unfold nz. change (2 ^ 32) with 4294967296. change (2 ^ (64 - 32)) with 4294967296.
      Z.div_mod_to_equations. lia. }
    assert ((signed 64 p <? 0) = (2 ^ 63 <=? p)) as -> by (unfold signed; change (64 - 1) with 63; Z.div_mod_to_equations; lia).
    reflexivity.
Qed.

(** ** Hosts without 64 bit integers *)

Lemma split_16 r : 0 <= r < 4294967296 → ∃ h l, r = 65536 * h + l ∧ 0 <= l < 65536 ∧ 0 <= h < 65536 ∧ r / 65536 = h ∧ r mod 65536 = l.
Proof. intros. exists (r / 65536), (r mod 65536). Z.div_mod_to_equations. lia. Qed.

(** A sum of 32 bits and the test for its carry. *)
Lemma carry_add a b : 0 <= a < 4294967296 → 0 <= b < 4294967296 →
  ∃ k, (0 <= k <= 1 ∧ 0 <= a + b - 4294967296 * k < 4294967296) ∧ (u32 (a + b) <? a) = (k =? 1) ∧ u32 (a + b) = a + b - 4294967296 * k.
Proof.
  intros. exists (b2z (4294967296 <=? a + b)).
  assert (u32 (a + b) = a + b - 4294967296 * b2z (4294967296 <=? a + b)) as ->.
  { symmetry. apply (Z.mod_unique_pos _ _ (b2z (4294967296 <=? a + b))); destruct (Z.leb_spec 4294967296 (a + b)); cbn [b2z]; lia. }
  destruct (Z.leb_spec 4294967296 (a + b)); cbn [b2z]; repeat split; lia.
Qed.

Lemma mul_unsigned_spec a b : 0 <= a < 4294967296 → 0 <= b < 4294967296 →
  mul_unsigned a b = ((a * b) / 4294967296, (a * b) mod 4294967296).
Proof.
  intros Ha Hb. unfold mul_unsigned.
  assert (∀ x, x .& 0xffff = x mod 65536) as Em by (intros; by apply (land_ones_const _ 0xffff 16)).
  rewrite !Em, !shr_div by lia. change (2 ^ 16) with 65536.
  set (a1 := a / 65536). set (a0 := a mod 65536). set (b1 := b / 65536). set (b0 := b mod 65536).
  assert (a = 65536 * a1 + a0 ∧ 0 <= a0 < 65536 ∧ 0 <= a1 < 65536) as (Ea & ? & ?) by (unfold a1, a0; Z.div_mod_to_equations; lia).
  assert (b = 65536 * b1 + b0 ∧ 0 <= b0 < 65536 ∧ 0 <= b1 < 65536) as (Eb & ? & ?) by (unfold b1, b0; Z.div_mod_to_equations; lia).
  rewrite (Z.mod_small a1), (Z.mod_small b1) by done.
  assert (0 <= a0 * b0 <= 65535 * 65535 ∧ 0 <= a1 * b0 <= 65535 * 65535 ∧ 0 <= a0 * b1 <= 65535 * 65535 ∧ 0 <= a1 * b1 <= 65535 * 65535) as (? & ? & ? & ?) by nia.
  assert (a * b = a0 * b0 + 65536 * (a1 * b0 + a0 * b1) + 4294967296 * (a1 * b1)) as E by nia. assert (a * b < 4294967296 * 4294967296) as HP by nia. rewrite E in *.
  generalize dependent (a0 * b0). intros r0 R0. generalize dependent (a1 * b0). intros r1 R1. generalize dependent (a0 * b1). intros r2 R2.
  generalize dependent (a1 * b1). intros r3 R3 E HP. clear Ea Eb E.
  rewrite (u32_small r0), (u32_small r1), (u32_small r2), (u32_small r3) by lia.
  assert (∀ r, 0 <= r <= 65535 * 65535 → u32 (r ≪ 16) .& 0xffff0000 = (r mod 65536) * 65536) as Esh.
  { intros r Hr. rewrite shl_mul, (land_hi _ 0xffff0000 16 32) by (reflexivity || lia). change (2 ^ 16) with 65536. change (2 ^ (32 - 16)) with 65536.
    unfold u32. Z.div_mod_to_equations. lia. }
  rewrite !Esh by done. rewrite (Z.mod_small (r1 / 65536)), (Z.mod_small (r2 / 65536)) by (Z.div_mod_to_equations; lia).
  destruct (split_16 r1) as (h1 & l1 & E1 & ? & ? & -> & ->); [lia|]. destruct (split_16 r2) as (h2 & l2 & E2 & ? & ? & -> & ->); [lia|].
  rewrite E1, E2 in *. clear E1 E2 R1 R2 Esh.
  destruct (carry_add r0 (l1 * 65536)) as (k1 & Hk1 & -> & ->); [lia|lia|]. set (s1 := r0 + l1 * 65536 - 4294967296 * k1) in *.
  destruct (carry_add s1 (l2 * 65536)) as (k2 & Hk2 & -> & ->); [lia|lia|]. set (s2 := s1 + l2 * 65536 - 4294967296 * k2) in *.
  replace (r0 + 65536 * (65536 * h1 + l1 + (65536 * h2 + l2)) + 4294967296 * r3) with (s2 + (r3 + k1 + k2 + h1 + h2) * 4294967296) by (unfold s2, s1; lia).
  rewrite Z.div_add, Z.mod_add, (Z.div_small s2), (Z.mod_small s2) by lia. rewrite Z.add_0_l. f_equal.
  destruct Hk1 as [Hk1 Hs1], Hk2 as [Hk2 Hs2].
  assert (0 <= r3 + k1 + k2 + h1 + h2 < 4294967296) by (unfold s2, s1 in *; lia).
  assert (k1 = 0 ∨ k1 = 1) as [-> | ->] by lia; assert (k2 = 0 ∨ k2 = 1) as [-> | ->] by lia; cbn [Z.eqb Pos.eqb];
    rewrite ?(u32_small (r3 + 1)), ?(u32_small (r3 + 1 + 1)), u32_small by lia; lia.
Qed.

(** The absolute value as the code takes it, and the sign bit of two signed operands. *)
Lemma abs_code s : -2147483648 <= s < 2147483648 → u32 (if s <? 0 then sx sz_long (- s) else s) = Z.abs s.
Proof.
  intros Hs. destruct (Z.ltb_spec s 0); [|rewrite u32_small; lia].
  destruct (decide (s = -2147483648)) as [->|]; [done|]. rewrite sx_long_small, u32_small by lia. lia.
Qed.
Lemma sign_31 s : -2147483648 <= s < 2147483648 → Z.testbit s 31 = (s <? 0).
Proof.
  intros Hs. destruct (Z.ltb_spec s 0).
  - replace s with (Z.lnot (- s - 1)) by (unfold Z.lnot; lia). rewrite Z.lnot_spec, (testbit_range 31) by lia. done.
  - by apply (testbit_range 31); lia.
Qed.
Lemma nz_sign x : nz (u32 x .& 0x80000000) = Z.testbit x 31.
Proof. rewrite (nz_flag (u32 x) 31) by done. by apply testbit_u32. Qed.

(** The two halves of a value of 64 bits, and of its negation. *)
Definition halves (p : Z) : Z * Z := (p mod 2 ^ 64 / 4294967296, p mod 4294967296).
Lemma halves_small p : 0 <= p < 2 ^ 64 → halves p = (p / 4294967296, p mod 4294967296).
Proof. intros. unfold halves. by rewrite (Z.mod_small p (2 ^ 64)). Qed.
Lemma neg_halves p : 0 <= p < 2 ^ 64 → let '(hi, lo) := halves p in
  (if u32 (- lo) =? 0 then u32 (not32 hi + 1) else not32 hi, u32 (- lo)) = halves (- p).
Proof.
  intros Hp. rewrite halves_small by done. unfold halves.
  assert ((- p) mod 4294967296 = u32 (- (p mod 4294967296))) as -> by (unfold u32; Z.div_mod_to_equations; lia). f_equal.
  unfold not32, u32. destruct (Z.eqb_spec (- (p mod 4294967296) mod 4294967296) 0); Z.div_mod_to_equations; lia.
Qed.

(** The flags of a signed product from its halves. *)
Lemma halves_flags p : - 2 ^ 63 <= p < 2 ^ 63 → let '(hi, lo) := halves p in
  ((hi =? 0) && (lo =? 0)) = (p =? 0) ∧ (sx sz_long hi <? 0) = (p <? 0) ∧ u32 hi = u32 (p / 4294967296) ∧ u32 lo = u32 p ∧
  ((nz hi || nz (lo .& 0x80000000)) && (negb (hi .& 0xffffffff =? 0xffffffff) || negb (lo .& 0x80000000 =? 0x80000000)))
  = negb ((-2147483648 <=? p) && (p <? 2147483648)).
Proof.
  intros Hp. unfold halves.
  assert (∀ x, 0 <= x < 4294967296 → x .& 0xffffffff = x ∧ x .& 0x80000000 = if x <? 2147483648 then 0 else 0x80000000) as Hl.
  { intros x Hx. split; [rewrite (land_ones_const _ 0xffffffff 32) by lia; apply Z.mod_small; lia|].
    rewrite (land_hi x 0x80000000 31 32) by (reflexivity || lia). change (2 ^ 31) with 2147483648. change (2 ^ (32 - 31)) with 2.
    destruct (Z.ltb_spec x 2147483648); Z.div_mod_to_equations; lia. }
  assert (0 <= p mod 2 ^ 64 / 4294967296 < 4294967296) as Hh by (Z.div_mod_to_equations; lia).
  destruct (Hl _ Hh) as [-> _]. destruct (Hl (p mod 4294967296)) as [_ ->]; [apply Z.mod_pos_bound; lia|].
  assert (p mod 2 ^ 64 = if p <? 0 then p + 2 ^ 64 else p) as Em.
  { symmetry. destruct (Z.ltb_spec p 0); [apply (Z.mod_unique_pos _ _ (-1)) | apply (Z.mod_unique_pos _ _ 0)]; lia. }
  rewrite sx_sign by exact Hh. change (bit_size sz_long - 1) with 31. rewrite testbit_top by (cbn; lia). change (2 ^ 31) with 2147483648.
  unfold u32, nz. rewrite Em. clear Em Hl.
  destruct (Z.ltb_spec p 0); [|]; (split; [|split; [|split; [|split]]]);
    try (destruct (Z.ltb_spec (p mod 4294967296) 2147483648)); cbn [negb Z.eqb Pos.eqb orb]; Z.div_mod_to_equations; lia.
Qed.

Lemma signed_halves s1 s2 : -2147483648 <= s1 < 2147483648 → -2147483648 <= s2 < 2147483648 →
  let p := Z.abs s1 * Z.abs s2 in let hi := p / 4294967296 in let lo := p mod 4294967296 in
  (if xorb (s1 <? 0) (s2 <? 0) then (if u32 (- lo) =? 0 then u32 (not32 hi + 1) else not32 hi, u32 (- lo)) else (hi, lo)) = halves (s2 * s1).
Proof.
  intros R1 R2 p hi lo. assert (0 <= p < 2 ^ 64) as Hp by (unfold p; nia).
  pose proof (neg_halves p Hp) as N. rewrite halves_small in N by done. fold hi lo in N. rewrite N. assert ((hi, lo) = halves p) as -> by by rewrite halves_small.
  unfold p. destruct (Z.ltb_spec s1 0), (Z.ltb_spec s2 0); cbn [xorb]; f_equal; nia.
Qed.

Lemma mull_32_spec src extra c : regs_ok c → 0 <= src < 4294967296 →
  m68k_mull_32 src extra c = COk tt (mul_done extra (factor extra c * operand extra src) c).
Proof.
  intros Hg Hs. unfold m68k_mull_32, mul_done, factor, operand, fits. pose proof (Hg (rq extra)) as Hd.
  unfold mbind at 1, C_bind at 1. unfold dreg, c_get. set (d := aget (greg c) (rq extra)) in *.
  destruct (is_signed extra) eqn:S; cbv zeta.
  - pose proof (sx_long_range src) as R1. pose proof (sx_long_range d) as R2.
    rewrite !abs_code by done. rewrite nz_sign, Z.lxor_spec, !sign_31 by done.
    set (s1 := sx sz_long src) in *. set (s2 := sx sz_long d) in *.
    rewrite mul_unsigned_spec by lia. cbv beta iota zeta. rewrite signed_halves by done.
    pose proof (halves_flags (s2 * s1) (mul_range _ _ R2 R1)) as F. destruct (halves (s2 * s1)) as [hi lo]. destruct F as (F1 & F2 & F3 & F4 & F5).
    rewrite mul_stores, F1, F2, F3, F4, F5. done.
  - rewrite mul_unsigned_spec, (Z.mul_comm src d) by done. set (p := d * src). assert (0 <= p < 2 ^ 64) as Hp by (unfold p; nia).
    rewrite mul_stores.
    assert ((sx sz_long (p / 4294967296) <? 0) = (2 ^ 63 <=? p)) as ->.
    { assert (0 <= p / 4294967296 < 4294967296) by (Z.div_mod_to_equations; lia).
      rewrite sx_sign by done. change (bit_size sz_long - 1) with 31. rewrite testbit_top by (cbn; lia). Z.div_mod_to_equations; lia. }
    assert ((p / 4294967296 =? 0) && (p mod 4294967296 =? 0) = (p =? 0)) as -> by (Z.div_mod_to_equations; lia).
    assert (nz (p / 4294967296) = negb (p <? 4294967296)) as -> by (unfold nz; Z.div_mod_to_equations; lia).
    assert (u32 (p mod 4294967296) = u32 p) as -> by (unfold u32; by rewrite Z.mod_mod by lia). done.
Qed.
End mul.

(** ** Division without 64 bit integers *)

(** The long division: after [k] rounds the rest is below the divisor and the quotient has the
    first [k] bits. *)
Record div_inv (N d : Z) (k : nat) (s : Z * Z * Z) : Prop := {
  inv_rest : 0 <= s.1.1 < d;
  inv_quot : 0 <= s.2 < 2 ^ Z.of_nat k;
  inv_low : s.1.2 = u32 (N * 2 ^ Z.of_nat k);
  inv_sum : N / 2 ^ (32 - Z.of_nat k) = s.2 * d + s.1.1 }.

Lemma div_round_inv N d k s : 0 <= N < 2 ^ 64 → 0 < d < 4294967296 → (k < 32)%nat → div_inv N d k s → div_inv N d (S k) (div_round d s).
Proof.
  intros HN Hd Hk [Hr Hq Hl Hs]. destruct s as [[hi lo] q]. cbn [fst snd] in *. unfold div_round. cbv zeta.
  assert (nz (hi .& 0x80000000) = (2147483648 <=? hi)) as ->.
  { rewrite (nz_flag hi 31) by done. rewrite testbit_top by (cbn; lia). done. }
  set (bit := b2z (Z.testbit lo 31)).
  assert ((if nz (lo .& 0x80000000) then u32 (u32 (hi ≪ 1) + 1) else u32 (hi ≪ 1)) = u32 (2 * hi + bit)) as ->.
  { rewrite (nz_flag lo 31) by done. unfold bit. rewrite shl_mul by lia. destruct (Z.testbit lo 31); cbn [b2z]; unfold u32; Z.div_mod_to_equations; lia. }
  assert (0 <= bit <= 1) as Hb by apply carry_range.
  assert (N / 2 ^ (32 - Z.of_nat (S k)) = 2 * (N / 2 ^ (32 - Z.of_nat k)) + bit) as Hn.
  { unfold bit. rewrite Hl, testbit_u32 by lia. rewrite Z.mul_pow2_bits by lia.
    replace (31 - Z.of_nat k) with (32 - Z.of_nat (S k)) by lia.
    replace (32 - Z.of_nat k) with (32 - Z.of_nat (S k) + 1) by lia. rewrite Z.pow_add_r, <- Z.div_div by lia.
    set (m := N / 2 ^ (32 - Z.of_nat (S k))). pose proof (testbit_mod2 N (32 - Z.of_nat (S k)) ltac:(lia)) as Hm. fold m in Hm.
    destruct (Z.testbit N (32 - Z.of_nat (S k))); cbn in *; change (2 ^ 1) with 2; Z.div_mod_to_equations; lia. }
  assert (2 ^ Z.of_nat (S k) = 2 * 2 ^ Z.of_nat k) as Hp by (rewrite Nat2Z.inj_succ, Z.pow_succ_r; lia).
  assert (2 ^ Z.of_nat k <= 2147483648) by (change 2147483648 with (2 ^ 31); apply Z.pow_le_mono_r; lia).
  assert (u32 (q ≪ 1) = 2 * q) as -> by (rewrite shl_mul by lia; rewrite u32_small by lia; lia).
  assert (u32 (lo ≪ 1) = u32 (N * 2 ^ Z.of_nat (S k))) as El.
  { rewrite Hl, Hp, shl_mul by lia. replace (N * (2 * 2 ^ Z.of_nat k)) with (N * 2 ^ Z.of_nat k * 2) by lia.
    unfold u32. change (2 ^ 1) with 2. rewrite Zmult_mod_idemp_l. done. }
  destruct ((2147483648 <=? hi) || (d <=? u32 (2 * hi + bit))) eqn:T.
  - assert (d <= 2 * hi + bit) as Hge.
    { destruct (Z.leb_spec 2147483648 hi); [lia|]. rewrite u32_small in T by lia. cbn in T. lia. }
    assert (u32 (u32 (2 * hi + bit) - d) = 2 * hi + bit - d) as ->.
    { unfold u32. rewrite Zminus_mod_idemp_l. apply Z.mod_small. lia. }
    assert (2 * q .| 1 = 2 * q + 1) as -> by (apply (lor_add _ _ 1); [lia|lia|rewrite Z.mul_comm; by apply Z.mod_mul]).
    split; cbn [fst snd]; [lia | lia | exact El | rewrite Hn, Hs; lia].
  - apply orb_false_iff in T as [T1 T2]. rewrite u32_small in T2 |- * by lia. split; cbn [fst snd]; [lia | lia | exact El | rewrite Hn, Hs; lia].
Qed.

Lemma div_unsigned_spec hi lo d : 0 <= hi < 4294967296 → 0 <= lo < 4294967296 → 0 < d < 4294967296 →
  let N := hi * 4294967296 + lo in div_unsigned hi lo d = if d <=? hi then None else Some (N / d, N mod d).
Proof.
  intros Hh Hl Hd N. unfold div_unsigned. destruct (Z.leb_spec d hi); [done|].
  assert (∀ k, (k <= 32)%nat → div_inv N d k (Nat.iter k (div_round d) (hi, lo, 0))) as HI.
  { induction k as [|k IH]; intros Hk.
    - split; cbn [Nat.iter fst snd]; [cbn; lia | cbn; lia | |].
      + change (2 ^ Z.of_nat 0) with 1. unfold u32, N. rewrite Z.mul_1_r. change (lo = (hi * 4294967296 + lo) mod 4294967296). apply (Z.mod_unique_pos _ _ hi); lia.
      + change (2 ^ (32 - Z.of_nat 0)) with 4294967296. unfold N. rewrite Z.div_add_l, Z.div_small by lia. cbn. lia.
    - apply div_round_inv; [unfold N; lia | lia | lia | apply IH; lia]. }
  specialize (HI 32%nat ltac:(lia)). destruct (Nat.iter 32 (div_round d) (hi, lo, 0)) as [[h l] q]. destruct HI as [Hr Hq _ Hs]. cbn [fst snd] in *.
  change (2 ^ (32 - Z.of_nat 32)) with 1 in Hs. rewrite Z.div_1_r in Hs.
  f_equal. f_equal; [apply (Z.div_unique_pos _ _ _ h); lia | apply (Z.mod_unique_pos _ _ q); lia].
Qed.

(** The magnitude of the dividend as the code computes it. *)
Lemma abs_halves hi lo : -2147483648 <= hi < 2147483648 → 0 <= lo < 4294967296 →
  let '(h, l) := if hi <? 0 then (if sx sz_long (- sx sz_long lo) =? 0 then sx sz_long (Z.lnot hi + 1) else Z.lnot hi, sx sz_long (- sx sz_long lo))
                 else (hi, sx sz_long lo) in
  u32 h * 4294967296 + u32 l = Z.abs (hi * 4294967296 + lo) ∧ 0 <= u32 h < 4294967296 ∧ 0 <= u32 l < 4294967296.
Proof.
  intros Hh Hl. assert (∀ x, u32 (sx sz_long x) = u32 x) as Eu by exact (zx_sx sz_long).
  assert (u32 (- sx sz_long lo) = u32 (- lo)) as En by (unfold u32, sx, signed; cbn [bit_size]; Z.div_mod_to_equations; lia).
  assert ((sx sz_long (- sx sz_long lo) =? 0) = (lo =? 0)) as Ez by (unfold sx, signed; cbn [bit_size]; Z.div_mod_to_equations; lia).
  rewrite Ez. unfold Z.lnot, Z.pred. destruct (Z.ltb_spec hi 0), (Z.eqb_spec lo 0) as [->|]; rewrite ?Eu, ?En; unfold u32; Z.div_mod_to_equations; lia.
Qed.

Lemma quot_abs_div a d : d ≠ 0 → Z.abs (Z.quot a d) = Z.abs a / Z.abs d ∧ Z.abs (Z.rem a d) = Z.abs a mod Z.abs d.
Proof.
  intros Hd. rewrite <- Z.quot_abs, <- Z.rem_abs, Z.quot_div_nonneg, Z.rem_mod_nonneg by lia. done.
Qed.

(** The sign of the quotient. *)
Lemma quot_signed a d : d ≠ 0 → Z.quot a d = if xorb (a <? 0) (d <? 0) then - Z.abs (Z.quot a d) else Z.abs (Z.quot a d).
Proof.
  intros Hd. pose proof (Z.quot_rem' a d). pose proof (rem_range a d Hd). pose proof (rem_sign a d Hd).
  destruct (Z.ltb_spec a 0), (Z.ltb_spec d 0); cbn [xorb]; nia.
Qed.
Lemma rem_signed a d : d ≠ 0 → Z.rem a d = if a <? 0 then - Z.abs (Z.rem a d) else Z.abs (Z.rem a d).
Proof. intros Hd. pose proof (rem_sign a d Hd). destruct (Z.ltb_spec a 0); [nia|]. destruct (decide (a = 0)) as [->|]; [by rewrite Z.rem_0_l|nia]. Qed.

Lemma u32_neg x : u32 (- u32 x) = u32 (- x).
Proof. unfold u32. Z.div_mod_to_equations. lia. Qed.

(** The result of the division of the magnitudes, with the signs put back. *)
Lemma signed_division a d q r extra c : d ≠ 0 → -2147483648 <= d < 2147483648 → q = Z.abs (Z.quot a d) → r = Z.abs (Z.rem a d) → q < 4294967296 →
  let sign := xorb (a <? 0) (d <? 0) in
  (if (if sign then 0x80000000 <? q else 0x7fffffff <? q) then div_overflow
   else div_result extra (if sign then u32 (- q) else q) (if xorb (sx sz_long r <? 0) (a <? 0) then u32 (- r) else r)) c
  = COk tt (if (-2147483648 <=? Z.quot a d) && (Z.quot a d <? 2147483648) then div_done extra (Z.quot a d) (Z.rem a d) c else div_failed c).
Proof.
  intros Hd Hr Eq Er Hq sign. pose proof (rem_range a d Hd). rewrite (sx_long_small r), (proj2 (Z.ltb_ge r 0)), xorb_false_l by lia.
  pose proof (quot_signed a d Hd) as Qs. pose proof (rem_signed a d Hd) as Rs. rewrite <- Eq in Qs. rewrite <- Er in Rs. fold sign in Qs.
  assert ((if sign then 0x80000000 <? q else 0x7fffffff <? q) = negb ((-2147483648 <=? Z.quot a d) && (Z.quot a d <? 2147483648))) as ->.
  { rewrite Qs. assert (0 <= q) by lia. destruct sign; lia. }
  destruct ((-2147483648 <=? Z.quot a d) && (Z.quot a d <? 2147483648)); cbn [negb]; [|by rewrite div_overflow_eq].
  rewrite div_result_eq. unfold div_done.
  assert (u32 (if sign then u32 (- q) else q) = u32 (Z.quot a d) ∧ sx sz_long (if sign then u32 (- q) else q) = sx sz_long (Z.quot a d)) as [-> ->].
  { rewrite Qs. destruct sign; [rewrite sx_u32; unfold u32; rewrite Z.mod_mod by lia|]; done. }
  assert (u32 (if a <? 0 then u32 (- r) else r) = u32 (Z.rem a d)) as ->; [|done].
  rewrite Rs. destruct (a <? 0); [unfold u32; by rewrite Z.mod_mod by lia|done].
Qed.

Lemma dividend_signed extra c : regs_ok c → is_signed extra = true →
  let lo := aget c.(greg) (rq extra) in
  let hi := if is_64 extra then sx sz_long (aget c.(greg) (rr extra)) else if sx sz_long lo <? 0 then -1 else 0 in
  dividend extra c = hi * 4294967296 + lo ∧ -2147483648 <= hi < 2147483648 ∧ (hi <? 0) = (dividend extra c <? 0).
Proof.
  intros Hg Hs lo hi. pose proof (Hg (rq extra)) as Hl. pose proof (Hg (rr extra)) as Hh. fold lo in Hl.
  assert (dividend extra c = hi * 4294967296 + lo ∧ -2147483648 <= hi < 2147483648) as [E R].
  { unfold dividend, hi. rewrite Hs. fold lo. destruct (is_64 extra).
    - split; [|apply sx_long_range]. unfold signed, sx, signed. cbn [bit_size]. Z.div_mod_to_equations. lia.
    - destruct (Z.ltb_spec (sx sz_long lo) 0); (split; [|lia]); unfold sx, signed in *; cbn [bit_size] in *; Z.div_mod_to_equations; lia. }
  rewrite E. repeat split; [lia|lia|lia].
Qed.

Section div32.
Context `{ram_config}.

Lemma divl_32_spec junk src extra oldpc c : regs_ok c → 0 < src < 4294967296 →
  (is_signed extra = true → Z.abs (Z.quot (dividend extra c) (operand extra src)) < 4294967296 ∨ 0x80000000 < junk.1) →
  let a := dividend extra c in let d := operand extra src in
  m68k_divl_32 junk src extra oldpc c = COk tt (if fits extra (Z.quot a d) then div_done extra (Z.quot a d) (Z.rem a d) c else div_failed c).
Proof.
  intros Hg Hs Hj a d. unfold m68k_divl_32. rewrite (proj2 (Z.eqb_neq src 0)) by lia. pose proof (Hg (rq extra)) as Hlo. pose proof (Hg (rr extra)) as Hhi.
  unfold mbind, C_bind, dreg, c_get. unfold fits. destruct (is_signed extra) eqn:S; cbv beta iota zeta.
  - destruct (dividend_signed extra c Hg S) as (Ea & Rh & Sh). fold a in Ea, Sh. specialize (Hj eq_refl). fold a d in Hj.
    set (hi := if is_64 extra then _ else _) in *. pose proof (abs_halves hi _ Rh Hlo) as A. rewrite <- Ea in A.
    destruct (if hi <? 0 then _ else _) as [h l]. destruct A as (EA & RA1 & RA2).
    assert (d = sx sz_long src) as Ed by (unfold d, operand; by rewrite S).
    pose proof (sx_long_range src) as Rd. rewrite <- Ed in *.
    assert (d ≠ 0) as Hd0 by (rewrite Ed; unfold sx, signed; cbn [bit_size]; Z.div_mod_to_equations; lia).
    assert ((if d <? 0 then u32 (- src) else src) = Z.abs d) as ->.
    { rewrite Ed. unfold sx, signed, u32. cbn [bit_size]. destruct (Z.ltb_spec ((src + 2 ^ (32 - 1)) mod 2 ^ 32 - 2 ^ (32 - 1)) 0); Z.div_mod_to_equations; lia. }
    assert (nz (u32 (hi .^ src) .& 0x80000000) = xorb (a <? 0) (d <? 0)) as ->.
    { rewrite nz_sign, Z.lxor_spec, (sign_31 hi), Sh by done. f_equal. rewrite Ed, (sx_sign sz_long) by (cbn; lia). done. }
    rewrite div_unsigned_spec, EA by lia. destruct (quot_abs_div a d Hd0) as [Qa Ra]. rewrite <- Qa, <- Ra.
    destruct (Z.leb_spec (Z.abs d) (u32 h)) as [Hov|Hok].
    + assert (4294967296 <= Z.abs (Z.quot a d)) as Hbig.
      { rewrite Qa. apply Z.div_le_lower_bound; [lia|]. rewrite <- EA. nia. }
      cbn [default]. destruct junk as [jq jr]. cbn [fst] in Hj. destruct Hj as [Hj|Hj]; [lia|].
      rewrite bool_decide_false by (intros [? ?]; done). cbn [negb orb]. rewrite (proj2 (Z.ltb_lt _ _)) by lia.
      rewrite div_overflow_eq. destruct ((-2147483648 <=? Z.quot a d) && (Z.quot a d <? 2147483648)) eqn:F; [lia|done].
    + assert (Z.abs (Z.quot a d) < 4294967296) as Hlt.
      { rewrite Qa. apply Z.div_lt_upper_bound; [lia|]. rewrite <- EA. nia. }
      cbn [default]. rewrite bool_decide_true by done. cbn [negb orb]. rewrite Sh. by apply signed_division.
  - assert (d = src) as -> by (unfold d, operand; by rewrite S).
    set (hi := if is_64 extra then _ else 0).
    assert (0 <= hi < 4294967296) as Rh by (unfold hi; destruct (is_64 extra); lia).
    assert (a = hi * 4294967296 + aget c.(greg) (rq extra)) as Ea by (unfold a, dividend, hi; rewrite S; by destruct (is_64 extra)).
    rewrite div_unsigned_spec by lia. rewrite <- Ea. rewrite Z.quot_div_nonneg, Z.rem_mod_nonneg by lia.
    destruct (Z.leb_spec src hi) as [Hov|Hok].
    + assert (4294967296 <= a / src) by (apply Z.div_le_lower_bound; lia). rewrite (proj2 (Z.ltb_ge _ _)) by lia. by rewrite div_overflow_eq.
    + assert (a / src < 4294967296) by (apply Z.div_lt_upper_bound; lia). rewrite (proj2 (Z.ltb_lt _ _)) by lia. by rewrite div_result_eq.
Qed.

(** C17: The routines for hosts without 64 bit integers do the same as the others: multiplication
    always; division for every divisor, unless the dividend is so large that the magnitude of
    the quotient needs more than 32 bits, when the test for overflow reads a variable nothing has been stored
    in (which must then happen to hold more than 0x80000000), or the other version stops. *)
Theorem narrow_hosts_agree (junk : Z * Z) (src extra oldpc : Z) (c : cpu) : regs_ok c → 0 <= src < 4294967296 →
  m68k_mull_32 src extra c = m68k_mull src extra c ∧
  ((is_signed extra = true → Z.abs (Z.quot (dividend extra c) (operand extra src)) < 4294967296 ∨ 0x80000000 < junk.1) →
   div_traps extra src c = false → m68k_divl_32 junk src extra oldpc c = m68k_divl src extra oldpc c).
Proof.
  intros Hg Hs. split; [by rewrite mull_32_spec, mull_spec|]. intros Hj Ht. destruct (decide (src = 0)) as [->|]; [done|].
  rewrite divl_32_spec, divl_spec, Ht by (done || lia). done.
Qed.

(** MULS.L and MULU.L: the product of 32 or 64 bits; V is set for a product of 32 bits that does
    not fit, C is clear, Z says that the whole product is zero and N is the sign of the product
    of 64 bits, also when only its low half is kept. *)
Lemma mull_correct (src extra : Z) (c : cpu) : regs_ok c → 0 <= src < 4294967296 →
  m68k_mull src extra c = COk tt (mul_done extra (factor extra c * operand extra src) c).
Proof. apply mull_spec. Qed.
End div32.

Definition muldiv_example : cpu := c_greg (aset (aset ∅ 1 0xffffffff) 2 0xfffffff9) example_cpu.

Lemma muldiv_example_regs : regs_ok muldiv_example.
Proof. intros r. unfold muldiv_example. cbn [greg c_greg]. rewrite !aget_aset. repeat case_decide; try lia. rewrite aget_empty. lia. Qed.

Lemma narrow_hosts_agree_witness :
  let H := example_ram in
  m68k_mull_32 5 0x2c01 muldiv_example = m68k_mull 5 0x2c01 muldiv_example
  ∧ m68k_divl_32 (0, 0) 2 0x2c01 0 muldiv_example = m68k_divl 2 0x2c01 0 muldiv_example.
Proof.
  intros H. split.
  - refine (proj1 (narrow_hosts_agree (0, 0) 5 0x2c01 0 muldiv_example muldiv_example_regs _)). lia.
  - refine (proj2 (narrow_hosts_agree (0, 0) 2 0x2c01 0 muldiv_example muldiv_example_regs _) _ _); [lia | intros _; left; vm_compute; reflexivity | vm_compute; reflexivity].
Defined.

(** MULU.L with a product of 32 bits whose top bit is set: N is clear. *)
Lemma mull_correct_witness :
  let H := example_ram in let c := c_greg (aset ∅ 2 0x80000000) example_cpu in
  ∃ c', m68k_mull 1 0x2000 c = COk tt c' ∧ aget c'.(greg) 2 = 0x80000000 ∧ c'.(nflg) = false ∧ c'.(vflg) = false.
Proof.
  intros H c. eexists. split; [apply mull_correct|].
  - intros r. unfold c. cbn [greg c_greg]. rewrite !aget_aset. repeat case_decide; try lia. rewrite aget_empty. lia.
  - lia.
  - vm_compute. auto.
Defined.
