(* ===== verification/Space.v ===== *)
(** * Data in logical memory, as the instructions see it

    The promise of the memory management unit to the instructions ([data_space]): in each mode
    there are addresses that can be read and addresses that can be written, an access to them
    succeeds, finds what was stored and changes nothing else.  The stack operations are proved
    against this interface; [SpaceMmu] shows that the MMU keeps the promise. *)

From S2P Require Import Prelude Ram Mmu Cpu.

(** ** Numbers of several bytes *)

Definition rd (sz : wordsizes) (f : Z → Z) (a : Z) : Z :=
  match sz with
  | sz_byte => f a
  | sz_word => (f a ≪ 8) .| f (a + 1)
  | sz_long => (((f a ≪ 8) .| f (a + 1)) ≪ 16) .| ((f (a + 2) ≪ 8) .| f (a + 3))
  end.

(** Byte [i] of a value, from the most significant one. *)
Definition byte_of (sz : wordsizes) (v i : Z) : Z := (v ≫ (8 * (bytes sz - 1 - i))) .& 0xff.

Definition holds (sz : wordsizes) (f : Z → Z) (a v : Z) : Prop := ∀ i, 0 <= i < bytes sz → f (a + i) = byte_of sz v i.

Lemma join_halves n k v : 0 <= n → 0 <= k →
  (((v ≫ (k + n)) .& Z.ones n) ≪ n) .| ((v ≫ k) .& Z.ones n) = (v ≫ k) .& Z.ones (n + n).
Proof.
  intros Hn Hk. apply Z.bits_inj'. intros i Hi.
  rewrite Z.lor_spec, !Z.land_spec, Z.shiftl_spec, Z.shiftr_spec, !Z.testbit_ones_nonneg by lia.
  destruct (Z.ltb_spec i n); [rewrite Z.testbit_neg_r, (proj2 (Z.ltb_lt i (n + n))) by lia; done|].
  rewrite Z.land_spec, Z.shiftr_spec, Z.testbit_ones_nonneg by lia. replace (i - n + (k + n)) with (i + k) by lia.
  rewrite andb_false_r, orb_false_r. by destruct (Z.ltb_spec (i - n) n), (Z.ltb_spec i (n + n)); try lia.
Qed.

Lemma holds_rd sz f a v : holds sz f a v → 0 <= v < 2 ^ bit_size sz → rd sz f a = v.
Proof.
  intros Hh Hv. transitivity ((v ≫ 0) .& Z.ones (bit_size sz)); [|rewrite Z.shiftr_0_r, Z.land_ones by (destruct sz; cbn; lia); by apply Z.mod_small].
  unfold rd, holds, byte_of in *. pose proof (Hh 0) as H0. rewrite Z.add_0_r in H0. destruct sz; cbn [bytes] in *.
  - by rewrite H0 by lia.
  - rewrite H0, (Hh 1) by lia. apply (join_halves 8 0); lia.
  - rewrite H0, (Hh 1), (Hh 2), (Hh 3) by lia. rewrite <- (join_halves 16 0) by lia.
    f_equal; [f_equal; apply (join_halves 8 16); lia | apply (join_halves 8 0); lia].
Qed.

Lemma rd_ext sz f g a : (∀ b, a <= b < a + bytes sz → f b = g b) → rd sz f a = rd sz g a.
Proof. intros E. destruct sz; cbn in *; by rewrite !E by lia. Qed.

Lemma holds_ext sz f g a v : (∀ b, a <= b < a + bytes sz → g b = f b) → holds sz f a v → holds sz g a v.
Proof. intros E Hh i Hi. rewrite E by lia. by apply Hh. Qed.

(** ** The interface *)

Definition range (P : Z → Prop) (a n : Z) : Prop := ∀ b, a <= b < a + n → P b.

Lemma range_part P a n b k : range P a n → a <= b → b + k <= a + n → range P b k.
Proof. intros Hr Hb Hk x Hx. apply Hr. lia. Qed.

Definition get_data `{ram_config} (sz : wordsizes) (a : Z) : M Z :=
  match sz with sz_byte => get_byte a | sz_word => get_word a | sz_long => get_long a end.
Definition put_data `{ram_config} (sz : wordsizes) (a v : Z) : M unit :=
  match sz with sz_byte => put_byte a v | sz_word => put_word a v | sz_long => put_long a v end.

(** The mode of the CPU and the table of the MMU it uses agree. *)
Definition mode_is (su : bool) (s : mmu) : Prop := s.(regs).(supervisor) = su ∧ s.(current_atc) = su.

Class data_space `{ram_config} := {
  ds_ok : mmu → Prop;
  ds_at : bool → mmu → Z → Z;
  ds_read : bool → Z → Prop;
  ds_write : bool → Z → Prop;
  ds_address su a : ds_read su a → 0 <= a < 4294967296;
  ds_write_read su a : ds_write su a → ds_read su a;
  ds_get su sz a s : ds_ok s → mode_is su s → range (ds_read su) a (bytes sz) → range (λ b, 0 <= ds_at su s b < 256) a (bytes sz) →
    ∃ s', get_data sz a s = MOk (rd sz (ds_at su s) a) s' ∧ ds_ok s' ∧ s'.(regs) = s.(regs) ∧ s'.(current_atc) = s.(current_atc)
      ∧ ∀ b, ds_read su b → ds_at su s' b = ds_at su s b;
  ds_put su sz a v s : ds_ok s → mode_is su s → range (ds_write su) a (bytes sz) →
    ∃ s', put_data sz a v s = MOk tt s' ∧ ds_ok s' ∧ s'.(regs) = s.(regs) ∧ s'.(current_atc) = s.(current_atc)
      ∧ (∀ b, ds_read su b → ¬ (a <= b < a + bytes sz) → ds_at su s' b = ds_at su s b)
      ∧ (0 <= v < 2 ^ bit_size sz → holds sz (ds_at su s') a v);
  ds_mode su s : ds_ok s → ds_ok (s_current_atc su (s_regs (r_supervisor su s.(regs)) s))
    ∧ ∀ m b, ds_at m (s_current_atc su (s_regs (r_supervisor su s.(regs)) s)) b = ds_at m s b;
  ds_status s : ds_ok s → ds_ok (s_regs (r_wb3_status 0 s.(regs)) s) ∧ ∀ m b, ds_at m (s_regs (r_wb3_status 0 s.(regs)) s) b = ds_at m s b }.
