(* ===== verification/SpaceMmu.v ===== *)
(** * The memory management unit provides the data spaces

    The instance of [Space.data_space] for a set of translation tables: the addresses that the
    tables map to memory outside of the tables, for stores also writable, above the first page
    and mapped once among the addresses looked at.  An access across a page boundary goes through the parts of
    mmu_get_long_unaligned and its likes. *)

From S2P Require Import Prelude Ram Mmu Cpu MmuSpec Space.

Section instance.
Context `{ram_config} (r : cpu_regs) (m0 : gmap Z Z).
Context (Hal : ttr_alike r) (Hok : tables_ok r m0) (Hra : ram_aligned).
(** The addresses that are looked at. *)
Context (D : bool → Z → Prop).
#[local] Notation DL := (λ x : bool * Z, D x.1 x.2).

Definition target (su : bool) (b : Z) : Z := match reaches r m0 (su, b) false with to_ram pa => pa | _ => 0 end.

Definition mmu_readable (su : bool) (b : Z) : Prop :=
  D su b ∧ u32_addr b ∧ reaches r m0 (su, b) false = to_ram (target su b) ∧ outside r m0 (target su b).
Definition mmu_writable (su : bool) (b : Z) : Prop :=
  mmu_readable su b ∧ reaches r m0 (su, b) true = to_ram (target su b) ∧ above_page_0 r m0 (su, b)
  ∧ ∀ b', mmu_readable su b' → target su b' = target su b → b' = b.
Definition mmu_at (su : bool) (s : mmu) (b : Z) : Z := aget s.(ram) (target su b).

Lemma reaches_offset x w pa : reaches r m0 x w = to_ram pa → ∃ off wp, xlate r m0 x = Some (off, wp) ∧ pa = u32 (x.2 + off).
Proof. unfold reaches. destruct (xlate r m0 x) as [[off wp]|]; [|done]. cbv zeta. repeat case_match; try done. intros [= <-]. eauto. Qed.

Lemma page_of a i : a mod 4096 + i < 4096 → 0 <= i → (a + i) ≫ 12 = a ≫ 12.
Proof. intros. rewrite !shr12. Z.div_mod_to_equations. lia. Qed.

(** Inside a page the targets are consecutive. *)
Lemma target_step su a i n : a mod 4096 + n <= 4096 → range (mmu_readable su) a n → 0 <= i < n → target su (a + i) = target su a + i.
Proof.
  intros Hp Hr Hi. destruct (Hr (a + i)) as (_ & _ & R1 & _); [lia|]. destruct (Hr a) as (_ & _ & R0 & _); [lia|].
  apply reaches_offset in R1 as (off1 & wp1 & X1 & E1), R0 as (off & wp & X0 & E0). cbn [snd] in *.
  rewrite (page_xlate r m0 (su, a + i) (su, a)) in X1 by (split; [done|]; cbn; apply page_of; lia).
  rewrite X0 in X1. injection X1 as <- <-. apply offset_page in X0. rewrite E1, E0. unfold u32. Z.div_mod_to_equations. lia.
Qed.

Lemma fetch_rd sz m su s a : ram s = m → a mod 4096 + bytes sz <= 4096 → range (mmu_readable su) a (bytes sz) → fetch sz m (target su a) = rd sz (mmu_at su s) a.
Proof.
  intros <- Hp Hr. unfold mmu_at. destruct sz; cbn [fetch rd bytes] in *; unfold do_get_mem_long, do_get_mem_byte, do_get_mem_word;
    rewrite ?(target_step su a 1 _ Hp Hr), ?(target_step su a 2 _ Hp Hr), ?(target_step su a 3 _ Hp Hr) by lia; [done..|].
  by replace (target su a + 2 + 1) with (target su a + 3) by lia.
Qed.

Definition served (su : bool) (s s' : mmu) : Prop :=
  coherent r m0 DL s' ∧ s'.(regs) = s.(regs) ∧ s'.(current_atc) = s.(current_atc) ∧ ∀ b, mmu_readable su b → mmu_at su s' b = mmu_at su s b.

Lemma rest_served su s s' : coherent r m0 DL s' → rest_same r m0 s s' → served su s s'.
Proof. intros Hc (E1 & E2 & E3). split_and!; try done. intros b (_ & _ & _ & Ho). by apply E3. Qed.

Lemma served_trans su s1 s2 s3 : served su s1 s2 → served su s2 s3 → served su s1 s3.
Proof. intros (? & ? & ? & E1) (? & ? & ? & E2). split_and!; [done|congruence..|]. intros b Hb. by rewrite E2, E1. Qed.

(** Accesses inside a page. *)
Lemma get_inside su sz size a s : coherent r m0 DL s → mode_is su s → a mod 4096 + bytes sz <= 4096 → range (mmu_readable su) a (bytes sz) →
  ∃ s', mmu_get sz a true size s = MOk (rd sz (mmu_at su s) a) s' ∧ served su s s'.
Proof.
  intros Hc [Hsu Ha] Hp Hr. pose proof (bytes_range sz). destruct (Hr a) as (HD & Hu & R & _); [lia|].
  rewrite get_current, Ha by congruence. pose proof (get_spec r m0 DL (su, a) sz true size s Hal Hok Hra Hc HD (conj Hu Hp)) as Hg. rewrite R in Hg.
  destruct Hg as (s' & E & Hc' & Hrest & _). cbn [fst snd] in E. pose proof (rest_served su s s' Hc' Hrest) as Hs. exists s'. split; [|done].
  rewrite E, (fetch_rd sz _ su s') by done. f_equal. apply rd_ext. intros b Hb. destruct Hs as (_ & _ & _ & Hs). by apply Hs, Hr.
Qed.

Lemma put_outside_tables su a n : a mod 4096 + n <= 4096 → range (mmu_readable su) a n →
  ∀ b, target su a <= b < target su a + n → outside r m0 b.
Proof.
  intros Hp Hr b Hb. replace b with (target su a + (b - target su a)) by lia.
  rewrite <- (target_step su a _ n Hp Hr) by lia. apply (Hr (a + (b - target su a))). lia.
Qed.

Lemma shr_top k v : 0 <= k → 0 <= v < 2 ^ (k + 8) → (v ≫ k) .& 0xff = v ≫ k.
Proof.
  intros Hk Hv. change 0xff with (Z.ones 8). rewrite Z.land_ones, Z.shiftr_div_pow2 by lia. apply Z.mod_small. split; [apply Z.div_pos; lia|].
  apply Z.div_lt_upper_bound; [lia|]. rewrite <- Z.pow_add_r by lia. lia.
Qed.

Lemma store_bytes sz pa v m i : 0 <= v < 2 ^ bit_size sz → 0 <= i < bytes sz → aget (store sz pa v m) (pa + i) = byte_of sz v i.
Proof.
  intros Hv Hi. unfold byte_of.
  assert ((v .& 0xffff) ≫ 8 = (v ≫ 8) .& 0xff) as E8 by (rewrite Z.shiftr_land; done).
  assert ((v .& 0xffff) .& 0xff = v .& 0xff) as E0 by (rewrite <- Z.land_assoc; done).
  destruct sz; cbn [bytes bit_size store] in *; unfold do_put_mem_long, do_put_mem_byte, do_put_mem_word.
  - assert (i = 0) as -> by lia. rewrite Z.add_0_r, aget_aset_eq. by rewrite Z.shiftr_0_r.
  - assert (i = 0 ∨ i = 1) as [-> | ->] by lia.
    + rewrite aget_aset_ne, Z.add_0_r, aget_aset_eq by lia. symmetry. by apply (shr_top 8).
    + rewrite aget_aset_eq. by rewrite Z.shiftr_0_r.
  - assert (i = 0 ∨ i = 1 ∨ i = 2 ∨ i = 3) as [-> | [-> | [-> | ->]]] by lia; rewrite ?Z.add_0_r.
    + rewrite !aget_aset_ne, aget_aset_eq, Z.shiftr_shiftr by lia. symmetry. by apply (shr_top 24).
    + rewrite !aget_aset_ne, aget_aset_eq by lia. done.
    + rewrite aget_aset_ne, aget_aset_eq, E8 by lia. done.
    + replace (pa + 2 + 1) with (pa + 3) by lia. rewrite aget_aset_eq, E0. by rewrite Z.shiftr_0_r.
Qed.

Definition written (su : bool) (sz : wordsizes) (a v : Z) (s s' : mmu) : Prop :=
  coherent r m0 DL s' ∧ s'.(regs) = s.(regs) ∧ s'.(current_atc) = s.(current_atc)
  ∧ (∀ b, mmu_readable su b → ¬ (a <= b < a + bytes sz) → mmu_at su s' b = mmu_at su s b)
  ∧ (0 <= v < 2 ^ bit_size sz → holds sz (mmu_at su s') a v).

Lemma put_inside su sz size a v s : coherent r m0 DL s → mode_is su s → a mod 4096 + bytes sz <= 4096 → range (mmu_writable su) a (bytes sz) →
  ∃ s', mmu_put sz a v true size s = MOk tt s' ∧ written su sz a v s s'.
Proof.
  intros Hc [Hsu Ha] Hp Hw. pose proof (bytes_range sz). destruct (Hw a) as ((HD & Hu & _) & R & Hab & _); [lia|].
  assert (range (mmu_readable su) a (bytes sz)) as Hr by (intros b Hb; by apply Hw).
  rewrite put_current, Ha by congruence. pose proof (put_spec r m0 DL (su, a) sz v true size s Hal Hok Hra Hc HD (conj Hu Hp) Hab) as Hg. rewrite R in Hg.
  destruct Hg as (s' & E & Hc' & (E1 & E2 & E3) & _). cbn [fst snd] in E. eexists. split; [exact E|]. split_and!; [|done..| |].
  - apply coherent_store; [done|]. by apply put_outside_tables.
  - intros b Hb Hout. unfold mmu_at. cbn [s_ram ram]. rewrite store_byte; [by apply E3, Hb|]. intros Hin.
    apply Hout. replace b with (a + (target su b - target su a)); [lia|]. symmetry.
    assert (target su (a + (target su b - target su a)) = target su b) as Et by (rewrite (target_step su a _ _ Hp Hr); lia).
    destruct (Hw (a + (target su b - target su a))) as (_ & _ & _ & Hinj); [lia|]. by apply Hinj.
  - intros Hv i Hi. unfold mmu_at. cbn [s_ram ram]. rewrite (target_step su a i _ Hp Hr) by lia. by apply store_bytes.
Qed.

(** Accesses across a page boundary. *)
Lemma mode_served su s s' : mode_is su s → s'.(regs) = s.(regs) → s'.(current_atc) = s.(current_atc) → mode_is su s'.
Proof. intros [] E1 E2. split; congruence. Qed.

Lemma crossing_unaligned a n : n = 2 ∨ n = 4 → 0 <= a → a + n <= 4294967296 → 4096 < a mod 4096 + n → is_unaligned a n = true.
Proof.
  intros Hn Ha Hn2 Hc. unfold is_unaligned. rewrite (nz_flag (a .^ _) 12), Z.lxor_spec by done. unfold u32. rewrite (Z.mod_small (a + n - 1)) by lia.
  assert (a + n - 1 = (a / 4096 + 1) * 4096 + (a mod 4096 + n - 1 - 4096)) as E by (Z.div_mod_to_equations; lia).
  apply andb_true_intro. split.
  - unfold nz. apply negb_true_iff, Z.eqb_neq. assert (n - 1 = Z.ones (if n =? 2 then 1 else 2)) as -> by (by destruct Hn as [-> | ->]).
    rewrite Z.land_ones by (destruct Hn as [-> | ->]; cbn; lia). destruct Hn as [-> | ->]; cbn; Z.div_mod_to_equations; lia.
  - rewrite !(Z.testbit_eqb _ 12) by lia. change (2 ^ 12) with 4096. rewrite E.
    rewrite Z.div_add_l, (Z.div_small (a mod 4096 + n - 1 - 4096)) by (Z.div_mod_to_equations; lia). rewrite Z.add_0_r, Zplus_mod.
    destruct (Z.eqb_spec (a / 4096 mod 2) 1) as [E1|E1]; [by rewrite E1|]. assert (a / 4096 mod 2 = 0) as -> by (Z.div_mod_to_equations; lia). done.
Qed.

Lemma range_address su a n : 0 < n → range (mmu_readable su) a n → 0 <= a ∧ a + n <= 4294967296.
Proof. intros Hn Hr. destruct (Hr a) as (_ & [? ?] & _); [lia|]. destruct (Hr (a + n - 1)) as (_ & [? ?] & _); [lia|]. lia. Qed.

Lemma even_mod a : a .& 1 = 0 → a mod 2 = 0.
Proof. change 1 with (Z.ones 1). by rewrite Z.land_ones by lia. Qed.

(** A part of an access that was cut, in a state the earlier parts have left. *)
Lemma get_part su sz size a s s' : served su s s' → mode_is su s → a mod 4096 + bytes sz <= 4096 → range (mmu_readable su) a (bytes sz) →
  ∃ s2, mmu_get sz a true size s' = MOk (rd sz (mmu_at su s) a) s2 ∧ served su s s2.
Proof.
  intros Hs Hm Hp Hr. pose proof Hs as (Hc & E1 & E2 & E3). destruct (get_inside su sz size a s') as (s2 & -> & Hs2); [done|by apply (mode_served su s)|done..|].
  exists s2. split; [|by apply (served_trans su s s')]. f_equal. apply rd_ext. intros b Hb. by apply E3, Hr.
Qed.

Lemma served_refl su s : coherent r m0 DL s → served su s s.
Proof. intros Hc. split; [done|]. by split_and!. Qed.

Lemma lor_256 x y : 0 <= x → 0 <= y < 256 → (x ≪ 8) .| y = x * 256 + y.
Proof. intros. rewrite Z.shiftl_mul_pow2 by lia. apply (lor_add _ _ 8); [lia|lia|apply Z.mod_mul; lia]. Qed.

Lemma odd_long x y z w : 0 <= x < 256 → 0 <= y < 256 → 0 <= z < 256 → 0 <= w < 256 →
  (u32 ((u32 ((u32 (x ≪ 8) .| y) ≪ 8) .| z) ≪ 8)) .| w = (((x ≪ 8) .| y) ≪ 16) .| ((z ≪ 8) .| w).
Proof.
  intros. assert (∀ v, 0 <= v < 16777216 → u32 (v ≪ 8) = v ≪ 8) as U by (intros v Hv; rewrite Z.shiftl_mul_pow2 by lia; apply Z.mod_small; lia).
  rewrite (U x), !(lor_256 x y) by lia. rewrite (U (x * 256 + y)), (lor_256 (x * 256 + y) z) by lia. rewrite U, lor_256, (lor_256 z w) by lia.
  rewrite Z.shiftl_mul_pow2 by lia. rewrite (lor_add _ _ 16); [lia|lia|lia|apply Z.mod_mul; lia].
Qed.

Lemma get_data_ok su sz a s : coherent r m0 DL s → mode_is su s → range (mmu_readable su) a (bytes sz) → range (λ b, 0 <= mmu_at su s b < 256) a (bytes sz) →
  ∃ s', get_data sz a s = MOk (rd sz (mmu_at su s) a) s' ∧ served su s s'.
Proof.
  intros Hc Hm Hr Hb. pose proof (served_refl su s Hc) as Hs. destruct (range_address su a (bytes sz)) as [Ha0 Ha1]; [destruct sz; cbn; lia|done|].
  assert (∀ k, 0 <= k < bytes sz → u32 (a + k) = a + k) as Hu by (intros k Hk; unfold u32; apply Z.mod_small; lia).
  destruct (decide (a mod 4096 + bytes sz <= 4096)) as [Hp|Hp].
  { destruct (get_inside su sz sz a s Hc Hm Hp Hr) as (s' & E & Hs'). exists s'. split; [|done].
    assert (is_unaligned a (bytes sz) = false) as Hal'.
    { apply (unaligned_in_page (su, a)). split; [|done]. pose proof (bytes_range sz). split; cbn [snd]; lia. }
    destruct sz; cbn [get_data bytes] in *; unfold get_byte, get_word, get_long; rewrite ?Hal'; exact E. }
  assert (∀ k s1, 0 <= k < bytes sz → served su s s1 → ∀ size, ∃ s2, mmu_get sz_byte (u32 (a + k)) true size s1 = MOk (mmu_at su s (a + k)) s2 ∧ served su s s2) as Hbyte.
  { intros k s1 Hk Hs1 size. rewrite Hu by done. apply (get_part su sz_byte size (a + k) s s1 Hs1 Hm); cbn [bytes]; [Z.div_mod_to_equations; lia|].
    apply (range_part _ a (bytes sz)); [done|lia..]. }
  destruct sz; cbn [get_data bytes] in *; [Z.div_mod_to_equations; lia|..].
  - unfold get_word. rewrite (crossing_unaligned a 2) by lia. unfold mmu_get_word_unaligned, get_word_parts, misaligned, m_try, mbind, M_bind.
    destruct (Hbyte 0 s ltac:(lia) Hs sz_word) as (s1 & E1 & Hs1). rewrite Hu, Z.add_0_r in E1 by lia. rewrite E1.
    destruct (Hbyte 1 s1 ltac:(lia) Hs1 sz_word) as (s2 & -> & Hs2). exists s2. split; [|done]. unfold mret, M_ret. cbn [rd].
    unfold u16. rewrite Z.mod_small; [done|]. assert (0 <= mmu_at su s a < 256) by (apply Hb; lia). rewrite Z.shiftl_mul_pow2 by lia. lia.
  - unfold get_long. rewrite (crossing_unaligned a 4) by lia. unfold mmu_get_long_unaligned, get_long_parts, misaligned, m_try.
    destruct (Z.eqb_spec (a .& 1) 0) as [Eo|Eo]; unfold mbind, M_bind.
    + pose proof (even_mod a Eo). destruct (get_part su sz_word sz_long a s s Hs Hm) as (s1 & -> & Hs1); cbn [bytes]; [Z.div_mod_to_equations; lia|apply (range_part _ a 4); [done|lia..]|].
      rewrite Hu by lia. destruct (get_part su sz_word sz_long (a + 2) s s1 Hs1 Hm) as (s2 & -> & Hs2); cbn [bytes]; [Z.div_mod_to_equations; lia|apply (range_part _ a 4); [done|lia..]|].
      exists s2. split; [|done]. unfold mret, M_ret. cbn [rd]. replace (a + 2 + 1) with (a + 3) by lia. f_equal. f_equal.
      assert (0 <= mmu_at su s a < 256) by (apply Hb; lia). assert (0 <= mmu_at su s (a + 1) < 256) by (apply Hb; lia). apply Z.mod_small. rewrite lor_256, Z.shiftl_mul_pow2 by lia. lia.
    + destruct (Hbyte 0 s ltac:(lia) Hs sz_long) as (s1 & E1 & Hs1). rewrite Hu, Z.add_0_r in E1 by lia. rewrite E1.
      destruct (Hbyte 1 s1 ltac:(lia) Hs1 sz_long) as (s2 & -> & Hs2). destruct (Hbyte 2 s2 ltac:(lia) Hs2 sz_long) as (s3 & -> & Hs3).
      destruct (Hbyte 3 s3 ltac:(lia) Hs3 sz_long) as (s4 & -> & Hs4). exists s4. split; [|done]. unfold mret, M_ret. cbn [rd]. f_equal.
      assert (0 <= mmu_at su s a < 256) by (apply Hb; lia). assert (0 <= mmu_at su s (a + 1) < 256) by (apply Hb; lia). assert (0 <= mmu_at su s (a + 2) < 256) by (apply Hb; lia). assert (0 <= mmu_at su s (a + 3) < 256) by (apply Hb; lia).
      by apply odd_long.
Qed.

Lemma u_byte n v k : 8 <= n → 0 <= k → k + 8 <= n → (v mod 2 ^ n) ≫ k .& 0xff = v ≫ k .& 0xff.
Proof.
  intros Hn Hk Hkn. apply Z.bits_inj'. intros i Hi. change 0xff with (Z.ones 8). rewrite !Z.land_spec, !Z.shiftr_spec, Z.testbit_ones_nonneg by lia.
  destruct (Z.ltb_spec i 8); [|by rewrite !andb_false_r]. by rewrite Z.mod_pow2_bits_low by lia.
Qed.

Lemma byte_of_byte sz v k : 0 <= k < bytes sz → byte_of sz_byte (u8 (v ≫ (8 * (bytes sz - 1 - k)))) 0 = byte_of sz v k.
Proof. intros Hk. unfold byte_of. cbn [bytes]. unfold u8. rewrite (u_byte 8) by lia. by rewrite Z.shiftr_0_r. Qed.

Lemma byte_of_word v k i : (k = 0 ∨ k = 2) → 0 <= i < 2 → byte_of sz_word (u16 (v ≫ (16 - 8 * k))) i = byte_of sz_long v (k + i).
Proof.
  intros Hk Hi. unfold byte_of. cbn [bytes]. unfold u16. rewrite (u_byte 16) by lia. rewrite Z.shiftr_shiftr by lia. f_equal. f_equal. lia.
Qed.

(** A store of a part, after which the earlier parts are still there. *)
Lemma put_part su sz size a v s s1 lo n : coherent r m0 DL s1 → s1.(regs) = s.(regs) → s1.(current_atc) = s.(current_atc) →
  (∀ b, mmu_readable su b → ¬ (lo <= b < lo + n) → mmu_at su s1 b = mmu_at su s b) → lo <= a → a + bytes sz <= lo + n →
  mode_is su s → a mod 4096 + bytes sz <= 4096 → range (mmu_writable su) lo n → 0 <= v < 2 ^ bit_size sz →
  ∃ s2, mmu_put sz a v true size s1 = MOk tt s2 ∧ coherent r m0 DL s2 ∧ s2.(regs) = s.(regs) ∧ s2.(current_atc) = s.(current_atc)
    ∧ (∀ b, mmu_readable su b → ¬ (lo <= b < lo + n) → mmu_at su s2 b = mmu_at su s b)
    ∧ holds sz (mmu_at su s2) a v ∧ ∀ b, lo <= b < lo + n → ¬ (a <= b < a + bytes sz) → mmu_at su s2 b = mmu_at su s1 b.
Proof.
  intros Hc E1 E2 E3 Hlo Hhi Hm Hp Hw Hv.
  destruct (put_inside su sz size a v s1) as (s2 & E & Hc2 & E1' & E2' & E3' & Hh); [done|by apply (mode_served su s)|done|by apply (range_part _ lo n)|].
  exists s2. split_and!; [done|done|congruence..| |by apply Hh|].
  - intros b Hb Hn. rewrite E3' by (done || lia). by apply E3.
  - intros b Hb Hn. apply E3'; [apply Hw; lia|done].
Qed.

(** Stores across a page boundary: a word, and a long word in two or in four parts. *)
Lemma put_word_across su a v s : coherent r m0 DL s → mode_is su s → range (mmu_writable su) a 2 → 0 <= a → a + 2 <= 4294967296 → 4096 < a mod 4096 + 2 →
  ∃ s', put_word a v s = MOk tt s' ∧ written su sz_word a v s s'.
Proof.
  intros Hc Hm Hw Ha0 Ha1 Hp. assert (∀ k, 0 <= k < 2 → u32 (a + k) = a + k) as Hu by (intros k Hk; unfold u32; apply Z.mod_small; lia).
  unfold put_word. rewrite (crossing_unaligned a 2) by lia. unfold mmu_put_word_unaligned, put_word_parts, misaligned_put, m_try, mbind, M_bind.
  assert (∀ x, 0 <= u8 x < 2 ^ 8) as H8 by (intros x; apply Z.mod_pos_bound; lia).
  edestruct (put_part su sz_byte sz_word a (u8 (v ≫ 8)) s s a 2) as (s1 & -> & Hc1 & R1 & A1 & O1 & H1 & K1); try done; cbn [bytes]; [lia|Z.div_mod_to_equations; lia|].
  rewrite Hu by lia. edestruct (put_part su sz_byte sz_word (a + 1) (u8 v) s s1 a 2) as (s2 & -> & Hc2 & R2 & A2 & O2 & H2 & K2); try done; cbn [bytes]; [lia..|Z.div_mod_to_equations; lia|].
  exists s2. split; [done|]. split_and!; try done. intros Hv i Hi. cbn [bytes] in *. assert (i = 0 ∨ i = 1) as [-> | ->] by lia.
  + rewrite K2 by lia. rewrite (H1 0) by (cbn; lia). apply (byte_of_byte sz_word v 0). cbn; lia.
  + specialize (H2 0 ltac:(cbn; lia)). rewrite Z.add_0_r in H2. rewrite H2. etransitivity; [|apply (byte_of_byte sz_word v 1); cbn; lia]. cbn [bytes]. by rewrite Z.shiftr_0_r.
Qed.

Lemma put_long_even su a v s : coherent r m0 DL s → mode_is su s → range (mmu_writable su) a 4 → 0 <= a → a + 4 <= 4294967296 → 4096 < a mod 4096 + 4 → a .& 1 = 0 →
  ∃ s', put_long a v s = MOk tt s' ∧ written su sz_long a v s s'.
Proof.
  intros Hc Hm Hw Ha0 Ha1 Hp. assert (∀ k, 0 <= k < 4 → u32 (a + k) = a + k) as Hu by (intros k Hk; unfold u32; apply Z.mod_small; lia).
  intros Eo. unfold put_long. rewrite (crossing_unaligned a 4) by lia. unfold mmu_put_long_unaligned, put_long_parts, misaligned_put, m_try. rewrite Eo. unfold mbind, M_bind. cbn [Z.eqb].
  pose proof (even_mod a Eo). assert (∀ x, 0 <= u16 x < 2 ^ 16) as H16 by (intros x; apply Z.mod_pos_bound; lia).
  edestruct (put_part su sz_word sz_long a (u16 (v ≫ 16)) s s a 4) as (s1 & -> & Hc1 & R1 & A1 & O1 & H1 & K1); try done; cbn [bytes]; [lia|Z.div_mod_to_equations; lia|].
  rewrite Hu by lia. edestruct (put_part su sz_word sz_long (a + 2) (u16 v) s s1 a 4) as (s2 & -> & Hc2 & R2 & A2 & O2 & H2 & K2); try done; cbn [bytes]; [lia..|Z.div_mod_to_equations; lia|].
  exists s2. split; [done|]. split_and!; try done. intros Hv i Hi. cbn [bytes] in *. destruct (decide (i < 2)).
  * rewrite K2 by lia. rewrite (H1 i) by (cbn; lia). apply (byte_of_word v 0 i); lia.
  * replace (a + i) with (a + 2 + (i - 2)) by lia. rewrite (H2 (i - 2)) by (cbn; lia).
    pose proof (byte_of_word v 2 (i - 2) ltac:(lia) ltac:(lia)) as E. change (16 - 8 * 2) with 0 in E. rewrite Z.shiftr_0_r in E. rewrite E. f_equal. lia.
Qed.

Lemma put_long_odd su a v s : coherent r m0 DL s → mode_is su s → range (mmu_writable su) a 4 → 0 <= a → a + 4 <= 4294967296 → 4096 < a mod 4096 + 4 → a .& 1 ≠ 0 →
  ∃ s', put_long a v s = MOk tt s' ∧ written su sz_long a v s s'.
Proof.
  intros Hc Hm Hw Ha0 Ha1 Hp. assert (∀ k, 0 <= k < 4 → u32 (a + k) = a + k) as Hu by (intros k Hk; unfold u32; apply Z.mod_small; lia).
  intros Eo. unfold put_long. rewrite (crossing_unaligned a 4) by lia. unfold mmu_put_long_unaligned, put_long_parts, misaligned_put, m_try. rewrite (proj2 (Z.eqb_neq _ _) Eo). unfold mbind, M_bind.
  assert (∀ x, 0 <= u8 x < 2 ^ 8) as H8 by (intros x; apply Z.mod_pos_bound; lia). assert (∀ x, x mod 4096 + 1 <= 4096) as Hp1 by (intros x; Z.div_mod_to_equations; lia).
  edestruct (put_part su sz_byte sz_long a (u8 (v ≫ 24)) s s a 4) as (s1 & -> & Hc1 & R1 & A1 & O1 & H1 & K1); try done; cbn [bytes]; [lia|].
  rewrite !Hu by lia. edestruct (put_part su sz_byte sz_long (a + 1) (u8 (v ≫ 16)) s s1 a 4) as (s2 & -> & Hc2 & R2 & A2 & O2 & H2 & K2); try done; cbn [bytes]; [lia..|].
  edestruct (put_part su sz_byte sz_long (a + 2) (u8 (v ≫ 8)) s s2 a 4) as (s3 & -> & Hc3 & R3 & A3 & O3 & H3 & K3); try done; cbn [bytes]; [lia..|].
  edestruct (put_part su sz_byte sz_long (a + 3) (u8 v) s s3 a 4) as (s4 & -> & Hc4 & R4 & A4 & O4 & H4 & K4); try done; cbn [bytes]; [lia..|].
  exists s4. split; [done|]. split_and!; try done. intros Hv i Hi. cbn [bytes] in *.
  specialize (H1 0 ltac:(cbn; lia)). specialize (H2 0 ltac:(cbn; lia)). specialize (H3 0 ltac:(cbn; lia)). specialize (H4 0 ltac:(cbn; lia)).
  rewrite Z.add_0_r in H2, H3, H4. assert (i = 0 ∨ i = 1 ∨ i = 2 ∨ i = 3) as [-> | [-> | [-> | ->]]] by lia.
  * rewrite K4, K3, K2, H1 by lia. apply (byte_of_byte sz_long v 0). cbn; lia.
  * rewrite K4, K3, H2 by lia. apply (byte_of_byte sz_long v 1). cbn; lia.
  * rewrite K4, H3 by lia. apply (byte_of_byte sz_long v 2). cbn; lia.
  * rewrite H4. etransitivity; [|apply (byte_of_byte sz_long v 3); cbn; lia]. cbn [bytes]. by rewrite Z.shiftr_0_r.
Qed.

Lemma put_data_ok su sz a v s : coherent r m0 DL s → mode_is su s → range (mmu_writable su) a (bytes sz) → ∃ s', put_data sz a v s = MOk tt s' ∧ written su sz a v s s'.
Proof.
  intros Hc Hm Hw. assert (range (mmu_readable su) a (bytes sz)) as Hr by (intros b Hb; by apply Hw).
  destruct (range_address su a (bytes sz)) as [Ha0 Ha1]; [destruct sz; cbn; lia|done|].
  destruct (decide (a mod 4096 + bytes sz <= 4096)) as [Hp|Hp].
  { destruct (put_inside su sz sz a v s Hc Hm Hp Hw) as (s' & E & Hs'). exists s'. split; [|done].
    assert (is_unaligned a (bytes sz) = false) as Hal'.
    { apply (unaligned_in_page (su, a)). split; [|done]. pose proof (bytes_range sz). split; cbn [snd]; lia. }
    destruct sz; cbn [put_data bytes] in *; unfold put_byte, put_word, put_long; rewrite ?Hal'; exact E. }
  destruct sz; cbn [put_data bytes] in *; [Z.div_mod_to_equations; lia|..].
  - apply put_word_across; (done || lia).
  - destruct (decide (a .& 1 = 0)); [apply put_long_even|apply put_long_odd]; (done || lia).
Qed.

(** ** The instance *)

#[global] Instance mmu_space : data_space.
Proof using Hal Hok Hra D.
  refine {| ds_ok := coherent r m0 DL; ds_at := mmu_at; ds_read := mmu_readable; ds_write := mmu_writable |}.
  - by intros su a (_ & ? & _).
  - by intros su a [].
  - intros su sz a s Hc Hm Hr Hb. destruct (get_data_ok su sz a s Hc Hm Hr Hb) as (s' & ? & ? & ? & ? & ?). eauto 10.
  - intros su sz a v s Hc Hm Hw. destruct (put_data_ok su sz a v s Hc Hm Hw) as (s' & ? & ? & ? & ? & ? & ?). eauto 10.
  - intros su s Hc. split; [|done]. apply coherent_mode. by apply (coherent_regs r m0 DL s (r_supervisor su)).
  - intros s Hc. split; [|done]. by apply (coherent_regs r m0 DL s (r_wb3_status 0)).
Defined.
End instance.
