(* ===== verification/SrSpec.v ===== *)
(** * The status register

    The mode, the flags and the three stack pointers: MakeSR and MakeFromSR are inverse to each
    other, and a change of the mode exchanges A7 so that none of the stack pointers is lost. *)

From S2P Require Import Prelude Ram Mmu Cpu.

(** The mode and the flags. *)
Record mode_bits := mk_bits { b_t1 : bool; b_t0 : bool; b_s : bool; b_m : bool; b_mask : Z; b_x : bool; b_n : bool; b_z : bool; b_v : bool; b_c : bool }.
Definition bits (c : cpu) : mode_bits :=
  mk_bits c.(t1) c.(t0) (supervised c) c.(master) c.(intmask) c.(xflg) c.(nflg) c.(zflg) c.(vflg) c.(cflg).

(** The three stack pointers: A7 is the one of the mode. *)
Definition user_sp (c : cpu) : Z := if supervised c then c.(usp) else sp c.
Definition interrupt_sp (c : cpu) : Z := if supervised c && negb c.(master) then sp c else c.(isp).
Definition master_sp (c : cpu) : Z := if supervised c && c.(master) then sp c else c.(msp).

Definition sr_bits (w : Z) : mode_bits :=
  let b k := nz ((w ≫ k) .& 1) in mk_bits (b 15) (b 14) (b 13) (b 12) ((w ≫ 8) .& 7) (b 4) (b 3) (b 2) (b 1) (b 0).

Lemma flag_shifted b k i : 0 <= k → 0 <= i → Z.testbit (b2z b ≪ k) i = (i =? k) && b.
Proof.
  intros Hk Hi. rewrite Z.shiftl_spec by lia. destruct (Z.eqb_spec i k) as [->|Hn]; [rewrite Z.sub_diag; by destruct b|].
  destruct (Z.ltb_spec i k); [by rewrite Z.testbit_neg_r by lia|]. apply Z.bits_above_log2; [by destruct b|]. destruct b; cbn; lia.
Qed.

Lemma mask_bits m i : 0 <= m < 8 → i < 0 ∨ 3 <= i → Z.testbit m i = false.
Proof. intros Hm [Hi|Hi]; [by apply Z.testbit_neg_r|]. apply (in_u_bits 3); [lia| |done]. done. Qed.

Lemma sr_range c : 0 <= c.(intmask) < 8 → in_u 16 (MakeSR_value c).
Proof.
  intros Hm. unfold MakeSR_value. assert (∀ b k, 0 <= k <= 15 → in_u 16 (b2z b ≪ k)) as Hb by (intros b k Hk; apply in_u_shl; [lia|apply in_u_b2z; lia|lia]).
  repeat (apply in_u_lor; [| |lia]); try (apply Hb; lia); [|apply in_u_b2z; lia]. apply in_u_shl; [lia| |lia]. by apply (in_u_mono 3); [|lia].
Qed.

Lemma sr_bit c i : 0 <= i → Z.testbit (MakeSR_value c) i =
  (((((((((i =? 15) && c.(t1)) || ((i =? 14) && c.(t0))) || ((i =? 13) && supervised c)) || ((i =? 12) && c.(master))) || Z.testbit (c.(intmask) ≪ 8) i)
  || ((i =? 4) && c.(xflg))) || ((i =? 3) && c.(nflg))) || ((i =? 2) && c.(zflg))) || ((i =? 1) && c.(vflg)) || ((i =? 0) && c.(cflg)).
Proof. intros Hi. unfold MakeSR_value. rewrite <- (Z.shiftl_0_r (b2z c.(cflg))). rewrite !Z.lor_spec, !flag_shifted by lia. done. Qed.

(** MakeFromSR gets back what MakeSR has put in the register. *)
Lemma sr_round_trip c : 0 <= c.(intmask) < 8 → sr_bits (u16 (MakeSR_value c)) = bits c.
Proof.
  intros Hm. assert (u16 (MakeSR_value c) = MakeSR_value c) as -> by (apply Z.mod_small; by apply sr_range). unfold sr_bits, bits. cbv zeta.
  assert (∀ k, 0 <= k → nz ((MakeSR_value c ≫ k) .& 1) = Z.testbit (MakeSR_value c) k) as Hb.
  { intros k Hk. rewrite bit_b2z by done. by destruct (Z.testbit _ k). }
  rewrite !Hb by lia. rewrite !sr_bit by lia. rewrite !Z.shiftl_spec by lia. rewrite !(mask_bits (intmask c)) by (done || lia).
  cbn [Z.eqb Pos.eqb andb orb]. rewrite ?orb_false_r. f_equal. apply Z.bits_inj'. intros i Hi. change 7 with (Z.ones 3).
  rewrite Z.land_spec, Z.shiftr_spec, sr_bit, Z.shiftl_spec, Z.testbit_ones_nonneg by lia. replace (i + 8 - 8) with i by lia.
  destruct (Z.ltb_spec i 3); [|by rewrite andb_false_r, mask_bits by lia].
  repeat (rewrite (proj2 (Z.eqb_neq (i + 8) _)) by lia). cbn [andb orb]. by rewrite !orb_false_r, andb_true_r.
Qed.

Definition switched (su : bool) (s : mmu) : mmu := s_current_atc su (s_regs (r_supervisor su s.(regs)) s).

Record from_sr (w : Z) (c c' : cpu) : Prop := {
  fs_bits : bits c' = sr_bits w;
  fs_usp : user_sp c' = user_sp c;
  fs_isp : interrupt_sp c' = interrupt_sp c;
  fs_msp : master_sp c' = master_sp c;
  fs_greg : ∀ r, r ≠ A7 → aget c'.(greg) r = aget c.(greg) r;
  fs_mem : c'.(mem) = switched (nz ((w ≫ 13) .& 1)) c.(mem);
  fs_trace : SPCFLAGS_TEST SPCFLAG_TRACE c' = (b_t1 (sr_bits w) || b_t0 (sr_bits w)) }.

Lemma test_set f x c' : nz f = true → c'.(spcflags) = x .| f → SPCFLAGS_TEST f c' = true.
Proof.
  intros Hf E. unfold SPCFLAGS_TEST. rewrite E. apply nz_true. apply nz_true in Hf. intros E0. apply Hf. apply Z.bits_inj'. intros i Hi.
  apply (f_equal (λ z, Z.testbit z i)) in E0. rewrite Z.land_spec, Z.lor_spec, Z.bits_0 in *. by destruct (Z.testbit f i); [rewrite orb_true_r in E0|].
Qed.
Lemma test_clear f x c' : c'.(spcflags) = x .& Z.lnot f → SPCFLAGS_TEST f c' = false.
Proof.
  intros E. unfold SPCFLAGS_TEST. rewrite E. apply nz_false. apply Z.bits_inj'. intros i Hi. rewrite !Z.land_spec, Z.lnot_spec, Z.bits_0 by lia.
  by destruct (Z.testbit f i); rewrite ?andb_false_r.
Qed.

Lemma MakeFromSR_ok c : ∃ c', MakeFromSR c = COk tt c' ∧ from_sr c.(sr) c c'.
Proof.
  remember c.(sr) as w eqn:Ew. destruct (MakeFromSR c) as [[] c'| | | |] eqn:E; [exists c'; split; [done|]|..]; revert E;
  unfold MakeFromSR, set_super, swap_stacks, SET_XFLG, SET_NFLG, SET_ZFLG, SET_VFLG, SET_CFLG, SPCFLAGS_SET, SPCFLAGS_CLEAR, lift, mmu_set_super, m_set, m_upd, mbind, M_bind, C_bind, c_get, c_upd;
  rewrite <- !Ew; [|case_match; discriminate..].
  intros E. destruct c as [[[su]] ? ? ? ? ? ? ? ma]. cbn -[aset aget A7] in E.
  assert (SPCFLAGS_TEST SPCFLAG_TRACE c' = b_t1 (sr_bits w) || b_t0 (sr_bits w)) as Ht.
  { cbn [sr_bits b_t1 b_t0].
    destruct (nz (w ≫ 13 .& 1)), su; cbn -[aset aget A7] in E; destruct (nz (w ≫ 12 .& 1)), ma; cbn -[aset aget A7] in E; destruct (nz (w ≫ 15 .& 1) || nz (w ≫ 14 .& 1));
      injection E as <-; solve [eapply test_set; [done|reflexivity] | eapply test_clear; reflexivity]. }
  split; [| | | | | |exact Ht]; clear Ht;
  unfold user_sp, interrupt_sp, master_sp, supervised, bits, sr_bits, sp, switched, s_current_atc, s_regs, r_supervisor in *; cbv zeta;
  destruct (nz (w ≫ 13 .& 1)), su; cbn -[aset aget A7] in E; destruct (nz (w ≫ 12 .& 1)), ma; cbn -[aset aget A7] in E; destruct (nz (w ≫ 15 .& 1) || nz (w ≫ 14 .& 1));
    injection E as <-; cbn -[aset aget A7]; rewrite ?aget_aset_eq; try done; intros r0 Hr; by rewrite ?aget_aset_ne by done.
Qed.
