(* ===== verification/ExcSpec.v ===== *)
(** * Exceptions return

    An exception saves the status register and the program counter on the supervisor's stack,
    and RTE brings them back: with the frame of every exception of the 68040, in user and
    supervisor mode, and for interrupts in master mode with the second (throwaway) frame on the
    interrupt stack.  Proved against the interface [Space.data_space] of memory, and so for
    every setting of the MMU in which the stack is writable memory. *)

From S2P Require Import Prelude Ram Mmu Cpu Insn Handlers ShiftSpec Space SrSpec.


(** ** The stack *)

Section stack.
Context `{data_space}.

Definition at_stack (c : cpu) : Z → Z := ds_at true c.(mem).

(** [n] bytes have been pushed on the supervisor's stack since [c0]. *)
Record pushed (c0 : cpu) (n : Z) (c : cpu) : Prop := {
  pu_size : 0 <= n;
  pu_rest : c = c_greg c.(greg) (c_mem c.(mem) c0);
  pu_greg : ∀ r, r ≠ A7 → aget c.(greg) r = aget c0.(greg) r;
  pu_sp : sp c = sp c0 - n;
  pu_ok : ds_ok c.(mem);
  pu_mode : mode_is true c.(mem);
  pu_regs : r_wb3_status 0 c.(mem).(regs) = r_wb3_status 0 c0.(mem).(regs);
  pu_data : ∀ b, ds_read true b → ¬ (sp c0 - n <= b < sp c0) → at_stack c b = at_stack c0 b }.

Definition push (sz : wordsizes) (v : Z) : C unit :=
  a ← areg 7; set_areg 7 (a - bytes sz);; a ← areg 7; lift (put_data sz a v).

Lemma push_eq : exc_push_word = push sz_word ∧ exc_push_long = push sz_long.
Proof. done. Qed.

Lemma pushed_refl c : ds_ok c.(mem) → mode_is true c.(mem) → pushed c 0 c.
Proof. intros Ho Hm. split; try done; [by destruct c|lia]. Qed.

Lemma push_ok sz v c0 n c : pushed c0 n c → range (ds_write true) (sp c0 - n - bytes sz) (bytes sz) →
  ∃ c', push sz v c = COk tt c' ∧ pushed c0 (n + bytes sz) c' ∧ (0 <= v < 2 ^ bit_size sz → holds sz (at_stack c') (sp c') v)
    ∧ ∀ b, ds_read true b → sp c <= b → at_stack c' b = at_stack c b.
Proof.
  intros [Hn Er Hg Hs Ho Hm Hq Hd] Hw. remember (sp c0 - n - bytes sz) as a eqn:Ha.
  assert (1 <= bytes sz) as Hb by (destruct sz; cbn; lia).
  assert (u32 a = a) as Ea by (apply Z.mod_small; apply (ds_address true), ds_write_read, Hw; lia).
  destruct (ds_put true sz a v c.(mem) Ho Hm Hw) as (s' & E & Ho' & E1 & E2 & Hout & Hh).
  exists (c_mem s' (c_greg (aset c.(greg) A7 a) c)).
  assert (sp c - bytes sz = a) as Esp by lia.
  assert (push sz v c = COk tt (c_mem s' (c_greg (aset c.(greg) A7 a) c))) as Ep.
  { unfold push, areg, set_areg, c_get, c_upd, mbind, C_bind. change (8 + 7) with A7. change (aget c.(greg) A7) with (sp c). rewrite Esp, Ea.
    cbn [c_greg greg]. rewrite aget_aset_eq. unfold lift. cbn [c_greg mem]. by rewrite E. }
  split; [done|]. split; [|split].
  - split.
    + lia.
    + rewrite Er. by destruct c0.
    + intros r Hr. cbn [c_mem c_greg greg]. rewrite aget_aset_ne by done. by apply Hg.
    + unfold sp at 1. cbn [c_mem c_greg greg]. rewrite aget_aset_eq. lia.
    + done.
    + cbn. destruct Hm. split; congruence.
    + cbn. by rewrite E1.
    + intros b Hb1 Hb2. unfold at_stack in *. cbn [c_mem c_greg mem]. rewrite Hout by (done || lia). apply Hd; [done|lia].
  - intros Hv. unfold sp. cbn [c_mem c_greg greg]. rewrite aget_aset_eq. by apply Hh.
  - intros b Hb1 Hb2. unfold at_stack. cbn [c_mem c_greg mem]. apply Hout; [done|lia].
Qed.

Lemma stack_room sz v c0 n c N : range (ds_write true) (sp c0 - N) N → pushed c0 n c → n + bytes sz <= N →
  ∃ c', push sz v c = COk tt c' ∧ pushed c0 (n + bytes sz) c' ∧ (0 <= v < 2 ^ bit_size sz → holds sz (at_stack c') (sp c') v)
    ∧ ∀ b, ds_read true b → sp c <= b → at_stack c' b = at_stack c b.
Proof. intros Hr Hp Hn. apply push_ok; [done|]. pose proof (pu_size _ _ _ Hp). apply (range_part _ _ _ _ _ Hr); lia. Qed.

(** The eight bytes at the end of every frame. *)
Record framed (format w p nr : Z) (f : Z → Z) (a : Z) : Prop := {
  fr_sr : holds sz_word f a w;
  fr_pc : holds sz_long f (a + 2) p;
  fr_format : holds sz_word f (a + 6) (u16 ((format ≪ 12) + nr * 4)) }.

Lemma framed_ext format w p nr f g a : (∀ b, a <= b < a + 8 → g b = f b) → framed format w p nr f a → framed format w p nr g a.
Proof. intros E []. split; (eapply holds_ext; [|eassumption]); intros b Hb; cbn [bytes] in Hb; apply E; lia. Qed.

Definition extra_bytes (format : Z) : Z := if (format =? 3) || (format =? 2) then 4 else 0.

Lemma last_pushes format w p nr c0 n c N : range (ds_write true) (sp c0 - N) N → pushed c0 n c → n + 8 <= N → in_u 16 w → in_u 32 p →
  ∃ c', (push sz_word (u16 ((format ≪ 12) + nr * 4));; push sz_long p;; push sz_word w) c = COk tt c' ∧ pushed c0 (n + 8) c' ∧ framed format w p nr (at_stack c') (sp c').
Proof.
  intros Hr Hp Hn Hw Hpc. unfold mbind, C_bind. assert (∀ b, sp c0 - N <= b < sp c0 → ds_read true b) as Hrd by (intros b Hb; apply ds_write_read, Hr; lia).
  destruct (stack_room sz_word (u16 ((format ≪ 12) + nr * 4)) c0 n c N Hr Hp) as (c1 & -> & Hp1 & Hh1 & _); [cbn; lia|]. cbn [bytes] in Hp1.
  destruct (stack_room sz_long p c0 _ c1 N Hr Hp1) as (c2 & -> & Hp2 & Hh2 & Hk2); [cbn; lia|]. cbn [bytes] in Hp2.
  destruct (stack_room sz_word w c0 _ c2 N Hr Hp2) as (c3 & -> & Hp3 & Hh3 & Hk3); [cbn; lia|]. cbn [bytes] in Hp3.
  pose proof (pu_sp _ _ _ Hp1) as S1. pose proof (pu_sp _ _ _ Hp2) as S2. pose proof (pu_sp _ _ _ Hp3) as S3. pose proof (pu_size _ _ _ Hp).
  exists c3. split; [done|]. replace (n + 8) with (n + 2 + 4 + 2) by lia. split; [done|]. split.
  - by apply Hh3.
  - replace (sp c3 + 2) with (sp c2) by lia. apply (holds_ext sz_long (at_stack c2)); [|by apply Hh2]. intros b Hb. cbn [bytes] in Hb. apply Hk3; [apply Hrd|]; lia.
  - replace (sp c3 + 6) with (sp c1) by lia. apply (holds_ext sz_word (at_stack c1)); [|apply Hh1, in_u_u16]. intros b Hb. cbn [bytes] in Hb.
    rewrite Hk3, Hk2 by (lia || (apply Hrd; lia)). done.
Qed.

Lemma frame_ok format w p nr x0 x1 c0 n c N : range (ds_write true) (sp c0 - N) N → pushed c0 n c → format ≠ 4 → n + extra_bytes format + 8 <= N →
  in_u 16 w → in_u 32 p → ∃ c', exc_make_frame format w p nr x0 x1 c = COk tt c' ∧ pushed c0 (n + extra_bytes format + 8) c' ∧ framed format w p nr (at_stack c') (sp c').
Proof.
  intros Hr Hp H4 Hn Hw Hpc. unfold exc_make_frame. rewrite (proj2 (Z.eqb_neq _ _) H4). unfold extra_bytes in *. destruct push_eq as [-> ->].
  destruct ((format =? 3) || (format =? 2)); unfold mbind at 1, C_bind at 1.
  - destruct (stack_room sz_long x0 c0 n c N Hr Hp) as (c1 & -> & Hp1 & _); [cbn; lia|]. apply (last_pushes format w p nr c0 _ c1 N Hr Hp1); [cbn; lia|done..].
  - unfold mret, C_ret. rewrite Z.add_0_r in *. by apply (last_pushes format w p nr c0 n c N).
Qed.

(** The 60 bytes of an access error; among them the status of the write that failed, which is then cleared. *)
Lemma pushed_status c0 n c : pushed c0 n c → pushed c0 n (c_mem (s_regs (r_wb3_status 0 c.(mem).(regs)) c.(mem)) c).
Proof.
  intros [Hn Er Hg Hs Ho Hm Hq Hd]. destruct (ds_status _ Ho) as [Ho' Ha]. split; try done.
  - rewrite Er. by destruct c0.
  - intros b Hb1 Hb2. unfold at_stack in *. cbn [c_mem mem]. rewrite Ha. by apply Hd.
Qed.

Lemma c_bind_ok {A B} (m : C A) (k : A → C B) c a c' : m c = COk a c' → mbind k m c = k a c'.
Proof. intros E. unfold mbind, C_bind. by rewrite E. Qed.

Ltac push_step :=
  match goal with
  | |- context [mbind ?k (c_get ?f) ?c] => change (mbind k (c_get f) c) with (k (f c) c); cbv beta
  | Hr : range _ (sp ?c0 - ?N) ?N, Hp : pushed ?c0 ?n ?c |- context [mbind ?k (push ?sz ?v) ?c] =>
    let c' := fresh "c" in let E := fresh "E" in let Hp' := fresh "Hp" in
    destruct (stack_room sz v c0 n c N Hr Hp) as (c' & E & Hp' & _ & _); [cbn [bytes]; lia|];
    rewrite (c_bind_ok _ _ _ _ _ E); clear E Hp; cbn [bytes] in Hp'
  end.

Lemma bus_frame_ok c N : range (ds_write true) (sp c - N) N → ds_ok c.(mem) → mode_is true c.(mem) → 60 <= N → in_u 16 c.(sr) → in_u 32 c.(fault_pc) →
  ∃ c', bus_error_frame c = COk tt c' ∧ pushed c 60 c' ∧ framed 7 c.(sr) c.(fault_pc) 2 (at_stack c') (sp c').
Proof.
  intros Hr Ho Hm HN Hw Hpc. pose proof (pushed_refl c Ho Hm) as Hp. unfold bus_error_frame. destruct push_eq as [-> ->].
  do 17 push_step.
  match goal with Hp : pushed c ?n ?c1 |- context [mbind ?k (lift ?m) ?c1] =>
    rewrite (c_bind_ok (lift m) k c1 tt (c_mem (s_regs (r_wb3_status 0 c1.(mem).(regs)) c1.(mem)) c1)) by done; apply pushed_status in Hp end.
  do 6 push_step.
  match goal with Hp : pushed c ?n ?c1 |- context [exc_make_frame 7 ?w ?p _ _ _ ?c1] =>
    destruct (frame_ok 7 w p 2 0 0 c n c1 N Hr Hp) as (c' & E & Hp' & Hf); [done|cbn; lia|rewrite (pu_rest _ _ _ Hp); done..|];
    exists c'; rewrite E, (pu_rest _ _ _ Hp) in *; done end.
Qed.

(** ** Exceptions *)

(** The register a failed instruction had already changed has its value again. *)
Definition undone (c : cpu) : cpu :=
  match c.(fixup) with Some (r, v) => c_fixup None (c_greg (aset c.(greg) (8 + r) (u32 v)) c) | None => c end.

(** In supervisor mode, with the status register saved. *)
Definition entered (c : cpu) : cpu :=
  let c1 := undone (c_sr (u16 (MakeSR_value c)) c) in
  if supervised c then c1
  else c_mem (switched true c1.(mem)) (c_greg (aset c1.(greg) A7 (u32 (if c1.(master) then c1.(msp) else c1.(isp)))) (c_usp (sp c1) c1)).

Lemma undone_rest c : let c' := undone c in
  c'.(mem) = c.(mem) ∧ bits c' = bits c ∧ c'.(usp) = c.(usp) ∧ c'.(isp) = c.(isp) ∧ c'.(msp) = c.(msp) ∧ c'.(pc) = c.(pc) ∧ c'.(fault_pc) = c.(fault_pc)
  ∧ c'.(vbr) = c.(vbr) ∧ c'.(last_addr_for_exception_3) = c.(last_addr_for_exception_3) ∧ c'.(sr) = c.(sr) ∧ c'.(master) = c.(master).
Proof. unfold undone. destruct (fixup c) as [[r v]|]; by split_and!. Qed.

Lemma enter_eq c : enter_supervisor c = COk tt (if supervised c then c
  else c_mem (switched true c.(mem)) (c_greg (aset c.(greg) A7 (u32 (if c.(master) then c.(msp) else c.(isp)))) (c_usp (sp c) c))).
Proof. unfold enter_supervisor. unfold mbind at 1, C_bind at 1, c_get at 1. by destruct (supervised c). Qed.

Lemma undo_eq c : undo_fixup c = COk tt (undone c).
Proof. unfold undo_fixup, undone, mbind, C_bind, c_get, set_areg, c_upd, mret, C_ret. by destruct (fixup c) as [[r v]|]. Qed.

Lemma Exception_eq nr oldpc c :
  Exception nr oldpc c =
    (go ← exc_frame nr oldpc c.(pc);
     c_when go
       (v ← c_get vbr; a ← lift (get_long (u32 (v + 4 * nr))); m68k_setpc a;;
        c_upd (λ c, c_master false (c_t0 false (c_t1 false c)));; SPCFLAGS_CLEAR (SPCFLAG_TRACE .| SPCFLAG_DOTRACE))) (entered c).
Proof.
  unfold Exception, entered. rewrite (c_bind_ok _ _ c c.(pc) c), (c_bind_ok MakeSR _ c tt (c_sr (u16 (MakeSR_value c)) c)) by done.
  rewrite (c_bind_ok _ _ _ _ _ (undo_eq _)), (c_bind_ok _ _ _ _ _ (enter_eq _)). cbv zeta.
  set (c0 := c_sr (u16 (MakeSR_value c)) c). assert (supervised (undone c0) = supervised c) as ->; [|done].
  unfold undone. by destruct (fixup c0) as [[r v]|].
Qed.

(** What is saved, and how. *)
Definition frame_format (nr : Z) : Z := if nr =? 2 then 7 else if (nr =? 3) || ((nr =? 5) || (nr =? 6) || (nr =? 7) || (nr =? 9)) then 2 else 0.
Definition frame_bytes (nr : Z) : Z := if nr =? 2 then 60 else if (nr =? 3) || ((nr =? 5) || (nr =? 6) || (nr =? 7) || (nr =? 9)) then 12 else 8.
Definition return_pc (nr : Z) (c : cpu) : Z := if nr =? 2 then c.(fault_pc) else if nr =? 3 then c.(last_addr_for_exception_3) else c.(pc).

Lemma exc_frame_ok nr oldpc c N : range (ds_write true) (sp c - N) N → ds_ok c.(mem) → mode_is true c.(mem) → frame_bytes nr <= N → c.(master) = false →
  in_u 16 c.(sr) → in_u 32 (return_pc nr c) →
  ∃ c', exc_frame nr oldpc c.(pc) c = COk true c' ∧ pushed c (frame_bytes nr) c' ∧ framed (frame_format nr) c.(sr) (return_pc nr c) nr (at_stack c') (sp c').
Proof.
  intros Hr Ho Hm HN Hma Hw Hpc. pose proof (pushed_refl c Ho Hm) as Hp. unfold exc_frame.
  rewrite (c_bind_ok _ _ c c.(sr) c), (c_bind_ok _ _ c c.(master) c), Hma by done. unfold frame_format, frame_bytes, return_pc in *. cbn [andb].
  destruct (Z.eqb_spec nr 2) as [->|].
  { destruct (bus_frame_ok c N Hr Ho Hm HN Hw Hpc) as (c' & E & ?). exists c'. unfold c_try. by rewrite (c_bind_ok _ _ _ _ _ E). }
  destruct (Z.eqb_spec nr 3) as [->|]; [|destruct ((nr =? 5) || (nr =? 6) || (nr =? 7) || (nr =? 9))]; cbn [orb] in *.
  - rewrite (c_bind_ok _ _ c c.(last_addr_for_exception_3) c), (c_bind_ok _ _ c c.(last_fault_for_exception_3) c) by done.
    edestruct (frame_ok 2 c.(sr) c.(last_addr_for_exception_3) 3) as (c' & E & ?); [done..|]. exists c'. by rewrite (c_bind_ok _ _ _ _ _ E).
  - edestruct (frame_ok 2 c.(sr) c.(pc) nr oldpc 0) as (c' & E & ?); [done..|]. exists c'. by rewrite (c_bind_ok _ _ _ _ _ E).
  - edestruct (frame_ok 0 c.(sr) c.(pc) nr 0 0) as (c' & E & ?); [done..|]. exists c'. by rewrite (c_bind_ok _ _ _ _ _ E).
Qed.

Lemma vector_ok nr c : let vec := u32 (c.(vbr) + 4 * nr) in
  ds_ok c.(mem) → mode_is true c.(mem) → range (ds_read true) vec 4 → range (λ b, 0 <= at_stack c b < 256) vec 4 →
  ∃ c', (v ← c_get vbr; a ← lift (get_long (u32 (v + 4 * nr))); m68k_setpc a;;
         c_upd (λ c, c_master false (c_t0 false (c_t1 false c)));; SPCFLAGS_CLEAR (SPCFLAG_TRACE .| SPCFLAG_DOTRACE)) c = COk tt c'
    ∧ ds_ok c'.(mem) ∧ mode_is true c'.(mem) ∧ (∀ b, ds_read true b → at_stack c' b = at_stack c b) ∧ c'.(greg) = c.(greg)
    ∧ c'.(usp) = c.(usp) ∧ c'.(isp) = c.(isp) ∧ c'.(msp) = c.(msp) ∧ c'.(pc) = rd sz_long (at_stack c) vec ∧ c'.(fixup) = c.(fixup)
    ∧ bits c' = mk_bits false false true false c.(intmask) c.(xflg) c.(nflg) c.(zflg) c.(vflg) c.(cflg).
Proof.
  intros vec Ho Hm Hr Hb. destruct (ds_get true sz_long vec c.(mem) Ho Hm Hr Hb) as (s' & E & Ho' & E1 & E2 & Hd).
  assert (lift (get_long (u32 (c.(vbr) + 4 * nr))) c = COk (rd sz_long (at_stack c) vec) (c_mem s' c)) as El by (fold vec; unfold lift; cbn [get_data] in E; by rewrite E).
  rewrite (c_bind_ok _ _ c c.(vbr) c), (c_bind_ok _ _ _ _ _ El) by done. eexists. split; [reflexivity|]. destruct Hm.
  split_and!; try done; cbn; [split; congruence|]. unfold bits. cbn. unfold supervised. cbn. congruence.
Qed.

(** ** Popping *)

Record popped (c0 : cpu) (n : Z) (c : cpu) : Prop := {
  po_rest : c = c_greg c.(greg) (c_mem c.(mem) c0);
  po_greg : ∀ r, r ≠ A7 → aget c.(greg) r = aget c0.(greg) r;
  po_sp : sp c = u32 (sp c0 + n);
  po_ok : ds_ok c.(mem);
  po_regs : c.(mem).(regs) = c0.(mem).(regs);
  po_atc : c.(mem).(current_atc) = c0.(mem).(current_atc);
  po_data : ∀ b, ds_read true b → at_stack c b = at_stack c0 b }.

Lemma byte_of_range sz v i : 0 <= byte_of sz v i < 256.
Proof. unfold byte_of. change 0xff with (Z.ones 8). rewrite Z.land_ones by lia. by apply Z.mod_pos_bound. Qed.

Lemma pop_ok sz v c0 n c : sz ≠ sz_byte → popped c0 n c → mode_is true c0.(mem) → sp c0 + n < 4294967296 → 0 <= sp c0 + n →
  range (ds_read true) (sp c0 + n) (bytes sz) → holds sz (at_stack c0) (sp c0 + n) v → 0 <= v < 2 ^ bit_size sz →
  ∃ c', fetch_operand Aipi 7 sz c = COk (sx sz v) c' ∧ popped c0 (n + bytes sz) c'.
Proof.
  intros Hsz [Er Hg Hs Ho Hq Ha Hd] [Hm1 Hm2] Hu1 Hu2 Hr Hh Hv. unfold u32 in Hs. rewrite Z.mod_small in Hs by lia.
  assert (holds sz (at_stack c) (sp c) v) as Hh' by (rewrite Hs; apply (holds_ext sz (at_stack c0)); [|done]; intros b Hb; by apply Hd, Hr).
  destruct (ds_get true sz (sp c) c.(mem)) as (s' & E & Ho' & E1 & E2 & Hd'); [done|split; congruence|by rewrite Hs| |].
  { intros b Hb. replace b with (sp c + (b - sp c)) by lia. unfold at_stack in Hh'. rewrite (Hh' (b - sp c)) by lia. apply byte_of_range. }
  change (ds_at true c.(mem)) with (at_stack c) in E. rewrite (holds_rd _ _ _ v Hh' Hv) in E.
  assert (xget XLATE_LOG sz (sp c) c = COk v (c_mem s' c)) as Ex by (destruct sz; cbn [get_data xget] in *; unfold lift; by rewrite E).
  exists (c_greg (aset c.(greg) A7 (u32 (sp c + bytes sz))) (c_mem s' c)). split.
  - unfold fetch_operand, genamode, genamode2, amode_addr. rewrite (c_bind_ok _ _ c (sp c, sx sz v) (c_greg (aset c.(greg) A7 (u32 (sp c + bytes sz))) (c_mem s' c))); [done|].
    rewrite (c_bind_ok _ _ c (sp c) c) by done. rewrite (c_bind_ok _ _ c (sx sz v) (c_mem s' c)) by (by rewrite (c_bind_ok _ _ _ _ _ Ex)). by destruct sz.
  - split; try done; cbn [c_greg c_mem greg mem].
    + rewrite Er. by destruct c0.
    + intros r Hr'. rewrite aget_aset_ne by done. by apply Hg.
    + unfold sp at 1. cbn [c_greg c_mem greg mem]. rewrite aget_aset_eq, Hs. f_equal. lia.
    + congruence.
    + congruence.
    + intros b Hb. unfold at_stack in *. cbn [c_greg c_mem greg mem]. rewrite Hd' by done. by apply Hd.
Qed.

(** ** RTE *)

Lemma format_bits f nr : 0 <= f < 8 → 0 <= nr < 256 → sx sz_word (u16 ((f ≪ 12) + nr * 4)) .& 0xf000 = f ≪ 12.
Proof.
  intros Hf Hnr. rewrite Z.shiftl_mul_pow2 by lia. change (2 ^ 12) with 4096.
  assert (sx sz_word (u16 (f * 4096 + nr * 4)) = f * 4096 + nr * 4) as ->.
  { unfold sx, signed, u16. cbn [bit_size]. change (2 ^ 16) with 65536. change (2 ^ (16 - 1)) with 32768. Z.div_mod_to_equations. lia. }
  change 0xf000 with (Z.ones 4 ≪ 12).
  assert ((f * 4096 + nr * 4) ≫ 12 = f) as E by (rewrite Z.shiftr_div_pow2 by lia; change (2 ^ 12) with 4096; Z.div_mod_to_equations; lia).
  transitivity ((((f * 4096 + nr * 4) ≫ 12) .& Z.ones 4) ≪ 12); [|rewrite E, Z.land_ones, Z.mod_small, Z.shiftl_mul_pow2 by lia; lia].
  apply Z.bits_inj'. intros i Hi. rewrite Z.land_spec, !Z.shiftl_spec by lia. destruct (Z.ltb_spec i 12); [by rewrite !(Z.testbit_neg_r _ (i - 12)), andb_false_r by lia|].
  rewrite Z.land_spec, Z.shiftr_spec by lia. by replace (i - 12 + 12) with i by lia.
Qed.

Lemma u16_sx w : in_u 16 w → u16 (sx sz_word w) = w.
Proof. intros Hw. etransitivity; [apply (zx_sx sz_word)|]. by apply Z.mod_small. Qed.
Lemma u32_sx p : in_u 32 p → u32 (sx sz_long p) = p.
Proof. intros Hp. etransitivity; [apply (zx_sx sz_long)|]. by apply Z.mod_small. Qed.

Lemma popped_refl c : ds_ok c.(mem) → in_u 32 (sp c) → popped c 0 c.
Proof. intros Ho Hs. split; try done; [by destruct c|]. rewrite Z.add_0_r. symmetry. by apply Z.mod_small. Qed.

(** A round of the loop, up to the test of the format. *)
Definition rte_format (fuel : nat) (f w p : Z) : C (Z * Z) :=
  let skip n := a ← areg 7; set_areg 7 (a + n);; mret (w, p) in
  if f =? 0 then mret (w, p) else if f =? 1 then c_upd (c_sr w);; MakeFromSR;; rte_loop fuel
  else if f =? 2 then skip 4 else skip 52.

Lemma rte_head fuel f w p nr c0 : ds_ok c0.(mem) → mode_is true c0.(mem) → range (ds_read true) (sp c0) 8 → framed f w p nr (at_stack c0) (sp c0) →
  f = 0 ∨ f = 1 ∨ f = 2 ∨ f = 7 → 0 <= nr < 256 → in_u 16 w → in_u 32 p →
  ∃ c, popped c0 8 c ∧ rte_loop (S fuel) c0 = rte_format fuel f w p c.
Proof.
  intros Ho Hm Hr [F1 F2 F3] Hf Hnr Hw Hp.
  assert (0 <= sp c0 ∧ sp c0 + 8 <= 4294967296) as [Hs0 Hs1].
  { pose proof (ds_address true _ (Hr (sp c0) ltac:(lia))). pose proof (ds_address true _ (Hr (sp c0 + 7) ltac:(lia))). lia. }
  pose proof (popped_refl c0 Ho ltac:(split; lia)) as P0. rewrite <- (Z.add_0_r (sp c0)) in F1.
  destruct (pop_ok sz_word w c0 0 c0) as (c1 & E1 & P1); [done..|lia|lia|rewrite Z.add_0_r; cbn; by apply (range_part _ (sp c0) 8); [|lia..]|done|done|]. cbn [bytes Z.add] in P1.
  destruct (pop_ok sz_long p c0 2 c1) as (c2 & E2 & P2); [done..|lia|lia|cbn; by apply (range_part _ (sp c0) 8); [|lia..]|done|done|]. cbn [bytes Z.add Pos.add Pos.succ] in P2.
  destruct (pop_ok sz_word (u16 ((f ≪ 12) + nr * 4)) c0 6 c2) as (c3 & E3 & P3); [done..|lia|lia|cbn; by apply (range_part _ (sp c0) 8); [|lia..]|done|apply in_u_u16|].
  cbn [bytes Z.add Pos.add Pos.succ] in P3. exists c3. split; [done|].
  cbn [rte_loop]. rewrite (c_bind_ok _ _ _ _ _ E1), (c_bind_ok _ _ _ _ _ E2), (c_bind_ok _ _ _ _ _ E3), format_bits, u16_sx, u32_sx by (done || lia).
  by destruct Hf as [-> | [-> | [-> | ->]]].
Qed.

Definition frame_tail (f : Z) : Z := if f =? 2 then 4 else if f =? 7 then 52 else 0.

Lemma popped_skip c0 k n c : popped c0 k c → popped c0 (k + n) (c_greg (aset c.(greg) A7 (u32 (sp c + n))) c).
Proof.
  intros [Er Hg Hs Ho Hq Ha Hd]. split; try done; cbn [c_greg greg mem].
  - transitivity (c_greg (aset c.(greg) A7 (u32 (sp c + n))) (c_greg c.(greg) (c_mem c.(mem) c0))); [by rewrite <- Er|done].
  - intros r Hr. rewrite aget_aset_ne by done. by apply Hg.
  - unfold sp at 1. cbn [c_greg greg]. rewrite aget_aset_eq, Hs. unfold u32. rewrite Zplus_mod_idemp_l. f_equal. lia.
Qed.

Lemma rte_last fuel f w p nr c0 : ds_ok c0.(mem) → mode_is true c0.(mem) → range (ds_read true) (sp c0) 8 → framed f w p nr (at_stack c0) (sp c0) →
  f = 0 ∨ f = 2 ∨ f = 7 → 0 <= nr < 256 → in_u 16 w → in_u 32 p →
  ∃ c, rte_loop (S fuel) c0 = COk (w, p) c ∧ popped c0 (8 + frame_tail f) c.
Proof.
  intros Ho Hm Hr Hf Hf7 Hnr Hw Hp. destruct (rte_head fuel f w p nr c0) as (c & Hc & E); [done|done|done|done|tauto|done|done|done|].
  rewrite E. unfold rte_format, frame_tail. destruct Hf7 as [-> | [-> | ->]]; cbn [Z.eqb Pos.eqb].
  - by exists c.
  - eexists. split; [reflexivity|]. by apply (popped_skip c0 8 4).
  - eexists. split; [reflexivity|]. by apply (popped_skip c0 8 52).
Qed.

(** The state RTE ends in. *)
Record returned (w p : Z) (u i m : Z) (c0 c : cpu) : Prop := {
  re_bits : bits c = sr_bits w;
  re_pc : c.(pc) = p;
  re_fault_pc : c.(fault_pc) = p;
  re_usp : user_sp c = u;
  re_isp : interrupt_sp c = i;
  re_msp : master_sp c = m;
  re_greg : ∀ r, r ≠ A7 → aget c.(greg) r = aget c0.(greg) r;
  re_trace : SPCFLAGS_TEST SPCFLAG_TRACE c = (b_t1 (sr_bits w) || b_t0 (sr_bits w)) }.

Lemma rte_end `{host} i opcode srcreg dstreg w p c0 c : i.(mnemo) = i_RTE → supervised c0 = true →
  rte_loop 64 (c_pc_offset 2 c0) = COk (w, p) c → (∀ r, r ≠ A7 → aget c.(greg) r = aget c0.(greg) r) →
  ∃ c', handler i opcode srcreg dstreg c0 = COk tt c' ∧ returned w p (user_sp c) (interrupt_sp c) (master_sp c) c0 c'.
Proof.
  intros Hi Hsu E Hg. destruct (MakeFromSR_ok (c_sr w c)) as (c1 & E1 & F).
  exists (c_pc_offset 0 (c_fault_pc p (c_pc p c1))). split.
  - rewrite (handler_ok i opcode srcreg dstreg c0 (c_pc_offset 0 (c_fault_pc p (c_pc p c1)))); [done|by right|].
    unfold body. rewrite Hi. unfold op_RTE. rewrite (c_bind_ok _ _ _ _ _ E). rewrite (c_bind_ok _ _ c tt (c_sr w c)) by done. by rewrite (c_bind_ok _ _ _ _ _ E1).
  - destruct F as [F1 F2 F3 F4 F5 F6 F7]. split; try done. intros r Hr. cbn [c_pc_offset c_fault_pc c_pc greg]. rewrite F5 by done. by apply Hg.
Qed.

(** What the code of an exception has to keep until its RTE. *)
Record handled (keep : Z → Prop) (c1 c2 : cpu) : Prop := {
  hd_super : supervised c2 = true;
  hd_master : c2.(master) = false;
  hd_ok : ds_ok c2.(mem);
  hd_mode : mode_is true c2.(mem);
  hd_sp : sp c2 = sp c1;
  hd_usp : c2.(usp) = c1.(usp);
  hd_msp : c2.(msp) = c1.(msp);
  hd_frame : ∀ b, keep b → at_stack c2 b = at_stack c1 b }.

Lemma framed_handled f w p nr keep c1 c2 : (∀ b, sp c1 <= b < sp c1 + 8 → keep b) → handled keep c1 c2 → framed f w p nr (at_stack c1) (sp c1) → framed f w p nr (at_stack c2) (sp c2).
Proof.
  intros Hk [Hs Hma Ho Hm Hsp _ _ Hfr] Hf. rewrite Hsp. apply (framed_ext _ _ _ _ (at_stack c1)); [|done]. intros b Hb. by apply Hfr, Hk.
Qed.

Lemma rte_plain `{host} i opcode srcreg dstreg f w p nr keep c1 c2 : i.(mnemo) = i_RTE →
  (∀ b, sp c1 <= b < sp c1 + 8 → keep b) → handled keep c1 c2 → range (ds_read true) (sp c1) 8 → framed f w p nr (at_stack c1) (sp c1) →
  f = 0 ∨ f = 2 ∨ f = 7 → 0 <= nr < 256 → in_u 16 w → in_u 32 p →
  ∃ c3, handler i opcode srcreg dstreg c2 = COk tt c3 ∧ returned w p c1.(usp) (u32 (sp c1 + 8 + frame_tail f)) c1.(msp) c2 c3.
Proof.
  intros Hi Hk Hh Hr Hf Hf7 Hnr Hw Hp. pose proof (framed_handled _ _ _ _ _ _ _ Hk Hh Hf) as [F1 F2 F3]. destruct Hh as [Hs Hma Ho Hm Hsp Hu Hms _].
  destruct (rte_last 63 f w p nr (c_pc_offset 2 c2)) as (c & E & [Er Hg Hspc _ Hq _ _]); [done|done|by rewrite <- Hsp in Hr|by split|done|done|done|done|].
  destruct (rte_end i opcode srcreg dstreg w p c2 c Hi Hs E Hg) as (c3 & E3 & Hret). exists c3. split; [done|].
  assert (supervised c = true) as Hsc by (unfold supervised; by rewrite Hq).
  assert (c.(master) = false) as Hmc by (by rewrite Er).
  unfold user_sp, interrupt_sp, master_sp in Hret. rewrite Hsc, Hmc in Hret. cbn [andb negb] in Hret.
  rewrite Hspc in Hret. change (sp (c_pc_offset 2 c2)) with (sp c2) in Hret. rewrite Hsp in Hret.
  assert (c.(usp) = c1.(usp)) as Eu by (rewrite Er; done). assert (c.(msp) = c1.(msp)) as Em by (rewrite Er; done).
  rewrite Eu, Em in Hret. by rewrite <- Z.add_assoc.
Qed.

(** ** An exception and its return *)

Definition vector (nr : Z) (c : cpu) : Z := u32 (c.(vbr) + 4 * nr).

(** The stack the frame goes to has room, and the vector can be read. *)
Record ready (nr : Z) (c : cpu) : Prop := {
  rd_nr : 0 <= nr < 256;
  rd_mask : 0 <= c.(intmask) < 8;
  rd_ok : ds_ok c.(mem);
  rd_mode : mode_is (supervised c) c.(mem);
  rd_pc : in_u 32 (return_pc nr c);
  rd_isp : in_u 32 (interrupt_sp (undone c));
  rd_room : range (ds_write true) (interrupt_sp (undone c) - frame_bytes nr) (frame_bytes nr);
  rd_vector : range (ds_read true) (vector nr c) 4;
  rd_bytes : range (λ b, 0 <= at_stack c b < 256 ∧ ¬ (interrupt_sp (undone c) - frame_bytes nr <= b < interrupt_sp (undone c))) (vector nr c) 4 }.

Lemma frame_size nr : frame_bytes nr = 8 + frame_tail (frame_format nr) ∧ (frame_format nr = 0 ∨ frame_format nr = 2 ∨ frame_format nr = 7).
Proof. unfold frame_bytes, frame_format. destruct (nr =? 2); [by auto|]. destruct (_ || _); by auto. Qed.

(** A7 of supervisor mode. *)
Definition system_sp (c : cpu) : Z := if c.(master) then master_sp c else interrupt_sp c.

Lemma entered_ok c : ds_ok c.(mem) → mode_is (supervised c) c.(mem) → in_u 32 (system_sp (undone c)) →
  let e := entered c in
  ds_ok e.(mem) ∧ mode_is true e.(mem) ∧ sp e = system_sp (undone c) ∧ e.(usp) = user_sp (undone c) ∧ e.(isp) = c.(isp) ∧ e.(msp) = c.(msp)
  ∧ e.(sr) = u16 (MakeSR_value c) ∧ e.(master) = c.(master) ∧ e.(pc) = c.(pc) ∧ (∀ nr, return_pc nr e = return_pc nr c) ∧ e.(vbr) = c.(vbr) ∧ (∀ b, at_stack e b = at_stack c b)
  ∧ (∀ r, r ≠ A7 → aget e.(greg) r = aget (undone c).(greg) r)
  ∧ mk_bits false false true false e.(intmask) e.(xflg) e.(nflg) e.(zflg) e.(vflg) e.(cflg) = mk_bits false false true false c.(intmask) c.(xflg) c.(nflg) c.(zflg) c.(vflg) c.(cflg).
Proof.
  intros Ho Hm Hi. assert (undone (c_sr (u16 (MakeSR_value c)) c) = c_sr (u16 (MakeSR_value c)) (undone c)) as Eu by (unfold undone; cbn; by destruct (fixup c) as [[r v]|]).
  unfold entered. cbv zeta. rewrite Eu. set (u := undone c) in *. destruct (undone_rest c) as (U1 & U2 & U3 & U4 & U5 & U6 & U7 & U8 & U9 & _ & U10). fold u in U1, U2, U3, U4, U5, U6, U7, U8, U9, U10.
  assert (supervised u = supervised c) as Us by (unfold supervised; by rewrite U1). injection U2 as V1 V2 _ _ V4 V5 V6 V7 V8 V9.
  destruct (ds_mode true c.(mem) Ho) as [Ho2 Ha2]. fold (switched true c.(mem)) in Ho2, Ha2.
  assert (∀ nr, return_pc nr u = return_pc nr c) as Hpc by (intros nr; unfold return_pc; by rewrite U6, U7, U9).
  unfold system_sp, interrupt_sp, user_sp, master_sp, at_stack in *. rewrite Us, ?U10 in *. destruct (supervised c) eqn:Es; cbn [andb negb] in *.
  - split_and!; cbn; rewrite ?U1; try done; [by destruct (master c)|congruence].
  - cbn [c_sr c_mem c_greg c_usp master isp mem greg usp msp]. rewrite ?U10, ?U1.
    split_and!; try done.
    + unfold sp. cbn [c_mem c_greg greg]. rewrite aget_aset_eq. by apply Z.mod_small.
    + intros r Hr. cbn [c_mem c_greg greg]. by rewrite aget_aset_ne.
    + cbn. congruence.
Qed.

(** After the exception: the code at the vector runs in supervisor mode with the frame on its stack. *)
Record taken (nr : Z) (c c1 : cpu) : Prop := {
  tk_pc : c1.(pc) = rd sz_long (at_stack c) (vector nr c);
  tk_bits : bits c1 = mk_bits false false true false c.(intmask) c.(xflg) c.(nflg) c.(zflg) c.(vflg) c.(cflg);
  tk_greg : ∀ r, r ≠ A7 → aget c1.(greg) r = aget (undone c).(greg) r;
  tk_sp : sp c1 = interrupt_sp (undone c) - frame_bytes nr;
  tk_ok : ds_ok c1.(mem) ∧ mode_is true c1.(mem);
  tk_data : ∀ b, ds_read true b → ¬ (sp c1 <= b < interrupt_sp (undone c)) → at_stack c1 b = at_stack c b }.

Lemma exception_taken nr oldpc c : c.(master) = false → ready nr c →
  ∃ c1, Exception nr oldpc c = COk tt c1 ∧ taken nr c c1 ∧ framed (frame_format nr) (u16 (MakeSR_value c)) (return_pc nr c) nr (at_stack c1) (sp c1)
    ∧ c1.(usp) = user_sp (undone c) ∧ c1.(msp) = master_sp (undone c).
Proof.
  intros Hma [Hnr Hmask Ho Hm Hpc Hisp Hroom Hvec Hbytes]. rewrite Exception_eq.
  assert ((undone c).(master) = false) as Hmu by (destruct (undone_rest c) as (_ & _ & _ & _ & _ & _ & _ & _ & _ & _ & ->); done).
  assert (system_sp (undone c) = interrupt_sp (undone c)) as Esy by (unfold system_sp; by rewrite Hmu).
  destruct (entered_ok c Ho Hm) as (Eo & Em & Esp & Eusp & _ & Emsp & Esr & Ema & Epc & Eret & Evbr & Eat & Eg & Eb); [by rewrite Esy|]. rewrite Esy in Esp. rewrite <- Epc.
  destruct (exc_frame_ok nr oldpc (entered c) (frame_bytes nr)) as (cf & E & Hp & Hf); [by rewrite Esp|done|done|lia|congruence|rewrite Esr; apply in_u_u16|by rewrite Eret|].
  rewrite (c_bind_ok _ _ _ _ _ E). cbn [c_when]. destruct Hp as [_ Pr Pg Psp Po Pm _ Pd]. rewrite Esp in Psp, Pd.
  assert (u32 (cf.(vbr) + 4 * nr) = vector nr c) as Ev by (rewrite Pr; unfold vector; cbn; by rewrite Evbr).
  assert (∀ b, ds_read true b → ¬ (interrupt_sp (undone c) - frame_bytes nr <= b < interrupt_sp (undone c)) → at_stack cf b = at_stack c b) as Pd' by (intros b Hb1 Hb2; rewrite <- Eat; by apply Pd).
  destruct (vector_ok nr cf) as (c1 & E1 & O1 & M1 & D1 & G1 & U1 & _ & S1 & P1 & _ & B1); [done|done|by rewrite Ev| |].
  { rewrite Ev. intros b Hb. rewrite Pd' by (try apply Hvec; try apply Hbytes; lia). by apply Hbytes. }
  exists c1. split; [done|]. assert (sp c1 = sp cf) as Es by (unfold sp; by rewrite G1).
  assert (c1.(usp) = user_sp (undone c)) as Eu1 by (rewrite U1, Pr; exact Eusp). assert (c1.(msp) = master_sp (undone c)) as Em1.
  { rewrite S1, Pr. unfold master_sp. rewrite Hmu, andb_false_r. destruct (undone_rest c) as (_ & _ & _ & _ & -> & _). exact Emsp. }
  split; [|split; [|done]].
  - split.
    + rewrite P1, Ev. apply rd_ext. intros b Hb. apply Pd'; [by apply Hvec|by apply Hbytes].
    + rewrite B1, Pr. exact Eb.
    + intros r Hr. rewrite G1, Pg by done. by apply Eg.
    + by rewrite Es, Psp.
    + done.
    + intros b Hb1 Hb2. rewrite Es, Psp in Hb2. rewrite D1 by done. by apply Pd'.
  - rewrite Esr, Eret in Hf.
    assert (∀ b, interrupt_sp (undone c) - frame_bytes nr <= b < interrupt_sp (undone c) → at_stack c1 b = at_stack cf b) as K.
    { intros b Hb. apply D1, ds_write_read, Hroom. lia. }
    destruct (frame_size nr) as [Fs _]. assert (0 <= frame_tail (frame_format nr)) by (unfold frame_tail; repeat case_match; lia).
    rewrite Es. apply (framed_ext _ _ _ _ (at_stack cf)); [|done]. intros b Hb. apply K. lia.
Qed.

(** An exception, and what its RTE brings back. *)
Lemma exception_rte `{host} (nr oldpc : Z) (c : cpu) (i : instr) (opcode srcreg dstreg : Z) :
  c.(master) = false → ready nr c → i.(mnemo) = i_RTE →
  ∃ c1, Exception nr oldpc c = COk tt c1 ∧ taken nr c c1 ∧
    ∀ c2, handled (λ b, sp c1 <= b < sp c1 + 8) c1 c2 →
      ∃ c3, handler i opcode srcreg dstreg c2 = COk tt c3 ∧ bits c3 = bits c ∧ c3.(pc) = return_pc nr c
        ∧ user_sp c3 = user_sp (undone c) ∧ interrupt_sp c3 = interrupt_sp (undone c) ∧ master_sp c3 = master_sp (undone c)
        ∧ (∀ r, r ≠ A7 → aget c3.(greg) r = aget c2.(greg) r).
Proof.
  intros Hma Hrd Hi. destruct (exception_taken nr oldpc c Hma Hrd) as (c1 & E & Ht & Hf & Eu & Em). exists c1. split; [done|]. split; [done|]. intros c2 Hh.
  destruct Hrd as [Hnr Hmask Ho Hm Hpc Hisp Hroom Hvec Hbytes]. destruct (frame_size nr) as [Fs Ff].
  assert (0 <= frame_tail (frame_format nr)) by (unfold frame_tail; repeat case_match; lia).
  destruct (rte_plain i opcode srcreg dstreg (frame_format nr) (u16 (MakeSR_value c)) (return_pc nr c) nr (λ b, sp c1 <= b < sp c1 + 8) c1 c2) as (c3 & E3 & [R1 R2 _ R3 R4 R5 R6 _]); try done.
  { intros b Hb. rewrite (tk_sp _ _ _ Ht) in Hb. apply ds_write_read, Hroom. lia. }
  { apply in_u_u16. }
  exists c3. rewrite sr_round_trip in R1 by done. split_and!; try done; [congruence| |congruence].
  rewrite R4, (tk_sp _ _ _ Ht), Fs. replace (_ - _ + _ + _) with (interrupt_sp (undone c)) by lia. by apply Z.mod_small.
Qed.

(** C6: An exception (any vector; an access error with its 60 bytes, those with the address of
    the instruction, and all others) and its RTE are inverse to each other.  The exception
    takes back what the failed instruction had done to an address register, switches to the
    supervisor's mode and stack, saves the status register and the address to return to and
    continues at the vector with tracing off; nothing else in memory changes.  Whatever the
    code there does, including further exceptions: if it leaves the stack as it was, with the
    eight bytes of the frame, RTE brings back the mode, the interrupt mask, all flags, the
    program counter and all three stack pointers.  (In master mode only interrupts come back, see
    [interrupt_returns].) *)
Theorem exception_returns `{host} (nr oldpc : Z) (c : cpu) (i : instr) (opcode srcreg dstreg : Z) :
  c.(master) = false → ready nr c → i.(mnemo) = i_RTE →
  ∃ c1, Exception nr oldpc c = COk tt c1 ∧ taken nr c c1 ∧
    ∀ c2, handled (λ b, sp c1 <= b < sp c1 + 8) c1 c2 →
      ∃ c3, handler i opcode srcreg dstreg c2 = COk tt c3 ∧ bits c3 = bits c ∧ c3.(pc) = return_pc nr c
        ∧ user_sp c3 = user_sp (undone c) ∧ interrupt_sp c3 = interrupt_sp (undone c) ∧ master_sp c3 = master_sp (undone c)
        ∧ (∀ r, r ≠ A7 → aget c3.(greg) r = aget c2.(greg) r).
Proof. apply exception_rte. Qed.

(** ** Interrupts in master mode *)

(** There are two stacks, each with room for a frame. *)
Record ready_master (nr : Z) (c : cpu) : Prop := {
  rm_nr : 24 <= nr < 32;
  rm_mask : 0 <= c.(intmask) < 8;
  rm_ok : ds_ok c.(mem);
  rm_mode : mode_is (supervised c) c.(mem);
  rm_pc : in_u 32 c.(pc);
  rm_isp : in_u 32 c.(isp);
  rm_msp : in_u 32 (master_sp (undone c));
  rm_room : range (ds_write true) (c.(isp) - 8) 8;
  rm_room_master : range (ds_write true) (master_sp (undone c) - 8) 8;
  rm_apart : c.(isp) <= master_sp (undone c) - 8 ∨ master_sp (undone c) <= c.(isp) - 8;
  rm_vector : range (ds_read true) (vector nr c) 4;
  rm_bytes : range (λ b, 0 <= at_stack c b < 256 ∧ ¬ (c.(isp) - 8 <= b < c.(isp)) ∧ ¬ (master_sp (undone c) - 8 <= b < master_sp (undone c))) (vector nr c) 4 }.

Lemma master_frames_ok nr oldpc c : c.(master) = true → 24 <= nr < 32 → ds_ok c.(mem) → mode_is true c.(mem) → in_u 32 c.(isp) → in_u 16 c.(sr) → in_u 32 c.(pc) →
  range (ds_write true) (c.(isp) - 8) 8 → range (ds_write true) (sp c - 8) 8 → c.(isp) <= sp c - 8 ∨ sp c <= c.(isp) - 8 →
  ∃ c', exc_frame nr oldpc c.(pc) c = COk true c' ∧ sp c' = c.(isp) - 8 ∧ c'.(msp) = sp c - 8 ∧ c'.(usp) = c.(usp) ∧ c'.(vbr) = c.(vbr)
    ∧ ds_ok c'.(mem) ∧ mode_is true c'.(mem) ∧ (∀ r, r ≠ A7 → aget c'.(greg) r = aget c.(greg) r)
    ∧ mk_bits false false true false c'.(intmask) c'.(xflg) c'.(nflg) c'.(zflg) c'.(vflg) c'.(cflg) = mk_bits false false true false c.(intmask) c.(xflg) c.(nflg) c.(zflg) c.(vflg) c.(cflg)
    ∧ (∀ b, ds_read true b → ¬ (c.(isp) - 8 <= b < c.(isp)) → ¬ (sp c - 8 <= b < sp c) → at_stack c' b = at_stack c b)
    ∧ framed 1 (c.(sr) .| (1 ≪ 13)) c.(pc) nr (at_stack c') (sp c') ∧ framed 0 c.(sr) c.(pc) nr (at_stack c') c'.(msp).
Proof.
  intros Hma Hnr Ho Hm Hi Hw Hpc Hr Hrm Hap. unfold exc_frame. rewrite (c_bind_ok _ _ c c.(sr) c), (c_bind_ok _ _ c c.(master) c), Hma by done.
  replace (nr =? 2) with false by lia. replace (nr =? 3) with false by lia. replace ((nr =? 5) || (nr =? 6) || (nr =? 7) || (nr =? 9)) with false by lia.
  replace (true && (24 <=? nr) && (nr <? 32)) with true by lia.
  destruct (frame_ok 0 c.(sr) c.(pc) nr 0 0 c 0 c 8 Hrm (pushed_refl c Ho Hm)) as (c1 & E1 & [_ P1r P1g P1s P1o P1m _ P1d] & F1); [done|cbn; lia|done..|]. cbn [extra_bytes Z.eqb Pos.eqb orb Z.add] in *.
  set (c2 := c_greg (aset c1.(greg) A7 (u32 c.(isp))) (c_msp (sp c1) (c_sr (c.(sr) .| (1 ≪ 13)) c1))).
  assert (sp c2 = c.(isp)) as S2 by (unfold sp, c2; cbn [c_greg greg]; rewrite aget_aset_eq; by apply Z.mod_small).
  assert (in_u 16 (c.(sr) .| (1 ≪ 13))) as Hw2 by (apply in_u_lor; [done|done|lia]).
  destruct (frame_ok 1 (c.(sr) .| (1 ≪ 13)) c.(pc) nr 0 0 c2 0 c2 8) as (c3 & E3 & [_ P3r P3g P3s P3o P3m _ P3d] & F3);
    [by rewrite S2|by apply pushed_refl|done|cbn; lia|done..|]. cbn [extra_bytes Z.eqb Pos.eqb orb Z.add] in *. rewrite S2 in *.
  assert (at_stack c2 = at_stack c1) as A2 by done.
  assert (c1.(usp) = c.(usp) ∧ c1.(vbr) = c.(vbr) ∧ c1.(sr) = c.(sr) ∧ c1.(isp) = c.(isp)) as (U1 & V1 & R1 & I1) by (rewrite P1r; done).
  exists c3. split.
  { rewrite (c_bind_ok _ _ _ _ _ E1). rewrite (c_bind_ok _ _ c1 tt (c_sr (c.(sr) .| (1 ≪ 13)) c1)) by (unfold c_upd; by rewrite R1).
    rewrite (c_bind_ok _ _ _ (sp c1) _) by done. rewrite (c_bind_ok _ _ _ tt (c_msp (sp c1) (c_sr (c.(sr) .| (1 ≪ 13)) c1))) by done.
    rewrite (c_bind_ok _ _ _ c.(isp) (c_msp (sp c1) (c_sr (c.(sr) .| (1 ≪ 13)) c1))) by (unfold c_get; cbn; by rewrite I1).
    rewrite (c_bind_ok _ _ _ tt c2) by done. rewrite (c_bind_ok _ _ _ (c.(sr) .| (1 ≪ 13)) c2) by done. by rewrite (c_bind_ok _ _ _ _ _ E3). }
  assert (c3.(msp) = sp c - 8) as M3 by (rewrite P3r; cbn; lia).
  split_and!; try done.
  - rewrite P3r. exact U1.
  - rewrite P3r. exact V1.
  - intros r Hr'. rewrite P3g by done. unfold c2. cbn [c_greg greg]. rewrite aget_aset_ne by done. by apply P1g.
  - rewrite P3r. cbn. rewrite P1r. done.
  - intros b Hb1 Hb2 Hb3. rewrite P3d, A2 by done. by apply P1d.
  - rewrite M3. replace (sp c - 8) with (sp c1) by lia. apply (framed_ext _ _ _ _ (at_stack c1)); [|done]. intros b Hb. rewrite <- A2. apply P3d; [|lia]. apply ds_write_read, Hrm. lia.
Qed.

Lemma sr_or_super c : 0 <= c.(intmask) < 8 → c.(master) = true →
  nz (((u16 (MakeSR_value c) .| (1 ≪ 13)) ≫ 13) .& 1) = true ∧ nz (((u16 (MakeSR_value c) .| (1 ≪ 13)) ≫ 12) .& 1) = true.
Proof.
  intros Hm Hma. assert (u16 (MakeSR_value c) = MakeSR_value c) as -> by (apply Z.mod_small; by apply sr_range).
  assert (∀ x k, 0 <= k → nz ((x ≫ k) .& 1) = Z.testbit x k) as Hb by (intros x k Hk; rewrite bit_b2z by done; by destruct (Z.testbit x k)).
  rewrite !Hb, !Z.lor_spec, !sr_bit, Hma by lia. split; [apply orb_true_r|]. cbn [Z.eqb Pos.eqb andb]. by rewrite !orb_true_r.
Qed.

(** RTE takes the frame on the interrupt stack, which only brings back master mode, and then the one on the master stack. *)
Lemma rte_throwaway `{host} i opcode srcreg dstreg w w' p nr keep c1 c2 : i.(mnemo) = i_RTE →
  (∀ b, sp c1 <= b < sp c1 + 8 → keep b) → (∀ b, c1.(msp) <= b < c1.(msp) + 8 → keep b) → handled keep c1 c2 →
  range (ds_read true) (sp c1) 8 → range (ds_read true) c1.(msp) 8 → framed 1 w' p nr (at_stack c1) (sp c1) → framed 0 w p nr (at_stack c1) c1.(msp) →
  0 <= nr < 256 → in_u 16 w → in_u 16 w' → in_u 32 p → nz ((w' ≫ 13) .& 1) = true → nz ((w' ≫ 12) .& 1) = true →
  ∃ c3, handler i opcode srcreg dstreg c2 = COk tt c3 ∧ returned w p c1.(usp) (u32 (sp c1 + 8)) (u32 (c1.(msp) + 8)) c2 c3.
Proof.
  intros Hi Hk1 Hk2 Hh Hr1 Hr2 F1 F0 Hnr Hw Hw' Hp B13 B12. pose proof (framed_handled _ _ _ _ _ _ _ Hk1 Hh F1) as F1'.
  assert (framed 0 w p nr (at_stack c2) c1.(msp)) as F0' by (apply (framed_ext _ _ _ _ (at_stack c1)); [intros b Hb; by apply (hd_frame _ _ _ Hh), Hk2|done]).
  destruct Hh as [Hs Hma Ho Hm Hsp Hu Hms _]. set (c0 := c_pc_offset 2 c2).
  destruct (rte_head 63 1 w' p nr c0) as (c & [Er Hg Hspc Hoc Hq Ha Hd] & E); [done|done|by rewrite <- Hsp in Hr1|done|tauto|done|done|done|].
  destruct (MakeFromSR_ok (c_sr w' c)) as (cm & Em & [M1 M2 M3 M4 M5 M6 _]). injection M1 as _ _ Bs Bm _ _ _ _ _ _. rewrite B13 in Bs. rewrite B12 in Bm.
  assert (supervised c = true) as Hsc by (unfold supervised; by rewrite Hq). assert (c.(master) = false) as Hmc by (by rewrite Er).
  assert (c.(usp) = c1.(usp) ∧ c.(msp) = c1.(msp)) as [Ecu Ecm] by (rewrite Er; done).
  unfold user_sp, interrupt_sp, master_sp in M2, M3, M4. change (supervised (c_sr w' c)) with (supervised c) in *. change (master (c_sr w' c)) with (master c) in *.
  change (sp (c_sr w' c)) with (sp c) in *. change (usp (c_sr w' c)) with (usp c) in *. change (msp (c_sr w' c)) with (msp c) in *. rewrite Bs, Hsc in M2. rewrite Bs, Bm, Hsc, Hmc in M3. rewrite Bs, Bm, Hsc, Hmc in M4. change (sr (c_sr w' c)) with w' in M6. rewrite B13 in M6. cbn [andb negb] in *.
  destruct (ds_mode true _ Hoc) as [Hom Hdm]. fold (switched true c.(mem)) in Hom, Hdm. change (mem (c_sr w' c)) with (mem c) in M6. rewrite <- M6 in Hom, Hdm.
  assert (sp cm = c1.(msp)) as Scm by congruence.
  destruct (rte_last 62 0 w p nr cm) as (c' & E' & [Er' Hg' Hspc' _ Hq' _ _]); [done|split; [done|by rewrite M6]|by rewrite Scm| |tauto|done|done|done|].
  { rewrite Scm. apply (framed_ext _ _ _ _ (at_stack c2)); [|done]. intros b Hb. unfold at_stack. rewrite Hdm. by apply Hd, Hr2. }
  destruct (rte_end i opcode srcreg dstreg w p c2 c' Hi Hs) as (c3 & E3 & Hret).
  { change (c_pc_offset 2 c2) with c0. rewrite E. unfold rte_format. cbn [Z.eqb Pos.eqb]. rewrite (c_bind_ok _ _ c tt (c_sr w' c)) by done. by rewrite (c_bind_ok _ _ _ _ _ Em). }
  { intros r Hr. rewrite Hg', M5 by done. by apply Hg. }
  exists c3. split; [done|]. assert (supervised c' = true ∧ c'.(master) = true ∧ c'.(usp) = cm.(usp) ∧ c'.(isp) = cm.(isp)) as (S1 & S2 & S3 & S4).
  { split; [unfold supervised in *; by rewrite Hq'|]. by rewrite Er'. }
  unfold user_sp, interrupt_sp, master_sp in Hret. rewrite S1, S2, S3, S4 in Hret. cbn [andb negb] in Hret. rewrite M2, M3, Hspc', Scm, Ecu, Hspc in Hret.
  change (sp c0) with (sp c2) in Hret. by rewrite Hsp in Hret.
Qed.

(** C11: In master mode an interrupt leaves a frame on the master stack and a second one on the
    interrupt stack, and runs on the interrupt stack with the interrupt's level as the mask; its
    RTE takes both, and the mode, the flags, the program counter and all three stack pointers
    are as before. *)
Theorem interrupt_returns `{host} (level : Z) (c : cpu) (i : instr) (opcode srcreg dstreg : Z) :
  c.(master) = true → ready_master (level + 24) c → i.(mnemo) = i_RTE →
  ∃ c1, Interrupt level c = COk tt c1 ∧ c1.(pc) = rd sz_long (at_stack c) (vector (level + 24) c)
    ∧ bits c1 = mk_bits false false true false level c.(xflg) c.(nflg) c.(zflg) c.(vflg) c.(cflg)
    ∧ sp c1 = c.(isp) - 8 ∧ c1.(msp) = master_sp (undone c) - 8 ∧ ds_ok c1.(mem) ∧ mode_is true c1.(mem)
    ∧ (∀ r, r ≠ A7 → aget c1.(greg) r = aget (undone c).(greg) r) ∧
    ∀ c2, handled (λ b, sp c1 <= b < sp c1 + 8 ∨ c1.(msp) <= b < c1.(msp) + 8) c1 c2 →
      ∃ c3, handler i opcode srcreg dstreg c2 = COk tt c3 ∧ bits c3 = bits c ∧ c3.(pc) = c.(pc)
        ∧ user_sp c3 = user_sp (undone c) ∧ interrupt_sp c3 = interrupt_sp (undone c) ∧ master_sp c3 = master_sp (undone c)
        ∧ (∀ r, r ≠ A7 → aget c3.(greg) r = aget c2.(greg) r).
Proof.
  intros Hma [Hnr Hmask Ho Hm Hpc Hisp Hmsp Hr Hrm Hap Hvec Hbytes] Hi. set (nr := level + 24) in *.
  destruct (undone_rest c) as (_ & _ & _ & UI & _ & _ & _ & _ & _ & _ & UM).
  assert (system_sp (undone c) = master_sp (undone c)) as Esy by (unfold system_sp; by rewrite UM, Hma).
  destruct (entered_ok c Ho Hm) as (Eo & Em & Esp & Eusp & Eisp & _ & Esr & Ema & Epc & _ & Evbr & Eat & Eg & Eb); [by rewrite Esy|]. rewrite Esy in Esp.
  pose proof (in_u_u16 (MakeSR_value c)) as Hw.
  destruct (master_frames_ok nr 0 (entered c)) as (cf & E & S & M & U & V & O & Mo & G & B & D & F1 & F0); rewrite ?Eisp, ?Esp, ?Esr, ?Epc; try done; [congruence|].
  rewrite Eisp, ?Esp, ?Esr, ?Epc, ?Evbr in *.
  assert (u32 (cf.(vbr) + 4 * nr) = vector nr c) as Ev by (unfold vector; by rewrite V).
  assert (∀ b, vector nr c <= b < vector nr c + 4 → at_stack cf b = at_stack c b) as Dv.
  { intros b Hb. destruct (Hbytes b Hb) as (_ & ? & ?). rewrite <- Eat. apply D; [by apply Hvec|done..]. }
  destruct (vector_ok nr cf) as (c1 & E1 & O1 & M1 & D1 & G1 & U1 & _ & S1 & P1 & _ & B1); [done|done|by rewrite Ev| |].
  { rewrite Ev. intros b Hb. rewrite Dv by done. by apply Hbytes. }
  assert (sp c1 = sp cf) as Es by (unfold sp; by rewrite G1).
  exists (c_intmask level c1). split.
  { unfold Interrupt. fold nr. rewrite (c_bind_ok _ _ c tt c1); [done|]. rewrite Exception_eq, (c_bind_ok _ _ _ _ _ E). exact E1. }
  split; [change (pc (c_intmask level c1)) with (pc c1); rewrite P1, Ev; by apply rd_ext|]. split; [rewrite B in B1; injection B1; intros; unfold bits, supervised in *; cbn in *; congruence|].
  change (sp (c_intmask level c1)) with (sp c1). change (msp (c_intmask level c1)) with (msp c1). rewrite Es, S1.
  split; [done|]. split; [done|]. split; [done|]. split; [done|]. split; [intros r Hr'; cbn; rewrite G1, G by done; by apply Eg|]. intros c2 Hh.
  assert (∀ b, c.(isp) - 8 <= b < c.(isp) → at_stack c1 b = at_stack cf b) as K1 by (intros b Hb; apply D1, ds_write_read, Hr; lia).
  assert (∀ b, master_sp (undone c) - 8 <= b < master_sp (undone c) → at_stack c1 b = at_stack cf b) as K0 by (intros b Hb; apply D1, ds_write_read, Hrm; lia).
  destruct (sr_or_super c Hmask Hma) as [B13 B12].
  destruct (rte_throwaway i opcode srcreg dstreg (u16 (MakeSR_value c)) (u16 (MakeSR_value c) .| (1 ≪ 13)) c.(pc) nr
    (λ b, sp cf <= b < sp cf + 8 ∨ msp cf <= b < msp cf + 8) (c_intmask level c1) c2) as (c3 & E3 & [R1 R2 _ R3 R4 R5 R6 _]);
    change (sp (c_intmask level c1)) with (sp c1) in *; change (msp (c_intmask level c1)) with (msp c1) in *; change (at_stack (c_intmask level c1)) with (at_stack c1) in *; rewrite ?Es, ?S1, ?S, ?M in *; try done; try tauto.
  - intros b Hb. apply ds_write_read, Hr. lia.
  - intros b Hb. apply ds_write_read, Hrm. lia.
  - apply (framed_ext _ _ _ _ (at_stack cf)); [|done]. intros b Hb. apply K1. lia.
  - apply (framed_ext _ _ _ _ (at_stack cf)); [|done]. intros b Hb. apply K0. lia.
  - lia.
  - apply in_u_lor; [done|done|lia].
  - exists c3. rewrite sr_round_trip in R1 by done. split_and!; try done.
    + rewrite R3. change (usp (c_intmask level c1)) with (usp c1). congruence.
    + rewrite R4. replace (_ - 8 + 8) with c.(isp) by lia. unfold interrupt_sp. rewrite UM, Hma, andb_false_r, UI. by apply Z.mod_small.
    + rewrite R5. replace (_ - 8 + 8) with (master_sp (undone c)) by lia. by apply Z.mod_small.
Qed.
End stack.
