(* ===== verification/ExcRun.v ===== *)
(** * Exceptions on a concrete machine

    The machine of [MmuRun]: the supervisor's stacks are in page 8, which is memory at 0xa000, and
    the vectors in page 5, memory at 0x8000. *)

From S2P Require Import Prelude Ram Mmu Cpu Insn Handlers ShiftSpec MmuSpec MmuRun Space SpaceMmu SrSpec ExcSpec.

#[local] Existing Instance MmuRun.example_ram.
#[local] Existing Instance ShiftSpec.example_host.

Definition machine_pages (su : bool) (b : Z) : Prop := 0x5000 <= b < 0x6000 ∨ 0x8000 <= b < 0x9000.

#[local] Instance machine_space : data_space := mmu_space example_on example_mem (λ _, eq_refl) example_tables example_aligned machine_pages.

Lemma machine_page page off b w : (page = 0x5000 ∧ off = 0x3000) ∨ (page = 0x8000 ∧ off = 0x2000) → page <= b < page + 0x1000 →
  xlate example_on example_mem (true, b) = Some (off, false) ∧ reaches example_on example_mem (true, b) w = to_ram (b + off).
Proof.
  intros Hp Hb. assert (xlate example_on example_mem (true, b) = Some (off, false)) as E.
  { rewrite (page_xlate _ _ (true, b) (true, page)); [by destruct Hp as [[-> ->] | [-> ->]]|]. split; [done|]. cbn. rewrite !shr12. destruct Hp as [[-> ->] | [-> ->]]; Z.div_mod_to_equations; lia. }
  split; [done|]. unfold reaches. rewrite E, andb_false_r. cbv zeta. cbn [snd].
  assert (u32 (b + off) = b + off) as -> by (apply Z.mod_small; destruct Hp as [[-> ->] | [-> ->]]; lia).
  assert ((b + off) .& 0xfff00000 = 0) as ->.
  { rewrite (hw_region (b + off) (page + off) 0xfff00000); [by destruct Hp as [[-> ->] | [-> ->]]| |done]. rewrite !shr12. destruct Hp as [[-> ->] | [-> ->]]; Z.div_mod_to_equations; lia. }
  cbn [Z.eqb]. unfold test_ram_boundary. change (FastRAM_BEGIN + FastRAM_SIZE - 1) with 0xffffff. change (STRAM_END - 1) with 0xdfffff.
  replace (b + off <=? 0xffffff) with true by lia. replace (8 <=? b + off) with true by lia. replace (b + off <=? 0xdfffff) with true by lia. by rewrite !orb_true_r.
Qed.

Lemma machine_target b : machine_pages true b → target example_on example_mem true b = b + (if b <? 0x6000 then 0x3000 else 0x2000).
Proof.
  unfold target. intros [Hb|Hb].
  - destruct (machine_page 0x5000 0x3000 b false) as [_ ->]; [tauto|lia|]. replace (b <? 0x6000) with true by lia. done.
  - destruct (machine_page 0x8000 0x2000 b false) as [_ ->]; [tauto|lia|]. replace (b <? 0x6000) with false by lia. done.
Qed.

Lemma machine_readable b : machine_pages true b → ds_read true b.
Proof.
  intros Hb. split; [done|]. split; [unfold u32_addr; destruct Hb; lia|]. split; rewrite machine_target by done.
  - destruct Hb as [Hb|Hb]; [destruct (machine_page 0x5000 0x3000 b false) as [_ ->] | destruct (machine_page 0x8000 0x2000 b false) as [_ ->]]; try tauto; try lia; case Z.ltb_spec; done || lia.
  - apply example_outside. destruct Hb; case Z.ltb_spec; lia.
Qed.

Lemma machine_writable b : 0x8000 <= b < 0x9000 → ds_write true b.
Proof.
  intros Hb. assert (machine_pages true b) as Hp by (right; lia). split; [by apply machine_readable|]. destruct (machine_page 0x8000 0x2000 b true) as [E1 E2]; [tauto|lia|].
  rewrite machine_target by done. replace (b <? 0x6000) with false by lia. split; [done|]. split.
  - intros off wp E. rewrite E1 in E. injection E as <- <-. cbn. unfold u32. rewrite Z.mod_small by lia. lia.
  - intros b' [Hp' _]. rewrite machine_target by done. destruct Hp'; case Z.ltb_spec; lia.
Qed.

(** In user mode, with a postincrement of A0 that has to be taken back; the user's stack pointer
    is 0x7f00, the stack pointers of the supervisor are 0x8100 and 0x8200, the vectors are at 0x5000. *)
Definition machine_cpu (super : bool) (m : bool) : cpu :=
  mk_cpu (switched super example) (aset (aset (aset ∅ 3 77) 8 0x6004) 15 (if super then 0x8200 else 0x7f00)) 0x7f00 0x8100 0x8200 0
    false false m false 3 0x5100 0x5104 0x5000 0 0 0 true false true false false (if super then None else Some (0, 0x6000)) 0 0 0 0 2.

Lemma start_cold setup s0 s : power_on s0 → (mmu_reset;; movecs setup) s0 = MOk tt s → cold s.
Proof.
  intros Hp E. unfold mbind, M_bind in E. destruct (reset_cold s0 Hp) as (s1 & E1 & Hc1 & _). rewrite E1 in E. by destruct (movecs_cold setup s1 s Hc1 E).
Qed.

Lemma example_cold : cold example.
Proof. apply (start_cold example_setup example_off example); [by split|apply example_started]. Qed.

Lemma example_coherent D : coherent example_on example_mem D example.
Proof. apply (cold_coherent D example), example_cold. Qed.

Lemma machine_ok super m : ds_ok (machine_cpu super m).(mem) ∧ mode_is (supervised (machine_cpu super m)) (machine_cpu super m).(mem).
Proof. split; [|done]. apply (ds_mode super example). apply example_coherent. Qed.

Definition rte_entry : instr := mk_instr i_RTE 0 2 sz_long am_unknown 0 am_unknown 0 0 None None.

Lemma vector_bytes super m b : 0x5000 <= b < 0x5100 → at_stack (machine_cpu super m) b = 0.
Proof.
  intros Hb. change (aget example_mem (target example_on example_mem true b) = 0). rewrite machine_target by (left; lia). replace (b <? 0x6000) with true by lia.
  unfold example_mem. cbn [foldr]. rewrite !put_long_byte by lia. done.
Qed.

(** An access error in user mode: the frame is at 0x80c4, and RTE goes back to the instruction at 0x5104. *)
Lemma exception_returns_witness :
  ∃ c1 c3, Exception 2 0 (machine_cpu false false) = COk tt c1 ∧ sp c1 = 0x80c4 ∧ aget c1.(greg) 8 = 0x6000
    ∧ handler rte_entry 0x4e73 0 0 c1 = COk tt c3 ∧ c3.(pc) = 0x5104 ∧ bits c3 = bits (machine_cpu false false)
    ∧ user_sp c3 = 0x7f00 ∧ interrupt_sp c3 = 0x8100 ∧ aget c3.(greg) 8 = 0x6000.
Proof.
  destruct (exception_returns 2 0 (machine_cpu false false) rte_entry 0x4e73 0 0) as (c1 & E & Ht & Hback).
  - reflexivity.
  - destruct (machine_ok false false) as [Ho Hm]. split; try done; try lia.
    + intros b Hb. apply machine_writable. cbn in Hb. lia.
    + intros b Hb. apply machine_readable. left. change (vector 2 (machine_cpu false false)) with 0x5008 in Hb. lia.
    + intros b Hb. change (vector 2 (machine_cpu false false)) with 0x5008 in Hb. rewrite vector_bytes by lia. cbn. lia.
  - reflexivity.
  - destruct Ht as [Hpc Hbits Hg Hsp [Ho Hm] Hd]. destruct (Hback c1) as (c3 & E3 & B3 & P3 & U3 & I3 & _ & G3).
    { injection Hbits as _ _ Hs Hma _ _ _ _ _ _. by split. }
    exists c1, c3. split; [exact E|]. split; [rewrite Hsp; lazy; reflexivity|]. split; [rewrite Hg by discriminate; lazy; reflexivity|]. split; [exact E3|].
    split; [rewrite P3; lazy; reflexivity|]. split; [exact B3|]. split; [rewrite U3; lazy; reflexivity|]. split; [rewrite I3; lazy; reflexivity|].
    rewrite G3, Hg by discriminate. lazy. reflexivity.
Defined.

(** An interrupt of level 4 in master mode. *)
Lemma interrupt_returns_witness :
  ∃ c1 c3, Interrupt 4 (machine_cpu true true) = COk tt c1 ∧ sp c1 = 0x80f8 ∧ c1.(msp) = 0x81f8 ∧ c1.(intmask) = 4
    ∧ handler rte_entry 0x4e73 0 0 c1 = COk tt c3 ∧ c3.(pc) = 0x5100 ∧ bits c3 = bits (machine_cpu true true)
    ∧ sp c3 = 0x8200 ∧ interrupt_sp c3 = 0x8100.
Proof.
  destruct (interrupt_returns 4 (machine_cpu true true) rte_entry 0x4e73 0 0) as (c1 & E & Hpc & Hbits & Hsp & Hmsp & Ho & Hm & Hg & Hback).
  - reflexivity.
  - destruct (machine_ok true true) as [Ho Hm]. assert (master_sp (undone (machine_cpu true true)) = 0x8200) as EM by (lazy; reflexivity).
    split; rewrite ?EM; change (isp (machine_cpu true true)) with 0x8100; try done; try lia.
    + intros b Hb. apply machine_writable. lia.
    + intros b Hb. apply machine_writable. lia.
    + intros b Hb. apply machine_readable. left. change (vector (4 + 24) (machine_cpu true true)) with 0x5070 in Hb. lia.
    + intros b Hb. change (vector (4 + 24) (machine_cpu true true)) with 0x5070 in Hb. rewrite vector_bytes by lia. lia.
  - reflexivity.
  - injection Hbits as H1 H2 Hs Hma Hmask _ _ _ _ _. destruct (Hback c1) as (c3 & E3 & B3 & P3 & U3 & I3 & M3 & G3).
    { constructor; [exact Hs|exact Hma|exact Ho|exact Hm|reflexivity|reflexivity|reflexivity|intros b _; reflexivity]. }
    exists c1, c3. split; [exact E|]. split; [rewrite Hsp; lazy; reflexivity|]. split; [rewrite Hmsp; lazy; reflexivity|]. split; [exact Hmask|]. split; [exact E3|].
    split; [rewrite P3; lazy; reflexivity|]. split; [exact B3|]. split; [|rewrite I3; lazy; reflexivity].
    injection B3 as _ _ Bs Bm _ _ _ _ _ _. change (supervised c3 = true) in Bs. unfold master_sp at 1 in M3. rewrite Bs, Bm in M3. cbn [andb] in M3. rewrite M3. lazy. reflexivity.
Defined.
