(* ===== verification/Faults.v ===== *)
(** * Access errors are precise

    What makes demand paging work on this machine.  An instruction reads its operands before it
    changes anything, or remembers the address register it has changed ([fixup]); when it stores
    to memory, the store is the last thing it does, and the program counter of the fault is
    already that of the next instruction.  So an access error that is handled and returned from
    is not seen by the program: a read is done again with the whole instruction, and a write is
    left to the handler, which finds address and data in the frame. *)

From S2P Require Import Prelude Ram Mmu Cpu MulDiv Insn Handlers ShiftSpec ArithSpec Space SrSpec ExcSpec.

(** ** Accesses keep the mode *)

Definition same_mode (s s' : mmu) : Prop := s'.(regs).(supervisor) = s.(regs).(supervisor) ∧ s'.(current_atc) = s.(current_atc).

#[global] Instance same_mode_preorder : PreOrder same_mode.
Proof. split; [done|]. intros a b c [] []. split; congruence. Qed.

Definition keeps {A} (m : M A) : Prop :=
  ∀ s, match m s with MOk _ s' | MThrow s' | MHardware _ s' => same_mode s s' | MStop _ => True end.
(** Errors end in states with [P]. *)
Definition throws {A} (P : mmu → Prop) (m : M A) : Prop := ∀ s s', m s = MThrow s' → P s'.

Lemma keeps_mode_bind {A B} (m : M A) (k : A → M B) : keeps m → (∀ a, keeps (k a)) → keeps (mbind k m).
Proof.
  intros Hm Hk s. unfold mbind, M_bind. specialize (Hm s). destruct (m s) as [a s1| | |]; [|done..]. specialize (Hk a s1). destruct (k a s1); [by etrans..|done].
Qed.
Lemma keeps_try {A} (m h : M A) : keeps m → keeps h → keeps (m_try m h).
Proof. intros Hm Hh s. unfold m_try. specialize (Hm s). destruct (m s) as [|s1| |]; [done| |done..]. specialize (Hh s1). destruct (h s1); [by etrans..|done]. Qed.
Lemma keeps_fault (f : cpu_regs → cpu_regs) : (∀ r, (f r).(supervisor) = r.(supervisor)) → keeps (m_set f).
Proof. intros Hf s. by split; [apply Hf|]. Qed.

Lemma throws_bind {A B} P (m : M A) (k : A → M B) : throws P m → (∀ a, throws P (k a)) → throws P (mbind k m).
Proof. intros Hm Hk s s'. unfold mbind, M_bind. destruct (m s) as [a s1| | |] eqn:E; [by apply Hk| |done..]. intros [= <-]. by apply (Hm s). Qed.
Lemma throws_weaken {A} (P Q : mmu → Prop) (m : M A) : (∀ s, P s → Q s) → throws P m → throws Q m.
Proof. intros HP Hm s s' E. by apply HP, (Hm s). Qed.
Lemma throws_not {A} P (m : M A) : throws (λ _, False) m → throws P m.
Proof. by apply throws_weaken. Qed.
Lemma throws_try {A} P (m h : M A) : throws P h → throws P (m_try m h).
Proof. intros Hh s s'. unfold m_try. destruct (m s); try done. apply Hh. Qed.

Create HintDb mmu_modes discriminated.
#[export] Hint Constants Opaque : mmu_modes.
#[export] Hint Resolve throws_not : mmu_modes.

Ltac m_tac :=
  repeat first
    [ solve [eauto 3 with mmu_modes nocore]
    | apply keeps_mode_bind; [|intros ?] | apply throws_bind; [|intros ?]
    | apply keeps_try | by apply keeps_fault | by intros ?
    | match goal with |- context [if ?b then _ else _] => destruct b end
    | match goal with |- context [match ?x with _ => _ end] => destruct x end ].

Section mmu.
Context `{ram_config}.

Lemma keeps_get_l1 i : keeps (get_l1 i). Proof. unfold get_l1. m_tac. Qed.
Lemma keeps_get_l2 i : keeps (get_l2 i). Proof. unfold get_l2. m_tac. Qed.
Lemma keeps_upd_l1 i f : keeps (upd_l1 i f). Proof. unfold upd_l1. m_tac. Qed.
Lemma keeps_upd_l2 i f : keeps (upd_l2 i f). Proof. unfold upd_l2. m_tac. Qed.
Lemma keeps_real_get sz a : keeps (real_get sz a). Proof. unfold real_get. m_tac. Qed.
Lemma keeps_real_put sz a v : keeps (real_put sz a v). Proof. unfold real_put. m_tac. Qed.
Lemma keeps_phys_get a : keeps (phys_get_long a). Proof. unfold phys_get_long, check_ram_boundary, real_get. m_tac. Qed.
Lemma keeps_phys_put a v : keeps (phys_put_long a v). Proof. unfold phys_put_long, check_ram_boundary, real_put. m_tac. Qed.
#[local] Hint Resolve keeps_get_l1 keeps_get_l2 keeps_upd_l1 keeps_upd_l2 keeps_real_get keeps_real_put keeps_phys_get keeps_phys_put : mmu_modes.

Lemma keeps_search a su w : keeps (mmu_lookup_pagetable a su w).
Proof. unfold mmu_lookup_pagetable, mark_used, update_page, m_when. cbv zeta. m_tac. Qed.
#[local] Hint Resolve keeps_search : mmu_modes.
Lemma keeps_l2 a su d w i : keeps (mmu_fill_atc_l2 a su d w i).
Proof. unfold mmu_fill_atc_l2. cbv zeta. m_tac. Qed.
#[local] Hint Resolve keeps_l2 : mmu_modes.
Lemma keeps_checks n a su d w cl : keeps (fill_checks n a su d w cl).
Proof. induction n as [|n IH]; cbn [fill_checks]; unfold fill_copy, fill_fail; cbv zeta; m_tac. Qed.
#[local] Hint Resolve keeps_checks : mmu_modes.
Lemma keeps_l1 a su d w cl : keeps (mmu_fill_atc_l1 a su d w cl).
Proof. unfold mmu_fill_atc_l1, m_when. cbv zeta. m_tac. Qed.
#[local] Hint Resolve keeps_l1 : mmu_modes.
Lemma keeps_error {A} a fc w sz : keeps (mmu_bus_error (A := A) a fc w sz).
Proof. unfold mmu_bus_error. cbv zeta. m_tac. Qed.
#[local] Hint Resolve keeps_error : mmu_modes.
Lemma keeps_get sz a d size : keeps (mmu_get sz a d size).
Proof. unfold mmu_get, mmu_get_slow, get_redo, mmu_lookup, mmu_user_lookup. cbv zeta. m_tac. Qed.
Lemma keeps_put sz a v d size : keeps (mmu_put sz a v d size).
Proof. unfold mmu_put, mmu_put_slow, put_redo, mmu_lookup, mmu_user_lookup. cbv zeta. m_tac. Qed.
#[local] Hint Resolve keeps_get keeps_put : mmu_modes.

Lemma keeps_get_long_unaligned a d : keeps (mmu_get_long_unaligned a d).
Proof. unfold mmu_get_long_unaligned, get_long_parts, misaligned. cbv zeta. m_tac. Qed.
#[local] Hint Resolve keeps_get_long_unaligned : mmu_modes.
Lemma keeps_get_data sz a : keeps (get_data sz a).
Proof. destruct sz; cbn [get_data]; unfold get_byte, get_word, get_long, mmu_get_word_unaligned, get_word_parts, misaligned; cbv zeta; m_tac. Qed.
Lemma keeps_put_data sz a v : keeps (put_data sz a v).
Proof.
  destruct sz; cbn [put_data]; unfold put_byte, put_word, put_long, mmu_put_word_unaligned, mmu_put_long_unaligned, put_word_parts, put_long_parts, misaligned_put, m_when; m_tac.
Qed.
Lemma keeps_ibyte p o : keeps (get_ibyte p o). Proof. unfold get_ibyte. m_tac. Qed.
Lemma keeps_iword p o : keeps (get_iword p o). Proof. unfold get_iword. m_tac. Qed.
Lemma keeps_ilong p o : keeps (get_ilong p o). Proof. unfold get_ilong. cbv zeta. m_tac. Qed.

(** ** What the frame of a failed store has *)

Definition store_fault (a v : Z) (s : mmu) : Prop :=
  s.(regs).(mmu_fault_addr) = a ∧ s.(regs).(wb3_data) = v ∧ nz (s.(regs).(wb3_status) .& 0x80) = true.

Lemma calm_real_get sz a : throws (λ _, False) (real_get sz a). Proof. unfold real_get. m_tac. Qed.
Lemma calm_real_put sz a v : throws (λ _, False) (real_put sz a v). Proof. unfold real_put. m_tac. Qed.
Lemma calm_get_l1 i : throws (λ _, False) (get_l1 i). Proof. unfold get_l1. m_tac. Qed.
Lemma calm_get_l2 i : throws (λ _, False) (get_l2 i). Proof. unfold get_l2. m_tac. Qed.
Lemma calm_upd_l1 i f : throws (λ _, False) (upd_l1 i f). Proof. unfold upd_l1. m_tac. Qed.
Lemma calm_upd_l2 i f : throws (λ _, False) (upd_l2 i f). Proof. unfold upd_l2. m_tac. Qed.
#[local] Hint Resolve calm_real_get calm_real_put calm_get_l1 calm_get_l2 calm_upd_l1 calm_upd_l2 : mmu_modes.
Lemma calm_l2 a su d w i : throws (λ _, False) (mmu_fill_atc_l2 a su d w i).
Proof. unfold mmu_fill_atc_l2. cbv zeta. m_tac; apply throws_try; m_tac. Qed.
#[local] Hint Resolve calm_l2 : mmu_modes.
Lemma calm_checks n a su d w cl : throws (λ _, False) (fill_checks n a su d w cl).
Proof. induction n as [|n IH]; cbn [fill_checks]; unfold fill_copy, fill_fail; cbv zeta; m_tac. Qed.
#[local] Hint Resolve calm_checks : mmu_modes.
Lemma calm_l1 a su d w cl : throws (λ _, False) (mmu_fill_atc_l1 a su d w cl).
Proof. unfold mmu_fill_atc_l1, m_when. cbv zeta. m_tac. Qed.
#[local] Hint Resolve calm_l1 : mmu_modes.

Lemma redo_fault sz a v su d size cl : throws (store_fault a v) (put_redo sz a v su d size cl).
Proof.
  unfold put_redo. apply throws_bind; [m_tac|]. intros l. destruct (hw l); [by intros ?|]. intros s s'. unfold mmu_bus_error, mbind, M_bind, m_set, m_throw. intros [= <-].
  split_and!; [done..|]. cbn [s_regs regs r_mmu_ssw r_mmu_fault_addr r_wb3_status wb3_status]. apply nz_true. intros E. apply (f_equal (λ z, Z.testbit z 7)) in E.
  rewrite Z.land_spec, Z.lor_spec in E. by cbn in E.
Qed.
#[local] Hint Resolve redo_fault : mmu_modes.
Lemma put_fault sz a v d size : throws (store_fault a v) (mmu_put sz a v d size).
Proof. unfold mmu_put, mmu_put_slow, mmu_lookup, mmu_user_lookup. cbv zeta. m_tac. Qed.

Lemma throws_catch {A} (P Q : mmu → Prop) (m h : M A) : throws P m → (∀ s s', P s → h s = MThrow s' → Q s') → throws Q (m_try m h).
Proof. intros Hm Hh s s'. unfold m_try. destruct (m s) as [|s1| |] eqn:E; try done. apply Hh. by apply (Hm s). Qed.

Lemma misaligned_fault a v m : throws (λ s, nz (s.(regs).(wb3_status) .& 0x80) = true) m → throws (store_fault a v) (misaligned_put a v m).
Proof.
  intros Hm. apply (throws_catch _ _ _ _ Hm). intros s s' Hs. unfold mbind, M_bind, m_reg, m_when, m_set, m_throw, mret, M_ret. cbn [s_regs regs r_wb3_data mmu_fault_addr].
  destruct (Z.eqb_spec (mmu_fault_addr (regs s)) a) as [Ea|Ea]; cbn [negb]; by intros [= <-].
Qed.

(** The frame of the access error has the address and the data of the store, and marks them as valid. *)
Lemma put_data_fault sz a v : throws (store_fault a v) (put_data sz a v).
Proof.
  assert (∀ sz a v d size, throws (λ s, nz (s.(regs).(wb3_status) .& 0x80) = true) (mmu_put sz a v d size)) as Hp.
  { intros. eapply throws_weaken; [|apply put_fault]. by intros s (_ & _ & ?). }
  destruct sz; cbn [put_data]; unfold put_byte, put_word, put_long, mmu_put_word_unaligned, mmu_put_long_unaligned, put_word_parts, put_long_parts;
    repeat match goal with |- context [if ?b then _ else _] => destruct b end; try apply put_fault; apply misaligned_fault; repeat first [apply Hp | apply throws_bind; [|intros ?]].
Qed.
End mmu.

(** ** Computations that only look *)

(** The memory may be another one (the caches and the used bits of the tables), and the program counter may have moved. *)
Record peeked (c c' : cpu) : Prop := {
  pk_rest : c' = c_mem c'.(mem) (c_pc c'.(pc) (c_pc_offset c'.(pc_offset) c));
  pk_mode : same_mode c.(mem) c'.(mem) }.

#[global] Instance peeked_preorder : PreOrder peeked.
Proof.
  split; [intros c; by split; [destruct c|]|]. intros a b c [E1 M1] [E2 M2]. split; [|by etrans].
  transitivity (c_mem c.(mem) (c_pc c.(pc) (c_pc_offset c.(pc_offset) (c_mem b.(mem) (c_pc b.(pc) (c_pc_offset b.(pc_offset) a)))))); [by rewrite <- E1|done].
Qed.

Definition peeks {A} (m : C A) : Prop := ∀ c, match m c with COk _ c' | CThrow c' => peeked c c' | _ => True end.

(** Computations without accesses. *)
Definition calm {A} (m : C A) : Prop := ∀ c, match m c with COk _ c' => c'.(fixup) = c.(fixup) | CThrow _ => False | _ => True end.

Lemma peeks_bind {A B} (m : C A) (k : A → C B) : peeks m → (∀ a, peeks (k a)) → peeks (mbind k m).
Proof.
  intros Hm Hk c. unfold mbind, C_bind. specialize (Hm c). destruct (m c) as [a c1| | | |]; [|done..]. specialize (Hk a c1). destruct (k a c1); try done; by etrans.
Qed.
Lemma peeks_lift {A} (m : M A) : keeps m → peeks (lift m).
Proof. intros Hm c. specialize (Hm c.(mem)). unfold lift. destruct (m c.(mem)); try done; (split; [by destruct c|done]). Qed.
Lemma calm_bind {A B} (m : C A) (k : A → C B) : calm m → (∀ a, calm (k a)) → calm (mbind k m).
Proof.
  intros Hm Hk c. unfold mbind, C_bind. specialize (Hm c). destruct (m c) as [a c1| | | |]; try done. specialize (Hk a c1). destruct (k a c1); try done. congruence.
Qed.
Lemma calm_upd f : (∀ c, (f c).(fixup) = c.(fixup)) → calm (c_upd f).
Proof. intros Hf c. apply Hf. Qed.
Lemma calm_get {A} (f : cpu → A) : calm (c_get f).
Proof. done. Qed.
Lemma peeks_ret {A} (a : A) : peeks (mret a).
Proof. intros c. by split; [destruct c|]. Qed.
Lemma calm_ret {A} (a : A) : calm (mret a).
Proof. done. Qed.
Lemma calm_stop {A} e : calm (A := A) (c_stop e).
Proof. done. Qed.

Create HintDb cpu_looks discriminated.
#[export] Hint Constants Opaque : cpu_looks.
#[export] Hint Resolve peeks_lift peeks_ret calm_get calm_ret calm_stop : cpu_looks.

Ltac c_tac :=
  repeat first
    [ solve [eauto 3 with cpu_looks nocore]
    | apply peeks_bind; [|intros ?] | apply calm_bind; [|intros ?] | by apply calm_upd
    | solve [intros ?; done] | solve [intros c; by split; [destruct c|]]
    | match goal with |- context [if ?b then _ else _] => destruct b end
    | match goal with |- context [match ?x with _ => _ end] => destruct x end ].

Section looks.
Context `{ram_config}.

#[local] Hint Resolve keeps_ibyte keeps_iword keeps_ilong : cpu_looks.
Lemma peeks_ibyte : peeks gen_nextibyte. Proof. unfold gen_nextibyte. c_tac. Qed.
Lemma peeks_iword : peeks gen_nextiword. Proof. unfold gen_nextiword. c_tac. Qed.
Lemma peeks_ilong : peeks gen_nextilong. Proof. unfold gen_nextilong. c_tac. Qed.
Lemma peeks_next_iword : peeks next_iword. Proof. unfold next_iword, m68k_incpc. c_tac. Qed.
Lemma peeks_next_ilong : peeks next_ilong. Proof. unfold next_ilong, m68k_incpc. c_tac. Qed.
Lemma peeks_sync : peeks sync_m68k_pc. Proof. unfold sync_m68k_pc, m68k_incpc, c_when. c_tac. Qed.
Lemma keeps_get_long a : keeps (get_long a). Proof. apply (keeps_get_data sz_long). Qed.
#[local] Hint Resolve peeks_ibyte peeks_iword peeks_ilong peeks_next_iword peeks_next_ilong peeks_sync keeps_get_long : cpu_looks.
Lemma peeks_disp a w : peeks (get_disp_ea_020 a w).
Proof. unfold get_disp_ea_020, index_value. cbv zeta. c_tac. Qed.
#[local] Hint Resolve peeks_disp : cpu_looks.
Lemma peeks_addr mode reg sz movem : peeks (amode_addr mode reg sz movem).
Proof. unfold amode_addr, areg. destruct mode; c_tac. Qed.
Lemma peeks_xget sz a : peeks (xget XLATE_LOG sz a).
Proof. unfold xget. destruct sz; apply peeks_lift; [apply (keeps_get_data sz_byte)|apply (keeps_get_data sz_word)|apply (keeps_get_data sz_long)]. Qed.
End looks.

(** ** Instructions that store last *)

(** The instruction that was begun in [c0] can be begun again after an access error in [c]. *)
Record recovers (c0 c : cpu) : Prop := {
  rv_rest : c = c_greg c.(greg) (c_mem c.(mem) (c_pc c.(pc) (c_pc_offset c.(pc_offset) (c_fixup c.(fixup) c0))));
  rv_greg : ∀ r, aget (undone c).(greg) r = aget c0.(greg) r;
  rv_u32 : ∀ r, in_u 32 (aget c0.(greg) r);
  rv_mode : same_mode c0.(mem) c.(mem) }.

Lemma recovers_refl c : c.(fixup) = None → (∀ r, in_u 32 (aget c.(greg) r)) → recovers c c.
Proof. intros E Hu. split; try done; [by destruct c|]. unfold undone. by rewrite E. Qed.

Lemma recovers_peeked c0 c c' : recovers c0 c → peeked c c' → recovers c0 c' ∧ c'.(fixup) = c.(fixup).
Proof.
  intros [Hr Hg Hu Hm] [Er Em]. assert (c'.(greg) = c.(greg) ∧ c'.(fixup) = c.(fixup)) as [Eg Ef] by (rewrite Er; done). split; [|done]. split; try done.
  - rewrite Eg, Ef. rewrite Er at 1. rewrite Hr at 1. done.
  - intros r. rewrite <- Hg. unfold undone. rewrite Ef. destruct (fixup c) as [[x v]|]; cbn [c_fixup c_greg greg]; by rewrite Eg.
  - by etrans.
Qed.

(** A store at the end of an instruction, or none. *)
Definition store_req : Type := option (wordsizes * Z * Z).
Definition commit `{ram_config} (o : store_req) : C unit := match o with Some (sz, a, v) => lift (put_data sz a v) | None => mret tt end.

(** The fault would be reported for the next instruction. *)
Definition settled (c : cpu) : Prop := c.(fault_pc) = c.(pc) ∧ c.(pc_offset) = 0.

Section precise.
Context `{ram_config}.

Definition commits (m : C unit) : Type :=
  { pre : C store_req | (∀ c, m c = mbind commit pre c) ∧
    ∀ c, match pre c with CThrow _ => False | COk (Some _) c1 => settled c1 ∧ c1.(fixup) = c.(fixup) | _ => True end }.

Definition precise (m : C unit) : Type :=
  { pre : C store_req | (∀ c, m c = mbind commit pre c) ∧
    ∀ c, match pre c with COk (Some _) c1 => settled c1 | _ => True end ∧
      ∀ c0, recovers c0 c → c.(fixup) = None → match pre c with CThrow c' => recovers c0 c' | COk (Some _) c1 => c1.(fixup) = None | _ => True end }.

Definition last_read {A} (m : C A) : Prop :=
  ∀ c0 c, recovers c0 c → c.(fixup) = None → match m c with COk _ c' => c'.(fixup) = None | CThrow c' => recovers c0 c' | _ => True end.

Lemma commits_calm m : calm m → commits m.
Proof.
  intros Hm. exists (m;; mret None). split.
  - intros c. unfold mbind, C_bind, mret, C_ret. destruct (m c) as [[]| | | |]; done.
  - intros c. unfold mbind, C_bind, mret, C_ret. specialize (Hm c). by destruct (m c).
Qed.

Lemma commits_bind {A} (m : C A) (k : A → C unit) : calm m → (∀ a, commits (k a)) → commits (mbind k m).
Proof.
  intros Hm Hk. exists (a ← m; proj1_sig (Hk a)). split.
  - intros c. unfold mbind, C_bind. destruct (m c) as [a c1| | | |]; try done. by destruct (Hk a) as (pre & E & ?).
  - intros c. unfold mbind, C_bind. specialize (Hm c). destruct (m c) as [a c1| | | |]; try done. destruct (Hk a) as (pre & ? & Hp). cbn [proj1_sig].
    specialize (Hp c1). destruct (pre c1) as [[]| | | |]; try done. destruct Hp. split; congruence.
Qed.

Lemma precise_commits m : commits m → precise m.
Proof.
  intros (pre & E & Hp). exists pre. split; [done|]. intros c. specialize (Hp c). split; [destruct (pre c) as [[]| | | |]; try done; by destruct Hp|].
  intros c0 _ Hf. destruct (pre c) as [[]| | | |]; try done. by destruct Hp as [_ ->].
Qed.

Lemma precise_peek {A} (m : C A) (k : A → C unit) : peeks m → (∀ a, precise (k a)) → precise (mbind k m).
Proof.
  intros Hm Hk. exists (a ← m; proj1_sig (Hk a)). split; [|intros c; split].
  - intros c. unfold mbind, C_bind. destruct (m c) as [a c1| | | |]; try done. by destruct (Hk a) as (pre & E & ?).
  - unfold mbind, C_bind. destruct (m c) as [a c1| | | |]; try done. destruct (Hk a) as (pre & ? & Hp). by apply (Hp c1).
  - intros c0 Hr Hf. unfold mbind, C_bind. specialize (Hm c). destruct (m c) as [a c1|c1|c1| |]; try done.
    + destruct (recovers_peeked _ _ _ Hr Hm) as [Hr1 Hf1]. destruct (Hk a) as (pre & ? & Hp). apply (Hp c1); [done|congruence].
    + by apply (recovers_peeked _ c).
Qed.

Lemma precise_last {A} (m : C A) (k : A → C unit) : last_read m → (∀ a, commits (k a)) → precise (mbind k m).
Proof.
  intros Hm Hk. exists (a ← m; proj1_sig (Hk a)). split; [|intros c; split].
  - intros c. unfold mbind, C_bind. destruct (m c) as [a c1| | | |]; try done. by destruct (Hk a) as (pre & E & ?).
  - unfold mbind, C_bind. destruct (m c) as [a c1| | | |]; try done. destruct (Hk a) as (pre & ? & Hp). cbn [proj1_sig]. specialize (Hp c1).
    destruct (pre c1) as [[]| | | |]; try done. by destruct Hp.
  - intros c0 Hr Hf. unfold mbind, C_bind. specialize (Hm c0 c Hr Hf). destruct (m c) as [a c1|c1|c1| |]; try done. destruct (Hk a) as (pre & ? & Hp). cbn [proj1_sig]. specialize (Hp c1).
    destruct (pre c1) as [[]| | | |]; try done. destruct Hp. congruence.
Qed.

Lemma precise_ext m m' : (∀ c, m c = m' c) → precise m' → precise m.
Proof. intros E (pre & E' & Hp). exists pre. split; [|done]. intros c. by rewrite E. Qed.

Lemma last_peeks {A} (m : C A) : peeks m → last_read m.
Proof. intros Hm c0 c Hr Hf. specialize (Hm c). destruct (m c); try done; destruct (recovers_peeked _ _ _ Hr Hm); [congruence|done]. Qed.
End precise.

(** ** Operands *)

Definition moves (mode : amodes) : bool := match mode with Aipi | Apdi => true | _ => false end.
Definition no_access (mode : amodes) : bool := match mode with Dreg | Areg | immi => true | _ => false end.

Section operands.
Context `{ram_config}.
#[local] Hint Resolve peeks_ibyte peeks_iword peeks_ilong peeks_sync peeks_addr peeks_xget : cpu_looks.

Notation operand mode reg sz getv fix1 := (genamode2 mode reg sz getv GENA_MOVEM_DO_INC XLATE_LOG fix1).

(** The part of an operand before its register is changed. *)
Definition fetched (mode : amodes) (reg : Z) (sz : wordsizes) (getv : getv_t) : C (Z * Z) :=
  a ← amode_addr mode reg sz GENA_MOVEM_DO_INC;
  v ← (match getv with GENA_GETV_FETCH => x ← xget XLATE_LOG sz a; mret (sx sz x) | _ => mret 0 end);
  mret (a, v).

Lemma peeks_fetched mode reg sz getv : peeks (fetched mode reg sz getv).
Proof. unfold fetched. c_tac. Qed.

Lemma operand_eq mode reg sz getv fix1 : moves mode = true →
  ∀ c, operand mode reg sz getv fix1 c = (o ← fetched mode reg sz getv; amode_update mode reg sz o.1 fix1;; mret o) c.
Proof.
  intros Hm c. unfold genamode2, fetched. destruct mode; try discriminate Hm; unfold mbind, C_bind, mret, C_ret; destruct (amode_addr _ _ _ _ _); try done; by case_match.
Qed.

Lemma peeks_operand mode reg sz getv fix1 : moves mode = false → peeks (operand mode reg sz getv fix1).
Proof. intros Hm. unfold genamode2, amode_update, dreg, areg. destruct mode; try discriminate Hm; c_tac. Qed.

Lemma calm_operand mode reg sz getv fix1 : no_access mode = true → calm (operand mode reg sz getv fix1).
Proof. intros Hm. unfold genamode2, dreg, areg. destruct mode; try discriminate Hm; c_tac. Qed.

Lemma last_bind_calm {A B} (m : C A) (k : A → C B) : last_read m → (∀ a, calm (k a)) → last_read (mbind k m).
Proof.
  intros Hm Hk c0 c Hr Hf. specialize (Hm c0 c Hr Hf). unfold mbind, C_bind. destruct (m c) as [a c1| | | |]; try done. specialize (Hk a c1). destruct (k a c1); try done. congruence.
Qed.

Lemma calm_update mode reg sz a : calm (amode_update mode reg sz a false).
Proof. unfold amode_update, areg, set_areg, c_when. destruct mode; c_tac. Qed.

Lemma last_operand mode reg sz getv : last_read (operand mode reg sz getv false).
Proof.
  destruct (moves mode) eqn:Hm; [|by apply last_peeks, peeks_operand]. intros c0 c. rewrite operand_eq by done. revert c0 c.
  change (last_read (o ← fetched mode reg sz getv; amode_update mode reg sz o.1 false;; mret o)).
  apply last_bind_calm; [apply last_peeks, peeks_fetched|]. intros o. apply calm_bind; [apply calm_update|intros ?; c_tac].
Qed.

Lemma last_fetch mode reg sz : last_read (fetch_operand mode reg sz).
Proof. apply last_bind_calm; [apply last_operand|intros ?; c_tac]. Qed.
Lemma peeks_fetch mode reg sz : moves mode = false → peeks (fetch_operand mode reg sz).
Proof. intros Hm. apply peeks_bind; [by apply peeks_operand|intros ?; c_tac]. Qed.

(** The first of two operands with [fixup]: it can still be taken back. *)
Lemma remembered mode reg sz getv c0 c : recovers c0 c → c.(fixup) = None →
  match operand mode reg sz getv true c with
  | COk _ c' => recovers c0 c' ∧ (moves mode = false → c'.(fixup) = None) | CThrow c' => recovers c0 c' | _ => True
  end.
Proof.
  intros Hr Hf. destruct (moves mode) eqn:Hm.
  2:{ pose proof (peeks_operand mode reg sz getv true Hm c) as Hp. destruct (operand _ _ _ _ _ c); try done; destruct (recovers_peeked _ _ _ Hr Hp); [|done]. split; [done|congruence]. }
  rewrite operand_eq by done. pose proof (peeks_fetched mode reg sz getv c) as Hp. unfold mbind at 1, C_bind at 1.
  destruct (fetched mode reg sz getv c) as [o c1|c1|c1| |]; try done; destruct (recovers_peeked _ _ _ Hr Hp) as [Hr1 Hf1]; [|done].
  assert (∃ v, (amode_update mode reg sz o.1 true;; mret o) c1 = COk o (c_greg (aset c1.(greg) (8 + reg) (u32 v)) (c_fixup (Some (reg, aget c1.(greg) (8 + reg))) c1))) as [v ->]
    by (destruct mode; try discriminate Hm; by eexists).
  split; [|done]. destruct Hr1 as [R1 G1 U1 M1]. rewrite Hf in Hf1. unfold undone in G1. rewrite Hf1 in G1.
  split; try done.
  - rewrite R1 at 3. done.
  - intros r. unfold undone. cbn [c_greg c_fixup fixup greg]. rewrite !aget_aset. assert (u32 (aget c1.(greg) (8 + reg)) = aget c1.(greg) (8 + reg)) as Eu by (rewrite G1; apply Z.mod_small; apply U1).
    repeat case_decide; subst; try done; by rewrite Eu.
Qed.

Definition later_read {A} (m : C A) : Prop :=
  ∀ c0 c, recovers c0 c → match m c with CThrow c' => recovers c0 c' | COk _ c' => c'.(fixup) = c.(fixup) | _ => True end.

Lemma later_operand mode reg sz getv : later_read (operand mode reg sz getv false).
Proof.
  intros c0 c Hr. destruct (moves mode) eqn:Hm.
  - rewrite operand_eq by done. pose proof (peeks_fetched mode reg sz getv c) as Hp. unfold mbind at 1, C_bind at 1.
    destruct (fetched mode reg sz getv c) as [o c1|c1|c1| |]; try done; destruct (recovers_peeked _ _ _ Hr Hp) as [Hr1 Hf1]; [|done].
    assert (calm (amode_update mode reg sz o.1 false;; mret o)) as Hk by (apply calm_bind; [apply calm_update|intros ?; c_tac]).
    specialize (Hk c1). destruct ((amode_update mode reg sz o.1 false;; mret o) c1); try done. congruence.
  - pose proof (peeks_operand mode reg sz getv false Hm c) as Hp. destruct (operand _ _ _ _ _ c); try done; by destruct (recovers_peeked _ _ _ Hr Hp).
Qed.

Lemma last_pair {A B} mode reg sz getv (m : C A) (f : Z * Z → A → B) : later_read m →
  last_read (s ← operand mode reg sz getv true; d ← m; fixup_done mode;; mret (f s d)).
Proof.
  intros Hm c0 c Hr Hf. pose proof (remembered mode reg sz getv c0 c Hr Hf) as Hs. unfold mbind at 1, C_bind at 1. destruct (operand _ _ _ _ _ c) as [s c1| | | |]; try done.
  destruct Hs as [Hr1 Hf1]. specialize (Hm c0 c1 Hr1). unfold mbind, C_bind. destruct (m c1) as [d c2| | | |]; try done.
  unfold fixup_done, mret, C_ret, c_upd. destruct mode; cbn [moves] in Hf1; try done; rewrite Hm; by apply Hf1.
Qed.

(** ** Stores *)

Lemma commits_store sz a v : commits (gen_set_fault_pc;; xput XLATE_LOG sz a v).
Proof.
  exists (gen_set_fault_pc;; mret (Some (sz, a, zx sz v))). split.
  - intros c. unfold mbind, C_bind, mret, C_ret. destruct (gen_set_fault_pc c) as [[]| | | |]; try done. by destruct sz.
  - intros c. unfold gen_set_fault_pc, sync_m68k_pc, m68k_incpc, c_when, mbind, C_bind, c_get, c_upd, mret, C_ret. by destruct (nz (pc_offset c)).
Qed.

Lemma commits_genastore from mode reg sz toa : commits (genastore from mode reg sz toa XLATE_LOG).
Proof.
  unfold genastore, dreg, set_dreg, set_areg. destruct mode; try (apply commits_store); apply commits_calm; destruct sz; c_tac.
Qed.
End operands.

(** ** Flags *)

Section flags.
Lemma calm_logical sz v : calm (flag_logical sz v). Proof. unfold flag_logical, CLEAR_CZNV, SET_CFLG, SET_ZFLG, SET_NFLG, SET_VFLG. c_tac. Qed.
Lemma calm_noclobber sz v : calm (flag_logical_noclobber sz v). Proof. unfold flag_logical_noclobber, SET_ZFLG, SET_NFLG. c_tac. Qed.
Lemma calm_zn sz v : calm (flag_zn sz v). Proof. unfold flag_zn, SET_ZFLG, SET_NFLG. c_tac. Qed.
Lemma calm_add sz s d : calm (flag_add sz s d). Proof. unfold flag_add, COPY_CARRY, SET_CFLG, SET_ZFLG, SET_NFLG, SET_VFLG, SET_XFLG. cbv zeta. c_tac. Qed.
Lemma calm_sub sz s d : calm (flag_sub sz s d). Proof. unfold flag_sub, COPY_CARRY, SET_CFLG, SET_ZFLG, SET_NFLG, SET_VFLG, SET_XFLG. cbv zeta. c_tac. Qed.
Lemma calm_cmp sz s d : calm (flag_cmp sz s d). Proof. unfold flag_cmp, SET_CFLG, SET_ZFLG, SET_NFLG, SET_VFLG. cbv zeta. c_tac. Qed.
Lemma calm_addx sz n s d : calm (flag_addx sz n s d). Proof. unfold flag_addx, COPY_CARRY, SET_CFLG, SET_VFLG, SET_XFLG. cbv zeta. c_tac. Qed.
Lemma calm_subx sz n s d : calm (flag_subx sz n s d). Proof. unfold flag_subx, COPY_CARRY, SET_CFLG, SET_VFLG, SET_XFLG. cbv zeta. c_tac. Qed.
Lemma calm_SET_CFLG b : calm (SET_CFLG b). Proof. unfold SET_CFLG. c_tac. Qed.
Lemma calm_SET_ZFLG b : calm (SET_ZFLG b). Proof. unfold SET_ZFLG. c_tac. Qed.
Lemma calm_SET_VFLG b : calm (SET_VFLG b). Proof. unfold SET_VFLG. c_tac. Qed.
Lemma calm_SET_XFLG b : calm (SET_XFLG b). Proof. unfold SET_XFLG. c_tac. Qed.
Lemma calm_SET_NFLG b : calm (SET_NFLG b). Proof. unfold SET_NFLG. c_tac. Qed.
Lemma calm_CLEAR : calm CLEAR_CZNV. Proof. unfold CLEAR_CZNV, SET_CFLG, SET_ZFLG, SET_NFLG, SET_VFLG. c_tac. Qed.
Lemma calm_COPY : calm COPY_CARRY. Proof. unfold COPY_CARRY, SET_XFLG. c_tac. Qed.
End flags.
#[export] Hint Resolve calm_logical calm_noclobber calm_zn calm_add calm_sub calm_cmp calm_addx calm_subx calm_SET_CFLG calm_SET_ZFLG calm_SET_VFLG calm_SET_XFLG calm_SET_NFLG calm_CLEAR calm_COPY : cpu_looks.

Ltac flag_tac := cbv zeta; repeat first [solve [eauto 2 with cpu_looks nocore] | apply calm_bind; [|intros ?] | match goal with |- calm (if ?b then _ else _) => destruct b end | match goal with |- calm (match ?x with _ => _ end) => destruct x end].

Section values.
Context `{host}.
Lemma calm_ABCD s d : calm (ABCD s d). Proof. unfold ABCD. flag_tac. Qed.
Lemma calm_SBCD s d : calm (SBCD s d). Proof. unfold SBCD. flag_tac. Qed.
Lemma calm_NBCD s : calm (NBCD s). Proof. unfold NBCD. flag_tac. Qed.
Lemma calm_ASR b sz d n : calm (ASR b sz d n). Proof. unfold ASR. flag_tac. Qed.
Lemma calm_ASL b sz d n : calm (ASL b sz d n). Proof. unfold ASL. flag_tac. Qed.
Lemma calm_LSR b sz d n : calm (LSR b sz d n). Proof. unfold LSR. flag_tac. Qed.
Lemma calm_LSL b sz d n : calm (LSL b sz d n). Proof. unfold LSL. flag_tac. Qed.
Lemma calm_ROR b sz d n : calm (ROR b sz d n). Proof. unfold ROR. flag_tac. Qed.
Lemma calm_ROL b sz d n : calm (ROL b sz d n). Proof. unfold ROL. flag_tac. Qed.
Lemma calm_ROXR b sz d n : calm (ROXR b sz d n). Proof. unfold ROXR. flag_tac. Qed.
Lemma calm_ROXL b sz d n : calm (ROXL b sz d n). Proof. unfold ROXL. flag_tac. Qed.
Lemma calm_shift_w k sz d : calm (shift_w_op k sz d).
Proof. destruct k; cbn [shift_w_op]; unfold ASRW, ASLW, LSRW, LSLW, RORW, ROLW, ROXRW, ROXLW; flag_tac. Qed.
End values.
#[export] Hint Resolve calm_ABCD calm_SBCD calm_NBCD calm_ASR calm_ASL calm_LSR calm_LSL calm_ROR calm_ROL calm_ROXR calm_ROXL : cpu_looks.
