(* ===== verification/FaultSpec.v ===== *)
(** * Which instructions have precise access errors

    The instructions of [precise_entry] read first and store last ([Faults]). *)

From S2P Require Import Prelude Ram Mmu Cpu MulDiv Insn Handlers ShiftSpec ArithSpec MulDivSpec Space SrSpec ExcSpec Faults.

(** ** The instructions *)

Definition pair_ok (i : instr) : bool := negb (moves i.(smode)) || no_access i.(dmode).

(** Entries without privilege whose operands are read before anything changes.  (CMPM, MOVEM, MOVEP,
    divisions and long multiplications, bit fields, UNLK, returns, jumps and the instructions that
    start exceptions are not among them.) *)
Definition precise_entry (i : instr) : bool :=
  (i.(plev) =? 0) &&
  match i.(mnemo) with
  | i_OR | i_AND | i_EOR | i_ADD | i_SUB | i_CMP | i_ADDA | i_SUBA | i_CMPA
  | i_BTST | i_BCHG | i_BCLR | i_BSET | i_MULU | i_MULS
  | i_ASR | i_ASL | i_LSR | i_LSL | i_ROR | i_ROL | i_ROXR | i_ROXL => pair_ok i
  | i_MOVEA | i_LEA => pair_ok i
  | i_ADDX | i_SUBX | i_ABCD | i_SBCD | i_MOVE => true
  | i_NEG | i_NEGX | i_NBCD | i_CLR | i_NOT | i_TST | i_SWAP | i_EXT | i_Scc | i_TAS
  | i_ASRW | i_ASLW | i_LSRW | i_LSLW | i_RORW | i_ROLW | i_ROXRW | i_ROXLW => true
  | i_PEA => negb (moves i.(smode))
  | i_NOP => true
  | _ => false
  end.

Section instructions.
Context `{ram_config} `{host}.

Lemma precise_single mode reg sz getv (k : Z * Z → C unit) : (∀ s, commits (k s)) → precise (s ← genamode mode reg sz getv; k s).
Proof. intros Hk. apply precise_last; [apply last_operand|done]. Qed.

Lemma precise_pair i r1 r2 sz1 sz2 getv (k : Z → Z * Z → C unit) : pair_ok i = true → (∀ s d, commits (k s d)) →
  precise (s ← fetch_operand i.(smode) r1 sz1; d ← genamode i.(dmode) r2 sz2 getv; k s d).
Proof.
  intros Hp Hk. unfold pair_ok in Hp. destruct (moves i.(smode)) eqn:Em.
  - apply precise_last; [apply last_fetch|]. intros s. apply commits_bind; [by apply calm_operand|done].
  - apply precise_peek; [by apply peeks_fetch|]. intros s. by apply precise_single.
Qed.

Lemma precise_fixed i srcreg dstreg (k : Z * (Z * Z) → C unit) : (∀ x, commits (k x)) → precise (x ← src_dst_fixed i srcreg dstreg; k x).
Proof. intros Hk. apply precise_last; [|done]. unfold src_dst_fixed. apply (last_pair _ _ _ _ _ (λ s d, (s.2, d))), later_operand. Qed.

Ltac ends := intros; repeat first [apply commits_bind; [solve [flag_tac]|intros ?] | apply commits_genastore | apply commits_calm; solve [flag_tac] | match goal with |- commits (let _ := _ in _) => cbv zeta | |- commits (match ?x with _ => _ end) => destruct x end].

Lemma precise_logic i srcreg dstreg : pair_ok i = true → precise (op_logic i srcreg dstreg).
Proof. intros Hp. apply precise_pair; [done|]. unfold store_dst. ends. Qed.
Lemma precise_ADD i srcreg dstreg : pair_ok i = true → precise (op_ADD i srcreg dstreg).
Proof. intros Hp. apply precise_pair; [done|]. unfold store_dst. ends. Qed.
Lemma precise_SUB i srcreg dstreg : pair_ok i = true → precise (op_SUB i srcreg dstreg).
Proof. intros Hp. apply precise_pair; [done|]. unfold store_dst. ends. Qed.
Lemma precise_CMP i srcreg dstreg : pair_ok i = true → precise (op_CMP i srcreg dstreg).
Proof. intros Hp. apply precise_pair; [done|]. ends. Qed.
Lemma precise_bit i srcreg dstreg : pair_ok i = true → precise (op_bit i srcreg dstreg).
Proof. intros Hp. apply precise_pair; [done|]. unfold store_dst. ends. Qed.
Lemma precise_shift i srcreg dstreg f : (∀ b sz d n, calm (f b sz d n)) → pair_ok i = true → precise (op_shift i srcreg dstreg f).
Proof. intros Hf Hp. apply precise_pair; [done|]. intros. apply commits_bind; [apply Hf|]. intros. apply commits_genastore. Qed.
Lemma precise_shift_w i srcreg f : (∀ sz d, calm (f sz d)) → precise (op_shift_w i srcreg f).
Proof. intros Hf. apply precise_single. intros. apply commits_bind; [apply Hf|]. intros. apply commits_genastore. Qed.
Lemma precise_fixed_ops i srcreg dstreg : precise (op_ADDX i srcreg dstreg) * precise (op_SUBX i srcreg dstreg) * precise (op_ABCD i srcreg dstreg) * precise (op_SBCD i srcreg dstreg).
Proof. repeat split; apply precise_fixed; unfold store_dst; ends. Qed.
Lemma precise_MOVE i srcreg dstreg : precise (op_MOVE i srcreg dstreg).
Proof.
  apply (precise_ext _ (x ← (s ← genamode2 i.(smode) srcreg (isz i) GENA_GETV_FETCH GENA_MOVEM_DO_INC XLATE_LOG true;
                               d ← genamode i.(dmode) dstreg (isz i) GENA_GETV_FETCH_ALIGN; fixup_done i.(smode);; mret (s, d));
                        flag_logical (isz i) x.1.2;; store_dst i dstreg x.1.2 x.2)).
  { intros c. unfold op_MOVE, mbind, C_bind, mret, C_ret. destruct (genamode2 _ _ _ _ _ _ _ c) as [s1 c1| | | |]; try done. destruct (genamode _ _ _ _ c1) as [d1 c2| | | |]; try done. by destruct (fixup_done _ c2). }
  apply precise_last; [apply (last_pair _ _ _ _ _ pair), later_operand|]. unfold store_dst. ends.
Qed.
Lemma precise_two i r1 r2 sz1 sz2 getv1 getv2 (k : Z * Z → Z * Z → C unit) : pair_ok i = true → (∀ s d, commits (k s d)) →
  precise (s ← genamode i.(smode) r1 sz1 getv1; d ← genamode i.(dmode) r2 sz2 getv2; k s d).
Proof.
  intros Hp Hk. unfold pair_ok in Hp. destruct (moves i.(smode)) eqn:Em.
  - apply precise_single. intros s. apply commits_bind; [by apply calm_operand|done].
  - apply precise_peek; [by apply peeks_operand|]. intros s. by apply precise_single.
Qed.

Lemma precise_PEA i srcreg : moves i.(smode) = false → precise (op_PEA i srcreg).
Proof. intros Hm. apply precise_peek; [by apply peeks_operand|]. intros s. apply precise_single. intros d. apply commits_genastore. Qed.
Lemma precise_TST i srcreg : precise (op_TST i srcreg).
Proof. apply precise_last; [apply last_fetch|]. ends. Qed.
Lemma precise_singles i srcreg : precise (op_NEG i srcreg) * precise (op_NEGX i srcreg) * precise (op_NBCD i srcreg) * precise (op_CLR i srcreg) * precise (op_NOT i srcreg)
  * precise (op_SWAP i srcreg) * precise (op_EXT i srcreg) * precise (op_Scc i srcreg) * precise (op_TAS i srcreg).
Proof. repeat split; apply precise_single; unfold store_src; ends. Qed.
Lemma precise_pairs i srcreg dstreg : pair_ok i = true →
  precise (op_ADDA i srcreg dstreg) * precise (op_SUBA i srcreg dstreg) * precise (op_CMPA i srcreg dstreg) * precise (op_MOVEA i srcreg dstreg)
  * precise (op_MULU i srcreg dstreg) * precise (op_MULS i srcreg dstreg) * precise (op_LEA i srcreg dstreg).
Proof. intros Hp. repeat split; first [apply precise_pair | apply precise_two]; try done; unfold store_dst; ends. Qed.

Lemma precise_body i opcode srcreg dstreg : precise_entry i = true → precise (body i opcode srcreg dstreg).
Proof.
  intros [_ Hp]%andb_prop. unfold body. pose proof (precise_singles i srcreg) as [[[[[[[[N1 N2] N3] N4] N5] N6] N7] N8] N9].
  pose proof (precise_fixed_ops i srcreg dstreg) as [[[F1 F2] F3] F4].
  destruct i.(mnemo); try discriminate Hp;
    lazymatch goal with
    | |- precise (op_logic _ _ _) => by apply precise_logic
    | |- precise (op_ADD _ _ _) => by apply precise_ADD
    | |- precise (op_SUB _ _ _) => by apply precise_SUB
    | |- precise (op_CMP _ _ _) => by apply precise_CMP
    | |- precise (op_bit _ _ _) => by apply precise_bit
    | |- precise (op_shift _ _ _ _) => apply precise_shift; [intros; solve [eauto 2 with cpu_looks nocore]|exact Hp]
    | |- precise (op_shift_w _ _ _) => apply precise_shift_w; intros sz0 d0
    | |- precise (op_MOVE _ _ _) => apply precise_MOVE
    | |- precise (op_TST _ _) => apply precise_TST
    | |- precise (op_PEA _ _) => apply precise_PEA; by apply negb_true_iff
    | |- precise (mret tt) => apply precise_commits, commits_calm, calm_ret
    | |- precise (_ _ _ _) => first [assumption | destruct (precise_pairs i srcreg dstreg Hp) as [[[[[[? ?] ?] ?] ?] ?] ?]; assumption]
    | |- precise (_ _ _) => assumption
    end.
  - apply (calm_shift_w kASR).
  - apply (calm_shift_w kASL).
  - apply (calm_shift_w kLSR).
  - apply (calm_shift_w kLSL).
  - apply (calm_shift_w kROL).
  - apply (calm_shift_w kROR).
  - apply (calm_shift_w kROXL).
  - apply (calm_shift_w kROXR).
Qed.
End instructions.

(** ** Instructions and their access errors *)

Section theorems.
Context `{ram_config} `{host}.

Lemma put_keeps_pc sz a v c r c' : lift (put_data sz a v) c = COk r c' → c'.(pc_offset) = c.(pc_offset).
Proof. unfold lift. destruct (put_data sz a v c.(mem)); try done. by intros [= _ <-]. Qed.

(** Access errors are precise.  The code of an instruction of [precise_entry] (the moves, the
    arithmetic, logic, bit and shift instructions with all their addressing modes, LEA and PEA) has
    two parts: one that computes, and at the end a store to memory, if there is one.  An access
    error in the first part leaves a state from which the instruction can be begun again: all
    registers (after the correction by [fixup]), all flags, the mode and the program counter of the
    fault are as before.  When the store is reached, the rest of the instruction is done, no
    correction is pending, and the program counter of the fault is that of the next
    instruction. *)
Lemma faults_precise (i : instr) (opcode srcreg dstreg : Z) :
  precise_entry i = true →
  ∃ pre : C store_req,
    (∀ c, gen_opcode i opcode srcreg dstreg c = (o ← pre; commit o) c) ∧
    ∀ c, c.(fixup) = None → regs_ok c →
      match pre c with
      | CThrow c' => recovers c c'
      | COk (Some _) c1 => settled c1 ∧ c1.(fixup) = None
      | _ => True
      end.
Proof.
  intros Hi. destruct (precise_body i opcode srcreg dstreg Hi) as (pre & E & Hp). apply andb_prop in Hi as [Hl%Z.eqb_eq _].
  assert (∀ c, gen_opcode i opcode srcreg dstreg c = (body i opcode srcreg dstreg;; sync_m68k_pc) (c_pc_offset 2 c)) as Eg.
  { intros c. unfold gen_opcode, mbind, C_bind, c_upd, c_get, c_when, mret, C_ret, privileged. by rewrite Hl. }
  exists (c_upd (c_pc_offset 2);; o ← pre; match o with Some x => mret (Some x) | None => sync_m68k_pc;; mret None end). split.
  - intros c. rewrite Eg. unfold mbind at 1 2 3, C_bind at 1 2 3, c_upd. rewrite E. unfold mbind, C_bind. pose proof (Hp (c_pc_offset 2 c)) as [Hs _].
    destruct (pre (c_pc_offset 2 c)) as [[[[sz a] v]|] c1| | | |]; try done; unfold commit, mret, C_ret.
    + destruct (lift (put_data sz a v) c1) as [[] c2| | | |] eqn:El; try done. destruct Hs as [_ Hz]. rewrite <- (put_keeps_pc _ _ _ _ _ _ El) in Hz.
      unfold sync_m68k_pc, mbind, C_bind, c_get, c_when. rewrite Hz. done.
    + destruct (sync_m68k_pc c1) as [[]| | | |]; done.
  - intros c Hf Hu. unfold mbind, C_bind, c_upd. destruct (Hp (c_pc_offset 2 c)) as [Hs Hr].
    assert (recovers c (c_pc_offset 2 c)) as Hc.
    { apply (recovers_peeked c c); [by apply recovers_refl|]. split; [by destruct c|done]. }
    specialize (Hr c Hc Hf). destruct (pre (c_pc_offset 2 c)) as [[[[sz a] v]|] c1| | | |]; try done.
    pose proof (peeks_sync c1) as Hy. unfold sync_m68k_pc, mbind, C_bind, c_get, c_when, m68k_incpc, c_upd, mret, C_ret in *. by destruct (nz (pc_offset c1)).
Qed.
End theorems.
