(* ===== verification/PageSpec.v ===== *)
(** * Demand paging

    An access error in an instruction of [FaultSpec.precise_entry], its exception, the code that
    handles it and RTE, together: the program does not see them.  [ExcSpec] proves the exception and
    its return, [FaultSpec] what an instruction leaves behind; the memory is that of the interface
    [Space.data_space]. *)

From S2P Require Import Prelude Ram Mmu Cpu Insn Handlers ShiftSpec MmuSpec MmuRun MulDivSpec Space SpaceMmu SrSpec ExcSpec ExcRun Faults FaultSpec.

Section paging.
Context `{data_space} `{host} (table68k : Z → option instr).

(** What a program has in its registers. *)
Record same_program (c c' : cpu) : Prop := {
  pr_bits : bits c' = bits c;
  pr_pc : c'.(pc) = c.(pc);
  pr_usp : user_sp c' = user_sp c;
  pr_isp : interrupt_sp c' = interrupt_sp c;
  pr_msp : master_sp c' = master_sp c;
  pr_greg : ∀ r, r ≠ A7 → aget c'.(greg) r = aget c.(greg) r }.

(** The access error in [c'] is taken as if the program was in [c]. *)
Record unseen (c c' : cpu) : Prop := {
  un_bits : bits c' = bits c;
  un_pc : c'.(fault_pc) = c.(pc);
  un_stacks : c'.(usp) = c.(usp) ∧ c'.(isp) = c.(isp) ∧ c'.(msp) = c.(msp);
  un_greg : ∀ r, aget (undone c').(greg) r = aget c.(greg) r }.

Lemma unseen_recovers c s c' : same_mode c.(mem) s → recovers (c_mem s (c_fault_pc c.(pc) c)) c' → unseen c c'.
Proof.
  intros [Hs _] [Er Hg _ [Hm _]]. cbn [c_mem mem] in Hm. split; try done.
  - assert (supervised c' = supervised c) as Es by (unfold supervised; congruence). unfold bits. rewrite Es. by rewrite Er.
  - by rewrite Er.
  - rewrite Er. done.
Qed.

Lemma unseen_store sz a v c c' : settled c → c.(fixup) = None → lift (put_data sz a v) c = CThrow c' → unseen c c' ∧ store_fault a v c'.(mem).
Proof.
  intros [Hf _] Hx. unfold lift. pose proof (keeps_put_data sz a v c.(mem)) as Hk. pose proof (put_data_fault sz a v c.(mem)) as Hp.
  destruct (put_data sz a v c.(mem)) as [|s| |]; try done. intros [= <-]. split; [|by apply Hp]. destruct Hk as [Hk _].
  split; [|done|done|]; [unfold bits, supervised; cbn; by rewrite Hk|]. intros r. unfold undone. cbn [c_mem fixup]. by rewrite Hx.
Qed.

Lemma unseen_program c c' : unseen c c' →
  user_sp (undone c') = user_sp c ∧ interrupt_sp (undone c') = interrupt_sp c ∧ master_sp (undone c') = master_sp c.
Proof.
  intros [Hb _ (E1 & E2 & E3) Hg]. destruct (undone_rest c') as (_ & Hbu & U1 & U2 & U3 & _ & _ & _ & _ & _ & Um). rewrite Hb in Hbu.
  injection Hbu as _ _ Hs Hm _ _ _ _ _ _. unfold user_sp, interrupt_sp, master_sp, sp. rewrite Hs, Hm, U1, U2, U3, E1, E2, E3, Hg. done.
Qed.

(** An access error that is taken as in [c] comes back to [c]. *)
Lemma unseen_returns c c' i opcode srcreg dstreg : unseen c c' → c'.(master) = false → ready 2 c' → i.(mnemo) = i_RTE →
  ∃ c1, Exception 2 0 c' = COk tt c1 ∧ taken 2 c' c1 ∧
    ∀ c2, handled (λ b, sp c1 <= b < sp c1 + 8) c1 c2 → (∀ r, r ≠ A7 → aget c2.(greg) r = aget c1.(greg) r) →
      ∃ c3, handler i opcode srcreg dstreg c2 = COk tt c3 ∧ same_program c c3.
Proof.
  intros Hu Hma Hr Hi. destruct (unseen_program c c' Hu) as (Eu & Ei & Em).
  destruct (exception_rte 2 0 c' i opcode srcreg dstreg) as (c1 & E & Ht & Hback); [done..|]. exists c1. split; [done|]. split; [done|].
  intros c2 Hh Hg. destruct (Hback c2 Hh) as (c3 & E3 & B3 & P3 & U3 & I3 & M3 & G3). exists c3. split; [done|]. destruct Hu as [Hb Hp _ Hgr].
  change (return_pc 2 c') with c'.(fault_pc) in P3. split; try congruence. intros r Hn. rewrite G3, Hg, (tk_greg _ _ _ Ht) by done. apply Hgr.
Qed.

(** The instruction that is next in [c] is one whose access errors are precise. *)
Definition next_precise (c : cpu) : Prop :=
  match get_iword c.(pc) 0 c.(mem) with
  | MOk opcode _ => ∃ i, table68k opcode = Some i ∧ precise_entry i = true
  | _ => True
  end.

(** The instruction that is next in [c] has done in [c4] all but its last store. *)
Definition store_left (c : cpu) (sz : wordsizes) (a v : Z) (c4 : cpu) : Prop :=
  ∃ opcode s i (pre : C store_req),
    get_iword c.(pc) 0 c.(mem) = MOk opcode s ∧ table68k opcode = Some i
    ∧ (∀ x, gen_opcode i opcode (srcreg_of i opcode) (dstreg_of i opcode) x = (o ← pre; commit o) x)
    ∧ pre (c_mem s (c_fault_pc c.(pc) c)) = COk (Some (sz, a, v)) c4.

Lemma fault_unseen c c' : c.(fixup) = None → regs_ok c → next_precise c → execute_one table68k c = CThrow c' →
  unseen c c' ∨ ∃ sz a v c4, store_left c sz a v c4 ∧ unseen c4 c' ∧ store_fault a v c'.(mem).
Proof.
  intros Hf Hu Hn He. unfold execute_one in He. rewrite (c_bind_ok _ _ c c.(pc) c), (c_bind_ok _ _ c tt (c_fault_pc c.(pc) c)) in He by done.
  pose proof (keeps_iword c.(pc) 0 c.(mem)) as Hk. unfold next_precise in Hn. unfold mbind at 1, C_bind at 1, lift at 1 in He.
  change (mem (c_fault_pc (pc c) c)) with (mem c) in He. destruct (get_iword c.(pc) 0 c.(mem)) as [opcode s|s| |] eqn:Ei; try done.
  - destruct Hn as (i & Et & Hp). rewrite Et in He. set (c0 := c_mem s (c_fault_pc c.(pc) c)) in He. unfold handler in He.
    destruct (faults_precise i opcode (srcreg_of i opcode) (dstreg_of i opcode) Hp) as (pre & Eg & Hpre). specialize (Hpre c0 Hf Hu).
    unfold mbind at 1, C_bind at 1 in He. rewrite Eg in He. unfold mbind at 1, C_bind at 1 in He. destruct (pre c0) as [[[[sz a] v]|] c4|c4| | |] eqn:Ep; try done.
    + cbn [commit] in He. destruct (lift (put_data sz a v) c4) as [|c5| | |] eqn:El; try done. injection He as ->. right. exists sz, a, v, c4.
      destruct (unseen_store sz a v c4 c') as []; [apply Hpre..|done|]. split_and!; [|done..]. by exists opcode, s, i, pre.
    + injection He as <-. left. by apply (unseen_recovers c s).
  - injection He as <-. left. apply (unseen_recovers c s); [apply Hk|]. by apply recovers_refl.
Qed.

(** C2: Demand paging works for the instructions of [precise_entry], outside master mode.  These
    are, unprivileged: MOVE, MOVEA, LEA, PEA, CLR, TST, SWAP, EXT, Scc, TAS, NOP; ADD, SUB, CMP with
    their A and X forms, NEG, NEGX, MULU.W, MULS.W, ABCD, SBCD, NBCD; AND, OR, EOR, NOT; the bit
    instructions BTST, BCHG, BCLR, BSET; the shifts and rotates.  Not among them are CMPM, MOVEM,
    MOVEP, the long multiplication and all divisions, CHK, CAS, the bit fields, whatever takes
    something off the stack (UNLK, RTS, RTE), jumps, and instructions that start an exception; nor,
    except for MOVE and the X and decimal forms, those with a source (An)+ or -(An) and a
    destination that is not a register ([pair_ok]).  CMPM, and MOVEM to registers with its base
    among them, in fact fail: RTE repeats them with an address register already changed.  The master bit must be clear: in master mode
    RTE brings back an old MSP.

    Let such an instruction end with an access error, in the fetch of its opcode, extension words or
    operands or in its store, with room for the frame and a readable vector ([ready]).  The CPU is
    then in the handler of access errors; whatever that does, if it leaves the registers and the
    frame as it found them, its RTE brings back the program: either as it was before the
    instruction, which then is done again from its beginning, or, if the store failed, as it is
    after the instruction; then the frame has been made from the address and the data of the store,
    which is all that is left to do. *)
Theorem page_fault_transparent (c c' : cpu) (i : instr) (opcode srcreg dstreg : Z) :
  c.(fixup) = None → regs_ok c → next_precise c → execute_one table68k c = CThrow c' → c'.(master) = false → ready 2 c' → i.(mnemo) = i_RTE →
  ∃ c1, m68k_round table68k c = COk tt c1 ∧ taken 2 c' c1 ∧
    ∀ c2, handled (λ b, sp c1 <= b < sp c1 + 8) c1 c2 → (∀ r, r ≠ A7 → aget c2.(greg) r = aget c1.(greg) r) →
      ∃ c3, handler i opcode srcreg dstreg c2 = COk tt c3 ∧
        (same_program c c3
         ∨ ∃ sz a v c4, store_left c sz a v c4 ∧ same_program c4 c3 ∧ store_fault a v c'.(mem)).
Proof.
  intros Hf Hu Hn He Hma Hr Hi. unfold m68k_round, c_try. rewrite He.
  destruct (fault_unseen c c' Hf Hu Hn He) as [Hun|(sz & a & v & c4 & Hl & Hun & Hs)].
  - destruct (unseen_returns c c' i opcode srcreg dstreg Hun Hma Hr Hi) as (c1 & E & Ht & Hback). exists c1. split_and!; try done.
    intros c2 Hh Hg. destruct (Hback c2 Hh Hg) as (c3 & ? & ?). eauto.
  - destruct (unseen_returns c4 c' i opcode srcreg dstreg Hun Hma Hr Hi) as (c1 & E & Ht & Hback). exists c1. split_and!; try done.
    intros c2 Hh Hg. destruct (Hback c2 Hh Hg) as (c3 & ? & ?). exists c3. split; [done|]. right. by exists sz, a, v, c4.
Qed.
End paging.

(** ** A machine with a page that is not there *)

#[local] Existing Instance MmuRun.example_ram.
#[local] Existing Instance ShiftSpec.example_host.
#[local] Existing Instance ExcRun.machine_space.

(** MOVE.L (A0)+,D0 at 0x5200, in user mode, with A0 at page 9. *)
Definition move_entry : instr := mk_instr i_MOVE 0 0 sz_long Aipi 0 Dreg 0 0 (Some 0) (Some 9).
Definition paged_table (opcode : Z) : option instr := if opcode =? 0x2018 then Some move_entry else None.
Definition with_program (s : mmu) : mmu := switched false (s_ram (store sz_word 0x8200 0x2018 s.(ram)) s).
Definition paged_mem : mmu := with_program example.
Definition paged_cpu : cpu := c_mem paged_mem (c_pc 0x5200 (c_fixup None (c_greg (aset (machine_cpu false false).(greg) 8 0x9000) (machine_cpu false false)))).

Lemma program_coherent D s : coherent example_on example_mem D s → coherent example_on example_mem D (with_program s).
Proof.
  intros Hc. apply coherent_mode, (coherent_regs example_on example_mem D (s_ram _ s) (r_supervisor false)); [|done].
  apply coherent_store; [done|]. intros b Hb. apply example_outside. cbn in Hb. lia.
Qed.

Lemma paged_coherent D : coherent example_on example_mem D paged_mem.
Proof. apply program_coherent, example_coherent. Qed.

Lemma program_no_hw s : no_hw s → no_hw (with_program s).
Proof. done. Qed.

Lemma program_mode s : mode_is false (with_program s).
Proof. done. Qed.

Lemma paged_no_hw : no_hw paged_mem.
Proof. apply program_no_hw, cold_no_hw, example_cold. Qed.

Lemma paged_fetch : ∃ s, get_iword 0x5200 0 paged_mem = MOk 0x2018 s ∧ coherent example_on example_mem (λ _, True) s ∧ rest_same example_on example_mem paged_mem s ∧ no_hw s.
Proof.
  unfold get_iword. rewrite get_current by done. change (u32 (0x5200 + 0)) with 0x5200.
  pose proof (get_spec example_on example_mem (λ _, True) (false, 0x5200) sz_word false sz_word paged_mem (λ _, eq_refl) example_tables example_aligned (paged_coherent _) I) as Hg.
  replace (reaches example_on example_mem (false, 0x5200) false) with (to_ram 0x8200) in Hg by (by vm_compute). destruct Hg as (s & E & Hc & Hr & Hn); [by vm_compute|].
  exists s. split_and!; [|done..|apply Hn, paged_no_hw]. cbn [fst snd] in E. change (current_atc paged_mem) with false. rewrite E. f_equal.
  destruct Hr as (_ & _ & Hm). cbn [fetch]. unfold do_get_mem_word. rewrite !Hm by (apply example_outside; lia). cbn [paged_mem with_program switched s_current_atc s_regs s_ram ram store].
  unfold do_put_mem_word. rewrite aget_aset_ne by lia. by rewrite !aget_aset_eq.
Qed.

Lemma paged_apart : apart (λ _, True) (slot1 (false, 0x9000) true false) (λ x, machine_pages x.1 x.2).
Proof.
  intros [su b] Hb. split; [done|]. intros d w. unfold slot1, l1_slot. cbn [fst snd] in *. change (ATC_L1_INDEX 0x9000) with 9. unfold ATC_L1_INDEX, ATC_L1_SIZE. rewrite shr12.
  assert (b / 4096 = 5 ∨ b / 4096 = 8) as [-> | ->] by (destruct Hb; Z.div_mod_to_equations; lia); by destruct su, d, w.
Qed.

Lemma move_fault c s : get_long (aget c.(greg) 8) c.(mem) = MThrow s → handler move_entry 0x2018 0 0 c = CThrow (c_mem s (c_pc_offset 2 c)).
Proof.
  intros E. unfold handler, gen_opcode. cbn [mnemo move_entry plev size smode dmode]. unfold mbind at 1, C_bind at 1, c_upd at 1.
  unfold body. cbn [mnemo]. unfold op_MOVE, genamode2. cbn [smode size]. unfold amode_addr, areg, xget, lift, mbind, C_bind, c_get, mret, C_ret, c_when. cbn.
  change (8 + 0) with 8. by rewrite E.
Qed.

Lemma execute_fault c s1 s : get_iword c.(pc) 0 c.(mem) = MOk 0x2018 s1 → get_long (aget c.(greg) 8) s1 = MThrow s →
  execute_one paged_table c = CThrow (c_mem s (c_pc_offset 2 (c_fault_pc c.(pc) c))).
Proof.
  intros E1 E2. unfold execute_one. rewrite (c_bind_ok _ _ c c.(pc) c), (c_bind_ok _ _ c tt (c_fault_pc c.(pc) c)) by done.
  unfold mbind at 1, C_bind at 1, lift at 1. change (mem (c_fault_pc (pc c) c)) with (mem c). rewrite E1. cbn [paged_table Z.eqb Pos.eqb].
  change (srcreg_of move_entry 0x2018) with 0. change (dstreg_of move_entry 0x2018) with 0.
  unfold mbind at 1, C_bind at 1. by rewrite (move_fault _ s).
Qed.

(** The access error, and a state that is still right for the pages of the supervisor. *)
Lemma paged_fault : ∃ s, execute_one paged_table paged_cpu = CThrow (c_mem s (c_pc_offset 2 (c_fault_pc 0x5200 paged_cpu)))
  ∧ coherent example_on example_mem (λ x, machine_pages x.1 x.2) s ∧ mode_is false s ∧ same_outside example_on example_mem paged_mem.(ram) s.(ram).
Proof.
  assert (in_page (false, 0x9000) sz_long) as Hin by (by vm_compute). 
  destruct paged_fetch as (s1 & E1 & Hc1 & Hr1 & Hn1). pose proof Hr1 as (R1 & A1 & M1).
  pose proof (get_spec example_on example_mem (λ _, True) (false, 0x9000) sz_long true sz_long s1 (λ _, eq_refl) example_tables example_aligned Hc1 I) as Hg.
  replace (reaches example_on example_mem (false, 0x9000) false) with faults in Hg by (by vm_compute). 
  destruct (Hg Hin Hn1) as (s & E & _ & Hm & Hc).
  cbn [fst snd] in E.
  destruct (program_mode example : mode_is false paged_mem) as [Hs Ha].
  assert (get_long 0x9000 s1 = MThrow s) as E2.
  { unfold get_long. change (is_unaligned 0x9000 4) with false. cbv iota. rewrite get_current by congruence. by rewrite A1, Ha. }
  exists s. split_and!.
  - by apply (execute_fault paged_cpu s1).
  - apply Hc, paged_apart.
  - pose proof (keeps_get_data sz_long 0x9000 s1) as Hk. cbn [get_data] in Hk. rewrite E2 in Hk. destruct Hk as [K1 K2]. split; congruence.
  - by transitivity s1.(ram).
Qed.

(** The bytes of the vectors. *)
Lemma paged_vectors s b : same_outside example_on example_mem paged_mem.(ram) s.(ram) → 0x5000 <= b < 0x5100 → mmu_at example_on example_mem true s b = 0.
Proof.
  intros Hm Hb. rewrite <- (vector_bytes false false b Hb). change (at_stack (machine_cpu false false) b) with (aget example.(ram) (target example_on example_mem true b)).
  unfold mmu_at. rewrite machine_target by (left; lia). replace (b <? 0x6000) with true by lia. rewrite Hm by (apply example_outside; lia).
  cbn [paged_mem with_program switched s_current_atc s_regs s_ram ram]. apply store_byte. cbn. lia.
Qed.

Lemma paged_regs : regs_ok paged_cpu.
Proof.
  intros r. cbn [paged_cpu machine_cpu c_mem c_pc c_fixup c_greg greg].
  rewrite !aget_aset, aget_empty. repeat case_decide; cbv iota; lia.
Qed.

Lemma paged_ready c s : coherent example_on example_mem (λ x, machine_pages x.1 x.2) s → mode_is false s → same_outside example_on example_mem paged_mem.(ram) s.(ram) →
  c.(mem) = s → c.(fixup) = None → 0 <= c.(intmask) < 8 → c.(isp) = 0x8100 → c.(vbr) = 0x5000 → c.(fault_pc) = 0x5200 → ready 2 c ∧ interrupt_sp (undone c) = 0x8100.
Proof.
  intros Hc Hmode Hm Es Hf Hi Ei Ev Ef. assert (interrupt_sp (undone c) = 0x8100) as Eisp.
  { unfold undone. rewrite Hf. unfold interrupt_sp, supervised. rewrite Es. by destruct Hmode as [-> _]. }
  assert (vector 2 c = 0x5008) as Evec by (unfold vector; rewrite Ev; done).
  split; [|done]. split; rewrite ?Eisp, ?Evec, ?Es; try done; try lia.
  - unfold supervised. by rewrite Es, (proj1 Hmode).
  - unfold return_pc, in_u. cbn. rewrite Ef. lia.
  - intros b Hb. apply machine_writable. cbn in Hb. lia.
  - intros b Hb. apply machine_readable. left. lia.
  - intros b Hb. unfold at_stack. rewrite Es. change (ds_at true s b) with (mmu_at example_on example_mem true s b). rewrite (paged_vectors s b Hm) by lia. cbn. lia.
Qed.

(** The handler returns at once; the program is at its instruction again, with A0 as before. *)
Lemma page_fault_transparent_witness :
  ∃ s c1 c3, m68k_round paged_table paged_cpu = COk tt c1 ∧ sp c1 = 0x80c4 ∧ handler rte_entry 0x4e73 0 0 c1 = COk tt c3
    ∧ (same_program paged_cpu c3 ∨ ∃ sz a v c4, store_left paged_table paged_cpu sz a v c4 ∧ same_program c4 c3 ∧ store_fault a v s).
Proof.
  destruct paged_fault as (s & E & Hc & Hmode & Hm).
  destruct (paged_ready (c_mem s (c_pc_offset 2 (c_fault_pc 0x5200 paged_cpu))) s Hc Hmode Hm) as [Hr Hisp]; try (reflexivity || (split; [discriminate|reflexivity])).
  destruct (page_fault_transparent paged_table paged_cpu (c_mem s (c_pc_offset 2 (c_fault_pc 0x5200 paged_cpu))) rte_entry 0x4e73 0 0) as (c1 & E1 & Ht & Hback).
  - reflexivity.
  - exact paged_regs.
  - unfold next_precise. destruct paged_fetch as (s1 & E1 & _). change (get_iword (pc paged_cpu) 0 (mem paged_cpu)) with (get_iword 0x5200 0 paged_mem). rewrite E1. exists move_entry. split; reflexivity.
  - exact E.
  - reflexivity.
  - exact Hr.
  - reflexivity.
  - destruct (Hback c1) as (c3 & E3 & H3).
    + destruct Ht as [_ Hbits _ _ [Ho Hmd] _]. injection Hbits as _ _ Hs Hma _ _ _ _ _ _. split; [exact Hs|exact Hma|exact Ho|exact Hmd|reflexivity..].
    + reflexivity.
    + exists s, c1, c3. split; [exact E1|]. split; [|split; [exact E3|exact H3]]. destruct Ht as [_ _ _ Hsp _ _]. rewrite Hsp, Hisp. reflexivity.
Defined.
